(* ===== verification/_CoqProject ===== *)
-Q . S2P
Prelude.v
TimeUtil.v
Json.v
Redaction.v
PyValue.v
JsonText.v
SchemaGuard.v
States.v
Jobs.v
RunModel.v
RunService.v
RunInv.v
RunOps.v
Platform.v
Capability.v
Worker.v
Reconciler.v
RunProps.v
World.v
SystemProps.v
Actions.v
Cron.v
Scheduler.v
Idempotency.v
ModelManager.v
ModelInv.v
ModelProps.v
LlmIdempotency.v
Chaining.v
A1.v
Chunking.v
Evidence.v
Knowledge.v
KnowledgeProps.v
JsonGuard.v
Pagination.v
Manifest.v
Catalog.v
Readiness.v
Installations.v
InstallProps.v
SecretStore.v
Inference.v
InferenceProps.v
Auth.v
AuthProps.v
Telephony.v
TelephonyProps.v
CallbackGuard.v
BrokerApi.v
Google.v
GoogleProps.v
Profiles.v
ProfilesProps.v
Transport.v
Once.v
Events.v
Downloads.v
Regex.v
Specs.v
Engine.v
EngineProps.v
Backup.v
BackupProps.v
Untrusted.v
SchedulesApi.v
Concrete.v
ConcreteServices.v
Findings.v
Witnesses.v
WitnessesServices.v
WitnessesInstall.v
WitnessesBroker.v
WitnessesSecrets.v
WitnessesSdk.v
WitnessesInference.v
WitnessesGoogle.v
WitnessesProfiles.v
WitnessesEngine.v
WitnessesBackup.v
