(* ===== verification/Prelude.v ===== *)
(** * Crewquarters: a verification library

    Crewquarters is an appliance that runs agents in containers: users install agents, start
    them by hand, on schedules or from other agents; a worker dispatches each run to a
    container runtime; agents call back through a capability broker, ask users for input, use
    local models and query uploaded documents.  This library models the Python services under
    [src/services] and [src/packages] that carry this logic and proves what makes them correct.
    The prelude below holds the record update notation, the transaction monad with its
    weakest-precondition rules, and the tactics of the library.

    ** The parts, and where they are modelled

    - [TimeUtil], [Json], [JsonText]: timestamps, JSON values, [json.dumps], platform errors
      ([shared/timeutil.py], [errors.py]); [Regex]: anchored regular expressions.
    - [Redaction], [SchemaGuard]: [shared/redaction.py], [schema_guard.py].
    - [States], [Jobs]: the run states and their transition table ([runs/states.py]); the job
      queue ([shared/jobs.py]).
    - [RunModel], [RunService]: the rows of one run and every operation on it
      ([runs/service.py]); [RunInv], [RunOps] hold the invariant of a run and the proof that each
      operation keeps it, [RunProps] what each operation does.
    - [Platform]: the database, [lock_run], [create_run], the audit log.
    - [Capability]: capability tokens and the broker's [authorize] ([shared/capability.py],
      [capability_broker/auth.py], [routers/internal.py]).
    - [Worker], [Reconciler]: the scheduler's worker, reconciler and exit watcher.
    - [World], [SystemProps], [Actions]: the system as a transition system over the database
      and the jobs in progress (requests, agent calls, claims, the transactions of handlers,
      crashes, the reconciler), and its theorems.
    - [Cron], [Scheduler], [SchedulesApi], [Chaining]: occurrences in time zones, the scheduler's
      tick, the schedules API, agents that start agents.
    - [Idempotency], [LlmIdempotency]: keyed HTTP requests ([control_api/idempotency.py]) and keyed
      model calls ([model_gateway/idempotency.py]).
    - [ModelManager], [ModelInv], [ModelProps]: the model gateway's manager: admission, leases,
      loading, unloading, reaping, recovery, its invariant and its theorems.  [Inference],
      [InferenceProps]: callers, routing, keys, token budgets and usage of model calls
      ([inference.py], [credentials.py], the route of [main.py]).
    - [PyValue], [Manifest], [Catalog], [Readiness], [Installations], [InstallProps]: Python's [==], [<] and
      [sorted] on JSON values, agent manifests ([shared/manifest.py]), the catalog
      ([control_api/catalog.py]), readiness checks ([views.py]), the routes that install, update and
      uninstall agents ([routers/agents.py], [routers/runs.py]), and their theorems.
    - [Auth], [AuthProps]: setup code, owner account, sign-in, sessions, origin and CSRF checks, rate
      limiting ([control_api/security.py], [deps.py], [routers/auth.py], [admin.py]).
    - [Telephony], [TelephonyProps], [CallbackGuard]: fixed-script calls, Twilio's answers and
      callbacks as a transition system, the signature check ([broker/twilio.py]).
    - [BrokerApi]: every route of the agent API ([broker/agent_api.py]).  Behind it, [Google] with
      [GoogleProps]: consent, the connection, access tokens and their refresh, the Gmail and Sheets
      requests ([broker/google.py]); [Profiles] with [ProfilesProps]: API keys and the Twilio account, their
      tests and statuses ([broker/connections.py], [twilio.py], the key test of [model_gateway/main.py]).
    - [SecretStore]: encrypted provider secrets and key rotation ([secret_store/__init__.py], [db.py]).
    - [Backup], [BackupProps]: backup archives, the directory they appear in, its listing, retention and
      download, verification, restore with the check of stored secrets ([shared/backup.py],
      [control_api/backups.py], [restore.py], the routes of [routers/system.py], the key file of
      [secret_store/__init__.py]).
    - [Transport], [Once], [Events]: the SDK that agents use ([python_sdk]): its errors and the request
      loop with its retries ([errors.py], [_transport.py]), [once] on top of the platform's action
      records ([idempotency.py], against [RunService]), the event buffer ([events.py]).
    - [A1]: Sheets ranges.  [JsonGuard], [Pagination]: the request guard and the listings of the
      control API.
    - [Specs], [Downloads], [Engine], [EngineProps]: the runtime daemon: run specs and container configs,
      the store of model files ([downloads.py]), and its engine as threads that call Docker under
      locks, with the server in front of it ([engine.py], [docker_api.py], [server.py]).
    - [Chunking], [Evidence], [Knowledge], [KnowledgeProps]: the knowledge service: chunking,
      evidence in prompts, documents and their ingestion, retrieval.  [Untrusted]: the SDK's
      evidence blocks.
    - [Concrete], [ConcreteServices], [WitnessesInstall], [WitnessesSdk]: instances of all parameters and
      short histories, on which the files [Witnesses...] apply the theorems.  Behaviours that comments
      of the source rule out, or that it does not mean, are proved in [Findings], and beside the
      histories that show them in [WitnessesInstall], [WitnessesSdk], [WitnessesInference],
      [WitnessesEngine], [WitnessesGoogle], [WitnessesProfiles] and [WitnessesBackup].

    The parts share the database and the job queue: routes and agents change runs, which
    enqueue jobs in the same transaction; workers claim jobs and call the runtime between
    transactions; the reconciler and the scheduler act on what time has passed.  The gateway and
    the knowledge service have tables of their own and use the same queue.  Interfaces to code
    outside the repository are classes whose laws are its documented behaviour: [Clock],
    [JsonSchema], [Jwt] with [JwtLaws], [Runtime], [Readiness], [CronLib] with [CronLaws], [Digest],
    [Embedder], [StatusClients], [Machine], [PhoneHash], [Hmac] with [HmacLaws], [Argon2] with
    [Argon2Laws], [CsrfMac], [Aead] with [AeadLaws], [Codecs] with [CodecLaws].  A law about collisions is stated for the values
    in use, since no function of bounded output separates all inputs.

    ** How the code is read

    - A service function inside a transaction is a computation [Tx E S A]: it reads and changes
      the rows and may raise.  An exception rolls the transaction back, so [Err] carries no
      state.  A handler with several transactions is modelled transaction by transaction;
      between them anything may happen.  Operations on one run hold its row lock, so each is
      one atomic step.  Rows locked by others ([NOWAIT], [SKIP LOCKED]) are predicates.
    - [utcnow()] reads an arbitrary clock ([wall n] is its [n]-th reading); PostgreSQL's [now()] is
      a field of the state.  Seconds are exact microseconds, also where the code uses floats.
      [uuid7()] yields fresh identifiers.
    - Text is 7-bit (UTF-8 bytes in [Pagination]) and JSON numbers are integers.  Messages of
      errors are left out, codes, statuses and details kept.  Dedupe keys and job payloads are
      typed by the f-string or dict that builds them.  [UNEXPECTED] stands for any exception that
      is not a [PlatformError].
    - Agents and the SDK run outside any transaction: their code between two awaits is one step, and
      requests may be resent, delayed or lost, and agents die, between any two.
    - Calls to the container runtime, to model servers and to parsers are represented by their
      outcomes, which the theorems quantify over.
    - In [Engine] threads are interleaved at every call of Docker, access to the disk and lock.  Docker is
      its containers and images with the documented effect of each call; a call may fail, with or
      without its effect, containers change by themselves, and the daemon may restart.
    - In [Google] and [Profiles] the tasks of a process are interleaved at their awaits and a transaction
      is one step; Google, Twilio and the browser are represented by what they send.  Other services
      change the secrets table too, but not the rows of the connector or of the accounts.
    - In [Inference] the query of a budget check and its comparison with the reservations are two
      steps, as are the recording of usage and the release of the reservation; [str] of a list or a
      dict is only modelled up to its first character.  In [Downloads] the manifest is kept apart
      from the files of the model, and [cancel_install] waits for the thread without a timeout.

    - In [Backup] file contents are abstract values with the codecs of JSON, tar and [pg_dump]; a creation is
      interleaved with others after each change of the directory, and may fail or die there.  The
      database is the tables that a backup or a restore reads, and the rest of it.

    ** What the theorems show

    - Runs ([SystemProps], [Actions]): a run is never lost (a live job for every QUEUED or CANCELLING
      run), its event log is its history, it waits exactly while a request is pending, it only
      moves forward, occurrences and start keys create one run, external actions are handed out
      once.  [RunProps]: limits, results, container exits, stale attempts, answers, event batches.
    - Authority ([Capability], [A1], [BrokerApi], [Specs]): what [authorize] grants is in the token and
      in the approval; every call the broker makes for an agent stays within the granted
      capabilities and the configured resources; tokens round-trip; containers are contained.
    - The daemon ([EngineProps]): in every reachable state each container is the hardened one of a
      validated spec or profile; an attempt has one container; the collector spares what runs or has
      just ended; requests settle and release their locks; logs are read back as written.
    - Agents ([Manifest], [Catalog], [Readiness], [InstallProps]): validated manifests are normal,
      versions never change, installations run with what was approved and bindings are resolved;
      updates approve explicitly; manual runs are authorized.
    - Sign-in ([AuthProps]): one owner, sessions authenticate within their limits and never after
      sign-out, passwords decide, the limiter is exact.
    - Calls ([TelephonyProps], [CallbackGuard]): scripts are the owner's, a call is placed once per key
      and within the limit, only moves forward, settles, its callbacks are answered; forged
      callbacks are refused and accounted for.
    - Secrets ([SecretStore]): over every history a secret opens to what was last stored in it, with
      every keyring that still holds its key, for its provider only and in no other row.
    - Backups ([BackupProps]): every listed archive is complete and verifies, restoring it gives back the
      snapshot, its documents and, when asked for, the key; downloads never hold the key; retention
      keeps the newest; only an archive that is as its manifest lists it changes a device; accounts whose
      secrets do not open are marked, and no others.
    - The Google account ([GoogleProps]): a consent is finished once, in time, and in the browser that
      began it; Google is asked with tokens it issued and scopes it granted; one connection with one
      secret at any time; every task settles and no refresh lock is left held.
    - Provider accounts ([ProfilesProps]): the key that was saved is the key the gateway reads, and what
      is reported as connected is what model calls can use.
    - The SDK ([Transport], [Once], [Events]): an effect is sent at most once, calls end within their
      budget, [once] runs an effect once over all attempts of a run (a composition of the SDK with the
      operations of [RunService] through [Actions]), and events are accounted for.
    - Queue ([Jobs]): the table stays well formed; deliveries are bounded.
    - Schedules ([Scheduler], [Cron], [SchedulesApi]): a due schedule fires once at the right
      occurrence, which is the first one and always exists; schedules are armed while enabled.
    - Models ([ModelProps]): the memory budget holds, leases protect, loads settle; handlers refine
      the step relation of transactions.  Model calls ([InferenceProps]): they are routed as
      authorized, recorded tokens stay within the budgets over every interleaving, replaced keys go
      out of use.  Model files ([Downloads]): what is reported installed was verified, and an
      installation that is answered completes.
    - Idempotency: effects and provider calls happen once, duplicates agree.
    - Knowledge: the tables stay consistent over every interleaving, ingestions settle, queries
      answer with the nearest permitted passages, chunks lose nothing, evidence cannot be forged.
    - Requests: the guard accepts exactly what it should, listings are complete.

    ** Bounds

    [resolve_from] probes 1,440 minutes, [next_from] 10,000 and [latest_from] 100,000 candidates, as the
    code does.  Fuel is used where a loop is not structural, always the length of what it
    consumes: [climb] the number of runs plus one, [chunk_loop] the number of tokens, [check_stack] the
    number of nodes, [sub], [replace_all] and the readers the length of the text; theorems state that
    the result is reached.  [request_from] follows the list of tries the network made; its theorem says
    how many are enough.  [load_polls] follows the list of answers the runtime gave.

    ** Not modelled

    Transcription, speech and the adapters of the model providers, the calls to GitHub and the voice
    bridge of the broker, the encoding of forms and URLs but for path segments, chat, the owner's list of
    backup jobs, diagnostics ([scrub]), the HTTP transport and the host probe of the daemon, document
    parsers, file purging, ownership and modes of files, the SDK's streams, event payloads and clients of
    single capabilities, the fake platform, [crewctl] and the example agents: I/O and glue over
    third-party services, or code that only renders rows.  Next candidates are the agent life cycle and
    the input client of the SDK, and [scrub]. *)

From stdpp Require Export base gmap strings list fin_maps pretty.
From Stdlib Require Export ZArith Lia.
From Stdlib Require Import Sorting.Sorted.

#[export] Set Default Goal Selector "!".

Declare Scope crew_scope.
Delimit Scope crew_scope with crew.
#[global] Open Scope crew_scope.
#[global] Open Scope Z_scope.

(** ** Functional record update

    The services mutate ORM rows field by field ([run.state = target]).  A row is
    a [Record]; [r <| f := v |>] is the row with one column replaced.  A record
    type opts in by giving its [Eta] expansion (constructor applied to its
    projections); the setter of a field is derived from it. *)

Class Eta (R : Type) := eta : R -> R.
Class Field {R T : Type} (get : R -> T) := update : (T -> T) -> R -> R.

Ltac derive_field :=
  match goal with
  | |- @Field ?R ?T ?get =>
      exact (fun (g : T -> T) (r : R) =>
        ltac:(let e := eval cbv [eta] in (eta r) in
              let i := eval hnf in e in
              match i with context C [get r] =>
                let t := context C [g (get r)] in exact t end))
  end.
#[export] Hint Extern 1 (Field _) => derive_field : typeclass_instances.

Notation "r <| f := v |>" := (update (get := f) (fun _ => v) r)
  (at level 12, f at level 11, left associativity) : crew_scope.
Notation "r <| f ::= g |>" := (update (get := f) g r)
  (at level 12, f at level 11, left associativity) : crew_scope.

(** ** Identifiers and instants

    UUIDs are 128-bit numbers; instants are microseconds since the epoch, the
    resolution of Python's [datetime] and of PostgreSQL's [timestamptz]. *)

Abbreviation uuid := N (only parsing).
Abbreviation instant := Z (only parsing).
Definition seconds (n : Z) : Z := n * 1000000.

(** ** Results of fallible calls *)

Inductive Result (E A : Type) : Type :=
| Ok (a : A)
| Err (e : E).
Arguments Ok {E A} a.
Arguments Err {E A} e.

(** Errors as values, with [x ← m; k]. *)
#[export] Instance result_ret {E} : MRet (Result E) := fun _ => Ok.
#[export] Instance result_bind {E} : MBind (Result E) := fun _ _ k m =>
  match m with Ok a => k a | Err e => Err e end.

(** ** The transaction monad

    A service function runs inside a database transaction: it reads and changes
    a session state [S] and may raise.  A raised error aborts the transaction,
    so [Err] carries no state: nothing of it is committed. *)

Definition Tx (E S A : Type) : Type := S -> Result E (A * S).

Definition ret {E S A} (a : A) : Tx E S A := fun s => Ok (a, s).
Definition raise {E S A} (e : E) : Tx E S A := fun _ => Err e.
Definition bind {E S A B} (m : Tx E S A) (k : A -> Tx E S B) : Tx E S B :=
  fun s => match m s with Ok (a, s') => k a s' | Err e => Err e end.
Definition get {E S} : Tx E S S := fun s => Ok (s, s).
Definition gets {E S A} (f : S -> A) : Tx E S A := fun s => Ok (f s, s).
Definition modify {E S} (f : S -> S) : Tx E S unit := fun s => Ok (tt, f s).
Definition when {E S} (c : bool) (m : Tx E S unit) : Tx E S unit :=
  if c then m else ret tt.
Definition guard {E S} (c : bool) (e : E) : Tx E S unit :=
  if c then ret tt else raise e.

Notation "'let!' x := m 'in' k" := (bind m (fun x => k))
  (at level 10, x name, m at level 100, k at level 200) : crew_scope.
Notation "'let!' ' p := m 'in' k" := (bind m (fun x => match x with p => k end))
  (at level 10, p pattern, m at level 100, k at level 200) : crew_scope.
Notation "m ;; k" := (bind m (fun _ => k))
  (at level 100, k at level 200, right associativity) : crew_scope.

(** Iteration of an effectful body over a list ([for x in xs: body(x)]). *)
Fixpoint for_each {E S A} (xs : list A) (body : A -> Tx E S unit) : Tx E S unit :=
  match xs with
  | [] => ret tt
  | x :: xs' => body x ;; for_each xs' body
  end.

(** *** Hoare-style reasoning

    [wp m Q s]: if [m] run in [s] commits, then [Q] holds of its result and
    final state (an aborted transaction changes nothing, so it satisfies any
    [Q]).  [twp] also requires that it commits. *)

Definition wp {E S A} (m : Tx E S A) (Q : A -> S -> Prop) (s : S) : Prop :=
  match m s with Ok (a, s') => Q a s' | Err _ => True end.
Definition twp {E S A} (m : Tx E S A) (Q : A -> S -> Prop) (s : S) : Prop :=
  match m s with Ok (a, s') => Q a s' | Err _ => False end.

Create HintDb wp.

Section wp_rules.
Context {E S A B : Type}.
Implicit Types (s : S).

Lemma wp_ret (a : A) (Q : A -> S -> Prop) s : Q a s -> wp (E := E) (ret a) Q s.
Proof. done. Qed.
Lemma wp_raise (e : E) (Q : A -> S -> Prop) s : wp (raise e) Q s.
Proof. done. Qed.
Lemma wp_bind (m : Tx E S A) (k : A -> Tx E S B) Q s :
  wp m (fun a s' => wp (k a) Q s') s -> wp (bind m k) Q s.
Proof. unfold wp, bind. by destruct (m s) as [[a s']|e]. Qed.
Lemma wp_get (Q : S -> S -> Prop) s : Q s s -> wp (E := E) get Q s.
Proof. done. Qed.
Lemma wp_gets (f : S -> A) (Q : A -> S -> Prop) s : Q (f s) s -> wp (E := E) (gets f) Q s.
Proof. done. Qed.
Lemma wp_modify (f : S -> S) (Q : unit -> S -> Prop) s :
  Q tt (f s) -> wp (E := E) (modify f) Q s.
Proof. done. Qed.
Lemma wp_when (c : bool) (m : Tx E S unit) Q s :
  (c = true -> wp m Q s) -> (c = false -> Q tt s) -> wp (when c m) Q s.
Proof. intros H1 H2. destruct c; [by apply H1 | by apply H2]. Qed.
Lemma wp_guard (c : bool) (e : E) (Q : unit -> S -> Prop) s :
  (c = true -> Q tt s) -> wp (guard c e) Q s.
Proof. intros H. destruct c; [by apply H | done]. Qed.
Lemma wp_if (c : bool) (m1 m2 : Tx E S A) Q s :
  (c = true -> wp m1 Q s) -> (c = false -> wp m2 Q s) ->
  wp (if c then m1 else m2) Q s.
Proof. destruct c; eauto. Qed.
Lemma wp_mono (m : Tx E S A) (Q R : A -> S -> Prop) s :
  wp m Q s -> (forall a s', Q a s' -> R a s') -> wp m R s.
Proof. unfold wp. destruct (m s) as [[a s']|e]; eauto. Qed.
Lemma wp_and (m : Tx E S A) (Q R : A -> S -> Prop) s :
  wp m Q s -> wp m R s -> wp m (fun a s' => Q a s' /\ R a s') s.
Proof. unfold wp. destruct (m s) as [[a s']|e]; eauto. Qed.
Lemma wp_run (m : Tx E S A) (Q : A -> S -> Prop) s a s' :
  wp m Q s -> m s = Ok (a, s') -> Q a s'.
Proof. unfold wp. intros H Heq. by rewrite Heq in H. Qed.
End wp_rules.

(** A loop preserves whatever its body preserves. *)
Lemma wp_for_each {E S A} (I : S -> Prop) (xs : list A) (body : A -> Tx E S unit) s :
  (forall x s, x ∈ xs -> I s -> wp (body x) (fun _ => I) s) ->
  I s -> wp (for_each xs body) (fun _ => I) s.
Proof.
  revert s. induction xs as [|x xs IH]; intros s Hbody HI; [done|].
  simpl. apply wp_bind. eapply wp_mono.
  - apply Hbody; [set_solver|done].
  - intros u s' HI'. apply IH; [|done]. intros; apply Hbody; [set_solver|done].
Qed.

Lemma twp_wp {E S A} (m : Tx E S A) Q s : twp m Q s -> wp m Q s.
Proof. unfold twp, wp. by destruct (m s) as [[]|]. Qed.

(** [wp_step] symbolically executes one monadic construct of the goal. *)
Ltac wp_step :=
  match goal with
  | |- wp (ret _) _ _ => apply wp_ret
  | |- wp (raise _) _ _ => exact I
  | |- wp (bind _ _) _ _ => apply wp_bind
  | |- wp get _ _ => apply wp_get
  | |- wp (gets _) _ _ => apply wp_gets
  | |- wp (modify _) _ _ => apply wp_modify
  | |- wp (when _ _) _ _ => apply wp_when; intros ?
  | |- wp (guard _ _) _ _ => apply wp_guard; intros ?
  | |- wp (if _ then _ else _) _ _ => apply wp_if; intros ?
  | |- wp (match ?x with _ => _ end) _ _ => destruct x eqn:?
  end.
Ltac wp_steps := repeat (wp_step; cbv beta; try done).

(** ** Boolean reflection *)

Lemma bool_decide_true_1 (P : Prop) `{Decision P} : bool_decide P = true -> P.
Proof. apply bool_decide_eq_true. Qed.
Lemma bool_decide_false_1 (P : Prop) `{Decision P} : bool_decide P = false -> ~ P.
Proof. apply bool_decide_eq_false. Qed.

(** [reflect_all] turns boolean tests in the hypotheses into propositions. *)
Ltac reflect_all :=
  repeat match goal with
  | H : _ && _ = true |- _ => apply andb_true_iff in H as [? ?]
  | H : _ || _ = false |- _ => apply orb_false_iff in H as [? ?]
  | H : _ && _ = false |- _ => apply andb_false_iff in H
  | H : _ || _ = true |- _ => apply orb_true_iff in H
  | H : negb _ = true |- _ => apply negb_true_iff in H
  | H : negb _ = false |- _ => apply negb_false_iff in H
  | H : bool_decide _ = true |- _ => apply bool_decide_eq_true in H
  | H : bool_decide _ = false |- _ => apply bool_decide_eq_false in H
  | H : (_ <? _)%Z = true |- _ => apply Z.ltb_lt in H
  | H : (_ <? _)%Z = false |- _ => apply Z.ltb_ge in H
  | H : (_ <=? _)%Z = true |- _ => apply Z.leb_le in H
  | H : (_ <=? _)%Z = false |- _ => apply Z.leb_gt in H
  | H : (_ =? _)%Z = true |- _ => apply Z.eqb_eq in H
  | H : (_ =? _)%Z = false |- _ => apply Z.eqb_neq in H
  end.
