(* ===== verification/TimeUtil.v ===== *)
(** * Timestamps as text ([datetime.isoformat] for UTC values)

    The proleptic Gregorian calendar of Python's [datetime], for instants counted in
    microseconds since 1970-01-01T00:00:00Z. *)

From S2P Require Import Prelude.
#[local] Open Scope Z_scope.

(** Year, month and day of a day number (days since the epoch), by 400-year eras that
    start on 1 March. *)
Definition civil (days : Z) : Z * Z * Z :=
  let z := days + 719468 in
  let era := z / 146097 in
  let doe := z mod 146097 in
  let yoe := (doe - doe / 1460 + doe / 36524 - doe / 146096) / 365 in
  let doy := doe - (365 * yoe + yoe / 4 - yoe / 100) in
  let mp := (5 * doy + 2) / 153 in
  let d := doy - (153 * mp + 2) / 5 + 1 in
  let m := if mp <? 10 then mp + 3 else mp - 9 in
  (yoe + era * 400 + (if m <=? 2 then 1 else 0), m, d).

Fixpoint zeros (n : nat) : string :=
  match n with O => "" | Datatypes.S n' => ("0" +:+ zeros n')%string end.
Definition padded (width : nat) (z : Z) : string :=
  let s := pretty z in (zeros (width - String.length s) +:+ s)%string.

Definition isoformat (t : instant) : string :=
  let us := t mod 1000000 in
  let sec := t / 1000000 in
  let '(y, m, d) := civil (sec / 86400) in
  let s := sec mod 86400 in
  (padded 4 y +:+ "-" +:+ padded 2 m +:+ "-" +:+ padded 2 d +:+ "T" +:+
   padded 2 (s / 3600)%Z +:+ ":" +:+ padded 2 (s / 60 mod 60)%Z +:+ ":" +:+ padded 2 (s mod 60)%Z +:+
   (if (us =? 0)%Z then "" else "." +:+ padded 6 us) +:+ "+00:00")%string.

Example isoformat_examples :
  map isoformat [0; 1709208000000000; 1767225599000007]
  = ["1970-01-01T00:00:00+00:00"; "2024-02-29T12:00:00+00:00";
     "2025-12-31T23:59:59.000007+00:00"]%string.
Proof. reflexivity. Qed.
