(* ===== verification/Json.v ===== *)
(** * JSON values and platform errors

    The values the services pass around ([dict[str, Any]]), the size of their
    compact serialisation ([schema_guard.json_size]), and [errors.PlatformError]
    with its three constructors.  Strings are sequences of 7-bit characters;
    floating-point JSON numbers do not occur in the modelled payloads. *)

From S2P Require Import Prelude.

Inductive Json : Type :=
| JNull
| JBool (b : bool)
| JNum (z : Z)
| JStr (s : string)
| JList (l : list Json)
| JObj (o : list (string * Json)).

(** Induction that reaches the elements of arrays and the values of objects. *)
Section json_ind.
Context (P : Json -> Prop)
  (HNull : P JNull) (HBool : forall b, P (JBool b)) (HNum : forall z, P (JNum z))
  (HStr : forall s, P (JStr s))
  (HList : forall l, Forall P l -> P (JList l))
  (HObj : forall o, Forall (fun kv => P kv.2) o -> P (JObj o)).

Fixpoint Json_nested_ind (v : Json) : P v :=
  match v with
  | JNull => HNull
  | JBool b => HBool b
  | JNum z => HNum z
  | JStr s => HStr s
  | JList l => HList l ((fix go l : Forall P l :=
      match l with
      | [] => Forall_nil_2 P
      | x :: l' => Forall_cons_2 P x l' (Json_nested_ind x) (go l')
      end) l)
  | JObj o => HObj o ((fix go o : Forall (fun kv => P kv.2) o :=
      match o with
      | [] => Forall_nil_2 _
      | kv :: o' => Forall_cons_2 _ kv o' (Json_nested_ind kv.2) (go o')
      end) o)
  end.
End json_ind.

(** Lookup in an insertion-ordered dict. *)
Fixpoint assoc {A} (k : string) (o : list (string * A)) : option A :=
  match o with
  | [] => None
  | (k', v) :: o' => if String.eqb k k' then Some v else assoc k o'
  end.

(** [d.get(k)] on a value known to be a dict ([None] otherwise). *)
Definition jget (k : string) (v : Json) : option Json :=
  match v with JObj o => assoc k o | _ => None end.

(** Python truthiness ([bool(value)]). *)
Definition truthy (v : Json) : bool :=
  match v with
  | JNull => false
  | JBool b => b
  | JNum z => negb (z =? 0)
  | JStr s => negb (String.eqb s EmptyString)
  | JList l => match l with [] => false | _ => true end
  | JObj o => match o with [] => false | _ => true end
  end.

Definition otruthy (v : option Json) : bool :=
  match v with Some j => truthy j | None => false end.

(** ** Serialised size *)

(** Length of one character inside a JSON string literal as [json.dumps] writes it:
    the quote and the backslash are escaped with a backslash, as are backspace, form
    feed, newline, carriage return and tab; other control characters (and DEL is not
    one) take six characters. *)
Definition escaped_length (c : Ascii.ascii) : Z :=
  let n := Z.of_N (Ascii.N_of_ascii c) in
  if (n =? 34) || (n =? 92) then 2
  else if (n =? 8) || (n =? 9) || (n =? 10) || (n =? 12) || (n =? 13) then 2
  else if n <? 32 then 6
  else if n <? 128 then 1
  else 6.

Fixpoint string_body_length (s : string) : Z :=
  match s with
  | EmptyString => 0
  | String c s' => escaped_length c + string_body_length s'
  end.

Definition string_literal_length (s : string) : Z := 2 + string_body_length s.

(** Decimal digits of a number, with its sign. *)
Definition number_length (z : Z) : Z := Z.of_nat (String.length (pretty z)).

Definition commas {A} (l : list A) : Z := Z.max 0 (Z.of_nat (length l) - 1).

(** [len(json.dumps(value, separators=(",", ":")))]. *)
Fixpoint json_size (v : Json) : Z :=
  match v with
  | JNull => 4
  | JBool true => 4
  | JBool false => 5
  | JNum z => number_length z
  | JStr s => string_literal_length s
  | JList l =>
      2 + commas l + (fix go l := match l with [] => 0 | x :: l' => json_size x + go l' end) l
  | JObj o =>
      2 + commas o +
      (fix go o := match o with
                   | [] => 0
                   | (k, x) :: o' => string_literal_length k + 1 + json_size x + go o'
                   end) o
  end.

(** The blanks that [json.dumps] adds after [,] and [:] with its default separators. *)
Fixpoint json_blanks (v : Json) : Z :=
  match v with
  | JList l => commas l + (fix go l := match l with [] => 0 | x :: l' => json_blanks x + go l' end) l
  | JObj o =>
      commas o + (fix go o := match o with [] => 0 | (_, x) :: o' => 1 + json_blanks x + go o' end) o
  | _ => 0
  end.

(** [len(json.dumps(value))]. *)
Definition json_dumps_length (v : Json) : Z := json_size v + json_blanks v.

(** ** Platform errors *)

(** The wire form of an error; the human-readable message is left out. *)
Record PlatformError := mkError {
  err_code : string;
  err_status : Z;
  err_details : list (string * Json)
}.

Definition conflict (code : string) (details : list (string * Json)) : PlatformError :=
  mkError code 409 details.
Definition invalid (code : string) (details : list (string * Json)) : PlatformError :=
  mkError code 422 details.

(** [str(uuid)] in the canonical 8-4-4-4-12 form. *)
Definition hex_digit (n : N) : Ascii.ascii :=
  Ascii.ascii_of_N (if (n <? 10)%N then 48 + n else 87 + n).
Fixpoint hex_digits (k : nat) (n : N) (acc : string) : string :=
  match k with
  | O => acc
  | Datatypes.S k' => hex_digits k' (n / 16)%N (String (hex_digit (n mod 16)%N) acc)
  end.
Definition uuid_str (u : uuid) : string :=
  let h := hex_digits 32 u EmptyString in
  (String.substring 0 8 h +:+ "-" +:+ String.substring 8 4 h +:+ "-" +:+
   String.substring 12 4 h +:+ "-" +:+ String.substring 16 4 h +:+ "-" +:+
   String.substring 20 12 h)%string.

Definition not_found (ident : string) : PlatformError :=
  mkError "NOT_FOUND" 404 [("id", JStr ident)].

Example uuid_str_example :
  uuid_str 0x0189f5b7a4c87d3e9c21b2a4d6e8f001 = "0189f5b7-a4c8-7d3e-9c21-b2a4d6e8f001".
Proof. reflexivity. Qed.

Example json_size_example :
  json_size (JObj [("a", JList [JNum 10; JNull]); ("b", JStr "x")]) = 23.
Proof. reflexivity. Qed.
