(* ===== verification/Redaction.v ===== *)
(** * Redaction of events, audit records and stored results ([redaction.py])

    [redact] as applied to every payload the platform stores.  Python's [re] is
    modelled by the matchers it is used with; text is 7-bit. *)

From S2P Require Import Prelude Json.
From Stdlib Require Import Ascii.
#[local] Open Scope Z_scope.

(** ** Characters *)

Definition code (c : ascii) : Z := Z.of_N (N_of_ascii c).
Definition between (lo hi : Z) (c : ascii) : bool := (lo <=? code c) && (code c <=? hi).
Definition is_digit (c : ascii) : bool := between 48 57 c.
Definition is_upper (c : ascii) : bool := between 65 90 c.
Definition is_lower (c : ascii) : bool := between 97 122 c.
Definition is_letter (c : ascii) : bool := is_upper c || is_lower c.
(** [\s] on 7-bit text: tab, newline, vertical tab, form feed, return, the four
    information separators and space. *)
Definition is_space (c : ascii) : bool := between 9 13 c || between 28 32 c.
Definition lower (c : ascii) : ascii :=
  if is_upper c then ascii_of_N (N_of_ascii c + 32) else c.
Definition one_of (s : string) (c : ascii) : bool :=
  existsb (Ascii.eqb c) (String.list_ascii_of_string s).

Abbreviation text := (list ascii) (only parsing).
Definition chars (s : string) : text := String.list_ascii_of_string s.
Definition unchars (t : text) : string := String.string_of_list_ascii t.

Lemma chars_app a b : chars (a +:+ b) = chars a ++ chars b.
Proof. induction a as [|c a IH]; [done|]. simpl. by f_equal. Qed.
Lemma unchars_chars s : unchars (chars s) = s.
Proof. apply String.string_of_list_ascii_of_string. Qed.
Lemma chars_unchars s : chars (unchars s) = s.
Proof. apply String.list_ascii_of_string_of_list_ascii. Qed.
Lemma chars_inj a b : chars a = chars b -> a = b.
Proof. intros H. by rewrite <- (unchars_chars a), <- (unchars_chars b), H. Qed.

(** [sep.join(parts)] *)
Fixpoint join_text (sep : text) (parts : list text) : text :=
  match parts with
  | [] => []
  | [p] => p
  | p :: rest => p ++ sep ++ join_text sep rest
  end.

(** [text.split(c)] *)
Fixpoint split_at (c : ascii) (s : text) : list text :=
  match s with
  | [] => [[]]
  | x :: s' => match split_at c s' with
               | w :: ws => if Ascii.eqb x c then [] :: w :: ws else (x :: w) :: ws
               | [] => [[]]
               end
  end.

(** ** Matching *)

(** Split off the longest prefix of characters satisfying [p], of length at most [k]. *)
Fixpoint take_upto (k : nat) (p : ascii -> bool) (s : text) : text * text :=
  match k, s with
  | Datatypes.S k', c :: s' =>
      if p c then let '(a, b) := take_upto k' p s' in (c :: a, b) else ([], s)
  | _, _ => ([], s)
  end.
Definition take_all (p : ascii -> bool) (s : text) : text * text := take_upto (length s) p s.

(** The text after the literal [l] at the start of [s], letters compared without case. *)
Fixpoint strip_ci (l s : text) : option text :=
  match l, s with
  | [], _ => Some s
  | a :: l', b :: s' => if Ascii.eqb (lower a) (lower b) then strip_ci l' s' else None
  | _ :: _, [] => None
  end.

(** [pattern.sub(f, value)]: [m s] is [Some (replacement, rest)] when the pattern
    matches at the start of [s]; matches are replaced leftmost first and do not overlap.
    Every match consumes a character, so [length s] steps reach the end. *)
Fixpoint sub_fuel (n : nat) (m : text -> option (text * text)) (s : text) : text :=
  match n, s with
  | Datatypes.S n', c :: s' =>
      match m s with
      | Some (r, rest) => r ++ sub_fuel n' m rest
      | None => c :: sub_fuel n' m s'
      end
  | _, _ => []
  end.
Definition sub (m : text -> option (text * text)) (s : text) : text := sub_fuel (length s) m s.

(** ** Patterns *)

(** [pass(word)?|secret|token|authorization|cookie|api[_-]?key|refresh|auth[_-]?code],
    searched without case anywhere in the key. *)
Definition secret_words : list string :=
  ["pass"; "secret"; "token"; "authorization"; "cookie"; "apikey"; "api_key"; "api-key";
   "refresh"; "authcode"; "auth_code"; "auth-code"]%string.

Fixpoint search_ci (l s : text) : bool :=
  match strip_ci l s with
  | Some _ => true
  | None => match s with [] => false | _ :: s' => search_ci l s' end
  end.

Definition secret_key (k : string) : bool :=
  existsb (fun w => search_ci (chars w) (chars k)) secret_words.

Definition token_char (c : ascii) : bool := is_letter c || is_digit c || one_of "._~+/=-" c.

(** [(?i)bearer\s+[A-Za-z0-9._~+/=-]+] *)
Definition bearer (s : text) : option (text * text) :=
  match strip_ci (chars "bearer") s with
  | None => None
  | Some s1 =>
      let '(ws, s2) := take_all is_space s1 in
      let '(tok, s3) := take_all token_char s2 in
      match ws, tok with
      | _ :: _, _ :: _ => Some (chars "Bearer [REDACTED]", s3)
      | _, _ => None
      end
  end.

(** [digits[-4:]] *)
Definition last_four (d : text) : text := skipn (length d - 4) d.

Definition mask_phone (v : text) : text :=
  let digits := List.filter is_digit v in
  if (4 <=? length digits)%nat then chars "***" ++ last_four digits else chars "***".

(** [\+\d{8,15}], greedy *)
Definition e164 (s : text) : option (text * text) :=
  match s with
  | c :: s' =>
      if Ascii.eqb c "+"%char then
        let '(d, rest) := take_upto 15 is_digit s' in
        if (8 <=? length d)%nat then Some (mask_phone (c :: d), rest) else None
      else None
  | [] => None
  end.

Definition redact_text (v : string) : string := unchars (sub e164 (sub bearer (chars v))).

Definition REDACTED : Json := JStr "[REDACTED]".

Fixpoint redact (v : Json) : Json :=
  match v with
  | JObj o => JObj (map (fun kv => (kv.1, if secret_key kv.1 then REDACTED else redact kv.2)) o)
  | JList l => JList (map redact l)
  | JStr s => JStr (redact_text s)
  | _ => v
  end.

Example redact_example :
  redact (JObj [("to", JStr "call +14155550123 now"); ("apiKey", JStr "x");
                ("h", JStr "Authorization: BEARER  abc.def!")]%string)
  = JObj [("to", JStr "call ***0123 now"); ("apiKey", JStr "[REDACTED]");
          ("h", JStr "Authorization: Bearer [REDACTED]!")]%string.
Proof. reflexivity. Qed.

(** ** No phone number survives *)

(** No position of [t] starts a match of [e164]. *)
Fixpoint phone_free (t : text) : Prop :=
  match t with
  | [] => True
  | c :: t' => e164 t = None /\ phone_free t'
  end.

Lemma not_plus_no_match c t : c <> "+"%char -> e164 (c :: t) = None.
Proof. intros Hc. simpl. by rewrite (proj2 (Ascii.eqb_neq _ _) Hc). Qed.

Lemma digit_not_plus c : is_digit c = true -> c <> "+"%char.
Proof. by intros Hd ->. Qed.

Lemma phone_free_app r t :
  Forall (fun c => c <> "+"%char) r -> phone_free t -> phone_free (r ++ t).
Proof.
  induction r as [|c r IH]; [done|]. intros [Hc Hr]%Forall_cons Ht.
  split; [by apply not_plus_no_match|by apply IH].
Qed.

Lemma mask_phone_no_plus v : Forall (fun c => c <> "+"%char) (mask_phone v).
Proof.
  unfold mask_phone. destruct (4 <=? _)%nat; [|by repeat constructor].
  apply Forall_app. split; [by repeat constructor|].
  unfold last_four. apply Forall_drop, Forall_forall. intros c Hc.
  apply list_elem_of_In, filter_In in Hc as [_ Hc]. by apply digit_not_plus.
Qed.

Lemma mask_phone_head v : exists t, mask_phone v = "*"%char :: t.
Proof. unfold mask_phone. destruct (4 <=? _)%nat; by eexists. Qed.

Lemma take_upto_stop k p c t : p c = false -> (take_upto k p (c :: t)).1 = [].
Proof. intros Hp. destruct k; simpl; by rewrite ?Hp. Qed.

Lemma take_upto_rest k p s : (length (take_upto k p s).2 <= length s)%nat.
Proof.
  revert s. induction k as [|k IH]; intros [|x s]; simpl; try lia.
  destruct (p x); simpl; [|lia]. specialize (IH s). destruct (take_upto k p s). simpl in *. lia.
Qed.

(** A match of [e164], spelled out. *)
Lemma e164_some s r rest :
  e164 s = Some (r, rest) ->
  exists s', s = "+"%char :: s' /\ (length rest <= length s')%nat /\
    Forall (fun c => c <> "+"%char) r /\ exists t, r = "*"%char :: t.
Proof.
  destruct s as [|c s]; [done|]. cbn [e164].
  destruct (Ascii.eqb c "+") eqn:Ec; [|done]. apply Ascii.eqb_eq in Ec as ->.
  pose proof (take_upto_rest 15 is_digit s) as Hle. destruct (take_upto 15 is_digit s) as [d r'].
  destruct (8 <=? length d)%nat; [|done]. intros [= <- <-].
  exists s. split_and!; [done|done|apply mask_phone_no_plus|apply mask_phone_head].
Qed.

(** Substitution leaves the run of digits at the front of a text as it is. *)
Lemma sub_keeps_digit_run n k s :
  (length s <= n)%nat ->
  (take_upto k is_digit (sub_fuel n e164 s)).1 = (take_upto k is_digit s).1.
Proof.
  revert k s. induction n as [|n IH]; intros k [|c s] Hlen; try done; [simpl in Hlen; lia|].
  simpl in Hlen. apply le_S_n in Hlen. cbn [sub_fuel]. destruct (is_digit c) eqn:Hd.
  - rewrite not_plus_no_match by (by apply digit_not_plus).
    destruct k as [|k]; simpl; [done|]. rewrite Hd. specialize (IH k s Hlen).
    destruct (take_upto k is_digit (sub_fuel n e164 s)), (take_upto k is_digit s).
    simpl in *. by rewrite IH.
  - rewrite (take_upto_stop k is_digit c s Hd).
    destruct (e164 (c :: s)) as [[r rest]|] eqn:E; [|by apply take_upto_stop].
    apply e164_some in E as (_ & _ & _ & _ & t & ->). by apply take_upto_stop.
Qed.

Lemma sub_phone_free n s : (length s <= n)%nat -> phone_free (sub_fuel n e164 s).
Proof.
  revert s. induction n as [|n IH]; intros [|c s] Hlen; try done. simpl in Hlen. apply le_S_n in Hlen.
  cbn [sub_fuel]. destruct (e164 (c :: s)) as [[r rest]|] eqn:E.
  - apply e164_some in E as (s' & [= -> ->] & Hrest & Hr & _).
    apply phone_free_app; [done|]. apply IH. lia.
  - split; [|by apply IH]. destruct (decide (c = "+"%char)) as [->|Hc]; [|by apply not_plus_no_match].
    pose proof (sub_keeps_digit_run n 15 s Hlen) as Hrun.
    cbn [e164] in E |- *. rewrite Ascii.eqb_refl in E |- *. 
    destruct (take_upto 15 is_digit s) as [d rest].
    destruct (take_upto 15 is_digit (sub_fuel n e164 s)) as [d' rest']. simpl in Hrun. subst d'.
    by destruct (8 <=? length d)%nat.
Qed.

(** A value that redaction may emit: strings carry no phone number, and whatever
    stands under a secret-looking key is the marker. *)
Fixpoint redacted (v : Json) : Prop :=
  match v with
  | JStr s => phone_free (chars s)
  | JList l => (fix go l := match l with [] => True | x :: l' => redacted x /\ go l' end) l
  | JObj o =>
      (fix go o := match o with
                   | [] => True
                   | (k, x) :: o' =>
                       (secret_key k = true -> x = REDACTED) /\ redacted x /\ go o'
                   end) o
  | _ => True
  end.

Lemma redact_text_phone_free s : phone_free (chars (redact_text s)).
Proof.
  unfold redact_text, chars, unchars. rewrite String.list_ascii_of_string_of_list_ascii.
  by apply sub_phone_free.
Qed.

(** What [redact] returns never leaks: at any depth, no string of the result contains a
    match of the E.164 phone pattern, and the value under every key that matches the
    secret-key pattern is exactly the marker string. *)
Theorem redact_sound v : redacted (redact v).
Proof.
  induction v as [|b|z|s|l IH|o IH] using Json_nested_ind; simpl; try done.
  - apply redact_text_phone_free.
  - induction IH; simpl; auto.
  - induction IH as [|[k x] o Hx Ho IHo]; simpl; [done|]. split_and!; [|by destruct (secret_key k)|done].
    by intros ->.
Qed.
