(* ===== verification/PyValue.v ===== *)
(** * Python values

    Equality, ordering, iteration and [sorted] of the values that come out of a JSON body, as
    the services apply them to [dict[str, Any]] arguments they have not validated, and the
    dictionary updates ([d[k] = v], [d.setdefault(k, v)]). *)

From stdpp Require Import sorting.
From S2P Require Import Prelude Json.
#[local] Open Scope Z_scope.

(** [True] and [False] are the integers 1 and 0. *)
Definition as_number (v : Json) : option Z :=
  match v with JBool b => Some (Z.b2z b) | JNum z => Some z | _ => None end.

(** [a == b]: dicts are compared without regard to the order of their keys. *)
Fixpoint py_eq (a b : Json) : bool :=
  match a, b with
  | JNull, JNull => true
  | JStr x, JStr y => String.eqb x y
  | JList l, JList l' =>
      (fix go l l' := match l, l' with
       | [], [] => true
       | x :: l, y :: l' => py_eq x y && go l l'
       | _, _ => false
       end) l l'
  | JObj o, JObj o' =>
      Nat.eqb (length o) (length o') &&
      (fix go o := match o with
       | [] => true
       | (k, x) :: o1 => match assoc k o' with Some y => py_eq x y | None => false end && go o1
       end) o
  | _, _ => match as_number a, as_number b with Some m, Some n => m =? n | _, _ => false end
  end.

(** [a < b]; [None] is a [TypeError]. *)
Fixpoint py_lt (a b : Json) : option bool :=
  match a, b with
  | JStr x, JStr y => Some (negb (String.leb y x))
  | JList l, JList l' =>
      (fix go l l' := match l, l' with
       | _, [] => Some false
       | [], _ :: _ => Some true
       | x :: l, y :: l' => if py_eq x y then go l l' else py_lt x y
       end) l l'
  | _, _ => match as_number a, as_number b with Some m, Some n => Some (m <? n) | _, _ => None end
  end.

(** [sorted(l)]: a stable sort that only uses [<]. *)
Fixpoint py_insert (x : Json) (l : list Json) : option (list Json) :=
  match l with
  | [] => Some [x]
  | y :: l' => lt ← py_lt x y; if (lt : bool) then Some (x :: l) else cons y <$> py_insert x l'
  end.
Definition py_sort (l : list Json) : option (list Json) :=
  fold_left (fun acc x => acc ≫= py_insert x) l (Some []).

(** The elements of [iter(v)]: a dict gives its keys, a string its characters. *)
Definition py_iter (v : Json) : option (list Json) :=
  match v with
  | JList l => Some l
  | JObj o => Some (map (fun kv => JStr kv.1) o)
  | JStr s => Some (map (fun c => JStr (String c EmptyString)) (String.list_ascii_of_string s))
  | _ => None
  end.

(** [d[k] = v] on the items of a dict. *)
Fixpoint dict_set {A} (k : string) (v : A) (o : list (string * A)) : list (string * A) :=
  match o with
  | [] => [(k, v)]
  | (k', v') :: o' => if String.eqb k k' then (k, v) :: o' else (k', v') :: dict_set k v o'
  end.

(** [d.setdefault(k, v)]; [None] when [d] is no dict. *)
Definition setdefault (k : string) (v : Json) (d : Json) : option Json :=
  match d with
  | JObj o => Some (JObj (match assoc k o with Some _ => o | None => o ++ [(k, v)] end))
  | _ => None
  end.

(** A change of [d[k]] in place; [None] is a [KeyError] or a [TypeError]. *)
Definition alter_key (k : string) (f : Json -> option Json) (d : Json) : option Json :=
  match d with
  | JObj o => v ← assoc k o; v' ← f v; Some (JObj (dict_set k v' o))
  | _ => None
  end.

(** ** Dicts *)

Lemma assoc_dict_set {A} k j (v : A) o :
  assoc j (dict_set k v o) = if String.eqb j k then Some v else assoc j o.
Proof.
  induction o as [|[k' v'] o IH]; simpl; [done|].
  destruct (String.eqb_spec k k') as [<-|Hne]; simpl.
  - by destruct (String.eqb j k).
  - rewrite IH. destruct (String.eqb_spec j k') as [->|]; [|done].
    destruct (String.eqb_spec k' k); congruence.
Qed.

Lemma assoc_app {A} k (o o' : list (string * A)) :
  assoc k (o ++ o') = match assoc k o with Some v => Some v | None => assoc k o' end.
Proof. induction o as [|[k' v'] o IH]; simpl; [done|]. by destruct (String.eqb k k'). Qed.

Lemma assoc_elem {A} k (v : A) o : assoc k o = Some v -> (k, v) ∈ o.
Proof.
  induction o as [|[k' v'] o IH]; simpl; [done|].
  destruct (String.eqb_spec k k') as [->|]; [intros [= ->]; by left|right; auto].
Qed.

Lemma assoc_None {A} k (o : list (string * A)) : assoc k o = None <-> k ∉ map fst o.
Proof.
  induction o as [|[k' v'] o IH]; simpl; [set_solver|].
  destruct (String.eqb_spec k k') as [->|Hne]; [set_solver|]. rewrite IH. set_solver.
Qed.

Lemma assoc_unique {A} k (v : A) o : NoDup (map fst o) -> (k, v) ∈ o -> assoc k o = Some v.
Proof.
  induction o as [|[k' v'] o IH]; simpl; [set_solver|]. intros [Hk Hnd]%NoDup_cons.
  intros [[= -> ->]|Hin]%elem_of_cons; [by rewrite String.eqb_refl|].
  destruct (String.eqb_spec k k') as [->|]; [|auto].
  destruct Hk. apply list_elem_of_fmap. by exists (k', v).
Qed.

Lemma dict_set_keys {A} k (v : A) o j : j ∈ map fst (dict_set k v o) <-> j = k \/ j ∈ map fst o.
Proof.
  induction o as [|[k' v'] o IH]; simpl; [set_solver|].
  destruct (String.eqb_spec k k') as [->|]; simpl; set_solver.
Qed.

Lemma dict_set_nodup {A} k (v : A) o : NoDup (map fst o) -> NoDup (map fst (dict_set k v o)).
Proof.
  induction o as [|[k' v'] o IH]; simpl; [intros _; apply NoDup_singleton|].
  intros [Hk Hnd]%NoDup_cons. destruct (String.eqb_spec k k') as [->|Hne]; simpl; [by apply NoDup_cons|].
  apply NoDup_cons. split; [|by apply IH]. rewrite dict_set_keys. naive_solver.
Qed.

(** Setting a key that is there, or is new. *)
Lemma dict_set_map_fst {A} k (v : A) o : is_Some (assoc k o) -> map fst (dict_set k v o) = map fst o.
Proof.
  induction o as [|[k' v'] o IH]; simpl; [by intros []|].
  destruct (String.eqb_spec k k') as [->|]; simpl; [done|]. intros. f_equal. by apply IH.
Qed.

Lemma dict_set_new {A} k (v : A) o : assoc k o = None -> dict_set k v o = o ++ [(k, v)].
Proof.
  induction o as [|[k' v'] o IH]; simpl; [done|].
  destruct (String.eqb k k'); [done|]. intros. f_equal. by apply IH.
Qed.

Lemma dict_set_same {A} k (v : A) o : assoc k o = Some v -> dict_set k v o = o.
Proof.
  induction o as [|[k' v'] o IH]; simpl; [done|].
  destruct (String.eqb_spec k k') as [->|]; [by intros [= ->]|]. intros. f_equal. by apply IH.
Qed.

Lemma jget_setdefault k j v d d' :
  setdefault k v d = Some d' ->
  jget j d' = if String.eqb j k then Some (default v (jget k d)) else jget j d.
Proof.
  destruct d as [| | | | |o]; try done. simpl. intros [= <-]. simpl.
  destruct (assoc k o) as [w|] eqn:Hk; simpl.
  - destruct (String.eqb_spec j k) as [->|]; [by rewrite Hk|done].
  - rewrite assoc_app. simpl. destruct (String.eqb_spec j k) as [->|]; [by rewrite Hk|by destruct (assoc j o)].
Qed.

Lemma setdefault_same k v d w : jget k d = Some w -> setdefault k v d = Some d.
Proof. destruct d; try done. simpl. by intros ->. Qed.

Lemma jget_alter_key k j f d d' :
  alter_key k f d = Some d' -> exists v v', jget k d = Some v /\ f v = Some v' /\
    jget j d' = if String.eqb j k then Some v' else jget j d.
Proof.
  destruct d as [| | | | |o]; try done. simpl. destruct (assoc k o) as [v|] eqn:Hk; simpl; [|done].
  destruct (f v) as [v'|] eqn:Hf; simpl; [|done]. intros [= <-]. exists v, v'. split_and!; try done.
  apply assoc_dict_set.
Qed.

Lemma alter_key_same k f d v : jget k d = Some v -> f v = Some v -> alter_key k f d = Some d.
Proof. destruct d; try done. simpl. intros Hv Hf. rewrite Hv. simpl. rewrite Hf. simpl. by rewrite dict_set_same. Qed.

(** ** Equality *)

Lemma py_eq_str x v : py_eq (JStr x) v = true <-> v = JStr x.
Proof.
  destruct v; simpl; split; try done.
  - intros ->%String.eqb_eq. done.
  - intros [= ->]. apply String.eqb_refl.
Qed.

Lemma py_eq_str_r x v : py_eq v (JStr x) = true <-> v = JStr x.
Proof.
  destruct v; simpl; split; try done.
  - intros ->%String.eqb_eq. done.
  - intros [= ->]. apply String.eqb_refl.
Qed.

Lemma py_eq_list l l' : py_eq (JList l) (JList l') = true <-> Forall2 (fun x y => py_eq x y = true) l l'.
Proof.
  simpl. revert l'. induction l as [|x l IH]; intros [|y l']; split; intros H; try done; try by inversion H.
  - apply andb_true_iff in H as [H1 H2]. constructor; [done|]. by apply IH.
  - apply Forall2_cons in H as [H1 H2]. apply andb_true_iff. split; [done|]. by apply IH.
Qed.

Lemma py_eq_strings xs l : py_eq (JList l) (JList (map JStr xs)) = true <-> l = map JStr xs.
Proof.
  rewrite py_eq_list. split.
  - revert xs. induction l as [|v l IH]; intros [|x xs] H; inversion H; subst; [done|].
    simpl. f_equal; [by apply py_eq_str_r|by apply IH].
  - intros ->. induction xs as [|x xs IH]; simpl; constructor; [by apply py_eq_str|done].
Qed.

(** Values that equality relates hold the same strings. *)
Lemma py_eq_list_elem l l' x : py_eq (JList l) (JList l') = true -> JStr x ∈ l <-> JStr x ∈ l'.
Proof.
  rewrite py_eq_list. intros H. induction H as [|v w l l' Hvw H IH]; [done|].
  rewrite !elem_of_cons, IH. split; (intros [<-|?]; [left|by right]).
  - by apply py_eq_str in Hvw.
  - by apply py_eq_str_r in Hvw.
Qed.

(** Keys are unique at every level, as in any dict. *)
Inductive proper_value : Json -> Prop :=
| pv_null : proper_value JNull
| pv_bool b : proper_value (JBool b)
| pv_num z : proper_value (JNum z)
| pv_str s : proper_value (JStr s)
| pv_list l : Forall proper_value l -> proper_value (JList l)
| pv_obj o : NoDup (map fst o) -> Forall (fun kv => proper_value kv.2) o -> proper_value (JObj o).

Lemma py_eq_refl v : proper_value v -> py_eq v v = true.
Proof.
  induction v as [|b|z|s|l IH|o IH] using Json_nested_ind; intros Hp.
  - done.
  - apply Z.eqb_refl.
  - apply Z.eqb_refl.
  - apply String.eqb_refl.
  - inversion Hp as [| | | |l' Hl|]; subst. apply py_eq_list. clear Hp.
    induction l; inversion IH; inversion Hl; subst; constructor; auto.
  - inversion Hp as [| | | | |o' Hnd Ho]; subst. simpl. rewrite Nat.eqb_refl. simpl.
    assert (Hsub : forall kv, kv ∈ o -> assoc kv.1 o = Some kv.2).
    { intros [k v] Hin. by apply assoc_unique. }
    clear Hp Hnd. revert Hsub. generalize o at 2 3 as full. intros full Hsub.
    induction o as [|[k v] o IHo]; [done|]. inversion IH; inversion Ho; subst.
    apply andb_true_iff. split; [|apply IHo; auto; intros; apply Hsub; by right].
    specialize (Hsub (k, v)). simpl in Hsub. rewrite Hsub by by left. simpl in *. auto.
Qed.

(** ** Sorting *)

Lemma py_insert_perm x l l' : py_insert x l = Some l' -> l' ≡ₚ x :: l.
Proof.
  revert l'. induction l as [|y l IH]; intros l'; simpl; [by intros [= <-]|].
  destruct (py_lt x y) as [[|]|]; simpl; [by intros [= <-]| |done].
  destruct (py_insert x l) as [m|] eqn:Hm; simpl; [|done]. intros [= <-]. rewrite (IH m eq_refl). constructor.
Qed.

Lemma py_sort_perm l l' : py_sort l = Some l' -> l' ≡ₚ l.
Proof.
  unfold py_sort. enough (H : forall acc, fold_left (fun acc x => acc ≫= py_insert x) l acc = Some l' ->
    exists a, acc = Some a /\ l' ≡ₚ l ++ a).
  { intros E. destruct (H _ E) as (a & [= <-] & P). by rewrite app_nil_r in P. }
  induction l as [|x l IH]; intros acc E; simpl in E; [by exists l'|].
  apply IH in E as (a & Ha & P). destruct acc as [b|]; simpl in Ha; [|done]. exists b. split; [done|].
  apply py_insert_perm in Ha. rewrite P, Ha. simpl. by rewrite Permutation_middle.
Qed.

(** Code point order of strings. *)
Definition str_le (a b : string) : Prop := String.leb a b = true.

#[export] Instance str_le_dec : RelDecision str_le.
Proof. intros a b. unfold str_le. apply _. Defined.

#[export] Instance str_le_antisym : AntiSymm (=) str_le.
Proof. intros a b. apply String.leb_antisym. Qed.

#[export] Instance str_le_total : Total str_le.
Proof. intros a b. apply String.leb_total. Qed.

Lemma compare_le_trans a b c : String.compare a b <> Gt -> String.compare b c <> Gt -> String.compare a c <> Gt.
Proof.
  revert b c. induction a as [|x a IH]; intros [|y b] [|z c]; simpl; try done. unfold Ascii.compare.
  destruct (N.compare_spec (Ascii.N_of_ascii x) (Ascii.N_of_ascii y)) as [E1|L1|G1]; try done;
    destruct (N.compare_spec (Ascii.N_of_ascii y) (Ascii.N_of_ascii z)) as [E2|L2|G2]; try done;
    intros H1 H2; destruct (N.compare_spec (Ascii.N_of_ascii x) (Ascii.N_of_ascii z)); try done; try lia.
  by eapply IH.
Qed.

#[export] Instance str_le_trans : Transitive str_le.
Proof.
  intros a b c. unfold str_le, String.leb. intros H1 H2. pose proof (compare_le_trans a b c).
  destruct (String.compare a b), (String.compare b c), (String.compare a c); naive_solver.
Qed.

Fixpoint insert_str (x : string) (l : list string) : list string :=
  match l with
  | [] => [x]
  | y :: l' => if String.leb y x then y :: insert_str x l' else x :: l
  end.

Lemma py_insert_str x l : py_insert (JStr x) (map JStr l) = Some (map JStr (insert_str x l)).
Proof.
  induction l as [|y l IH]; simpl; [done|]. destruct (String.leb y x); simpl; [by rewrite IH|done].
Qed.

Lemma insert_str_sorted x l : Sorted str_le l -> Sorted str_le (insert_str x l).
Proof.
  intros Hs. induction Hs as [|y l Hs IH Hy]; simpl; [by repeat constructor|].
  destruct (String.leb y x) eqn:E.
  - constructor; [done|]. destruct Hy as [|z l Hz]; simpl; [by constructor|].
    destruct (String.leb z x); by constructor.
  - constructor; [by constructor|]. constructor. by destruct (str_le_total x y) as [?|?%Is_true_true_2]; [|by rewrite E in *].
Qed.

Lemma JStr_perm xs ys : map JStr xs ≡ₚ map JStr ys -> xs ≡ₚ ys.
Proof.
  set (str_of := fun v => match v with JStr s => s | _ => EmptyString end).
  intros H%(Permutation_map str_of). by rewrite !map_map, !map_id in H.
Qed.

Lemma py_sort_strings xs : exists ys, py_sort (map JStr xs) = Some (map JStr ys) /\ Sorted str_le ys /\ ys ≡ₚ xs.
Proof.
  unfold py_sort. enough (H : forall a, Sorted str_le a -> exists ys,
    fold_left (fun acc x => acc ≫= py_insert x) (map JStr xs) (Some (map JStr a)) = Some (map JStr ys) /\ Sorted str_le ys).
  { destruct (H [] (Sorted_nil _)) as (ys & E & Hs). exists ys. split_and!; try done.
    apply (py_sort_perm (map JStr xs)) in E. by apply JStr_perm. }
  induction xs as [|x xs IH]; intros a Ha; simpl; [by exists a|].
  rewrite py_insert_str. by apply IH, insert_str_sorted.
Qed.

(** Two lists of strings sort alike exactly when one is a rearrangement of the other. *)
Lemma py_sort_same xs ys : py_sort (map JStr xs) = py_sort (map JStr ys) <-> xs ≡ₚ ys.
Proof.
  destruct (py_sort_strings xs) as (xs' & Ex & Sx & Px). destruct (py_sort_strings ys) as (ys' & Ey & Sy & Py).
  rewrite Ex, Ey. split.
  - intros [= E]. assert (P : xs' ≡ₚ ys') by (apply JStr_perm; by rewrite E). by rewrite <- Px, P.
  - intros P. f_equal. f_equal. apply (Sorted_unique str_le); try done. by rewrite Px, Py.
Qed.

(** ** Proper values are closed under the dictionary updates *)

Lemma proper_obj o : proper_value (JObj o) <-> NoDup (map fst o) /\ Forall (fun kv => proper_value kv.2) o.
Proof. split; [by inversion 1|intros []; by constructor]. Qed.

Lemma proper_setdefault k v d d' : proper_value v -> proper_value d -> setdefault k v d = Some d' -> proper_value d'.
Proof.
  destruct d as [| | | | |o]; try done. simpl. intros Hv Ho [= <-]. destruct (assoc k o) eqn:Hk; [done|].
  apply proper_obj in Ho as [Hnd Ho]. apply proper_obj. rewrite <- (dict_set_new k v o Hk). split; [by apply dict_set_nodup|].
  rewrite dict_set_new by done. apply Forall_app_2; [done|]. by repeat constructor.
Qed.

Lemma proper_alter_key k f d d' :
  (forall v v', proper_value v -> f v = Some v' -> proper_value v') ->
  proper_value d -> alter_key k f d = Some d' -> proper_value d'.
Proof.
  intros Hf. destruct d as [| | | | |o]; try done. simpl. intros [Hnd Ho]%proper_obj.
  destruct (assoc k o) as [v|] eqn:Hk; simpl; [|done]. destruct (f v) as [v'|] eqn:E; simpl; [|done]. intros [= <-].
  assert (Hv' : proper_value v').
  { eapply Hf; [|done]. rewrite Forall_forall in Ho. by apply (Ho (k, v)), assoc_elem. }
  apply proper_obj. split; [by apply dict_set_nodup|]. clear Hnd Hk E.
  induction o as [|[k' w] o IH]; simpl; [by repeat constructor|]. apply Forall_cons in Ho as [Hw Ho].
  destruct (String.eqb k k'); constructor; auto.
Qed.
