(* ===== verification/JsonText.v ===== *)
(** * JSON as text

    [json.dumps] of the modelled values, with the separators and [sort_keys] the services
    pass, and the digest of such a text.  The size that [schema_guard.json_size] computes is
    the length of this text. *)

From S2P Require Import Prelude Json Redaction.
#[local] Open Scope Z_scope.

(** One character of a string literal ([ensure_ascii]). *)
Definition escaped (c : Ascii.ascii) : string :=
  let n := Ascii.N_of_ascii c in
  let bs := String (Ascii.ascii_of_N 92) EmptyString in
  if (n =? 34)%N || (n =? 92)%N then (bs +:+ String c EmptyString)%string
  else if (n =? 8)%N then (bs +:+ "b")%string
  else if (n =? 9)%N then (bs +:+ "t")%string
  else if (n =? 10)%N then (bs +:+ "n")%string
  else if (n =? 12)%N then (bs +:+ "f")%string
  else if (n =? 13)%N then (bs +:+ "r")%string
  else if (n <? 32)%N || (128 <=? n)%N then (bs +:+ "u" +:+ hex_digits 4 n EmptyString)%string
  else String c EmptyString.

Fixpoint string_body (s : string) : string :=
  match s with
  | EmptyString => EmptyString
  | String c s' => (escaped c +:+ string_body s')%string
  end.

Definition quote_char : string := String (Ascii.ascii_of_N 34) EmptyString.
Definition string_literal (s : string) : string := (quote_char +:+ string_body s +:+ quote_char)%string.

Fixpoint join (sep : string) (l : list string) : string :=
  match l with
  | [] => EmptyString
  | [x] => x
  | x :: l' => (x +:+ sep +:+ join sep l')%string
  end.

(** Items in key order ([sort_keys=True]). *)
Fixpoint insert_item {A} (kv : string * A) (o : list (string * A)) : list (string * A) :=
  match o with
  | [] => [kv]
  | x :: o' => if String.leb kv.1 x.1 then kv :: o else x :: insert_item kv o'
  end.
Definition sort_items {A} (o : list (string * A)) : list (string * A) := foldr insert_item [] o.

Section dumps.
Context (item_sep key_sep : string) (sort_keys : bool).

Fixpoint json_dumps (v : Json) : string :=
  match v with
  | JNull => "null"
  | JBool true => "true"
  | JBool false => "false"
  | JNum z => pretty z
  | JStr s => string_literal s
  | JList l => ("[" +:+ join item_sep (map json_dumps l) +:+ "]")%string
  | JObj o =>
      let items := map (fun kv => (kv.1, json_dumps kv.2)) o in
      ("{" +:+ join item_sep
         (map (fun kv => string_literal kv.1 +:+ key_sep +:+ kv.2)%string
            (if sort_keys then sort_items items else items)) +:+ "}")%string
  end.
End dumps.

(** [hashlib.sha256(text.encode()).hexdigest()] *)
Class Digest := sha256_hex : string -> string.

(** ** The size check measures this text *)

Lemma length_append (a b : string) : String.length (a +:+ b) = (String.length a + String.length b)%nat.
Proof. induction a as [|c a IH]; [done|]. simpl. by f_equal. Qed.

Lemma length_escaped c : Z.of_nat (String.length (escaped c)) = escaped_length c.
Proof. destruct c as [[] [] [] [] [] [] [] []]; reflexivity. Qed.

Lemma length_string_body s : Z.of_nat (String.length (string_body s)) = string_body_length s.
Proof.
  induction s as [|c s IH]; [done|]. cbn [string_body string_body_length].
  rewrite length_append, Nat2Z.inj_add, length_escaped. lia.
Qed.

Lemma length_string_literal s : Z.of_nat (String.length (string_literal s)) = string_literal_length s.
Proof.
  unfold string_literal, string_literal_length. rewrite !length_append, !Nat2Z.inj_add, length_string_body. simpl. lia.
Qed.

Lemma length_join sep l :
  Z.of_nat (String.length (join sep l))
  = Z.of_nat (String.length sep) * commas l + foldr (fun x n => Z.of_nat (String.length x) + n) 0 l.
Proof.
  induction l as [|x [|y l] IH]; [unfold commas; simpl; lia|unfold commas; simpl; lia|].
  cbn [join foldr] in *. rewrite !length_append, !Nat2Z.inj_add, IH. unfold commas. cbn [length foldr]. lia.
Qed.

(** [schema_guard.json_size] is the length of the compact serialisation. *)
Theorem json_size_exact v : Z.of_nat (String.length (json_dumps "," ":" false v)) = json_size v.
Proof.
  induction v as [| [] | | | l IH | o IH] using Json_nested_ind; try reflexivity.
  - apply length_string_literal.
  - cbn [json_dumps json_size]. rewrite !length_append, !Nat2Z.inj_add, length_join.
    change (Z.of_nat (String.length ",")) with 1.
    replace (commas (map (json_dumps "," ":" false) l)) with (commas l) by (unfold commas; by rewrite length_map).
    enough (E : foldr (fun x n => Z.of_nat (String.length x) + n) 0 (map (json_dumps "," ":" false) l)
      = (fix go l := match l with [] => 0 | x :: l' => json_size x + go l' end) l) by (rewrite E; simpl; lia).
    induction IH as [|x l Hx _ IHl]; [done|]. cbn [map foldr]. by rewrite Hx, IHl.
  - cbn [json_dumps json_size]. rewrite !length_append, !Nat2Z.inj_add, length_join, !map_map.
    change (Z.of_nat (String.length ",")) with 1. set (f := fun x => _).
    replace (commas (map f o)) with (commas o) by (unfold commas; by rewrite length_map).
    enough (E : foldr (fun x n => Z.of_nat (String.length x) + n) 0 (map f o)
      = (fix go o := match o with [] => 0 | (k, x) :: o' => string_literal_length k + 1 + json_size x + go o' end) o)
      by (rewrite E; simpl; lia).
    induction IH as [|[k x] o Hx _ IHo]; [done|]. cbn [map foldr]. rewrite IHo. subst f. cbn [fst snd] in *.
    rewrite !length_append, !Nat2Z.inj_add, length_string_literal, Hx. simpl. lia.
Qed.

Example json_dumps_example :
  json_dumps ", " ": " true (JObj [("b", JList [JNum 1; JNull]); ("a", JStr "x")])
  = ("{" +:+ string_literal "a" +:+ ": " +:+ string_literal "x" +:+ ", " +:+ string_literal "b" +:+ ": [1, null]}")%string.
Proof. vm_compute. reflexivity. Qed.
