(* ===== verification/SchemaGuard.v ===== *)
(** * Guards on agent-supplied JSON Schemas and payloads ([schema_guard.py])

    The [jsonschema] package is not part of the repository: whether a schema is a
    valid Draft 2020-12 schema, and which messages validation yields, are fields of
    the class [JsonSchema] that the development is parametric in. *)

From S2P Require Import Prelude Json Redaction.
From Stdlib Require Import Ascii.
#[local] Open Scope Z_scope.

(** One error of a validation: where it is in the instance (keys and indices) and its text. *)
Record ValidationError := mkValidationError {
  absolute_path : list (string + Z);
  error_message : string
}.

(** [Draft202012Validator.check_schema] and [Draft202012Validator(schema).iter_errors(value)]. *)
Class JsonSchema := mkJsonSchema {
  schema_valid : Json -> bool;
  iter_errors : Json -> Json -> list ValidationError
}.

Definition MAX_SCHEMA_BYTES : Z := 16 * 1024.
Definition MAX_PATTERN_LENGTH : Z := 200.

Definition check_size (value : Json) (limit : Z) (code_ : string) : Result PlatformError unit :=
  if limit <? json_size value then Err (invalid code_ []) else Ok tt.

(** The regular expressions of a schema, outermost first. *)
Fixpoint patterns (node : Json) : list string :=
  match node with
  | JObj o =>
      (fix go o := match o with
       | [] => []
       | (k, v) :: o' =>
           (if String.eqb k "pattern" then match v with JStr s => [s] | _ => [] end
            else if String.eqb k "patternProperties" then
              match v with JObj p => map fst p | _ => [] end
            else [])
           ++ patterns v ++ go o'
       end) o
  | JList l => (fix go l := match l with [] => [] | x :: l' => patterns x ++ go l' end) l
  | _ => []
  end.

Definition regex_keyword (k : string) : bool :=
  String.eqb k "pattern" || String.eqb k "patternProperties".

Fixpoint has_regex_keyword (node : Json) : bool :=
  match node with
  | JObj o =>
      existsb (fun kv => regex_keyword kv.1) o
      || (fix go o := match o with [] => false | (_, v) :: o' => has_regex_keyword v || go o' end) o
  | JList l => (fix go l := match l with [] => false | x :: l' => has_regex_keyword x || go l' end) l
  | _ => false
  end.

(** [\s*[*+{]] at the start of [s]. *)
Definition quantified (s : list ascii) : bool :=
  match (take_all is_space s).2 with c :: _ => one_of "*+{" c | [] => false end.

(** From just after an opening parenthesis: the group's atoms are escaped pairs or
    characters other than parentheses and backslash; [seen] records an unescaped one of
    [*+}|].  True when the group closes, [seen] holds and a quantifier follows. *)
Fixpoint group_tail (seen : bool) (s : list ascii) : bool :=
  match s with
  | [] => false
  | c :: s' =>
      if Ascii.eqb c ")" then seen && quantified s'
      else if Ascii.eqb c "(" then false
      else if Ascii.eqb c "\" then
        match s' with
        | d :: s'' => if code d =? 10 then false else group_tail seen s''
        | [] => false
        end
      else group_tail (seen || one_of "*+}|" c) s'
  end.

(** [_NESTED_QUANTIFIER.search(pattern)]. *)
Fixpoint nested_quantifier (s : list ascii) : bool :=
  match s with
  | [] => false
  | c :: s' => (Ascii.eqb c "(" && group_tail false s') || nested_quantifier s'
  end.

Definition bad_pattern (p : string) : bool :=
  (MAX_PATTERN_LENGTH <? Z.of_nat (String.length p)) || nested_quantifier (chars p).

Section check_schema.
Context {JS : JsonSchema}.

Definition check_schema (schema : Json) (code_ : string) (allow_patterns : bool)
    : Result PlatformError unit :=
  match check_size schema MAX_SCHEMA_BYTES code_ with
  | Err e => Err e
  | Ok _ =>
      if negb (schema_valid schema) then Err (invalid code_ [])
      else if negb allow_patterns then
        if has_regex_keyword schema then Err (invalid code_ []) else Ok tt
      else
        match List.find bad_pattern (patterns schema) with
        | Some p => Err (invalid code_ [("pattern", JStr (String.substring 0 80 p))])
        | None => Ok tt
        end
  end.
End check_schema.

Example nested_quantifier_examples :
  map (fun p => nested_quantifier (chars p))
      ["^(a+)+$"; "(a|aa)+"; "(x*) {2,}"; "(a\+)+"; "^[a-z]{1,3}$"; "(ab)+"]%string
  = [true; true; true; false; false; false].
Proof. reflexivity. Qed.

Lemma go_patterns_list (l : list Json) :
  Forall (fun x => has_regex_keyword x = false -> patterns x = []) l ->
  (fix go l := match l with [] => false | x :: l' => has_regex_keyword x || go l' end) l = false ->
  (fix go l := match l with [] => [] | x :: l' => patterns x ++ go l' end) l = [].
Proof.
  induction 1 as [|x l Hx Hl IH]; [done|]. intros [H1 H2]%orb_false_iff. by rewrite Hx, IH.
Qed.

(** A schema without the two regex keywords contributes no regular expression, at any
    depth: so the agent-supplied input schemas that [check_schema ... allow_patterns=False]
    accepts make the validator evaluate no pattern at all. *)
Theorem accepted_input_schema_has_no_pattern `{!JsonSchema} schema code_ :
  check_schema schema code_ false = Ok tt ->
  patterns schema = [] /\ schema_valid schema = true /\ json_size schema <= MAX_SCHEMA_BYTES.
Proof.
  unfold check_schema, check_size.
  destruct (_ <? _) eqn:Hsize; [done|]. destruct (schema_valid schema) eqn:Hv; [|done]. simpl.
  destruct (has_regex_keyword schema) eqn:Hk; [done|]. intros _. reflect_all.
  split_and!; [|done|done]. clear Hsize Hv.
  induction schema as [| | | |l IH|o IH] using Json_nested_ind; try done.
  - by apply go_patterns_list.
  - simpl in Hk |- *. apply orb_false_iff in Hk as [Hks Hvs].
    induction IH as [|[k v] o Hv Ho IHo]; [done|]. simpl in *.
    apply orb_false_iff in Hks as [Hk1 Hks]. apply orb_false_iff in Hvs as [Hv1 Hvs].
    unfold regex_keyword in Hk1. apply orb_false_iff in Hk1 as [-> ->]. simpl.
    by rewrite Hv, IHo.
Qed.
