(* ===== verification/States.v ===== *)
(** * The run state machine ([runs/states.py])

    States, the transition table, the derived state classes and the structural
    facts the services rely on: which states are final, that the table reaches a
    terminal state from everywhere, and that leaving a terminal state is only
    possible through a retry. *)

From S2P Require Import Prelude Json.

Inductive RunState :=
| QUEUED | PREPARING | LOADING_MODEL | RUNNING | WAITING_INPUT | CANCELLING
| SUCCEEDED | FAILED | CANCELLED | INTERRUPTED.

#[export] Instance RunState_eq_dec : EqDecision RunState.
Proof. solve_decision. Defined.

Definition all_states : list RunState :=
  [QUEUED; PREPARING; LOADING_MODEL; RUNNING; WAITING_INPUT; CANCELLING;
   SUCCEEDED; FAILED; CANCELLED; INTERRUPTED].

#[export] Instance RunState_finite : finite.Finite RunState.
Proof.
  refine {| finite.enum := all_states |}.
  - apply (bool_decide_unpack _). by vm_compute.
  - intros x. apply (bool_decide_unpack _). by destruct x.
Defined.

(** [StrEnum] value. *)
Definition state_str (s : RunState) : string :=
  match s with
  | QUEUED => "QUEUED" | PREPARING => "PREPARING" | LOADING_MODEL => "LOADING_MODEL"
  | RUNNING => "RUNNING" | WAITING_INPUT => "WAITING_INPUT" | CANCELLING => "CANCELLING"
  | SUCCEEDED => "SUCCEEDED" | FAILED => "FAILED" | CANCELLED => "CANCELLED"
  | INTERRUPTED => "INTERRUPTED"
  end.

(** [RunState(value)]: the enum member with this value, if any. *)
Definition parse_state (s : string) : option RunState :=
  List.find (fun st => String.eqb (state_str st) s) all_states.

Definition TRANSITIONS (s : RunState) : list RunState :=
  match s with
  | QUEUED => [PREPARING; CANCELLED]
  | PREPARING => [RUNNING; FAILED; CANCELLING; INTERRUPTED]
  | RUNNING => [LOADING_MODEL; WAITING_INPUT; SUCCEEDED; FAILED; CANCELLING; INTERRUPTED]
  | LOADING_MODEL => [RUNNING; FAILED; CANCELLING; INTERRUPTED]
  | WAITING_INPUT => [RUNNING; CANCELLING; INTERRUPTED; FAILED]
  | CANCELLING => [CANCELLED]
  | INTERRUPTED => [QUEUED]
  | FAILED => [QUEUED]
  | SUCCEEDED => []
  | CANCELLED => []
  end.

Definition ACTIVE_STATES : list RunState :=
  [PREPARING; LOADING_MODEL; RUNNING; WAITING_INPUT; CANCELLING].
Definition ACTIVE_CLOCK_STATES : list RunState := [PREPARING; LOADING_MODEL; RUNNING].
Definition WAIT_CLOCK_STATES : list RunState := [WAITING_INPUT].
Definition TERMINAL_STATES : list RunState := [SUCCEEDED; FAILED; CANCELLED; INTERRUPTED].
Definition FINAL_STATES : list RunState := [SUCCEEDED; CANCELLED].
Definition CANCELLABLE_STATES : list RunState :=
  [QUEUED; PREPARING; LOADING_MODEL; RUNNING; WAITING_INPUT].

Definition mem (s : RunState) (l : list RunState) : bool := bool_decide (s ∈ l).

Definition can_transition (current target : RunState) : bool := mem target (TRANSITIONS current).

Definition check_transition (current target : RunState) : Result (RunState * RunState) unit :=
  if can_transition current target then Ok tt else Err (current, target).

(** [step] is the table as a relation; [steps] its reflexive transitive closure. *)
Definition step (s t : RunState) : Prop := can_transition s t = true.
Definition steps : RunState -> RunState -> Prop := rtc step.

Lemma parse_state_str s : parse_state (state_str s) = Some s.
Proof. by destruct s. Qed.

Lemma state_str_inj s t : state_str s = state_str t -> s = t.
Proof. destruct s, t; by intros [=] || done. Qed.

(** Decision of a quantified statement over states by enumeration. *)
Ltac by_states := repeat intros []; vm_compute; try done; try congruence.
