(* ===== verification/Jobs.v ===== *)
(** * The PostgreSQL job queue ([crewquarters_shared/jobs.py])

    The [jobs] table as the list of its rows in insertion order plus the id
    sequence.  Each operation is one SQL statement (or two in one transaction):
    an [UPDATE ... WHERE] maps the rows, [claim] picks the earliest due row that
    no other transaction has locked.  [now] is the transaction timestamp that
    PostgreSQL's [now()] returns; [utcnow] is the process clock. *)

From S2P Require Import Prelude Json.
From Stdlib Require Import QArith Qround Lqa Psatz.
#[local] Open Scope Z_scope.

(** ** Rows *)

Inductive JobState := available | claimed | succeeded | dead | cancelled.

#[export] Instance JobState_eq_dec : EqDecision JobState.
Proof. solve_decision. Defined.

(** The dedupe keys the platform builds, by the f-string that builds them:
    [run:{id}:attempt:{n}], [run:{id}:cancel:{n}], [run:{id}:stop:{n}],
    [model:{id}:load], [model:{id}:unload], [knowledge.ingest:{id}], [knowledge.purge:{id}];
    other services use their own. *)
Inductive DedupeKey :=
| KRunAttempt (run : uuid) (attempt : Z)
| KRunCancel (run : uuid) (attempt : Z)
| KRunStop (run : uuid) (attempt : Z)
| KModelLoad (model : string)
| KModelUnload (model : string)
| KIngest (document : uuid)
| KPurge (ident : uuid)
| KOther (key : string).

#[export] Instance DedupeKey_eq_dec : EqDecision DedupeKey.
Proof. solve_decision. Defined.

(** The payload dicts: [{"runId", "attempt"}], [{"modelId"}], [{"documentId"}] or [{"path"}];
    a missing entry is [None]. *)
Record JobPayload := mkPayload {
  pl_run_id : option uuid;
  pl_attempt : option Z;
  pl_model_id : option string;
  pl_document_id : option uuid;
  pl_path : option string
}.

Definition run_payload (run : uuid) (attempt : Z) : JobPayload :=
  mkPayload (Some run) (Some attempt) None None None.
Definition model_payload (model : string) : JobPayload := mkPayload None None (Some model) None None.
Definition document_payload (document : uuid) : JobPayload := mkPayload None None None (Some document) None.
Definition path_payload (path : string) : JobPayload := mkPayload None None None None (Some path).

Record Job := mkJob {
  job_id : Z;
  job_type : string;
  job_payload : JobPayload;
  job_state : JobState;
  job_available_at : instant;
  job_attempts : Z;
  job_max_attempts : Z;
  job_lease_owner : option string;
  job_lease_until : option instant;
  job_dedupe_key : option DedupeKey;
  job_last_error : option Json;
  job_updated_at : instant;
  job_finished_at : option instant
}.

#[export] Instance eta_Job : Eta Job := fun r =>
  mkJob (job_id r) (job_type r) (job_payload r) (job_state r) (job_available_at r)
    (job_attempts r) (job_max_attempts r) (job_lease_owner r) (job_lease_until r)
    (job_dedupe_key r) (job_last_error r) (job_updated_at r) (job_finished_at r).

Record JobQueue := mkQueue {
  jq_rows : list Job;
  jq_next_id : Z
}.

#[export] Instance eta_JobQueue : Eta JobQueue := fun r => mkQueue (jq_rows r) (jq_next_id r).

Definition empty_queue : JobQueue := mkQueue [] 1.

(** [state IN ('available', 'claimed')]. *)
Definition live (j : Job) : bool :=
  match job_state j with available | claimed => true | _ => false end.

(** The entry of a row in the partial unique index [uq_jobs_live_dedupe]. *)
Definition live_key (j : Job) : option DedupeKey :=
  if live j then job_dedupe_key j else None.

(** ** Statements *)

(** [UPDATE jobs SET f WHERE p]. *)
Definition update_where (p : Job -> bool) (f : Job -> Job) (q : JobQueue) : JobQueue :=
  q <| jq_rows ::= map (fun j => if p j then f j else j) |>.

Definition matching (p : Job -> bool) (q : JobQueue) : list Job := List.filter p (jq_rows q).

Definition rowcount (p : Job -> bool) (q : JobQueue) : Z := Z.of_nat (length (matching p q)).

(** ** Backoff *)

Definition BACKOFF_BASE_SECONDS : Z := 2.
Definition BACKOFF_MAX_SECONDS : Z := 300.

Definition backoff_ceiling (attempts : Z) : Z :=
  Z.min BACKOFF_MAX_SECONDS (BACKOFF_BASE_SECONDS * 2 ^ Z.max 0 (attempts - 1)).

(** [rnd] is the value of [rng.random()], in [[0, 1)]. *)
Definition backoff_seconds (attempts : Z) (rnd : Q) : Q :=
  (inject_Z (backoff_ceiling attempts) / 2 + rnd * inject_Z (backoff_ceiling attempts) / 2)%Q.

(** [make_interval(secs => d)], rounded to microseconds. *)
Definition make_interval (d : Q) : Z := Qfloor (d * inject_Z 1000000 + (1 # 2))%Q.

(** ** Operations *)

Definition enqueue (now utcnow : instant) (typ : string) (payload : JobPayload)
    (key : option DedupeKey) (available_at : option instant) (max_attempts : Z)
    (q : JobQueue) : option Z * JobQueue :=
  let fresh := jq_next_id q in
  (* nextval() is consumed whether or not the row is inserted *)
  let q' := q <| jq_next_id := fresh + 1 |> in
  let conflicts j := match key with
                     | Some k => bool_decide (live_key j = Some k)
                     | None => false
                     end in
  if existsb conflicts (jq_rows q) then (None, q')
  else
    let row := mkJob fresh typ payload available (default utcnow available_at) 0 max_attempts
                 None None key None now None in
    (Some fresh, q' <| jq_rows ::= fun rows => rows ++ [row] |>).

Definition due (now : instant) (types : option (list string)) (locked : Z -> bool) (j : Job) : bool :=
  bool_decide (job_state j = available) && (job_available_at j <=? now)
  && match types with
     | Some ((_ :: _) as ts) => existsb (String.eqb (job_type j)) ts
     | _ => true
     end
  && negb (locked (job_id j)).

(** [ORDER BY available_at, id]. *)
Definition before (a b : Job) : bool :=
  (job_available_at a <? job_available_at b)
  || ((job_available_at a =? job_available_at b) && (job_id a <=? job_id b)).

Fixpoint earliest (js : list Job) : option Job :=
  match js with
  | [] => None
  | j :: js' => match earliest js' with
                | Some m => if before j m then Some j else Some m
                | None => Some j
                end
  end.

Definition lease (now : instant) (owner : string) (lease_seconds : Z) (j : Job) : Job :=
  j <| job_state := claimed |> <| job_lease_owner := Some owner |>
    <| job_lease_until := Some (now + seconds lease_seconds) |>
    <| job_attempts ::= Z.succ |> <| job_updated_at := now |>.

(** [locked] tells which rows another open transaction holds ([SKIP LOCKED]). *)
Definition claim (now : instant) (worker : string) (lease_seconds : Z)
    (types : option (list string)) (locked : Z -> bool) (q : JobQueue) : option Job * JobQueue :=
  match earliest (matching (due now types locked) q) with
  | None => (None, q)
  | Some j =>
      (Some (lease now worker lease_seconds j),
       update_where (fun r => job_id r =? job_id j) (lease now worker lease_seconds) q)
  end.

(** [WHERE id = :id AND state = 'claimed' AND lease_owner = :owner]. *)
Definition owned (id : Z) (worker : string) (j : Job) : bool :=
  (job_id j =? id) && bool_decide (job_state j = claimed)
  && bool_decide (job_lease_owner j = Some worker).

Definition heartbeat (now : instant) (id : Z) (worker : string) (lease_seconds : Z)
    (q : JobQueue) : bool * JobQueue :=
  (rowcount (owned id worker) q =? 1,
   update_where (owned id worker)
     (fun j => j <| job_lease_until := Some (now + seconds lease_seconds) |>
                 <| job_updated_at := now |>) q).

Definition complete (now : instant) (id : Z) (worker : string) (q : JobQueue) : bool * JobQueue :=
  (rowcount (owned id worker) q =? 1,
   update_where (owned id worker)
     (fun j => j <| job_state := succeeded |> <| job_finished_at := Some now |>
                 <| job_lease_owner := None |> <| job_lease_until := None |>
                 <| job_updated_at := now |>) q).

Definition requeue (now at_ : instant) (error : Json) (j : Job) : Job :=
  j <| job_state := available |> <| job_lease_owner := None |> <| job_lease_until := None |>
    <| job_available_at := at_ |> <| job_last_error := Some error |> <| job_updated_at := now |>.

Definition bury (now : instant) (error : Json) (j : Job) : Job :=
  j <| job_state := dead |> <| job_lease_owner := None |> <| job_lease_until := None |>
    <| job_finished_at := Some now |> <| job_last_error := Some error |>
    <| job_updated_at := now |>.

(** Returns the new state, or [None] when this worker no longer owns the lease. *)
Definition fail (now : instant) (id : Z) (worker : string) (error : Json) (retryable : bool)
    (rnd : Q) (q : JobQueue) : option JobState * JobQueue :=
  match matching (owned id worker) q with
  | [] => (None, q)
  | j :: _ =>
      if retryable && (job_attempts j <? job_max_attempts j) then
        let delay := backoff_seconds (job_attempts j) rnd in
        (Some available,
         update_where (fun r => job_id r =? id) (requeue now (now + make_interval delay) error) q)
      else (Some dead, update_where (fun r => job_id r =? id) (bury now error) q)
  end.

Definition LEASE_EXPIRED : Json := JObj [("code", JStr "LEASE_EXPIRED")].

Definition expired (now : instant) (j : Job) : bool :=
  bool_decide (job_state j = claimed)
  && match job_lease_until j with Some t => t <? now | None => false end.

Definition reap_requeues (now : instant) (j : Job) : bool :=
  expired now j && (job_attempts j <? job_max_attempts j).
Definition reap_buries (now : instant) (j : Job) : bool :=
  expired now j && (job_max_attempts j <=? job_attempts j).

(** Returns the requeued ids and the rows moved to [dead]. *)
Definition reap_expired (now : instant) (q : JobQueue) : (list Z * list Job) * JobQueue :=
  let q1 := update_where (reap_requeues now)
              (fun j => requeue now (job_available_at j) LEASE_EXPIRED j) q in
  let q2 := update_where (reap_buries now) (bury now LEASE_EXPIRED) q1 in
  ((map job_id (matching (reap_requeues now) q), matching (reap_buries now) q1), q2).

Definition cancellable_by (key : DedupeKey) (j : Job) : bool :=
  bool_decide (job_dedupe_key j = Some key) && bool_decide (job_state j = available).

Definition cancel_by_dedupe (now : instant) (key : DedupeKey) (q : JobQueue) : Z * JobQueue :=
  (rowcount (cancellable_by key) q,
   update_where (cancellable_by key)
     (fun j => j <| job_state := cancelled |> <| job_finished_at := Some now |>
                 <| job_updated_at := now |>) q).

(** ** Histories of the queue

    The operations as data, so that a history is a list and a claim's outcome
    can be observed. *)

Inductive JobOp :=
| OpEnqueue (now utcnow : instant) (typ : string) (payload : JobPayload)
    (key : option DedupeKey) (available_at : option instant) (max_attempts : Z)
| OpClaim (now : instant) (worker : string) (lease_seconds : Z)
    (types : option (list string)) (locked : Z -> bool)
| OpHeartbeat (now : instant) (id : Z) (worker : string) (lease_seconds : Z)
| OpComplete (now : instant) (id : Z) (worker : string)
| OpFail (now : instant) (id : Z) (worker : string) (error : Json) (retryable : bool) (rnd : Q)
| OpReap (now : instant)
| OpCancel (now : instant) (key : DedupeKey).

Definition apply_op (o : JobOp) (q : JobQueue) : JobQueue :=
  match o with
  | OpEnqueue now utc typ pl key at_ n => (enqueue now utc typ pl key at_ n q).2
  | OpClaim now w l ts lk => (claim now w l ts lk q).2
  | OpHeartbeat now id w l => (heartbeat now id w l q).2
  | OpComplete now id w => (complete now id w q).2
  | OpFail now id w e r rnd => (fail now id w e r rnd q).2
  | OpReap now => (reap_expired now q).2
  | OpCancel now key => (cancel_by_dedupe now key q).2
  end.

(** Callers allow at least one attempt (the code passes 1, 3, 5 or 10). *)
Definition op_wf (o : JobOp) : Prop :=
  match o with OpEnqueue _ _ _ _ _ _ n => 1 <= n | _ => True end.

Definition run_ops (os : list JobOp) (q : JobQueue) : JobQueue :=
  fold_left (fun q o => apply_op o q) os q.

(** The id a claim hands to its worker, if any. *)
Definition handed (o : JobOp) (q : JobQueue) : option Z :=
  match o with
  | OpClaim now w l ts lk => job_id <$> (claim now w l ts lk q).1
  | _ => None
  end.

(** How often job [id] was handed to a worker during a history. *)
Fixpoint times_claimed (id : Z) (os : list JobOp) (q : JobQueue) : Z :=
  match os with
  | [] => 0
  | o :: os' => (if bool_decide (handed o q = Some id) then 1 else 0)
                + times_claimed id os' (apply_op o q)
  end.

(** ** Well-formedness *)

Record job_ok (j : Job) : Prop := mkJobOk {
  ok_owner : job_state j = claimed <-> is_Some (job_lease_owner j);
  ok_until : is_Some (job_lease_owner j) <-> is_Some (job_lease_until j);
  ok_attempts : 0 <= job_attempts j <= job_max_attempts j;
  ok_available : job_state j = available -> job_attempts j < job_max_attempts j;
  ok_finished : live j = true <-> job_finished_at j = None
}.

Record queue_ok (q : JobQueue) : Prop := mkQueueOk {
  ok_ids : NoDup (map job_id (jq_rows q));
  ok_next : Forall (fun j => job_id j < jq_next_id q) (jq_rows q);
  ok_rows : Forall job_ok (jq_rows q);
  ok_keys : NoDup (omap live_key (jq_rows q))
}.

(** A change of one row that the queue tolerates: the id stays, the row stays well
    formed, and its index entry stays or disappears. *)
Record row_update (j j' : Job) : Prop := mkRowUpdate {
  upd_id : job_id j' = job_id j;
  upd_ok : job_ok j -> job_ok j';
  upd_key : live_key j' = live_key j \/ live_key j' = None
}.

Lemma row_update_refl j : row_update j j.
Proof. split; auto. Qed.

Lemma map_job_id_update p f (rows : list Job) :
  (forall j, j ∈ rows -> p j = true -> job_id (f j) = job_id j) ->
  map job_id (map (fun j => if p j then f j else j) rows) = map job_id rows.
Proof.
  intros Hid. rewrite List.map_map. apply map_ext_in. intros j Hj.
  apply list_elem_of_In in Hj. destruct (p j) eqn:E; auto.
Qed.

Lemma omap_update_sublist (g h : Job -> option DedupeKey) (rows : list Job) :
  (forall j, j ∈ rows -> h j = g j \/ h j = None) -> sublist (omap h rows) (omap g rows).
Proof.
  induction rows as [|j rows IH]; intros Hgh; simpl; [done|].
  assert (IH' : sublist (omap h rows) (omap g rows))
    by (apply IH; intros; apply Hgh; set_solver).
  destruct (Hgh j) as [->| ->]; [set_solver| |].
  - destruct (g j); [by apply sublist_skip|done].
  - destruct (g j); [by apply sublist_cons|done].
Qed.

Lemma omap_map_rows (f : Job -> Job) (rows : list Job) :
  omap live_key (map f rows) = omap (fun j => live_key (f j)) rows.
Proof. induction rows as [|j rows IH]; csimpl; [done|]. by rewrite IH. Qed.

Lemma update_where_ok p f q :
  (forall j, j ∈ jq_rows q -> p j = true -> row_update j (f j)) ->
  queue_ok q -> queue_ok (update_where p f q).
Proof.
  intros Hf [Hids Hnext Hrows Hkeys]. split; simpl.
  - rewrite map_job_id_update; [done|]. intros j Hj Hp. by destruct (Hf j Hj Hp).
  - apply Forall_map, Forall_forall. intros j Hj.
    assert (job_id j < jq_next_id q) by (by eapply (proj1 (Forall_forall _ _) Hnext)).
    destruct (p j) eqn:E; simpl; rewrite ?E; [|done]. destruct (Hf j Hj E) as [-> _ _]. done.
  - apply Forall_map, Forall_forall. intros j Hj.
    assert (job_ok j) by (by eapply (proj1 (Forall_forall _ _) Hrows)).
    simpl. destruct (p j) eqn:E; [|done]. by apply (Hf j Hj E).
  - rewrite omap_map_rows. eapply sublist_NoDup; [exact Hkeys|].
    apply omap_update_sublist. intros j Hj. destruct (p j) eqn:E; [|by left].
    by apply (Hf j Hj E).
Qed.

(** Closes [row_update] goals for the updates of this file. *)
Ltac solve_row_update :=
  intros; unfold owned, expired, due, cancellable_by in *; reflect_all;
  split; [done | intros [Ho Hu Ha Hv Hf]; split | unfold live_key, live];
  unfold live in *; simpl in *;
  repeat match goal with H : job_state _ = _ |- _ => rewrite H in * end;
  try first [by split; eauto | naive_solver lia | by left | by right | lia].

Lemma enqueue_ok now utc typ pl key at_ n q :
  1 <= n -> queue_ok q -> queue_ok (enqueue now utc typ pl key at_ n q).2.
Proof.
  intros Hn [Hids Hnext Hrows Hkeys].
  assert (Hlt : Forall (fun j => job_id j < jq_next_id q + 1) (jq_rows q))
    by (eapply Forall_impl; [exact Hnext|simpl; lia]).
  unfold enqueue. destruct (existsb _ _) eqn:E; simpl; [by split|].
  split; simpl.
  - rewrite map_app. apply NoDup_app. split_and!; [done| |apply NoDup_singleton].
    intros i Hi. simpl. apply list_elem_of_fmap in Hi as (j & -> & Hj).
    intros Heq%list_elem_of_singleton. simpl in Heq.
    assert (job_id j < jq_next_id q) by (by eapply (proj1 (Forall_forall _ _) Hnext)). lia.
  - apply Forall_app. split; [done|]. apply Forall_singleton. simpl. lia.
  - apply Forall_app. split; [done|]. apply Forall_singleton.
    split; unfold live; simpl; try naive_solver lia.
  - rewrite omap_app. apply NoDup_app. split_and!; [done| |].
    + intros k Hk. apply list_elem_of_omap in Hk as (j & Hj & Hjk).
      unfold live_key at 1; simpl. destruct key as [k'|]; simpl; [|set_solver].
      intros ->%list_elem_of_singleton.
      apply not_true_iff_false in E. apply E, existsb_exists.
      exists j. rewrite <- list_elem_of_In. split; [done|]. by apply bool_decide_eq_true.
    + unfold live_key; simpl. destruct key; simpl; [apply NoDup_singleton|apply NoDup_nil_2].
Qed.

Lemma earliest_elem js j : earliest js = Some j -> j ∈ js.
Proof.
  revert j. induction js as [|x js IH]; simpl; [done|]. intros j.
  destruct (earliest js) as [m|] eqn:E; [|intros [= ->]; set_solver].
  destruct (before x m); intros [= ->]; [set_solver|].
  apply list_elem_of_further. by apply IH.
Qed.

Lemma matching_elem p q j : j ∈ matching p q <-> j ∈ jq_rows q /\ p j = true.
Proof. unfold matching. rewrite !list_elem_of_In, filter_In. done. Qed.

(** Ids are unique, so a row is determined by its id. *)
Lemma same_id_same_row q j r :
  queue_ok q -> j ∈ jq_rows q -> r ∈ jq_rows q -> job_id r = job_id j -> r = j.
Proof.
  intros [Hids _ _ _] Hj Hr Hid.
  apply list_elem_of_lookup in Hj as [i1 H1]. apply list_elem_of_lookup in Hr as [i2 H2].
  assert (i1 = i2) as ->.
  { eapply (NoDup_lookup _ i1 i2); [exact Hids| |];
      rewrite list_lookup_fmap; [by rewrite H1|by rewrite H2; simpl; rewrite Hid]. }
  congruence.
Qed.

Lemma lease_row_update now w l j :
  job_state j = available -> row_update j (lease now w l j).
Proof. solve_row_update. Qed.

Lemma claim_ok now w l ts lk q : queue_ok q -> queue_ok (claim now w l ts lk q).2.
Proof.
  intros Hq. unfold claim. destruct (earliest _) as [j|] eqn:E; [|done].
  apply earliest_elem, matching_elem in E as [Hj Hdue].
  apply update_where_ok; [|done]. intros r Hr Hid. reflect_all.
  assert (r = j) as -> by (by eapply same_id_same_row).
  unfold due in Hdue. reflect_all. by apply lease_row_update.
Qed.

Lemma heartbeat_ok now id w l q : queue_ok q -> queue_ok (heartbeat now id w l q).2.
Proof. intros Hq. apply update_where_ok; [|done]. solve_row_update. Qed.

Lemma complete_ok now id w q : queue_ok q -> queue_ok (complete now id w q).2.
Proof. intros Hq. apply update_where_ok; [|done]. solve_row_update. Qed.

Lemma fail_ok now id w e r rnd q : queue_ok q -> queue_ok (fail now id w e r rnd q).2.
Proof.
  intros Hq. unfold fail. destruct (matching _ _) as [|j js] eqn:E; [done|].
  assert (Hj : j ∈ matching (owned id w) q) by (rewrite E; set_solver).
  apply matching_elem in Hj as [Hj Hown]. unfold owned in Hown. reflect_all.
  destruct (r && _) eqn:Er; simpl; apply update_where_ok; try done;
    intros x Hx Hid; reflect_all;
    assert (x = j) as -> by (eapply same_id_same_row; eauto; lia); solve_row_update.
Qed.

Lemma reap_ok now q : queue_ok q -> queue_ok (reap_expired now q).2.
Proof.
  intros Hq. unfold reap_expired; simpl.
  apply update_where_ok; [|apply update_where_ok; [|done]];
    intros j _; unfold reap_buries, reap_requeues; solve_row_update.
Qed.

Lemma cancel_ok now key q : queue_ok q -> queue_ok (cancel_by_dedupe now key q).2.
Proof. intros Hq. apply update_where_ok; [|done]. solve_row_update. Qed.

#[export] Hint Resolve enqueue_ok claim_ok heartbeat_ok complete_ok fail_ok reap_ok cancel_ok
  : wp.

Lemma apply_op_ok o q : op_wf o -> queue_ok q -> queue_ok (apply_op o q).
Proof. destruct o; cbn [apply_op op_wf]; auto with wp. Qed.

Lemma run_ops_ok os q : Forall op_wf os -> queue_ok q -> queue_ok (run_ops os q).
Proof.
  revert q. induction os as [|o os IH]; intros q; simpl; [done|].
  intros [Ho Hos]%Forall_cons Hq. apply IH; [done|]. by apply apply_op_ok.
Qed.

Lemma empty_queue_ok : queue_ok empty_queue.
Proof. split; simpl; [apply NoDup_nil_2|apply Forall_nil_2|apply Forall_nil_2|apply NoDup_nil_2]. Qed.

(** *** Rows by id *)

Definition find_job (id : Z) (q : JobQueue) : option Job :=
  List.find (fun j => job_id j =? id) (jq_rows q).

Definition attempts_of (id : Z) (q : JobQueue) : Z :=
  match find_job id q with Some j => job_attempts j | None => 0 end.

Lemma find_update id p f (rows : list Job) :
  (forall j, p j = true -> job_id (f j) = job_id j) ->
  List.find (fun j => job_id j =? id) (map (fun j => if p j then f j else j) rows)
  = (fun j => if p j then f j else j) <$> List.find (fun j => job_id j =? id) rows.
Proof.
  intros Hid. induction rows as [|j rows IH]; simpl; [done|].
  replace (job_id (if p j then f j else j)) with (job_id j)
    by (destruct (p j) eqn:E; [by rewrite Hid|done]).
  destruct (job_id j =? id); [done|exact IH].
Qed.

Lemma attempts_of_update id p f q :
  (forall j, p j = true -> job_id (f j) = job_id j) ->
  (forall j, p j = true -> job_attempts (f j) = job_attempts j) ->
  attempts_of id (update_where p f q) = attempts_of id q.
Proof.
  intros Hid Hatt. unfold attempts_of, find_job, update_where; simpl.
  rewrite find_update by done. destruct (List.find _ _) as [j|]; simpl; [|done].
  destruct (p j) eqn:E; auto.
Qed.

Lemma find_app {A} (p : A -> bool) (l1 l2 : list A) :
  List.find p (l1 ++ l2) =
  match List.find p l1 with Some x => Some x | None => List.find p l2 end.
Proof. induction l1 as [|x l1 IH]; simpl; [done|]. by destruct (p x). Qed.

Lemma attempts_of_step id o q :
  queue_ok q ->
  attempts_of id (apply_op o q)
  = attempts_of id q + (if bool_decide (handed o q = Some id) then 1 else 0).
Proof.
  intros Hq.
  destruct o as [now utc typ pl key at_ n|now w l ts lk| | |now jid w e r rnd| | ]; simpl;
    rewrite ?Z.add_0_r; try (apply attempts_of_update; done).
  - unfold enqueue. destruct (existsb _ _); simpl; [done|].
    unfold attempts_of, find_job; simpl. rewrite find_app.
    destruct (List.find _ (jq_rows q)); simpl; [done|]. by destruct (jq_next_id q =? id).
  - unfold claim. destruct (earliest _) as [j|] eqn:E; simpl; [|lia].
    apply earliest_elem, matching_elem in E as [Hj Hdue].
    unfold attempts_of, find_job, update_where; simpl. rewrite find_update by done.
    destruct (List.find _ _) as [r|] eqn:Er; simpl.
    + apply find_some in Er as [Hr Hrid]. apply list_elem_of_In in Hr. reflect_all.
      destruct (job_id r =? job_id j) eqn:Erj; reflect_all; case_bool_decide; simplify_eq; try lia.
      all: simpl; try lia. all: exfalso; congruence.
    + rewrite bool_decide_eq_false_2; [done|]. intros [= Hid].
      apply list_elem_of_In, (find_none _ _ Er) in Hj. reflect_all. congruence.
  - unfold fail. destruct (matching _ _); simpl; [done|].
    destruct (r && _); simpl; apply attempts_of_update; done.
  - unfold reap_expired; simpl. rewrite !attempts_of_update; done.
Qed.

(** *** Liveness of keys, for the clients of the queue *)

Definition has_live (k : DedupeKey) (q : JobQueue) : Prop :=
  exists j, j ∈ jq_rows q /\ live_key j = Some k.

Lemma enqueue_has_live now utc typ pl k at_ n q :
  has_live k (enqueue now utc typ pl (Some k) at_ n q).2.
Proof.
  unfold enqueue. destruct (existsb _ _) eqn:E; simpl.
  - apply existsb_exists in E as (j & Hj & Hk). apply list_elem_of_In in Hj. reflect_all.
    by exists j.
  - eexists. split; [apply elem_of_app; right; by apply list_elem_of_singleton|done].
Qed.

Lemma enqueue_rows_grow now utc typ pl key at_ n q j :
  j ∈ jq_rows q -> j ∈ jq_rows (enqueue now utc typ pl key at_ n q).2.
Proof. intros Hj. unfold enqueue. destruct (existsb _ _); simpl; set_solver. Qed.

Lemma enqueue_keeps_live now utc typ pl key at_ n q k :
  has_live k q -> has_live k (enqueue now utc typ pl key at_ n q).2.
Proof. intros (j & Hj & Hk). exists j. split; [by apply enqueue_rows_grow|done]. Qed.

(** Updates that keep a row's index entry keep every live key. *)
Lemma update_where_keeps_live p f q k :
  (forall j, j ∈ jq_rows q -> p j = true -> live_key j = Some k -> live_key (f j) = Some k) ->
  has_live k q -> has_live k (update_where p f q).
Proof.
  intros Hf (j & Hj & Hk). exists (if p j then f j else j). split.
  - unfold update_where; simpl. apply list_elem_of_fmap. by exists j.
  - destruct (p j) eqn:E; auto.
Qed.

Lemma cancel_by_dedupe_keeps_live now key q k :
  k <> key -> has_live k q -> has_live k (cancel_by_dedupe now key q).2.
Proof.
  intros Hne. apply update_where_keeps_live. unfold cancellable_by, live_key.
  intros j _ Hc Hk. reflect_all. destruct (live j); congruence.
Qed.

(** A key survives an update unless one of the updated rows carried it. *)
Lemma update_where_live_or p f q k :
  has_live k q ->
  has_live k (update_where p f q) \/ exists j, j ∈ jq_rows q /\ p j = true /\ live_key j = Some k.
Proof.
  intros (j & Hj & Hk). destruct (p j) eqn:Hp; [right; by exists j|left].
  exists j. split; [|done]. unfold update_where; simpl. apply list_elem_of_fmap. exists j. by rewrite Hp.
Qed.

Lemma claim_keeps_live now w l ts lk q k : has_live k q -> has_live k (claim now w l ts lk q).2.
Proof.
  intros Hk. unfold claim. destruct (earliest _) as [j|]; [|done].
  apply update_where_keeps_live; [|done]. unfold live_key. intros x _ _. by destruct (live x).
Qed.

Lemma heartbeat_keeps_live now id w l q k : has_live k q -> has_live k (heartbeat now id w l q).2.
Proof.
  intros Hk. apply update_where_keeps_live; [|done]. unfold live_key, live. by intros x _ _.
Qed.

(** *** What never changes about a row *)

Definition job_ident (j : Job) : Z * string * JobPayload * option DedupeKey :=
  (job_id j, job_type j, job_payload j, job_dedupe_key j).
Definition idents (q : JobQueue) := map job_ident (jq_rows q).

Lemma update_where_idents p f q :
  (forall j, job_ident (f j) = job_ident j) -> idents (update_where p f q) = idents q.
Proof.
  intros Hf. unfold idents, update_where; simpl. rewrite List.map_map. apply map_ext.
  intros j. by destruct (p j).
Qed.

Lemma claim_idents now w l ts lk q : idents (claim now w l ts lk q).2 = idents q.
Proof. unfold claim. destruct (earliest _); [by apply update_where_idents|done]. Qed.
Lemma fail_idents now id w e r rnd q : idents (fail now id w e r rnd q).2 = idents q.
Proof.
  unfold fail. destruct (matching _ _) as [|j js]; [done|].
  destruct (r && _); simpl; by apply update_where_idents.
Qed.
Lemma reap_idents now q : idents (reap_expired now q).2 = idents q.
Proof. unfold reap_expired; simpl. by rewrite !update_where_idents. Qed.

Lemma enqueue_idents now utc typ pl key at_ n q :
  idents (enqueue now utc typ pl key at_ n q).2 = idents q \/
  idents (enqueue now utc typ pl key at_ n q).2 = idents q ++ [(jq_next_id q, typ, pl, key)].
Proof.
  unfold enqueue. destruct (existsb _ _); simpl; [by left|right].
  unfold idents; simpl. by rewrite map_app.
Qed.

(** ** Correctness of the queue *)

(** Every history of queue operations keeps the table well formed: ids are unique,
    at most one live row exists per dedupe key, a row is claimed exactly while it
    carries a lease, an available row still has attempts left, attempts never exceed
    [max_attempts], and a row has a finish time exactly when it is no longer live. *)
Theorem queue_invariant os : Forall op_wf os -> queue_ok (run_ops os empty_queue).
Proof. intros Hos. apply run_ops_ok; [done|apply empty_queue_ok]. Qed.

(** Attempts and claims along a history that starts in any well-formed table. *)
Lemma attempts_of_run id os q :
  Forall op_wf os -> queue_ok q ->
  attempts_of id (run_ops os q) = attempts_of id q + times_claimed id os q.
Proof.
  revert q. induction os as [|o os IH]; intros q; simpl; [lia|].
  intros [Ho Hos]%Forall_cons Hq. rewrite IH by (done || by apply apply_op_ok).
  rewrite attempts_of_step by done. lia.
Qed.

Lemma find_job_row q j : queue_ok q -> j ∈ jq_rows q -> find_job (job_id j) q = Some j.
Proof.
  intros Hq Hj. unfold find_job. destruct (List.find _ _) as [r|] eqn:E.
  - apply find_some in E as [Hr Hid]. apply list_elem_of_In in Hr. reflect_all.
    by rewrite (same_id_same_row q j r).
  - apply list_elem_of_In, (find_none _ _ E) in Hj. reflect_all. congruence.
Qed.

(** Bounded delivery: along every history, a job's [attempts] is exactly the number of
    times it was handed to a worker, and so no job is handed out more than
    [max_attempts] times, however workers crash, time out or race. *)
Theorem bounded_delivery os j :
  Forall op_wf os -> j ∈ jq_rows (run_ops os empty_queue) ->
  times_claimed (job_id j) os empty_queue = job_attempts j /\
  times_claimed (job_id j) os empty_queue <= job_max_attempts j.
Proof.
  intros Hos Hj. pose proof (run_ops_ok os empty_queue Hos empty_queue_ok) as Hq.
  pose proof (attempts_of_run (job_id j) os empty_queue Hos empty_queue_ok) as Hrun.
  unfold attempts_of in Hrun. rewrite find_job_row in Hrun by done. simpl in Hrun.
  assert (job_ok j) as [_ _ Ha _ _] by (by eapply (proj1 (Forall_forall _ _) (ok_rows _ Hq))).
  lia.
Qed.

(** An operation issued by the holder of job [id]'s lease, or able to take it away:
    the holder's own calls, and a reap after the lease ran out. *)
Definition by_holder_or_expiry (id : Z) (w : string) (until : instant) (o : JobOp) : bool :=
  match o with
  | OpHeartbeat _ i w' _ | OpComplete _ i w' | OpFail _ i w' _ _ _ =>
      (i =? id) && String.eqb w w'
  | OpReap now => until <? now
  | _ => false
  end.

Lemma update_where_keeps_row p f q j :
  j ∈ jq_rows q -> p j = false -> j ∈ jq_rows (update_where p f q).
Proof.
  intros Hj Hp. unfold update_where; simpl. apply list_elem_of_fmap. exists j. by rewrite Hp.
Qed.

Lemma not_owned j id w w' :
  job_lease_owner j = Some w -> (id =? job_id j) && String.eqb w w' = false ->
  owned id w' j = false.
Proof.
  intros Hw Ho. unfold owned. rewrite Hw, (Z.eqb_sym (job_id j) id).
  destruct (id =? job_id j); simpl in *; [|done].
  apply String.eqb_neq in Ho. rewrite andb_comm.
  rewrite bool_decide_eq_false_2; [done|congruence].
Qed.

Lemma fail_other_keeps_row now id w e r rnd q j :
  queue_ok q -> j ∈ jq_rows q -> owned id w j = false -> j ∈ jq_rows (fail now id w e r rnd q).2.
Proof.
  intros Hq Hj Hno. unfold fail. destruct (matching _ _) as [|x xs] eqn:E; [done|].
  assert (Hx : x ∈ matching (owned id w) q) by (rewrite E; set_solver).
  apply matching_elem in Hx as [Hx Hown].
  assert (Hne : (job_id j =? id) = false).
  { apply Z.eqb_neq. intros Hid. unfold owned in Hown. reflect_all.
    assert (x = j) as -> by (eapply same_id_same_row; eauto; congruence).
    unfold owned in Hno. rewrite Hid, Z.eqb_refl in Hno. simpl in Hno.
    rewrite !bool_decide_eq_true_2 in Hno by done. done. }
  destruct (r && _); simpl; by apply update_where_keeps_row.
Qed.

(** Lease exclusivity: while worker [w] holds an unexpired lease on a job, no operation
    of any other worker (claim, heartbeat, complete, fail), no enqueue, no cancel and no
    reap changes that row, and no claim hands the job out. *)
Theorem lease_exclusive q o j w until :
  queue_ok q -> j ∈ jq_rows q -> job_lease_owner j = Some w -> job_lease_until j = Some until ->
  by_holder_or_expiry (job_id j) w until o = false ->
  j ∈ jq_rows (apply_op o q) /\ handed o q <> Some (job_id j).
Proof.
  intros Hq Hj Hw Hu Ho.
  assert (Hst : job_state j = claimed).
  { apply (ok_owner j); [by eapply (proj1 (Forall_forall _ _) (ok_rows _ Hq))|by rewrite Hw]. }
  destruct o as [now utc typ pl key at_ n|now w' l ts lk|now id w' l|now id w'|now id w' e r rnd|now|now key];
    cbn [apply_op handed by_holder_or_expiry] in *; split; try done.
  - by apply enqueue_rows_grow.
  - unfold claim. destruct (earliest _) as [x|] eqn:E; [|done].
    apply earliest_elem, matching_elem in E as [Hx Hdue]. apply update_where_keeps_row; [done|].
    apply Z.eqb_neq. intros Hid. assert (x = j) as -> by (by eapply same_id_same_row).
    unfold due in Hdue. reflect_all. congruence.
  - unfold claim. destruct (earliest _) as [x|] eqn:E; [|done].
    apply earliest_elem, matching_elem in E as [Hx Hdue]. simpl. intros [= Hid].
    assert (x = j) as -> by (by eapply same_id_same_row). unfold due in Hdue. reflect_all. congruence.
  - apply update_where_keeps_row; [done|]. by eapply not_owned.
  - apply update_where_keeps_row; [done|]. by eapply not_owned.
  - apply fail_other_keeps_row; [done|done|]. by eapply not_owned.
  - assert (He : expired now j = false) by (unfold expired; rewrite Hu, Ho; by rewrite andb_false_r).
    unfold reap_expired; cbn [snd]. apply update_where_keeps_row; [apply update_where_keeps_row; [done|]|];
      unfold reap_requeues, reap_buries; by rewrite He.
  - apply update_where_keeps_row; [done|]. unfold cancellable_by.
    rewrite Hst. by rewrite andb_false_r.
Qed.

Lemma before_total a b : before a b = false -> before b a = true.
Proof. unfold before. intros H. reflect_all. destruct H0; reflect_all; apply orb_true_iff;
  [left; apply Z.ltb_lt; lia | ]. destruct (Z.eq_dec (job_available_at b) (job_available_at a)).
  - right. apply andb_true_iff. split; [by apply Z.eqb_eq|apply Z.leb_le; lia].
  - left. apply Z.ltb_lt. lia.
Qed.

Lemma before_trans a b c : before a b = true -> before b c = true -> before a c = true.
Proof.
  unfold before. rewrite !orb_true_iff, !andb_true_iff, !Z.ltb_lt, !Z.eqb_eq, !Z.leb_le. lia.
Qed.

Lemma earliest_before js j k : earliest js = Some j -> k ∈ js -> before j k = true.
Proof.
  revert j. induction js as [|x js IH]; simpl; [done|]. intros j.
  assert (before x x = true) by (unfold before; rewrite Z.eqb_refl, Z.leb_refl; by rewrite orb_true_r).
  destruct (earliest js) as [m|] eqn:E.
  - destruct (before x m) eqn:Eb; intros [= ->] [->|Hk]%elem_of_cons; auto.
    + eapply before_trans; [exact Eb|by apply IH].
    + by apply before_total.
  - intros [= ->] [->|Hk]%elem_of_cons; [done|].
    destruct js as [|y js]; [set_solver|]. simpl in E. destruct (earliest js); [|done].
    by destruct (before y j0).
Qed.

Lemma earliest_none js : earliest js = None -> js = [].
Proof. destruct js as [|x js]; simpl; [done|]. destruct (earliest js); [|done]. by destruct (before x j). Qed.

(** [claim] hands out the earliest due job: the claimed row was available, due, of an
    accepted type and not locked; no other such row comes before it in
    [(available_at, id)] order; it leaves with a fresh lease for this worker and one more
    attempt; and [claim] returns nothing only when no such row exists. *)
Theorem claim_earliest now w l ts lk q :
  match claim now w l ts lk q with
  | (Some j', q') => exists j, j ∈ jq_rows q /\ due now ts lk j = true /\
      j' = lease now w l j /\ j' ∈ jq_rows q' /\
      forall k, k ∈ jq_rows q -> due now ts lk k = true -> before j k = true
  | (None, q') => q' = q /\ forall k, k ∈ jq_rows q -> due now ts lk k = false
  end.
Proof.
  unfold claim. destruct (earliest _) as [j|] eqn:E.
  - pose proof E as Hj. apply earliest_elem, matching_elem in Hj as [Hj Hdue].
    exists j. split_and!; try done.
    + unfold update_where; simpl. apply list_elem_of_fmap. exists j. by rewrite Z.eqb_refl.
    + intros k Hk Hd. eapply earliest_before; [exact E|]. by apply matching_elem.
  - split; [done|]. intros k Hk. destruct (due now ts lk k) eqn:Hd; [|done].
    assert (Hin : k ∈ matching (due now ts lk) q) by by apply matching_elem.
    rewrite (earliest_none _ E) in Hin. set_solver.
Qed.

Lemma backoff_ceiling_bounds n : 2 <= backoff_ceiling n <= 300.
Proof.
  unfold backoff_ceiling, BACKOFF_MAX_SECONDS, BACKOFF_BASE_SECONDS.
  assert (1 <= 2 ^ Z.max 0 (n - 1)) by (apply Z.lt_pred_le, Z.pow_pos_nonneg; lia). lia.
Qed.

(** The retry delay grows with the attempt number and is bounded: it lies in the upper
    half of [min(300, 2 * 2^(attempts-1))] seconds, so never under one second nor
    over five minutes, and the ceiling never shrinks as attempts grow. *)
Theorem backoff_bounds (n : Z) (rnd : Q) :
  (0 <= rnd < 1)%Q ->
  (inject_Z (backoff_ceiling n) / 2 <= backoff_seconds n rnd < inject_Z (backoff_ceiling n))%Q /\
  (1 <= backoff_seconds n rnd < 300)%Q /\
  (forall m, n <= m -> backoff_ceiling n <= backoff_ceiling m)%Z.
Proof.
  intros [H0 H1]. pose proof (backoff_ceiling_bounds n) as [Hlo Hhi].
  rewrite Zle_Qle in Hlo, Hhi. unfold backoff_seconds.
  set (c := inject_Z (backoff_ceiling n)) in *.
  change (inject_Z 2) with 2%Q in Hlo. change (inject_Z 300) with 300%Q in Hhi.
  unfold Qdiv. change (/ 2)%Q with (1 # 2)%Q.
  assert (0 <= rnd * c)%Q by nra. assert (rnd * c < c)%Q by nra.
  split_and!; [lra..|].
  intros m Hm. unfold backoff_ceiling. apply Z.min_le_compat_l, Z.mul_le_mono_nonneg_l; [done|].
  apply Z.pow_le_mono_r; lia.
Qed.
