(* ===== verification/RunModel.v ===== *)
(** * Run rows and the run session ([db/models.py], session plumbing of [runs/service.py])

    A run is the row of [agent_runs] together with the rows of the tables that
    reference it ([run_attempts], [run_events], [input_requests],
    [idempotency_actions]).  A service function runs in a transaction that has
    locked the run row ([lock_run]): its session is those rows, the [jobs] table,
    the transaction timestamp, and the two sources of outside values, the wall
    clock and fresh ids.  Elapsed times are microsecond counts. *)

From S2P Require Import Prelude Json States Jobs.
#[local] Open Scope Z_scope.

(** ** Rows *)

Record AgentRun := mkRun {
  run_id : uuid;
  run_installation_id : uuid;
  run_agent_version_id : uuid;
  run_trigger : string;
  run_schedule_id : option uuid;
  run_parent_run_id : option uuid;
  run_start_key : option string;
  run_trigger_input : option Json;
  run_scheduled_for : option instant;
  run_state : RunState;
  run_state_entered_at : instant;
  run_current_attempt : Z;
  run_config_snapshot : Json;
  run_permissions_snapshot : Json;
  run_model_bindings : Json;
  run_active_timeout_seconds : Z;
  run_max_input_wait_seconds : Z;
  run_active_used : Z;
  run_input_wait_used : Z;
  run_result : option Json;
  run_error : option Json;
  run_retryable : bool;
  run_cancel_requested_at : option instant;
  run_acknowledged_at : option instant;
  run_created_by : option uuid;
  run_started_at : option instant;
  run_finished_at : option instant
}.

#[export] Instance eta_AgentRun : Eta AgentRun := fun r =>
  mkRun (run_id r) (run_installation_id r) (run_agent_version_id r) (run_trigger r)
    (run_schedule_id r) (run_parent_run_id r) (run_start_key r) (run_trigger_input r)
    (run_scheduled_for r) (run_state r) (run_state_entered_at r) (run_current_attempt r)
    (run_config_snapshot r) (run_permissions_snapshot r) (run_model_bindings r)
    (run_active_timeout_seconds r) (run_max_input_wait_seconds r) (run_active_used r)
    (run_input_wait_used r) (run_result r) (run_error r) (run_retryable r)
    (run_cancel_requested_at r) (run_acknowledged_at r) (run_created_by r)
    (run_started_at r) (run_finished_at r).

Inductive AttemptState := att_starting | att_running | att_exited | att_interrupted | att_cancelled.

Record RunAttempt := mkAttempt {
  att_attempt : Z;
  att_state : AttemptState;
  att_runtime_ref : option string;
  att_capability_token_id : option string;
  att_heartbeat_expires_at : option instant;
  att_exit_code : option Z;
  att_error : option Json;
  att_started_at : instant;
  att_ended_at : option instant
}.

#[export] Instance eta_RunAttempt : Eta RunAttempt := fun r =>
  mkAttempt (att_attempt r) (att_state r) (att_runtime_ref r) (att_capability_token_id r)
    (att_heartbeat_expires_at r) (att_exit_code r) (att_error r) (att_started_at r)
    (att_ended_at r).

Record RunEvent := mkEvent {
  ev_sequence : Z;
  ev_attempt : Z;
  ev_type : string;
  ev_payload : Json;
  ev_created_at : instant;
  ev_client_event_id : option string;
  ev_occurred_at : option instant
}.

Inductive InputState := inp_pending | inp_answered | inp_cancelled | inp_expired.

#[export] Instance InputState_eq_dec : EqDecision InputState.
Proof. solve_decision. Defined.

Definition input_state_str (s : InputState) : string :=
  match s with
  | inp_pending => "pending" | inp_answered => "answered"
  | inp_cancelled => "cancelled" | inp_expired => "expired"
  end.

Record InputRequest := mkInput {
  inp_id : uuid;
  inp_key : string;
  inp_attempt : Z;
  inp_title : string;
  inp_prompt : string;
  inp_schema : Json;
  inp_preview : option Json;
  inp_state : InputState;
  inp_answer : option Json;
  inp_answered_by : option uuid;
  inp_answered_at : option instant;
  inp_deadline : instant;
  inp_version : Z
}.

#[export] Instance eta_InputRequest : Eta InputRequest := fun r =>
  mkInput (inp_id r) (inp_key r) (inp_attempt r) (inp_title r) (inp_prompt r) (inp_schema r)
    (inp_preview r) (inp_state r) (inp_answer r) (inp_answered_by r) (inp_answered_at r)
    (inp_deadline r) (inp_version r).

Inductive ActionState := act_claimed | act_in_doubt | act_completed.

#[export] Instance ActionState_eq_dec : EqDecision ActionState.
Proof. solve_decision. Defined.

Record IdempotencyAction := mkAction {
  act_state : ActionState;
  act_attempt : Z;
  act_result : option Json;
  act_claim_token : option string;
  act_completed_at : option instant
}.

#[export] Instance eta_IdempotencyAction : Eta IdempotencyAction := fun r =>
  mkAction (act_state r) (act_attempt r) (act_result r) (act_claim_token r) (act_completed_at r).

(** A run with everything that references it. *)
Record RunRows := mkRows {
  rr_run : AgentRun;
  rr_attempts : gmap Z RunAttempt;
  rr_events : list RunEvent;
  rr_inputs : list InputRequest;
  rr_actions : gmap string IdempotencyAction
}.

#[export] Instance eta_RunRows : Eta RunRows := fun r =>
  mkRows (rr_run r) (rr_attempts r) (rr_events r) (rr_inputs r) (rr_actions r).

(** ** The session *)

(** [datetime.now(UTC)]: the value of the [n]-th reading of the clock. *)
Class Clock := wall : nat -> instant.

Record Session := mkSession {
  se_rows : RunRows;
  se_jobs : JobQueue;
  se_tick : nat;          (* clock readings so far *)
  se_fresh : uuid;        (* next id that [uuid7()] returns *)
  se_now : instant        (* PostgreSQL [now()]: the start of the transaction *)
}.

#[export] Instance eta_Session : Eta Session := fun r =>
  mkSession (se_rows r) (se_jobs r) (se_tick r) (se_fresh r) (se_now r).

Abbreviation RM := (Tx PlatformError Session).

Section plumbing.
Context {clk : Clock}.

Definition utcnow : RM instant :=
  fun s => Ok (wall (se_tick s), s <| se_tick ::= Datatypes.S |>).

Definition uuid7 : RM uuid :=
  fun s => Ok (se_fresh s, s <| se_fresh ::= N.succ |>).

Definition the_run : RM AgentRun := gets (fun s => rr_run (se_rows s)).
Definition set_run (f : AgentRun -> AgentRun) : RM unit :=
  modify (fun s => s <| se_rows ::= fun rr => rr <| rr_run ::= f |> |>).

Definition the_inputs : RM (list InputRequest) := gets (fun s => rr_inputs (se_rows s)).
Definition set_inputs (f : list InputRequest -> list InputRequest) : RM unit :=
  modify (fun s => s <| se_rows ::= fun rr => rr <| rr_inputs ::= f |> |>).

Definition the_events : RM (list RunEvent) := gets (fun s => rr_events (se_rows s)).
Definition add_events (es : list RunEvent) : RM unit :=
  modify (fun s => s <| se_rows ::= fun rr => rr <| rr_events ::= fun l => l ++ es |> |>).

Definition get_attempt (n : Z) : RM (option RunAttempt) :=
  gets (fun s => rr_attempts (se_rows s) !! n).
Definition put_attempt (n : Z) (a : RunAttempt) : RM unit :=
  modify (fun s => s <| se_rows ::= fun rr => rr <| rr_attempts ::= <[n := a]> |> |>).

Definition get_action (k : string) : RM (option IdempotencyAction) :=
  gets (fun s => rr_actions (se_rows s) !! k).
Definition put_action (k : string) (a : IdempotencyAction) : RM unit :=
  modify (fun s => s <| se_rows ::= fun rr => rr <| rr_actions ::= <[k := a]> |> |>).

(** [raise] of a check that is a pure function. *)
Definition check (r : Result PlatformError unit) : RM unit :=
  match r with Ok _ => ret tt | Err e => raise e end.

(** [jobs.enqueue(session, ...)] with the default five attempts, available at once. *)
Definition enqueue_job (typ : string) (payload : JobPayload) (key : DedupeKey) : RM unit :=
  let! utc := utcnow in
  modify (fun s => s <| se_jobs ::= fun q =>
    (Jobs.enqueue (se_now s) utc typ payload (Some key) None 5 q).2 |>).

Definition cancel_job (key : DedupeKey) : RM unit :=
  modify (fun s => s <| se_jobs ::= fun q => (Jobs.cancel_by_dedupe (se_now s) key q).2 |>).
End plumbing.
