(* ===== verification/RunService.v ===== *)
(** * Run lifecycle operations ([runs/service.py])

    Each function of the module that takes a locked run (or locks one and works on it)
    is a computation in the run session [RM].  Functions that the module calls with a
    [run_id] are run by [Platform.with_run], which is the [lock_run] lookup. *)

From S2P Require Import Prelude TimeUtil Json Redaction SchemaGuard States Jobs RunModel.
#[local] Open Scope Z_scope.

Definition JOB_DISPATCH : string := "run.dispatch".
Definition JOB_CANCEL : string := "run.cancel".
Definition JOB_STOP : string := "run.stop".

Definition MAX_RESULT_BYTES : Z := 1048576.
Definition MAX_EVENT_BYTES : Z := 16 * 1024.
Definition MAX_PREVIEW_BYTES : Z := 64 * 1024.
Definition MAX_ANSWER_BYTES : Z := 64 * 1024.
Definition AGENT_EVENT_TYPES : list string :=
  ["run.log"; "run.progress"; "run.metric"; "run.artifact"]%string.

Definition dispatch_key (run : uuid) (attempt : Z) : DedupeKey := KRunAttempt run attempt.

(** ** Clocks of a run *)

Definition elapsed (r : AgentRun) (now : instant) : Z := Z.max 0 (now - run_state_entered_at r).

Definition account (now : instant) (r : AgentRun) : AgentRun :=
  if mem (run_state r) ACTIVE_CLOCK_STATES then r <| run_active_used ::= Z.add (elapsed r now) |>
  else if mem (run_state r) WAIT_CLOCK_STATES then
    r <| run_input_wait_used ::= Z.add (elapsed r now) |>
  else r.

Definition active_seconds (r : AgentRun) (now : instant) : Z :=
  run_active_used r + (if mem (run_state r) ACTIVE_CLOCK_STATES then elapsed r now else 0).

Definition wait_seconds (r : AgentRun) (now : instant) : Z :=
  run_input_wait_used r + (if mem (run_state r) WAIT_CLOCK_STATES then elapsed r now else 0).

(** The column updates of [transition], after [_account]. *)
Definition enter (target : RunState) (now : instant) (error : option Json)
    (retryable : option bool) (r : AgentRun) : AgentRun :=
  let r := r <| run_state := target |> <| run_state_entered_at := now |> in
  let r := if bool_decide (target = RUNNING) && negb (bool_decide (is_Some (run_started_at r)))
           then r <| run_started_at := Some now |> else r in
  let r := if mem target TERMINAL_STATES then r <| run_finished_at := Some now |>
           else if bool_decide (target = QUEUED) then r <| run_finished_at := None |> else r in
  let r := match error with Some e => r <| run_error := Some e |> | None => r end in
  match retryable with Some b => r <| run_retryable := b |> | None => r end.

Definition last_sequence (events : list RunEvent) : Z :=
  foldr (fun e m => Z.max (ev_sequence e) m) 0 events.

(** The payload of a [run.state_changed] event. *)
Definition change_payload (current : option RunState) (target : RunState)
    (reason : option string) (error : option Json) : Json :=
  JObj ([("from", match current with Some c => JStr (state_str c) | None => JNull end);
         ("to", JStr (state_str target))]%string
        ++ match reason with
           | Some r => if String.eqb r "" then [] else [("reason", JStr r)]%string
           | None => []
           end
        ++ match error with
           | Some e => if truthy e then [("errorCode", default JNull (jget "code" e))]%string else []
           | None => []
           end).

Section service.
Context {clk : Clock} {JS : JsonSchema}.

Definition require_attempt (attempt : Z) : RM unit :=
  let! run := the_run in
  guard (attempt =? run_current_attempt run)
    (conflict "STALE_ATTEMPT"
       [("attempt", JNum attempt); ("currentAttempt", JNum (run_current_attempt run))]%string).

(** ** Events *)

Definition append_event (typ : string) (payload : Json) : RM RunEvent :=
  let! events := the_events in
  let! run := the_run in
  let! now := utcnow in
  let event := mkEvent (last_sequence events + 1) (run_current_attempt run) typ payload now
                 None None in
  add_events [event] ;;
  ret event.

(** ** State transitions *)

Definition transition (target : RunState) (reason : option string) (error : option Json)
    (retryable : option bool) : RM RunEvent :=
  let! run := the_run in
  let current := run_state run in
  guard (can_transition current target)
    (conflict "INVALID_RUN_STATE"
       [("state", JStr (state_str current)); ("target", JStr (state_str target))]%string) ;;
  let! now := utcnow in
  set_run (fun r => enter target now error retryable (account now r)) ;;
  append_event "run.state_changed" (change_payload (Some current) target reason error).

(** [transition(session, run, target, reason=reason)] for its effect. *)
Definition move (target : RunState) (reason : option string) : RM unit :=
  transition target reason None None ;; ret tt.

(** ** Input requests: closing *)

Definition is_pending (r : InputRequest) : bool := bool_decide (inp_state r = inp_pending).

Definition input_payload (r : InputRequest) (st : InputState) : Json :=
  JObj [("inputRequestId", JStr (uuid_str (inp_id r))); ("key", JStr (inp_key r));
        ("state", JStr (input_state_str st))]%string.

(** The loop of [close_pending_inputs] and [expire_inputs]: every selected request gets
    the state and a new version, and an event each; returns how many there were.  The
    row changes commute with the appended events and are made together here. *)
Definition close_where (p : InputRequest -> bool) (st : InputState) : RM Z :=
  let! inputs := the_inputs in
  let selected := List.filter p inputs in
  set_inputs (map (fun r => if p r then r <| inp_state := st |> <| inp_version ::= Z.succ |>
                            else r)) ;;
  for_each selected (fun r =>
    append_event "run.input_closed" (input_payload r st) ;; ret tt) ;;
  ret (Z.of_nat (length selected)).

Definition close_pending_inputs (st : InputState) : RM unit :=
  close_where is_pending st ;; ret tt.

Definition resume_if_no_pending : RM unit :=
  let! run := the_run in
  if bool_decide (run_state run = WAITING_INPUT) then
    let! inputs := the_inputs in
    if existsb is_pending inputs then ret tt else move RUNNING (Some "input_closed"%string)
  else ret tt.

(** ** Cancel and retry *)

Definition request_cancel (reason : string) : RM unit :=
  let! run := the_run in
  if negb (mem (run_state run) CANCELLABLE_STATES) then
    if mem (run_state run) [CANCELLING; CANCELLED] then ret tt
    else raise (conflict "RUN_NOT_CANCELLABLE" [])
  else
    let! now := utcnow in
    set_run (fun r => r <| run_cancel_requested_at := Some now |>) ;;
    (if bool_decide (run_state run = QUEUED) then
       cancel_job (dispatch_key (run_id run) (run_current_attempt run)) ;;
       move CANCELLED (Some reason)
     else
       move CANCELLING (Some reason) ;;
       enqueue_job JOB_CANCEL (run_payload (run_id run) (run_current_attempt run))
         (KRunCancel (run_id run) (run_current_attempt run))) ;;
    close_pending_inputs inp_cancelled.

Definition reset_for_retry (r : AgentRun) : AgentRun :=
  r <| run_current_attempt ::= Z.succ |> <| run_result := None |> <| run_error := None |>
    <| run_retryable := false |> <| run_cancel_requested_at := None |>
    <| run_acknowledged_at := None |> <| run_active_used := 0 |> <| run_input_wait_used := 0 |>.

Definition retry : RM unit :=
  let! run := the_run in
  if bool_decide (run_state run = FAILED) && negb (run_retryable run) then
    raise (conflict "RUN_NOT_RETRYABLE" [])
  else if negb (mem (run_state run) [FAILED; INTERRUPTED]) then
    raise (conflict "RUN_NOT_RETRYABLE" [])
  else
    set_run reset_for_retry ;;
    move QUEUED (Some "owner_retry"%string) ;;
    let! run := the_run in
    enqueue_job JOB_DISPATCH (run_payload (run_id run) (run_current_attempt run))
      (dispatch_key (run_id run) (run_current_attempt run)).

(** ** Attempt lifecycle *)

Definition begin_attempt (heartbeat_seconds : Z) : RM RunAttempt :=
  let! run := the_run in
  let! attempt := get_attempt (run_current_attempt run) in
  when (bool_decide (run_state run = QUEUED)) (move PREPARING None) ;;
  match attempt with
  | Some a => ret a
  | None =>
      let! now := utcnow in
      let! s := get in
      let a := mkAttempt (run_current_attempt run) att_starting None None
                 (Some (now + seconds heartbeat_seconds)) None None (se_now s) None in
      put_attempt (run_current_attempt run) a ;;
      ret a
  end.

Definition ATTEMPT_NOT_STARTED : PlatformError := conflict "ATTEMPT_NOT_STARTED" [].

Definition handshake (attempt_no heartbeat_seconds : Z) : RM unit :=
  require_attempt attempt_no ;;
  let! attempt := get_attempt attempt_no in
  match attempt with
  | None => raise ATTEMPT_NOT_STARTED
  | Some a =>
      let! run := the_run in
      (if bool_decide (run_state run = PREPARING) then move RUNNING None
       else if negb (mem (run_state run) [RUNNING; CANCELLING]) then
         raise (conflict "INVALID_RUN_STATE" [])
       else ret tt) ;;
      let! now := utcnow in
      put_attempt attempt_no
        (a <| att_state := att_running |>
           <| att_heartbeat_expires_at := Some (now + seconds heartbeat_seconds) |>)
  end.

(** Returns the run state and whether the agent must stop. *)
Definition heartbeat (attempt_no heartbeat_seconds : Z) : RM (RunState * bool) :=
  require_attempt attempt_no ;;
  let! attempt := get_attempt attempt_no in
  match attempt with
  | None => raise ATTEMPT_NOT_STARTED
  | Some a =>
      let! run := the_run in
      if mem (run_state run) TERMINAL_STATES then ret (run_state run, true)
      else
        let! now := utcnow in
        put_attempt attempt_no
          (a <| att_heartbeat_expires_at := Some (now + seconds heartbeat_seconds) |>) ;;
        ret (run_state run, bool_decide (is_Some (run_cancel_requested_at run)))
  end.

Definition set_model_loading (attempt_no : Z) (loading : bool) (model : option string) : RM unit :=
  require_attempt attempt_no ;;
  let! run := the_run in
  let reason := match model with
                | Some m => if String.eqb m "" then None else Some ("model:" +:+ m)%string
                | None => None
                end in
  if loading && bool_decide (run_state run = RUNNING) then move LOADING_MODEL reason
  else if negb loading && bool_decide (run_state run = LOADING_MODEL) then move RUNNING reason
  else ret tt.

(** ** Agent events *)

Definition RUN_FINISHED : PlatformError := conflict "RUN_FINISHED" [].

Definition record_agent_event (attempt_no : Z) (typ : string) (payload : Json) : RM RunEvent :=
  guard (bool_decide (typ ∈ AGENT_EVENT_TYPES)) (invalid "INVALID_EVENT_TYPE" []) ;;
  check (check_size payload MAX_EVENT_BYTES "EVENT_TOO_LARGE") ;;
  require_attempt attempt_no ;;
  let! run := the_run in
  guard (negb (mem (run_state run) TERMINAL_STATES)) RUN_FINISHED ;;
  append_event typ (redact payload).

Record AgentEventInput := mkEventInput {
  ei_client_event_id : string;
  ei_type : string;
  ei_payload : Json;
  ei_occurred_at : option instant
}.

Record EventBatchResult := mkBatchResult {
  br_accepted : Z;
  br_duplicates : Z;
  br_last_sequence : Z
}.

Definition event_envelope (r : AgentRun) (e : AgentEventInput) (at_ : instant) : Json :=
  JObj [("runId", JStr (uuid_str (run_id r))); ("sequence", JNum 1);
        ("attempt", JNum (run_current_attempt r)); ("type", JStr (ei_type e));
        ("payload", ei_payload e); ("createdAt", JStr (isoformat at_))]%string.

(** The error code of a rejected event with its messages; [None] accepts it. *)
Definition event_rejection (e : AgentEventInput) (validator : option (Json -> list string))
    : RM (option (string * list string)) :=
  if negb (bool_decide (ei_type e ∈ AGENT_EVENT_TYPES)) then
    ret (Some ("INVALID_EVENT_TYPE", ["Agents cannot emit " +:+ ei_type e +:+ "."]))%string
  else if MAX_EVENT_BYTES <? json_size (ei_payload e) then
    ret (Some ("EVENT_TOO_LARGE", ["The event payload is larger than 16 KiB."]))%string
  else
    match validator with
    | None => ret None
    | Some v =>
        let! run := the_run in
        let! at_ := match ei_occurred_at e with Some t => ret t | None => utcnow end in
        match take 5 (v (event_envelope run e at_)) with
        | [] => ret None
        | errors => ret (Some ("INVALID_EVENT"%string, errors))
        end
    end.

Record Rejection := mkRejection {
  rj_index : Z;
  rj_client_event_id : string;
  rj_code : string;
  rj_errors : list string
}.

Fixpoint rejections (i : Z) (events : list AgentEventInput)
    (validator : option (Json -> list string)) : RM (list Rejection) :=
  match events with
  | [] => ret []
  | e :: es =>
      let! r := event_rejection e validator in
      let! rs := rejections (i + 1) es validator in
      ret (match r with
           | Some (c, errs) => mkRejection i (ei_client_event_id e) c errs :: rs
           | None => rs
           end)
  end.

Definition rejection_json (r : Rejection) : Json :=
  JObj [("index", JNum (rj_index r)); ("clientEventId", JStr (rj_client_event_id r));
        ("code", JStr (rj_code r)); ("errors", JList (map JStr (rj_errors r)))]%string.

(** The batch is rejected with the common code, or [INVALID_EVENT] when codes differ. *)
Definition batch_error (rejected : list Rejection) : PlatformError :=
  let code_ := match remove_dups (map rj_code rejected) with
               | [c] => c
               | _ => "INVALID_EVENT"%string
               end in
  invalid code_ [("rejected", JList (map rejection_json rejected))]%string.

(** The insertion loop: [stored] are the client ids already known. *)
Fixpoint new_events (run : AgentRun) (now : instant) (stored : list string) (sequence : Z)
    (events : list AgentEventInput) : list RunEvent :=
  match events with
  | [] => []
  | e :: es =>
      if bool_decide (ei_client_event_id e ∈ stored) then new_events run now stored sequence es
      else
        mkEvent (sequence + 1) (run_current_attempt run) (ei_type e) (redact (ei_payload e)) now
          (Some (ei_client_event_id e)) (ei_occurred_at e)
        :: new_events run now (ei_client_event_id e :: stored) (sequence + 1) es
  end.

Definition stored_client_ids (events : list RunEvent) : list string := omap ev_client_event_id events.

Definition record_agent_event_batch (attempt_no : Z) (events : list AgentEventInput)
    (validator : option (Json -> list string)) : RM EventBatchResult :=
  require_attempt attempt_no ;;
  let! run := the_run in
  guard (negb (mem (run_state run) TERMINAL_STATES)) RUN_FINISHED ;;
  let! rejected := rejections 0 events validator in
  match rejected with
  | _ :: _ => raise (batch_error rejected)
  | [] =>
      let! old := the_events in
      let! now := utcnow in
      let added := new_events run now (stored_client_ids old) (last_sequence old) events in
      add_events added ;;
      ret (mkBatchResult (Z.of_nat (length added))
             (Z.of_nat (length events) - Z.of_nat (length added))
             (last_sequence old + Z.of_nat (length added)))
  end.

(** ** Ending an attempt *)

(** [len(json.dumps(result or {})) > MAX_RESULT_BYTES] *)
Definition result_too_large (result : option Json) : bool :=
  MAX_RESULT_BYTES <? json_dumps_length (match result with
                                         | Some r => if truthy r then r else JObj []
                                         | None => JObj []
                                         end).

Definition AGENT_FAILED : Json :=
  JObj [("code", JStr "AGENT_FAILED"); ("message", JStr "The agent reported a failure.")]%string.

(** [error or {...default}], redacted. *)
Definition agent_error (error : option Json) : Json :=
  redact (match error with
          | Some e => if truthy e then e else AGENT_FAILED
          | None => AGENT_FAILED
          end).

Definition finish (attempt_no : Z) (status : string) (result error : option Json) : RM unit :=
  require_attempt attempt_no ;;
  guard (negb (result_too_large result)) (invalid "RESULT_TOO_LARGE" []) ;;
  let! attempt := get_attempt attempt_no in
  match attempt with
  | Some a =>
      let! now := utcnow in
      put_attempt attempt_no (a <| att_state := att_exited |> <| att_ended_at := Some now |>)
  | None => ret tt
  end ;;
  let! run := the_run in
  if mem (run_state run) TERMINAL_STATES then ret tt
  else
    set_run (fun r => r <| run_result := result |>) ;;
    if bool_decide (run_state run = CANCELLING) then
      move CANCELLED (Some "finished_during_cancel"%string)
    else
      when (mem (run_state run) [LOADING_MODEL; WAITING_INPUT])
        (move RUNNING (Some "finishing"%string)) ;;
      (if String.eqb status "succeeded" then
         append_event "run.result" (JObj [("status", JStr "succeeded")]%string) ;;
         move SUCCEEDED None
       else
         let err := agent_error error in
         append_event "run.result" (JObj [("status", JStr "failed")]%string) ;;
         transition FAILED None (Some err)
           (Some (truthy (default (JBool true) (jget "retryable" err)))) ;;
         ret tt) ;;
      close_pending_inputs inp_cancelled.

(** The error dict of a platform-side failure. *)
Definition failure (code_ message : string) (retryable : bool) (details : option Json) : Json :=
  JObj ([("code", JStr code_); ("message", JStr message); ("retryable", JBool retryable)]%string
        ++ match details with
           | Some d => if truthy d then [("details", d)]%string else []
           | None => []
           end).

Definition fail_run (code_ message : string) (retryable interrupted : bool)
    (details : option Json) : RM unit :=
  let target := if interrupted then INTERRUPTED else FAILED in
  let! run := the_run in
  if mem (run_state run) TERMINAL_STATES || negb (can_transition (run_state run) target) then ret tt
  else
    let error := failure code_ message retryable details in
    append_event "run.error" error ;;
    transition target None (Some error) (Some retryable) ;;
    let! run := the_run in
    let! attempt := get_attempt (run_current_attempt run) in
    match attempt with
    | Some a =>
        match att_ended_at a with
        | Some _ => ret tt
        | None =>
            let! now := utcnow in
            put_attempt (run_current_attempt run)
              (a <| att_state := if interrupted then att_interrupted else att_exited |>
                 <| att_ended_at := Some now |> <| att_error := Some error |>) ;;
            when (match att_runtime_ref a with
                  | Some ref => negb (String.eqb ref "")
                  | None => false
                  end)
              (enqueue_job JOB_STOP (run_payload (run_id run) (run_current_attempt run))
                 (KRunStop (run_id run) (run_current_attempt run)))
        end
    | None => ret tt
    end ;;
    close_pending_inputs inp_cancelled.

(** ** Container exits *)

Definition EXIT_FAILS_STATES : list RunState := [PREPARING; LOADING_MODEL; RUNNING; WAITING_INPUT].
Definition AGENT_OUT_OF_MEMORY : string := "AGENT_OUT_OF_MEMORY".
Definition AGENT_EXITED : string := "AGENT_EXITED".
Definition AGENT_EXITED_WITHOUT_RESULT : string := "AGENT_EXITED_WITHOUT_RESULT".
Definition SIGKILL_EXIT_CODE : Z := 137.

(** [manifest] is the manifest of the run's agent version, if the version row exists. *)
Definition memory_limit_mb (manifest : option Json) (memory_limit_bytes : option Z) : option Z :=
  if bool_decide (is_Some memory_limit_bytes) && negb (bool_decide (memory_limit_bytes = Some 0))
  then (fun n => n / (1024 * 1024)) <$> memory_limit_bytes
  else
    let spec := default (JObj []) (jget "spec" (default (JObj []) manifest)) in
    let resources := default (JObj []) (jget "resources" spec) in
    match jget "memoryMb" resources with
    | Some (JNum z) => Some z
    | Some (JBool b) => Some (if b then 1 else 0)
    | _ => None
    end.

Definition show_code (c : option Z) : string :=
  match c with Some z => pretty z | None => "None" end.

(** Error code, message and details of an exit without a result. *)
Definition exit_verdict (state : RunState) (exit_code : option Z) (oom_killed : bool)
    (memory_mb : option Z) : string * string * Json :=
  let base := [("exitCode", match exit_code with Some c => JNum c | None => JNull end);
               ("oomKilled", JBool oom_killed)]%string in
  if oom_killed || bool_decide (exit_code = Some SIGKILL_EXIT_CODE) then
    let limit := match memory_mb with
                 | Some mb => if (mb =? 0)%Z then "its memory limit"
                              else "its " +:+ pretty mb +:+ " MiB memory limit"
                 | None => "its memory limit"
                 end%string in
    let details := JObj (base ++ [("memoryLimitMb",
                     match memory_mb with Some mb => JNum mb | None => JNull end)]%string) in
    (AGENT_OUT_OF_MEMORY,
     (if oom_killed then
        "The agent ran out of memory and was killed: it reached " +:+ limit +:+ " (exit code "
        +:+ show_code exit_code +:+ ")."
      else
        "The agent was killed (SIGKILL, exit code " +:+ show_code exit_code
        +:+ ") without reporting a result, most likely for reaching " +:+ limit
        +:+ ". The runtime did not confirm the out-of-memory kill.")%string,
     details)
  else if bool_decide (exit_code = Some 0) then
    (AGENT_EXITED_WITHOUT_RESULT,
     "The agent exited (exit code 0) without reporting a result."%string, JObj base)
  else
    (AGENT_EXITED,
     ("The agent exited with code " +:+ show_code exit_code
      +:+ (if bool_decide (state = PREPARING) then " before its handshake" else "")
      +:+ " without reporting a result.")%string,
     JObj base).

Definition record_container_exit (attempt_no : Z) (runtime_ref : string) (exit_code : option Z)
    (oom_killed : bool) (memory_limit_bytes : option Z) (manifest : option Json)
    : RM (option string) :=
  let! run := the_run in
  let! attempt := get_attempt attempt_no in
  match attempt with
  | None => ret None
  | Some a =>
      if negb (bool_decide (att_runtime_ref a = Some runtime_ref)) then ret None
      else
        when (negb (bool_decide (is_Some (att_exit_code a))) && bool_decide (is_Some exit_code))
          (put_attempt attempt_no (a <| att_exit_code := exit_code |>)) ;;
        if negb (run_current_attempt run =? attempt_no)
           || negb (mem (run_state run) EXIT_FAILS_STATES) then ret None
        else
          let '(code_, message, details) :=
            exit_verdict (run_state run) exit_code oom_killed
              (memory_limit_mb manifest memory_limit_bytes) in
          fail_run code_ message true false (Some details) ;;
          ret (Some code_)
  end.

(** ** Human input *)

Definition find_input (key : string) (inputs : list InputRequest) : option InputRequest :=
  List.find (fun r => String.eqb (inp_key r) key) inputs.

Definition set_input (key : string) (f : InputRequest -> InputRequest) : RM unit :=
  set_inputs (map (fun r => if String.eqb (inp_key r) key then f r else r)).

Definition requested_payload (id : uuid) (key title : string) : Json :=
  JObj [("inputRequestId", JStr (uuid_str id)); ("key", JStr key); ("title", JStr title);
        ("state", JStr "pending")]%string.

Definition input_reason (key : string) : option string := Some ("input:" +:+ key)%string.

(** [if run.state == RUNNING: transition(WAITING_INPUT)] *)
Definition wait_for_input (key : string) : RM unit :=
  let! run := the_run in
  when (bool_decide (run_state run = RUNNING)) (move WAITING_INPUT (input_reason key)).

(** A request that an earlier attempt left closed without an answer is reopened. *)
Definition reopens (attempt_no : Z) (r : InputRequest) : bool :=
  bool_decide (inp_state r ∈ [inp_cancelled; inp_expired]) && (inp_attempt r <? attempt_no).

(** The part of [ask] after the lookup: the checks, then a new or a reopened request. *)
Definition ask_open (run : AgentRun) (attempt_no : Z) (key title prompt : string)
    (schema : Json) (timeout_seconds : Z) (preview : option Json)
    (existing : option InputRequest) : RM uuid :=
  check (check_schema schema "INVALID_INPUT_SCHEMA" false) ;;
  match preview with
  | Some p => check (check_size p MAX_PREVIEW_BYTES "PREVIEW_TOO_LARGE")
  | None => ret tt
  end ;;
  let! now := utcnow in
  let remaining := seconds (run_max_input_wait_seconds run) - wait_seconds run now in
  guard (negb ((timeout_seconds <=? 0) || (remaining <? seconds timeout_seconds)))
    (invalid "INPUT_WAIT_BUDGET_EXCEEDED"
       [("remainingSeconds", JNum (Z.max 0 remaining / 1000000))]%string) ;;
  let shown := match preview with
               | Some p => if truthy p then Some (redact p) else None
               | None => None
               end in
  let deadline := now + seconds timeout_seconds in
  match existing with
  | Some r =>
      set_input key (fun r =>
        r <| inp_state := inp_pending |> <| inp_attempt := attempt_no |> <| inp_title := title |>
          <| inp_prompt := prompt |> <| inp_schema := schema |> <| inp_preview := shown |>
          <| inp_deadline := deadline |> <| inp_version ::= Z.succ |>) ;;
      append_event "run.input_requested" (requested_payload (inp_id r) key title) ;;
      wait_for_input key ;;
      ret (inp_id r)
  | None =>
      let! id := uuid7 in
      set_inputs (fun l => l ++ [mkInput id key attempt_no title prompt schema shown inp_pending
                                   None None None deadline 1]) ;;
      append_event "run.input_requested" (requested_payload id key title) ;;
      wait_for_input key ;;
      ret id
  end.

(** Returns the id of the request the caller now polls. *)
Definition ask (attempt_no : Z) (key title prompt : string) (schema : Json)
    (timeout_seconds : Z) (preview : option Json) : RM uuid :=
  require_attempt attempt_no ;;
  let! run := the_run in
  guard (otruthy (jget "userInput" (run_permissions_snapshot run)))
    (mkError "PERMISSION_DENIED" 403 []) ;;
  guard (mem (run_state run) [RUNNING; WAITING_INPUT]) (conflict "INVALID_RUN_STATE" []) ;;
  let! inputs := the_inputs in
  let existing := find_input key inputs in
  match existing with
  | Some r =>
      if negb (reopens attempt_no r) then
        when (is_pending r && bool_decide (run_state run = RUNNING))
          (move WAITING_INPUT (input_reason key)) ;;
        ret (inp_id r)
      else
        ask_open run attempt_no key title prompt schema timeout_seconds preview existing
  | None => ask_open run attempt_no key title prompt schema timeout_seconds preview existing
  end.

(** [request_id] is the id of one of the run's requests (the caller found the run by it). *)
Definition answer (request_id : uuid) (version : Z) (value : Json) (user : uuid) : RM unit :=
  let! inputs := the_inputs in
  match List.find (fun r => (inp_id r =? request_id)%N) inputs with
  | None => raise (not_found (uuid_str request_id))
  | Some r =>
      guard (is_pending r) (conflict "INPUT_ALREADY_CLOSED" []) ;;
      guard (inp_version r =? version)
        (conflict "VERSION_CONFLICT" [("currentVersion", JNum (inp_version r))]%string) ;;
      let! now := utcnow in
      guard (negb (inp_deadline r <=? now)) (conflict "INPUT_EXPIRED" []) ;;
      check (check_size value MAX_ANSWER_BYTES "ANSWER_TOO_LARGE") ;;
      match take 10 (iter_errors (inp_schema r) value) with
      | (_ :: _) as errors =>
          raise (invalid "INVALID_ANSWER"
            [("errors"%string, JList (map (fun e => JStr (error_message e)) errors))])
      | [] =>
          let! now := utcnow in
          set_inputs (map (fun x => if (inp_id x =? request_id)%N then
            x <| inp_state := inp_answered |> <| inp_answer := Some value |>
              <| inp_answered_by := Some user |> <| inp_answered_at := Some now |>
              <| inp_version ::= Z.succ |> else x)) ;;
          append_event "run.input_answered" (input_payload r inp_answered) ;;
          resume_if_no_pending
      end
  end.

Definition expire_inputs (now : instant) : RM Z :=
  let! n := close_where (fun r => is_pending r && (inp_deadline r <=? now)) inp_expired in
  when (negb (n =? 0)) resume_if_no_pending ;;
  ret n.

(** ** Agent idempotency keys *)

Record ActionReply := mkReply {
  rp_key : string;
  rp_status : ActionState;
  rp_result : option Json
}.

Definition claim_action (attempt_no : Z) (key : string) (claim_token : option string)
    : RM ActionReply :=
  require_attempt attempt_no ;;
  let! existing := get_action key in
  match existing with
  | None =>
      put_action key (mkAction act_claimed attempt_no None claim_token None) ;;
      ret (mkReply key act_claimed None)
  | Some a =>
      if bool_decide (act_state a = act_completed) then ret (mkReply key act_completed (act_result a))
      else if bool_decide (act_state a = act_claimed) && bool_decide (is_Some claim_token)
              && bool_decide (act_claim_token a = claim_token) && (act_attempt a =? attempt_no)
      then ret (mkReply key act_claimed None)
      else
        put_action key (a <| act_state := act_in_doubt |> <| act_attempt := attempt_no |>) ;;
        ret (mkReply key act_in_doubt None)
  end.

Definition complete_action (attempt_no : Z) (key : string) (result : Json) : RM ActionReply :=
  require_attempt attempt_no ;;
  let! existing := get_action key in
  match existing with
  | None => raise (conflict "ACTION_NOT_CLAIMED" [])
  | Some a =>
      if bool_decide (act_state a = act_completed) then ret (mkReply key act_completed (act_result a))
      else
        let! now := utcnow in
        put_action key (a <| act_state := act_completed |> <| act_result := Some (redact result) |>
                          <| act_completed_at := Some now |>) ;;
        ret (mkReply key act_completed (Some (redact result)))
  end.
End service.
