(* ===== verification/RunInv.v ===== *)
(** * Invariants of a run ([runs/service.py])

    Every operation of [RunService] preserves [run_inv].  The invariant has two
    parts.  [log_ok] is about the event log and the accounting columns; it is kept
    by each primitive ([append_event], [transition], ...).  [base] and [settled] are about the
    [View] of the session: state, attempt counter, attempts, input requests and the
    jobs table; primitives change the view by known equations, and each operation
    re-establishes [settled] at its end. *)

From S2P Require Import Prelude TimeUtil Json Redaction SchemaGuard States Jobs RunModel RunService.
#[local] Open Scope Z_scope.

(** ** The event log *)

(** [from] and [to] of a [run.state_changed] event. *)
Definition state_change (e : RunEvent) : option (option RunState * RunState) :=
  match jget "from" (ev_payload e), jget "to" (ev_payload e) with
  | Some f, Some (JStr t) =>
      match parse_state t with
      | Some t' =>
          match f with
          | JNull => Some (None, t')
          | JStr f => match parse_state f with Some f' => Some (Some f', t') | None => None end
          | _ => None
          end
      | None => None
      end
  | _, _ => None
  end.

Definition is_state_change (e : RunEvent) : bool := String.eqb (ev_type e) "run.state_changed".

(** One step of replaying the log: the recorded source must be the state reached so far,
    and the move must be in the transition table; the first entry creates the run. *)
Definition replay_step (cur : option RunState) (e : RunEvent) : option (option RunState) :=
  if is_state_change e then
    match state_change e with
    | Some (f, t) =>
        if bool_decide (f = cur)
           && match cur with Some c => can_transition c t | None => bool_decide (t = QUEUED) end
        then Some (Some t) else None
    | None => None
    end
  else Some cur.

Fixpoint replay (cur : option RunState) (es : list RunEvent) : option (option RunState) :=
  match es with
  | [] => Some cur
  | e :: es' => match replay_step cur e with Some c => replay c es' | None => None end
  end.

(** Sequences count 1, 2, 3, ... without gaps. *)
Definition sequenced (from : Z) (es : list RunEvent) : Prop :=
  forall i e, es !! i = Some e -> ev_sequence e = from + Z.of_nat i + 1.

Record log_ok (rr : RunRows) : Prop := mkLogOk {
  log_sequence : sequenced 0 (rr_events rr);
  log_replay : replay None (rr_events rr) = Some (Some (run_state (rr_run rr)));
  log_clients : NoDup (stored_client_ids (rr_events rr));
  log_finished : is_Some (run_finished_at (rr_run rr)) <-> run_state (rr_run rr) ∈ TERMINAL_STATES;
  log_active : 0 <= run_active_used (rr_run rr);
  log_wait : 0 <= run_input_wait_used (rr_run rr)
}.

(** ** The view *)

Record View := mkView {
  v_id : uuid;
  v_state : RunState;
  v_attempt : Z;
  v_cancel : option instant;
  v_inputs : list InputRequest;
  v_attempts : gmap Z RunAttempt;
  v_jobs : JobQueue
}.

#[export] Instance eta_View : Eta View := fun v =>
  mkView (v_id v) (v_state v) (v_attempt v) (v_cancel v) (v_inputs v) (v_attempts v) (v_jobs v).

Definition view (s : Session) : View :=
  let rr := se_rows s in
  let r := rr_run rr in
  mkView (run_id r) (run_state r) (run_current_attempt r) (run_cancel_requested_at r)
    (rr_inputs rr) (rr_attempts rr) (se_jobs s).

Definition has_pending (inputs : list InputRequest) : Prop := existsb is_pending inputs = true.

(** Facts that hold in every state. *)
Record base (v : View) : Prop := mkBase {
  base_attempt : 1 <= v_attempt v;
  base_attempts : forall n a, v_attempts v !! n = Some a -> att_attempt a = n /\ 1 <= n <= v_attempt v;
  base_keys : NoDup (map inp_key (v_inputs v));
  base_jobs : queue_ok (v_jobs v)
}.

Definition has_current (v : View) : Prop := is_Some (v_attempts v !! v_attempt v).

(** What each state promises: only a waiting run has open questions; an active run has
    its attempt row; a queued run has its dispatch job and a cancelling one its cancel job. *)
Definition settled (v : View) : Prop :=
  match v_state v with
  | QUEUED => ~ has_pending (v_inputs v) /\ has_live (dispatch_key (v_id v) (v_attempt v)) (v_jobs v)
  | PREPARING | LOADING_MODEL | RUNNING => ~ has_pending (v_inputs v) /\ has_current v
  | WAITING_INPUT => has_pending (v_inputs v) /\ has_current v
  | CANCELLING => ~ has_pending (v_inputs v) /\ has_current v /\ is_Some (v_cancel v) /\
                  has_live (KRunCancel (v_id v) (v_attempt v)) (v_jobs v)
  | SUCCEEDED | FAILED | CANCELLED | INTERRUPTED => ~ has_pending (v_inputs v)
  end.

(** [k] is the key of some row, live or not. *)
Definition has_key (k : DedupeKey) (q : JobQueue) : Prop :=
  exists i typ pl, (i, typ, pl, Some k) ∈ idents q.

(** The run's jobs, finished ones included, tell its past: a dispatch job is for an attempt
    that was reached, and a run is cancelled at most once, in its last attempt. *)
Definition history (v : View) : Prop :=
  (forall n, has_key (KRunAttempt (v_id v) n) (v_jobs v) -> n <= v_attempt v) /\
  (forall n, has_key (KRunCancel (v_id v) n) (v_jobs v) ->
     n = v_attempt v /\ (v_state v = CANCELLING \/ v_state v = CANCELLED)).

Definition run_inv (s : Session) : Prop :=
  log_ok (se_rows s) /\ base (view s) /\ settled (view s) /\ history (view s).

(** The run a dedupe key belongs to. *)
Definition job_key_run (k : DedupeKey) : option uuid :=
  match k with KRunAttempt r _ | KRunCancel r _ | KRunStop r _ => Some r | _ => None end.

(** Dedupe key, type and payload of a job go together: run jobs carry the run and attempt
    their key names, and nothing else uses their types. *)
Definition key_typed (typ : string) (pl : JobPayload) (key : option DedupeKey) : Prop :=
  match key with
  | Some (KRunAttempt r n) => typ = JOB_DISPATCH /\ pl = run_payload r n
  | Some (KRunCancel r n) => typ = JOB_CANCEL /\ pl = run_payload r n
  | Some (KRunStop r n) => typ = JOB_STOP /\ pl = run_payload r n
  | _ => typ ∉ [JOB_DISPATCH; JOB_CANCEL; JOB_STOP]
  end.
Definition jobs_typed (q : JobQueue) : Prop :=
  forall i typ pl key, (i, typ, pl, key) ∈ idents q -> key_typed typ pl key.

(** A later table: rows keep id, type, payload and key; new rows are typed. *)
Record jobs_grow (q q' : JobQueue) : Prop := mkJobsGrow {
  grow_idents : idents q ⊆ idents q';
  grow_typed : jobs_typed q -> jobs_typed q'
}.

#[export] Instance jobs_grow_refl : Reflexive jobs_grow.
Proof. by split. Qed.
#[export] Instance jobs_grow_trans : Transitive jobs_grow.
Proof. intros q1 q2 q3 [G1 T1] [G2 T2]. split; [by etrans|auto]. Qed.

Lemma jobs_grow_same q q' : idents q' = idents q -> jobs_grow q q'.
Proof. intros H. split; unfold jobs_typed; by rewrite H. Qed.

Lemma enqueue_grow now utc typ pl key at_ n q :
  key_typed typ pl key -> jobs_grow q (enqueue now utc typ pl key at_ n q).2.
Proof.
  intros Ht. destruct (enqueue_idents now utc typ pl key at_ n q) as [H|H].
  { by apply jobs_grow_same. }
  split; unfold jobs_typed; rewrite H; [set_solver|].
  intros Hq i t p k [Hin|Hin]%elem_of_app; [by eapply Hq|].
  apply list_elem_of_singleton in Hin. by injection Hin as -> -> -> ->.
Qed.

Lemma enqueue_key now utc typ pl key at_ n q k :
  has_key k (enqueue now utc typ pl key at_ n q).2 -> has_key k q \/ key = Some k.
Proof.
  intros (i & t & p & Hin). destruct (enqueue_idents now utc typ pl key at_ n q) as [H|H];
    rewrite H in Hin; [left; by exists i, t, p|].
  apply elem_of_app in Hin as [Hin|Hin]; [left; by exists i, t, p|].
  apply list_elem_of_singleton in Hin. right. congruence.
Qed.

Lemma same_keys q q' k : idents q' = idents q -> has_key k q' <-> has_key k q.
Proof. unfold has_key. by intros ->. Qed.

(** ** The log under primitives *)

Lemma sequenced_app from es es' :
  sequenced from (es ++ es') <->
  sequenced from es /\ sequenced (from + Z.of_nat (length es)) es'.
Proof.
  unfold sequenced. split.
  - intros H. split; intros i e Hi.
    + apply H. by apply lookup_app_l_Some.
    + specialize (H (length es + i)%nat e). rewrite lookup_app_r in H by lia.
      replace (length es + i - length es)%nat with i in H by lia. specialize (H Hi). lia.
  - intros [H1 H2] i e Hi. apply lookup_app_Some in Hi as [Hi|[Hle Hi]]; [by apply H1|].
    apply H2 in Hi. lia.
Qed.

Lemma last_sequence_app es e :
  last_sequence (es ++ [e]) = Z.max (last_sequence es) (Z.max (ev_sequence e) 0).
Proof. unfold last_sequence. induction es as [|x es IH]; simpl; [lia|]. rewrite IH. lia. Qed.

Lemma last_sequence_length es : sequenced 0 es -> last_sequence es = Z.of_nat (length es).
Proof.
  induction es as [|e es IH] using rev_ind; [done|]. intros [Hes He]%sequenced_app.
  rewrite last_sequence_app, IH, length_app by done.
  specialize (He 0%nat e eq_refl). simpl. lia.
Qed.

Lemma replay_app cur es es' :
  replay cur (es ++ es') = match replay cur es with Some c => replay c es' | None => None end.
Proof.
  revert cur. induction es as [|e es IH]; intros cur; simpl; [done|].
  destruct (replay_step cur e); [apply IH|done].
Qed.

Lemma stored_client_ids_app es es' :
  stored_client_ids (es ++ es') = stored_client_ids es ++ stored_client_ids es'.
Proof. apply omap_app. Qed.

Lemma state_change_payload seq att cur t reason err now :
  state_change (mkEvent seq att "run.state_changed" (change_payload cur t reason err) now None None)
  = Some (cur, t).
Proof. destruct cur as [c|]; unfold state_change; simpl; rewrite parse_state_str; [|done].
  by rewrite parse_state_str.
Qed.

(** ** Effects of primitives on log and view *)

(** The columns that are written once, by [create_run]. *)
Definition run_identity (r : AgentRun) :=
  (run_id r, run_installation_id r, run_agent_version_id r, run_trigger r,
   (run_schedule_id r, run_scheduled_for r, run_parent_run_id r, run_start_key r,
    run_trigger_input r, run_created_by r),
   (run_config_snapshot r, run_permissions_snapshot r, run_model_bindings r,
    run_active_timeout_seconds r, run_max_input_wait_seconds r)).

Lemma identity_id r r' : run_identity r = run_identity r' -> run_id r = run_id r'.
Proof. unfold run_identity. congruence. Qed.

(** What every operation leaves alone: the identity of the run, the events already
    logged, and the live jobs of other runs and of other kinds. *)
Record frame (s s' : Session) : Prop := mkFrame {
  frame_identity : run_identity (rr_run (se_rows s')) = run_identity (rr_run (se_rows s));
  frame_events : rr_events (se_rows s) `prefix_of` rr_events (se_rows s');
  frame_jobs : forall k, job_key_run k <> Some (run_id (rr_run (se_rows s))) ->
    has_live k (se_jobs s) -> has_live k (se_jobs s');
  frame_fresh : (se_fresh s <= se_fresh s')%N;
  frame_grow : jobs_grow (se_jobs s) (se_jobs s');
  frame_keys : forall k, has_key k (se_jobs s') ->
    has_key k (se_jobs s) \/ job_key_run k = Some (run_id (rr_run (se_rows s)))
}.

(** From [s] to [s'] the log stays sound, the frame holds and the view changes by [f]. *)
Record evolves (f : View -> View) (s s' : Session) : Prop := mkEvolves {
  evolves_log : log_ok (se_rows s) -> log_ok (se_rows s');
  evolves_view : view s' = f (view s);
  evolves_frame : frame s s'
}.

#[export] Instance frame_refl : Reflexive frame.
Proof. intros s. split; try done. by left. Qed.

#[export] Instance frame_trans : Transitive frame.
Proof.
  intros s1 s2 s3 [I1 E1 J1 N1 G1 K1] [I2 E2 J2 N2 G2 K2].
  pose proof (identity_id _ _ I1) as Hid.
  split; [congruence|by etrans| |lia|by etrans|].
  - intros k Hk Hl. apply J2; [congruence|by apply J1].
  - intros k [Hk|Hk]%K2; [by apply K1|right; congruence].
Qed.

(** Changes outside identity, events and jobs. *)
Lemma frame_same s s' :
  run_identity (rr_run (se_rows s')) = run_identity (rr_run (se_rows s)) ->
  rr_events (se_rows s') = rr_events (se_rows s) -> se_jobs s' = se_jobs s ->
  (se_fresh s <= se_fresh s')%N -> frame s s'.
Proof. intros HI HE HJ HN. split; [done|by rewrite HE|by rewrite HJ|done|by rewrite HJ|by rewrite HJ; left]. Qed.

Definition unchanged : View -> View := fun v => v.

Section effects.
Context {clk : Clock} {JS : JsonSchema}.
Implicit Types (s : Session).

Lemma wp_utcnow (Q : instant -> Session -> Prop) s :
  (forall t s', evolves unchanged s s' -> Q t s') -> wp utcnow Q s.
Proof. intros HQ. apply HQ. split; [done..|by apply frame_same]. Qed.

Lemma wp_uuid7 (Q : uuid -> Session -> Prop) s :
  (forall t s', evolves unchanged s s' -> Q t s') -> wp uuid7 Q s.
Proof. intros HQ. apply HQ. split; [done..|apply frame_same; try done; simpl; lia]. Qed.

Lemma log_ok_append rr e :
  log_ok rr -> ev_sequence e = last_sequence (rr_events rr) + 1 ->
  ev_client_event_id e = None -> is_state_change e = false ->
  log_ok (rr <| rr_events ::= fun l => l ++ [e] |>).
Proof.
  intros [Hs Hr Hc Hf Ha Hw] Hseq Hid Hty. split; simpl; try done.
  - apply sequenced_app. split; [done|]. intros [|i] x Hx; [|done]. injection Hx as <-.
    rewrite Hseq, last_sequence_length by done. lia.
  - rewrite replay_app, Hr. simpl. unfold replay_step. by rewrite Hty.
  - rewrite stored_client_ids_app. unfold stored_client_ids at 2. simpl. rewrite Hid.
    by rewrite app_nil_r.
Qed.

Lemma wp_append_event typ payload (Q : RunEvent -> Session -> Prop) s :
  typ <> "run.state_changed"%string ->
  (forall e s', evolves unchanged s s' -> Q e s') -> wp (append_event typ payload) Q s.
Proof.
  intros Hty HQ. apply HQ. split; [|done|].
  - simpl. intros Hlog. apply log_ok_append; try done.
    unfold is_state_change; simpl. by apply String.eqb_neq.
  - split; [done|by eexists|done..|by left].
Qed.

Lemma account_fields now r :
  run_state (account now r) = run_state r /\ run_finished_at (account now r) = run_finished_at r /\
  (0 <= run_active_used r -> 0 <= run_active_used (account now r)) /\
  (0 <= run_input_wait_used r -> 0 <= run_input_wait_used (account now r)) /\
  run_current_attempt (account now r) = run_current_attempt r /\
  run_cancel_requested_at (account now r) = run_cancel_requested_at r /\
  run_identity (account now r) = run_identity r.
Proof. unfold account, elapsed. repeat case_match; simpl; split_and!; (done || lia). Qed.

Lemma enter_fields t now err rt r :
  run_state (enter t now err rt r) = t /\
  run_active_used (enter t now err rt r) = run_active_used r /\
  run_input_wait_used (enter t now err rt r) = run_input_wait_used r /\
  run_current_attempt (enter t now err rt r) = run_current_attempt r /\
  run_cancel_requested_at (enter t now err rt r) = run_cancel_requested_at r /\
  run_identity (enter t now err rt r) = run_identity r /\
  run_finished_at (enter t now err rt r)
  = (if mem t TERMINAL_STATES then Some now
     else if bool_decide (t = QUEUED) then None else run_finished_at r).
Proof.
  unfold enter. destruct err, rt, (bool_decide (t = RUNNING) && _), (mem t TERMINAL_STATES),
    (bool_decide (t = QUEUED)); done.
Qed.

(** A terminal state is left only for [QUEUED]. *)
Lemma leave_terminal c t :
  can_transition c t = true -> c ∈ TERMINAL_STATES -> t = QUEUED.
Proof.
  intros Hct Hc.
  assert (Hb : mem c TERMINAL_STATES = true) by (by apply bool_decide_eq_true_2).
  destruct c, t; vm_compute in Hct, Hb; congruence.
Qed.

Lemma log_ok_transition rr t now now' reason err rt :
  can_transition (run_state (rr_run rr)) t = true -> log_ok rr ->
  log_ok (rr <| rr_run ::= fun r => enter t now err rt (account now r) |>
             <| rr_events ::= fun l => l ++ [mkEvent (last_sequence (rr_events rr) + 1)
                  (run_current_attempt (enter t now err rt (account now (rr_run rr))))
                  "run.state_changed"
                  (change_payload (Some (run_state (rr_run rr))) t reason err) now' None None] |>).
Proof.
  intros Hct [Hs Hr Hc Hf Ha Hw].
  pose proof (account_fields now (rr_run rr)) as (Ac & Af & Aa & Aw & _).
  pose proof (enter_fields t now err rt (account now (rr_run rr))) as (Es & Ea & Ew & _ & _ & _ & Ef).
  split; cbn [rr_run rr_events update eta eta_RunRows].
  - apply sequenced_app. split; [done|]. intros [|i] x Hx; [|done]. injection Hx as <-. simpl.
    rewrite last_sequence_length by done. lia.
  - rewrite replay_app, Hr. simpl. unfold replay_step. simpl.
    rewrite state_change_payload, bool_decide_eq_true_2 by done. rewrite Hct. simpl. by rewrite Es.
  - rewrite stored_client_ids_app. unfold stored_client_ids at 2. simpl. by rewrite app_nil_r.
  - rewrite Ef, Es. unfold mem. destruct (decide (t ∈ TERMINAL_STATES)) as [Ht|Ht].
    + rewrite bool_decide_eq_true_2 by done. split; [done|by eexists].
    + rewrite bool_decide_eq_false_2 by done. destruct (decide (t = QUEUED)) as [->|Hq].
      * split; [by intros []|done].
      * rewrite bool_decide_eq_false_2, Af, Hf by done. split; [|done].
        intros Hc'. by apply (leave_terminal _ t) in Hc'.
  - rewrite Ea. auto.
  - rewrite Ew. auto.
Qed.

Lemma wp_transition t reason err rt (Q : RunEvent -> Session -> Prop) s :
  (can_transition (v_state (view s)) t = true ->
   forall e s', evolves (fun v => v <| v_state := t |>) s s' -> Q e s') ->
  wp (transition t reason err rt) Q s.
Proof.
  intros HQ. unfold transition. wp_step. apply wp_gets. wp_step. apply wp_guard. intros Hct.
  specialize (HQ Hct). apply HQ.
  pose proof (account_fields (wall (se_tick s)) (rr_run (se_rows s))) as (_ & _ & _ & _ & A1 & A2 & A3).
  pose proof (enter_fields t (wall (se_tick s)) err rt (account (wall (se_tick s)) (rr_run (se_rows s))))
    as (E1 & _ & _ & E2 & E3 & E4 & _).
  rewrite <- E4 in A3. split.
  - intros Hlog. exact (log_ok_transition _ t (wall (se_tick s)) _ reason err rt Hct Hlog).
  - unfold view. simpl. by rewrite E1, E2, E3, A1, A2, (identity_id _ _ A3).
  - split; [done|by eexists|done..|by left].
Qed.

Lemma wp_move t reason (Q : unit -> Session -> Prop) s :
  (can_transition (v_state (view s)) t = true ->
   forall s', evolves (fun v => v <| v_state := t |>) s s' -> Q tt s') ->
  wp (move t reason) Q s.
Proof. intros HQ. unfold move. wp_step. apply wp_transition. intros Hct e s' He. by apply HQ. Qed.

(** A change of the run row outside the state machine. *)
Record row_edit (f : AgentRun -> AgentRun) : Prop := mkRowEdit {
  edit_state : forall r, run_state (f r) = run_state r;
  edit_identity : forall r, run_identity (f r) = run_identity r;
  edit_finished : forall r, run_finished_at (f r) = run_finished_at r;
  edit_active : forall r, 0 <= run_active_used r -> 0 <= run_active_used (f r);
  edit_wait : forall r, 0 <= run_input_wait_used r -> 0 <= run_input_wait_used (f r)
}.

Lemma wp_set_run f g (Q : unit -> Session -> Prop) s :
  row_edit f ->
  (forall s s', se_rows s' = se_rows s <| rr_run ::= f |> -> se_jobs s' = se_jobs s ->
    view s' = g (view s)) ->
  (forall s', evolves g s s' -> Q tt s') -> wp (set_run f) Q s.
Proof.
  intros [Es Ei Ef Ea Ew] Hview HQ. apply HQ.
  split; [|by apply Hview|apply frame_same; [apply Ei|done..]].
  intros [Hs Hr Hc Hf Ha Hw]. split; simpl; rewrite ?Es, ?Ef; auto.
Qed.

Lemma wp_set_inputs f (Q : unit -> Session -> Prop) s :
  (forall s', evolves (fun v => v <| v_inputs ::= f |>) s s' -> Q tt s') -> wp (set_inputs f) Q s.
Proof. intros HQ. apply HQ. split; [by intros []|done|by apply frame_same]. Qed.

Lemma wp_put_attempt n a (Q : unit -> Session -> Prop) s :
  (forall s', evolves (fun v => v <| v_attempts ::= <[n := a]> |>) s s' -> Q tt s') ->
  wp (put_attempt n a) Q s.
Proof. intros HQ. apply HQ. split; [by intros []|done|by apply frame_same]. Qed.

Lemma wp_put_action k a (Q : unit -> Session -> Prop) s :
  (forall s', evolves unchanged s s' -> Q tt s') -> wp (put_action k a) Q s.
Proof. intros HQ. apply HQ. split; [by intros []|done|by apply frame_same]. Qed.

Lemma wp_enqueue_job typ pl k (Q : unit -> Session -> Prop) s :
  key_typed typ pl (Some k) -> job_key_run k = Some (v_id (view s)) ->
  (forall now utc s', evolves (fun v => v <| v_jobs ::= fun q =>
      (Jobs.enqueue now utc typ pl (Some k) None 5 q).2 |>) s s' -> Q tt s') ->
  wp (enqueue_job typ pl k) Q s.
Proof.
  intros Hk Hr HQ. unfold enqueue_job. wp_step. eapply HQ.
  split; [done|reflexivity|]. split; [done..| |done|by apply enqueue_grow|].
  - intros k' _. apply enqueue_keeps_live.
  - intros k' [H|[= <-]]%enqueue_key; [by left|by right].
Qed.

Lemma wp_cancel_job k (Q : unit -> Session -> Prop) s :
  job_key_run k = Some (v_id (view s)) ->
  (forall now s', evolves (fun v => v <| v_jobs ::= fun q =>
      (Jobs.cancel_by_dedupe now k q).2 |>) s s' -> Q tt s') ->
  wp (cancel_job k) Q s.
Proof.
  intros Hk HQ. eapply HQ. split; [done|reflexivity|].
  split; [done..| |done|by apply jobs_grow_same, update_where_idents|
    intros k'; rewrite (same_keys (se_jobs s)) by (by apply update_where_idents); by left].
  intros k' Hk'. apply cancel_by_dedupe_keeps_live. intros ->. by apply Hk'.
Qed.

Lemma wp_check r (Q : unit -> Session -> Prop) s :
  (r = Ok tt -> Q tt s) -> wp (check r) Q s.
Proof. intros HQ. destruct r as [[]|e]; [by apply HQ|done]. Qed.

(** Closing the requests that satisfy [p]. *)
Definition closed_by (p : InputRequest -> bool) (st : InputState) : list InputRequest -> list InputRequest :=
  map (fun r => if p r then r <| inp_state := st |> <| inp_version ::= Z.succ |> else r).

Lemma evolves_refl s : evolves unchanged s s.
Proof. by split. Qed.

Lemma evolves_trans f g s1 s2 s3 :
  evolves f s1 s2 -> evolves g s2 s3 -> evolves (fun v => g (f v)) s1 s3.
Proof. intros [L1 V1 F1] [L2 V2 F2]. split; [auto|by rewrite V2, V1|by etrans]. Qed.

Lemma wp_close_where p st (Q : Z -> Session -> Prop) s :
  (forall s', evolves (fun v => v <| v_inputs ::= closed_by p st |>) s s' ->
    Q (Z.of_nat (length (List.filter p (v_inputs (view s))))) s') ->
  wp (close_where p st) Q s.
Proof.
  intros HQ. unfold close_where. wp_step. apply wp_gets. wp_step.
  apply wp_set_inputs. intros s1 E1. wp_step.
  eapply wp_mono.
  - apply (wp_for_each (fun s' => evolves unchanged s1 s')); [|apply evolves_refl].
    intros r s2 _ E2. wp_step. apply wp_append_event; [done|]. intros e s3 E3.
    apply wp_ret. exact (evolves_trans _ _ _ _ _ E2 E3).
  - intros [] s2 E2. apply wp_ret. apply HQ. exact (evolves_trans _ _ _ _ _ E1 E2).
Qed.
End effects.

(** ** [base] and input lists under the changes the operations make *)

Lemma closed_by_keys p st l : map inp_key (closed_by p st l) = map inp_key l.
Proof. unfold closed_by. rewrite List.map_map. apply map_ext. intros r. by destruct (p r). Qed.

Lemma has_pending_alt l : has_pending l <-> exists r, r ∈ l /\ inp_state r = inp_pending.
Proof.
  unfold has_pending. rewrite existsb_exists. unfold is_pending.
  setoid_rewrite bool_decide_eq_true. by setoid_rewrite list_elem_of_In.
Qed.

(** After closing every pending request none is left. *)
Lemma closed_none_pending st l : st <> inp_pending -> ~ has_pending (closed_by is_pending st l).
Proof.
  intros Hst. rewrite has_pending_alt. intros (r & Hr & Hp).
  apply list_elem_of_fmap in Hr as (x & -> & _). unfold is_pending in Hp.
  case_bool_decide; simpl in Hp; congruence.
Qed.

Lemma base_same v v' :
  base v -> v_attempt v' = v_attempt v -> v_attempts v' = v_attempts v ->
  map inp_key (v_inputs v') = map inp_key (v_inputs v) -> v_jobs v' = v_jobs v -> base v'.
Proof. intros [B1 B2 B3 B4] E1 E2 E3 E4. split; rewrite ?E1, ?E2, ?E3, ?E4; done. Qed.

Lemma base_insert v n a :
  base v -> att_attempt a = n -> 1 <= n <= v_attempt v ->
  base (v <| v_attempts ::= <[n := a]> |>).
Proof.
  intros [B1 B2 B3 B4] Ha Hn. split; simpl; try done. intros m b.
  rewrite lookup_insert. case_decide; [intros [= <-]; subst; done|apply B2].
Qed.

Lemma base_enqueue v now utc typ pl k :
  base v -> base (v <| v_jobs ::= fun q => (Jobs.enqueue now utc typ pl (Some k) None 5 q).2 |>).
Proof. intros [B1 B2 B3 B4]. split; simpl; try done. by apply enqueue_ok. Qed.

Lemma base_cancel_job v now k :
  base v -> base (v <| v_jobs ::= fun q => (Jobs.cancel_by_dedupe now k q).2 |>).
Proof. intros [B1 B2 B3 B4]. split; simpl; try done. by apply cancel_ok. Qed.

Lemma base_close v p st : base v -> base (v <| v_inputs ::= closed_by p st |>).
Proof. intros B. eapply base_same; try done. apply closed_by_keys. Qed.

Lemma base_move v t : base v -> base (v <| v_state := t |>).
Proof. intros B. by eapply base_same. Qed.

Lemma base_cancel v c : base v -> base (v <| v_cancel := c |>).
Proof. intros B. by eapply base_same. Qed.

Create HintDb inv.
#[export] Hint Resolve base_insert base_enqueue base_cancel_job base_close base_move base_cancel : inv.
