(* ===== verification/RunOps.v ===== *)
(** * Every run operation preserves the run invariant

    For each operation of [RunService]: if it commits, the run invariant still holds and
    the frame (identity, logged events, jobs of others) is untouched.  The proofs execute
    the operation symbolically with the rules of [RunInv] and are left with what the
    operation must re-establish about the run's [View]. *)

From S2P Require Import Prelude TimeUtil Json Redaction SchemaGuard States Jobs RunModel RunService RunInv.
#[local] Open Scope Z_scope.

(** Runs only move forward: the attempt never decreases, [QUEUED] is only re-entered with a
    new attempt, and [CANCELLED] is final. *)
Definition forward (v v' : View) : Prop :=
  v_attempt v <= v_attempt v' /\
  (v_attempt v = v_attempt v' -> v_state v' = QUEUED -> v_state v = QUEUED) /\
  (v_state v = CANCELLED -> v_state v' = CANCELLED).

Lemma forward_trans v1 v2 v3 : forward v1 v2 -> forward v2 v3 -> forward v1 v3.
Proof.
  intros (A1 & Q1 & C1) (A2 & Q2 & C2). split_and!; [lia| |auto].
  intros Heq Hq. apply Q1; [lia|]. apply Q2; [lia|done].
Qed.

(** The postcondition of every operation. *)
Definition kept (s s' : Session) : Prop := frame s s' /\ run_inv s' /\ forward (view s) (view s').

Lemma kept_intro f s s' :
  evolves f s s' -> log_ok (se_rows s) -> base (f (view s)) ->
  settled (f (view s)) /\ history (f (view s)) /\ forward (view s) (f (view s)) -> kept s s'.
Proof.
  intros [HL HV HF] L B (S & H & M). split; [done|]. rewrite HV. split; [|done].
  split; [by apply HL|]. by rewrite HV.
Qed.

Lemma kept_frame s s' : kept s s' -> frame s s'.
Proof. by intros []. Qed.
Lemma kept_inv s s' : kept s s' -> run_inv s'.
Proof. by intros (_ & I & _). Qed.

Section ops.
Context {clk : Clock} {JS : JsonSchema}.
Implicit Types (s : Session).

(** A row read from the session, known through the view. *)
Record row_of (v : View) (r : AgentRun) : Prop := mkRowOf {
  row_id : run_id r = v_id v;
  row_state : run_state r = v_state v;
  row_attempt : run_current_attempt r = v_attempt v;
  row_cancel : run_cancel_requested_at r = v_cancel v
}.

Lemma wp_the_run (Q : AgentRun -> Session -> Prop) s :
  (forall r, row_of (view s) r -> Q r s) -> wp the_run Q s.
Proof. intros HQ. by apply HQ. Qed.
Lemma wp_the_inputs (Q : list InputRequest -> Session -> Prop) s :
  Q (v_inputs (view s)) s -> wp the_inputs Q s.
Proof. done. Qed.
Lemma wp_get_attempt n (Q : option RunAttempt -> Session -> Prop) s :
  Q (v_attempts (view s) !! n) s -> wp (get_attempt n) Q s.
Proof. done. Qed.
Lemma wp_get_action k (Q : option IdempotencyAction -> Session -> Prop) s :
  (forall a, Q a s) -> wp (get_action k) Q s.
Proof. intros HQ. apply HQ. Qed.

(** The three edits of the run row outside the state machine. *)
Lemma wp_set_cancel t (Q : unit -> Session -> Prop) s :
  (forall s', evolves (fun v => v <| v_cancel := Some t |>) s s' -> Q tt s') ->
  wp (set_run (fun r => r <| run_cancel_requested_at := Some t |>)) Q s.
Proof. apply wp_set_run; [by split|]. intros s1 s2 E1 E2. unfold view. by rewrite E1, E2. Qed.
Lemma wp_set_result o (Q : unit -> Session -> Prop) s :
  (forall s', evolves unchanged s s' -> Q tt s') ->
  wp (set_run (fun r => r <| run_result := o |>)) Q s.
Proof. apply wp_set_run; [by split|]. intros s1 s2 E1 E2. unfold view. by rewrite E1, E2. Qed.
Lemma wp_reset_for_retry (Q : unit -> Session -> Prop) s :
  (forall s', evolves (fun v => v <| v_attempt ::= Z.succ |> <| v_cancel := None |>) s s' -> Q tt s') ->
  wp (set_run reset_for_retry) Q s.
Proof. apply wp_set_run; [by split|]. intros s1 s2 E1 E2. unfold view. by rewrite E1, E2. Qed.
End ops.

(** [absorb E] appends the step [E] to the evolution known so far. *)
Ltac absorb E :=
  match goal with
  | E0 : evolves ?f ?s0 ?s1 |- _ =>
      lazymatch type of E with
      | evolves ?g s1 ?s2 =>
          rewrite ?(evolves_view _ _ _ E0) in *;
          let E' := fresh "E" in
          pose proof (evolves_trans _ _ _ _ _ E0 E) as E';
          clear E0 E; cbv beta in E'
      end
  end.

(** Agents cannot forge state changes. *)
Lemma agent_type_plain typ :
  bool_decide (typ ∈ AGENT_EVENT_TYPES) = true -> typ <> "run.state_changed"%string.
Proof. intros H ->. by vm_compute in H. Qed.

(** [op_step] executes one statement of an operation; reads become facts about the view. *)
Ltac op_step :=
  match goal with
  | |- wp (bind _ _) _ _ => apply wp_bind
  | |- wp the_run _ _ => apply wp_the_run; let r := fresh "r" in let H := fresh "Hr" in
      intros r H; 
      rewrite ?(row_id _ _ H), ?(row_state _ _ H), ?(row_attempt _ _ H), ?(row_cancel _ _ H)
  | |- wp the_inputs _ _ => apply wp_the_inputs
  | |- wp (get_attempt _) _ _ => apply wp_get_attempt
  | |- wp (get_action _) _ _ => apply wp_get_action; intros ?
  | |- wp utcnow _ _ => apply wp_utcnow; let E := fresh "E" in intros ? ? E; absorb E
  | |- wp uuid7 _ _ => apply wp_uuid7; let E := fresh "E" in intros ? ? E; absorb E
  | |- wp (append_event _ _) _ _ =>
      apply wp_append_event; [discriminate || by eapply agent_type_plain|]; let E := fresh "E" in intros ? ? E; absorb E
  | |- wp (transition _ _ _ _) _ _ =>
      apply wp_transition; let E := fresh "E" in intros ? ? ? E; absorb E
  | |- wp (move _ _) _ _ =>
      apply wp_move; let E := fresh "E" in intros ? ? E; absorb E
  | |- wp (set_run reset_for_retry) _ _ =>
      apply wp_reset_for_retry; let E := fresh "E" in intros ? E; absorb E
  | |- wp (set_run _) _ _ =>
      (apply wp_set_cancel || apply wp_set_result);
      let E := fresh "E" in intros ? E; absorb E
  | |- wp (set_inputs _) _ _ =>
      apply wp_set_inputs; let E := fresh "E" in intros ? E; absorb E
  | |- wp (put_attempt _ _) _ _ =>
      apply wp_put_attempt; let E := fresh "E" in intros ? E; absorb E
  | |- wp (put_action _ _) _ _ =>
      apply wp_put_action; let E := fresh "E" in intros ? E; absorb E
  | |- wp (enqueue_job _ _ _) _ _ =>
      apply wp_enqueue_job;
      [by split
      |match goal with E : evolves _ _ ?s |- context [view ?s] => by rewrite (evolves_view _ _ _ E) end
      |]; let E := fresh "E" in intros ? ? ? E; absorb E
  | |- wp (cancel_job _) _ _ =>
      apply wp_cancel_job;
      [match goal with E : evolves _ _ ?s |- context [view ?s] => by rewrite (evolves_view _ _ _ E) end
      |let E := fresh "E" in intros ? ? E; absorb E]
  | |- wp (check _) _ _ => apply wp_check; intros ?
  | |- wp (close_where _ _) _ _ =>
      apply wp_close_where; let E := fresh "E" in intros ? E; absorb E
  | |- wp (let _ := _ in _) _ _ => cbv zeta
  | |- _ => wp_step
  end; cbv beta; cbv delta [unchanged] in *; cbv beta in *.

Ltac op_start s :=
  let HI := fresh "HI" in intros HI; pose proof (evolves_refl s) as E;
  change (@unchanged) with (fun v : View => v) in E.

(** Refute a state by the tests that were passed. *)
Ltac refute_state :=
  let refute H := (exfalso; clear -H; vm_compute in H; discriminate H) in
  match goal with
  | H : mem _ _ = _ |- _ => refute H
  | H : negb (mem _ _) = _ |- _ => refute H
  | H : can_transition _ _ = _ |- _ => refute H
  | H : negb (can_transition _ _) = _ |- _ => refute H
  | H : mem _ _ || negb (can_transition _ _) = _ |- _ => refute H
  | H : bool_decide (@eq RunState _ _) = _ |- _ => refute H
  end.

Lemma base_begin v n a :
  base v -> n = v_attempt v -> att_attempt a = n -> base (v <| v_attempts ::= <[n := a]> |>).
Proof. intros B -> Ha. pose proof (base_attempt _ B). apply base_insert; [done|done|lia]. Qed.

Lemma base_edit v n a a' :
  base v -> v_attempts v !! n = Some a -> att_attempt a' = att_attempt a ->
  base (v <| v_attempts ::= <[n := a']> |>).
Proof. intros B Hn Ha. destruct (base_attempts _ B _ _ Hn). apply base_insert; [done|congruence|done]. Qed.

Lemma base_retry v :
  base v -> base (v <| v_attempt ::= Z.succ |> <| v_cancel := None |>).
Proof.
  intros [B1 B2 B3 B4]. split; simpl; try done; [lia|].
  intros n a Hn. destruct (B2 n a Hn). split; [done|lia].
Qed.

Lemma base_inputs v f :
  base v -> NoDup (map inp_key (f (v_inputs v))) -> base (v <| v_inputs ::= f |>).
Proof. by intros [B1 B2 B3 B4]. Qed.

(** Peel the changes of a view off a [base] goal, last change first. *)
Ltac solve_base :=
  lazymatch goal with
  | |- base (_ <| v_state := _ |>) => apply base_move; solve_base
  | |- base (_ <| v_cancel := None |>) => apply base_retry; solve_base
  | |- base (_ <| v_cancel := _ |>) => apply base_cancel; solve_base
  | |- base (_ <| v_inputs ::= closed_by _ _ |>) => apply base_close; solve_base
  | |- base (_ <| v_inputs ::= _ |>) => apply base_inputs; [solve_base|]
  | |- base (_ <| v_jobs ::= fun q => (Jobs.enqueue _ _ _ _ _ _ _ q).2 |>) =>
      apply base_enqueue; solve_base
  | |- base (_ <| v_jobs ::= fun q => (Jobs.cancel_by_dedupe _ _ q).2 |>) =>
      apply base_cancel_job; solve_base
  | |- base (_ <| v_attempts ::= <[_ := _]> |>) =>
      first [ eapply base_edit; [solve_base | eassumption | reflexivity]
            | apply base_begin; [solve_base | reflexivity | reflexivity] ]
  | |- base _ => first [ eassumption | idtac ]
  end.

(** Keys in the table after an operation's own changes to it. *)
Lemma update_key p f q k :
  has_key k (update_where p f q) -> (forall j, job_ident (f j) = job_ident j) -> has_key k q.
Proof. intros H Hf. by rewrite (same_keys q) in H by (by apply update_where_idents). Qed.

Ltac solve_history :=
  intros;
  repeat match goal with
  | H : has_key _ (update_where _ _ _) |- _ => apply update_key in H; [|done]
  | H : has_key _ (enqueue _ _ _ _ _ _ _ _).2 |- _ =>
      apply enqueue_key in H as [H|H]; [|unfold dispatch_key in H; try discriminate; injection H as <-]
  | Hatt : forall n, has_key (KRunAttempt _ n) _ -> _, H : has_key (KRunAttempt _ _) _ |- _ =>
      apply Hatt in H
  | Hcan : forall n, has_key (KRunCancel _ n) _ -> _, H : has_key (KRunCancel _ _) _ |- _ =>
      apply Hcan in H
  end;
  destruct_and?;
  repeat match goal with H : _ \/ _ |- _ => destruct H end; subst; try done; try lia; auto.

Ltac solve_forward := intros; subst; try done; try lia; congruence.

(** [settle] closes [kept s s'] with the evolution in hand, leaving what the final view
    must satisfy, split by the state the operation started from. *)
Ltac settle :=
  match goal with
  | E : evolves ?f ?s ?s', HI : run_inv ?s |- kept ?s ?s' =>
      try rewrite (evolves_view _ _ _ E) in *;
      destruct HI as (L & B & S & [Hatt Hcan]);
      apply (kept_intro _ _ _ E L); clear E L; cbv beta;
      [solve_base|];
      let v := fresh "v" in generalize dependent (view s); intros v; intros;
      destruct v as [vid vst vatt vcan vinp vatts vjobs];
      unfold settled, history, forward, has_current in *; cbn in *;
      try (destruct vst; try refute_state; cbn in *);
      try done; destruct_and?; reflect_all; subst; try done; split_and?;
      try solve [solve_history]; try solve [solve_forward]; eauto with inv
  end.


Lemma lookup_insert_some (m : gmap Z RunAttempt) n a : is_Some (<[n := a]> m !! n).
Proof. rewrite lookup_insert. by case_decide. Qed.
Lemma lookup_insert_keeps (m : gmap Z RunAttempt) n k a : is_Some (m !! k) -> is_Some (<[n := a]> m !! k).
Proof. intros H. rewrite lookup_insert. by case_decide. Qed.
Lemma closed_by_none p st l : length (List.filter p l) = 0%nat -> closed_by p st l = l.
Proof.
  induction l as [|r l IH]; simpl; [done|]. destruct (p r); simpl; [done|].
  intros H. f_equal. by apply IH.
Qed.

Lemma closed_by_fewer p st l :
  st <> inp_pending -> ~ has_pending l -> ~ has_pending (closed_by p st l).
Proof.
  rewrite !has_pending_alt. intros Hst Hl (r & Hr & Hp). apply Hl.
  apply list_elem_of_fmap in Hr as (x & -> & Hx). destruct (p x); [done|by exists x].
Qed.

Lemma none_pending l : existsb is_pending l = false -> ~ has_pending l.
Proof. unfold has_pending. by intros ->. Qed.
Lemma some_pending l r : r ∈ l -> is_pending r = true -> has_pending l.
Proof. intros Hr Hp. apply has_pending_alt. exists r. split; [done|]. by apply bool_decide_eq_true in Hp. Qed.

#[export] Hint Resolve none_pending some_pending closed_by_fewer lookup_insert_some lookup_insert_keeps closed_none_pending enqueue_has_live
  enqueue_keeps_live : inv.

Section ops1.
Context {clk : Clock} {JS : JsonSchema}.
Implicit Types (s : Session).

Lemma request_cancel_kept reason s :
  run_inv s -> wp (request_cancel reason) (fun _ => kept s) s.
Proof.
  op_start s. unfold request_cancel, close_pending_inputs. repeat op_step. all: try done; settle.
Qed.

Lemma retry_kept s : run_inv s -> wp retry (fun _ => kept s) s.
Proof. op_start s. unfold retry. repeat op_step. all: try done; settle.
Qed.

Lemma begin_attempt_kept h s : run_inv s -> wp (begin_attempt h) (fun _ => kept s) s.
Proof. op_start s. unfold begin_attempt. repeat op_step. all: try done; settle.
Qed.

Lemma handshake_kept n h s : run_inv s -> wp (handshake n h) (fun _ => kept s) s.
Proof. op_start s. unfold handshake, require_attempt. repeat op_step. all: try done; settle.
Qed.

Lemma heartbeat_kept n h s : run_inv s -> wp (RunService.heartbeat n h) (fun _ => kept s) s.
Proof. op_start s. unfold RunService.heartbeat, require_attempt. repeat op_step. all: try done; settle.
Qed.

Lemma set_model_loading_kept n (l : bool) m s : run_inv s -> wp (set_model_loading n l m) (fun _ => kept s) s.
Proof. op_start s. unfold set_model_loading, require_attempt. destruct l; simpl; repeat op_step. all: try done; settle.
Qed.

Lemma record_agent_event_kept n typ payload s :
  run_inv s -> wp (record_agent_event n typ payload) (fun _ => kept s) s.
Proof. op_start s. unfold record_agent_event, require_attempt. repeat op_step. all: try done; settle. Qed.

Lemma fail_run_kept c m rt i d s :
  run_inv s -> wp (fail_run c m rt i d) (fun _ => kept s) s.
Proof.
  op_start s. unfold fail_run, close_pending_inputs. destruct i; repeat op_step.
  all: try done; settle.
Qed.

Lemma finish_kept n st res err s : run_inv s -> wp (finish n st res err) (fun _ => kept s) s.
Proof.
  op_start s. unfold finish, require_attempt, close_pending_inputs. repeat op_step.
  all: try done; settle.
Qed.

Lemma claim_action_kept n k tok s : run_inv s -> wp (claim_action n k tok) (fun _ => kept s) s.
Proof. op_start s. unfold claim_action, require_attempt. repeat op_step. all: try done; settle. Qed.

Lemma complete_action_kept n k res s : run_inv s -> wp (complete_action n k res) (fun _ => kept s) s.
Proof. op_start s. unfold complete_action, require_attempt. repeat op_step. all: try done; settle. Qed.

Lemma kept_trans s1 s2 s3 : kept s1 s2 -> kept s2 s3 -> kept s1 s3.
Proof.
  intros (F1 & I1 & M1) (F2 & I2 & M2). split; [by etrans|]. split; [done|by eapply forward_trans].
Qed.

(** A sub-operation that preserves the invariant, called after others did. *)
Lemma wp_kept {A} (m : RM A) (Q : A -> Session -> Prop) s1 s2 :
  kept s1 s2 -> (run_inv s2 -> wp m (fun _ => kept s2) s2) ->
  (forall a s3, kept s1 s3 -> Q a s3) -> wp m Q s2.
Proof.
  intros K Hm HQ. eapply wp_mono; [eapply Hm, kept_inv, K|]. intros a s3 K'. apply HQ. by eapply kept_trans.
Qed.

Lemma record_container_exit_kept n ref ec oom mem man s :
  run_inv s -> wp (record_container_exit n ref ec oom mem man) (fun _ => kept s) s.
Proof.
  op_start s. unfold record_container_exit. repeat op_step. all: try (done || settle).
  all: destruct (exit_verdict _ _ _ _) as [[c m] d]; repeat op_step.
  all: eapply wp_kept; [|intros; by apply fail_run_kept|intros; by apply wp_ret]; settle.
Qed.

Lemma expire_inputs_kept now s : run_inv s -> wp (expire_inputs now) (fun _ => kept s) s.
Proof.
  op_start s. unfold expire_inputs, resume_if_no_pending. repeat op_step. all: try done.
  all: settle.
  all: by rewrite closed_by_none by lia.
Qed.

Lemma keys_map p f l :
  (forall r, inp_key (f r) = inp_key r) ->
  map inp_key (map (fun r => if (p r : bool) then f r else r) l) = map inp_key l.
Proof. intros Hf. rewrite List.map_map. apply map_ext. intros r. destruct (p r); [apply Hf|done]. Qed.

Lemma find_pending p l r : List.find p l = Some r -> is_pending r = true -> has_pending l.
Proof. intros [Hr _]%find_some Hp. apply list_elem_of_In in Hr. eauto with inv. Qed.

Lemma answer_kept id ver value user s : run_inv s -> wp (answer id ver value user) (fun _ => kept s) s.
Proof.
  op_start s. unfold answer, resume_if_no_pending. repeat op_step. all: try done.
  all: assert (Hp : has_pending (v_inputs (view s))) by (eapply find_pending; eassumption).
  all: settle; rewrite keys_map by done; apply (base_keys _ B).
Qed.

(** Opening a request: reopening the row of a key, or adding one. *)
Lemma pending_map p f l r :
  List.find p l = Some r -> is_pending (f r) = true ->
  has_pending (map (fun x => if p x then f x else x) l).
Proof.
  intros [Hr Hp]%find_some Hf. apply list_elem_of_In in Hr.
  eapply some_pending; [|exact Hf]. apply list_elem_of_fmap. exists r. by rewrite Hp.
Qed.
Lemma pending_snoc l r : is_pending r = true -> has_pending (l ++ [r]).
Proof. apply some_pending. set_solver. Qed.
Lemma keys_snoc l r :
  NoDup (map inp_key l) -> find_input (inp_key r) l = None -> NoDup (map inp_key (l ++ [r])).
Proof.
  intros Hl Hr. rewrite map_app. apply NoDup_app. split_and!; [done| |apply NoDup_singleton].
  intros k (x & -> & Hx)%list_elem_of_fmap Hk. apply list_elem_of_In in Hx.
  apply (find_none _ _ Hr) in Hx. apply list_elem_of_singleton in Hk.
  apply String.eqb_neq in Hx. congruence.
Qed.

Lemma ask_open_kept run n key title prompt schema timeout preview existing s :
  run_inv s -> row_of (view s) run ->
  mem (run_state run) [RUNNING; WAITING_INPUT] = true ->
  existing = find_input key (v_inputs (view s)) ->
  wp (ask_open run n key title prompt schema timeout preview existing) (fun _ => kept s) s.
Proof.
  intros HI Hrun Hst ->. rewrite (row_state _ _ Hrun) in Hst. clear Hrun. revert HI. op_start s.
  unfold ask_open, wait_for_input, set_input. repeat op_step. all: try done.
  all: settle; try (by apply keys_snoc; [apply (base_keys _ B)|]); try (by apply pending_snoc);
    try (by eapply pending_map); rewrite keys_map by done; apply (base_keys _ B).
Qed.

Lemma ask_kept n key title prompt schema timeout preview s :
  run_inv s -> wp (ask n key title prompt schema timeout preview) (fun _ => kept s) s.
Proof.
  intros HI. unfold ask, require_attempt. 
  wp_step. wp_step. apply wp_the_run; intros r0 Hr0. apply wp_guard; intros Hn.
  wp_step. apply wp_the_run; intros r Hr. wp_step. apply wp_guard; intros Hperm.
  wp_step. apply wp_guard; intros Hst. wp_step. apply wp_the_inputs.
  destruct (find_input _ _) as [i|] eqn:Hfind; [|by apply ask_open_kept].
  apply wp_if; intros Hre; [|by apply ask_open_kept].
  rewrite (row_state _ _ Hr) in *. revert HI. op_start s. repeat op_step. all: try done.
  exfalso. apply andb_true_iff in H as [Hpi Hrun%bool_decide_eq_true].
  pose proof (find_pending _ _ _ Hfind Hpi) as Hp.
  destruct HI as (_ & _ & S & _). unfold settled in S. rewrite Hrun in S. by destruct S.
Qed.

(** ** Event batches *)

Lemma new_events_spec run now stored seq es :
  sequenced seq (new_events run now stored seq es) /\
  NoDup (stored_client_ids (new_events run now stored seq es)) /\
  (forall c, c ∈ stored_client_ids (new_events run now stored seq es) -> c ∉ stored) /\
  (forall e, e ∈ new_events run now stored seq es -> exists i, i ∈ es /\ ev_type e = ei_type i).
Proof.
  revert stored seq. induction es as [|i es IH]; intros stored seq; simpl.
  { split_and!; [by intros []|apply NoDup_nil_2|set_solver|set_solver]. }
  destruct (bool_decide (ei_client_event_id i ∈ stored)) eqn:Hb.
  - destruct (IH stored seq) as (H1 & H2 & H3 & H4). split_and!; [done..|].
    intros e He. destruct (H4 e He) as (x & Hx & Hy). exists x. split; [by right|done].
  - apply bool_decide_eq_false in Hb.
    destruct (IH (ei_client_event_id i :: stored) (seq + 1)) as (H1 & H2 & H3 & H4).
    split_and!.
    + intros [|k] e Hk; [injection Hk as <-; simpl; lia|]. apply H1 in Hk. lia.
    + csimpl. apply NoDup_cons. split; [|done]. intros Hin. apply H3 in Hin. set_solver.
    + csimpl. intros c [->|Hc]%elem_of_cons; [done|]. apply H3 in Hc. set_solver.
    + intros e [->|He]%elem_of_cons; [exists i; split; [by left|done]|].
      destruct (H4 e He) as (x & Hx & Hy). exists x. split; [by right|done].
Qed.

Lemma replay_plain cur es :
  (forall e, e ∈ es -> is_state_change e = false) -> replay cur es = Some cur.
Proof.
  induction es as [|e es IH]; intros Hes; simpl; [done|].
  unfold replay_step. rewrite Hes by by left. apply IH. intros; apply Hes. by right.
Qed.

Lemma wp_add_new_events run now old es (Q : unit -> Session -> Prop) s :
  old = rr_events (se_rows s) ->
  (forall i, i ∈ es -> ei_type i ∈ AGENT_EVENT_TYPES) ->
  (forall s', evolves unchanged s s' -> Q tt s') ->
  wp (add_events (new_events run now (stored_client_ids old) (last_sequence old) es)) Q s.
Proof.
  intros Hold Hty HQ. apply HQ. destruct (new_events_spec run now (stored_client_ids old) (last_sequence old) es)
    as (N1 & N2 & N3 & N4). split; [|done|split; [done|by eexists|done..|by left]].
  subst old. intros [Hs Hr Hc Hf Ha Hw]. split; try done; simpl.
  - apply sequenced_app. split; [done|]. by rewrite Z.add_0_l, <- last_sequence_length.
  - rewrite replay_app, Hr. apply replay_plain. intros e He. destruct (N4 e He) as (i & Hi & Het).
    unfold is_state_change. rewrite Het. apply String.eqb_neq, agent_type_plain.
    apply bool_decide_eq_true. by apply Hty.
  - rewrite stored_client_ids_app. apply NoDup_app. split_and!; [done| |done].
    intros c H1 H2. by apply N3 in H2.
Qed.

(** A clock reading, with the session it leaves. *)
Lemma wp_tick (Q : instant -> Session -> Prop) s :
  (evolves unchanged s (s <| se_tick ::= Datatypes.S |>) ->
   Q (wall (se_tick s)) (s <| se_tick ::= Datatypes.S |>)) -> wp utcnow Q s.
Proof. intros HQ. apply HQ. split; [done..|by apply frame_same]. Qed.

Lemma event_rejection_spec e validator s :
  wp (event_rejection e validator)
    (fun r s' => evolves unchanged s s' /\ rr_events (se_rows s') = rr_events (se_rows s) /\
                 (r = None -> ei_type e ∈ AGENT_EVENT_TYPES)) s.
Proof.
  unfold event_rejection. pose proof (evolves_refl s) as E0.
  apply wp_if; intros Hty; [by apply wp_ret|]. reflect_all.
  apply wp_if; intros Hsz; [by apply wp_ret|].
  destruct validator as [v|]; [|by apply wp_ret].
  wp_step. apply wp_gets. wp_step. destruct (ei_occurred_at e).
  - apply wp_ret. by destruct (take 5 _).
  - apply wp_tick. intros E1. by destruct (take 5 _).
Qed.

Lemma rejections_spec i es validator s :
  wp (rejections i es validator)
    (fun rs s' => evolves unchanged s s' /\ rr_events (se_rows s') = rr_events (se_rows s) /\
                  (rs = [] -> forall e, e ∈ es -> ei_type e ∈ AGENT_EVENT_TYPES)) s.
Proof.
  revert i s. induction es as [|e es IH]; intros i s; simpl.
  { apply wp_ret. split_and!; [by apply evolves_refl|done|set_solver]. }
  wp_step. eapply wp_mono; [apply event_rejection_spec|]. intros r s1 (E1 & V1 & T1).
  wp_step. eapply wp_mono; [apply IH|]. intros rs s2 (E2 & V2 & T2). apply wp_ret.
  split_and!; [exact (evolves_trans _ _ _ _ _ E1 E2)|congruence|].
  destruct r as [[c errs]|]; [done|]. intros -> x [->|Hx]%elem_of_cons; auto.
Qed.

Lemma record_agent_event_batch_kept n es validator s :
  run_inv s -> wp (record_agent_event_batch n es validator) (fun _ => kept s) s.
Proof.
  op_start s. unfold record_agent_event_batch, require_attempt. do 8 op_step.
  wp_step. eapply wp_mono; [apply rejections_spec|]. intros rs s1 (E1 & _ & T1).
  destruct rs; [|done]. absorb E1. wp_step. apply wp_gets. wp_step.
  match goal with |- wp utcnow ?Q ?s => apply (wp_tick Q s) end. intros E2. absorb E2. wp_step.
  apply wp_add_new_events; [done|by apply T1|]. intros s3 E3. absorb E3.
  apply wp_ret. settle.
Qed.
End ops1.
