(* ===== verification/Platform.v ===== *)
(** * The database and the operations that span tables

    The tables the services share, [lock_run]/[try_lock_run], [create_run] with its two
    partial unique indexes, and [audit.record].  A request is a transaction on the whole
    database ([PM]); an operation on one run is its session computation lifted by
    [with_run], which is the [SELECT ... FOR UPDATE] of the run row.  Transactions on the
    same run are serialised by that lock, so each is one atomic step. *)

From S2P Require Import Prelude TimeUtil Json Redaction SchemaGuard States Jobs RunModel RunService RunInv RunOps.
#[local] Open Scope Z_scope.

(** ** Rows of the other tables *)

Record AgentCatalogEntry := mkEntry {
  ent_agent_id : string;
  ent_name : string;
  ent_summary : string;
  ent_publisher : string;
  ent_current_version : string;
  ent_source : string;
  ent_trust_status : string
}.

#[export] Instance eta_Entry : Eta AgentCatalogEntry := fun r =>
  mkEntry (ent_agent_id r) (ent_name r) (ent_summary r) (ent_publisher r) (ent_current_version r)
    (ent_source r) (ent_trust_status r).

Record AgentVersion := mkVersion {
  ver_id : uuid;
  ver_agent_id : string;
  ver_version : string;
  ver_manifest : Json;
  ver_image_ref : string;
  ver_image_digest : string;
  ver_sdk_protocol : string;
  ver_architectures : list string
}.

Record AgentInstallation := mkInstallation {
  ins_id : uuid;
  ins_user_id : uuid;
  ins_agent_id : string;
  ins_agent_version_id : uuid;
  ins_approved_version_id : option uuid;
  ins_config : Json;
  ins_approved_permissions : Json;
  ins_model_bindings : Json;
  ins_needs_reapproval : bool;
  ins_enabled : bool;
  ins_version : Z;
  ins_deleted_at : option instant
}.

#[export] Instance eta_Installation : Eta AgentInstallation := fun r =>
  mkInstallation (ins_id r) (ins_user_id r) (ins_agent_id r) (ins_agent_version_id r) (ins_approved_version_id r)
    (ins_config r) (ins_approved_permissions r) (ins_model_bindings r) (ins_needs_reapproval r) (ins_enabled r)
    (ins_version r) (ins_deleted_at r).

Inductive MisfirePolicy := fire_once | skip.

#[export] Instance MisfirePolicy_eq_dec : EqDecision MisfirePolicy.
Proof. solve_decision. Defined.

Record Schedule := mkSchedule {
  sch_id : uuid;
  sch_installation_id : uuid;
  sch_cron : string;
  sch_timezone : string;
  sch_next_run_at : option instant;
  sch_misfire_policy : MisfirePolicy;
  sch_enabled : bool;
  sch_last_fired_at : option instant;
  sch_last_run_id : option uuid;
  sch_version : Z;
  sch_deleted_at : option instant
}.

#[export] Instance eta_Schedule : Eta Schedule := fun r =>
  mkSchedule (sch_id r) (sch_installation_id r) (sch_cron r) (sch_timezone r) (sch_next_run_at r)
    (sch_misfire_policy r) (sch_enabled r) (sch_last_fired_at r) (sch_last_run_id r) (sch_version r)
    (sch_deleted_at r).

Record AuditEvent := mkAudit {
  au_actor_type : string;
  au_actor_id : option string;
  au_action : string;
  au_target_type : option string;
  au_target_id : option string;
  au_outcome : string;
  au_metadata : Json
}.

Record DB := mkDB {
  db_runs : gmap uuid RunRows;
  db_jobs : JobQueue;
  db_installations : gmap uuid AgentInstallation;
  db_versions : gmap uuid AgentVersion;
  db_catalog : gmap string AgentCatalogEntry;
  db_schedules : gmap uuid Schedule;
  db_audit : list AuditEvent;
  db_tick : nat;
  db_fresh : uuid;
  db_now : instant
}.

#[export] Instance eta_DB : Eta DB := fun r =>
  mkDB (db_runs r) (db_jobs r) (db_installations r) (db_versions r) (db_catalog r) (db_schedules r)
    (db_audit r) (db_tick r) (db_fresh r) (db_now r).

Abbreviation PM := (Tx PlatformError DB).

(** An exception that is not a [PlatformError] ([KeyError], [AssertionError], ...): the
    request fails with status 500. *)
Definition UNEXPECTED : PlatformError := mkError "INTERNAL_ERROR" 500 [].

(** ** Sessions on one run *)

Definition open_session (d : DB) (rr : RunRows) : Session :=
  mkSession rr (db_jobs d) (db_tick d) (db_fresh d) (db_now d).

Definition close_session (d : DB) (rid : uuid) (s : Session) : DB :=
  d <| db_runs ::= <[rid := se_rows s]> |> <| db_jobs := se_jobs s |> <| db_tick := se_tick s |>
    <| db_fresh := se_fresh s |>.

(** [run = await lock_run(session, run_id)], then [op]. *)
Definition with_run {A} (rid : uuid) (op : RM A) : PM A := fun d =>
  match db_runs d !! rid with
  | None => Err (not_found (uuid_str rid))
  | Some rr =>
      match op (open_session d rr) with
      | Ok (a, s) => Ok (a, close_session d rid s)
      | Err e => Err e
      end
  end.

(** [run = await try_lock_run(session, run_id)]: skipped when the row is missing or another
    transaction holds its lock. *)
Definition with_run_nowait (locked : uuid -> bool) (rid : uuid) (op : RM unit) : PM unit := fun d =>
  match db_runs d !! rid with
  | None => Ok (tt, d)
  | Some _ => if locked rid then Ok (tt, d) else with_run rid op d
  end.

(** ** Audit *)

Definition record_audit (action actor_type : string) (target_type target_id : option string)
    (outcome : string) (metadata : option Json) : PM unit :=
  modify (fun d => d <| db_audit ::= fun l => l ++
    [mkAudit actor_type None action target_type target_id outcome
       (redact (match metadata with Some m => if truthy m then m else JObj [] | None => JObj [] end))] |>).

(** ** Creating runs *)

(** [d[key]] of a dict; a missing key is a [KeyError]. *)
Definition item (key : string) (v : Json) : PM Json :=
  match jget key v with Some x => ret x | None => raise UNEXPECTED end.

(** [int(x)] of a manifest number (manifests are schema-checked: these fields are integers). *)
Definition as_int (v : Json) : PM Z :=
  match v with JNum z => ret z | _ => raise UNEXPECTED end.

Record NewRunArgs := mkNewRun {
  nr_trigger : string;
  nr_created_by : option uuid;
  nr_schedule_id : option uuid;
  nr_scheduled_for : option instant;
  nr_parent_run_id : option uuid;
  nr_start_key : option string;
  nr_trigger_input : option Json
}.

(** The entries of a run in the two partial unique indexes (a NULL column never conflicts). *)
Definition occurrence (r : AgentRun) : option (uuid * instant) :=
  match run_schedule_id r, run_scheduled_for r with
  | Some s, Some t => Some (s, t)
  | _, _ => None
  end.
Definition agent_start (r : AgentRun) : option (uuid * string) :=
  match run_parent_run_id r, run_start_key r with
  | Some p, Some k => Some (p, k)
  | _, _ => None
  end.

Definition find_run (p : AgentRun -> bool) (d : DB) : option uuid :=
  fst <$> List.find (fun kv => p (rr_run kv.2)) (map_to_list (db_runs d)).

(** The run that the insert would duplicate, in the index it names in [ON CONFLICT]. *)
Definition duplicate_of (r : AgentRun) (d : DB) : option uuid :=
  match run_schedule_id r with
  | Some _ => match occurrence r with
              | Some o => find_run (fun r' => bool_decide (occurrence r' = Some o)) d
              | None => None
              end
  | None => match agent_start r with
            | Some a => find_run (fun r' => bool_decide (agent_start r' = Some a)) d
            | None => None
            end
  end.

(** A conflict in the index that [ON CONFLICT] does not name is an [IntegrityError]. *)
Definition violates (r : AgentRun) (d : DB) : bool :=
  match run_schedule_id r, agent_start r with
  | Some _, Some a =>
      bool_decide (is_Some (find_run (fun r' => bool_decide (agent_start r' = Some a)) d))
  | _, _ => false
  end.

Section create.
Context {clk : Clock}.

Definition db_utcnow : PM instant := fun d => Ok (wall (db_tick d), d <| db_tick ::= Datatypes.S |>).
Definition db_uuid7 : PM uuid := fun d => Ok (db_fresh d, d <| db_fresh ::= N.succ |>).

(** Returns the id of the run and whether this call created it. *)
Definition create_run (installation : AgentInstallation) (version : AgentVersion)
    (args : NewRunArgs) : PM (uuid * bool) :=
  let! spec := item "spec" (ver_manifest version) in
  let! resources := item "resources" spec in
  let! id := db_uuid7 in
  let! entered := db_utcnow in
  let! active_timeout := (let! v := item "activeTimeoutSeconds" resources in as_int v) in
  let! max_wait := as_int (default (JNum 86400) (jget "maxInputWaitSeconds" resources)) in
  let run := mkRun id (ins_id installation) (ver_id version) (nr_trigger args)
               (nr_schedule_id args) (nr_parent_run_id args) (nr_start_key args)
               (nr_trigger_input args) (nr_scheduled_for args) QUEUED entered 1
               (ins_config installation) (ins_approved_permissions installation)
               (ins_model_bindings installation) active_timeout max_wait 0 0 None None false
               None None (nr_created_by args) None None in
  let! d := get in
  match duplicate_of run d with
  | Some existing => ret (existing, false)
  | None =>
      guard (negb (violates run d)) UNEXPECTED ;;
      modify (fun d => d <| db_runs ::= <[id := mkRows run ∅ [] [] ∅]> |>) ;;
      with_run id (
        append_event "run.state_changed" (JObj [("from", JNull); ("to", JStr "QUEUED")]%string) ;;
        enqueue_job JOB_DISPATCH (run_payload id 1) (dispatch_key id 1)) ;;
      ret (id, true)
  end.
End create.

(** ** The platform invariant *)

(** [R] is what holds of every run's session; the invariant proper takes [run_inv]. *)
Record platform_facts (R : Session -> Prop) (d : DB) : Prop := mkPlatformFacts {
  pi_id : forall rid rr, db_runs d !! rid = Some rr -> run_id (rr_run rr) = rid;
  pi_fresh : forall rid rr, db_runs d !! rid = Some rr -> (rid < db_fresh d)%N;
  pi_run : forall rid rr, db_runs d !! rid = Some rr -> R (open_session d rr);
  pi_jobs : queue_ok (db_jobs d);
  pi_typed : jobs_typed (db_jobs d);
  pi_keys : forall k r, job_key_run k = Some r -> has_key k (db_jobs d) -> is_Some (db_runs d !! r);
  pi_occurrence : forall i j ri rj o, db_runs d !! i = Some ri -> db_runs d !! j = Some rj ->
    occurrence (rr_run ri) = Some o -> occurrence (rr_run rj) = Some o -> i = j;
  pi_start : forall i j ri rj a, db_runs d !! i = Some ri -> db_runs d !! j = Some rj ->
    agent_start (rr_run ri) = Some a -> agent_start (rr_run rj) = Some a -> i = j
}.

Arguments pi_id {_ _}. Arguments pi_fresh {_ _}. Arguments pi_run {_ _}.
Arguments pi_jobs {_ _}. Arguments pi_typed {_ _}. Arguments pi_keys {_ _}.

Definition platform_inv : DB -> Prop := platform_facts run_inv.

(** The keys a run's invariant speaks of belong to the run. *)
Lemma run_inv_jobs rr q q' t n w t' n' w' :
  (forall k, job_key_run k = Some (run_id (rr_run rr)) ->
     (has_live k q -> has_live k q') /\ (has_key k q' -> has_key k q)) ->
  queue_ok q' -> run_inv (mkSession rr q t n w) -> run_inv (mkSession rr q' t' n' w').
Proof.
  intros Hk Hq (L & B & S & [H1 H2]). split; [done|]. split; [|split].
  - destruct B as [B1 B2 B3 B4]. by split.
  - unfold settled in *. simpl in *. destruct (run_state (rr_run rr)); try done; destruct_and!;
      split_and!; try done; by apply Hk.
  - split; simpl in *; intros m Hm; [apply H1|apply H2]; by apply Hk.
Qed.

Lemma identity_keys r r' :
  run_identity r = run_identity r' -> occurrence r = occurrence r' /\ agent_start r = agent_start r'.
Proof.
  unfold run_identity, occurrence, agent_start. intros H.
  assert (run_schedule_id r = run_schedule_id r' /\ run_scheduled_for r = run_scheduled_for r' /\
          run_parent_run_id r = run_parent_run_id r' /\ run_start_key r = run_start_key r')
    as (-> & -> & -> & ->) by (split_and!; congruence).
  done.
Qed.

(** The database after a session on run [rid]: what must hold of that run and of the others. *)
Lemma close_session_facts (R R' : Session -> Prop) d rid rr s :
  platform_facts R d -> db_runs d !! rid = Some rr -> frame (open_session d rr) s ->
  queue_ok (se_jobs s) ->
  R' (open_session (close_session d rid s) (se_rows s)) ->
  (forall i ri, i <> rid -> db_runs d !! i = Some ri -> R (open_session d ri) ->
     R' (open_session (close_session d rid s) ri)) ->
  platform_facts R' (close_session d rid s).
Proof.
  intros [P1 P2 P3 P4 PT PK P5 P6] Hrid [FI FE FJ FN FG FK] Hq HR HO. simpl in *.
  pose proof (identity_keys _ _ FI) as [KO KS].
  assert (Hlook : forall i ri, <[rid := se_rows s]> (db_runs d) !! i = Some ri ->
    exists ri', db_runs d !! i = Some ri' /\ run_identity (rr_run ri) = run_identity (rr_run ri')).
  { intros i ri. rewrite lookup_insert. case_decide; [intros [= <-]; subst; eauto|eauto]. }
  split; try done.
  - intros i ri Hi. destruct (Hlook i ri Hi) as (ri' & Hi' & HI).
    rewrite (identity_id _ _ HI). by apply P1.
  - intros i ri Hi. destruct (Hlook i ri Hi) as (ri' & Hi' & _). apply P2 in Hi'. simpl. lia.
  - intros i ri. cbn [db_runs close_session update eta eta_DB]. rewrite lookup_insert.
    case_decide as Hii; [by intros [= <-]|]. intros Hi. apply (HO i); [congruence|done|]. by apply (P3 i).
  - by apply FG.
  - intros k r Hk Hin. simpl. rewrite lookup_insert. case_decide; [done|].
    apply FK in Hin as [Hin|Hin]; [by apply (PK k)|].
    rewrite (P1 _ _ Hrid) in Hin. congruence.
  - intros i j ri rj o Hi Hj Ho Ho'. destruct (Hlook i ri Hi) as (ri' & Hi' & HI).
    destruct (Hlook j rj Hj) as (rj' & Hj' & HJ).
    apply identity_keys in HI as [HI _], HJ as [HJ _]. apply (P5 i j ri' rj' o); congruence.
  - intros i j ri rj o Hi Hj Ho Ho'. destruct (Hlook i ri Hi) as (ri' & Hi' & HI).
    destruct (Hlook j rj Hj) as (rj' & Hj' & HJ).
    apply identity_keys in HI as [_ HI], HJ as [_ HJ]. apply (P6 i j ri' rj' o); congruence.
Qed.

(** ... and when the session kept the invariant of its run. *)
Lemma close_session_inv d rid rr s :
  platform_inv d -> db_runs d !! rid = Some rr -> kept (open_session d rr) s ->
  platform_inv (close_session d rid s).
Proof.
  intros P Hrid (F & I & _). assert (Hq : queue_ok (se_jobs s)) by (destruct I as (_ & [_ _ _ B] & _); exact B).
  eapply close_session_facts; [exact P|exact Hrid|exact F|exact Hq| |].
  - destruct s. by eapply run_inv_jobs; [| |exact I].
  - intros i ri Hii Hi HI. eapply run_inv_jobs; [|exact Hq|exact HI].
    intros k Hk. rewrite (pi_id P _ _ Hi) in Hk. pose proof (pi_id P _ _ Hrid) as Hid. split.
    + apply (frame_jobs _ _ F). simpl. congruence.
    + intros [H|H]%(frame_keys _ _ F); [done|]. simpl in H. congruence.
Qed.

(** What lasts of a run: its identity columns and the events it has logged. *)
Definition lasting (rr rr' : RunRows) : Prop :=
  run_identity (rr_run rr') = run_identity (rr_run rr) /\ rr_events rr `prefix_of` rr_events rr'.

#[export] Instance lasting_trans : Transitive lasting.
Proof. intros r1 r2 r3 [I1 E1] [I2 E2]. split; [congruence|by etrans]. Qed.

(** Every run of [d] is still there and has only moved forward; no job row was forgotten. *)
Record advances (d d' : DB) : Prop := mkAdvances {
  adv_runs : forall rid rr, db_runs d !! rid = Some rr ->
    exists rr', db_runs d' !! rid = Some rr' /\
      forward (view (open_session d rr)) (view (open_session d' rr')) /\ lasting rr rr';
  adv_idents : idents (db_jobs d) ⊆ idents (db_jobs d')
}.

#[export] Instance advances_trans : Transitive advances.
Proof.
  intros d1 d2 d3 [R1 I1] [R2 I2]. split; [|by etrans].
  intros rid rr H. destruct (R1 rid rr H) as (rr' & H' & F1 & L1).
  destruct (R2 rid rr' H') as (rr'' & H'' & F2 & L2).
  exists rr''. split; [done|]. split; [by eapply forward_trans|by etrans].
Qed.

Lemma forward_same v v' :
  v_attempt v' = v_attempt v -> v_state v' = v_state v -> forward v v'.
Proof. intros H1 H2. unfold forward. rewrite H1, H2. split_and!; [lia|done|done]. Qed.

(** Same runs, and no job row forgotten. *)
Lemma advances_same d d' :
  db_runs d' = db_runs d -> idents (db_jobs d) ⊆ idents (db_jobs d') -> advances d d'.
Proof.
  intros HR HI. split; [|done]. intros rid rr H. exists rr. rewrite HR. split; [done|].
  split; [by apply forward_same|done].
Qed.

Lemma close_session_advances d rid rr s :
  db_runs d !! rid = Some rr -> frame (open_session d rr) s ->
  forward (view (open_session d rr)) (view s) -> advances d (close_session d rid s).
Proof.
  intros Hrid F M. split; [|apply F]. intros i ri Hi. simpl. destruct (decide (rid = i)) as [->|Hne].
  - exists (se_rows s). rewrite lookup_insert_eq. split; [done|].
    assert (ri = rr) as -> by congruence. split; [done|]. split; apply F.
  - exists ri. rewrite lookup_insert_ne by done. split; [done|]. split; [by apply forward_same|done].
Qed.

(** Operations that keep the invariant of any run they are applied to. *)
Definition run_safe {A} (op : RM A) : Prop := forall s, run_inv s -> wp op (fun _ => kept s) s.

Lemma with_run_inv {A} rid (op : RM A) d :
  run_safe op -> platform_inv d ->
  wp (with_run rid op) (fun _ d' => platform_inv d' /\ advances d d') d.
Proof.
  intros Hop P. unfold wp, with_run. destruct (db_runs d !! rid) as [rr|] eqn:Hrid; [|done].
  specialize (Hop _ (pi_run P _ _ Hrid)). unfold wp in Hop.
  destruct (op _) as [[a s]|e]; [|done]. split; [by eapply close_session_inv|].
  destruct Hop as (F & _ & M). by eapply close_session_advances.
Qed.

(** Changes of columns the invariant does not read. *)
Lemma platform_inv_same d d' :
  db_runs d' = db_runs d -> db_jobs d' = db_jobs d -> (db_fresh d <= db_fresh d')%N ->
  platform_inv d -> platform_inv d'.
Proof.
  intros HR HJ HF [P1 P2 P3 P4 PT PK P5 P6]. split; rewrite ?HR, ?HJ; try done.
  - intros i ri Hi. apply P2 in Hi. lia.
  - intros i ri Hi. unfold open_session. rewrite HJ. eapply run_inv_jobs; [done|done|]. by apply (P3 i).
Qed.

Lemma find_run_none p d rid rr :
  find_run p d = None -> db_runs d !! rid = Some rr -> p (rr_run rr) = false.
Proof.
  unfold find_run. intros Hf Hr. apply fmap_None in Hf.
  apply elem_of_map_to_list, list_elem_of_In in Hr. exact (find_none _ _ Hf _ Hr).
Qed.

Lemma find_run_some p d rid :
  find_run p d = Some rid -> exists rr, db_runs d !! rid = Some rr /\ p (rr_run rr) = true.
Proof.
  unfold find_run. intros Hf. apply fmap_Some in Hf as ([i rr] & Hf & ->). apply find_some in Hf as [Hin Hp].
  exists rr. split; [|done]. by apply elem_of_map_to_list, list_elem_of_In.
Qed.

Section create_facts.
Context {clk : Clock}.

(** A fresh row: queued, first attempt, nothing accounted, nothing finished. *)
Definition fresh_run (id : uuid) (r : AgentRun) : Prop :=
  run_id r = id /\ run_state r = QUEUED /\ run_current_attempt r = 1 /\ run_active_used r = 0 /\
  run_input_wait_used r = 0 /\ run_finished_at r = None.

Definition first_steps (id : uuid) : RM unit :=
  append_event "run.state_changed" (JObj [("from", JNull); ("to", JStr "QUEUED")]%string) ;;
  enqueue_job JOB_DISPATCH (run_payload id 1) (dispatch_key id 1).

Lemma first_steps_inv id r q t n w :
  fresh_run id r -> queue_ok q -> (forall k, job_key_run k = Some id -> ~ has_key k q) ->
  wp (first_steps id) (fun _ s' => run_inv s' /\ rr_run (se_rows s') = r /\
      (forall k, has_live k q -> has_live k (se_jobs s')) /\ (n <= se_fresh s')%N /\
      length (rr_events (se_rows s')) = 1%nat /\
      jobs_grow q (se_jobs s') /\
      (forall k, has_key k (se_jobs s') -> has_key k q \/ job_key_run k = Some id))
    (mkSession (mkRows r ∅ [] [] ∅) q t n w).
Proof.
  intros (Hid & Hst & Hatt & Hau & Hiu & Hfin) Hq Hno. unfold wp; simpl.
  split_and!; [|done|intros; by apply enqueue_keeps_live|lia|done|by apply enqueue_grow|
    intros k [H|[= <-]]%enqueue_key; by auto].
  split; [|split; [|split]].
  - split; simpl; rewrite ?Hst, ?Hfin, ?Hau, ?Hiu; try done.
    + intros [|i] e He; [by injection He as <-|done].
    + apply NoDup_nil_2.
    + split; [by intros []|]. intros Hin. exfalso. unfold TERMINAL_STATES in Hin. set_solver.
  - split; simpl; [by rewrite Hatt|done|apply NoDup_nil_2|by apply enqueue_ok].
  - unfold settled; simpl. rewrite Hst, Hid, Hatt. split; [done|]. apply enqueue_has_live.
  - split; simpl; intros m [H|H]%enqueue_key; rewrite ?Hid in H;
      try (exfalso; by eapply Hno, H); [injection H as <-; lia|done].
Qed.

#[local] Opaque first_steps.

(** Adding a row under a fresh id, together with its first event and dispatch job. *)
Lemma insert_run_inv d id r :
  platform_inv d -> fresh_run id r -> (id < db_fresh d)%N -> db_runs d !! id = None ->
  duplicate_of r d = None -> violates r d = false ->
  wp (with_run id (first_steps id))
    (fun _ d' => platform_inv d' /\
      (exists rr, db_runs d' !! id = Some rr /\ rr_run rr = r /\ length (rr_events rr) = 1%nat) /\
      (forall i, i <> id -> db_runs d' !! i = db_runs d !! i) /\
      idents (db_jobs d) ⊆ idents (db_jobs d'))
    (d <| db_runs ::= <[id := mkRows r ∅ [] [] ∅]> |>).
Proof.
  intros [P1 P2 P3 P4 PT PK P5 P6] Hr Hlt Hnone Hdup Hvio. unfold wp, with_run. simpl.
  rewrite lookup_insert_eq.
  assert (Hno : forall k, job_key_run k = Some id -> ~ has_key k (db_jobs d)).
  { intros k Hk Hin. apply (PK _ _ Hk) in Hin. rewrite Hnone in Hin. by destruct Hin. }
  pose proof (first_steps_inv id r (db_jobs d) (db_tick d) (db_fresh d) (db_now d) Hr P4 Hno) as HF.
  unfold wp in HF. unfold open_session; simpl.
  destruct (first_steps id _) as [[u s]|e] eqn:Hs; [|done].
  destruct HF as (I & Hrun & HL & HN & Hone & HG & HK).
  match goal with |- platform_inv ?x /\ _ => set (d2 := x) end.
  assert (HR : db_runs d2 = <[id := se_rows s]> (db_runs d)) by apply insert_insert_eq.
  assert (HJ : db_jobs d2 = se_jobs s) by done. assert (HFr : db_fresh d2 = se_fresh s) by done.
  clearbody d2.
  assert (Hocc : forall i ri o, db_runs d !! i = Some ri -> occurrence (rr_run ri) = Some o ->
    occurrence r = Some o -> False).
  { intros i ri o Hi Ho Hro. unfold duplicate_of in Hdup. rewrite Hro in Hdup.
    unfold occurrence in Hro. destruct (run_schedule_id r); [|done].
    apply (find_run_none _ _ _ _ Hdup) in Hi. by rewrite bool_decide_eq_true_2 in Hi. }
  assert (Hsta : forall i ri a, db_runs d !! i = Some ri -> agent_start (rr_run ri) = Some a ->
    agent_start r = Some a -> False).
  { intros i ri a Hi Ha Hra. unfold duplicate_of, violates in *. rewrite Hra in *.
    assert (Hf : find_run (fun r' => bool_decide (agent_start r' = Some a)) d = None).
    { destruct (run_schedule_id r); [|done]. apply bool_decide_eq_false in Hvio.
      by apply eq_None_not_Some. }
    apply (find_run_none _ _ _ _ Hf) in Hi. by rewrite bool_decide_eq_true_2 in Hi. }
  split; [|split].
  - split; unfold open_session; rewrite ?HR, ?HJ, ?HFr.
    + intros i ri. rewrite lookup_insert. case_decide; [intros [= <-]; rewrite Hrun; destruct Hr; congruence|apply P1].
    + intros i ri. rewrite lookup_insert. case_decide; [intros _; subst i; lia|].
      intros Hi. apply P2 in Hi. lia.
    + assert (Hq : queue_ok (se_jobs s)) by (destruct I as (_ & [_ _ _ B] & _); exact B).
      intros i ri. rewrite lookup_insert. case_decide.
      * intros [= <-]. destruct s. by eapply run_inv_jobs; [| |exact I].
      * intros Hi. eapply run_inv_jobs; [|done|exact (P3 _ _ Hi)].
        rewrite (P1 _ _ Hi). intros k Hk. split; [by apply HL|].
        intros [H'|H']%HK; [done|congruence].
    + destruct I as (_ & [_ _ _ B] & _). exact B.
    + by apply HG.
    + intros k r' Hk [Hin|Hin]%HK; rewrite lookup_insert; case_decide; try done;
        [by apply (PK k)|congruence].
    + intros i j ri rj o. rewrite !lookup_insert. repeat case_decide; try congruence.
      * intros [= <-] Hj Ho Ho'. rewrite Hrun in Ho. by exfalso; eapply Hocc.
      * intros Hi [= <-] Ho Ho'. rewrite Hrun in Ho'. by exfalso; eapply Hocc.
      * eauto.
    + intros i j ri rj a. rewrite !lookup_insert. repeat case_decide; try congruence.
      * intros [= <-] Hj Ha Ha'. rewrite Hrun in Ha. by exfalso; eapply Hsta.
      * intros Hi [= <-] Ha Ha'. rewrite Hrun in Ha'. by exfalso; eapply Hsta.
      * eauto.
  - exists (se_rows s). rewrite HR, lookup_insert_eq. done.
  - split; [|rewrite HJ; apply HG]. intros i Hi. by rewrite HR, lookup_insert_ne.
Qed.
Definition args_occurrence (args : NewRunArgs) : option (uuid * instant) :=
  match nr_schedule_id args, nr_scheduled_for args with
  | Some s, Some t => Some (s, t) | _, _ => None
  end.
Definition args_start (args : NewRunArgs) : option (uuid * string) :=
  match nr_parent_run_id args, nr_start_key args with
  | Some p, Some k => Some (p, k) | _, _ => None
  end.

(** What [create_run] promises: a new queued run with the installation's snapshots, or
    the run that already has the requested occurrence or start key, with nothing changed. *)
Definition created_run (ins : AgentInstallation) (args : NewRunArgs) (d : DB) (res : uuid * bool)
    (d' : DB) : Prop :=
  let '(id, created) := res in
  if created then
    db_runs d !! id = None /\ (forall i, i <> id -> db_runs d' !! i = db_runs d !! i) /\
    exists rr, db_runs d' !! id = Some rr /\ fresh_run id (rr_run rr) /\
      run_permissions_snapshot (rr_run rr) = ins_approved_permissions ins /\
      run_model_bindings (rr_run rr) = ins_model_bindings ins /\
      run_config_snapshot (rr_run rr) = ins_config ins /\
      run_installation_id (rr_run rr) = ins_id ins /\
      occurrence (rr_run rr) = args_occurrence args /\ agent_start (rr_run rr) = args_start args
  else
    db_runs d' = db_runs d /\ db_jobs d' = db_jobs d /\
    exists rr, db_runs d !! id = Some rr /\
      match nr_schedule_id args with
      | Some _ => is_Some (args_occurrence args) /\ occurrence (rr_run rr) = args_occurrence args
      | None => is_Some (args_start args) /\ agent_start (rr_run rr) = args_start args
      end.

Lemma duplicate_of_spec r d id :
  duplicate_of r d = Some id ->
  exists rr, db_runs d !! id = Some rr /\
    match run_schedule_id r with
    | Some _ => is_Some (occurrence r) /\ occurrence (rr_run rr) = occurrence r
    | None => is_Some (agent_start r) /\ agent_start (rr_run rr) = agent_start r
    end.
Proof.
  unfold duplicate_of. destruct (run_schedule_id r).
  - destruct (occurrence r) as [o|]; [|done]. intros (rr & Hr & Ho)%find_run_some.
    exists rr. split; [done|]. split; [done|]. by apply bool_decide_eq_true in Ho.
  - destruct (agent_start r) as [o|]; [|done]. intros (rr & Hr & Ho)%find_run_some.
    exists rr. split; [done|]. split; [done|]. by apply bool_decide_eq_true in Ho.
Qed.

Lemma wp_db_uuid7 (Q : uuid -> DB -> Prop) d :
  Q (db_fresh d) (d <| db_fresh ::= N.succ |>) -> wp db_uuid7 Q d.
Proof. done. Qed.
Lemma wp_db_utcnow (Q : instant -> DB -> Prop) d :
  Q (wall (db_tick d)) (d <| db_tick ::= Datatypes.S |>) -> wp db_utcnow Q d.
Proof. done. Qed.
Lemma wp_item k v (Q : Json -> DB -> Prop) d : (forall x, Q x d) -> wp (item k v) Q d.
Proof. intros HQ. unfold item. destruct (jget k v); [apply HQ|done]. Qed.
Lemma wp_as_int v (Q : Z -> DB -> Prop) d : (forall x, Q x d) -> wp (as_int v) Q d.
Proof. intros HQ. unfold as_int. destruct v; try done; apply HQ. Qed.

Lemma create_run_spec ins ver args d :
  platform_inv d ->
  wp (create_run ins ver args)
    (fun res d' => platform_inv d' /\ created_run ins args d res d' /\ advances d d') d.
Proof.
  intros P. unfold create_run.
  do 2 (wp_step; apply wp_item; intros ?). wp_step; apply wp_db_uuid7. wp_step; apply wp_db_utcnow.
  do 2 wp_step. apply wp_item; intros ?. apply wp_as_int; intros act.
  wp_step; apply wp_as_int; intros mw. cbv zeta. wp_step; apply wp_get.
  match goal with |- context [duplicate_of ?x ?y] => set (r := x); set (d1 := y) end.
  assert (P' : platform_inv d1) by (eapply platform_inv_same; [..|exact P]; try done; simpl; lia).
  destruct (duplicate_of r d1) as [ex|] eqn:Hdup.
  { apply wp_ret. split; [done|]. split; [by apply duplicate_of_spec in Hdup|by apply advances_same]. }
  wp_step. apply wp_guard; intros Hvio. wp_step. apply wp_modify. wp_step.
  assert (Hnone : db_runs d !! db_fresh d = None).
  { destruct (db_runs d !! db_fresh d) eqn:E; [|done]. apply (pi_fresh P) in E. lia. }
  eapply wp_mono; [apply (insert_run_inv d1 (db_fresh d) r); try done|].
  - simpl. lia.
  - by apply negb_true_iff in Hvio.
  - intros u d' (PI & (rr & Hrr & Hrun & _) & Hoth & Hids). apply wp_ret. split; [done|]. split.
    + split_and!; [done|done|]. exists rr. rewrite Hrun. by split_and!.
    + split; [|done]. intros i ri Hi. exists ri. rewrite Hoth by congruence.
      split; [done|]. split; [by apply forward_same|done].
Qed.
End create_facts.
