(* ===== verification/Capability.v ===== *)
(** * Capability tokens ([capability.py]) and the broker's checks ([auth.py])

    Translation of approved permissions into capability strings, minting and verifying
    tokens, the run view the control API gives the broker ([internal_run]), and
    [authorize].  PyJWT is a parameter: [Jwt] has its two functions and [JwtLaws] the
    documented behaviour the code relies on. *)

From S2P Require Import Prelude TimeUtil Json Redaction SchemaGuard States Jobs RunModel RunService RunInv.
From S2P Require Import RunOps Platform.
#[local] Open Scope Z_scope.

Definition AUDIENCE : string := "crewquarters-broker".
Definition ISSUER : string := "crewquarters-control-api".

(** ** PyJWT *)

(** [jwt.encode(payload, key, algorithm="HS256")] and [jwt.decode(token, key, algorithms=
    ["HS256"], audience=, issuer=, options={"require": ["exp", "iat", "jti", "aud", "iss"]})]
    at time [now]; [None] is [InvalidTokenError]. *)
Class Jwt := {
  Token : Type;
  token_text : Token -> string;
  jwt_encode : Json -> string -> Token;
  jwt_decode : Token -> string -> string -> string -> instant -> option Json
}.

Class JwtLaws (J : Jwt) := {
  (* a token encoded with the key decodes to its payload while it is valid *)
  jwt_roundtrip : forall p key aud iss now iat exp jti sub,
    jget "iss" p = Some (JStr iss) -> jget "aud" p = Some (JStr aud) ->
    jget "iat" p = Some (JNum iat) -> seconds iat <= now ->
    jget "exp" p = Some (JNum exp) -> now < seconds exp ->
    jget "jti" p = Some (JStr jti) -> jget "sub" p = Some (JStr sub) ->
    jwt_decode (jwt_encode p key) key aud iss now = Some p;
  (* an expired token does not decode *)
  jwt_expiry : forall t key aud iss now p,
    jwt_decode t key aud iss now = Some p ->
    exists exp, jget "exp" p = Some (JNum exp) /\ now < seconds exp
}.

(** ** Capabilities of a permission block *)

(** The strings of a JSON array; anything else is outside the manifest schema and raises. *)
Definition json_string (v : Json) : option string := match v with JStr s => Some s | _ => None end.
Definition strings_of (v : Json) : option (list string) :=
  match v with JList l => mapM json_string l | _ => None end.

(** [d.get(key, [])] and [d.get(key, []) or []], to iterate over. *)
Definition get_list (key : string) (d : Json) : option (list string) :=
  match jget key d with Some v => strings_of v | None => Some [] end.
Definition get_list_or (key : string) (d : Json) : option (list string) :=
  match jget key d with
  | Some v => if truthy v then strings_of v else Some []
  | None => Some []
  end.
(** [d.get(key) or {}] *)
Definition get_dict_or (key : string) (d : Json) : Json :=
  match jget key d with Some v => if truthy v then v else JObj [] | None => JObj [] end.

(** [sorted(set(xs))]. *)
Fixpoint insert_sorted (x : string) (l : list string) : list string :=
  match l with
  | [] => [x]
  | y :: l' => if String.eqb x y then l
               else if String.leb x y then x :: l else y :: insert_sorted x l'
  end.
Definition sorted_set (xs : list string) : list string := foldr insert_sorted [] xs.

(** [bindings.get(profile, profile)] *)
Definition bound_profile (bindings : Json) (profile : string) : option string :=
  match jget profile bindings with
  | None => Some profile
  | Some (JStr m) => Some m
  | Some _ => None
  end.

Definition prefixed (prefix : string) (xs : list string) : list string :=
  map (fun x => prefix +:+ x)%string xs.

Definition capabilities_from_permissions (permissions model_bindings : Json) : option (list string) :=
  let bindings := if truthy model_bindings then model_bindings else JObj [] in
  profiles ← get_list "llmProfiles" permissions;
  models ← mapM (bound_profile bindings) profiles;
  kbs ← get_list "knowledge" permissions;
  let connectors := get_dict_or "connectors" permissions in
  google ← get_list "google" connectors;
  twilio ← get_list "twilio" connectors;
  sip ← get_list "sip" connectors;
  github ← get_list "github" connectors;
  agents ← get_list_or "startsAgents" permissions;
  cloud ← get_list "cloudProviders" permissions;
  Some (sorted_set (
    prefixed "llm.profile:" models ++ prefixed "knowledge.search:" kbs ++
    prefixed "google." google ++ prefixed "twilio." twilio ++ prefixed "sip." sip ++
    prefixed "github." github ++ prefixed "agents.start:" agents ++ prefixed "cloud." cloud ++
    (if otruthy (jget "userInput" permissions) then ["user_input"]%string else []) ++
    ["events.write"; "idempotency"]%string)).

(** ** Minting and verifying *)

Record CapabilityClaims := mkClaims {
  cl_token_id : string;
  cl_run_id : string;
  cl_attempt : Z;
  cl_installation_id : string;
  cl_agent_version_id : string;
  cl_capabilities : list string;
  cl_resources : Json;
  cl_issued_at : instant;
  cl_expires_at : instant
}.

#[export] Instance eta_Claims : Eta CapabilityClaims := fun r =>
  mkClaims (cl_token_id r) (cl_run_id r) (cl_attempt r) (cl_installation_id r) (cl_agent_version_id r)
    (cl_capabilities r) (cl_resources r) (cl_issued_at r) (cl_expires_at r).

(** [int(t.timestamp())]. *)
Definition timestamp (t : instant) : Z := Z.quot t 1000000.

(** [datetime.fromtimestamp(x, UTC)]: years 1 to 9999. *)
Definition fromtimestamp (v : option Json) : option instant :=
  match v with
  | Some (JNum z) => if (-62135596800 <=? z) && (z <=? 253402300799) then Some (seconds z) else None
  | _ => None
  end.

Definition py_sorted (xs : list string) : list string :=
  let insert := fix insert (x : string) (l : list string) : list string :=
    match l with [] => [x] | y :: l' => if String.leb x y then x :: l else y :: insert x l' end in
  foldr insert [] xs.

Section tokens.
Context {J : Jwt}.

(** [issued] is [now or utcnow()]; [token_id] is [uuid.uuid4().hex]. *)
Definition mint_claims (run_id : uuid) (attempt : Z) (installation_id agent_version_id : uuid)
    (capabilities : list string) (resources : option Json) (ttl_seconds : Z)
    (issued : instant) (token_id : string) : CapabilityClaims :=
  mkClaims token_id (uuid_str run_id) attempt (uuid_str installation_id)
    (uuid_str agent_version_id) (py_sorted capabilities)
    (match resources with Some r => if truthy r then r else JObj [] | None => JObj [] end)
    issued (issued + seconds ttl_seconds).

Definition claims_payload (run_id : uuid) (c : CapabilityClaims) : Json :=
  JObj [("iss", JStr ISSUER); ("aud", JStr AUDIENCE); ("jti", JStr (cl_token_id c));
        ("sub", JStr ("run:" +:+ uuid_str run_id)); ("iat", JNum (timestamp (cl_issued_at c)));
        ("exp", JNum (timestamp (cl_expires_at c))); ("run", JStr (cl_run_id c));
        ("att", JNum (cl_attempt c)); ("ins", JStr (cl_installation_id c));
        ("ver", JStr (cl_agent_version_id c)); ("cap", JList (map JStr (cl_capabilities c)));
        ("res", cl_resources c)]%string.

Definition mint (signing_key : string) (run_id : uuid) (attempt : Z)
    (installation_id agent_version_id : uuid) (capabilities : list string)
    (resources : option Json) (ttl_seconds : Z) (issued : instant) (token_id : string)
    : Token * CapabilityClaims :=
  let claims := mint_claims run_id attempt installation_id agent_version_id capabilities resources
                  ttl_seconds issued token_id in
  (jwt_encode (claims_payload run_id claims) signing_key, claims).

Definition is_dict (v : Json) : option Json := match v with JObj _ => Some v | _ => None end.
Definition json_int (v : Json) : option Z := match v with JNum z => Some z | _ => None end.

(** The claims of a decoded payload; [None] is "malformed capability claims". *)
Definition read_claims (data : Json) : option CapabilityClaims :=
  cap ← jget "cap" data ≫= strings_of;
  res ← is_dict (match jget "res" data with Some r => if truthy r then r else JObj [] | None => JObj [] end);
  attempt ← jget "att" data ≫= json_int;
  jti ← jget "jti" data ≫= json_string;
  run ← jget "run" data ≫= json_string;
  ins ← jget "ins" data ≫= json_string;
  ver ← jget "ver" data ≫= json_string;
  issued ← fromtimestamp (jget "iat" data);
  expires ← fromtimestamp (jget "exp" data);
  Some (mkClaims jti run attempt ins ver cap res issued expires).

(** [None] is [jwt.InvalidTokenError]. *)
Definition verify (token : Token) (signing_key : string) (now : instant) : option CapabilityClaims :=
  jwt_decode token signing_key AUDIENCE ISSUER now ≫= read_claims.
End tokens.

(** ** The run view of the control API ([internal_run])

    The two remaining-seconds fields are floats and the creation time is a timestamp that the
    broker does not read. *)
Definition opt_json {A} (f : A -> Json) (o : option A) : Json :=
  match o with Some a => f a | None => JNull end.

Definition internal_run_view (rr : RunRows) (version : AgentVersion) : Json :=
  let run := rr_run rr in
  JObj [("id", JStr (uuid_str (run_id run))); ("state", JStr (state_str (run_state run)));
        ("currentAttempt", JNum (run_current_attempt run));
        ("installationId", JStr (uuid_str (run_installation_id run)));
        ("trigger", JStr (run_trigger run));
        ("parentRunId", opt_json (fun u => JStr (uuid_str u)) (run_parent_run_id run));
        ("triggerInput", default JNull (run_trigger_input run));
        ("scheduledFor", opt_json (fun t => JStr (isoformat t)) (run_scheduled_for run));
        ("agentId", JStr (ver_agent_id version)); ("agentVersion", JStr (ver_version version));
        ("agentVersionId", JStr (uuid_str (ver_id version)));
        ("activeTimeoutSeconds", JNum (run_active_timeout_seconds run));
        ("maxInputWaitSeconds", JNum (run_max_input_wait_seconds run));
        ("cancelRequested", JBool (bool_decide (is_Some (run_cancel_requested_at run))));
        ("capabilityTokenId",
          match rr_attempts rr !! run_current_attempt run with
          | Some a => opt_json JStr (att_capability_token_id a)
          | None => JNull
          end);
        ("permissions", run_permissions_snapshot run);
        ("modelBindings", run_model_bindings run);
        ("config", run_config_snapshot run)]%string.

(** [GET /internal/v1/runs/{run_id}]. *)
Definition internal_run (d : DB) (rid : string) : Result PlatformError Json :=
  match List.find (fun kv => String.eqb (uuid_str kv.1) rid) (map_to_list (db_runs d)) with
  | None => Err (not_found rid)
  | Some (_, rr) =>
      match db_versions d !! run_agent_version_id (rr_run rr) with
      | None => Err UNEXPECTED
      | Some version => Ok (internal_run_view rr version)
      end
  end.

(** ** [authorize] *)

Definition unauthenticated : PlatformError := mkError "UNAUTHENTICATED" 401 [].
Definition capability_denied (cap : string) : PlatformError :=
  mkError "CAPABILITY_DENIED" 403 [("capability", JStr cap)]%string.
Definition permission_denied (details : list (string * Json)) : PlatformError :=
  mkError "PERMISSION_DENIED" 403 details.

Section broker.
Context {J : Jwt}.

Record Grant := mkGrant {
  gr_claims : CapabilityClaims;
  gr_run : Json;
  gr_capabilities : list string;
  gr_token : Token
}.

(** [run.get(key) != value] for a string and for a number. *)
Definition is_str (s : string) (v : option Json) : bool :=
  match v with Some (JStr t) => String.eqb t s | _ => false end.
Definition is_num (n : Z) (v : option Json) : bool :=
  match v with Some (JNum m) => m =? n | _ => false end.

Definition view_state (run : Json) : option RunState :=
  match jget "state" run with Some (JStr s) => parse_state s | _ => None end.
Definition state_in (l : list RunState) (run : Json) : bool :=
  match view_state run with Some s => mem s l | None => false end.

Definition authorize (token : Token) (signing_key : string) (now : instant)
    (get_run : string -> Result PlatformError Json) (allow_finished : bool)
    : Result PlatformError Grant :=
  match verify token signing_key now with
  | None => Err unauthenticated
  | Some claims =>
      match get_run (cl_run_id claims) with
      | Err e => if err_status e =? 404 then Err unauthenticated else Err e
      | Ok run =>
          if negb (is_str (cl_token_id claims) (jget "capabilityTokenId" run))
             || negb (is_num (cl_attempt claims) (jget "currentAttempt" run))
             || negb (is_str (cl_installation_id claims) (jget "installationId" run))
          then Err unauthenticated
          else
            let finished := allow_finished && state_in TERMINAL_STATES run in
            if negb (state_in ACTIVE_STATES run) && negb finished then
              Err (mkError "RUN_NOT_ACTIVE" 409 [])
            else
              match capabilities_from_permissions (get_dict_or "permissions" run)
                      (get_dict_or "modelBindings" run) with
              | None => Err UNEXPECTED
              | Some approved =>
                  Ok (mkGrant claims run
                        (List.filter (fun c => bool_decide (c ∈ approved)) (cl_capabilities claims))
                        token)
              end
      end
  end.

(** [Grant.require]. *)
Definition require (g : Grant) (cap : string) (baseline : bool) : Result PlatformError unit :=
  if negb (bool_decide (cap ∈ gr_capabilities g)) then Err (capability_denied cap)
  else if negb baseline && otruthy (jget "cancelRequested" (gr_run g)) then
    Err (mkError "RUN_CANCELLED" 409 [])
  else Ok tt.

(** [Grant.configured]. *)
Definition configured (g : Grant) (key : string) (requested : option string)
    : Result PlatformError string :=
  match jget key (get_dict_or "config" (gr_run g)) with
  | Some (JStr value) =>
      if String.eqb value "" then Err (mkError "NEEDS_CONFIGURATION" 409 [("key", JStr key)]%string)
      else match requested with
           | Some r => if String.eqb r value then Ok value
                       else Err (permission_denied [("key", JStr key)]%string)
           | None => Ok value
           end
  | _ => Err (mkError "NEEDS_CONFIGURATION" 409 [("key", JStr key)]%string)
  end.
End broker.

(** ** Facts *)

Lemma insert_sorted_elem x y l : x ∈ insert_sorted y l <-> x = y \/ x ∈ l.
Proof.
  induction l as [|z l IH]; simpl; [set_solver|].
  destruct (String.eqb y z) eqn:E; [apply String.eqb_eq in E as ->; set_solver|].
  destruct (String.leb y z); set_solver.
Qed.

Lemma sorted_set_elem x l : x ∈ sorted_set l <-> x ∈ l.
Proof.
  induction l as [|y l IH]; simpl; [set_solver|]. rewrite insert_sorted_elem. set_solver.
Qed.

Lemma prefixed_elem p xs c : c ∈ prefixed p xs <-> exists x, x ∈ xs /\ c = (p +:+ x)%string.
Proof. unfold prefixed. rewrite list_elem_of_fmap. naive_solver. Qed.

Lemma py_sorted_elem x l : x ∈ py_sorted l <-> x ∈ l.
Proof.
  unfold py_sorted.
  set (ins := fix insert (x : string) (l : list string) : list string :=
    match l with [] => [x] | y :: l' => if String.leb x y then x :: l else y :: insert x l' end).
  assert (Hins : forall y l, x ∈ ins y l <-> x = y \/ x ∈ l).
  { intros y l'. induction l' as [|z l' IH]; simpl; [set_solver|]. destruct (String.leb y z); set_solver. }
  induction l as [|y l IH]; simpl; [set_solver|]. rewrite Hins. set_solver.
Qed.

(** The vocabulary of capabilities as a relation: which strings a permission block grants. *)
Section vocabulary.
Context (permissions bindings : Json).

Definition lists (d : Json) (key item : string) : Prop :=
  exists l, jget key d = Some (JList l) /\ JStr item ∈ l.

Inductive grants : string -> Prop :=
| grant_llm profile model :
    lists permissions "llmProfiles" profile -> bound_profile bindings profile = Some model ->
    grants ("llm.profile:" +:+ model)
| grant_knowledge kb : lists permissions "knowledge" kb -> grants ("knowledge.search:" +:+ kb)
| grant_connector provider op :
    provider ∈ ["google"; "twilio"; "sip"; "github"]%string ->
    lists (get_dict_or "connectors" permissions) provider op -> grants (provider +:+ "." +:+ op)
| grant_agent agent : lists permissions "startsAgents" agent -> grants ("agents.start:" +:+ agent)
| grant_cloud provider : lists permissions "cloudProviders" provider -> grants ("cloud." +:+ provider)
| grant_input : otruthy (jget "userInput" permissions) = true -> grants "user_input"
| grant_events : grants "events.write"
| grant_idempotency : grants "idempotency".
End vocabulary.

Lemma strings_of_elem v xs x :
  strings_of v = Some xs -> x ∈ xs <-> exists l, v = JList l /\ JStr x ∈ l.
Proof.
  destruct v as [| | | |l|]; try done. simpl. intros Hm. apply mapM_Some in Hm.
  transitivity (JStr x ∈ l); [|naive_solver].
  induction Hm as [|v y l xs Hv Hm IH]; [set_solver|]. destruct v; simplify_eq/=.
  rewrite !elem_of_cons, IH. naive_solver.
Qed.

Lemma get_list_elem key d xs x : get_list key d = Some xs -> x ∈ xs <-> lists d key x.
Proof.
  unfold get_list, lists. destruct (jget key d) as [v|].
  - intros Hs. rewrite (strings_of_elem _ _ _ Hs). naive_solver.
  - intros [= <-]. set_solver.
Qed.

Lemma get_list_or_elem key d xs x : get_list_or key d = Some xs -> x ∈ xs <-> lists d key x.
Proof.
  unfold get_list_or, lists. destruct (jget key d) as [v|]; [|intros [= <-]; set_solver].
  destruct (truthy v) eqn:Ht.
  - intros Hs. rewrite (strings_of_elem _ _ _ Hs). naive_solver.
  - intros [= <-]. split; [set_solver|]. intros (l & [= ->] & Hl). destruct l; [set_solver|done].
Qed.

Lemma mapM_elem {A B} (f : A -> option B) xs ys y :
  mapM f xs = Some ys -> y ∈ ys <-> exists x, x ∈ xs /\ f x = Some y.
Proof.
  intros Hm%mapM_Some. induction Hm as [|x z xs ys Hx Hm IH]; [set_solver|].
  rewrite elem_of_cons, IH. split.
  - intros [->|(x' & Hx' & Hf)]; [exists x; split; [by left|done]|exists x'; split; [by right|done]].
  - intros (x' & [->|Hx']%elem_of_cons & Hf); [left; congruence|right; eauto].
Qed.

(** The capability strings of a token are exactly the approved vocabulary: [c] is granted
    iff some entry of the approved permission block (or the two baseline operations) grants
    it, with model profiles replaced by the owner's bindings; nothing else is ever added. *)
Theorem capabilities_exact permissions bindings caps c :
  capabilities_from_permissions permissions bindings = Some caps ->
  c ∈ caps <-> grants permissions (if truthy bindings then bindings else JObj []) c.
Proof.
  unfold capabilities_from_permissions. set (b := if truthy bindings then _ else _).
  set (con := get_dict_or "connectors" permissions). intros H.
  destruct (get_list "llmProfiles" permissions) as [profiles|] eqn:E1; simplify_eq/=.
  destruct (mapM (bound_profile b) profiles) as [models|] eqn:E2; simplify_eq/=.
  destruct (get_list "knowledge" permissions) as [kbs|] eqn:E3; simplify_eq/=.
  destruct (get_list "google" con) as [google|] eqn:E4; simplify_eq/=.
  destruct (get_list "twilio" con) as [twilio|] eqn:E5; simplify_eq/=.
  destruct (get_list "sip" con) as [sip|] eqn:E6; simplify_eq/=.
  destruct (get_list "github" con) as [github|] eqn:E7; simplify_eq/=.
  destruct (get_list_or "startsAgents" permissions) as [agents|] eqn:E8; simplify_eq/=.
  destruct (get_list "cloudProviders" permissions) as [cloud|] eqn:E9; simplify_eq/=.
  rewrite sorted_set_elem, !elem_of_app, !prefixed_elem.
  setoid_rewrite (mapM_elem _ _ _ _ E2). setoid_rewrite (get_list_elem _ _ _ _ E1).
  setoid_rewrite (get_list_elem _ _ _ _ E3). setoid_rewrite (get_list_elem _ _ _ _ E4).
  setoid_rewrite (get_list_elem _ _ _ _ E5). setoid_rewrite (get_list_elem _ _ _ _ E6).
  setoid_rewrite (get_list_elem _ _ _ _ E7). setoid_rewrite (get_list_or_elem _ _ _ _ E8).
  setoid_rewrite (get_list_elem _ _ _ _ E9).
  split.
  - intros [(x & (y & Hy & Hb) & ->)|[(x & Hx & ->)|[(x & Hx & ->)|[(x & Hx & ->)|[(x & Hx & ->)
      |[(x & Hx & ->)|[(x & Hx & ->)|[(x & Hx & ->)|[Hin|Hin]]]]]]]]].
    + by eapply grant_llm.
    + by apply grant_knowledge.
    + by apply (grant_connector _ _ "google"); [set_solver|].
    + by apply (grant_connector _ _ "twilio"); [set_solver|].
    + by apply (grant_connector _ _ "sip"); [set_solver|].
    + by apply (grant_connector _ _ "github"); [set_solver|].
    + by apply grant_agent.
    + by apply grant_cloud.
    + destruct (otruthy _) eqn:Hu; [|set_solver].
      apply list_elem_of_singleton in Hin as ->. by apply grant_input.
    + apply elem_of_cons in Hin as [->|Hin]; [apply grant_events|].
      apply list_elem_of_singleton in Hin as ->. apply grant_idempotency.
  - destruct 1 as [p m Hp Hm|kb Hk|pr op Hpr Hop|ag Ha|pr Hp|Hu| |]; eauto 12.
    + apply elem_of_cons in Hpr as [->|Hpr]; [eauto 12|].
      apply elem_of_cons in Hpr as [->|Hpr]; [eauto 12|].
      apply elem_of_cons in Hpr as [->|Hpr]; [eauto 12|].
      apply list_elem_of_singleton in Hpr as ->. eauto 12.
    + rewrite Hu. do 8 right. left. set_solver.
    + do 9 right. set_solver.
    + do 9 right. set_solver.
Qed.

Lemma mapM_json_string l : mapM json_string (map JStr l) = Some l.
Proof. induction l as [|x l IH]; simpl; [done|]. by rewrite IH. Qed.

(** A value with no entries cannot be told from the empty dict by lookups. *)
Lemma falsy_jget v k : truthy v = false -> jget k v = None.
Proof. destruct v as [| | | | |o]; try done. by destruct o. Qed.

Lemma capabilities_falsy p b :
  capabilities_from_permissions (if truthy p then p else JObj []) (if truthy b then b else JObj []) =
  capabilities_from_permissions p b.
Proof.
  destruct (truthy b) eqn:Hb; unfold capabilities_from_permissions at 1 2; rewrite ?Hb; simpl;
    destruct (truthy p) eqn:Hp; try done;
    unfold get_list, get_list_or, get_dict_or; by rewrite !(falsy_jget p) by done.
Qed.

Lemma read_claims_payload rid c :
  (exists o, cl_resources c = JObj o) -> 0 <= timestamp (cl_issued_at c) ->
  timestamp (cl_issued_at c) <= timestamp (cl_expires_at c) ->
  timestamp (cl_expires_at c) <= 253402300799 ->
  read_claims (claims_payload rid c)
  = Some (c <| cl_issued_at ::= fun t => seconds (timestamp t) |>
            <| cl_expires_at ::= fun t => seconds (timestamp t) |>).
Proof.
  intros (o & Ho) H0 H1 H2. unfold read_claims. simpl. rewrite mapM_json_string, Ho. simpl.
  destruct o as [|kv o]; simpl; rewrite !(proj2 (Z.leb_le _ _)) by lia; simpl; by rewrite <- Ho.
Qed.

Section token_facts.
Context {J : Jwt} {JL : JwtLaws J}.

(** Token round trip: a freshly minted token verifies, until it expires, to exactly
    the claims it was minted with, the two times rounded down to the second as JWT
    carries them. *)
Theorem token_roundtrip key rid att ins ver caps res ttl issued tid now :
  0 <= issued <= now -> 0 <= ttl ->
  now < seconds (timestamp (issued + seconds ttl)) ->
  timestamp (issued + seconds ttl) <= 253402300799 ->
  is_Some (is_dict (default (JObj []) res)) ->
  let '(token, claims) := mint key rid att ins ver caps res ttl issued tid in
  verify token key now
  = Some (claims <| cl_issued_at ::= fun t => seconds (timestamp t) |>
                 <| cl_expires_at ::= fun t => seconds (timestamp t) |>).
Proof.
  intros Hi Httl Hexp Hmax Hres. unfold mint, verify. set (c := mint_claims _ _ _ _ _ _ _ _ _).
  assert (Hts : 0 <= timestamp issued /\ seconds (timestamp issued) <= now /\
                timestamp issued <= timestamp (issued + seconds ttl)).
  { unfold timestamp, seconds in *. rewrite !Z.quot_div_nonneg by lia.
    pose proof (Z.div_pos issued 1000000). pose proof (Z.mul_div_le issued 1000000).
    split_and!; [lia|lia|]. apply Z.div_le_mono; lia. }
  destruct Hts as (Hts1 & Hts2 & Hts3).
  erewrite jwt_roundtrip; try reflexivity; [|exact Hts2|exact Hexp].
  apply read_claims_payload; [|simpl; lia..].
  destruct res as [[| | | | |o]|]; simpl in *; try (by destruct Hres); [|by eexists].
  destruct o; by eexists.
Qed.

(** What [authorize] has established about the database when it grants. *)
Record authorized (d : DB) (now : instant) (allow_finished : bool) (g : Grant) (rid : uuid)
    (rr : RunRows) (a : RunAttempt) : Prop := mkAuthorized {
  auth_run : db_runs d !! rid = Some rr;
  auth_subject : uuid_str rid = cl_run_id (gr_claims g);
  auth_current : run_current_attempt (rr_run rr) = cl_attempt (gr_claims g);
  auth_attempt : rr_attempts rr !! cl_attempt (gr_claims g) = Some a;
  auth_token : att_capability_token_id a = Some (cl_token_id (gr_claims g));
  auth_installation : uuid_str (run_installation_id (rr_run rr)) = cl_installation_id (gr_claims g);
  auth_state : run_state (rr_run rr) ∈ ACTIVE_STATES \/
               allow_finished = true /\ run_state (rr_run rr) ∈ TERMINAL_STATES;
  auth_expiry : now < cl_expires_at (gr_claims g);
  auth_view : exists ver, gr_run g = internal_run_view rr ver;
  auth_caps : exists approved,
    capabilities_from_permissions (run_permissions_snapshot (rr_run rr))
      (run_model_bindings (rr_run rr)) = Some approved /\
    forall c, c ∈ gr_capabilities g <-> c ∈ cl_capabilities (gr_claims g) /\ c ∈ approved
}.

Lemma is_str_true s v : is_str s v = true -> v = Some (JStr s).
Proof. destruct v as [[]|]; try done. simpl. intros ->%String.eqb_eq. done. Qed.
Lemma is_num_true n v : is_num n v = true -> v = Some (JNum n).
Proof. destruct v as [[]|]; try done. simpl. intros ->%Z.eqb_eq. done. Qed.

Lemma verify_expiry token key now c :
  verify token key now = Some c -> now < cl_expires_at c.
Proof.
  unfold verify. destruct (jwt_decode _ _ _ _ _) as [p|] eqn:Hd; [|done]. simpl.
  apply jwt_expiry in Hd as (e & He & Hlt). unfold read_claims. rewrite He. intros Hr.
  repeat (apply bind_Some in Hr as (? & ? & Hr)). injection Hr as <-. simpl.
  unfold fromtimestamp in *. destruct (_ && _) in *; simplify_eq. done.
Qed.

Lemma internal_run_ok d rid v :
  internal_run d rid = Ok v -> exists i rr ver, db_runs d !! i = Some rr /\ uuid_str i = rid /\
    v = internal_run_view rr ver.
Proof.
  unfold internal_run. destruct (List.find _ _) as [[i rr]|] eqn:Hf; [|done].
  apply find_some in Hf as [Hin Heq]. apply list_elem_of_In, elem_of_map_to_list in Hin.
  apply String.eqb_eq in Heq. simpl in *.
  destruct (db_versions d !! _) as [ver|]; [|done]. intros [= <-]. eauto 10.
Qed.

Lemma authorize_spec d token key now allow_finished g :
  authorize token key now (internal_run d) allow_finished = Ok g ->
  exists rid rr a, authorized d now allow_finished g rid rr a.
Proof.
  unfold authorize. destruct (verify token key now) as [c|] eqn:Hv; [|done].
  destruct (internal_run d _) as [v|e] eqn:Hr; [|by destruct (_ =? _)].
  apply internal_run_ok in Hr as (rid & rr & ver & Hrid & Hid & ->).
  destruct (negb _ || negb _ || negb _) eqn:Hchk; [done|]. reflect_all.
  destruct (negb _ && negb _) eqn:Hst; [done|].
  destruct (capabilities_from_permissions _ _) as [approved|] eqn:Hcap; [|done].
  intros [= <-]. apply is_str_true in H, H0. apply is_num_true in H1.
  simpl in H, H0, H1. simplify_eq.
  destruct (rr_attempts rr !! _) as [a|] eqn:Ha; [|done].
  destruct (att_capability_token_id a) as [t|] eqn:Ht; [|done]. simplify_eq/=.
  exists rid, rr, a. split; simpl; try done; try congruence.
  - unfold state_in, view_state in Hst. simpl in Hst. rewrite parse_state_str in Hst.
    apply andb_false_iff in Hst as [Hst|Hst]; apply negb_false_iff in Hst.
    + left. by apply bool_decide_eq_true in Hst.
    + right. apply andb_true_iff in Hst as [-> Hst]. by apply bool_decide_eq_true in Hst.
  - by eapply verify_expiry.
  - by exists ver.
  - exists approved. split.
    + unfold get_dict_or in Hcap; simpl in Hcap. by rewrite capabilities_falsy in Hcap.
    + intros x. rewrite !list_elem_of_In, filter_In, bool_decide_eq_true. by rewrite !list_elem_of_In.
Qed.

(** Soundness of the broker's check: when [authorize] grants a call, the token has not
    expired, names an existing run whose current attempt and installation it was minted
    for, carries that attempt's own token id (so a replaced or retried attempt's token is
    dead), the run is active (or finished, only where that is allowed), and every granted
    capability is both in the token and in the run's approved permissions. *)
Theorem authorize_sound d token key now allow_finished g :
  authorize token key now (internal_run d) allow_finished = Ok g ->
  exists rid rr a, authorized d now allow_finished g rid rr a.
Proof. apply authorize_spec. Qed.
End token_facts.
