(* ===== verification/Worker.v ===== *)
(** * The job worker ([worker.py])

    [handle_dispatch], [handle_cancel] and [handle_stop] are split where the code leaves a
    transaction: each phase is one transaction or one runtime call, and an [Activity] of
    a worker loop remembers which phase comes next.  [on_dead_job] settles the run of a
    job that ran out of attempts. *)

From S2P Require Import Prelude TimeUtil Json Redaction SchemaGuard States Jobs RunModel RunService RunInv.
From S2P Require Import RunOps Platform Capability.
#[local] Open Scope Z_scope.

(** The settings the worker reads. *)
Record Settings := mkSettings {
  job_lease_seconds : Z;
  prepare_timeout_seconds : Z;
  capability_signing_key : string;
  broker_url : string
}.

(** ** Run specifications *)

Record RunSpec := mkSpec {
  spec_run_id : uuid;
  spec_attempt : Z;
  spec_installation_id : uuid;
  spec_agent_version_id : uuid;
  spec_image : string;
  spec_entrypoint : list string;
  spec_architectures : list string;
  spec_cpu : Json;
  spec_memory_mb : Z;
  spec_pids : Z;
  spec_env : list (string * string);
  spec_config : Json
}.

Definition token_ttl_seconds (run : AgentRun) (st : Settings) : Z :=
  prepare_timeout_seconds st + run_active_timeout_seconds run + run_max_input_wait_seconds run + 300.

Section worker.
Context {clk : Clock} {J : Jwt} (st : Settings).

(** [None]: the manifest lacks a field or has one of another type. *)
Definition build_spec (run : AgentRun) (installation : AgentInstallation) (version : AgentVersion)
    (attempt_no : Z) (token : Token) : option RunSpec :=
  spec_data ← jget "spec" (ver_manifest version);
  image ← jget "image" spec_data ≫= json_string;
  entrypoint ← jget "entrypoint" spec_data ≫= strings_of;
  architectures ← jget "architectures" spec_data ≫= strings_of;
  resources ← jget "resources" spec_data;
  cpu ← jget "cpu" resources;
  memory_mb ← jget "memoryMb" resources ≫= json_int;
  pids ← json_int (default (JNum 256) (jget "pids" resources));
  Some (mkSpec (run_id run) attempt_no (ins_id installation) (ver_id version) image entrypoint
    architectures cpu memory_mb pids
    [("PLATFORM_BROKER_URL", broker_url st); ("PLATFORM_RUN_TOKEN", token_text token);
     ("PLATFORM_RUN_ID", uuid_str (run_id run)); ("PLATFORM_ATTEMPT", pretty attempt_no)]%string
    (run_config_snapshot run)).

(** ** Dispatch *)

Definition not_ready (installation : AgentInstallation) : bool :=
  bool_decide (is_Some (ins_deleted_at installation)) || ins_needs_reapproval installation
  || negb (ins_enabled installation).

(** Phase 1, on the locked run: [Some spec] when the container must be started. *)
Definition dispatch_prepare (installations : gmap uuid AgentInstallation)
    (versions : gmap uuid AgentVersion) (attempt_no : Z) : RM (option RunSpec) :=
  let! run := the_run in
  if negb (run_current_attempt run =? attempt_no) || negb (mem (run_state run) [QUEUED; PREPARING])
  then ret None
  else
    match installations !! run_installation_id run, versions !! run_agent_version_id run with
    | Some installation, Some version =>
        let! attempt := begin_attempt (prepare_timeout_seconds st) in
        if not_ready installation then
          fail_run "INSTALLATION_NOT_READY"
            "The installation is disabled, removed, or needs permission reapproval." false false None ;;
          ret None
        else
          match att_runtime_ref attempt with
          | Some _ => ret None
          | None =>
              match capabilities_from_permissions (run_permissions_snapshot run) (run_model_bindings run) with
              | None => raise UNEXPECTED
              | Some capabilities =>
                  let! issued := utcnow in
                  let! id := uuid7 in
                  let '(token, claims) :=
                    mint (capability_signing_key st) (run_id run) attempt_no (ins_id installation)
                      (ver_id version) capabilities
                      (Some (JObj [("modelBindings", run_model_bindings run)]%string))
                      (token_ttl_seconds run st) issued (hex_digits 32 id "") in
                  put_attempt attempt_no (attempt <| att_capability_token_id := Some (cl_token_id claims) |>) ;;
                  match build_spec run installation version attempt_no token with
                  | None => raise UNEXPECTED
                  | Some spec => ret (Some spec)
                  end
              end
          end
    | _, _ => raise UNEXPECTED
    end.

(** Phase 2, on the locked run: record the container; returns [stop_now]. *)
Definition dispatch_record (attempt_no : Z) (runtime_ref : string) : RM bool :=
  let! run := the_run in
  let! recorded := get_attempt attempt_no in
  match recorded with
  | None => raise UNEXPECTED
  | Some a =>
      match att_runtime_ref a with
      | Some _ => ret tt
      | None =>
          if bool_decide (run_state run = PREPARING) then
            let! now := utcnow in
            put_attempt attempt_no
              (a <| att_runtime_ref := Some runtime_ref |>
                 <| att_heartbeat_expires_at := Some (now + seconds (prepare_timeout_seconds st)) |>)
          else put_attempt attempt_no (a <| att_runtime_ref := Some runtime_ref |>)
      end ;;
      ret (negb (run_current_attempt run =? attempt_no)
           || mem (run_state run) [CANCELLED; FAILED; INTERRUPTED])
  end.

(** ** Cancel *)

(** The unlocked read of [handle_cancel]: [None] returns, [Some ref] goes on. *)
Definition cancel_read (rid : uuid) (d : DB) : option (option string) :=
  match db_runs d !! rid with
  | None => None
  | Some rr =>
      if negb (bool_decide (run_state (rr_run rr) = CANCELLING)) then None
      else Some (rr_attempts rr !! run_current_attempt (rr_run rr) ≫= att_runtime_ref)
  end.

(** The locked part; returns the container that was recorded meanwhile and is stopped too. *)
Definition cancel_commit (runtime_ref : option string) : RM (option string) :=
  let! run := the_run in
  if negb (bool_decide (run_state run = CANCELLING)) then ret None
  else
    let! attempt := get_attempt (run_current_attempt run) in
    let! extra :=
      match attempt with
      | None => ret None
      | Some a =>
          let! ended := match att_ended_at a with Some t => ret t | None => utcnow end in
          put_attempt (run_current_attempt run)
            (a <| att_state := att_cancelled |> <| att_ended_at := Some ended |>) ;;
          ret (match att_runtime_ref a with
               | Some ref => if negb (String.eqb ref "") && negb (bool_decide (Some ref = runtime_ref))
                             then Some ref else None
               | None => None
               end)
      end in
    move CANCELLED (Some "stopped"%string) ;;
    ret extra.

(** ** Stop *)

Definition stop_ref (rid : uuid) (attempt_no : Z) (d : DB) : option string :=
  match db_runs d !! rid with
  | None => None
  | Some rr => rr_attempts rr !! attempt_no ≫= att_runtime_ref
  end.

(** ** Dead jobs *)

Definition STOP_FAILED : Json :=
  JObj [("code", JStr "STOP_FAILED"); ("message", JStr "The container may still be stopping.")]%string.

(** The part of [on_dead_job] on the locked run. *)
Definition settle_dead (job_type : string) (attempt : option Z) : RM unit :=
  let! run := the_run in
  if negb (run_current_attempt run =? default (run_current_attempt run) attempt) then ret tt
  else if String.eqb job_type JOB_DISPATCH && mem (run_state run) [QUEUED; PREPARING] then
    when (bool_decide (run_state run = QUEUED)) (move PREPARING None) ;;
    fail_run "DISPATCH_FAILED" "The run could not be started." true false None
  else if String.eqb job_type JOB_CANCEL && bool_decide (run_state run = CANCELLING) then
    transition CANCELLED (Some "stop_failed"%string) (Some STOP_FAILED) None ;; ret tt
  else ret tt.

(** [wait = None] waits for the run's lock; [wait = Some locked] skips a locked run. *)
Definition on_dead_job (job_type : string) (payload : JobPayload) (error : Json)
    (nowait : option (uuid -> bool)) : PM unit :=
  record_audit "job.dead" "system" (Some "job"%string) (uuid_str <$> pl_run_id payload) "failure"
    (Some (JObj [("jobType", JStr job_type); ("error", error)]%string)) ;;
  match pl_run_id payload with
  | None => ret tt
  | Some rid =>
      match nowait with
      | None => with_run rid (settle_dead job_type (pl_attempt payload))
      | Some locked => with_run_nowait locked rid (settle_dead job_type (pl_attempt payload))
      end
  end.

(** ** The loop *)

Definition handled_types : list string := [JOB_DISPATCH; JOB_CANCEL; JOB_STOP].

Definition worker_claim (worker : string) (locked : Z -> bool) : PM (option Job) := fun d =>
  let '(job, q) := Jobs.claim (db_now d) worker (job_lease_seconds st) (Some handled_types) locked
                     (db_jobs d) in
  Ok (job, d <| db_jobs := q |>).

Definition worker_complete (worker : string) (job : Job) : PM bool := fun d =>
  let '(ok, q) := Jobs.complete (db_now d) (job_id job) worker (db_jobs d) in
  Ok (ok, d <| db_jobs := q |>).

(** The error recorded on the job: the code of a [PlatformError], or [HANDLER_ERROR]. *)
Definition job_error (e : PlatformError) : Json :=
  JObj [("code", JStr (if String.eqb (err_code e) (err_code UNEXPECTED) then "HANDLER_ERROR"
                       else err_code e))]%string.

(** [_fail] with [retryable = exc.status_code >= 500] ([rnd] is the backoff's random number). *)
Definition worker_fail (worker : string) (job : Job) (e : PlatformError) (rnd : QArith_base.Q)
    : PM unit := fun d =>
  let error := job_error e in
  let '(state, q) := Jobs.fail (db_now d) (job_id job) worker error (500 <=? err_status e) rnd (db_jobs d) in
  let d := d <| db_jobs := q |> in
  match state with
  | Some dead => on_dead_job (job_type job) (job_payload job) error None d
  | _ => Ok (tt, d)
  end.
End worker.
