(* ===== verification/Reconciler.v ===== *)
(** * The reconciler and the exit watcher ([reconciler.py], [exits.py])

    [reconcile_run] is the body of the loop over watched runs and [tick] the whole
    transaction; [exit_tick] is the exit watcher, whose runtime answers are an argument
    and which records each observed exit in a transaction of its own. *)

From S2P Require Import Prelude TimeUtil Json Redaction SchemaGuard States Jobs RunModel RunService RunInv.
From S2P Require Import RunOps Platform Capability Worker.
#[local] Open Scope Z_scope.

Definition WATCHED_STATES : list RunState := [PREPARING; LOADING_MODEL; RUNNING; WAITING_INPUT].

Record ReconcileReport := mkReport {
  requeued_jobs : list Z;
  dead_jobs : Z;
  active_timeouts : Z;
  input_timeouts : Z;
  interrupted : Z;
  expired_inputs : Z
}.

#[export] Instance eta_Report : Eta ReconcileReport := fun r =>
  mkReport (requeued_jobs r) (dead_jobs r) (active_timeouts r) (input_timeouts r) (interrupted r)
    (expired_inputs r).

(** [ORDER BY key LIMIT n] over rows with an integer key (ties in table order). *)
Fixpoint insert_by {A} (key : A -> Z) (x : A) (l : list A) : list A :=
  match l with
  | [] => [x]
  | y :: l' => if key x <=? key y then x :: l else y :: insert_by key x l'
  end.
Definition order_by {A} (key : A -> Z) (l : list A) : list A := foldr (insert_by key) [] l.

Section reconciler.
Context {clk : Clock} {J : Jwt} (st : Settings).

Definition heartbeat_lost (now : instant) (a : option RunAttempt) : bool :=
  match a ≫= att_heartbeat_expires_at with Some t => t <? now | None => false end.

(** The tail of the loop body: the active-time limit, then the heartbeat lease. *)
Definition check_limits (now : instant) : RM (ReconcileReport -> ReconcileReport) :=
  let! run := the_run in
  if mem (run_state run) ACTIVE_CLOCK_STATES
     && (seconds (run_active_timeout_seconds run) <? active_seconds run now) then
    fail_run "ACTIVE_TIMEOUT"
      ("The run exceeded its " +:+ pretty (run_active_timeout_seconds run)
       +:+ "s active-time limit.")%string false false None ;;
    ret (fun r => r <| active_timeouts ::= Z.succ |>)
  else
    let! attempt := get_attempt (run_current_attempt run) in
    if heartbeat_lost now attempt then
      fail_run "HEARTBEAT_LOST"
        "The agent stopped responding (container exit or platform restart)." true true None ;;
      ret (fun r => r <| interrupted ::= Z.succ |>)
    else ret (fun r => r).

Definition reconcile_run (now : instant) : RM (ReconcileReport -> ReconcileReport) :=
  let! run := the_run in
  if bool_decide (run_state run = WAITING_INPUT) then
    if seconds (run_max_input_wait_seconds run) <? wait_seconds run now then
      fail_run "INPUT_TIMEOUT"
        ("The run waited longer than " +:+ pretty (run_max_input_wait_seconds run)
         +:+ "s for input.")%string false false None ;;
      ret (fun r => r <| input_timeouts ::= Z.succ |>)
    else
      let! expired := expire_inputs now in
      if negb (expired =? 0) then ret (fun r => r <| expired_inputs ::= Z.add expired |>)
      else check_limits now
  else check_limits now.

Definition watched (locked : uuid -> bool) (d : DB) : list uuid :=
  map fst (take 500 (order_by (fun kv => run_state_entered_at (rr_run kv.2))
    (List.filter (fun kv => mem (run_state (rr_run kv.2)) WATCHED_STATES && negb (locked kv.1))
       (map_to_list (db_runs d))))).

(** [for x in xs: report = body(x)(report)] *)
Fixpoint fold_report {A} (xs : list A) (body : A -> PM (ReconcileReport -> ReconcileReport))
    (report : ReconcileReport) : PM ReconcileReport :=
  match xs with
  | [] => ret report
  | x :: xs' => let! f := body x in fold_report xs' body (f report)
  end.

Definition reap : PM (list Z * list Job) := fun d =>
  let '(r, q) := Jobs.reap_expired (db_now d) (db_jobs d) in Ok (r, d <| db_jobs := q |>).

(** [locked] are the runs another transaction holds ([SKIP LOCKED]). *)
Definition tick (locked : uuid -> bool) (now : instant) : PM ReconcileReport :=
  let! reaped := reap in
  let report := mkReport reaped.1 (Z.of_nat (length reaped.2)) 0 0 0 0 in
  for_each reaped.2 (fun job =>
    on_dead_job (job_type job) (job_payload job) LEASE_EXPIRED (Some locked)) ;;
  let! runs := gets (watched locked) in
  fold_report runs (fun rid => with_run rid (reconcile_run now)) report.
End reconciler.

(** ** The exit watcher *)

Definition EXIT_WATCHED_STATES : list RunState :=
  [PREPARING; LOADING_MODEL; RUNNING; WAITING_INPUT; CANCELLING].
Definition RECENTLY_ENDED : Z := seconds (10 * 60).
Definition MAX_ATTEMPTS_PER_TICK : nat := 500.

Record RuntimeStatus := mkStatus {
  rt_state : string;
  rt_exit_code : option Z;
  rt_oom_killed : bool;
  rt_memory_limit_bytes : option Z
}.

Record ExitReport := mkExitReport {
  er_checked : Z;
  er_exited : Z;
  er_failed : gmap string Z;
  er_errors : Z
}.

#[export] Instance eta_ExitReport : Eta ExitReport := fun r =>
  mkExitReport (er_checked r) (er_exited r) (er_failed r) (er_errors r).

Record Candidate := mkCandidate {
  cd_run : uuid;
  cd_attempt : Z;
  cd_ref : string;
  cd_started_at : instant
}.

(** The attempt is asked about: it has a container and no exit code, and it is the current
    attempt of an active run or ended recently. *)
Definition exit_candidate (now : instant) (rid : uuid) (run : AgentRun) (a : RunAttempt)
    : option Candidate :=
  match att_runtime_ref a, att_exit_code a with
  | Some ref, None =>
      if (mem (run_state run) EXIT_WATCHED_STATES && (att_attempt a =? run_current_attempt run))
         || match att_ended_at a with Some t => now - RECENTLY_ENDED <? t | None => false end
      then Some (mkCandidate rid (att_attempt a) ref (att_started_at a)) else None
  | _, _ => None
  end.

Definition exit_candidates (now : instant) (d : DB) : list Candidate :=
  take MAX_ATTEMPTS_PER_TICK (order_by cd_started_at
    (mbind (fun kv : uuid * RunRows =>
       omap (fun ka : Z * RunAttempt => exit_candidate now kv.1 (rr_run kv.2) ka.2)
         (map_to_list (rr_attempts kv.2))) (map_to_list (db_runs d)))).

Section exits.
Context {clk : Clock}.

(** [_record]: one transaction on the run. *)
Definition record_exit (c : Candidate) (s : RuntimeStatus) : PM (option string) := fun d =>
  let manifest := match db_runs d !! cd_run c with
                  | Some rr => ver_manifest <$> db_versions d !! run_agent_version_id (rr_run rr)
                  | None => None
                  end in
  with_run (cd_run c)
    (record_container_exit (cd_attempt c) (cd_ref c) (rt_exit_code s) (rt_oom_killed s)
       (rt_memory_limit_bytes s) manifest) d.

(** The loop over the observed statuses ([None]: the runtime could not be asked); an
    exception ends it after the exits that were already recorded. *)
Fixpoint exit_loop (observed : list (Candidate * option RuntimeStatus)) (report : ExitReport) (d : DB)
    : Result PlatformError ExitReport * DB :=
  match observed with
  | [] => (Ok report, d)
  | (c, Some s) :: rest =>
      if String.eqb (rt_state s) "exited" then
        match record_exit c s d with
        | Err e => (Err e, d)
        | Ok (code_, d') =>
            exit_loop rest
              (report <| er_exited ::= Z.succ |>
                 <| er_failed ::= match code_ with
                                  | Some x => <[x := default 0 (er_failed report !! x) + 1]>
                                  | None => id
                                  end |>) d'
        end
      else exit_loop rest report d
  | (_, None) :: rest => exit_loop rest report d
  end.

(** [get_run ref]: the runtime's answer, [None] when asking raised. *)
Definition exit_tick (now : instant) (get_run : string -> option RuntimeStatus) (d : DB)
    : Result PlatformError ExitReport * DB :=
  let observed := map (fun c => (c, get_run (cd_ref c))) (exit_candidates now d) in
  let errors := List.filter (fun o => negb (bool_decide (is_Some o.2))) observed in
  exit_loop observed (mkExitReport (Z.of_nat (length observed)) 0 ∅ (Z.of_nat (length errors))) d.
End exits.
