(* ===== verification/RunProps.v ===== *)
(** * What the run operations do ([runs/service.py])

    Functional behaviour of the operations on one run: time accounting, event batches,
    results, container exits, questions and answers, idempotent actions, stale attempts and
    the limits the reconciler enforces. *)

From S2P Require Import Prelude TimeUtil Json Redaction SchemaGuard States Jobs RunModel RunService RunInv.
From S2P Require Import RunOps Platform Capability Worker Reconciler.
#[local] Open Scope Z_scope.

(** ** Total correctness *)

Section twp_rules.
Context {E S A B : Type}.
Implicit Types (s : S).

Lemma twp_bind (m : Tx E S A) (k : A -> Tx E S B) Q s :
  twp m (fun a s' => twp (k a) Q s') s -> twp (bind m k) Q s.
Proof. unfold twp, bind. by destruct (m s) as [[a s']|e]. Qed.
Lemma twp_mono (m : Tx E S A) (Q R : A -> S -> Prop) s :
  twp m Q s -> (forall a s', Q a s' -> R a s') -> twp m R s.
Proof. unfold twp. destruct (m s) as [[a s']|e]; eauto. Qed.
Lemma twp_result (m : Tx E S A) (Q : A -> S -> Prop) s :
  twp m Q s -> exists a s', m s = Ok (a, s') /\ Q a s'.
Proof. unfold twp. destruct (m s) as [[a s']|e]; [eauto|done]. Qed.
End twp_rules.

Lemma twp_for_each {E S A} (I : S -> Prop) (xs : list A) (body : A -> Tx E S unit) s :
  (forall x s, I s -> twp (body x) (fun _ => I) s) -> I s -> twp (for_each xs body) (fun _ => I) s.
Proof.
  revert s. induction xs as [|x xs IH]; intros s Hbody HI; [done|].
  simpl. apply twp_bind. eapply twp_mono; [by apply Hbody|]. intros u s' HI'. by apply IH.
Qed.

Section props.
Context {clk : Clock} {JS : JsonSchema}.
Implicit Types (s : Session).

Definition run_of (s : Session) : AgentRun := rr_run (se_rows s).
Definition inputs_of (s : Session) : list InputRequest := rr_inputs (se_rows s).
Definition events_of (s : Session) : list RunEvent := rr_events (se_rows s).

(** Closing requests always succeeds and touches nothing but requests and events. *)
Lemma close_where_total p st s :
  twp (close_where p st) (fun n s' => run_of s' = run_of s /\ inputs_of s' = closed_by p st (inputs_of s) /\
    rr_attempts (se_rows s') = rr_attempts (se_rows s) /\ n = Z.of_nat (length (List.filter p (inputs_of s)))) s.
Proof.
  unfold close_where. apply twp_bind. unfold the_inputs, gets, twp at 1. apply twp_bind.
  unfold set_inputs, modify, twp at 1. apply twp_bind.
  set (s1 := s <| se_rows ::= _ |>).
  eapply twp_mono; [apply (twp_for_each (fun s' => run_of s' = run_of s1 /\ inputs_of s' = inputs_of s1 /\
    rr_attempts (se_rows s') = rr_attempts (se_rows s1)))|].
  - intros r s2 (H1 & H2 & H3). done.
  - done.
  - intros u s2 (H1 & H2 & H3). by unfold twp.
Qed.

(** ** Time accounting *)

(** The clocks of a run are continuous across every transition and pause correctly: the
    transition itself changes neither the active nor the waiting time, and from then on
    the active clock runs exactly in PREPARING, LOADING_MODEL and RUNNING and the waiting
    clock exactly in WAITING_INPUT (so waiting for the owner never eats active time). *)
Theorem clocks_continuous target reason error retryable s e s' later :
  transition target reason error retryable s = Ok (e, s') ->
  let now := wall (se_tick s) in
  run_state_entered_at (run_of s) <= now <= later ->
  active_seconds (run_of s') later
  = active_seconds (run_of s) now
    + (if mem target [PREPARING; LOADING_MODEL; RUNNING] then later - now else 0) /\
  wait_seconds (run_of s') later
  = wait_seconds (run_of s) now + (if mem target [WAITING_INPUT] then later - now else 0).
Proof.
  intros Ht now Hnow.
  assert (Hr : run_of s' = enter target now error retryable (account now (run_of s))).
  { unfold transition, bind, the_run, gets, guard in Ht.
    destruct (can_transition _ _); [|done]. by injection Ht as _ <-. }
  destruct (enter_fields target now error retryable (account now (run_of s)))
    as (Es & Ea & Ew & _ & _ & _ & _).
  assert (Ee : run_state_entered_at (run_of s') = now).
  { rewrite Hr. unfold enter. destruct error, retryable, (bool_decide (target = RUNNING) && _),
      (mem target TERMINAL_STATES), (bool_decide (target = QUEUED)); done. }
  unfold active_seconds, wait_seconds, elapsed. rewrite Ee, Hr, Es, Ea, Ew.
  unfold account, elapsed, ACTIVE_CLOCK_STATES, WAIT_CLOCK_STATES.
  destruct (run_state (run_of s)); simpl; destruct target; simpl; split; lia.
Qed.

(** ** Event batches *)

(** An event that passes the checks of [event_rejection], whatever the clock says. *)
Definition acceptable (run : AgentRun) (validator : option (Json -> list string))
    (e : AgentEventInput) : Prop :=
  ei_type e ∈ AGENT_EVENT_TYPES /\ json_size (ei_payload e) <= MAX_EVENT_BYTES /\
  match validator with
  | Some v => forall t, v (event_envelope run e t) = []
  | None => True
  end.

Lemma event_rejection_accepts e validator s :
  acceptable (run_of s) validator e ->
  exists t, event_rejection e validator s = Ok (None, s <| se_tick := t |>).
Proof.
  intros (Hty & Hsz & Hv). unfold event_rejection. rewrite bool_decide_eq_true_2 by done. simpl.
  assert (Hb : (MAX_EVENT_BYTES <? json_size (ei_payload e)) = false) by by apply Z.ltb_ge.
  rewrite Hb. destruct validator as [v|]; [|exists (se_tick s); by destruct s].
  unfold bind, the_run, gets, utcnow. destruct (ei_occurred_at e) as [t|]; unfold ret; rewrite Hv; simpl;
    [exists (se_tick s); by destruct s|by eexists].
Qed.

Lemma rejections_accepts i es validator s :
  (forall e, e ∈ es -> acceptable (run_of s) validator e) ->
  exists t, rejections i es validator s = Ok ([], s <| se_tick := t |>).
Proof.
  revert i s. induction es as [|e es IH]; intros i s Hes; simpl.
  { exists (se_tick s). by destruct s. }
  destruct (event_rejection_accepts e validator s) as [t1 H1]; [apply Hes; by left|].
  destruct (IH (i + 1) (s <| se_tick := t1 |>)) as [t2 H2]; [intros x Hx; apply Hes; by right|].
  exists t2. unfold bind. by rewrite H1, H2.
Qed.

Lemma new_events_stored run now stored seq es :
  (forall e, e ∈ es -> ei_client_event_id e ∈ stored) -> new_events run now stored seq es = [].
Proof.
  induction es as [|e es IH]; intros H; simpl; [done|].
  rewrite bool_decide_eq_true_2 by (apply H; by left). apply IH. intros; apply H; by right.
Qed.

Lemma new_events_covers run now stored seq es e :
  e ∈ es -> ei_client_event_id e ∈ stored \/
            ei_client_event_id e ∈ stored_client_ids (new_events run now stored seq es).
Proof.
  revert stored seq. induction es as [|x es IH]; intros stored seq He; [set_solver|]. simpl.
  destruct (bool_decide (ei_client_event_id x ∈ stored)) eqn:Hb.
  - apply bool_decide_eq_true in Hb. apply elem_of_cons in He as [->|He]; [by left|by apply IH].
  - csimpl. apply elem_of_cons in He as [->|He]; [right; by left|].
    destruct (IH (ei_client_event_id x :: stored) (seq + 1) He) as [H|H]; [|right; by right].
    apply elem_of_cons in H as [H|H]; [right; rewrite H; by left|by left].
Qed.

(** The success path of a batch, as a state change. *)
Lemma batch_result n es validator s res s' :
  record_agent_event_batch n es validator s = Ok (res, s') ->
  n = run_current_attempt (run_of s) /\ run_state (run_of s) ∉ TERMINAL_STATES /\ run_of s' = run_of s /\
  exists now, let added := new_events (run_of s) now (stored_client_ids (events_of s))
                             (last_sequence (events_of s)) es in
    events_of s' = events_of s ++ added /\
    res = mkBatchResult (Z.of_nat (length added)) (Z.of_nat (length es) - Z.of_nat (length added))
            (last_sequence (events_of s) + Z.of_nat (length added)).
Proof.
  unfold record_agent_event_batch, require_attempt, bind, the_run, gets, guard. simpl.
  destruct (n =? _) eqn:Hn; [|done]. apply Z.eqb_eq in Hn. simpl.
  destruct (mem _ _) eqn:Hm; simpl; [done|]. apply bool_decide_eq_false in Hm.
  destruct (rejections 0 es validator s) as [[rs s1]|] eqn:Hr; [|done].
  assert (Hs1 : se_rows s1 = se_rows s).
  { clear -Hr. revert Hr. generalize 0. revert s rs. induction es as [|e es IH]; intros s rs i; simpl.
    - by intros [= _ <-].
    - unfold bind. destruct (event_rejection e validator s) as [[r s2]|] eqn:He; [|done].
      destruct (rejections _ es validator s2) as [[rs2 s3]|] eqn:Hr; [|done]. intros [= _ <-].
      rewrite (IH _ _ _ Hr). unfold event_rejection in He.
      destruct (negb _); [by injection He as _ <-|]. destruct (_ <? _); [by injection He as _ <-|].
      destruct validator as [v|]; [|by injection He as _ <-].
      unfold bind, the_run, gets, utcnow in He. destruct (ei_occurred_at e); simpl in He;
        destruct (take 5 _); by injection He as _ <-. }
  destruct rs; [|done]. unfold the_events, gets, utcnow, add_events, modify. simpl.
  intros [= <- <-]. unfold run_of, events_of. simpl. rewrite Hs1. split_and!; try done. by eexists.
Qed.

(** An accepted batch is stored whole: every event was of an agent type, the counts add
    up, earlier events are untouched, every client id of the batch is now stored, no
    client id is stored twice, and the last sequence is the number of events. *)
Theorem event_batch_stored n es validator s res s' :
  run_inv s -> record_agent_event_batch n es validator s = Ok (res, s') ->
  br_accepted res + br_duplicates res = Z.of_nat (length es) /\
  events_of s `prefix_of` events_of s' /\
  Z.of_nat (length (events_of s')) = Z.of_nat (length (events_of s)) + br_accepted res /\
  br_last_sequence res = Z.of_nat (length (events_of s')) /\
  (forall e, e ∈ es -> ei_type e ∈ AGENT_EVENT_TYPES /\
     ei_client_event_id e ∈ stored_client_ids (events_of s')) /\
  NoDup (stored_client_ids (events_of s')).
Proof.
  intros HI Hb. pose proof (wp_run _ _ _ _ _ (record_agent_event_batch_kept n es validator s HI) Hb)
    as (_ & (L & _) & _).
  assert (Hty : forall e, e ∈ es -> ei_type e ∈ AGENT_EVENT_TYPES).
  { clear L. unfold record_agent_event_batch, require_attempt, bind, the_run, gets, guard in Hb. simpl in Hb.
    destruct (n =? _); [|done]. simpl in Hb. destruct (negb _); [|done]. simpl in Hb.
    pose proof (rejections_spec 0 es validator s) as Hsp. unfold wp in Hsp.
    destruct (rejections 0 es validator s) as [[rs s1]|]; [|done]. destruct Hsp as (_ & _ & Hty).
    destruct rs; [|done]. by apply Hty. }
  destruct (batch_result _ _ _ _ _ _ Hb) as (_ & _ & _ & now & He & ->). simpl.
  destruct HI as ([Hseq _ _ _ _ _] & _).
  assert (Hlen : last_sequence (events_of s) = Z.of_nat (length (events_of s)))
    by by apply last_sequence_length.
  split_and!; [lia|rewrite He; by eexists|rewrite He, length_app; lia|rewrite He, length_app; lia| |].
  - intros e Hin. split; [by apply Hty|]. rewrite He, stored_client_ids_app, elem_of_app.
    by apply new_events_covers.
  - apply (log_clients _ L).
Qed.

(** A retried batch is idempotent: sending the same events again while the run is still
    on that attempt is accepted, stores nothing and reports them all as duplicates. *)
Theorem event_batch_retry n es validator s res s' :
  record_agent_event_batch n es validator s = Ok (res, s') ->
  (forall e, e ∈ es -> acceptable (run_of s) validator e) ->
  exists s2, record_agent_event_batch n es validator s'
    = Ok (mkBatchResult 0 (Z.of_nat (length es)) (last_sequence (events_of s')), s2) /\
    se_rows s2 = se_rows s'.
Proof.
  intros Hb Hacc. destruct (batch_result _ _ _ _ _ _ Hb) as (Hn & Hst & Hr & now & He & _).
  rewrite <- Hr in Hn, Hst, Hacc. destruct (rejections_accepts 0 es validator s' Hacc) as [t Hrej].
  unfold record_agent_event_batch, require_attempt, bind, the_run, gets, guard.
  change (rr_run (se_rows s')) with (run_of s'). rewrite Hn, Z.eqb_refl. simpl.
  change (rr_run (se_rows s')) with (run_of s'). unfold mem.
  rewrite bool_decide_eq_false_2 by done. simpl. rewrite Hrej.
  unfold the_events, gets, utcnow, add_events, modify, ret. simpl.
  change (rr_events (se_rows s')) with (events_of s').
  rewrite new_events_stored.
  - eexists. split; [|]; simpl; [by rewrite Z.sub_0_r, Z.add_0_r|].
    clear. destruct s' as [[run atts evs inps acts] q t0 f w]. unfold update; simpl. by rewrite app_nil_r.
  - intros e Hin. rewrite He, stored_client_ids_app, elem_of_app. by apply new_events_covers.
Qed.

(** ** Symbolic execution with guaranteed success *)

Definition attempts_of (s : Session) : gmap Z RunAttempt := rr_attempts (se_rows s).

Lemma twp_the_run (Q : AgentRun -> Session -> Prop) s : Q (run_of s) s -> twp the_run Q s.
Proof. done. Qed.
Lemma twp_the_inputs (Q : list InputRequest -> Session -> Prop) s : Q (inputs_of s) s -> twp the_inputs Q s.
Proof. done. Qed.
Lemma twp_get_attempt n (Q : option RunAttempt -> Session -> Prop) s :
  Q (attempts_of s !! n) s -> twp (get_attempt n) Q s.
Proof. done. Qed.
Lemma twp_ret {A} (a : A) (Q : A -> Session -> Prop) s : Q a s -> twp (E := PlatformError) (ret a) Q s.
Proof. done. Qed.
Lemma twp_guard (c : bool) (e : PlatformError) (Q : unit -> Session -> Prop) s :
  c = true -> Q tt s -> twp (guard c e) Q s.
Proof. by intros ->. Qed.
Lemma twp_when (c : bool) (m : RM unit) (Q : unit -> Session -> Prop) s :
  (c = true -> twp m Q s) -> (c = false -> Q tt s) -> twp (when c m) Q s.
Proof. intros H1 H2. destruct c; [by apply H1|by apply H2]. Qed.
Lemma twp_utcnow (Q : instant -> Session -> Prop) s :
  (forall s', se_rows s' = se_rows s -> Q (wall (se_tick s)) s') -> twp utcnow Q s.
Proof. intros HQ. by apply HQ. Qed.
Lemma twp_set_run f (Q : unit -> Session -> Prop) s :
  (forall s', run_of s' = f (run_of s) -> inputs_of s' = inputs_of s -> attempts_of s' = attempts_of s ->
    Q tt s') -> twp (set_run f) Q s.
Proof. intros HQ. by apply HQ. Qed.
Lemma twp_set_inputs f (Q : unit -> Session -> Prop) s :
  (forall s', run_of s' = run_of s -> inputs_of s' = f (inputs_of s) -> attempts_of s' = attempts_of s ->
    Q tt s') -> twp (set_inputs f) Q s.
Proof. intros HQ. by apply HQ. Qed.
Lemma twp_put_attempt n a (Q : unit -> Session -> Prop) s :
  (forall s', run_of s' = run_of s -> inputs_of s' = inputs_of s ->
    attempts_of s' = <[n := a]> (attempts_of s) -> Q tt s') -> twp (put_attempt n a) Q s.
Proof. intros HQ. by apply HQ. Qed.
Lemma twp_append_event typ payload (Q : RunEvent -> Session -> Prop) s :
  (forall e s', run_of s' = run_of s -> inputs_of s' = inputs_of s -> attempts_of s' = attempts_of s ->
    Q e s') -> twp (append_event typ payload) Q s.
Proof. intros HQ. by apply HQ. Qed.
Lemma twp_enqueue_job typ pl k (Q : unit -> Session -> Prop) s :
  (forall s', se_rows s' = se_rows s -> has_live k (se_jobs s') -> Q tt s') ->
  twp (enqueue_job typ pl k) Q s.
Proof. intros HQ. apply HQ; [done|]. apply enqueue_has_live. Qed.
Lemma twp_transition t reason err rt (Q : RunEvent -> Session -> Prop) s :
  can_transition (run_state (run_of s)) t = true ->
  (forall e s' now, run_of s' = enter t now err rt (account now (run_of s)) ->
    inputs_of s' = inputs_of s -> attempts_of s' = attempts_of s -> Q e s') ->
  twp (transition t reason err rt) Q s.
Proof.
  intros Hct HQ. unfold transition. apply twp_bind, twp_the_run, twp_bind, twp_guard; [done|].
  by eapply HQ.
Qed.
Lemma twp_move t reason (Q : unit -> Session -> Prop) s :
  can_transition (run_state (run_of s)) t = true ->
  (forall s' now, run_of s' = enter t now None None (account now (run_of s)) ->
    inputs_of s' = inputs_of s -> attempts_of s' = attempts_of s -> Q tt s') ->
  twp (move t reason) Q s.
Proof.
  intros Hct HQ. unfold move. apply twp_bind, twp_transition; [done|]. intros e s' now H1 H2 H3.
  apply twp_ret. by eapply HQ.
Qed.
Lemma twp_close_pending st (Q : unit -> Session -> Prop) s :
  (forall s', run_of s' = run_of s -> inputs_of s' = closed_by is_pending st (inputs_of s) ->
    attempts_of s' = attempts_of s -> Q tt s') -> twp (close_pending_inputs st) Q s.
Proof.
  intros HQ. unfold close_pending_inputs. apply twp_bind. eapply twp_mono; [apply close_where_total|].
  intros n s' (H1 & H2 & H3 & _). apply twp_ret. by apply HQ.
Qed.

Lemma state_account now r : run_state (account now r) = run_state r.
Proof. apply account_fields. Qed.
Lemma state_enter t now err rt r : run_state (enter t now err rt r) = t.
Proof. apply enter_fields. Qed.
Lemma attempt_enter t now err rt r :
  run_current_attempt (enter t now err rt (account now r)) = run_current_attempt r.
Proof.
  destruct (enter_fields t now err rt (account now r)) as (_ & _ & _ & -> & _). apply account_fields.
Qed.
Lemma result_enter t now err rt r : run_result (enter t now err rt (account now r)) = run_result r.
Proof.
  unfold enter, account. destruct err, rt, (bool_decide (t = RUNNING) && _), (mem t TERMINAL_STATES),
    (bool_decide (t = QUEUED)), (mem (run_state r) ACTIVE_CLOCK_STATES), (mem (run_state r) WAIT_CLOCK_STATES); done.
Qed.
Lemma error_enter t now e rt r : run_error (enter t now (Some e) rt r) = Some e.
Proof. unfold enter. destruct rt; done. Qed.
Lemma retryable_enter t now err b r : run_retryable (enter t now err (Some b) r) = b.
Proof. done. Qed.
Lemma id_enter t now err rt r : run_id (enter t now err rt (account now r)) = run_id r.
Proof.
  apply identity_id. destruct (enter_fields t now err rt (account now r)) as (_ & _ & _ & _ & _ & -> & _).
  apply account_fields.
Qed.
End props.

(** [twp_step] executes one statement; the caller supplies successful guards and moves. *)
Ltac twp_step :=
  match goal with
  | |- twp (bind _ _) _ _ => apply twp_bind
  | |- twp (ret _) _ _ => apply twp_ret
  | |- twp the_run _ _ => apply twp_the_run
  | |- twp the_inputs _ _ => apply twp_the_inputs
  | |- twp (get_attempt _) _ _ => apply twp_get_attempt
  | |- twp utcnow _ _ => apply twp_utcnow; intros ? ?
  | |- twp (set_run _) _ _ => apply twp_set_run; intros ? ? ? ?
  | |- twp (set_inputs _) _ _ => apply twp_set_inputs; intros ? ? ? ?
  | |- twp (put_attempt _ _) _ _ => apply twp_put_attempt; intros ? ? ? ?
  | |- twp (append_event _ _) _ _ => apply twp_append_event; intros ? ? ? ? ?
  | |- twp (enqueue_job _ _ _) _ _ => apply twp_enqueue_job; intros ? ? ?
  | |- twp (close_pending_inputs _) _ _ => apply twp_close_pending; intros ? ? ? ?
  end; cbv beta.

(** Rewrite the rows of later sessions into those of earlier ones. *)
Ltac rows_back :=
  repeat match goal with
  | H : se_rows ?s' = se_rows ?s |- _ =>
      assert (run_of s' = run_of s) by (unfold run_of; by rewrite H);
      assert (inputs_of s' = inputs_of s) by (unfold inputs_of; by rewrite H);
      assert (attempts_of s' = attempts_of s) by (unfold attempts_of; by rewrite H);
      clear H
  end;
  repeat match goal with
  | H : run_of ?s' = _ |- _ => try rewrite H in *; clear H
  | H : inputs_of ?s' = _ |- _ => try rewrite H in *; clear H
  | H : attempts_of ?s' = _ |- _ => try rewrite H in *; clear H
  end.

Section outcomes.
Context {clk : Clock} {JS : JsonSchema}.
Implicit Types (s : Session).

(** ** Results *)

(** What a posted result must do to the run, by the state the run is in. *)
Definition finish_outcome (r : AgentRun) (status : string) (result error : option Json)
    (r' : AgentRun) : Prop :=
  if mem (run_state r) TERMINAL_STATES then r' = r
  else if bool_decide (run_state r = CANCELLING) then
    run_state r' = CANCELLED /\ run_result r' = result
  else
    run_result r' = result /\
    if String.eqb status "succeeded" then run_state r' = SUCCEEDED
    else run_state r' = FAILED /\ run_error r' = Some (agent_error error).

Lemma finish_running n status result error s :
  n = run_current_attempt (run_of s) -> result_too_large result = false ->
  run_state (run_of s) ∈ [LOADING_MODEL; RUNNING; WAITING_INPUT] ->
  twp (finish n status result error)
    (fun _ s' => finish_outcome (run_of s) status result error (run_of s') /\
                 ~ has_pending (inputs_of s')) s.
Proof.
  intros Hn Hsz Hst. unfold finish, require_attempt. do 2 twp_step. twp_step. apply twp_guard.
  { by apply Z.eqb_eq. }
  twp_step. apply twp_guard; [by rewrite Hsz|]. twp_step. twp_step. twp_step.
  apply (twp_mono _ (fun _ s' => run_of s' = run_of s /\ inputs_of s' = inputs_of s)).
  { destruct (attempts_of s !! n); [do 3 twp_step; by rows_back|by twp_step]. }
  intros [] s1 [H1 H2]. do 2 twp_step.
  assert (Hnt : mem (run_state (run_of s1)) TERMINAL_STATES = false /\
                bool_decide (run_state (run_of s1) = CANCELLING) = false).
  { rewrite H1. clear -Hst. destruct (run_state (run_of s)); try done; exfalso; clear -Hst; set_solver. }
  destruct Hnt as [Hnt Hnc]. rewrite Hnt. twp_step. twp_step. rewrite Hnc. twp_step.
  apply (twp_mono _ (fun _ s' => run_state (run_of s') = RUNNING /\ run_result (run_of s') = result)).
  { unfold when. destruct (mem _ [LOADING_MODEL; WAITING_INPUT]) eqn:Hm.
    - apply twp_move.
      + rows_back. clear -Hst Hm. destruct (run_state (run_of s)) eqn:E; simpl in *; rewrite ?E; try done;
          exfalso; clear -Hst; set_solver.
      + intros s4 now R1 _ _. rewrite R1, state_enter, result_enter. rows_back. done.
    - twp_step. rows_back. split; [|done]. simpl. clear -Hst Hm.
      destruct (run_state (run_of s)); try done; exfalso; clear -Hst; set_solver. }
  intros [] s3 [R1 R2]. twp_step.
  apply (twp_mono _ (fun _ s' => finish_outcome (run_of s) status result error (run_of s'))).
  - rewrite H1 in Hnt, Hnc. unfold finish_outcome. rewrite Hnt, Hnc.
    destruct (String.eqb status "succeeded") eqn:Hs.
    + do 2 twp_step. apply twp_move; [rows_back; by rewrite R1|].
      intros s5 now R3 _ _. rewrite R3, state_enter, result_enter. rows_back. done.
    + do 2 twp_step. twp_step. apply twp_transition; [rows_back; by rewrite R1|].
      intros e5 s5 now R3 _ _. twp_step. rewrite R3, state_enter, error_enter, result_enter. rows_back. done.
  - intros [] s5 Ho. twp_step. rows_back. split; [done|]. by apply closed_none_pending.
Qed.

(** Posting a result settles the run by its state, and the first result wins: a finished
    run is left exactly as it is, a cancelling run becomes CANCELLED, and a loading,
    running or waiting run becomes SUCCEEDED or FAILED with that result (and a failure's
    redacted error); the call succeeds in each of these states. *)
Theorem finish_correct n status result error s :
  n = run_current_attempt (run_of s) -> result_too_large result = false ->
  run_state (run_of s) ∉ [QUEUED; PREPARING] ->
  exists s', finish n status result error s = Ok (tt, s') /\
    finish_outcome (run_of s) status result error (run_of s').
Proof.
  intros Hn Hsz Hst. enough (T : twp (finish n status result error)
    (fun _ s' => finish_outcome (run_of s) status result error (run_of s')) s).
  { apply twp_result in T as ([] & s' & H1 & H2). eauto. }
  destruct (decide (run_state (run_of s) ∈ [LOADING_MODEL; RUNNING; WAITING_INPUT])) as [Hin|Hin].
  { eapply twp_mono; [by apply finish_running|]. by intros u s' []. }
  unfold finish, require_attempt. do 3 twp_step. apply twp_guard; [by apply Z.eqb_eq|].
  twp_step. apply twp_guard; [by rewrite Hsz|]. do 3 twp_step.
  apply (twp_mono _ (fun _ s' => run_of s' = run_of s)).
  { destruct (attempts_of s !! n); [do 3 twp_step; by rows_back|by twp_step]. }
  intros [] s1 H1. do 2 twp_step. rewrite H1. unfold finish_outcome.
  destruct (mem (run_state (run_of s)) TERMINAL_STATES) eqn:Hm; [by twp_step|].
  assert (Hc : run_state (run_of s) = CANCELLING).
  { clear -Hst Hin Hm. destruct (run_state (run_of s)); try done; exfalso; set_solver. }
  rewrite Hc. do 2 twp_step. apply twp_move; [rows_back; simpl; by rewrite Hc|].
  intros s3 now R _ _. rewrite R, state_enter, result_enter. rows_back. done.
Qed.

(** ** Failures and container exits *)

Definition failed_with (target : RunState) (error : Json) (retryable : bool) (r : AgentRun) : Prop :=
  run_state r = target /\ run_error r = Some error /\ run_retryable r = retryable.

Lemma fail_run_total c m rt (i : bool) d s :
  let target := if i then INTERRUPTED else FAILED in
  mem (run_state (run_of s)) TERMINAL_STATES = false ->
  can_transition (run_state (run_of s)) target = true ->
  twp (fail_run c m rt i d)
    (fun _ s' => failed_with target (failure c m rt d) rt (run_of s') /\ ~ has_pending (inputs_of s')) s.
Proof.
  intros target Hnt Hct. unfold fail_run. fold target. do 2 twp_step. rewrite Hnt, Hct. simpl.
  do 2 twp_step. twp_step. apply twp_transition; [rows_back; done|]. intros e1 s2 now R I A.
  twp_step. twp_step. twp_step. twp_step. twp_step.
  apply (twp_mono _ (fun _ s' => run_of s' = run_of s2 /\ inputs_of s' = inputs_of s2)).
  - destruct (attempts_of s2 !! _) as [a|]; [|by twp_step].
    destruct (att_ended_at a); [by twp_step|]. do 4 twp_step.
    apply twp_when; intros _; [twp_step|]; by rows_back.
  - intros [] s3 [R3 I3]. apply twp_close_pending. intros s4 R4 I4 _. rewrite R4, I4, R3, R. unfold failed_with.
    rewrite state_enter, error_enter, retryable_enter. split; [done|]. by apply closed_none_pending.
Qed.

(** The verdict on an exit without a result, by exit code and OOM flag. *)
Definition verdict_code (exit_code : option Z) (oom_killed : bool) : string :=
  if oom_killed || bool_decide (exit_code = Some 137) then AGENT_OUT_OF_MEMORY
  else if bool_decide (exit_code = Some 0) then AGENT_EXITED_WITHOUT_RESULT
  else AGENT_EXITED.

Lemma exit_verdict_code st ec oom mb : (exit_verdict st ec oom mb).1.1 = verdict_code ec oom.
Proof.
  unfold exit_verdict, verdict_code, SIGKILL_EXIT_CODE.
  destruct (oom || _); [done|]. by destruct (bool_decide (ec = Some 0)).
Qed.

(** The exit fails the run: it is the current attempt's own container and the run is
    still being worked on. *)
Definition exit_fails (n : Z) (ref : string) (s : Session) : bool :=
  match attempts_of s !! n with
  | Some a => bool_decide (att_runtime_ref a = Some ref) && (run_current_attempt (run_of s) =? n)
              && mem (run_state (run_of s)) EXIT_FAILS_STATES
  | None => false
  end.

(** A reported container exit always commits.  If it is the current attempt's container
    and the run is still active, the run fails, retryably, with the code the exit code and
    the OOM flag call for (out of memory for an OOM kill or 137, exited without a result
    for 0, exited otherwise); in every other case the run row is left untouched. *)
Theorem container_exit_correct n ref ec oom mem_bytes manifest s :
  exists code_ s', record_container_exit n ref ec oom mem_bytes manifest s = Ok (code_, s') /\
  if exit_fails n ref s then
    code_ = Some (verdict_code ec oom) /\ run_state (run_of s') = FAILED /\
    run_retryable (run_of s') = true /\
    (exists err, run_error (run_of s') = Some err /\ jget "code" err = Some (JStr (verdict_code ec oom)))
  else code_ = None /\ run_of s' = run_of s.
Proof.
  apply (twp_result _ (fun code_ s' => if exit_fails n ref s then _ else _)).
  unfold record_container_exit, exit_fails. do 4 twp_step.
  destruct (attempts_of s !! n) as [a|] eqn:Ha; [|by twp_step].
  destruct (bool_decide (att_runtime_ref a = Some ref)); simpl; [|by twp_step].
  twp_step. apply (twp_mono _ (fun _ s' => run_of s' = run_of s)).
  { unfold when. destruct (_ && _); [twp_step; by rows_back|by twp_step]. }
  intros [] s1 R1. destruct (run_current_attempt (run_of s) =? n); simpl; [|by twp_step].
  destruct (mem (run_state (run_of s)) EXIT_FAILS_STATES) eqn:Hm; simpl; [|by twp_step].
  pose proof (exit_verdict_code (run_state (run_of s)) ec oom (memory_limit_mb manifest mem_bytes)) as Hv.
  destruct (exit_verdict _ _ _ _) as [[c m] det]. simpl in Hv. subst c. twp_step.
  assert (Hs : mem (run_state (run_of s1)) TERMINAL_STATES = false /\
               can_transition (run_state (run_of s1)) FAILED = true).
  { rewrite R1. clear -Hm. by destruct (run_state (run_of s)). }
  destruct Hs as [Hs1 Hs2].
  eapply twp_mono; [by apply fail_run_total|]. intros [] s2 [(S1 & S2 & S3) _]. twp_step.
  split_and!; try done. eexists. by split.
Qed.
End outcomes.

Section calls.
Context {clk : Clock} {JS : JsonSchema}.
Implicit Types (s : Session).

(** ** Stale attempts *)

Definition stale (n : Z) (s : Session) : PlatformError :=
  conflict "STALE_ATTEMPT"
    [("attempt", JNum n); ("currentAttempt", JNum (run_current_attempt (run_of s)))]%string.

Lemma require_stale n s :
  n <> run_current_attempt (run_of s) -> require_attempt n s = Err (stale n s).
Proof.
  intros Hn. unfold require_attempt, bind, the_run, gets, guard. change (rr_run (se_rows s)) with (run_of s).
  by rewrite (proj2 (Z.eqb_neq _ _) Hn).
Qed.

(** A stale attempt can change nothing: every call an agent makes with an attempt number
    that is not the run's current one aborts with STALE_ATTEMPT, whatever else it carries
    (event calls may fail their own checks first). *)
Theorem stale_attempt_rejected n s h loading model es validator status result error
    key title prompt schema timeout preview tok res typ payload :
  n <> run_current_attempt (run_of s) ->
  handshake n h s = Err (stale n s) /\ RunService.heartbeat n h s = Err (stale n s) /\
  set_model_loading n loading model s = Err (stale n s) /\
  record_agent_event_batch n es validator s = Err (stale n s) /\
  finish n status result error s = Err (stale n s) /\
  ask n key title prompt schema timeout preview s = Err (stale n s) /\
  claim_action n key tok s = Err (stale n s) /\ complete_action n key res s = Err (stale n s) /\
  (exists e, record_agent_event n typ payload s = Err e).
Proof.
  intros Hn. pose proof (require_stale n s Hn) as H.
  split_and!; try (unfold handshake, RunService.heartbeat, set_model_loading, record_agent_event_batch,
    finish, ask, claim_action, complete_action, bind; by rewrite H).
  unfold record_agent_event, bind, guard, check. destruct (bool_decide _); [|by eexists]. simpl.
  destruct (check_size _ _ _); simpl; [|by eexists]. rewrite H. by eexists.
Qed.

(** ** Answers *)

(** Why an answer to request [r] is refused at time [now]. *)
Definition answer_refusal (r : InputRequest) (version : Z) (value : Json) (now : instant) : option string :=
  if negb (is_pending r) then Some "INPUT_ALREADY_CLOSED"%string
  else if negb (inp_version r =? version) then Some "VERSION_CONFLICT"%string
  else if inp_deadline r <=? now then Some "INPUT_EXPIRED"%string
  else match check_size value MAX_ANSWER_BYTES "ANSWER_TOO_LARGE" with
       | Err e => Some (err_code e)
       | Ok _ => match iter_errors (inp_schema r) value with
                 | [] => None
                 | _ :: _ => Some "INVALID_ANSWER"%string
                 end
       end.

Definition answered (request_id : uuid) (value : Json) (user : uuid) (now : instant)
    (x : InputRequest) : InputRequest :=
  if (inp_id x =? request_id)%N then
    x <| inp_state := inp_answered |> <| inp_answer := Some value |> <| inp_answered_by := Some user |>
      <| inp_answered_at := Some now |> <| inp_version ::= Z.succ |>
  else x.

(** Answering a request is exactly guarded and exactly effective: a closed request, a
    stale version, a passed deadline, an oversized or schema-violating value is refused
    with its own code; otherwise the call commits, the request (and no other) becomes
    answered with this value and user, and the run resumes to RUNNING precisely when it
    was waiting and nothing else is pending. *)
Theorem answer_correct request_id version value user r s :
  List.find (fun r => (inp_id r =? request_id)%N) (inputs_of s) = Some r ->
  match answer_refusal r version value (wall (se_tick s)) with
  | Some code_ => exists e, answer request_id version value user s = Err e /\ err_code e = code_
  | None => exists s' now, answer request_id version value user s = Ok (tt, s') /\
      inputs_of s' = map (answered request_id value user now) (inputs_of s) /\
      run_state (run_of s')
      = (if bool_decide (run_state (run_of s) = WAITING_INPUT) && negb (existsb is_pending (inputs_of s'))
         then RUNNING else run_state (run_of s))
  end.
Proof.
  intros Hf. destruct (answer_refusal r version value (wall (se_tick s))) as [code_|] eqn:Href.
  { unfold answer_refusal in Href. unfold answer. cbv [bind the_inputs gets].
    change (rr_inputs (se_rows s)) with (inputs_of s). rewrite Hf. unfold guard.
    destruct (is_pending r); simpl in *; [|simplify_eq; by eexists].
    destruct (inp_version r =? version); simpl in *; [|simplify_eq; by eexists].
    unfold utcnow. destruct (inp_deadline r <=? wall (se_tick s)); simpl in *; [simplify_eq; by eexists|].
    destruct (check_size _ _ _) as [[]|e]; simpl in *; [|simplify_eq; by eexists].
    destruct (iter_errors (inp_schema r) value) as [|e1 es]; simpl in *; simplify_eq. by eexists. }
  unfold answer_refusal in Href.
  destruct (is_pending r) eqn:Hp; simpl in Href; [|done].
  destruct (inp_version r =? version) eqn:Hver; simpl in Href; [|done].
  destruct (inp_deadline r <=? wall (se_tick s)) eqn:Hd; [done|].
  destruct (check_size _ _ _) as [[]|e] eqn:Hsz; [|done].
  destruct (iter_errors (inp_schema r) value) as [|e1 es] eqn:Herr; [|done].
  enough (T : twp (answer request_id version value user) (fun _ s' => exists now,
      inputs_of s' = map (answered request_id value user now) (inputs_of s) /\
      run_state (run_of s')
      = (if bool_decide (run_state (run_of s) = WAITING_INPUT) && negb (existsb is_pending (inputs_of s'))
         then RUNNING else run_state (run_of s))) s).
  { apply twp_result in T as ([] & s' & H1 & now & H2). eauto. }
  unfold answer. do 2 twp_step. rewrite Hf. twp_step. apply twp_guard; [done|]. twp_step. apply twp_guard; [done|].
  twp_step. apply twp_utcnow. intros s1 Hs1. twp_step. apply twp_guard; [by rewrite Hd|]. twp_step.
  rewrite Hsz. unfold check. twp_step. rewrite Herr. simpl.
  twp_step. apply twp_utcnow. intros s2 Hs2. set (now2 := wall (se_tick s1)). twp_step.
  apply twp_set_inputs. intros s3 R3 I3 _. twp_step. apply twp_append_event. intros e4 s4 R4 I4 _.
  assert (Hr4 : run_of s4 = run_of s) by (unfold run_of in *; congruence).
  assert (Hi4 : inputs_of s4 = map (answered request_id value user now2) (inputs_of s)).
  { rewrite I4, I3. unfold inputs_of. by rewrite Hs2, Hs1. }
  clear - Hr4 Hi4. unfold resume_if_no_pending. do 2 twp_step. rewrite Hr4.
  destruct (bool_decide (run_state (run_of s) = WAITING_INPUT)) eqn:Hw.
  - apply bool_decide_eq_true in Hw. do 2 twp_step. rewrite Hi4. destruct (existsb _ _) eqn:Hx.
    + twp_step. eexists. split; [done|]. rewrite Hi4, Hx. simpl. by rewrite Hr4.
    + apply twp_move; [by rewrite Hr4, Hw|]. intros s5 now R5 I5 _. eexists. rewrite I5, Hi4.
      split; [done|]. rewrite Hx. simpl. by rewrite R5, state_enter.
  - twp_step. eexists. split; [done|]. simpl. by rewrite Hr4.
Qed.

(** ** Questions *)

(** The request of a key that is neither new nor to be reopened. *)
Definition asked (n : Z) (key : string) (id : uuid) (s : Session) : Prop :=
  exists r, find_input key (inputs_of s) = Some r /\ inp_id r = id /\ reopens n r = false.

Definition may_ask (n : Z) (s : Session) : Prop :=
  n = run_current_attempt (run_of s) /\
  otruthy (jget "userInput" (run_permissions_snapshot (run_of s))) = true /\
  run_state (run_of s) ∈ [RUNNING; WAITING_INPUT].

Lemma find_map_key key f l :
  (forall r, inp_key (f r) = inp_key r) ->
  List.find (fun r => String.eqb (inp_key r) key)
    (map (fun r => if String.eqb (inp_key r) key then f r else r) l)
  = f <$> List.find (fun r => String.eqb (inp_key r) key) l.
Proof.
  intros Hf. induction l as [|r l IH]; simpl; [done|].
  destruct (String.eqb (inp_key r) key) eqn:E; simpl; [by rewrite Hf, E|by rewrite E].
Qed.

Lemma permissions_enter t now err rt r :
  run_permissions_snapshot (enter t now err rt (account now r)) = run_permissions_snapshot r.
Proof.
  assert (H : run_identity (enter t now err rt (account now r)) = run_identity r).
  { destruct (enter_fields t now err rt (account now r)) as (_ & _ & _ & _ & _ & -> & _).
    apply account_fields. }
  unfold run_identity in H. congruence.
Qed.

(** The state after [wait_for_input]. *)
Lemma wait_for_input_spec n key id s0 s :
  may_ask n s0 -> run_of s = run_of s0 -> asked n key id s ->
  wp (wait_for_input key) (fun _ s' => may_ask n s' /\ asked n key id s') s.
Proof.
  intros (Hn & Hp & Hst) Hr Ha. unfold wait_for_input. wp_step. apply wp_gets.
  change (rr_run (se_rows s)) with (run_of s). rewrite Hr. apply wp_when; intros Hw.
  - apply bool_decide_eq_true in Hw.
    assert (T : twp (move WAITING_INPUT (input_reason key))
      (fun _ s' => may_ask n s' /\ asked n key id s') s).
    { apply twp_move; [by rewrite Hr, Hw|]. intros s' now R I _. split.
      - unfold may_ask. rewrite R, state_enter, attempt_enter, permissions_enter, Hr.
        split_and!; [done|done|set_solver].
      - unfold asked. by rewrite I. }
    by apply twp_wp.
  - split; [|done]. unfold may_ask. by rewrite Hr.
Qed.

Lemma wait_for_input_inputs key s :
  wp (wait_for_input key) (fun _ s' => inputs_of s' = inputs_of s) s.
Proof.
  unfold wait_for_input. wp_step. apply wp_gets. apply wp_when; intros Hw; [|done].
  unfold wp, move, transition, bind, the_run, gets, guard.
  by destruct (can_transition (run_state (rr_run (se_rows s))) WAITING_INPUT).
Qed.

(** The request [r] is the one of [key], open until [now + timeout]. *)
Definition opened (n : Z) (key : string) (id : uuid) (deadline : instant) (s : Session) : Prop :=
  exists r, find_input key (inputs_of s) = Some r /\ inp_id r = id /\ reopens n r = false /\
    inp_deadline r = deadline.

(** The event and the move to WAITING_INPUT that follow a new or reopened request. *)
Lemma request_tail n key id deadline payload s0 s :
  may_ask n s0 -> run_of s = run_of s0 -> opened n key id deadline s ->
  wp (append_event "run.input_requested" payload ;; wait_for_input key ;; ret id)
    (fun id' s' => id' = id /\ may_ask n s' /\ opened n key id deadline s') s.
Proof.
  intros Hm Hr (r & Hf & Hid & Hro & Hd). wp_step.
  assert (T : twp (append_event "run.input_requested" payload)
    (fun _ s1 => run_of s1 = run_of s /\ inputs_of s1 = inputs_of s) s) by done.
  eapply wp_mono; [exact (twp_wp _ _ _ T)|]. intros e s1 [R1 I1]. wp_step.
  eapply wp_mono; [apply wp_and; [apply (wait_for_input_spec n key id s0 s1)|apply wait_for_input_inputs]|].
  - done.
  - congruence.
  - exists r. by rewrite I1.
  - intros [] s2 [[M A] I2]. apply wp_ret. split_and!; [done|done|]. exists r. by rewrite I2, I1.
Qed.

Lemma find_snoc key l r :
  find_input key l = None -> inp_key r = key -> find_input key (l ++ [r]) = Some r.
Proof.
  unfold find_input. intros Hn Hk. induction l as [|x l IH]; simpl in *.
  - by rewrite Hk, String.eqb_refl.
  - destruct (String.eqb (inp_key x) key); [done|by apply IH].
Qed.

Lemma ask_open_spec n key title prompt schema timeout preview s :
  may_ask n s ->
  wp (ask_open (run_of s) n key title prompt schema timeout preview (find_input key (inputs_of s)))
    (fun id s' => may_ask n s' /\ exists now, opened n key id (now + seconds timeout) s' /\
        seconds timeout <= seconds (run_max_input_wait_seconds (run_of s)) - wait_seconds (run_of s) now) s.
Proof.
  intros Hm. unfold ask_open. wp_step. apply wp_check; intros _. wp_step.
  apply (wp_mono _ (fun _ s' => s' = s)).
  { destruct preview; [by apply wp_check; intros|by apply wp_ret]. }
  intros [] ? ->. wp_step. apply wp_tick; intros _. wp_step. apply wp_guard; intros Hb.
  apply negb_true_iff, orb_false_iff in Hb as [_ Hb%Z.ltb_ge]. set (now := wall (se_tick s)) in *.
  destruct (find_input key (inputs_of s)) as [r|] eqn:Hf.
  - wp_step. apply wp_modify.
    eapply wp_mono; [eapply (request_tail n key (inp_id r) (now + seconds timeout) _ s); [done|done|]|].
    + unfold opened, inputs_of, find_input. simpl. change (rr_inputs (se_rows s)) with (inputs_of s).
      rewrite find_map_key by done. unfold find_input in Hf. rewrite Hf. simpl. by eexists.
    + intros id s' (-> & M & O). split; [done|]. by exists now.
  - wp_step. unfold uuid7, wp at 1. wp_step. apply wp_modify.
    eapply wp_mono; [eapply (request_tail n key (se_fresh s) (now + seconds timeout) _ s); [done|done|]|].
    + unfold opened, inputs_of. simpl. change (rr_inputs (se_rows s)) with (inputs_of s).
      eexists. split; [by apply find_snoc|done].
    + intros id s' (-> & M & O). split; [done|]. by exists now.
Qed.

(** Whether [ask] opens a request: the key is new, or an earlier attempt left it closed. *)
Definition opens (n : Z) (key : string) (s : Session) : bool :=
  match find_input key (inputs_of s) with Some r => reopens n r | None => true end.

Lemma ask_spec n key title prompt schema timeout preview s :
  wp (ask n key title prompt schema timeout preview)
    (fun id s' => may_ask n s /\ may_ask n s' /\ asked n key id s' /\
       (opens n key s = true -> exists now, opened n key id (now + seconds timeout) s' /\
          seconds timeout <= seconds (run_max_input_wait_seconds (run_of s)) - wait_seconds (run_of s) now)) s.
Proof.
  unfold ask, require_attempt. do 2 wp_step. apply wp_gets. apply wp_guard; intros Hn.
  wp_step. apply wp_gets. wp_step. apply wp_guard; intros Hp. wp_step. apply wp_guard; intros Hst.
  wp_step. apply wp_gets. change (rr_run (se_rows s)) with (run_of s) in *.
  change (rr_inputs (se_rows s)) with (inputs_of s).
  assert (Hm : may_ask n s) by (split_and!; [by apply Z.eqb_eq|done|by apply bool_decide_eq_true in Hst]).
  assert (Hopen : wp (ask_open (run_of s) n key title prompt schema timeout preview
    (find_input key (inputs_of s))) (fun id s' => may_ask n s /\ may_ask n s' /\ asked n key id s' /\
       (opens n key s = true -> exists now, opened n key id (now + seconds timeout) s' /\
          seconds timeout <= seconds (run_max_input_wait_seconds (run_of s)) - wait_seconds (run_of s) now)) s).
  { eapply wp_mono; [by apply ask_open_spec|]. intros id s' (M & now & O & B).
    split_and!; [done|done| |by eauto]. destruct O as (r & H1 & H2 & H3 & _). by exists r. }
  unfold opens in *. destruct (find_input key (inputs_of s)) as [r|] eqn:Hf; [|done].
  apply wp_if; intros Hre; [|done]. apply negb_true_iff in Hre. wp_step.
  assert (Ha : asked n key (inp_id r) s) by by exists r.
  apply (wp_mono _ (fun _ s' => may_ask n s' /\ asked n key (inp_id r) s')).
  - apply wp_when; intros Hw; [|done]. apply andb_true_iff in Hw as [_ Hw%bool_decide_eq_true].
    apply twp_wp, twp_move; [by rewrite Hw|]. intros s' now R I _. split.
    + unfold may_ask. rewrite R, state_enter, attempt_enter, permissions_enter.
      destruct Hm as (? & ? & _). split_and!; [done|done|set_solver].
    + unfold asked. by rewrite I.
  - intros [] s' [M A]. apply wp_ret. split_and!; [done|done|done|]. by rewrite Hre.
Qed.

(** Asking is idempotent per key: once [ask] has returned a request, asking again with
    the same key in the same attempt returns the same request, whatever text, schema or
    timeout it now carries, and leaves every request as it is. *)
Theorem ask_idempotent n key title prompt schema timeout preview title' prompt' schema' timeout' preview'
    s id s' :
  ask n key title prompt schema timeout preview s = Ok (id, s') ->
  exists s2, ask n key title' prompt' schema' timeout' preview' s' = Ok (id, s2) /\
    inputs_of s2 = inputs_of s'.
Proof.
  intros Ha. destruct (wp_run _ _ _ _ _ (ask_spec n key title prompt schema timeout preview s) Ha)
    as (_ & (Hn & Hp & Hst) & (r & Hf & Hid & Hre) & _).
  enough (T : twp (ask n key title' prompt' schema' timeout' preview')
    (fun id2 s2 => id2 = id /\ inputs_of s2 = inputs_of s') s').
  { apply twp_result in T as (id2 & s2 & H1 & -> & H2). eauto. }
  unfold ask, require_attempt. do 3 twp_step. apply twp_guard; [by apply Z.eqb_eq|]. do 3 twp_step.
  apply twp_guard; [done|]. twp_step. apply twp_guard; [by apply bool_decide_eq_true_2|]. do 2 twp_step.
  rewrite Hf, Hre. simpl. twp_step. apply twp_when; intros Hw.
  - apply andb_true_iff in Hw as [_ Hw%bool_decide_eq_true]. apply twp_move; [by rewrite Hw|].
    intros s2 now _ I _. by twp_step.
  - by twp_step.
Qed.

(** No question outlives the waiting budget: when [ask] opens or reopens a request, its
    deadline is at most the unused part of maxInputWaitSeconds away from the moment it was
    opened, counting the wait still in progress. *)
Theorem ask_within_budget n key title prompt schema timeout preview s id s' :
  ask n key title prompt schema timeout preview s = Ok (id, s') -> opens n key s = true ->
  exists now r, find_input key (inputs_of s') = Some r /\ inp_id r = id /\
    inp_deadline r - now <= seconds (run_max_input_wait_seconds (run_of s)) - wait_seconds (run_of s) now.
Proof.
  intros Ha Ho. destruct (wp_run _ _ _ _ _ (ask_spec n key title prompt schema timeout preview s) Ha)
    as (_ & _ & _ & HO). destruct (HO Ho) as (now & (r & H1 & H2 & _ & H3) & HB).
  exists now, r. split_and!; [done|done|lia].
Qed.
End calls.

(** ** The limits the reconciler enforces *)

Section limits.
Context {clk : Clock} {JS : JsonSchema}.
Implicit Types (s : Session).

Definition over_active (now : instant) (r : AgentRun) : bool :=
  mem (run_state r) ACTIVE_CLOCK_STATES && (seconds (run_active_timeout_seconds r) <? active_seconds r now).
Definition over_wait (now : instant) (r : AgentRun) : bool :=
  bool_decide (run_state r = WAITING_INPUT)
  && (seconds (run_max_input_wait_seconds r) <? wait_seconds r now).

(** A request whose deadline has passed and is still open. *)
Definition overdue (now : instant) (r : InputRequest) : bool := is_pending r && (inp_deadline r <=? now).

Definition lost (now : instant) (s : Session) : bool :=
  heartbeat_lost now (attempts_of s !! run_current_attempt (run_of s)).

(** The run ended with the error [c]. *)
Definition ended_with (target : RunState) (c : string) (retryable : bool) (s : Session) : Prop :=
  run_state (run_of s) = target /\ run_retryable (run_of s) = retryable /\
  (exists err, run_error (run_of s) = Some err /\ jget "code" err = Some (JStr c)) /\
  ~ has_pending (inputs_of s).

Lemma fail_run_ends c m rt (i : bool) s :
  run_state (run_of s) ∈ WATCHED_STATES ->
  twp (fail_run c m rt i None) (fun _ => ended_with (if i then INTERRUPTED else FAILED) c rt) s.
Proof.
  intros Hw. eapply twp_mono; [apply fail_run_total|].
  - clear -Hw. destruct (run_state (run_of s)); try done; set_solver.
  - clear -Hw. destruct (run_state (run_of s)), i; try done; set_solver.
  - intros [] s' [(S1 & S2 & S3) S4]. split_and!; try done. eexists. by split.
Qed.

Lemma check_limits_correct now s :
  run_state (run_of s) ∈ WATCHED_STATES ->
  twp (check_limits now) (fun _ s' =>
    if over_active now (run_of s) then ended_with FAILED "ACTIVE_TIMEOUT" false s'
    else if lost now s then ended_with INTERRUPTED "HEARTBEAT_LOST" true s'
    else s' = s) s.
Proof.
  intros Hw. unfold check_limits. do 2 twp_step. fold (over_active now (run_of s)).
  destruct (over_active now (run_of s)).
  - twp_step. eapply twp_mono; [by apply (fail_run_ends _ _ false false)|]. intros; by twp_step.
  - do 2 twp_step. fold (lost now s). destruct (lost now s); [|by twp_step].
    twp_step. eapply twp_mono; [by apply (fail_run_ends _ _ true true)|]. intros; by twp_step.
Qed.

Lemma overdue_count now l :
  (Z.of_nat (length (List.filter (overdue now) l)) =? 0) = negb (existsb (overdue now) l).
Proof.
  induction l as [|r l IH]; simpl; [done|]. destruct (overdue now r); simpl; done.
Qed.

Lemma existsb_closed now st l :
  existsb (overdue now) l = false -> closed_by (overdue now) st l = l.
Proof.
  unfold closed_by. induction l as [|r l IH]; simpl; [done|]. intros [-> H]%orb_false_iff. by rewrite IH.
Qed.

(** The requests past their deadline are closed; the run resumes when none is left. *)
Lemma expire_inputs_correct now s :
  run_state (run_of s) = WAITING_INPUT ->
  twp (expire_inputs now) (fun n s' =>
    (n =? 0) = negb (existsb (overdue now) (inputs_of s)) /\
    inputs_of s' = closed_by (overdue now) inp_expired (inputs_of s) /\
    (if n =? 0 then run_of s' = run_of s /\ attempts_of s' = attempts_of s else
     run_state (run_of s') = if existsb is_pending (inputs_of s') then WAITING_INPUT else RUNNING)) s.
Proof.
  intros Hw. unfold expire_inputs. fold (overdue now). twp_step.
  eapply twp_mono; [apply close_where_total|]. intros n s1 (R1 & I1 & A1 & Hn).
  change (rr_attempts (se_rows s1) = rr_attempts (se_rows s)) with (attempts_of s1 = attempts_of s) in A1.
  assert (Hz : (n =? 0) = negb (existsb (overdue now) (inputs_of s))) by (rewrite Hn; apply overdue_count).
  twp_step. apply twp_when; intros Hc.
  - apply negb_true_iff in Hc. unfold resume_if_no_pending. do 2 twp_step. rewrite R1.
    rewrite bool_decide_eq_true_2 by done. do 2 twp_step.
    destruct (existsb is_pending (inputs_of s1)) eqn:Hp.
    + twp_step. twp_step. rewrite Hc, Hp, R1. by rewrite Hc in Hz.
    + apply twp_move; [by rewrite R1, Hw|]. intros s2 t R2 I2 _. twp_step.
      rewrite Hc, I2, Hp, R2, state_enter. by rewrite Hc in Hz.
  - twp_step. apply negb_false_iff in Hc. rewrite Hc in *. done.
Qed.

(** The reconciler's verdict on a watched run always commits and is decided by its
    clocks: a run over its active-time limit fails with ACTIVE_TIMEOUT and a run over its
    waiting limit with INPUT_TIMEOUT, neither retryably; within its limits, a waiting run
    has its overdue requests closed and resumes when none is left open; failing that, a
    run whose heartbeat lease ran out is INTERRUPTED, retryably; any other run is left
    exactly as it was, requests included. *)
Theorem limits_enforced now s :
  run_state (run_of s) ∈ WATCHED_STATES ->
  exists f s', reconcile_run now s = Ok (f, s') /\
    if over_active now (run_of s) then ended_with FAILED "ACTIVE_TIMEOUT" false s'
    else if over_wait now (run_of s) then ended_with FAILED "INPUT_TIMEOUT" false s'
    else if bool_decide (run_state (run_of s) = WAITING_INPUT) && existsb (overdue now) (inputs_of s) then
      inputs_of s' = closed_by (overdue now) inp_expired (inputs_of s) /\
      run_state (run_of s') = (if existsb is_pending (inputs_of s') then WAITING_INPUT else RUNNING)
    else if lost now s then ended_with INTERRUPTED "HEARTBEAT_LOST" true s'
    else run_of s' = run_of s /\ inputs_of s' = inputs_of s /\ attempts_of s' = attempts_of s.
Proof.
  intros Hw. apply (twp_result _ (fun f s' => if over_active now (run_of s) then _ else _)).
  unfold reconcile_run, over_wait. do 2 twp_step.
  destruct (bool_decide (run_state (run_of s) = WAITING_INPUT)) eqn:Hb; simpl.
  - apply bool_decide_eq_true in Hb.
    assert (Ha : over_active now (run_of s) = false) by (unfold over_active; by rewrite Hb).
    rewrite Ha. destruct (_ <? _).
    { twp_step. eapply twp_mono; [by apply (fail_run_ends _ _ false false)|]. intros; by twp_step. }
    twp_step. eapply twp_mono; [by apply expire_inputs_correct|]. intros n s1 (Hn & I1 & Hr).
    destruct (n =? 0) eqn:Hn0; simpl.
    + symmetry in Hn. apply negb_true_iff in Hn. rewrite Hn. destruct Hr as [R1 A1].
      rewrite existsb_closed in I1 by done.
      eapply twp_mono; [apply check_limits_correct; by rewrite R1|].
      intros f s2. rewrite R1, Ha. unfold lost. rewrite R1, A1. by destruct (heartbeat_lost _ _); [|intros ->].
    + twp_step. symmetry in Hn. apply negb_false_iff in Hn. by rewrite Hn.
  - eapply twp_mono; [by apply check_limits_correct|].
    intros f s2. destruct (over_active _ _); [done|]. destruct (lost _ _); [done|by intros ->].
Qed.
End limits.
