(* ===== verification/World.v ===== *)
(** * Workers, the job queue and the reconciler together

    The worker handlers, the reconciler and the exit watcher as steps of one system, and
    its invariant along every interleaving. *)

From S2P Require Import Prelude TimeUtil Json Redaction SchemaGuard States Jobs RunModel RunService RunInv.
From S2P Require Import RunOps Platform Capability Worker Reconciler.
#[local] Open Scope Z_scope.

Section safe.
Context {clk : Clock} {JS : JsonSchema} {J : Jwt} (st : Settings).
Implicit Types (s : Session).

Lemma dispatch_prepare_safe installations versions n :
  run_safe (dispatch_prepare st installations versions n).
Proof.
  intros s. op_start s. unfold dispatch_prepare, begin_attempt. op_step. op_step.
  apply wp_if; intros Hg; [by repeat op_step; settle|]. reflect_all. subst n.
  repeat op_step.
  all: try (done || settle).
  all: eapply wp_kept; [|intros; by apply fail_run_kept|intros; by apply wp_ret]; settle.
Qed.

Lemma dispatch_record_safe n ref : run_safe (dispatch_record st n ref).
Proof.
  intros s. op_start s. unfold dispatch_record. repeat op_step. all: try (done || settle).
Qed.

Lemma cancel_commit_safe ref : run_safe (cancel_commit ref).
Proof. intros s. op_start s. unfold cancel_commit. repeat op_step. all: try (done || settle). Qed.

Lemma check_limits_safe now : run_safe (check_limits now).
Proof.
  intros s. op_start s. unfold check_limits. repeat op_step.
  all: try (eapply wp_mono; [by apply fail_run_kept|]; intros; by apply wp_ret).
  settle.
Qed.

Lemma reconcile_run_safe now : run_safe (reconcile_run now).
Proof.
  intros s HI. unfold reconcile_run. wp_step. apply wp_the_run; intros r Hr.
  apply wp_if; intros Hw; [|by apply check_limits_safe].
  apply wp_if; intros Ht; wp_step.
  - eapply wp_mono; [by apply fail_run_kept|]. intros; by apply wp_ret.
  - eapply wp_mono; [by apply expire_inputs_kept|]. intros n s' K. apply wp_if; intros Hn; [by apply wp_ret|].
    eapply wp_kept; [exact K|intros; by apply check_limits_safe|done].
Qed.

(** A failure settles a run whatever was missing: no job and no attempt row are needed. *)
Lemma fail_run_settles c m rt (i : bool) d s :
  log_ok (se_rows s) -> base (view s) -> history (view s) ->
  mem (v_state (view s)) TERMINAL_STATES = false ->
  can_transition (v_state (view s)) (if i then INTERRUPTED else FAILED) = true ->
  wp (fail_run c m rt i d) (fun _ => kept s) s.
Proof.
  intros L B [Hatt Hcan] Hnt Hct. pose proof (evolves_refl s) as E. change unchanged with (fun v : View => v) in E.
  unfold fail_run, close_pending_inputs. destruct i; repeat op_step.
  all: try (rewrite Hnt, Hct in *; done).
  all: eapply kept_intro; [eassumption|done|cbv beta; solve_base|].
  all: clear - Hatt Hcan Hct; destruct (view s) as [vid vst vatt vcan vinp vatts vjobs];
    unfold history, forward; simpl in *; split_and!; try done; try (by apply closed_none_pending);
    destruct vst; try refute_state; solve_history.
Qed.

Lemma history_move v t :
  history v -> v_state v = QUEUED -> history (v <| v_state := t |>).
Proof.
  intros [H1 H2] Hst. split; simpl; [done|]. intros n Hn. apply H2 in Hn as [_ [Hn|Hn]]; congruence.
Qed.

(** [QUEUED] to [PREPARING] to [FAILED], as [on_dead_job] does it. *)
Lemma fail_queued_settles c m rt d s :
  log_ok (se_rows s) -> base (view s) -> history (view s) -> v_state (view s) = QUEUED ->
  wp (move PREPARING None ;; fail_run c m rt false d) (fun _ => kept s) s.
Proof.
  intros L B H Hst. wp_step. apply wp_move. intros _ s1 E1. eapply wp_mono.
  - apply fail_run_settles; rewrite ?(evolves_view _ _ _ E1); try done.
    + by apply (evolves_log _ _ _ E1).
    + by apply base_move.
    + by apply history_move.
  - intros [] s2 (F & I & M). split; [etrans; [apply (evolves_frame _ _ _ E1)|done]|]. split; [done|].
    eapply forward_trans; [|exact M]. rewrite (evolves_view _ _ _ E1). clear -Hst.
    generalize dependent (view s). intros v Hst. unfold forward; simpl. rewrite Hst. by split_and!.
Qed.

(** The job that a run cannot do without, by its state. *)
Definition needed_key (v : View) : option DedupeKey :=
  match v_state v with
  | QUEUED => Some (KRunAttempt (v_id v) (v_attempt v))
  | CANCELLING => Some (KRunCancel (v_id v) (v_attempt v))
  | _ => None
  end.

(** [settled] but for that job. *)
Definition unjobbed (v : View) : Prop :=
  is_Some (needed_key v) /\ ~ has_pending (v_inputs v) /\
  (v_state v = CANCELLING -> has_current v /\ is_Some (v_cancel v)).

(** The dead job [(typ, payload)] is the one the run needed. *)
Definition owing (typ : string) (pl : JobPayload) (v : View) : Prop :=
  exists k, needed_key v = Some k /\ key_typed typ pl (Some k).

(** [on_dead_job] settles the run whose job it was. *)
Lemma settle_dead_settles typ pl s :
  log_ok (se_rows s) -> base (view s) -> history (view s) -> unjobbed (view s) ->
  owing typ pl (view s) ->
  wp (settle_dead typ (pl_attempt pl)) (fun _ => kept s) s.
Proof.
  intros L B H (_ & Hp & Hc) (k & Hk & Ht). pose proof (evolves_refl s) as E.
  change unchanged with (fun v : View => v) in E. unfold settle_dead. op_step. op_step.
  unfold needed_key in Hk. destruct (v_state (view s)) eqn:Hst; try done; injection Hk as <-;
    destruct Ht as [-> ->]; simpl; rewrite Z.eqb_refl; simpl.
  - change (bool_decide (QUEUED = QUEUED)) with true. by apply fail_queued_settles.
  - repeat op_step. eapply kept_intro; [eassumption|done|by apply base_move|].
    clear -H Hst Hp. remember (view s) as v. destruct H as [H1 H2].
    unfold history, forward, settled; simpl. rewrite Hst. split_and!; try done.
    intros n Hn. apply H2 in Hn as [-> _]. auto.
Qed.

Lemma settle_dead_safe typ att : run_safe (settle_dead typ att).
Proof.
  intros s HI. unfold settle_dead. wp_step. apply wp_the_run; intros r Hr. rewrite (row_state _ _ Hr).
  assert (K : kept s s).
  { revert HI. op_start s. settle. }
  apply wp_if; intros Ha; [by apply wp_ret|]. apply wp_if; intros Hd.
  - unfold when. destruct (bool_decide (v_state (view s) = QUEUED)) eqn:Hq.
    + apply bool_decide_eq_true in Hq. destruct HI as (L & B & _ & H). by apply fail_queued_settles.
    + by apply fail_run_kept.
  - apply wp_if; intros Hc; [|by apply wp_ret]. clear K. revert HI. op_start s. repeat op_step. settle.
Qed.
End safe.

(** ** Changes of the jobs table alone *)

(** What is known of a run while the dead jobs [X] are still to be processed. *)
Definition owed (X : list Job) (s : Session) : Prop :=
  log_ok (se_rows s) /\ base (view s) /\ history (view s) /\
  (settled (view s) \/
   unjobbed (view s) /\ Exists (fun j => owing (job_type j) (job_payload j) (view s)) X).

Lemma owed_nil s : owed [] s <-> run_inv s.
Proof.
  unfold owed, run_inv. rewrite Exists_nil. naive_solver.
Qed.

Lemma settled_or v q' (L : DedupeKey -> Prop) :
  settled v -> (forall k, has_live k (v_jobs v) -> has_live k q' \/ L k) ->
  settled (v <| v_jobs := q' |>) \/
  unjobbed (v <| v_jobs := q' |>) /\ exists k, needed_key v = Some k /\ L k.
Proof.
  unfold settled, unjobbed, needed_key, has_current. intros S HL.
  destruct v as [vid vst vatt vcan vinp vatts vjobs]; simpl in *. destruct vst; simpl in *; auto.
  - destruct S as [S1 S2]. destruct (HL _ S2); [auto|]. right. split; [|by eexists].
    split_and!; [by eexists|done|done].
  - destruct S as (S1 & S2 & S3 & S4). destruct (HL _ S4); [auto|]. right. split; [|by eexists].
    split_and!; [by eexists|done|done].
Qed.

Lemma jobs_update_facts (R R' : Session -> Prop) d q' :
  platform_facts R d -> queue_ok q' -> idents q' = idents (db_jobs d) ->
  (forall rid rr, db_runs d !! rid = Some rr -> R (open_session d rr) ->
     R' (open_session (d <| db_jobs := q' |>) rr)) ->
  platform_facts R' (d <| db_jobs := q' |>).
Proof.
  intros [P1 P2 P3 P4 PT PK P5 P6] Hq Hid HR. split; simpl; try done.
  - intros rid rr Hrr. apply (HR rid); [done|]. by apply (P3 rid).
  - unfold jobs_typed. by rewrite Hid.
  - intros k r Hk. rewrite (same_keys (db_jobs d)) by done. by apply PK.
Qed.

Lemma base_jobs_change v q' : base v -> queue_ok q' -> base (v <| v_jobs := q' |>).
Proof. intros [B1 B2 B3 B4] Hq. by split. Qed.

Lemma history_jobs_change v q' :
  history v -> idents q' = idents (v_jobs v) -> history (v <| v_jobs := q' |>).
Proof.
  intros [H1 H2] Hid. split; simpl; intros n; rewrite (same_keys (v_jobs v)) by done; auto.
Qed.

(** An update of the table under which every lost key is accounted for by [L]. *)
Lemma jobs_update_owed d q' X (L : DedupeKey -> Prop) :
  platform_inv d -> queue_ok q' -> idents q' = idents (db_jobs d) ->
  (forall k, has_live k (db_jobs d) -> has_live k q' \/ L k) ->
  (forall k rid rr, db_runs d !! rid = Some rr -> needed_key (view (open_session d rr)) = Some k -> L k ->
     exists j, j ∈ X /\ key_typed (job_type j) (job_payload j) (Some k)) ->
  platform_facts (owed X) (d <| db_jobs := q' |>).
Proof.
  intros P Hq Hid HL HX. eapply jobs_update_facts; [exact P|done|done|].
  intros rid rr Hrr (Lg & B & S & H). set (v := view (open_session d rr)) in *.
  assert (Hv : view (open_session (d <| db_jobs := q' |>) rr) = v <| v_jobs := q' |>) by done.
  unfold owed. rewrite Hv. split; [done|]. split; [by apply base_jobs_change|].
  split; [by apply history_jobs_change|].
  destruct (settled_or v q' L S HL) as [S'|[U (k & Hk & Hl)]]; [by left|right]. split; [done|].
  destruct (HX k rid rr Hrr Hk Hl) as (j & Hj & Ht). apply Exists_exists. exists j. split; [done|].
  by exists k.
Qed.

(** An update that loses no key. *)
Lemma jobs_update_inv d q' :
  platform_inv d -> queue_ok q' -> idents q' = idents (db_jobs d) ->
  (forall k, has_live k (db_jobs d) -> has_live k q') -> platform_inv (d <| db_jobs := q' |>).
Proof.
  intros P Hq Hid HL. assert (PO : platform_facts (owed []) (d <| db_jobs := q' |>)).
  { eapply (jobs_update_owed _ _ _ (fun _ => False)); eauto. done. }
  destruct PO as [P1 P2 P3 P4 PT PK P5 P6]. split; try done.
  intros rid rr Hrr. apply owed_nil. by apply (P3 rid).
Qed.

(** ** Processing dead jobs *)

(** A session's invariant reads only its rows and the jobs table. *)
Lemma owed_session X s q t n w :
  q = se_jobs s -> owed X s -> owed X (mkSession (se_rows s) q t n w).
Proof. by intros ->. Qed.

Lemma run_inv_owed X s : run_inv s -> owed X s.
Proof. intros (L & B & S & H). split_and!; auto. Qed.

Lemma owing_run typ pl v : owing typ pl v -> pl_run_id pl = Some (v_id v).
Proof.
  intros (k & Hk & Ht). unfold needed_key in Hk. destruct (v_state v); try done;
    injection Hk as <-; by destruct Ht as [_ ->].
Qed.

(** Runs other than the one that was worked on still stand as before. *)
Lemma owed_frame X i ri d rid rr s :
  run_id (rr_run ri) = i -> run_id (rr_run rr) = rid -> i <> rid ->
  frame (open_session d rr) s -> queue_ok (se_jobs s) ->
  owed X (open_session d ri) -> owed X (open_session (close_session d rid s) ri).
Proof.
  intros Hi Hr Hne F Hq (L & B & H & S). pose proof (frame_jobs _ _ F) as FJ.
  pose proof (frame_keys _ _ F) as FK. simpl in FJ, FK.
  assert (Hv : view (open_session (close_session d rid s) ri) =
    view (open_session d ri) <| v_jobs := se_jobs s |>) by done.
  split; [done|]. rewrite Hv. split; [by apply base_jobs_change|]. split.
  - destruct H as [H1 H2]. split; simpl; intros n Hn;
      (apply FK in Hn as [Hn|Hn]; [by auto|simpl in Hn; congruence]).
  - destruct S as [S|S]; [left|by right].
    destruct (settled_or _ (se_jobs s) (fun k => job_key_run k = Some rid) S) as [S'|[U (k & Hk & Hl)]];
      [|done|exfalso].
    + intros k Hk. destruct (decide (job_key_run k = Some rid)); [by right|left].
      apply FJ; [congruence|done].
    + unfold needed_key in Hk. simpl in Hk. destruct (run_state (rr_run ri)); try done;
        injection Hk as <-; simpl in Hl; congruence.
Qed.

Lemma drop_owed j js d :
  platform_facts (owed (j :: js)) d ->
  (forall rid rr, db_runs d !! rid = Some rr -> pl_run_id (job_payload j) <> Some rid) ->
  platform_facts (owed js) d.
Proof.
  intros [P1 P2 P3 P4 PT PK P5 P6] Hno. split; try done. intros rid rr Hrr.
  destruct (P3 rid rr Hrr) as (L & B & H & S). split_and!; try done. destruct S as [S|[U HE]]; [by left|right].
  split; [done|]. apply Exists_cons in HE as [Ho|HE]; [|done]. apply owing_run in Ho. simpl in Ho.
  rewrite (P1 _ _ Hrr) in Ho. by destruct (Hno _ _ Hrr Ho).
Qed.

Section dead.
Context {clk : Clock} {J : Jwt}.

Lemma settle_dead_unjobbed typ att s :
  log_ok (se_rows s) -> base (view s) -> history (view s) -> unjobbed (view s) ->
  wp (settle_dead typ att) (fun _ s' => kept s s' \/ s' = s) s.
Proof.
  intros L B H (Hk & Hp & Hc). unfold settle_dead. wp_step. apply wp_the_run; intros r Hr.
  rewrite (row_state _ _ Hr). apply wp_if; intros Ha; [apply wp_ret; by right|].
  unfold needed_key in Hk. destruct (v_state (view s)) eqn:Hst; try (by destruct Hk).
  - apply wp_if; intros Hd.
    + eapply wp_mono; [by apply fail_queued_settles|]. auto.
    + apply wp_if; intros Hx; [|apply wp_ret; by right]. by rewrite andb_false_r in Hx.
  - apply wp_if; intros Hd; [by rewrite andb_false_r in Hd|].
    apply wp_if; intros Hx; [|apply wp_ret; by right].
    wp_step. apply wp_transition. intros _ e s1 E1. apply wp_ret. left.
    eapply kept_intro; [eassumption|done|by apply base_move|].
    clear -H Hst Hp. remember (view s) as v. destruct H as [H1 H2].
    unfold history, forward, settled; simpl. rewrite Hst. split_and!; try done.
    intros n Hn. apply H2 in Hn as [-> _]. auto.
Qed.

(** Settling the run of dead job [j] pays what was owed to [j]. *)
Lemma settle_dead_pays j js s :
  owed (j :: js) s ->
  wp (settle_dead (job_type j) (pl_attempt (job_payload j)))
    (fun _ s' => frame s s' /\ queue_ok (se_jobs s') /\ owed js s' /\ forward (view s) (view s')) s.
Proof.
  intros (L & B & H & S).
  assert (HK : forall s', kept s s' -> frame s s' /\ queue_ok (se_jobs s') /\ owed js s' /\
    forward (view s) (view s')).
  { intros s' (F & I & M). split; [done|]. split; [|split; [by apply run_inv_owed|done]].
    destruct I as (_ & [_ _ _ B'] & _). exact B'. }
  destruct S as [S|[U HE]].
  { eapply wp_mono; [by apply settle_dead_safe|]. auto. }
  apply Exists_cons in HE as [Ho|HE].
  { eapply wp_mono; [by apply settle_dead_settles|]. auto. }
  eapply wp_mono; [by apply settle_dead_unjobbed|]. intros u s' [K| ->]; [auto|].
  split; [done|]. split; [by destruct B|]. split; [by split_and!; auto|by apply forward_same].
Qed.

Lemma with_run_pays j js d rid :
  platform_facts (owed (j :: js)) d -> pl_run_id (job_payload j) = Some rid ->
  wp (with_run rid (settle_dead (job_type j) (pl_attempt (job_payload j))))
    (fun _ d' => platform_facts (owed js) d' /\ advances d d') d.
Proof.
  intros P Hrid. unfold wp, with_run. destruct (db_runs d !! rid) as [rr|] eqn:Hrr; [|done].
  pose proof (settle_dead_pays j js _ (pi_run P _ _ Hrr)) as Hs. unfold wp in Hs.
  destruct (settle_dead _ _ _) as [[u s]|e]; [|done]. destruct Hs as (F & Hq & Ho & M).
  split; [|by eapply close_session_advances].
  eapply close_session_facts; [exact P|exact Hrr|exact F|exact Hq| |].
  - by apply owed_session.
  - intros i ri Hne Hi (L & B & H & S).
    assert (Hjs : owed js (open_session d ri)).
    { split_and!; try done. destruct S as [S|[U HE]]; [by left|right]. split; [done|].
      apply Exists_cons in HE as [Hj|HE]; [|done]. apply owing_run in Hj. simpl in Hj.
      rewrite (pi_id P _ _ Hi) in Hj. congruence. }
    eapply owed_frame; [by apply (pi_id P)|by apply (pi_id P)|done|exact F|done|done].
Qed.

Lemma facts_audit R d f : platform_facts R d -> platform_facts R (d <| db_audit ::= f |>).
Proof. by intros []. Qed.

(** Whoever waits for the lock, or finds the run unlocked, settles it. *)
Lemma on_dead_job_pays j js d error nowait :
  (forall locked rid, nowait = Some locked -> pl_run_id (job_payload j) = Some rid -> locked rid = false) ->
  platform_facts (owed (j :: js)) d ->
  wp (on_dead_job (job_type j) (job_payload j) error nowait)
    (fun _ d' => platform_facts (owed js) d' /\ advances d d') d.
Proof.
  intros Hlk P. unfold on_dead_job, record_audit. wp_step. apply wp_modify.
  apply (facts_audit _ _ (fun l => l ++ [mkAudit "system" None "job.dead" (Some "job"%string)
    (uuid_str <$> pl_run_id (job_payload j)) "failure"
    (redact (if truthy (JObj [("jobType", JStr (job_type j)); ("error", error)]%string)
             then JObj [("jobType", JStr (job_type j)); ("error", error)]%string else JObj []))])) in P.
  match type of P with platform_facts _ ?x => assert (A : advances d x) by by apply advances_same end.
  revert P A. match goal with |- platform_facts _ ?x -> _ => generalize x end. intros d1 P A.
  apply (wp_mono _ (fun _ d' => platform_facts (owed js) d' /\ advances d1 d'));
    [|intros u d2 [P2 A2]; split; [done|by etrans]].
  destruct (pl_run_id (job_payload j)) as [rid|] eqn:Hrid.
  - destruct nowait as [locked|]; [|by apply with_run_pays].
    unfold with_run_nowait, wp. destruct (db_runs d1 !! rid) as [rr|] eqn:Hrr.
    + rewrite (Hlk locked rid) by done. by apply with_run_pays.
    + split; [|by apply advances_same]. eapply drop_owed; [exact P|]. intros i ri Hi. rewrite Hrid. congruence.
  - apply wp_ret. split; [|by apply advances_same].
    eapply drop_owed; [exact P|]. intros i ri Hi. by rewrite Hrid.
Qed.
End dead.

(** ** The worker's and the reconciler's transactions *)

(** No run waits for the job with this key. *)
Definition not_needed (d : DB) (key : option DedupeKey) : Prop :=
  forall k rid rr, key = Some k -> db_runs d !! rid = Some rr ->
    needed_key (view (open_session d rr)) <> Some k.

(** [job] is a row of the table as far as id, type, payload and key go. *)
Definition in_table (q : JobQueue) (job : Job) : Prop := job_ident job ∈ idents q.

Lemma in_table_row q job j :
  queue_ok q -> in_table q job -> j ∈ jq_rows q -> job_id j = job_id job -> job_ident j = job_ident job.
Proof.
  intros Hq Hin Hj Hid. apply list_elem_of_fmap in Hin as (r & Hr & Hin). rewrite Hr.
  f_equal. eapply same_id_same_row; [done|done|done|]. unfold job_ident in Hr. congruence.
Qed.

Lemma in_table_typed q job :
  jobs_typed q -> in_table q job -> key_typed (job_type job) (job_payload job) (job_dedupe_key job).
Proof. intros Ht Hin. by eapply Ht. Qed.

Lemma live_key_dedupe j k : live_key j = Some k -> job_dedupe_key j = Some k.
Proof. unfold live_key. by destruct (live j). Qed.

Lemma owed_none d : platform_facts (owed []) d -> platform_inv d.
Proof.
  intros [P1 P2 P3 P4 PT PK P5 P6]. split; try done. intros rid rr Hrr. apply owed_nil. by apply (P3 rid).
Qed.

Section transactions.
Context {clk : Clock} {J : Jwt} (st : Settings).

Lemma worker_claim_inv w lk d :
  platform_inv d ->
  wp (worker_claim st w lk) (fun job d' => platform_inv d' /\ db_runs d' = db_runs d /\
    (forall j, job = Some j -> in_table (db_jobs d') j) /\ idents (db_jobs d') = idents (db_jobs d)) d.
Proof.
  intros P. unfold worker_claim, wp.
  pose proof (claim_ok (db_now d) w (job_lease_seconds st) (Some handled_types) lk _ (pi_jobs P)) as Hq.
  pose proof (claim_idents (db_now d) w (job_lease_seconds st) (Some handled_types) lk (db_jobs d)) as Hid.
  pose proof (fun k => claim_keeps_live (db_now d) w (job_lease_seconds st) (Some handled_types) lk (db_jobs d) k) as HL.
  unfold claim in *. destruct (earliest _) as [j|] eqn:He; simpl in *.
  - split; [by apply jobs_update_inv|]. split; [done|]. split; [|done]. intros j' [= <-].
    unfold in_table. rewrite Hid. apply earliest_elem, matching_elem in He as [Hj _].
    apply list_elem_of_fmap. by exists j.
  - split; [by apply jobs_update_inv|]. split; [done|]. by split.
Qed.

Lemma worker_complete_inv w job d :
  platform_inv d -> in_table (db_jobs d) job -> not_needed d (job_dedupe_key job) ->
  wp (worker_complete w job) (fun _ d' => platform_inv d' /\ db_runs d' = db_runs d /\
    idents (db_jobs d') = idents (db_jobs d)) d.
Proof.
  intros P Hin Hno. unfold worker_complete, wp. simpl.
  assert (Hid : idents (complete (db_now d) (job_id job) w (db_jobs d)).2 = idents (db_jobs d))
    by (by apply update_where_idents).
  split; [|done].
  assert (PO : platform_facts (owed []) (d <| db_jobs := (complete (db_now d) (job_id job) w (db_jobs d)).2 |>)).
  { eapply (jobs_update_owed d _ [] (fun k => exists j, j ∈ jq_rows (db_jobs d) /\
      owned (job_id job) w j = true /\ live_key j = Some k)); [done|by apply complete_ok, P|done| |].
    - intros k. apply update_where_live_or.
    - intros k rid rr Hrr Hk (j & Hj & Hown & Hlk). exfalso. unfold owned in Hown. reflect_all.
      assert (Hi : job_ident j = job_ident job) by (eapply in_table_row; eauto; apply P).
      apply live_key_dedupe in Hlk. eapply (Hno k); [|exact Hrr|exact Hk].
      unfold job_ident in Hi. congruence. }
  by apply owed_none.
Qed.

Lemma worker_fail_inv w job e rnd d :
  platform_inv d -> in_table (db_jobs d) job ->
  wp (worker_fail w job e rnd) (fun _ d' => platform_inv d' /\ advances d d') d.
Proof.
  intros P Hin. unfold worker_fail. unfold wp.
  pose proof (fail_ok (db_now d) (job_id job) w (job_error e) (500 <=? err_status e) rnd _ (pi_jobs P)) as Hq.
  pose proof (fail_idents (db_now d) (job_id job) w (job_error e) (500 <=? err_status e) rnd (db_jobs d)) as Hid.
  unfold fail in *. destruct (matching _ _) as [|j js] eqn:Em; simpl in *.
  { split; [by apply jobs_update_inv|by apply advances_same]. }
  destruct ((500 <=? err_status e) && _); simpl in *.
  { split; [|apply advances_same; [done|simpl; by rewrite Hid]].
    apply jobs_update_inv; [done..|]. intros k. apply update_where_keeps_live.
    unfold live_key. intros x _ _. destruct x; simpl. by destruct (live _). }
  match goal with |- match on_dead_job ?a ?b ?c ?n ?d1 with _ => _ end =>
    enough (W : wp (on_dead_job a b c n) (fun _ d' => platform_facts (owed []) d' /\ advances d1 d') d1) end.
  { unfold wp in W. destruct (on_dead_job _ _ _ _ _) as [[u d']|]; [|done].
    destruct W as [W A]. split; [by apply owed_none|].
    etrans; [|exact A]. apply advances_same; [done|simpl; by rewrite Hid]. }
  apply on_dead_job_pays; [done|].
  eapply (jobs_update_owed d _ [job] (fun k => exists x, x ∈ jq_rows (db_jobs d) /\
    (job_id x =? job_id job) = true /\ live_key x = Some k)); [done|done|done| |].
  - intros k. apply update_where_live_or.
  - intros k rid rr Hrr Hk (x & Hx & Hxid & Hlk). reflect_all. exists job. split; [by left|].
    assert (Hi : job_ident x = job_ident job) by (by eapply (in_table_row (db_jobs d)); [apply P|..]).
    apply live_key_dedupe in Hlk. assert (job_dedupe_key job = Some k) as <-
      by (unfold job_ident in Hi; congruence).
    eapply in_table_typed; [apply P|done].
Qed.

Lemma reap_owes d : platform_inv d -> wp reap (fun r d' => platform_facts (owed r.2) d' /\ advances d d') d.
Proof.
  intros P. unfold reap, wp. pose proof (reap_ok (db_now d) _ (pi_jobs P)) as Hq.
  pose proof (reap_idents (db_now d) (db_jobs d)) as Hid. unfold reap_expired in *. simpl in *.
  set (q1 := update_where (reap_requeues (db_now d)) _ (db_jobs d)) in *.
  assert (Hid1 : idents q1 = idents (db_jobs d)) by (by apply update_where_idents).
  split; [|apply advances_same; [done|simpl; by rewrite Hid]].
  eapply (jobs_update_owed d _ _ (fun k => exists j, j ∈ jq_rows q1 /\
    reap_buries (db_now d) j = true /\ live_key j = Some k)); [done|done|done| |].
  - intros k Hk. apply update_where_live_or. revert Hk. apply update_where_keeps_live.
    unfold live_key. intros x _ _. destruct x; simpl. by destruct (live _).
  - intros k rid rr Hrr Hk (j & Hj & Hb & Hlk). exists j. split; [by apply matching_elem|].
    apply live_key_dedupe in Hlk. rewrite <- Hlk.
    apply (in_table_typed q1); [unfold jobs_typed; rewrite Hid1; apply P|].
    apply list_elem_of_fmap. by exists j.
Qed.

Lemma dead_loop_pays locked jobs d :
  (forall rid, locked rid = false) -> platform_facts (owed jobs) d ->
  wp (for_each jobs (fun job => on_dead_job (job_type job) (job_payload job) LEASE_EXPIRED (Some locked)))
    (fun _ d' => platform_inv d' /\ advances d d') d.
Proof.
  intros Hlk. revert d. induction jobs as [|j js IH]; intros d P; simpl.
  { split; [by apply owed_none|by apply advances_same]. }
  wp_step. eapply wp_mono; [apply (on_dead_job_pays j js); [|exact P]|].
  - intros l rid [= <-] _. apply Hlk.
  - intros [] d' [P' A]. eapply wp_mono; [by apply IH|]. intros u d2 [P2 A2]. split; [done|by etrans].
Qed.

Lemma fold_report_inv rids now report d :
  platform_inv d ->
  wp (fold_report rids (fun rid => with_run rid (reconcile_run now)) report)
    (fun _ d' => platform_inv d' /\ advances d d') d.
Proof.
  revert report d. induction rids as [|rid rids IH]; intros report d P; simpl.
  { split; [done|by apply advances_same]. }
  wp_step. eapply wp_mono; [apply with_run_inv; [apply reconcile_run_safe|done]|].
  intros f d' [P' A]. eapply wp_mono; [by apply IH|]. intros u d2 [P2 A2]. split; [done|by etrans].
Qed.

Lemma tick_inv locked now d :
  (forall rid, locked rid = false) -> platform_inv d ->
  wp (tick locked now) (fun _ d' => platform_inv d' /\ advances d d') d.
Proof.
  intros Hlk P. unfold tick. wp_step. eapply wp_mono; [by apply reap_owes|]. intros r d1 [P1 A1].
  cbv zeta. wp_step. eapply wp_mono; [by apply dead_loop_pays|]. intros u d2 [P2 A2].
  wp_step. apply wp_gets. eapply wp_mono; [by apply fold_report_inv|].
  intros rep d3 [P3 A3]. split; [done|]. etrans; [exact A1|]. by etrans.
Qed.
End transactions.

(** ** The system *)

(** Calls on one run from the control API and, through it, the broker and the gateway. *)
Inductive RunCall :=
| CallCancel (reason : string)
| CallRetry
| CallHandshake (attempt heartbeat_seconds : Z)
| CallHeartbeat (attempt heartbeat_seconds : Z)
| CallModelState (attempt : Z) (loading : bool) (model : option string)
| CallEvent (attempt : Z) (typ : string) (payload : Json)
| CallEvents (attempt : Z) (events : list AgentEventInput) (validator : option (Json -> list string))
| CallResult (attempt : Z) (status : string) (result error : option Json)
| CallAsk (attempt : Z) (key title prompt : string) (schema : Json) (timeout_seconds : Z)
    (preview : option Json)
| CallAnswer (request : uuid) (version : Z) (value : Json) (user : uuid)
| CallClaim (attempt : Z) (key : string) (claim_token : option string)
| CallComplete (attempt : Z) (key : string) (result : Json).

(** Where a worker loop is inside a handler. *)
Inductive Phase :=
| Start
| DispatchStart (spec : RunSpec)             (* phase 1 committed; next, [runtime.start_run] *)
| DispatchRecord (ref : string)              (* container started; next, phase 2 *)
| StopContainer (ref : string)               (* next, [runtime.stop_run], then return *)
| CancelStop (ref : option string)           (* next, [runtime.stop_run] if there is a container *)
| CancelCommit (ref : option string)         (* next, the locked part of [handle_cancel] *)
| Finished (r : Result PlatformError unit).  (* returned or raised; next, [complete] or [_fail] *)

Record Activity := mkActivity {
  ac_worker : string;
  ac_job : Job;
  ac_phase : Phase
}.

Record World := mkWorld {
  w_db : DB;
  w_acts : gmap nat Activity
}.

(** The container reference of an attempt: [start_run] is idempotent on (run, attempt). *)
Class Runtime := runtime_ref : uuid -> Z -> string.

Section system.
Context {clk : Clock} {JS : JsonSchema} {J : Jwt} {RT : Runtime} (st : Settings).

Definition drop {A} (m : RM A) : RM unit := m ;; ret tt.

Definition run_call (c : RunCall) : RM unit :=
  match c with
  | CallCancel reason => request_cancel reason
  | CallRetry => retry
  | CallHandshake n h => handshake n h
  | CallHeartbeat n h => drop (RunService.heartbeat n h)
  | CallModelState n l m => set_model_loading n l m
  | CallEvent n typ payload => drop (record_agent_event n typ payload)
  | CallEvents n es v => drop (record_agent_event_batch n es v)
  | CallResult n status res err => finish n status res err
  | CallAsk n key title prompt schema t preview => drop (ask n key title prompt schema t preview)
  | CallAnswer id ver value user => answer id ver value user
  | CallClaim n key tok => drop (claim_action n key tok)
  | CallComplete n key res => drop (complete_action n key res)
  end.

(** One phase of a handler; [up] tells whether a runtime call made in it succeeds. *)
Definition run_phase (up : bool) (a : Activity) (d : DB) : Phase * DB :=
  match ac_phase a, pl_run_id (job_payload (ac_job a)), pl_attempt (job_payload (ac_job a)) with
  | Start, Some rid, Some n =>
      if String.eqb (job_type (ac_job a)) JOB_DISPATCH then
        match with_run rid (dispatch_prepare st (db_installations d) (db_versions d) n) d with
        | Ok (Some spec, d') => (DispatchStart spec, d')
        | Ok (None, d') => (Finished (Ok tt), d')
        | Err e => (Finished (Err e), d)
        end
      else if String.eqb (job_type (ac_job a)) JOB_CANCEL then
        match cancel_read rid d with
        | None => (Finished (Ok tt), d)
        | Some ref => (CancelStop ref, d)
        end
      else
        match stop_ref rid n d with
        | Some ref => if String.eqb ref "" then (Finished (Ok tt), d) else (StopContainer ref, d)
        | None => (Finished (Ok tt), d)
        end
  | DispatchStart spec, Some rid, Some n =>
      (if up then DispatchRecord (runtime_ref rid n) else Finished (Err UNEXPECTED), d)
  | DispatchRecord ref, Some rid, Some n =>
      match with_run rid (dispatch_record st n ref) d with
      | Ok (true, d') => (StopContainer ref, d')
      | Ok (false, d') => (Finished (Ok tt), d')
      | Err e => (Finished (Err e), d)
      end
  | StopContainer ref, _, _ => (if up then Finished (Ok tt) else Finished (Err UNEXPECTED), d)
  | CancelStop ref, _, _ =>
      (if bool_decide (is_Some ref) && negb (bool_decide (ref = Some ""%string)) && negb up
       then Finished (Err UNEXPECTED) else CancelCommit ref, d)
  | CancelCommit ref, Some rid, _ =>
      match with_run rid (cancel_commit ref) d with
      | Ok (Some _, d') => if up then (Finished (Ok tt), d') else (Finished (Err UNEXPECTED), d)
      | Ok (None, d') => (Finished (Ok tt), d')
      | Err e => (Finished (Err e), d)
      end
  | Finished r, _, _ => (Finished r, d)
  | _, _, _ => (Finished (Err UNEXPECTED), d)
  end.

(** [execute] after the handler: complete the job, or fail it; an exception in that
    transaction leaves the job claimed. *)
Definition conclude (rnd : QArith_base.Q) (a : Activity) (r : Result PlatformError unit) (d : DB) : DB :=
  match r with
  | Ok _ => match worker_complete (ac_worker a) (ac_job a) d with Ok (_, d') => d' | Err _ => d end
  | Err e => match worker_fail (ac_worker a) (ac_job a) e rnd d with Ok (_, d') => d' | Err _ => d end
  end.

(** Steps of the system.  [skips] allows the reconciler to find run rows locked. *)
Inductive wstep (skips : bool) : World -> World -> Prop :=
| step_call d acts rid c d' :
    with_run rid (run_call c) d = Ok (tt, d') -> wstep skips (mkWorld d acts) (mkWorld d' acts)
| step_create d acts ins ver args res d' :
    create_run ins ver args d = Ok (res, d') -> wstep skips (mkWorld d acts) (mkWorld d' acts)
| step_other d acts d' :    (* time passes; other tables change *)
    db_runs d' = db_runs d -> db_jobs d' = db_jobs d -> (db_fresh d <= db_fresh d')%N ->
    wstep skips (mkWorld d acts) (mkWorld d' acts)
| step_claim d acts loop worker locked job d' :
    acts !! loop = None -> worker_claim st worker locked d = Ok (Some job, d') ->
    wstep skips (mkWorld d acts) (mkWorld d' (<[loop := mkActivity worker job Start]> acts))
| step_job_heartbeat d acts loop a :
    acts !! loop = Some a ->
    wstep skips (mkWorld d acts)
      (mkWorld (d <| db_jobs ::= fun q =>
         (Jobs.heartbeat (db_now d) (job_id (ac_job a)) (ac_worker a) (job_lease_seconds st) q).2 |>) acts)
| step_phase d acts loop a up p d' :
    acts !! loop = Some a -> run_phase up a d = (p, d') ->
    wstep skips (mkWorld d acts) (mkWorld d' (<[loop := mkActivity (ac_worker a) (ac_job a) p]> acts))
| step_conclude d acts loop a r rnd :
    acts !! loop = Some a -> ac_phase a = Finished r ->
    wstep skips (mkWorld d acts) (mkWorld (conclude rnd a r d) (delete loop acts))
| step_crash d acts loop : wstep skips (mkWorld d acts) (mkWorld d (delete loop acts))
| step_reconcile d acts locked now report d' :
    (skips = false -> forall rid, locked rid = false) ->
    tick locked now d = Ok (report, d') -> wstep skips (mkWorld d acts) (mkWorld d' acts)
| step_exit d acts c s code_ d' :
    record_exit c s d = Ok (code_, d') -> wstep skips (mkWorld d acts) (mkWorld d' acts).
End system.

(** ** The invariant of the system *)

Lemma needed_key_run v k : needed_key v = Some k -> job_key_run k = Some (v_id v).
Proof. unfold needed_key. destruct (v_state v); by intros [= <-]. Qed.

Lemma in_table_key q job k : in_table q job -> job_dedupe_key job = Some k -> has_key k q.
Proof. intros Hin Hk. exists (job_id job), (job_type job), (job_payload job). by rewrite <- Hk. Qed.

(** A job that no run waits for is never waited for again. *)
Lemma not_needed_stable d d' job :
  platform_inv d -> platform_inv d' -> advances d d' -> in_table (db_jobs d) job ->
  not_needed d (job_dedupe_key job) -> not_needed d' (job_dedupe_key job).
Proof.
  intros P P' [AR AI] Hin Hno k rid rr' Hk Hr' Hn.
  pose proof (needed_key_run _ _ Hn) as Hrun. simpl in Hrun. rewrite (pi_id P' _ _ Hr') in Hrun.
  destruct (pi_keys P _ _ Hrun (in_table_key _ _ _ Hin Hk)) as [rr Hr].
  destruct (AR rid rr Hr) as (rr'' & Hr'' & (FA & FQ & FC) & _). simplify_eq.
  pose proof (Hno k rid rr Hk Hr) as Hnot. pose proof (pi_run P _ _ Hr) as (_ & _ & _ & [H1 H2]).
  pose proof (in_table_key _ _ _ Hin Hk) as Hkey. apply Hnot. clear Hnot.
  pose proof (pi_id P _ _ Hr) as Hid. pose proof (pi_id P' _ _ Hr') as Hid'.
  unfold needed_key in *; simpl in *.
  destruct (run_state (rr_run rr')) eqn:Hst; try done; injection Hn as <-; rewrite Hid' in *.
  - rewrite <- Hid in Hkey. specialize (H1 _ Hkey).
    assert (Hatt : run_current_attempt (rr_run rr) = run_current_attempt (rr_run rr')) by lia.
    rewrite FQ by done. by rewrite Hid, Hatt.
  - rewrite <- Hid in Hkey. destruct (H2 _ Hkey) as [Hatt [->|Hs]]; [by rewrite Hid, Hatt|].
    by specialize (FC Hs).
Qed.

Definition phase_done (p : Phase) : bool :=
  match p with
  | DispatchStart _ | DispatchRecord _ | StopContainer _ | Finished (Ok _) => true
  | _ => false
  end.

Definition phase_cancel (p : Phase) : bool :=
  match p with CancelStop _ | CancelCommit _ => true | _ => false end.

Record act_ok (d : DB) (a : Activity) : Prop := mkActOk {
  act_table : in_table (db_jobs d) (ac_job a);
  act_done : phase_done (ac_phase a) = true -> not_needed d (job_dedupe_key (ac_job a));
  act_type : phase_cancel (ac_phase a) = true -> job_type (ac_job a) = JOB_CANCEL
}.

Definition world_inv (w : World) : Prop :=
  platform_inv (w_db w) /\ forall loop a, w_acts w !! loop = Some a -> act_ok (w_db w) a.

Lemma act_ok_stable d d' a :
  platform_inv d -> platform_inv d' -> advances d d' -> act_ok d a -> act_ok d' a.
Proof.
  intros P P' A [HT HD HC]. split; [by apply (adv_idents _ _ A)| |done].
  intros Hd. apply (not_needed_stable d d'); auto.
Qed.

(** A transaction that keeps the platform invariant keeps the system's. *)
Lemma world_inv_db d acts d' :
  world_inv (mkWorld d acts) -> platform_inv d' -> advances d d' -> world_inv (mkWorld d' acts).
Proof.
  intros [P HA] P' A. split; [done|]. intros loop a Ha. apply (act_ok_stable d d'); [done..|]. by apply (HA loop).
Qed.

Lemma world_inv_insert d acts loop a :
  world_inv (mkWorld d acts) -> act_ok d a -> world_inv (mkWorld d (<[loop := a]> acts)).
Proof.
  intros [P HA] Ha. split; [done|]. intros l x. simpl. rewrite lookup_insert.
  case_decide; [by intros [= <-]|apply HA].
Qed.

Lemma world_inv_delete d acts loop : world_inv (mkWorld d acts) -> world_inv (mkWorld d (delete loop acts)).
Proof.
  intros [P HA]. split; [done|]. intros l x. simpl. intros [_ Hx]%lookup_delete_Some. by apply (HA l).
Qed.

(** The state an evolution from [s] ends in, where it is known not to be [QUEUED]. *)
Ltac leaves_queued :=
  match goal with
  | E : evolves _ ?s ?s' |- context [view ?s'] =>
      try rewrite (evolves_view _ _ _ E);
      repeat match goal with H : bool_decide (v_state _ = QUEUED) = false |- _ =>
        apply bool_decide_eq_false in H end;
      generalize dependent (view s); intros v; intros; destruct v; cbn in *
  end.

Section invariant.
Context {clk : Clock} {JS : JsonSchema} {J : Jwt} {RT : Runtime} (st : Settings).

Lemma drop_safe {A} (m : RM A) : run_safe m -> run_safe (drop m).
Proof. intros H s HI. unfold drop. wp_step. eapply wp_mono; [by apply H|]. intros; by apply wp_ret. Qed.

Lemma run_call_safe c : run_safe (run_call c).
Proof.
  destruct c; simpl; try apply drop_safe; intros s HI.
  - by apply request_cancel_kept. - by apply retry_kept. - by apply handshake_kept.
  - by apply heartbeat_kept. - by apply set_model_loading_kept. - by apply record_agent_event_kept.
  - by apply record_agent_event_batch_kept. - by apply finish_kept. - by apply ask_kept.
  - by apply answer_kept. - by apply claim_action_kept. - by apply complete_action_kept.
Qed.

(** After phase 1 of a dispatch the run no longer waits for its dispatch job. *)
Lemma dispatch_prepare_leaves installations versions n s :
  run_inv s ->
  wp (dispatch_prepare st installations versions n)
    (fun _ s' => ~ (v_state (view s') = QUEUED /\ v_attempt (view s') = n)) s.
Proof.
  op_start s. unfold dispatch_prepare, begin_attempt. op_step. op_step.
  apply wp_if; intros Hg.
  { apply wp_ret. intros [H1 H2]. rewrite H1, H2, Z.eqb_refl in Hg. done. }
  reflect_all. subst n. repeat op_step. all: try done.
  all: lazymatch goal with
       | |- wp (fail_run _ _ _ _ _) _ ?s1 =>
           assert (K : kept s s1) by settle;
           assert (Hq : v_state (view s1) <> QUEUED /\ v_attempt (view s1) = v_attempt (view s))
             by (leaves_queued; split; [|done]; done);
           eapply wp_mono; [apply fail_run_kept, K|];
           intros u s2 (_ & _ & (FA & FQ & _)); apply wp_ret; intros [H3 H4];
           destruct Hq as [Hq Ha]; apply Hq, FQ; [congruence|done]
       | |- _ => leaves_queued; by intros [Hq _]
       end.
Qed.

Lemma cancel_commit_leaves ref s :
  run_inv s -> wp (cancel_commit ref) (fun _ s' => v_state (view s') <> CANCELLING) s.
Proof.
  op_start s. unfold cancel_commit. repeat op_step.
  all: try (match goal with E : evolves _ _ ?s' |- context [view ?s'] =>
              try rewrite (evolves_view _ _ _ E) end).
  1: by apply negb_true_iff, bool_decide_eq_false in H.
  all: generalize (view s); intros []; done.
Qed.

(** What the table says about the job of a dispatch or cancel activity. *)
Lemma typed_key q job rid n :
  jobs_typed q -> in_table q job -> pl_run_id (job_payload job) = Some rid ->
  pl_attempt (job_payload job) = Some n ->
  (job_type job = JOB_DISPATCH -> job_dedupe_key job = Some (KRunAttempt rid n)) /\
  (job_type job = JOB_CANCEL -> job_dedupe_key job = Some (KRunCancel rid n)) /\
  (job_type job <> JOB_DISPATCH -> job_type job <> JOB_CANCEL ->
     match job_dedupe_key job with Some (KRunAttempt _ _) | Some (KRunCancel _ _) => False | _ => True end).
Proof.
  intros Ht Hin Hrid Hn. pose proof (in_table_typed _ _ Ht Hin) as Hk. unfold key_typed in Hk.
  destruct (job_dedupe_key job) as [[]|]; try (destruct Hk as [Hk1 Hk2]; rewrite Hk2 in *; simplify_eq/=);
    split_and!; intros; try done; try congruence;
    try (exfalso; apply Hk; match goal with H : job_type _ = _ |- _ => rewrite H end; set_solver);
    exfalso; rewrite Hk1 in *; done.
Qed.

Lemma not_needed_one d k rid :
  platform_inv d -> job_key_run k = Some rid ->
  (forall rr, db_runs d !! rid = Some rr -> needed_key (view (open_session d rr)) <> Some k) ->
  not_needed d (Some k).
Proof.
  intros P Hk Hno k' i rr [= <-] Hi Hn. pose proof (needed_key_run _ _ Hn) as Hr. simpl in Hr.
  rewrite (pi_id P _ _ Hi) in Hr. assert (i = rid) as -> by congruence. by eapply Hno.
Qed.

Lemma not_needed_other d key :
  match key with Some (KRunAttempt _ _) | Some (KRunCancel _ _) => False | _ => True end ->
  not_needed d key.
Proof.
  intros Hk k i rr -> Hi Hn. unfold needed_key in Hn. destruct (v_state _); try done; by injection Hn as <-.
Qed.

Lemma with_run_post {A} rid (op : RM A) (Q : Session -> Prop) d a d' :
  platform_inv d -> (forall s, run_inv s -> wp op (fun _ => Q) s) -> with_run rid op d = Ok (a, d') ->
  exists s, db_runs d' !! rid = Some (se_rows s) /\ Q s /\
    view (open_session d' (se_rows s)) = view s.
Proof.
  intros P HQ. unfold with_run. destruct (db_runs d !! rid) as [rr|] eqn:Hr; [|done].
  specialize (HQ _ (pi_run P _ _ Hr)). unfold wp in HQ.
  destruct (op _) as [[x s]|]; [|done]. intros [= <- <-]. exists s. simpl.
  rewrite lookup_insert_eq. done.
Qed.

Lemma typed_cancel q job rid :
  jobs_typed q -> in_table q job -> job_type job = JOB_CANCEL -> pl_run_id (job_payload job) = Some rid ->
  exists n, job_dedupe_key job = Some (KRunCancel rid n).
Proof.
  intros Ht Hin Hty Hrid. pose proof (in_table_typed _ _ Ht Hin) as Hk. unfold key_typed in Hk.
  destruct (job_dedupe_key job) as [[]|];
    try (destruct Hk as [Hk1 Hk2]; rewrite Hk2 in *; rewrite Hty in Hk1; simplify_eq/=; by eexists);
    exfalso; apply Hk; rewrite Hty; set_solver.
Qed.

(** The outcome of a phase: the database after it and the activity it leaves. *)
Definition phase_ok (d : DB) (a : Activity) (p : Phase) (d' : DB) : Prop :=
  platform_inv d' /\ advances d d' /\ act_ok d' (mkActivity (ac_worker a) (ac_job a) p).

Lemma phase_same d a p :
  platform_inv d -> in_table (db_jobs d) (ac_job a) ->
  (phase_done p = true -> not_needed d (job_dedupe_key (ac_job a))) ->
  (phase_cancel p = true -> job_type (ac_job a) = JOB_CANCEL) -> phase_ok d a p d.
Proof. intros P HT Hd Hc. split; [done|]. split; [by apply advances_same|by split]. Qed.

Lemma phase_run {A} d a rid (op : RM A) x d' p :
  run_safe op -> platform_inv d -> in_table (db_jobs d) (ac_job a) -> with_run rid op d = Ok (x, d') ->
  (platform_inv d' -> advances d d' -> phase_done p = true -> not_needed d' (job_dedupe_key (ac_job a))) ->
  phase_cancel p = false -> phase_ok d a p d'.
Proof.
  intros Hop P HT Hw Hd Hc. pose proof (with_run_inv rid op d Hop P) as HI. unfold wp in HI.
  rewrite Hw in HI. destruct HI as [P' A']. split; [done|]. split; [done|]. split; simpl.
  - by apply (adv_idents _ _ A').
  - auto.
  - by rewrite Hc.
Qed.

Lemma dispatch_phase up a d p d' :
  platform_inv d -> act_ok d a -> ac_phase a = Start ->
  String.eqb (job_type (ac_job a)) JOB_DISPATCH = true ->
  run_phase st up a d = (p, d') -> phase_ok d a p d'.
Proof.
  intros P [HT HD HC] Hph Hty. unfold run_phase. rewrite Hph, Hty. apply String.eqb_eq in Hty.
  destruct (pl_run_id _) as [rid|] eqn:Hrid; [|intros [= <- <-]; by apply phase_same].
  destruct (pl_attempt _) as [n|] eqn:Hn; [|intros [= <- <-]; by apply phase_same].
  destruct (with_run _ _ _) as [[o d1]|e] eqn:Hw; [|intros [= <- <-]; by apply phase_same].
  pose proof (dispatch_prepare_safe st (db_installations d) (db_versions d) n) as Hsafe.
  destruct (typed_key _ _ _ _ (pi_typed P) HT Hrid Hn) as (Hk & _).
  assert (Hno : platform_inv d1 -> not_needed d1 (job_dedupe_key (ac_job a))).
  { intros P1. rewrite (Hk Hty). apply (not_needed_one _ _ rid); [done|done|]. intros rr Hrr.
    destruct (with_run_post rid _ _ d o d1 P
      (dispatch_prepare_leaves (db_installations d) (db_versions d) n) Hw) as (s & Hs & HQ & Hv).
    assert (rr = se_rows s) as -> by congruence. rewrite Hv. intros Hn'. apply HQ. clear -Hn'. generalize dependent (view s).
    intros v. unfold needed_key. destruct (v_state v); intros [=]; done. }
  destruct o; intros [= <- <-]; eapply phase_run; eauto.
Qed.

Lemma cancel_phase up a d ref rid p d' :
  platform_inv d -> act_ok d a -> ac_phase a = CancelCommit ref ->
  pl_run_id (job_payload (ac_job a)) = Some rid ->
  run_phase st up a d = (p, d') -> phase_ok d a p d'.
Proof.
  intros P [HT HD HC] Hph Hrid. unfold run_phase. rewrite Hph, Hrid.
  rewrite Hph in HC. specialize (HC eq_refl).
  destruct (typed_cancel _ _ _ (pi_typed P) HT HC Hrid) as [n Hk].
  destruct (with_run _ _ _) as [[o d1]|e] eqn:Hw; [|intros [= <- <-]; by apply phase_same].
  assert (Hno : platform_inv d1 -> not_needed d1 (job_dedupe_key (ac_job a))).
  { intros P1. rewrite Hk. apply (not_needed_one _ _ rid); [done|done|]. intros rr Hrr.
    destruct (with_run_post rid _ _ d o d1 P (cancel_commit_leaves ref) Hw) as (s & Hs & HQ & Hv).
    assert (rr = se_rows s) as -> by congruence. rewrite Hv. clear -HQ. generalize dependent (view s).
    intros v. unfold needed_key. by destruct (v_state v). }
  pose proof (cancel_commit_safe ref) as Hsafe.
  destruct o; [destruct up|]; intros [= <- <-]; (by apply phase_same) || (eapply phase_run; eauto).
Qed.

Lemma run_phase_inv up a d p d' :
  platform_inv d -> act_ok d a -> run_phase st up a d = (p, d') -> phase_ok d a p d'.
Proof.
  intros P HA Hrun. pose proof HA as [HT HD HC].
  destruct (ac_phase a) as [|sp|ref|ref|ref|ref|r] eqn:Hph; pose proof Hrun as Hrun'.
  all: unfold run_phase in Hrun'; rewrite Hph in Hrun'.
  - destruct (String.eqb (job_type (ac_job a)) JOB_DISPATCH) eqn:Hty; [by eapply dispatch_phase|].
    destruct (pl_run_id (job_payload (ac_job a))) as [rid|] eqn:Hrid; [|injection Hrun' as <- <-; by apply phase_same].
    destruct (pl_attempt (job_payload (ac_job a))) as [n|] eqn:Hn; [|injection Hrun' as <- <-; by apply phase_same].
    destruct (typed_key _ _ _ _ (pi_typed P) HT Hrid Hn) as (_ & Hkc & Hko).
    apply String.eqb_neq in Hty.
    destruct (String.eqb (job_type (ac_job a)) JOB_CANCEL) eqn:Hty2.
    + apply String.eqb_eq in Hty2. specialize (Hkc Hty2).
      destruct (cancel_read rid d) as [ref|] eqn:Hc; injection Hrun' as <- <-; apply phase_same; try done.
      intros _. rewrite Hkc. apply (not_needed_one _ _ rid); [done|done|]. intros rr Hrr.
      unfold cancel_read in Hc. rewrite Hrr in Hc. unfold needed_key; simpl.
      destruct (run_state (rr_run rr)); try done.
    + apply String.eqb_neq in Hty2. specialize (Hko Hty Hty2).
      assert (Hno : not_needed d (job_dedupe_key (ac_job a))) by by apply not_needed_other.
      destruct (stop_ref rid n d) as [ref|]; [destruct (String.eqb ref "")|];
        injection Hrun' as <- <-; by apply phase_same.
  - destruct (pl_run_id (job_payload (ac_job a))), (pl_attempt (job_payload (ac_job a))), up; injection Hrun' as <- <-; apply phase_same; auto.
  - destruct (pl_run_id (job_payload (ac_job a))) as [rid|] eqn:Hrid, (pl_attempt (job_payload (ac_job a))) as [n|] eqn:Hn;
      try (injection Hrun' as <- <-; by apply phase_same).
    destruct (with_run _ _ _) as [[o d1]|e] eqn:Hw; [|injection Hrun' as <- <-; by apply phase_same].
    assert (HS : forall p', phase_cancel p' = false -> phase_ok d a p' d1).
    { intros p' Hp'. eapply phase_run; [apply dispatch_record_safe|done|done|exact Hw| |done].
      intros P1 A1 _. apply (not_needed_stable d d1); auto. }
    destruct o; injection Hrun' as <- <-; by apply HS.
  - destruct (pl_run_id (job_payload (ac_job a))), (pl_attempt (job_payload (ac_job a))), up; injection Hrun' as <- <-; apply phase_same; auto.
  - assert (Hx : (p = Finished (Err UNEXPECTED) \/ p = CancelCommit ref) /\ d' = d).
    { destruct (pl_run_id (job_payload (ac_job a))), (pl_attempt (job_payload (ac_job a))), (_ && _); injection Hrun' as <- <-; auto. }
    destruct Hx as [[-> | ->] ->]; apply phase_same; auto; done.
  - destruct (pl_run_id (job_payload (ac_job a))) as [rid|] eqn:Hrid; [by eapply cancel_phase|].
    destruct (pl_attempt (job_payload (ac_job a))); injection Hrun' as <- <-; by apply phase_same.
  - destruct (pl_run_id (job_payload (ac_job a))), (pl_attempt (job_payload (ac_job a))); injection Hrun' as <- <-; apply phase_same; auto.
Qed.

Lemma wp_ok {E S A} (m : Tx E S A) Q s a s' : wp m Q s -> m s = Ok (a, s') -> Q a s'.
Proof. apply wp_run. Qed.

Lemma conclude_inv rnd a r d :
  platform_inv d -> act_ok d a -> ac_phase a = Finished r ->
  platform_inv (conclude rnd a r d) /\ advances d (conclude rnd a r d).
Proof.
  intros P [HT HD _] Hph. rewrite Hph in HD.
  assert (Hd : platform_inv d /\ advances d d) by (split; [done|by apply advances_same]).
  destruct r as [[]|e]; unfold conclude.
  - destruct (worker_complete (ac_worker a) (ac_job a) d) as [[b d']|] eqn:Hc; [|done].
    apply (wp_ok _ _ _ _ _ (worker_complete_inv _ _ _ P HT (HD eq_refl))) in Hc as (P' & HR & HI).
    split; [done|]. apply advances_same; [done|by rewrite HI].
  - destruct (worker_fail (ac_worker a) (ac_job a) e rnd d) as [[b d']|] eqn:Hc; [|done].
    by apply (wp_ok _ _ _ _ _ (worker_fail_inv _ _ _ rnd _ P HT)) in Hc.
Qed.

Lemma wstep_sound w w' :
  wstep st false w w' -> world_inv w -> world_inv w' /\ advances (w_db w) (w_db w').
Proof.
  intros Hstep HI. pose proof (proj1 HI) as P. destruct Hstep; simpl in P |- *.
  - apply (wp_ok _ _ _ _ _ (with_run_inv _ _ _ (run_call_safe c) P)) in H as [P' A].
    split; [by eapply world_inv_db|done].
  - apply (wp_ok _ _ _ _ _ (create_run_spec ins ver args d P)) in H as (P' & _ & A).
    split; [by eapply world_inv_db|done].
  - assert (P' : platform_inv d') by (by eapply platform_inv_same).
    assert (A : advances d d') by (apply advances_same; [done|congruence]).
    split; [by eapply world_inv_db|done].
  - apply (wp_ok _ _ _ _ _ (worker_claim_inv st worker locked d P)) in H0 as (P' & HR & HT & HN).
    assert (A : advances d d') by (apply advances_same; [done|by rewrite HN]).
    split; [|done]. apply world_inv_insert; [by eapply world_inv_db|]. split; [by apply HT|done|done].
  - match goal with |- world_inv (mkWorld ?x _) /\ _ => assert (A : advances d x) end.
    { apply advances_same; [done|]. simpl. by rewrite update_where_idents. }
    split; [|done]. eapply world_inv_db; [done| |done].
    apply jobs_update_inv; [done|by apply heartbeat_ok, P|by apply update_where_idents|].
    intros k. apply heartbeat_keeps_live.
  - destruct (run_phase_inv up a d p d' P (proj2 HI _ _ H) H0) as (P' & A & Ha).
    split; [|done]. apply world_inv_insert; [by eapply world_inv_db|done].
  - destruct (conclude_inv rnd a r d P (proj2 HI _ _ H) H0) as [P' A].
    split; [|done]. apply world_inv_delete. by eapply world_inv_db.
  - split; [by apply world_inv_delete|by apply advances_same].
  - apply (wp_ok _ _ _ _ _ (tick_inv locked now d (H eq_refl) P)) in H0 as [P' A].
    split; [by eapply world_inv_db|done].
  - unfold record_exit in H.
    apply (wp_ok _ _ _ _ _ (with_run_inv _ _ _ (record_container_exit_kept _ _ _ _ _ _) P)) in H as [P' A].
    split; [by eapply world_inv_db|done].
Qed.
End invariant.

(** The appliance before its first run: no runs, no jobs, no worker busy. *)
Definition initial (w : World) : Prop :=
  db_runs (w_db w) = ∅ /\ db_jobs (w_db w) = empty_queue /\ w_acts w = ∅.

Lemma initial_inv w : initial w -> world_inv w.
Proof.
  destruct w as [d acts]. intros (HR & HJ & HA). simpl in *. split; simpl.
  - split; rewrite ?HR, ?HJ; try (intros; by rewrite lookup_empty in * || set_solver).
    + apply empty_queue_ok.
    + unfold jobs_typed. simpl. set_solver.
    + intros k r Hk (i & t & p & Hin). simpl in Hin. set_solver.
  - intros loop a Ha. rewrite HA, lookup_empty in Ha. done.
Qed.

Section reachable.
Context {clk : Clock} {JS : JsonSchema} {J : Jwt} {RT : Runtime} (st : Settings).

Lemma steps_sound w0 w :
  world_inv w0 -> rtc (wstep st false) w0 w -> world_inv w /\ advances (w_db w0) (w_db w).
Proof.
  intros H0 Hr. revert H0. induction Hr as [w|w1 w2 w3 Hs Hr IH].
  { intros H. split; [done|by apply advances_same]. }
  intros H1. destruct (wstep_sound st _ _ Hs H1) as [H2 A]. destruct (IH H2) as [H3 A'].
  split; [done|by etrans].
Qed.

Lemma reachable_inv w0 w : initial w0 -> rtc (wstep st false) w0 w -> world_inv w.
Proof. intros H0%initial_inv Hr. by apply (steps_sound w0). Qed.
End reachable.
