(* ===== verification/SystemProps.v ===== *)
(** * What holds of the whole system

    Consequences of the invariant along every interleaving of requests, worker phases,
    crashes, reconciler passes and container exits, starting from the empty appliance.  The
    steps are those of [World] in which the reconciler gets the row locks it asks for. *)

From S2P Require Import Prelude TimeUtil Json Redaction SchemaGuard States Jobs RunModel RunService RunInv.
From S2P Require Import RunOps Platform Capability Worker Reconciler World.
#[local] Open Scope Z_scope.

(** A job row of [q] that is still to be done. *)
Definition live_job (typ : string) (pl : JobPayload) (q : JobQueue) : Prop :=
  exists j, j ∈ jq_rows q /\ live j = true /\ job_type j = typ /\ job_payload j = pl.

Lemma has_live_job k q :
  jobs_typed q -> has_live k q ->
  exists typ pl, key_typed typ pl (Some k) /\ live_job typ pl q.
Proof.
  intros Ht (j & Hj & Hk). exists (job_type j), (job_payload j). unfold live_key in Hk.
  destruct (live j) eqn:Hl; [|done]. rewrite <- Hk. split.
  - apply (Ht (job_id j)). apply list_elem_of_fmap. by exists j.
  - by exists j.
Qed.

Lemma replay_steps cur es st :
  replay (Some cur) es = Some (Some st) -> steps cur st.
Proof.
  revert cur. induction es as [|e es IH]; intros cur; simpl; [intros [= ->]; by constructor|].
  unfold replay_step. destruct (is_state_change e); [|apply IH].
  destruct (state_change e) as [[f t]|]; [|done].
  destruct (bool_decide (f = Some cur)); simpl; [|done].
  destruct (can_transition cur t) eqn:Hc; [|done]. intros H. eapply rtc_l; [exact Hc|by apply IH].
Qed.

Lemma final_stuck s t : steps s t -> s ∈ FINAL_STATES -> t = s.
Proof.
  intros Hs. induction Hs as [|s u t Hst _ _]; [done|]. intros Hf. exfalso.
  unfold step in Hst. destruct s; try (by vm_compute in Hf; set_solver); by destruct u.
Qed.

Section system.
Context {clk : Clock} {JS : JsonSchema} {J : Jwt} {RT : Runtime} (st : Settings).
Implicit Types (w : World).

(** The worlds that the empty appliance can get into. *)
Definition reachable (w : World) : Prop := exists w0, initial w0 /\ rtc (wstep st false) w0 w.

Lemma reachable_platform w : reachable w -> platform_inv (w_db w).
Proof. intros (w0 & H0 & Hr). by apply (reachable_inv st w0). Qed.

Lemma reachable_run w rid rr :
  reachable w -> db_runs (w_db w) !! rid = Some rr ->
  run_inv (open_session (w_db w) rr) /\ run_id (rr_run rr) = rid.
Proof. intros P%reachable_platform Hr. split; [by apply (pi_run P rid)|by apply (pi_id P)]. Qed.


(** C2: The event log of a run is its complete history: sequences count 1, 2, 3, ... without
    gaps; replaying the recorded state changes from the creation, each of them a move of
    the transition table, ends in the stored state; client event ids are unique; and the
    finish time is set exactly in the terminal states. *)
Theorem log_is_history w rid rr :
  reachable w -> db_runs (w_db w) !! rid = Some rr ->
  (forall i e, rr_events rr !! i = Some e -> ev_sequence e = Z.of_nat i + 1) /\
  replay None (rr_events rr) = Some (Some (run_state (rr_run rr))) /\
  NoDup (stored_client_ids (rr_events rr)) /\
  (is_Some (run_finished_at (rr_run rr)) <-> run_state (rr_run rr) ∈ TERMINAL_STATES).
Proof.
  intros HR Hr. destruct (reachable_run w rid rr HR Hr) as [([L1 L2 L3 L4 _ _] & _) _]. simpl in *.
  split_and!; done.
Qed.

(** C3: A run waits exactly when it has an open question: in every reachable state a run is
    WAITING_INPUT if and only if one of its input requests is pending, and an active run
    has the attempt row of its current attempt. *)
Theorem waiting_iff_pending w rid rr :
  reachable w -> db_runs (w_db w) !! rid = Some rr ->
  (run_state (rr_run rr) = WAITING_INPUT <-> exists r, r ∈ rr_inputs rr /\ inp_state r = inp_pending) /\
  (run_state (rr_run rr) ∈ ACTIVE_STATES ->
   is_Some (rr_attempts rr !! run_current_attempt (rr_run rr))).
Proof.
  intros HR Hr. destruct (reachable_run w rid rr HR Hr) as [(_ & _ & S & _) _].
  rewrite <- has_pending_alt. unfold settled, has_current in S. simpl in S.
  destruct (run_state (rr_run rr)); (split; [naive_solver|]); intros Ha;
    (naive_solver || by (vm_compute in Ha; set_solver)).
Qed.

(** C5: At most one run exists per schedule occurrence and at most one per (parent run,
    start key), in every reachable state: firing the same occurrence twice or resending a
    start request never starts the work twice. *)
Theorem one_run_per_occurrence w i j ri rj :
  reachable w -> db_runs (w_db w) !! i = Some ri -> db_runs (w_db w) !! j = Some rj ->
  (is_Some (occurrence (rr_run ri)) /\ occurrence (rr_run ri) = occurrence (rr_run rj) \/
   is_Some (agent_start (rr_run ri)) /\ agent_start (rr_run ri) = agent_start (rr_run rj)) ->
  i = j.
Proof.
  intros P%reachable_platform Hi Hj [[[o Ho] He]|[[o Ho] He]].
  - eapply (pi_occurrence _ _ P); eauto. by rewrite <- He.
  - eapply (pi_start _ _ P); eauto. by rewrite <- He.
Qed.

(** C4: Runs are durable and only move forward: from any reachable state to any later one,
    a run keeps its identity columns (agent, version, inputs, snapshots, limits), its
    logged events are never changed or removed, its attempt number never decreases, and
    its state moves along the transition table; a SUCCEEDED or CANCELLED run never changes
    state again. *)
Theorem runs_forward w w' rid rr :
  reachable w -> rtc (wstep st false) w w' -> db_runs (w_db w) !! rid = Some rr ->
  exists rr', db_runs (w_db w') !! rid = Some rr' /\
    run_identity (rr_run rr') = run_identity (rr_run rr) /\
    rr_events rr `prefix_of` rr_events rr' /\
    run_current_attempt (rr_run rr) <= run_current_attempt (rr_run rr') /\
    steps (run_state (rr_run rr)) (run_state (rr_run rr')) /\
    (run_state (rr_run rr) ∈ FINAL_STATES -> run_state (rr_run rr') = run_state (rr_run rr)).
Proof.
  intros HR Hs Hr. pose proof HR as (w0 & H0 & Hr0).
  assert (HR' : reachable w') by (exists w0; split; [done|by etrans]).
  destruct (steps_sound st w w' (reachable_inv st w0 w H0 Hr0) Hs) as [_ [A _]].
  destruct (A rid rr Hr) as (rr' & Hr' & (F & _ & _) & HI & [more HE]).
  destruct (reachable_run w rid rr HR Hr) as [([_ L _ _ _ _] & _) _].
  destruct (reachable_run w' rid rr' HR' Hr') as [([_ L' _ _ _ _] & _) _]. simpl in *.
  rewrite HE, replay_app, L in L'. apply replay_steps in L'.
  exists rr'. split_and!; try done; [by exists more|]. by apply final_stuck.
Qed.

(** ** Creating runs *)

Lemma duplicate_of_found r d id rr :
  platform_inv d -> db_runs d !! id = Some rr ->
  match run_schedule_id r with
  | Some _ => is_Some (occurrence r) /\ occurrence (rr_run rr) = occurrence r
  | None => is_Some (agent_start r) /\ agent_start (rr_run rr) = agent_start r
  end -> duplicate_of r d = Some id.
Proof.
  intros P Hid Hm. destruct (duplicate_of r d) as [id'|] eqn:Hd.
  - apply duplicate_of_spec in Hd as (rr' & Hid' & Hm'). f_equal.
    destruct (run_schedule_id r); destruct Hm as [[o Ho] He], Hm' as [_ He'].
    + eapply (pi_occurrence _ _ P _ _ rr' rr o); congruence.
    + eapply (pi_start _ _ P _ _ rr' rr o); congruence.
  - exfalso. unfold duplicate_of in Hd.
    destruct (run_schedule_id r); destruct Hm as [[o Ho] He]; rewrite Ho in *;
      apply (find_run_none _ _ _ _ Hd) in Hid; by rewrite bool_decide_eq_true_2 in Hid.
Qed.

(** The arguments name a schedule occurrence or an agent's start key. *)
Definition keyed (args : NewRunArgs) : Prop :=
  match nr_schedule_id args with
  | Some _ => is_Some (args_occurrence args)
  | None => is_Some (args_start args)
  end.

(** Creating a run is exact and idempotent.  The call either creates one QUEUED run with
    the installation's snapshots and changes no other run, or returns the existing run of
    the same occurrence or start key and changes nothing; and once a keyed request has
    been answered, repeating it answers with the same run and creates nothing. *)
Theorem create_run_once ins ver args w id created d' :
  reachable w -> create_run ins ver args (w_db w) = Ok ((id, created), d') ->
  created_run ins args (w_db w) (id, created) d' /\
  (keyed args -> exists d'', create_run ins ver args d' = Ok ((id, false), d'') /\
     db_runs d'' = db_runs d' /\ db_jobs d'' = db_jobs d').
Proof.
  intros P%reachable_platform Hc.
  pose proof (wp_run _ _ _ _ _ (create_run_spec ins ver args (w_db w) P) Hc) as (P' & HC & _).
  split; [done|]. intros HK.
  assert (HD : exists rr, db_runs d' !! id = Some rr /\
    match nr_schedule_id args with
    | Some _ => is_Some (args_occurrence args) /\ occurrence (rr_run rr) = args_occurrence args
    | None => is_Some (args_start args) /\ agent_start (rr_run rr) = args_start args
    end).
  { unfold created_run, keyed in *. destruct created.
    - destruct HC as (_ & _ & rr & H1 & _ & _ & _ & _ & _ & H2 & H3). exists rr. split; [done|].
      by destruct (nr_schedule_id args).
    - by destruct HC as (-> & _ & HC). }
  destruct HD as (rr & Hrr & Hm). clear HC HK P. revert Hc.
  unfold create_run, bind, item, db_uuid7, db_utcnow, ret, raise, get.
  destruct (jget "spec" (ver_manifest ver)) as [spec|]; [|done].
  destruct (jget "resources" spec) as [resources|]; [|done].
  destruct (jget "activeTimeoutSeconds" resources) as [v|]; [|done].
  unfold as_int. destruct v; try done. unfold ret. destruct (default (JNum 86400) _); try done. intros _.
  cbv zeta. match goal with |- context [duplicate_of ?r ?d] => rewrite (duplicate_of_found r d id rr) end.
  - eexists. split; [done|]. by split.
  - eapply platform_inv_same; [..|exact P']; try done. simpl. lia.
  - done.
  - exact Hm.
Qed.
End system.
