(* ===== verification/Actions.v ===== *)
(** * External actions happen once ([claim_action], [complete_action])

    The history of one idempotency key over the whole life of a run, whatever else happens
    to the run in between: agent and owner calls, dispatches, reconciler passes, container
    exits.  [quiet] operations leave the key alone; the two that do not are explained by the
    row they leave behind. *)

From S2P Require Import Prelude TimeUtil Json Redaction SchemaGuard States Jobs RunModel RunService RunInv.
From S2P Require Import RunOps Platform Capability Worker Reconciler World.
#[local] Open Scope Z_scope.

Definition action_at (key : string) (s : Session) : option IdempotencyAction := rr_actions (se_rows s) !! key.

(** [m] does not touch the action of [key]. *)
Definition quiet {A} (key : string) (m : RM A) : Prop :=
  forall s, wp m (fun _ s' => action_at key s' = action_at key s) s.

Create HintDb quiet.

Section quiet.
Context {clk : Clock} {JS : JsonSchema} {J : Jwt} (st : Settings) (key : string).

Lemma quiet_bind {A B} (m : RM A) (k : A -> RM B) :
  quiet key m -> (forall a, quiet key (k a)) -> quiet key (bind m k).
Proof.
  intros Hm Hk s. apply wp_bind. eapply wp_mono; [apply Hm|]. intros a s' <-. apply Hk.
Qed.
Lemma quiet_ret {A} (a : A) : quiet key (ret a).
Proof. done. Qed.
Lemma quiet_raise {A} e : quiet key (raise (A := A) e).
Proof. done. Qed.
Lemma quiet_gets {A} (f : Session -> A) : quiet key (gets f).
Proof. done. Qed.
Lemma quiet_get : quiet key get.
Proof. done. Qed.
Lemma quiet_guard c e : quiet key (guard c e).
Proof. by destruct c. Qed.
Lemma quiet_check r : quiet key (check r).
Proof. by destruct r. Qed.
Lemma quiet_modify f : (forall s, action_at key (f s) = action_at key s) -> quiet key (modify f).
Proof. intros Hf s. apply wp_modify, Hf. Qed.
Lemma quiet_when c m : quiet key m -> quiet key (when c m).
Proof. by destruct c. Qed.
Lemma quiet_for_each {A} (xs : list A) body :
  (forall x, quiet key (body x)) -> quiet key (for_each xs body).
Proof. intros Hb. induction xs as [|x xs IH]; [done|]. by apply quiet_bind. Qed.
Lemma quiet_utcnow : quiet key utcnow.
Proof. done. Qed.
Lemma quiet_uuid7 : quiet key uuid7.
Proof. done. Qed.
Lemma quiet_put_action k a : k <> key -> quiet key (put_action k a).
Proof. intros Hk. apply quiet_modify. intros s. unfold action_at. simpl. by rewrite lookup_insert_ne. Qed.
End quiet.

#[export] Hint Resolve quiet_ret quiet_raise quiet_gets quiet_get quiet_guard quiet_check quiet_utcnow quiet_uuid7
  quiet_put_action : quiet.

(** [be_quiet] walks an operation statement by statement. *)
Ltac be_quiet :=
  cbv delta [the_run the_inputs the_events get_attempt get_action set_run set_inputs add_events put_attempt
             cancel_job set_input require_attempt move drop]; cbv beta;
  repeat (match goal with
  | |- forall _, _ => intros ?
  | |- quiet _ (bind _ _) => apply quiet_bind
  | |- quiet _ (when _ _) => apply quiet_when
  | |- quiet _ (for_each _ _) => apply quiet_for_each
  | |- quiet _ (modify _) => apply quiet_modify; done
  | |- quiet _ (if ?c then _ else _) => destruct c
  | |- quiet _ (match ?x with _ => _ end) => destruct x
  | |- quiet _ _ => solve [auto with quiet]
  end; cbv beta).

Section operations.
Context {clk : Clock} {JS : JsonSchema} {J : Jwt} (st : Settings) (key : string).

Lemma quiet_append_event typ payload : quiet key (append_event typ payload).
Proof. unfold append_event. be_quiet. Qed.
#[local] Hint Resolve quiet_append_event : quiet.
Lemma quiet_transition t r e rt : quiet key (transition t r e rt).
Proof. unfold transition. be_quiet. Qed.
Lemma quiet_enqueue typ pl k : quiet key (enqueue_job typ pl k).
Proof. unfold enqueue_job. be_quiet. Qed.
#[local] Hint Resolve quiet_transition quiet_enqueue : quiet.

Lemma quiet_close_where p t : quiet key (close_where p t).
Proof. unfold close_where. be_quiet. Qed.
#[local] Hint Resolve quiet_close_where : quiet.
Lemma quiet_close_pending t : quiet key (close_pending_inputs t).
Proof. unfold close_pending_inputs. be_quiet. Qed.
Lemma quiet_resume : quiet key resume_if_no_pending.
Proof. unfold resume_if_no_pending. be_quiet. Qed.
#[local] Hint Resolve quiet_close_pending quiet_resume : quiet.
Lemma quiet_fail_run c m rt i d : quiet key (fail_run c m rt i d).
Proof. unfold fail_run. be_quiet. Qed.
Lemma quiet_expire now : quiet key (expire_inputs now).
Proof. unfold expire_inputs. be_quiet. Qed.
#[local] Hint Resolve quiet_fail_run quiet_expire : quiet.
Lemma quiet_check_limits now : quiet key (check_limits now).
Proof. unfold check_limits. be_quiet. Qed.
Lemma quiet_begin h : quiet key (begin_attempt h).
Proof. unfold begin_attempt. be_quiet. Qed.
Lemma quiet_rejections i es v : quiet key (rejections i es v).
Proof.
  revert i. induction es as [|e es IH]; intros i; simpl; [apply quiet_ret|].
  apply quiet_bind; [unfold event_rejection; be_quiet|]. intros r. apply quiet_bind; [apply IH|]. be_quiet.
Qed.
Lemma quiet_wait k : quiet key (wait_for_input k).
Proof. unfold wait_for_input. be_quiet. Qed.
#[local] Hint Resolve quiet_check_limits quiet_begin quiet_rejections quiet_wait : quiet.
Lemma quiet_ask_open run n k t p sc ti pr ex : quiet key (ask_open run n k t p sc ti pr ex).
Proof. unfold ask_open. be_quiet. Qed.
#[local] Hint Resolve quiet_ask_open : quiet.

(** The key a call is about, if it is one of the two action calls. *)
Definition call_key (c : RunCall) : option string :=
  match c with CallClaim _ k _ | CallComplete _ k _ => Some k | _ => None end.

Lemma quiet_call c : call_key c <> Some key -> quiet key (run_call c).
Proof.
  intros Hc. destruct c; simpl in *;
    unfold request_cancel, retry, handshake, RunService.heartbeat, set_model_loading, record_agent_event,
      record_agent_event_batch, finish, ask, answer, claim_action, complete_action;
    be_quiet; apply quiet_put_action; congruence.
Qed.

(** Everything that happens to a run but an action call on [key]. *)
Inductive bystander : forall {A}, RM A -> Prop :=
| by_call c : call_key c <> Some key -> bystander (run_call c)
| by_prepare installations versions n : bystander (dispatch_prepare st installations versions n)
| by_record n ref : bystander (dispatch_record st n ref)
| by_cancel ref : bystander (cancel_commit ref)
| by_dead typ n : bystander (settle_dead typ n)
| by_reconcile now : bystander (reconcile_run now)
| by_exit n ref ec oom mem_bytes manifest :
    bystander (record_container_exit n ref ec oom mem_bytes manifest).

Lemma bystander_quiet {A} (m : RM A) : bystander m -> quiet key m.
Proof.
  intros []; [by apply quiet_call|..];
    unfold dispatch_prepare, dispatch_record, cancel_commit, settle_dead, reconcile_run,
      record_container_exit; be_quiet.
Qed.
End operations.

(** ** The life of a key *)

(** An action call on the key and what it was told ([complete] carries no token). *)
Record Told := mkTold {
  told_attempt : Z;
  told_token : option string;
  told_status : ActionState;
  told_result : option Json
}.

(** [y] was told after [x]: only the claimant itself (same attempt, same token) is told
    [claimed] again, and only as long as nobody was told otherwise; a completed key stays
    completed with the same result. *)
Definition consistent (x y : Told) : Prop :=
  (told_status y = act_claimed ->
     told_status x = act_claimed /\ told_attempt y = told_attempt x /\
     told_token y = told_token x /\ is_Some (told_token x)) /\
  (told_status x = act_completed -> told_status y = act_completed /\ told_result y = told_result x).

Definition all_consistent (log : list Told) : Prop :=
  forall (i j : nat) x y, (i < j)%nat -> log !! i = Some x -> log !! j = Some y -> consistent x y.

Lemma all_consistent_snoc log y :
  all_consistent log -> (forall x, x ∈ log -> consistent x y) -> all_consistent (log ++ [y]).
Proof.
  intros H Hy i j x z Hij Hi Hj. apply lookup_app_Some in Hj as [Hj|[Hle Hj]].
  - assert (j < length log)%nat by by apply lookup_lt_Some in Hj.
    rewrite lookup_app_l in Hi by lia. by apply (H i j).
  - apply list_lookup_singleton_Some in Hj as [Hj <-]. rewrite lookup_app_l in Hi by lia.
    apply Hy. by eapply list_elem_of_lookup_2.
Qed.

Section life.
Context {clk : Clock} {JS : JsonSchema} {J : Jwt} (st : Settings) (key : string).

Inductive life (s0 : Session) : list Told -> Session -> Prop :=
| life_start : life s0 [] s0
| life_claim log s n tok r s' :
    life s0 log s -> claim_action n key tok s = Ok (r, s') ->
    life s0 (log ++ [mkTold n tok (rp_status r) (rp_result r)]) s'
| life_complete log s n res r s' :
    life s0 log s -> complete_action n key res s = Ok (r, s') ->
    life s0 (log ++ [mkTold n None (rp_status r) (rp_result r)]) s'
| life_other log s A (m : RM A) a s' :
    life s0 log s -> bystander st key m -> m s = Ok (a, s') -> life s0 log s'
| life_elsewhere log s s' :    (* other runs, the jobs table, time *)
    life s0 log s -> se_rows s' = se_rows s -> life s0 log s'.

(** The row of the key accounts for everything that was told. *)
Definition accounts (log : list Told) (row : option IdempotencyAction) : Prop :=
  match row with
  | None => log = []
  | Some a => log <> [] /\
      match act_state a with
      | act_claimed => forall t, t ∈ log -> told_status t = act_claimed /\
          told_attempt t = act_attempt a /\ told_token t = act_claim_token a
      | act_in_doubt => forall t, t ∈ log -> told_status t <> act_completed
      | act_completed => forall t, t ∈ log -> told_status t = act_completed -> told_result t = act_result a
      end
  end.

(** The reply to a claim and the row it leaves. *)
Lemma claim_reply n tok s r s' :
  claim_action n key tok s = Ok (r, s') ->
  match action_at key s with
  | None => rp_status r = act_claimed /\ action_at key s' = Some (mkAction act_claimed n None tok None)
  | Some a =>
      match act_state a with
      | act_completed => rp_status r = act_completed /\ rp_result r = act_result a /\
          action_at key s' = Some a
      | act_in_doubt => rp_status r = act_in_doubt /\
          exists a', action_at key s' = Some a' /\ act_state a' = act_in_doubt
      | act_claimed =>
          rp_status r = act_claimed /\ action_at key s' = Some a /\ is_Some tok /\
            act_claim_token a = tok /\ act_attempt a = n \/
          rp_status r = act_in_doubt /\ exists a', action_at key s' = Some a' /\ act_state a' = act_in_doubt
      end
  end.
Proof.
  unfold claim_action, require_attempt, bind, the_run, get_action, gets, guard, put_action, modify, ret.
  destruct (n =? _); [|done]. change (rr_actions (se_rows s) !! key) with (action_at key s).
  destruct (action_at key s) as [a|] eqn:Ha.
  - destruct (act_state a) eqn:Hst; simpl.
    + destruct (bool_decide (is_Some tok) && _ && _) eqn:Hc.
      * intros [= <- <-]. left. reflect_all. done.
      * intros [= <- <-]. right. split; [done|]. eexists. split; [apply lookup_insert_eq|done].
    + intros [= <- <-]. split; [done|]. eexists. split; [apply lookup_insert_eq|done].
    + by intros [= <- <-].
  - intros [= <- <-]. split; [done|]. apply lookup_insert_eq.
Qed.

Lemma complete_reply n res s r s' :
  complete_action n key res s = Ok (r, s') ->
  exists a a', action_at key s = Some a /\ action_at key s' = Some a' /\ rp_status r = act_completed /\
    act_state a' = act_completed /\ act_result a' = rp_result r /\
    (act_state a = act_completed -> act_result a = rp_result r).
Proof.
  unfold complete_action, require_attempt, bind, the_run, get_action, gets, guard, put_action, modify, ret, utcnow.
  destruct (n =? _); [|done]. change (rr_actions (se_rows s) !! key) with (action_at key s).
  destruct (action_at key s) as [a|] eqn:Ha; [|done].
  destruct (bool_decide (act_state a = act_completed)) eqn:Hst; intros [= <- <-].
  - apply bool_decide_eq_true in Hst. exists a, a. done.
  - apply bool_decide_eq_false in Hst. eexists a, _. split; [done|]. split; [apply lookup_insert_eq|]. done.
Qed.

Lemma accounts_claim log n tok s r s' :
  accounts log (action_at key s) -> claim_action n key tok s = Ok (r, s') ->
  let t := mkTold n tok (rp_status r) (rp_result r) in
  accounts (log ++ [t]) (action_at key s') /\ (forall x, x ∈ log -> consistent x t) /\
  (log = [] -> told_status t = act_claimed).
Proof.
  intros HA Hc%claim_reply. unfold accounts, consistent in *. destruct (action_at key s) as [a|].
  - destruct HA as [Hne HA]. rewrite <- Logic.and_assoc. split; [|done].
    assert (Hne' : forall t, log ++ [t] <> []) by (intros t; by destruct log).
    destruct (act_state a) eqn:Hst.
    + destruct Hc as [(-> & -> & Ht & <- & <-)|(-> & a' & -> & ->)].
      * rewrite Hst. split; [set_solver|]. intros x Hx. destruct (HA x Hx) as (? & ? & Htx).
        simpl. rewrite Htx. split; [done|congruence].
      * split; [split; [done|]; intros t [Ht|Ht]%elem_of_app; [by destruct (HA t Ht) as [-> _]|set_solver]|].
        intros x Hx. destruct (HA x Hx) as [-> _]. done.
    + destruct Hc as (-> & a' & -> & ->). split; [set_solver|]. intros x Hx. specialize (HA x Hx).
      split; [done|]. by intros.
    + destruct Hc as (-> & -> & ->). rewrite Hst. split; [set_solver|]. intros x Hx. split; [done|].
      intros Hs. split; [done|]. symmetry. by apply HA.
  - destruct Hc as [-> ->]. rewrite HA. simpl. split_and!; [done| |by intros x Hx%elem_of_nil|done].
    by intros t ->%list_elem_of_singleton.
Qed.

Lemma accounts_complete log n res s r s' :
  accounts log (action_at key s) -> complete_action n key res s = Ok (r, s') ->
  let t := mkTold n None (rp_status r) (rp_result r) in
  accounts (log ++ [t]) (action_at key s') /\ (forall x, x ∈ log -> consistent x t) /\ log <> [].
Proof.
  intros HA Hc%complete_reply. destruct Hc as (a & a' & Ha & -> & -> & Hst' & Hr & Hst).
  unfold accounts in *. rewrite Hst'. rewrite Ha in HA. destruct HA as [Hne HA].
  assert (HR : forall x, x ∈ log -> told_status x = act_completed -> told_result x = rp_result r).
  { intros x Hx Hs. destruct (act_state a) eqn:E.
    - destruct (HA x Hx) as [? _]. congruence.
    - by destruct (HA x Hx).
    - rewrite <- Hst by done. by apply HA. }
  split_and!; [by destruct log| | |done].
  { intros t [Ht| ->%list_elem_of_singleton]%elem_of_app; [|done]. rewrite Hr. by apply HR. }
  intros x Hx. split; [done|]. intros Hs. split; [done|]. symmetry. by apply HR.
Qed.

Lemma head_snoc log t (P : Told -> Prop) :
  (forall x, head log = Some x -> P x) -> (log = [] -> P t) -> forall x, head (log ++ [t]) = Some x -> P x.
Proof. destruct log; simpl; [intros _ Ht x [= <-]; by apply Ht|done]. Qed.

Lemma life_consistent s0 log s :
  action_at key s0 = None -> life s0 log s ->
  accounts log (action_at key s) /\ all_consistent log /\ (forall x, head log = Some x -> told_status x = act_claimed).
Proof.
  intros H0 HL.
  induction HL as [|log s n tok r s' HL (A & C & F) Hc|log s n res r s' HL (A & C & F) Hc|log s A m a s' HL (A' & C & F) Hb Hm|log s s' HL (A & C & F) Hs].
  - rewrite H0. split_and!; [done| |done]. intros i j x y _ Hi. done.
  - destruct (accounts_claim _ _ _ _ _ _ A Hc) as (A' & Hx & Hh). split; [done|].
    split; [by apply all_consistent_snoc|by apply head_snoc].
  - destruct (accounts_complete _ _ _ _ _ _ A Hc) as (A' & Hx & Hh). split; [done|].
    split; [by apply all_consistent_snoc|by apply head_snoc].
  - pose proof (wp_run _ _ _ _ _ (bystander_quiet st key m Hb s) Hm) as Hq. simpl in Hq. by rewrite Hq.
  - unfold action_at. rewrite Hs. done.
Qed.

(** An external action is handed out once.  Over the whole life of a run, retries and
    resent requests included: the first call that gets an answer for a key is told
    [claimed]; after that only a resend of that very claim (same attempt and same claim
    token) is told [claimed], and no one is once anybody has been told [in_doubt] or
    [completed]; and a completed key answers [completed] with one and the same result
    for ever. *)
Theorem claimed_once s0 log s :
  action_at key s0 = None -> life s0 log s ->
  all_consistent log /\ (forall x, head log = Some x -> told_status x = act_claimed).
Proof. intros H0 HL. by destruct (life_consistent _ _ _ H0 HL) as [_ ?]. Qed.
End life.
