(* ===== verification/Cron.v ===== *)
(** * Cron schedules in a time zone ([cron.py])

    Local ("naive") wall-clock times and instants are both microsecond counts.  The two
    libraries the module calls are parameters: [zoneinfo] (the set of zone names and the
    conversions of a zone, [to_utc] being the conversion with [fold=0]) and [croniter]
    (expression syntax, and the next matching local time after a given one).  What the
    theorems use of them is stated in [CronLaws]. *)

From Stdlib Require Import Ascii.
From S2P Require Import Prelude Json Redaction.
#[local] Open Scope Z_scope.

Class CronLib := {
  Zone : Type;
  available_timezones : string -> bool;
  zone_info : string -> Zone;
  to_local : Zone -> instant -> Z;      (* u.astimezone(zone).replace(tzinfo=None) *)
  to_utc : Zone -> Z -> instant;        (* n.replace(tzinfo=zone, fold=0).astimezone(UTC) *)
  croniter_is_valid : string -> bool;
  croniter_next : string -> Z -> option Z   (* get_next; [None]: CroniterBadDateError *)
}.

Definition minute : Z := seconds 60.
Definition day : Z := seconds 86400.

(** What the two libraries document: [get_next] moves forward, in whole minutes for the
    five-field form; UTC offsets are shorter than a day; an instant's local time denotes
    that instant or, where the clock was set back, an earlier one, so it is never taken for
    a time in a gap; clocks run forward between the times they show. *)
Class CronLaws `{CronLib} := {
  next_later : forall e t u, croniter_next e t = Some u -> t < u;
  next_minute : forall e t u, croniter_next e t = Some u -> u mod minute = 0;
  local_exists : forall z u, to_local z (to_utc z (to_local z u)) = to_local z u;
  fold_first : forall z u, to_utc z (to_local z u) <= u;
  offset_local : forall z u, Z.abs (to_local z u - u) <= day;
  offset_utc : forall z n, Z.abs (to_utc z n - n) <= day;
  utc_increasing : forall z n m, to_local z (to_utc z n) = n -> to_local z (to_utc z m) = m ->
    n <= m -> to_utc z n <= to_utc z m
}.

(** ** Whitespace *)

Definition add_word (w : text) (ws : list text) : list text :=
  match w with [] => ws | _ => w :: ws end.

(** The word in progress at the left end, and the words after it. *)
Fixpoint scan_words (s : text) : text * list text :=
  match s with
  | [] => ([], [])
  | c :: s' => let '(w, ws) := scan_words s' in
               if is_space c then ([], add_word w ws) else (c :: w, ws)
  end.

(** [s.split()] *)
Definition split_words (s : text) : list text := let '(w, ws) := scan_words s in add_word w ws.

(** [s.split(" ")] *)
Fixpoint scan_fields (s : text) : text * list text :=
  match s with
  | [] => ([], [])
  | c :: s' => let '(w, ws) := scan_fields s' in
               if Ascii.eqb c " " then ([], w :: ws) else (c :: w, ws)
  end.
Definition split_spaces (s : text) : list text := let '(w, ws) := scan_fields s in w :: ws.

(** [" ".join(ws)] *)
Fixpoint join_words (ws : list text) : text :=
  match ws with
  | [] => []
  | [w] => w
  | w :: ws' => w ++ (" "%char :: join_words ws')
  end.

Section cron.
Context {lib : CronLib}.

(** ** Validation *)

Definition has_slash (name : string) : bool := existsb (fun c => Ascii.eqb c "/") (chars name).

Definition validate_timezone (name : string) : Result PlatformError Zone :=
  if String.eqb name "UTC"
     || (has_slash name && negb (String.prefix "Etc/" name) && available_timezones name)
  then Ok (zone_info name)
  else Err (invalid "INVALID_TIMEZONE" [("timezone", JStr name)]%string).

(** [datetime(2000, 1, 1)] *)
Definition year_2000 : Z := seconds 946684800.

Definition validate_cron (expr : string) : Result PlatformError string :=
  let expr := unchars (join_words (split_words (chars expr))) in
  if negb (length (split_spaces (chars expr)) =? 5)%nat || negb (croniter_is_valid expr) then
    Err (invalid "INVALID_CRON" [])
  else match croniter_next expr year_2000 with
       | None => Err (invalid "INVALID_CRON" [])
       | Some _ => Ok expr
       end.

(** ** Occurrences *)

Definition is_valid_local (naive : Z) (zone : Zone) : bool := to_local zone (to_utc zone naive) =? naive.

(** [probe.replace(second=0, microsecond=0) + timedelta(minutes=1)] *)
Definition next_minute_of (probe : Z) : Z := probe / minute * minute + minute.

Fixpoint resolve_from (fuel : nat) (probe : Z) (zone : Zone) : Result PlatformError instant :=
  match fuel with
  | O => Err (invalid "INVALID_SCHEDULE" [])
  | Datatypes.S fuel' =>
      if is_valid_local probe zone then Ok (to_utc zone probe)
      else resolve_from fuel' (next_minute_of probe) zone
  end.
Definition resolve_local (naive : Z) (zone : Zone) : Result PlatformError instant :=
  resolve_from (24 * 60) naive zone.

Definition NEXT_TRIES : nat := Z.to_nat 10000.

(** The loop of [next_occurrence]; [cur] is the position of the croniter iterator. *)
Fixpoint next_from (fuel : nat) (expr : string) (zone : Zone) (cur : Z) (after : instant)
    : Result PlatformError instant :=
  match fuel with
  | O => Err (invalid "INVALID_SCHEDULE" [])
  | Datatypes.S fuel' =>
      match croniter_next expr cur with
      | None => Err (invalid "INVALID_CRON" [])
      | Some naive =>
          match resolve_local naive zone with
          | Err e => Err e
          | Ok candidate =>
              if after <? candidate then Ok candidate else next_from fuel' expr zone naive after
          end
      end
  end.

Definition next_occurrence (expr timezone : string) (after : instant) : Result PlatformError instant :=
  match validate_timezone timezone with
  | Err e => Err e
  | Ok zone => next_from NEXT_TRIES expr zone (to_local zone after) after
  end.

Fixpoint next_occurrences (expr timezone : string) (after : instant) (count : nat)
    : Result PlatformError (list instant) :=
  match count with
  | O => Ok []
  | Datatypes.S count' =>
      match next_occurrence expr timezone after with
      | Err e => Err e
      | Ok cursor => match next_occurrences expr timezone cursor count' with
                     | Err e => Err e
                     | Ok rest => Ok (cursor :: rest)
                     end
      end
  end.

Definition LATEST_TRIES : nat := Z.to_nat 100000.

Fixpoint latest_from (fuel : nat) (expr timezone : string) (latest now : instant)
    : Result PlatformError instant :=
  match fuel with
  | O => Ok latest
  | Datatypes.S fuel' =>
      match next_occurrence expr timezone latest with
      | Err e => Err e
      | Ok nxt => if now <? nxt then Ok latest else latest_from fuel' expr timezone nxt now
      end
  end.
Definition latest_occurrence_at_or_before (expr timezone : string) (start now : instant)
    : Result PlatformError instant :=
  latest_from LATEST_TRIES expr timezone start now.
End cron.

(** ** Text lemmas *)

Definition word (w : text) : Prop := w <> [] /\ Forall (fun c => is_space c = false) w.

Lemma scan_words_spec s :
  Forall (fun c => is_space c = false) (scan_words s).1 /\ Forall word (scan_words s).2.
Proof.
  induction s as [|c s [H1 H2]]; simpl; [done|]. destruct (scan_words s) as [w ws]; simpl in *.
  destruct (is_space c) eqn:Hc; simpl; [|by split; [constructor|]].
  split; [done|]. destruct w; simpl; [done|]. by constructor.
Qed.

Lemma split_words_spec s : Forall word (split_words s).
Proof.
  unfold split_words. pose proof (scan_words_spec s) as [H1 H2]. destruct (scan_words s) as [w ws]; simpl in *.
  destruct w; simpl; [done|]. by constructor.
Qed.

Lemma scan_words_app w s :
  Forall (fun c => is_space c = false) w ->
  scan_words (w ++ s) = (w ++ (scan_words s).1, (scan_words s).2).
Proof.
  induction 1 as [|c w Hc _ IH]; simpl; [by destruct (scan_words s)|]. by rewrite IH, Hc.
Qed.

Lemma scan_words_join ws :
  Forall word ws -> split_words (join_words ws) = ws.
Proof.
  unfold split_words. induction 1 as [|w ws [Hne Hw] _ IH]; [done|].
  destruct ws as [|w' ws].
  - simpl. rewrite <- (app_nil_r w), scan_words_app by done. simpl. rewrite app_nil_r. by destruct w.
  - change (join_words (w :: w' :: ws)) with (w ++ (" "%char :: join_words (w' :: ws))).
    rewrite scan_words_app by done. cbn [scan_words]. destruct (scan_words (join_words (w' :: ws))) as [v vs].
    change (is_space " ") with true. simpl. rewrite app_nil_r, IH. by destruct w.
Qed.

Lemma scan_fields_app w s :
  Forall (fun c => is_space c = false) w ->
  scan_fields (w ++ s) = (w ++ (scan_fields s).1, (scan_fields s).2).
Proof.
  induction 1 as [|c w Hc _ IH]; simpl; [by destruct (scan_fields s)|]. rewrite IH.
  destruct (Ascii.eqb c " ") eqn:He; [|done]. apply Ascii.eqb_eq in He. by subst c.
Qed.

Lemma scan_fields_join ws : ws <> [] -> Forall word ws -> split_spaces (join_words ws) = ws.
Proof.
  intros Hne. unfold split_spaces. induction 1 as [|w ws [_ Hw] _ IH]; [done|]. clear Hne.
  destruct ws as [|w' ws].
  - simpl. rewrite <- (app_nil_r w), scan_fields_app by done. simpl. by rewrite app_nil_r.
  - change (join_words (w :: w' :: ws)) with (w ++ (" "%char :: join_words (w' :: ws))).
    rewrite scan_fields_app by done. cbn [scan_fields]. specialize (IH ltac:(done)).
    destruct (scan_fields (join_words (w' :: ws))) as [v vs]. simpl. by rewrite app_nil_r, IH.
Qed.

Section props.
Context {lib : CronLib}.

(** An accepted cron expression is stored in normal form: exactly the five
    whitespace-separated fields the user typed, joined by single spaces, accepted by
    croniter and occurring at least once; and the normal form is accepted unchanged. *)
Theorem cron_normal_form expr expr' :
  validate_cron expr = Ok expr' ->
  split_spaces (chars expr') = split_words (chars expr) /\
  length (split_words (chars expr)) = 5%nat /\
  croniter_is_valid expr' = true /\ is_Some (croniter_next expr' year_2000) /\
  validate_cron expr' = Ok expr'.
Proof.
  unfold validate_cron. set (ws := split_words (chars expr)).
  assert (Hw : Forall word ws) by apply split_words_spec.
  set (e := unchars (join_words ws)).
  assert (He : chars e = join_words ws) by apply chars_unchars.
  destruct (length (split_spaces (chars e)) =? 5)%nat eqn:Hl; [|done]. cbn [negb orb].
  destruct (croniter_is_valid e) eqn:Hv; [|done]. cbn [negb orb].
  destruct (croniter_next e year_2000) as [u|] eqn:Hn; [|done]. intros [= <-].
  assert (Hne : ws <> []).
  { intros E. rewrite He, E in Hl. done. }
  assert (Hs : split_spaces (chars e) = ws) by (rewrite He; by apply scan_fields_join).
  rewrite Hs in Hl. apply Nat.eqb_eq in Hl.
  assert (E : unchars (join_words (split_words (chars e))) = e)
    by (rewrite He, scan_words_join by done; done).
  split_and!; try done; rewrite ?E, ?Hs, ?Hl, ?Hv, ?Hn; done.
Qed.
End props.

(** ** Local times *)

(** The tries left after the first one reach more than two days ahead. *)
Lemma next_tries : exists k, NEXT_TRIES = Datatypes.S k /\ 2 * day < Z.of_nat k * minute.
Proof.
  exists (Z.to_nat 9999). unfold NEXT_TRIES. rewrite <- Z2Nat.inj_succ, Z2Nat.id by lia. done.
Qed.

#[local] Opaque NEXT_TRIES LATEST_TRIES.

Lemma minute_step p : p mod minute = 0 -> next_minute_of p = p + minute.
Proof.
  unfold next_minute_of, minute, seconds. intros H. pose proof (Z.div_mod p (60 * 1000000) ltac:(lia)). lia.
Qed.

Lemma minute_next p : next_minute_of p mod minute = 0.
Proof.
  unfold next_minute_of, minute, seconds.
  replace (p / (60 * 1000000) * (60 * 1000000) + 60 * 1000000)
    with ((p / (60 * 1000000) + 1) * (60 * 1000000)) by lia.
  apply Z.mod_mul. lia.
Qed.

Lemma minute_later p : p < next_minute_of p.
Proof.
  unfold next_minute_of, minute, seconds. pose proof (Z.div_mod p (60 * 1000000) ltac:(lia)).
  pose proof (Z.mod_pos_bound p (60 * 1000000) ltac:(lia)). lia.
Qed.

(** Whole minutes are a minute apart. *)
Lemma minutes_apart n m : n mod minute = 0 -> m mod minute = 0 -> n < m -> n + minute <= m.
Proof.
  intros Hn Hm Hlt. apply Z.div_exact in Hn, Hm; try done. rewrite Hn, Hm in *.
  unfold minute, seconds in *. nia.
Qed.

Section resolve.
Context {lib : CronLib} {laws : CronLaws}.

(** [n] is shown by the clocks of the zone at some instant. *)
Definition shown (z : Zone) (n : Z) : Prop := exists u, to_local z u = n.

Lemma valid_shown z n : is_valid_local n z = true <-> shown z n.
Proof.
  unfold is_valid_local. rewrite Z.eqb_eq. split; [by eexists|]. intros [u <-]. apply local_exists.
Qed.

(** The probe that [resolve_from] settles on. *)
Lemma resolve_from_spec fuel p z u :
  resolve_from fuel p z = Ok u ->
  exists q, p <= q /\ is_valid_local q z = true /\ u = to_utc z q /\ (is_valid_local p z = true -> q = p) /\
    (p mod minute = 0 -> q mod minute = 0 /\
       forall m, p <= m < q -> m mod minute = 0 -> is_valid_local m z = false).
Proof.
  revert p. induction fuel as [|fuel IH]; intros p; cbn [resolve_from]; [done|].
  destruct (is_valid_local p z) eqn:Hv.
  - intros [= <-]. exists p. split_and!; try done. intros Hp. split; [done|]. intros m Hm. lia.
  - intros (q & Hq & Hvq & -> & _ & Hmin)%IH. pose proof (minute_later p). exists q.
    split_and!; try done; [lia|]. intros Hp. destruct (Hmin (minute_next p)) as [Hq0 Hno]. split; [done|].
    intros m Hm Hm0. destruct (Z.eq_dec m p) as [->|Hne]; [done|]. apply Hno; [|done].
    rewrite minute_step by done. pose proof (minutes_apart p m Hp Hm0). lia.
Qed.

(** The gap and overlap rules.  A local time the zone's clocks show (once or twice)
    resolves to the first instant at which they show it; a local minute that falls into a
    gap resolves to the instant of the first later minute that is shown, and no minute in
    between is. *)
Theorem local_time_resolved z n u :
  n mod minute = 0 -> resolve_local n z = Ok u ->
  (shown z n -> to_local z u = n /\ forall u', to_local z u' = n -> u <= u') /\
  (~ shown z n -> n < to_local z u /\ to_local z u mod minute = 0 /\
     forall m, n <= m < to_local z u -> m mod minute = 0 -> ~ shown z m).
Proof.
  intros Hn Hr. apply resolve_from_spec in Hr as (q & Hq & Hv & -> & Hsame & Hmin).
  assert (Hl : to_local z (to_utc z q) = q) by by apply Z.eqb_eq. split.
  - intros Hs%valid_shown. rewrite (Hsame Hs) in *. split; [done|]. intros u' <-. apply fold_first.
  - rewrite Hl. intros Hs. destruct (Hmin Hn) as [Hq0 Hno]. split_and!; [|done|].
    + destruct (Z.eq_dec n q) as [->|]; [|lia]. exfalso. by apply Hs, valid_shown.
    + intros m Hm Hm0 Hsm%valid_shown. by rewrite (Hno m) in Hsm.
Qed.

Lemma resolve_monotone z n m u v :
  n mod minute = 0 -> m mod minute = 0 -> n <= m ->
  resolve_local n z = Ok u -> resolve_local m z = Ok v -> u <= v.
Proof.
  intros Hn Hm Hle Hu Hv.
  apply resolve_from_spec in Hu as (p & Hp & Hvp & -> & _ & Hpmin).
  apply resolve_from_spec in Hv as (q & Hq & Hvq & -> & _ & Hqmin).
  apply utc_increasing; [by apply Z.eqb_eq|by apply Z.eqb_eq|].
  destruct (Hpmin Hn) as [Hp0 Hno]. destruct (Hqmin Hm) as [Hq0 _].
  destruct (Z.le_gt_cases p q) as [|Hlt]; [done|]. rewrite (Hno q) in Hvq by (lia || done). done.
Qed.
End resolve.

(** ** Occurrences *)

Lemma resolve_local_from `{CronLaws} n z u :
  resolve_local n z = Ok u -> exists q, n <= q /\ u = to_utc z q.
Proof. intros (q & Hq & _ & -> & _)%resolve_from_spec. by exists q. Qed.

#[local] Opaque resolve_local.

Section occurrences.
Context {lib : CronLib} {laws : CronLaws}.

(** The local times that croniter produces, one after the other, from [t] on. *)
Inductive upcoming (expr : string) : Z -> Z -> Prop :=
| up_next t n : croniter_next expr t = Some n -> upcoming expr t n
| up_later t m n : croniter_next expr t = Some m -> upcoming expr m n -> upcoming expr t n.

Lemma upcoming_minute e t n : upcoming e t n -> n mod minute = 0.
Proof. induction 1; [by eapply next_minute|done]. Qed.
Lemma upcoming_later e t n : upcoming e t n -> t < n.
Proof. induction 1 as [t n H|t m n H _ IH]; apply next_later in H; lia. Qed.

Lemma next_from_spec fuel e z cur after u :
  next_from fuel e z cur after = Ok u ->
  after < u /\ exists n, upcoming e cur n /\ resolve_local n z = Ok u /\
    forall m v, upcoming e cur m -> resolve_local m z = Ok v -> v <= after \/ u <= v.
Proof.
  revert cur. induction fuel as [|fuel IH]; intros cur; cbn [next_from]; [done|].
  destruct (croniter_next e cur) as [n|] eqn:Hn; [|done].
  destruct (resolve_local n z) as [c|] eqn:Hc; [|done].
  assert (HU : forall m, upcoming e cur m -> m = n \/ upcoming e n m).
  { intros m Hm. inversion Hm; simplify_eq; auto. }
  destruct (after <? c) eqn:Hlt.
  - intros [= <-]. split; [by apply Z.ltb_lt|]. exists n. split_and!; [by constructor|done|].
    intros m v [->|Hm]%HU Hv; [rewrite Hc in Hv; injection Hv as <-; lia|right].
    apply (resolve_monotone z n m); [exact (next_minute _ _ _ Hn)|exact (upcoming_minute _ _ _ Hm)| |exact Hc|exact Hv].
    apply upcoming_later in Hm. lia.
  - apply Z.ltb_ge in Hlt. intros (Hu & m0 & Hm0 & Hr & Hmin)%IH. split; [done|].
    exists m0. split_and!; [by eapply up_later|done|]. intros m v [->|Hm]%HU Hv; [rewrite Hc in Hv; injection Hv as <-; lia|by eapply Hmin].
Qed.

(** [next_occurrence] is the first occurrence strictly after the given instant: it is
    later, it is the resolution of a local time that matches the expression, and every
    other match resolves to an instant that is either not later than the given one or not
    earlier than the answer. *)
Theorem next_occurrence_first e tz after u :
  next_occurrence e tz after = Ok u ->
  after < u /\ exists z n, validate_timezone tz = Ok z /\
    upcoming e (to_local z after) n /\ resolve_local n z = Ok u /\
    forall m v, upcoming e (to_local z after) m -> resolve_local m z = Ok v -> v <= after \/ u <= v.
Proof.
  unfold next_occurrence. destruct (validate_timezone tz) as [z|]; [|done].
  intros (H & n & Hn)%next_from_spec. split; [done|]. by exists z, n.
Qed.

Lemma next_occurrence_later e tz after u : next_occurrence e tz after = Ok u -> after < u.
Proof.
  unfold next_occurrence. destruct (validate_timezone tz) as [z|]; [|done]. by intros [H _]%next_from_spec.
Qed.

Lemma resolve_lower n z u : resolve_local n z = Ok u -> n - day <= u.
Proof.
  intros Hr. apply resolve_local_from in Hr as (q & Hq & ->). pose proof (offset_utc z q). lia.
Qed.

(** Two days past the start every match is in the future, and matches are minutes apart. *)
Lemma next_from_finds fuel e z cur after :
  (forall t, is_Some (croniter_next e t)) ->
  (forall n, n mod minute = 0 -> exists u, resolve_local n z = Ok u) ->
  cur mod minute = 0 -> to_local z after + 2 * day - cur < Z.of_nat fuel * minute ->
  cur <= to_local z after + 2 * day ->
  exists u, next_from fuel e z cur after = Ok u.
Proof.
  intros Hcron Hres. revert cur. induction fuel as [|fuel IH]; intros cur Hc Hf Hle; [lia|]. cbn [next_from].
  destruct (Hcron cur) as [n Hn]. rewrite Hn. pose proof (next_minute _ _ _ Hn) as Hm.
  pose proof (minutes_apart _ _ Hc Hm (next_later _ _ _ Hn)).
  destruct (Hres n Hm) as [c Hr]. rewrite Hr. destruct (after <? c) eqn:Hlt; [by eexists|].
  apply Z.ltb_ge in Hlt. apply IH; [done|lia|].
  pose proof (resolve_lower _ _ _ Hr). pose proof (offset_local z after). lia.
Qed.

(** The search for the next occurrence always succeeds: if the zone is accepted, the
    expression keeps matching and no gap of the zone is longer than the 24 hours that are
    probed, the 10,000 tries suffice (2,881 would). *)
Theorem next_occurrence_exists e tz z after :
  validate_timezone tz = Ok z -> (forall t, is_Some (croniter_next e t)) ->
  (forall n, n mod minute = 0 -> exists u, resolve_local n z = Ok u) ->
  exists u, next_occurrence e tz after = Ok u.
Proof.
  intros Hz Hcron Hres. unfold next_occurrence. rewrite Hz.
  destruct next_tries as (k & -> & Hk). cbn [next_from].
  destruct (Hcron (to_local z after)) as [n Hn]. rewrite Hn.
  pose proof (next_minute _ _ _ Hn) as Hm. pose proof (next_later _ _ _ Hn) as Hlt.
  destruct (Hres n Hm) as [c Hr]. rewrite Hr. destruct (after <? c) eqn:Hc; [by eexists|].
  apply Z.ltb_ge in Hc. apply next_from_finds; [done|done|done|lia|].
  pose proof (resolve_lower _ _ _ Hr). pose proof (offset_local z after). lia.
Qed.

(** [k] steps from one occurrence to the next. *)
Fixpoint steps_to (k : nat) (e tz : string) (start u : instant) : Prop :=
  match k with
  | O => u = start
  | Datatypes.S k' => exists v, next_occurrence e tz start = Ok v /\ steps_to k' e tz v u
  end.

Lemma latest_from_spec fuel e tz start now u :
  start <= now -> latest_from fuel e tz start now = Ok u ->
  start <= u <= now /\ exists k, steps_to k e tz start u /\
    (k = fuel \/ exists nxt, next_occurrence e tz u = Ok nxt /\ now < nxt).
Proof.
  revert start. induction fuel as [|fuel IH]; intros start Hs; cbn [latest_from].
  { intros [= <-]. split; [lia|]. exists O. split; [done|by left]. }
  destruct (next_occurrence e tz start) as [v|] eqn:Hv; [|done].
  pose proof (next_occurrence_later _ _ _ _ Hv). destruct (now <? v) eqn:Hlt.
  - intros [= <-]. split; [lia|]. exists O. split; [done|]. right. exists v. split; [done|by apply Z.ltb_lt].
  - apply Z.ltb_ge in Hlt. intros (Hb & k & Hk & Hend)%IH; [|done]. split; [lia|].
    exists (Datatypes.S k). split; [by exists v|]. destruct Hend as [->|Hend]; auto.
Qed.

(** [latest_occurrence_at_or_before] stays inside [start, now] and is reached from
    [start] by successive occurrences; unless 100,000 occurrences were passed over, the
    next one after it is already in the future, so it is the latest. *)
Theorem latest_occurrence_correct e tz start now u :
  start <= now -> latest_occurrence_at_or_before e tz start now = Ok u ->
  start <= u <= now /\ exists k, steps_to k e tz start u /\
    (k = LATEST_TRIES \/ exists nxt, next_occurrence e tz u = Ok nxt /\ now < nxt).
Proof. apply latest_from_spec. Qed.

(** The preview of the next [count] occurrences is exactly that long and strictly
    increasing from the given instant on. *)
Theorem next_occurrences_increasing e tz after count us :
  next_occurrences e tz after count = Ok us ->
  length us = count /\ forall i u v, (after :: us) !! i = Some u -> us !! i = Some v -> u < v.
Proof.
  revert after us. induction count as [|count IH]; intros after us; cbn [next_occurrences].
  { by intros [= <-]. }
  destruct (next_occurrence e tz after) as [c|] eqn:Hc; [|done].
  destruct (next_occurrences e tz c count) as [rest|] eqn:Hr; [|done]. intros [= <-].
  destruct (IH _ _ Hr) as [Hl Hi]. split; [by simpl; rewrite Hl|].
  intros [|i] u v Hu Hv; simpl in *; [|by eapply Hi].
  simplify_eq. by eapply next_occurrence_later.
Qed.
End occurrences.
