(* ===== verification/Scheduler.v ===== *)
(** * The scheduler ([scheduler.py])

    [fire] is [_fire] and [tick] the leader's transaction over the due schedules.  A tick
    is a sequence of steps of the system in [World] ([tick_refines]), so everything proved of
    reachable states covers scheduled runs; the theorems here add what a schedule promises:
    which occurrence is fired, that it advances, and what happens to missed ones. *)

From S2P Require Import Prelude TimeUtil Json Redaction SchemaGuard States Jobs RunModel RunService RunInv.
From S2P Require Import RunOps Platform Capability Worker Reconciler World SystemProps Cron.
#[local] Open Scope Z_scope.

Inductive Outcome := fired | duplicate | misfire_skipped | installation_unavailable.

#[export] Instance Outcome_eq_dec : EqDecision Outcome.
Proof. solve_decision. Defined.

Record FireResult := mkFireResult {
  fr_schedule_id : uuid;
  fr_scheduled_for : instant;
  fr_run_id : option uuid;
  fr_outcome : Outcome
}.

Section scheduler.
Context {clk : Clock} {lib : CronLib}.

Definition lift {A} (r : Result PlatformError A) : PM A :=
  match r with Ok a => ret a | Err e => raise e end.

Definition set_schedule (sid : uuid) (f : Schedule -> Schedule) : PM unit :=
  modify (fun d => d <| db_schedules ::= alter f sid |>).

(** The installation, unless it is missing, deleted, disabled or awaits approval. *)
Definition usable (o : option AgentInstallation) : option AgentInstallation :=
  match o with
  | Some i => if bool_decide (is_Some (ins_deleted_at i)) || negb (ins_enabled i) || ins_needs_reapproval i
              then None else Some i
  | None => None
  end.

Definition is_late (now due_at : instant) (grace_seconds : Z) : bool := seconds grace_seconds <? now - due_at.

Definition span (from to : instant) (to_key : string) : Json :=
  JObj [("missedFrom"%string, JStr (isoformat from)); (to_key, JStr (isoformat to))].

Definition fire (schedule : Schedule) (now : instant) (grace_seconds : Z) : PM FireResult :=
  match sch_next_run_at schedule with
  | None => raise UNEXPECTED
  | Some due_at =>
      let late := is_late now due_at grace_seconds in
      let! scheduled_for :=
        (if late then
           lift (latest_occurrence_at_or_before (sch_cron schedule) (sch_timezone schedule) due_at now)
         else ret due_at) in
      let! next := lift (next_occurrence (sch_cron schedule) (sch_timezone schedule)
                           (if late then now else scheduled_for)) in
      set_schedule (sch_id schedule) (fun s => s <| sch_next_run_at := Some next |>) ;;
      if late && bool_decide (sch_misfire_policy schedule = skip) then
        record_audit "schedule.misfire_skipped" "system" (Some "schedule"%string)
          (Some (uuid_str (sch_id schedule))) "success" (Some (span due_at scheduled_for "missedThrough")) ;;
        ret (mkFireResult (sch_id schedule) scheduled_for None misfire_skipped)
      else
        let! installation := gets (fun d => db_installations d !! sch_installation_id schedule) in
        match usable installation with
        | None =>
            record_audit "schedule.skipped" "system" (Some "schedule"%string)
              (Some (uuid_str (sch_id schedule))) "failure"
              (Some (JObj [("reason", JStr "installation_unavailable");
                           ("scheduledFor", JStr (isoformat scheduled_for))]%string)) ;;
            ret (mkFireResult (sch_id schedule) scheduled_for None installation_unavailable)
        | Some i =>
            let! version := gets (fun d => db_versions d !! ins_agent_version_id i) in
            match version with
            | None => raise UNEXPECTED
            | Some v =>
                let! created := create_run i v (mkNewRun "schedule" None (Some (sch_id schedule))
                                  (Some scheduled_for) None None None) in
                set_schedule (sch_id schedule) (fun s =>
                  s <| sch_last_fired_at := Some now |> <| sch_last_run_id := Some created.1 |>) ;;
                when late
                  (record_audit "schedule.misfire_fired_once" "system" (Some "schedule"%string)
                     (Some (uuid_str (sch_id schedule))) "success"
                     (Some (span due_at scheduled_for "firedFor"))) ;;
                ret (mkFireResult (sch_id schedule) scheduled_for (Some created.1)
                       (if (created.2 : bool) then fired else duplicate))
            end
        end
  end.

Definition is_due (now : instant) (s : Schedule) : bool :=
  sch_enabled s && negb (bool_decide (is_Some (sch_deleted_at s)))
  && match sch_next_run_at s with Some t => t <=? now | None => false end.

(** The select: the due schedules nobody holds a lock on, earliest first, at most 100. *)
Definition due (locked : uuid -> bool) (now : instant) (d : DB) : list Schedule :=
  take 100 (order_by (fun s => default 0 (sch_next_run_at s))
    (List.filter (fun s => is_due now s && negb (locked (sch_id s)))
       (map snd (map_to_list (db_schedules d))))).

Fixpoint fire_all (schedules : list Schedule) (now : instant) (grace_seconds : Z) : PM (list FireResult) :=
  match schedules with
  | [] => ret []
  | s :: rest =>
      let! r := fire s now grace_seconds in
      let! rs := fire_all rest now grace_seconds in
      ret (r :: rs)
  end.

Definition tick (locked : uuid -> bool) (now : instant) (misfire_grace_seconds : Z) : PM (list FireResult) :=
  let! schedules := gets (due locked now) in
  fire_all schedules now misfire_grace_seconds.
End scheduler.

(** ** A tick as steps of the system *)

Section refinement.
Context {clk : Clock} {JS : JsonSchema} {J : Jwt} {RT : Runtime} {lib : CronLib} (st : Settings).
Implicit Types (d : DB).

(** [d'] is reached from [d] by system steps. *)
Definition reaches (skips : bool) (acts : gmap nat Activity) (d d' : DB) : Prop :=
  rtc (wstep st skips) (mkWorld d acts) (mkWorld d' acts).

Lemma reaches_other skips acts d d' d'' :
  reaches skips acts d d' -> db_runs d'' = db_runs d' -> db_jobs d'' = db_jobs d' ->
  db_fresh d'' = db_fresh d' -> reaches skips acts d d''.
Proof.
  intros H H1 H2 H3. eapply rtc_r; [exact H|]. apply step_other; [done|done|]. rewrite H3. lia.
Qed.

Lemma wp_lift {A} (r : Result PlatformError A) (Q : A -> DB -> Prop) d :
  (forall a, r = Ok a -> Q a d) -> wp (lift r) Q d.
Proof. intros HQ. destruct r; [by apply HQ|done]. Qed.

Lemma fire_reaches skips acts schedule now grace d0 d :
  reaches skips acts d0 d -> wp (fire schedule now grace) (fun _ => reaches skips acts d0) d.
Proof.
  intros H0. unfold fire, record_audit, set_schedule.
  destruct (sch_next_run_at schedule) as [due_at|]; [|done]. wp_step.
  apply (wp_mono _ (fun _ d' => d' = d)).
  { apply wp_if; intros _; [by apply wp_lift|done]. }
  intros scheduled_for ? ->. wp_step. apply wp_lift; intros next _. wp_step. apply wp_modify.
  apply wp_if; intros _.
  { wp_step. apply wp_modify. apply wp_ret. by eapply reaches_other. }
  wp_step. apply wp_gets. destruct (usable _) as [i|].
  2:{ wp_step. apply wp_modify. apply wp_ret. by eapply reaches_other. }
  wp_step. apply wp_gets. destruct (db_versions _ !! _) as [v|]; [|done]. wp_step.
  match goal with |- wp _ _ ?x => assert (H1 : reaches skips acts d0 x) by by eapply reaches_other end.
  revert H1. match goal with |- reaches _ _ _ ?x -> _ => generalize x end. intros d1 H1.
  unfold wp at 1. destruct (create_run _ _ _ d1) as [[[id cr] d2]|] eqn:Hc; [|done].
  assert (H2 : reaches skips acts d0 d2) by (eapply rtc_r; [exact H1|by eapply step_create]).
  wp_step. apply wp_modify. wp_step. apply wp_when; intros _; [apply wp_modify|]; apply wp_ret;
    by eapply reaches_other.
Qed.

Lemma fire_all_reaches skips acts schedules now grace d0 d :
  reaches skips acts d0 d -> wp (fire_all schedules now grace) (fun _ => reaches skips acts d0) d.
Proof.
  revert d. induction schedules as [|s ss IH]; intros d H0; [by apply wp_ret|]. cbn [fire_all].
  wp_step. eapply wp_mono; [by apply fire_reaches|]. intros r d1 H1. wp_step.
  eapply wp_mono; [by apply IH|]. intros rs d2 H2. by apply wp_ret.
Qed.

(** A scheduler tick is made of steps of the system: whatever it commits is reached by
    run creations and changes of other tables, so every property of reachable states
    (served runs, complete logs, one run per occurrence) holds of scheduled runs too. *)
Theorem tick_refines skips acts locked now grace d rs d' :
  tick locked now grace d = Ok (rs, d') ->
  rtc (wstep st skips) (mkWorld d acts) (mkWorld d' acts).
Proof.
  intros Ht. refine (wp_run _ (fun _ => reaches skips acts d) _ _ _ _ Ht). unfold tick. wp_step. apply wp_gets.
  apply fire_all_reaches. by constructor.
Qed.
End refinement.

(** ** What firing a schedule does *)

Section firing.
Context {clk : Clock} {JS : JsonSchema} {J : Jwt} {RT : Runtime} {lib : CronLib} {laws : CronLaws}
  (st : Settings).
Implicit Types (d : DB).

(** What became of the occurrence. *)
Definition fire_effect (schedule : Schedule) (late : bool) (d : DB) (r : FireResult) (d' : DB) : Prop :=
  match fr_outcome r with
  | fired => exists id rr, fr_run_id r = Some id /\ db_runs d !! id = None /\
      (forall i, i <> id -> db_runs d' !! i = db_runs d !! i) /\ db_runs d' !! id = Some rr /\
      run_state (rr_run rr) = QUEUED /\
      occurrence (rr_run rr) = Some (sch_id schedule, fr_scheduled_for r)
  | duplicate => exists id rr, fr_run_id r = Some id /\ db_runs d' = db_runs d /\
      db_runs d !! id = Some rr /\ occurrence (rr_run rr) = Some (sch_id schedule, fr_scheduled_for r)
  | misfire_skipped => fr_run_id r = None /\ db_runs d' = db_runs d /\ late = true /\
      sch_misfire_policy schedule = skip
  | installation_unavailable => fr_run_id r = None /\ db_runs d' = db_runs d /\
      usable (db_installations d !! sch_installation_id schedule) = None
  end.

Definition fire_post (schedule : Schedule) (now : instant) (grace : Z) (d : DB) (r : FireResult) (d' : DB)
    : Prop :=
  exists due_at next row, let late := is_late now due_at grace in
    sch_next_run_at schedule = Some due_at /\ fr_schedule_id r = sch_id schedule /\
    due_at <= fr_scheduled_for r /\ (due_at <= now -> fr_scheduled_for r <= now) /\
    (late = false -> fr_scheduled_for r = due_at) /\
    db_schedules d' = <[sch_id schedule := row]> (db_schedules d) /\
    sch_id row = sch_id schedule /\ sch_next_run_at row = Some next /\ fr_scheduled_for r < next /\
    (late = true -> now < next) /\
    fire_effect schedule late d r d'.

(** The occurrence that is fired and the next one. *)
Lemma chosen_occurrence schedule due_at now grace :
  let late := is_late now due_at grace in 0 <= grace ->
  forall d, wp (if late then
        lift (latest_occurrence_at_or_before (sch_cron schedule) (sch_timezone schedule) due_at now)
      else ret due_at)
    (fun s d' => d' = d /\ due_at <= s /\ (due_at <= now -> s <= now) /\ (late = false -> s = due_at)) d.
Proof.
  intros late Hg d. destruct late eqn:Hl.
  - apply wp_lift. intros s Hs. subst late. apply Z.ltb_lt in Hl. unfold seconds in Hl.
    apply latest_from_spec in Hs as [Hs _]; [|lia]. split_and!; try done; lia.
  - apply wp_ret. split_and!; try done; lia.
Qed.

Lemma alter_row (m : gmap uuid Schedule) sid s f :
  m !! sid = Some s -> alter f sid m = <[sid := f s]> m.
Proof. intros H. apply map_eq. intros i. rewrite lookup_alter, lookup_insert. case_decide; [subst; by rewrite H|done]. Qed.

Lemma create_run_schedules i v args d :
  wp (create_run i v args) (fun _ d' => db_schedules d' = db_schedules d) d.
Proof.
  unfold create_run.
  do 2 (wp_step; apply wp_item; intros ?). wp_step; apply wp_db_uuid7. wp_step; apply wp_db_utcnow.
  do 2 wp_step. apply wp_item; intros ?. apply wp_as_int; intros act.
  wp_step; apply wp_as_int; intros mw. cbv zeta. wp_step; apply wp_get.
  destruct (duplicate_of _ _); [by apply wp_ret|]. wp_step. apply wp_guard; intros _. wp_step.
  apply wp_modify. wp_step. unfold wp, with_run. destruct (_ !! _); [|done].
  by match goal with |- context [match ?m ?x with _ => _ end] => destruct (m x) as [[]|] end.
Qed.

Lemma create_scheduled i v sid t d :
  platform_inv d ->
  wp (create_run i v (mkNewRun "schedule" None (Some sid) (Some t) None None None))
    (fun res d' => db_schedules d' = db_schedules d /\
      created_run i (mkNewRun "schedule" None (Some sid) (Some t) None None None) d res d') d.
Proof.
  intros P. eapply wp_mono; [apply wp_and; [apply create_run_schedules|by apply create_run_spec]|].
  intros res d' (H & _ & C & _). done.
Qed.

Lemma fire_spec schedule now grace d :
  platform_inv d -> 0 <= grace -> db_schedules d !! sch_id schedule = Some schedule ->
  wp (fire schedule now grace) (fire_post schedule now grace d) d.
Proof.
  intros P Hg Hs. unfold fire, record_audit, set_schedule.
  destruct (sch_next_run_at schedule) as [due_at|] eqn:Hdue; [|done]. wp_step.
  eapply wp_mono; [by apply chosen_occurrence|]. intros t ? (-> & Ht1 & Ht2 & Ht3).
  wp_step. apply wp_lift; intros next Hn%next_occurrence_later. wp_step. apply wp_modify.
  assert (Hnext : t < next /\ (is_late now due_at grace = true -> now < next)).
  { destruct (is_late now due_at grace) eqn:Hl; [|done]. split; [|done].
    apply Z.ltb_lt in Hl. unfold seconds in Hl. lia. }
  destruct Hnext as [Hn1 Hn2].
  set (d1 := d <| db_schedules ::= _ |>).
  assert (P1 : platform_inv d1) by (eapply platform_inv_same; [..|exact P]; try done; simpl; lia).
  assert (Hrow : db_schedules d1 = <[sch_id schedule := schedule <| sch_next_run_at := Some next |>]> (db_schedules d))
    by by apply alter_row.
  assert (HP : forall d' row r, db_schedules d' = <[sch_id schedule := row]> (db_schedules d) ->
    sch_id row = sch_id schedule -> sch_next_run_at row = Some next -> fr_schedule_id r = sch_id schedule ->
    fr_scheduled_for r = t -> fire_effect schedule (is_late now due_at grace) d r d' ->
    fire_post schedule now grace d r d').
  { intros d' row r HR H1 H2 H3 H4 H5. exists due_at, next, row. rewrite H4. by split_and!. }
  apply wp_if; intros Hmis.
  { apply andb_true_iff in Hmis as [Hl Hp%bool_decide_eq_true]. wp_step. apply wp_modify. apply wp_ret.
    eapply HP; [exact Hrow|done..|]. by split_and!. }
  wp_step. apply wp_gets. destruct (usable _) as [i|] eqn:Hu.
  2:{ wp_step. apply wp_modify. apply wp_ret. eapply HP; [exact Hrow|done..|]. by split_and!. }
  wp_step. apply wp_gets. destruct (db_versions _ !! _) as [v|]; [|done]. wp_step.
  eapply wp_mono; [by apply create_scheduled|]. intros [id created] d2 [HS HC].
  wp_step. apply wp_modify. wp_step.
  match goal with |- wp _ _ ?x => set (d3 := x) end.
  assert (H3 : exists row, db_schedules d3 = <[sch_id schedule := row]> (db_schedules d) /\
    sch_id row = sch_id schedule /\ sch_next_run_at row = Some next).
  { set (f := fun s : Schedule => s <| sch_last_fired_at := Some now |> <| sch_last_run_id := Some id |>).
    exists (f (schedule <| sch_next_run_at := Some next |>)). split_and!; [|done|done].
    change (db_schedules d3) with (alter f (sch_id schedule) (db_schedules d2)). rewrite HS, Hrow.
    rewrite (alter_row _ _ (schedule <| sch_next_run_at := Some next |>)) by apply lookup_insert_eq.
    by rewrite insert_insert_eq. }
  destruct H3 as (row & HR & Hid & Hnx).
  assert (HE : forall d', db_runs d' = db_runs d3 -> db_schedules d' = db_schedules d3 ->
    fire_post schedule now grace d (mkFireResult (sch_id schedule) t (Some id) (if created then fired else duplicate)) d').
  { intros d' HRd HSd. apply (HP _ row); [by rewrite HSd|done..|]. unfold fire_effect, created_run in *.
    destruct created; simpl.
    - destruct HC as (C1 & C2 & rr & C3 & C4 & _ & _ & _ & _ & C5 & _). exists id, rr. rewrite HRd.
      split_and!; try done. apply C4.
    - destruct HC as (C1 & _ & rr & C2 & _ & C3). exists id, rr. rewrite HRd. by split_and!. }
  apply wp_when; intros _; [apply wp_modify|]; apply wp_ret; by apply HE.
Qed.

End firing.

(** ** The tick over all due schedules *)

Lemma insert_by_perm {A} (key : A -> Z) x l : insert_by key x l ≡ₚ x :: l.
Proof. induction l as [|y l IH]; simpl; [done|]. destruct (_ <=? _); [done|]. rewrite IH. constructor. Qed.
Lemma order_by_perm {A} (key : A -> Z) l : order_by key l ≡ₚ l.
Proof.
  unfold order_by. induction l as [|x l IH]; simpl; [done|]. rewrite insert_by_perm. by constructor.
Qed.

Lemma NoDup_map_filter {A B} (f : A -> B) (p : A -> bool) l :
  NoDup (map f l) -> NoDup (map f (List.filter p l)).
Proof.
  induction l as [|x l IH]; simpl; [done|]. intros [Hx Hl]%NoDup_cons. destruct (p x); simpl; [|by apply IH].
  apply NoDup_cons. split; [|by apply IH]. intros (y & Hy & Hin)%list_elem_of_fmap. apply Hx.
  apply list_elem_of_In, filter_In in Hin as [Hin _]. apply list_elem_of_fmap. exists y.
  split; [done|by apply list_elem_of_In].
Qed.

Lemma NoDup_map_take {A B} (f : A -> B) n l : NoDup (map f l) -> NoDup (map f (take n l)).
Proof. rewrite <- (take_drop n l) at 1. rewrite map_app. by intros [H _]%NoDup_app. Qed.

Section ticking.
Context {clk : Clock} {JS : JsonSchema} {J : Jwt} {RT : Runtime} {lib : CronLib} {laws : CronLaws}
  (st : Settings).
Implicit Types (d : DB).

(** Rows of the table are stored under their id. *)
Definition keyed_by_id (d : DB) : Prop :=
  forall sid s, db_schedules d !! sid = Some s -> sch_id s = sid.

Lemma due_elem locked now d s :
  keyed_by_id d -> s ∈ due locked now d ->
  db_schedules d !! sch_id s = Some s /\ is_due now s = true /\ locked (sch_id s) = false.
Proof.
  intros HK Hin. unfold due in Hin. apply list_elem_of_lookup in Hin as [i Hin].
  apply lookup_take_Some in Hin as [Hin _]. apply list_elem_of_lookup_2 in Hin.
  rewrite order_by_perm in Hin. apply list_elem_of_In, filter_In in Hin as [Hin Hp].
  apply list_elem_of_In, list_elem_of_fmap in Hin as ([sid s'] & -> & Hin).
  apply elem_of_map_to_list in Hin. simpl in *. rewrite (HK _ _ Hin). reflect_all.
  by rewrite (HK _ _ Hin) in *.
Qed.

Lemma due_nodup locked now d : keyed_by_id d -> NoDup (map sch_id (due locked now d)).
Proof.
  intros HK. unfold due. apply NoDup_map_take. rewrite order_by_perm. apply NoDup_map_filter.
  assert (E : map sch_id (map snd (map_to_list (db_schedules d))) = map fst (map_to_list (db_schedules d))).
  { rewrite map_map. apply map_ext_in. intros [sid s] Hin%list_elem_of_In%elem_of_map_to_list. by apply HK. }
  rewrite E. apply NoDup_fst_map_to_list.
Qed.

(** Firing keeps the invariant of the platform. *)
Lemma fire_keeps schedule now grace d :
  platform_inv d -> wp (fire schedule now grace) (fun _ => platform_inv) d.
Proof.
  intros P. eapply wp_mono; [by apply (fire_reaches st false ∅ _ _ _ d); constructor|].
  intros r d' Hr. apply (steps_sound st) in Hr as [[P' _] _]; [done|]. split; [done|].
  intros loop a Ha. done.
Qed.

(** The row before and after a tick in which it was fired. *)
Definition advanced (s s' : Schedule) : Prop :=
  exists t t', sch_next_run_at s = Some t /\ sch_next_run_at s' = Some t' /\ t < t'.

Lemma fire_all_spec ss now grace d :
  platform_inv d -> 0 <= grace -> NoDup (map sch_id ss) ->
  (forall s, s ∈ ss -> db_schedules d !! sch_id s = Some s) ->
  wp (fire_all ss now grace) (fun rs d' => map fr_schedule_id rs = map sch_id ss /\
    (forall sid, sid ∉ map sch_id ss -> db_schedules d' !! sid = db_schedules d !! sid) /\
    (forall s, s ∈ ss -> exists s', db_schedules d' !! sch_id s = Some s' /\ advanced s s')) d.
Proof.
  intros P Hg. revert d P. induction ss as [|s ss IH]; intros d P Hnd Hin; cbn [fire_all].
  { apply wp_ret. split_and!; [done|done|]. intros s Hs. by apply elem_of_nil in Hs. }
  simpl in Hnd. apply NoDup_cons in Hnd as [Hs Hnd].
  wp_step. eapply wp_mono; [apply wp_and; [by apply fire_keeps|apply fire_spec; [done|done|]]|].
  { apply Hin. by left. }
  intros r d1 (P1 & due_at & next & row & D1 & D2 & D3 & _ & _ & D4 & _ & D5 & D6 & _).
  wp_step. eapply wp_mono; [apply IH; [done|done|]|].
  { intros s0 Hs0. rewrite D4, lookup_insert_ne; [apply Hin; by right|]. intros E. apply Hs. rewrite E.
    apply list_elem_of_fmap. by exists s0. }
  intros rs d2 (M & Hout & Hadv). apply wp_ret. simpl. split_and!; [by rewrite D2, M| |].
  - intros sid [Hn1 Hn2]%not_elem_of_cons. rewrite Hout by done. rewrite D4. by apply lookup_insert_ne.
  - intros s0 [->|Hs0]%elem_of_cons; [|by apply Hadv]. exists row. split.
    + rewrite Hout by done. rewrite D4. apply lookup_insert_eq.
    + exists due_at, next. split_and!; [done|done|lia].
Qed.

(** A tick fires each due schedule once: the results name exactly the selected
    schedules (enabled, not deleted, due, not locked by another tick), each of them ends
    with a strictly later next run, and every other schedule is untouched. *)
Theorem tick_fires_each locked now grace w rs d' :
  reachable st w -> keyed_by_id (w_db w) -> 0 <= grace ->
  tick locked now grace (w_db w) = Ok (rs, d') ->
  map fr_schedule_id rs = map sch_id (due locked now (w_db w)) /\ NoDup (map fr_schedule_id rs) /\
  forall sid s, db_schedules (w_db w) !! sid = Some s ->
    exists s', db_schedules d' !! sid = Some s' /\
      if bool_decide (sid ∈ map fr_schedule_id rs)
      then is_due now s = true /\ locked sid = false /\ advanced s s' else s' = s.
Proof.
  intros P%reachable_platform HK Hg Ht. unfold tick, bind, gets in Ht.
  pose proof (due_nodup locked now (w_db w) HK) as Hnd.
  assert (Hd : forall s, s ∈ due locked now (w_db w) -> db_schedules (w_db w) !! sch_id s = Some s)
    by (intros s Hs; by apply (due_elem locked now)).
  pose proof (wp_run _ _ _ _ _ (fire_all_spec _ now grace _ P Hg Hnd Hd) Ht) as (M & Hout & Hadv).
  rewrite M. split_and!; [done|done|]. intros sid s Hs. case_bool_decide as Hin.
  - apply list_elem_of_fmap in Hin as (s0 & -> & Hin).
    assert (s0 = s) as -> by (apply Hd in Hin; congruence).
    destruct (due_elem locked now _ s HK Hin) as (_ & H1 & H2). destruct (Hadv s Hin) as (s' & Hs' & A).
    by exists s'.
  - exists s. by rewrite Hout.
Qed.
End ticking.
