(* ===== verification/Idempotency.v ===== *)
(** * HTTP idempotency ([control_api/idempotency.py])

    A mutating request that carries an [Idempotency-Key] stores its response in the same
    transaction as its effect.  [mutate] is the shape every such route has: [begin], return
    the stored response if there is one, otherwise the effect and [finish].  The effect is
    any transaction on the platform database; a request that raises commits nothing. *)

From S2P Require Import Prelude Json Redaction JsonText SchemaGuard States Jobs RunModel RunService RunInv RunOps.
From S2P Require Import Platform.
#[local] Open Scope Z_scope.

Record IdempotencyRecord := mkRecord {
  ir_user_id : uuid;
  ir_key : string;
  ir_method : string;
  ir_path : string;
  ir_request_hash : string;
  ir_status_code : option Z;
  ir_response_body : option Json
}.

#[export] Instance eta_Record : Eta IdempotencyRecord := fun r =>
  mkRecord (ir_user_id r) (ir_key r) (ir_method r) (ir_path r) (ir_request_hash r) (ir_status_code r)
    (ir_response_body r).

(** The database with the table of records (unique on user and key). *)
Record Web := mkWeb {
  web_db : DB;
  web_records : gmap (uuid * string) IdempotencyRecord
}.

#[export] Instance eta_Web : Eta Web := fun r => mkWeb (web_db r) (web_records r).

Abbreviation WM := (Tx PlatformError Web).

Definition on_db {A} (m : PM A) : WM A := fun w =>
  match m (web_db w) with
  | Ok (a, d) => Ok (a, w <| web_db := d |>)
  | Err e => Err e
  end.

Record Response := mkResponse {
  rs_status : Z;
  rs_body : option Json;
  rs_key : string;           (* the Idempotency-Key header *)
  rs_replayed : bool         (* the Idempotent-Replayed header *)
}.

#[export] Instance eta_Response : Eta Response := fun r =>
  mkResponse (rs_status r) (rs_body r) (rs_key r) (rs_replayed r).

(** What the routes see of a request. *)
Record WebRequest := mkRequest {
  rq_user : uuid;
  rq_method : string;
  rq_path : string;
  rq_key : option string;
  rq_body : Json
}.

(** [record]: the row this request inserted; [replay]: the stored response. *)
Record Idempotency := mkIdempotency {
  id_key : string;
  id_record : option (uuid * string);
  id_replay : option Response
}.

Section idempotency.
Context {dig : Digest}.

Definition request_digest (r : WebRequest) : string :=
  sha256_hex (json_dumps ", " ": " true
    (JObj [("m", JStr (rq_method r)); ("p", JStr (rq_path r)); ("b", rq_body r)]%string)).

Definition replay_response (key : string) (status : Z) (body : option Json) : Response :=
  mkResponse status (if status =? 204 then None else Some (default JNull body)) key true.

Definition begin_request (r : WebRequest) : WM Idempotency :=
  match rq_key r with
  | None =>
      let! id := on_db db_uuid7 in
      ret (mkIdempotency (uuid_str id) None None)
  | Some key =>
      guard ((8 <=? String.length key)%nat && (String.length key <=? 200)%nat)
        (invalid "INVALID_IDEMPOTENCY_KEY" []) ;;
      let! w := get in
      match web_records w !! (rq_user r, key) with
      | None =>
          modify (fun w => w <| web_records ::= <[(rq_user r, key) :=
            mkRecord (rq_user r) key (rq_method r) (rq_path r) (request_digest r) None None]> |>) ;;
          ret (mkIdempotency key (Some (rq_user r, key)) None)
      | Some existing =>
          guard (String.eqb (ir_request_hash existing) (request_digest r))
            (conflict "IDEMPOTENCY_KEY_REUSED" []) ;;
          match ir_status_code existing with
          | None => raise (conflict "REQUEST_IN_PROGRESS" [])
          | Some status =>
              ret (mkIdempotency key (Some (rq_user r, key))
                     (Some (replay_response key status (ir_response_body existing))))
          end
      end
  end.

Definition finish_request (idem : Idempotency) (status : Z) (body : option Json) : WM Response :=
  let encoded := if status =? 204 then None else Some (default JNull body) in
  match id_record idem with
  | None => ret tt
  | Some k =>
      let! w := get in
      match web_records w !! k with
      | None => raise UNEXPECTED
      | Some _ => modify (fun w => w <| web_records ::=
          alter (fun x => x <| ir_status_code := Some status |> <| ir_response_body := encoded |>) k |>)
      end
  end ;;
  ret (mkResponse status encoded (id_key idem) false).

(** A mutating route around its effect, which answers with a status and a body. *)
Definition mutate (r : WebRequest) (effect : PM (Z * option Json)) : WM Response :=
  let! idem := begin_request r in
  match id_replay idem with
  | Some response => ret response
  | None =>
      let! answer := on_db effect in
      finish_request idem answer.1 answer.2
  end.

(** ** Histories of requests *)

(** A committed request, or a change of any other table. *)
Inductive web_step : Web -> Web -> Prop :=
| web_mutate w r effect response w' : mutate r effect w = Ok (response, w') -> web_step w w'
| web_other w w' : web_records w' = web_records w -> web_step w w'.

(** Every committed record holds a response. *)
Definition records_complete (w : Web) : Prop :=
  forall k rec, web_records w !! k = Some rec -> is_Some (ir_status_code rec).

(** What a request leaves behind: the effect ran on the database, its answer is the
    response, and with a key the answer is stored. *)
Lemma mutate_spec r effect w :
  wp (mutate r effect) (fun response w' =>
    match rq_key r with
    | None => web_records w' = web_records w
    | Some key =>
        (8 <= String.length key <= 200)%nat /\
        match web_records w !! (rq_user r, key) with
        | None => exists status body d, effect (web_db w) = Ok ((status, body), d) /\ web_db w' = d /\
            response = mkResponse status (if status =? 204 then None else Some (default JNull body)) key false /\
            web_records w' = <[(rq_user r, key) := mkRecord (rq_user r) key (rq_method r) (rq_path r)
              (request_digest r) (Some status) (if status =? 204 then None else Some (default JNull body))]> (web_records w)
        | Some rec => w' = w /\ ir_request_hash rec = request_digest r /\ exists status,
            ir_status_code rec = Some status /\ response = replay_response key status (ir_response_body rec)
        end
    end) w.
Proof.
  unfold mutate, begin_request, finish_request. destruct (rq_key r) as [key|]; wp_step.
  - wp_step. apply wp_guard; intros Hlen. apply andb_true_iff in Hlen as [H1%Nat.leb_le H2%Nat.leb_le]. wp_step. apply wp_get.
    destruct (web_records w !! (rq_user r, key)) as [rec|] eqn:Hrec.
    + wp_step. apply wp_guard; intros Hh%String.eqb_eq. destruct (ir_status_code rec) as [status|] eqn:Hs; [|done].
      apply wp_ret. simpl. apply wp_ret. split; [lia|]. split; [done|]. split; [done|]. by exists status.
    + wp_step. apply wp_modify. apply wp_ret. simpl. wp_step. unfold on_db at 1, wp at 1. simpl.
      destruct (effect (web_db w)) as [[[status body] d]|e] eqn:He; [|done]. wp_step. wp_step. apply wp_get.
      simpl. rewrite lookup_insert_eq. apply wp_modify. apply wp_ret. simpl. split; [lia|].
      exists status, body, d. split_and!; try done. by rewrite alter_insert_eq.
  - wp_step. unfold on_db at 1, wp at 1. simpl. apply wp_ret. simpl. wp_step. unfold on_db at 1, wp at 1. simpl.
    destruct (effect _) as [[[status body] d]|e] eqn:He; [|done]. wp_step. apply wp_ret. apply wp_ret. done.
Qed.

Lemma web_step_keeps w w' k rec :
  web_step w w' -> web_records w !! k = Some rec -> web_records w' !! k = Some rec.
Proof.
  intros Hs Hk. destruct Hs as [w r effect response w' Hm|w w' E]; [|by rewrite E].
  pose proof (wp_run _ _ _ _ _ (mutate_spec r effect _) Hm) as H. destruct (rq_key r) as [key|]; [|by rewrite H].
  destruct H as [_ H]. destruct (web_records w !! (rq_user r, key)) as [rec'|] eqn:Hr.
  - by destruct H as [-> _].
  - destruct H as (status & body & d & _ & _ & _ & ->). rewrite lookup_insert_ne; congruence.
Qed.

Lemma web_steps_keep w w' k rec :
  rtc web_step w w' -> web_records w !! k = Some rec -> web_records w' !! k = Some rec.
Proof. intros Hr. induction Hr; [done|]. intros Hk. by eapply IHHr, web_step_keeps. Qed.

Lemma web_step_complete w w' : web_step w w' -> records_complete w -> records_complete w'.
Proof.
  intros Hs HC. destruct Hs as [w r effect response w' Hm|w w' E]; [|intros k rec; rewrite E; apply HC].
  pose proof (wp_run _ _ _ _ _ (mutate_spec r effect _) Hm) as H. destruct (rq_key r) as [key|].
  - destruct H as [_ H]. destruct (web_records w !! (rq_user r, key)) as [rec'|].
    + by destruct H as [-> _].
    + destruct H as (status & body & d & _ & _ & _ & E). intros k rec. rewrite E.
      intros [[<- <-]|[_ Hk]]%lookup_insert_Some; [by eexists|by eapply HC].
  - intros k rec. rewrite H. apply HC.
Qed.

Lemma web_steps_complete w w' : rtc web_step w w' -> records_complete w -> records_complete w'.
Proof. intros Hr. induction Hr; [done|]. intros HC. by eapply IHHr, web_step_complete. Qed.

(** A keyed request takes effect once.  Once it has been answered, then after any history
    of other requests the same request is answered with the same status and body, marked
    as a replay, and changes nothing at all, whatever its effect would do now; and the key
    sent with another method, path or body is refused with IDEMPOTENCY_KEY_REUSED. *)
Theorem effect_once r effect key w response w' w'' effect' :
  rq_key r = Some key -> mutate r effect w = Ok (response, w') -> rtc web_step w' w'' ->
  mutate r effect' w'' = Ok (response <| rs_replayed := true |>, w'') /\
  forall r', rq_user r' = rq_user r -> rq_key r' = Some key -> request_digest r' <> request_digest r ->
    mutate r' effect' w'' = Err (conflict "IDEMPOTENCY_KEY_REUSED" []).
Proof.
  intros Hk Hm Hr. pose proof (wp_run _ _ _ _ _ (mutate_spec r effect _) Hm) as H. rewrite Hk in H.
  destruct H as [Hlen H].
  assert (Hstored : exists rec status, web_records w' !! (rq_user r, key) = Some rec /\
    ir_request_hash rec = request_digest r /\ ir_status_code rec = Some status /\
    response <| rs_replayed := true |> = replay_response key status (ir_response_body rec)).
  { destruct (web_records w !! (rq_user r, key)) as [rec|] eqn:Hrec.
    - destruct H as (-> & Hh & status & Hs & ->). exists rec, status. by rewrite Hrec.
    - destruct H as (status & body & d & _ & _ & -> & ->). eexists _, status. rewrite lookup_insert_eq.
      split_and!; try done. simpl. unfold replay_response. by destruct (status =? 204). }
  destruct Hstored as (rec & status & Hrec & Hh & Hs & Hresp). apply (web_steps_keep _ w'') in Hrec; [|done].
  assert (HL : (8 <=? String.length key)%nat && (String.length key <=? 200)%nat = true)
    by (apply andb_true_iff; split; apply Nat.leb_le; lia).
  split.
  - unfold mutate, begin_request, bind at 1. rewrite Hk, HL. unfold guard, bind, get, ret. rewrite Hrec, Hh, String.eqb_refl, Hs.
    simpl. by rewrite <- Hresp.
  - intros r' Hu Hk' Hd. unfold mutate, begin_request, bind at 1. rewrite Hk', HL. unfold guard, bind, get, ret. rewrite Hu, Hrec, Hh.
    by rewrite (proj2 (String.eqb_neq _ _) (not_eq_sym Hd)).
Qed.

(** No request is ever told that its original is still in progress: in every state that
    requests lead to from an empty table, each record holds a response, so a retried key is
    always replayed, refused as reused, or (after a rollback) executed. *)
Theorem never_in_progress w0 w r effect :
  web_records w0 = ∅ -> rtc web_step w0 w ->
  (forall d e, effect d = Err e -> err_code e <> "REQUEST_IN_PROGRESS"%string) ->
  forall e, mutate r effect w = Err e -> err_code e <> "REQUEST_IN_PROGRESS"%string.
Proof.
  intros H0 Hr He. apply web_steps_complete in Hr; [|intros k rec; rewrite H0, lookup_empty; done].
  unfold mutate, begin_request, finish_request. intros e.
  destruct (rq_key r) as [key|].
  - unfold bind, guard, get, modify, ret, raise. destruct (_ && _); [|by intros [= <-]].
    destruct (web_records w !! (rq_user r, key)) as [rec|] eqn:Hrec.
    + destruct (String.eqb _ _); [|by intros [= <-]]. destruct (Hr _ _ Hrec) as [status Hs]. by rewrite Hs.
    + simpl. unfold on_db. simpl. destruct (effect (web_db w)) as [[[status body] d]|e'] eqn:Hf; [|intros [= <-]; by eapply He].
      simpl. rewrite lookup_insert_eq. done.
  - unfold bind, on_db, ret, db_uuid7. simpl.
    destruct (effect _) as [[[status body] d]|e'] eqn:Hf; [done|intros [= <-]; by eapply He].
Qed.
End idempotency.
