(* ===== verification/ModelManager.v ===== *)
(** * Model residency ([model_gateway/manager.py])

    The gateway's tables (catalog, installations, instances, leases) with the jobs table,
    and every transaction of [ModelManager] on them.  A method that talks to the model
    runtime between two transactions is split there: the runtime's answers are arguments
    of the second part.  [acquire] and the methods that lock the instance row are one
    atomic step each; the advisory lock of [acquire] serialises admissions. *)

From S2P Require Import Prelude TimeUtil Json Redaction States Jobs RunModel Platform.
#[local] Open Scope Z_scope.

(** ** Rows ([models_gateway.py]) *)

Record ModelCatalogEntry := mkEntry {
  me_id : string;
  me_profile : Json;
  me_expected_memory_bytes : Z;
  me_capabilities : list string
}.

Inductive DownloadState := NOT_INSTALLED | DOWNLOADING | INSTALLED | DOWNLOAD_ERROR | DELETING.

#[export] Instance DownloadState_eq_dec : EqDecision DownloadState.
Proof. solve_decision. Defined.

Definition parse_download_state (s : string) : option DownloadState :=
  match List.find (fun kv => String.eqb kv.1 s)
          [("NOT_INSTALLED", NOT_INSTALLED); ("DOWNLOADING", DOWNLOADING); ("INSTALLED", INSTALLED);
           ("DOWNLOAD_ERROR", DOWNLOAD_ERROR); ("DELETING", DELETING)]%string with
  | Some kv => Some kv.2
  | None => None
  end.

(** The columns that mirror the daemon's answer are kept as the JSON values it sends. *)
Record ModelInstallation := mkModelInstallation {
  mi_state : DownloadState;
  mi_revision : option Json;
  mi_disk_path : option Json;
  mi_bytes_done : Z;
  mi_bytes_total : option Json;
  mi_current_file : option Json;
  mi_checksum : option Json;
  mi_error : option Json;
  mi_license_accepted_at : option instant;
  mi_last_verified_at : option instant
}.

Inductive InstanceState := NOT_LOADED | LOADING | READY | DRAINING | LOAD_ERROR | RUNTIME_ERROR.

#[export] Instance InstanceState_eq_dec : EqDecision InstanceState.
Proof. solve_decision. Defined.

Inductive DrainReason := drain_idle | drain_manual | drain_stopping.

#[export] Instance DrainReason_eq_dec : EqDecision DrainReason.
Proof. solve_decision. Defined.

Record ModelInstance := mkInstance {
  in_state : InstanceState;
  in_stage : option string;
  in_drain_reason : option DrainReason;
  in_endpoint : option Json;
  in_reserved_bytes : Z;
  in_observed : option Json;
  in_error : option Json;
  in_load_started_at : option instant;
  in_ready_at : option instant;
  in_idle_since : option instant;
  in_version : Z
}.

#[export] Instance eta_ModelInstance : Eta ModelInstance := fun r =>
  mkInstance (in_state r) (in_stage r) (in_drain_reason r) (in_endpoint r) (in_reserved_bytes r)
    (in_observed r) (in_error r) (in_load_started_at r) (in_ready_at r) (in_idle_since r) (in_version r).

Record ModelLease := mkLease {
  ml_id : uuid;
  ml_model_id : string;
  ml_holder_type : string;
  ml_holder_id : string;
  ml_holder_label : string;
  ml_expires_at : instant;
  ml_released_at : option instant;
  ml_release_reason : option string
}.

#[export] Instance eta_ModelLease : Eta ModelLease := fun r =>
  mkLease (ml_id r) (ml_model_id r) (ml_holder_type r) (ml_holder_id r) (ml_holder_label r)
    (ml_expires_at r) (ml_released_at r) (ml_release_reason r).

Record Gateway := mkGateway {
  gw_entries : gmap string ModelCatalogEntry;
  gw_installations : gmap string ModelInstallation;
  gw_instances : gmap string ModelInstance;
  gw_leases : list ModelLease;
  gw_jobs : JobQueue;
  gw_audit : list AuditEvent;
  gw_tick : nat;
  gw_fresh : uuid;
  gw_now : instant
}.

#[export] Instance eta_Gateway : Eta Gateway := fun r =>
  mkGateway (gw_entries r) (gw_installations r) (gw_instances r) (gw_leases r) (gw_jobs r)
    (gw_audit r) (gw_tick r) (gw_fresh r) (gw_now r).

(** [GatewaySettings]: the fields this module reads. *)
Record GatewaySettings := mkGatewaySettings {
  system_reserve_bytes : Z;
  max_serving_bytes : Z;
  load_safety_margin_bytes : Z;
  one_generative_model : bool;
  idle_unload_seconds : Z;
  load_grace : Z;    (* max(30.0, load_poll_seconds * 10), in microseconds *)
  manual_lease_ttl_seconds : Z
}.

Abbreviation GM := (Tx PlatformError Gateway).

Definition JOB_LOAD : string := "model.load".
Definition JOB_UNLOAD : string := "model.unload".
Definition resident (i : ModelInstance) : bool :=
  match in_state i with LOADING | READY | DRAINING => true | _ => false end.

Definition is_generative (capabilities : list string) : bool := existsb (String.eqb "chat") capabilities.

Definition lease_active (l : ModelLease) : bool := negb (bool_decide (is_Some (ml_released_at l))).

(** An active lease of the model. *)
Definition active_on (model_id : string) (l : ModelLease) : bool :=
  String.eqb (ml_model_id l) model_id && lease_active l.

Definition active_leases (model_id : string) (g : Gateway) : nat :=
  length (List.filter (active_on model_id) (gw_leases g)).
Definition leased (model_id : string) (g : Gateway) : bool := existsb (active_on model_id) (gw_leases g).

Definition total {A} (f : A -> Z) (l : list A) : Z := foldr (fun x acc => f x + acc) 0 l.

Section manager.
Context {clk : Clock} (s : GatewaySettings).

(** ** Plumbing *)

Definition gw_utcnow : GM instant := fun g => Ok (wall (gw_tick g), g <| gw_tick ::= Datatypes.S |>).

Definition set_instance (model_id : string) (f : ModelInstance -> ModelInstance) : GM unit :=
  modify (fun g => g <| gw_instances ::= alter f model_id |>).

Definition enqueue_model_job (typ model_id : string) (key : DedupeKey) (max_attempts : Z) : GM unit :=
  let! utc := gw_utcnow in
  modify (fun g => g <| gw_jobs ::= fun q =>
    (Jobs.enqueue (gw_now g) utc typ (model_payload model_id) (Some key) None max_attempts q).2 |>).

Definition gw_record (action model_id outcome : string) (metadata : Json) : GM unit :=
  modify (fun g => g <| gw_audit ::= fun l => l ++
    [mkAudit "system" None action (Some "model"%string) (Some model_id) outcome
       (redact (if truthy metadata then metadata else JObj []))] |>).

(** [_rows]: the three rows of a model; the assertion fails when one is missing. *)
Definition rows (model_id : string) : GM (ModelCatalogEntry * ModelInstallation * ModelInstance) :=
  let! g := get in
  match gw_entries g !! model_id with
  | None => raise (not_found model_id)
  | Some e =>
      match gw_installations g !! model_id, gw_instances g !! model_id with
      | Some i, Some n => ret (e, i, n)
      | _, _ => raise UNEXPECTED
      end
  end.

(** ** Admission *)

(** The rows of the query in [_admit]: other resident models and their capabilities. *)
Definition others (model_id : string) (g : Gateway) : list (string * ModelInstance * list string) :=
  omap (fun kv : string * ModelInstance =>
    if resident kv.2 && negb (String.eqb kv.1 model_id) then
      (fun e => (kv.1, kv.2, me_capabilities e)) <$> gw_entries g !! kv.1
    else None) (map_to_list (gw_instances g)).

Definition capacity_exceeded (details : list (string * Json)) : PlatformError :=
  mkError "MODEL_CAPACITY_EXCEEDED" 409 details.

(** [available] is the free memory the runtime reports. *)
Definition _admit (entry : ModelCatalogEntry) (available : Z) : GM unit :=
  let! rows := gets (others (me_id entry)) in
  let peak := me_expected_memory_bytes entry in
  let loaded := map (fun r => r.1.1) (List.filter (fun r => is_generative r.2) rows) in
  guard (negb (one_generative_model s && is_generative (me_capabilities entry)
               && negb (bool_decide (loaded = []))))
    (capacity_exceeded [("loadedModels", JList (map JStr loaded));
                        ("policy", JStr "one_generative_model")]%string) ;;
  let reserved := total (fun r => in_reserved_bytes r.1.2) rows in
  guard (negb (max_serving_bytes s <? reserved + peak + load_safety_margin_bytes s))
    (capacity_exceeded [("reservedBytes", JNum reserved); ("requiredBytes", JNum peak);
                        ("maxServingBytes", JNum (max_serving_bytes s))]%string) ;;
  guard (negb (available - system_reserve_bytes s <? peak + load_safety_margin_bytes s))
    (capacity_exceeded [("availableBytes", JNum available); ("requiredBytes", JNum peak);
                        ("systemReserveBytes", JNum (system_reserve_bytes s))]%string).

(** ** Leases *)

Definition held_by (model_id holder_type holder_id : string) (l : ModelLease) : bool :=
  active_on model_id l && String.eqb (ml_holder_type l) holder_type && String.eqb (ml_holder_id l) holder_id.

(** [INSERT ... ON CONFLICT (model_id, holder_type, holder_id) WHERE released_at IS NULL DO UPDATE]. *)
Definition upsert_lease (model_id holder_type holder_id label : string) (expires : instant) : GM uuid :=
  let! leases := gets gw_leases in
  match List.find (held_by model_id holder_type holder_id) leases with
  | Some l =>
      modify (fun g => g <| gw_leases ::= map (fun x =>
        if held_by model_id holder_type holder_id x
        then x <| ml_expires_at := expires |> <| ml_holder_label := label |> else x) |>) ;;
      ret (ml_id l)
  | None =>
      let! id := gets gw_fresh in
      modify (fun g => g <| gw_fresh ::= N.succ |> <| gw_leases ::= fun l => l ++
        [mkLease id model_id holder_type holder_id label expires None None] |>) ;;
      ret id
  end.

(** [available]: the runtime's answer, asked for only when the model must be loaded. *)
Definition acquire (model_id holder_type holder_id label : string) (ttl_seconds : Z) (manual : bool)
    (available : Z) : GM uuid :=
  let! '(entry, installation, instance) := rows model_id in
  guard (bool_decide (mi_state installation = INSTALLED)) (conflict "MODEL_NOT_INSTALLED" []) ;;
  guard (negb (bool_decide (in_state instance = DRAINING)
               && bool_decide (in_drain_reason instance = Some drain_manual)))
    (conflict "MODEL_UNLOADING" []) ;;
  let! now := gw_utcnow in
  let! lease_id := upsert_lease model_id holder_type holder_id label (now + seconds ttl_seconds) in
  (match in_state instance with
   | NOT_LOADED | LOAD_ERROR | RUNTIME_ERROR =>
       _admit entry available ;;
       set_instance model_id (fun i =>
         i <| in_state := LOADING |> <| in_stage := Some "Queued"%string |> <| in_error := None |>
           <| in_reserved_bytes := me_expected_memory_bytes entry |>
           <| in_load_started_at := Some now |> <| in_ready_at := None |> <| in_version ::= Z.succ |>) ;;
       enqueue_model_job JOB_LOAD model_id (KModelLoad model_id) 1 ;;
       gw_record "model.load" model_id "success"
         (JObj [("holderType", JStr holder_type); ("holder", JStr label); ("manual", JBool manual)]%string)
   | DRAINING =>
       when (bool_decide (in_drain_reason instance = Some drain_idle))
         (set_instance model_id (fun i =>
            i <| in_state := READY |> <| in_drain_reason := None |> <| in_stage := None |>))
   | _ => ret tt
   end) ;;
  set_instance model_id (fun i => i <| in_idle_since := None |>) ;;
  ret lease_id.

(** [lease.released_at = utcnow()] for each matching row, one clock reading each. *)
Fixpoint release_rows (p : ModelLease -> bool) (reason : string) (tick : nat) (ls : list ModelLease)
    : list ModelLease * nat :=
  match ls with
  | [] => ([], tick)
  | l :: ls' =>
      if p l then
        let '(rest, t) := release_rows p reason (Datatypes.S tick) ls' in
        (l <| ml_released_at := Some (wall tick) |> <| ml_release_reason := Some reason |> :: rest, t)
      else let '(rest, t) := release_rows p reason tick ls' in (l :: rest, t)
  end.

(** Releases the matching active leases and returns them as they were selected. *)
Definition release_where (p : ModelLease -> bool) (reason : string) : GM (list ModelLease) := fun g =>
  let q l := lease_active l && p l in
  let '(leases, t) := release_rows q reason (gw_tick g) (gw_leases g) in
  Ok (List.filter q (gw_leases g), g <| gw_leases := leases |> <| gw_tick := t |>).

Definition mark_idle_if_unused (model_id : string) : GM unit :=
  let! active := gets (leased model_id) in
  when (negb active)
    (let! now := gw_utcnow in
     set_instance model_id (fun i =>
       if bool_decide (in_state i = READY) && negb (bool_decide (is_Some (in_idle_since i)))
       then i <| in_idle_since := Some now |> else i)).

Definition release (lease_id : uuid) (reason : string) : GM unit :=
  let! leases := release_where (fun l => (ml_id l =? lease_id)%N) reason in
  for_each leases (fun l => mark_idle_if_unused (ml_model_id l)).

Definition release_holder (holder_type holder_id reason : string) : GM Z :=
  let! leases := release_where (fun l => String.eqb (ml_holder_type l) holder_type
                                         && String.eqb (ml_holder_id l) holder_id) reason in
  for_each (remove_dups (map ml_model_id leases)) mark_idle_if_unused ;;
  ret (Z.of_nat (length leases)).

(** [manual_load]: the lease of a manual load is given back at once (two transactions). *)
Definition manual_load (model_id actor : string) (available : Z) : GM unit :=
  acquire model_id "manual" actor "Manual load" (manual_lease_ttl_seconds s) true available ;;
  release_holder "manual" actor "manual_load_started" ;;
  ret tt.

(** ** Unloading *)

(** [true]: a drain was started; [false]: the model was not resident. *)
Definition unload (model_id : string) (force : bool) : GM bool :=
  let! '(_, _, instance) := rows model_id in
  if negb (resident instance) then ret false
  else
    let! leases := gets (fun g => List.filter (active_on model_id) (gw_leases g)) in
    guard (negb (negb (bool_decide (length leases = 0%nat)) && negb force))
      (mkError "MODEL_IN_USE" 409 [("holders", JList (map (fun l => JStr (ml_holder_label l)) leases))]%string) ;;
    release_where (fun l => String.eqb (ml_model_id l) model_id) "forced_unload" ;;
    set_instance model_id (fun i =>
      i <| in_state := DRAINING |> <| in_drain_reason := Some drain_manual |>
        <| in_stage := Some "Draining"%string |> <| in_version ::= Z.succ |>) ;;
    enqueue_model_job JOB_UNLOAD model_id (KModelUnload model_id) 3 ;;
    ret true.

(** ** Serving endpoints *)

Record Endpoint := mkEndpoint {
  ep_model_id : string;
  ep_base_url : option (option Json * Json);   (* host and port; [None]: the in-process mock *)
  ep_served_model : Json
}.

(** [addressing_ip]: the setting [model_addressing == "ip"].  A missing entry of the dict
    is a [KeyError]. *)
Definition endpoint (addressing_ip : bool) (model_id : string) (e : Json) : Result PlatformError Endpoint :=
  if otruthy (jget "inprocess" e) then
    Ok (mkEndpoint model_id None (default (JStr model_id) (jget "servedModelName" e)))
  else match jget "port" e, jget "servedModelName" e with
       | Some port, Some served =>
           Ok (mkEndpoint model_id (Some (jget (if addressing_ip then "ip" else "name") e, port)) served)
       | _, _ => Err UNEXPECTED
       end.

(** The answer of the health URL: status and the ids of the served models; [None] when the
    request fails. *)
Abbreviation Probe := (option (Z * list string)) (only parsing).

Definition healthy (model_id : string) (e : Json) (probe : Probe) : Result PlatformError bool :=
  if negb (truthy e) then Ok false
  else if otruthy (jget "inprocess" e) then Ok true
  else match endpoint false model_id e with
       | Err x => Err x
       | Ok target =>
           match probe with
           | Some (status, ids) =>
               Ok ((status =? 200) && match ep_served_model target with
                                      | JStr m => existsb (String.eqb m) ids
                                      | _ => false
                                      end)
           | None => Ok false
           end
       end.

(** What [wait_ready] concludes from an instance row; [None]: poll again. *)
Definition ready_verdict (addressing_ip : bool) (model_id : string) (i : ModelInstance)
    : option (Result PlatformError Endpoint) :=
  match in_state i with
  | READY => match in_endpoint i with
             | Some e => if truthy e then Some (endpoint addressing_ip model_id e) else None
             | None => None
             end
  | LOAD_ERROR | RUNTIME_ERROR =>
      Some (Err (mkError "MODEL_LOAD_FAILED" 503 [("error", default JNull (in_error i))]%string))
  | NOT_LOADED => Some (Err (mkError "MODEL_UNAVAILABLE" 503 []))
  | DRAINING => if bool_decide (in_drain_reason i = Some drain_manual)
                then Some (Err (mkError "MODEL_UNAVAILABLE" 503 [])) else None
  | LOADING => None
  end.

(** The polling loop over the rows read, each with whether the deadline had passed;
    [None] while it is still polling. *)
Fixpoint wait_ready (addressing_ip : bool) (model_id : string) (polls : list (ModelInstance * bool))
    : option (Result PlatformError Endpoint) :=
  match polls with
  | [] => None
  | (i, late) :: rest =>
      match ready_verdict addressing_ip model_id i with
      | Some v => Some v
      | None => if (late : bool) then Some (Err (mkError "MODEL_LOAD_TIMEOUT" 504 []))
                else wait_ready addressing_ip model_id rest
      end
  end.

(** ** Loading *)

Record LoadFailure := mkLoadFailure { lf_code : string; lf_message : string; lf_details : list (string * Json) }.

(** One look at the container while it starts: its description, the health probe, and
    whether the startup deadline has passed. *)
Record Poll := mkPoll { po_container : Json; po_probe : option (Z * list string); po_late : bool }.

Definition or_empty (o : option Json) : Json :=
  match o with Some v => if truthy v then v else JObj [] | None => JObj [] end.

Definition container_gone (c : Json) : bool :=
  match jget "state" c with
  | Some (JStr x) => String.eqb x "exited" || String.eqb x "dead" || String.eqb x "absent"
  | _ => false
  end.

Definition exit_details (c : Json) : list (string * Json) :=
  [("exitCode", default JNull (jget "exitCode" c)); ("oomKilled", default JNull (jget "oomKilled" c))]%string.

(** What one look decides: [None] to look again with the endpoint known so far. *)
Definition poll_verdict (model_id : string) (known : Json) (p : Poll) : option (Result LoadFailure Json) * Json :=
  let c := po_container p in
  if container_gone c then
    (Some (Err (mkLoadFailure "MODEL_START_FAILED" "The model server exited during startup." (exit_details c))), known)
  else
    let known := match jget "endpoint" c with Some e => if truthy e then e else known | None => known end in
    match healthy model_id known (po_probe p) with
    | Err _ => (Some (Err (mkLoadFailure "MODEL_START_FAILED" "KeyError" [])), known)
    | Ok true => (Some (Ok known), known)
    | Ok false =>
        if po_late p then
          (Some (Err (mkLoadFailure "MODEL_LOAD_TIMEOUT" "The model server did not become healthy." [])), known)
        else (None, known)
    end.

Definition set_stage (model_id stage : string) : GM unit :=
  set_instance model_id (fun i => i <| in_stage := Some stage |>).

(** The transaction of [_fail_load] (the runtime has been told to stop the container). *)
Definition fail_load (model_id : string) (f : LoadFailure) : GM unit :=
  let! '(_, _, instance) := rows model_id in
  when (bool_decide (in_state instance = LOADING))
    (set_instance model_id (fun i =>
       i <| in_state := LOAD_ERROR |> <| in_stage := None |>
         <| in_error := Some (JObj ([("code", JStr (lf_code f)); ("message", JStr (lf_message f))]%string ++ lf_details f)) |>
         <| in_reserved_bytes := 0 |> <| in_endpoint := None |> <| in_version ::= Z.succ |>) ;;
     gw_record "model.load_failed" model_id "failure" (JObj [("code", JStr (lf_code f))]%string)).

(** The last transaction of [handle_load]. *)
Definition load_done (model_id : string) (e : Json) : GM unit :=
  let! '(_, _, instance) := rows model_id in
  when (bool_decide (in_state instance = LOADING))
    (let! active := gets (leased model_id) in
     let! ready := gw_utcnow in
     let! idle := (if (active : bool) then ret None else let! t := gw_utcnow in ret (Some t)) in
     set_instance model_id (fun i =>
       i <| in_state := READY |> <| in_stage := None |> <| in_endpoint := Some e |>
         <| in_ready_at := Some ready |> <| in_idle_since := idle |> <| in_version ::= Z.succ |>)).

(** The polling loop and what follows it; it has no effect but the stage while it polls. *)
Fixpoint load_polls (model_id : string) (known : Json) (polls : list Poll) : GM unit :=
  match polls with
  | [] => ret tt
  | p :: rest =>
      match poll_verdict model_id known p with
      | (Some (Ok e), _) => load_done model_id e
      | (Some (Err f), _) => fail_load model_id f
      | (None, known) => set_stage model_id "Health check" ;; load_polls model_id known rest
      end
  end.

(** [prepared] and [started] are the answers of [runtime.prepare] and [runtime.start];
    [polls] are the looks taken so far (when they run out the handler is still polling). *)
Definition handle_load (model_id : string) (prepared started : Result LoadFailure Json)
    (polls : list Poll) : GM unit :=
  let! '(_, _, instance) := rows model_id in
  when (bool_decide (in_state instance = LOADING))
    (set_stage model_id "Pulling image" ;;
     match prepared with
     | Err f => fail_load model_id f
     | Ok _ =>
         set_stage model_id "Starting container" ;;
         match started with
         | Err f => fail_load model_id f
         | Ok state =>
             set_stage model_id "Loading weights" ;;
             load_polls model_id (or_empty (jget "endpoint" (or_empty (jget "container" state)))) polls
         end
     end).

(** ** Unloading, continued *)

(** First transaction of [handle_unload]: [None] when there is nothing to do, otherwise
    whether the drain is manual. *)
Definition unload_begin (model_id : string) : GM (option bool) :=
  let! '(_, _, instance) := rows model_id in
  if negb (bool_decide (in_state instance = DRAINING)) then ret None
  else
    let! active := gets (leased model_id) in
    if bool_decide (in_drain_reason instance = Some drain_idle) && active then
      set_instance model_id (fun i =>
        i <| in_state := READY |> <| in_drain_reason := None |> <| in_stage := None |>) ;;
      ret None
    else
      let manual := bool_decide (in_drain_reason instance = Some drain_manual) in
      when (negb manual)
        (set_instance model_id (fun i =>
           i <| in_drain_reason := Some drain_stopping |> <| in_stage := Some "Stopping"%string |>)) ;;
      ret (Some manual).

(** Last transaction: [report] is the answer of [runtime.stop]. *)
Definition unload_finish (model_id : string) (report : Json) : GM unit :=
  let removed := otruthy (jget "containerRemoved" report) in
  let! '(entry, _, instance) := rows model_id in
  when (bool_decide (in_state instance = DRAINING))
    (let! active := gets (leased model_id) in
     set_instance model_id (fun i =>
       i <| in_drain_reason := None |> <| in_endpoint := None |> <| in_idle_since := None |>
         <| in_observed := Some report |> <| in_version ::= Z.succ |>) ;;
     if removed && active then
       let! now := gw_utcnow in
       set_instance model_id (fun i =>
         i <| in_state := LOADING |> <| in_stage := Some "Queued"%string |> <| in_error := None |>
           <| in_reserved_bytes := me_expected_memory_bytes entry |> <| in_load_started_at := Some now |>) ;;
       enqueue_model_job JOB_LOAD model_id (KModelLoad model_id) 1
     else
       set_instance model_id (fun i =>
         i <| in_state := if removed then NOT_LOADED else RUNTIME_ERROR |> <| in_stage := None |>
           <| in_reserved_bytes := 0 |>
           <| in_error := if removed then None
                          else Some (JObj [("code", JStr "UNLOAD_UNVERIFIED");
                                           ("message", JStr "Container still present.")]%string) |>) ;;
       gw_record "model.unloaded" model_id "success" (JObj [("verified", JBool removed)]%string)).

Definition handle_unload (model_id : string) (report : Json) : GM unit :=
  let! begun := unload_begin model_id in
  match begun with
  | None => ret tt
  | Some _ => unload_finish model_id report
  end.

(** ** The reaper

    A pass is a sequence of transactions: one that raises ends the pass, and the ones
    before it stay committed. *)

Definition Pass (A : Type) : Type := Gateway -> Result PlatformError A * Gateway.
Definition done_ {A} (a : A) : Pass A := fun g => (Ok a, g).
Definition commit {A} (m : GM A) : Pass A := fun g =>
  match m g with Ok (a, g') => (Ok a, g') | Err e => (Err e, g) end.
Definition and_then {A B} (r : Pass A) (k : A -> Pass B) : Pass B := fun g =>
  match r g with (Ok a, g') => k a g' | (Err e, g') => (Err e, g') end.
Fixpoint each {A} (xs : list A) (body : A -> Pass unit) : Pass unit :=
  match xs with [] => done_ tt | x :: xs' => and_then (body x) (fun _ => each xs' body) end.

(** Leases past their expiry that no other transaction holds are released at [now]. *)
Definition reap_expired (locked : uuid -> bool) (now : instant) : GM Z :=
  let expired l := lease_active l && (ml_expires_at l <=? now) && negb (locked (ml_id l)) in
  let! leases := gets (fun g => List.filter expired (gw_leases g)) in
  modify (fun g => g <| gw_leases ::= map (fun l => if expired l then
    l <| ml_released_at := Some now |> <| ml_release_reason := Some "expired"%string |> else l) |>) ;;
  for_each (remove_dups (map ml_model_id leases)) mark_idle_if_unused ;;
  ret (Z.of_nat (length leases)).

(** Leases of runs that are over, one transaction per lease found. *)
Definition reap_runs (run_is_active : string -> bool) : Pass unit := fun g =>
  each (List.filter (fun l => lease_active l && String.eqb (ml_holder_type l) "run") (gw_leases g)) (fun l =>
    if run_is_active (ml_holder_id l) then done_ tt
    else commit (release_holder "run" (ml_holder_id l) "run_finished" ;; ret tt)) g.

(** The idle check of one READY or DRAINING instance. *)
Definition reap_instance (now : instant) (model_id : string) : GM unit :=
  let! g := get in
  match gw_instances g !! model_id with
  | None => ret tt
  | Some i =>
      when (bool_decide (in_state i = READY) && negb (leased model_id g))
        (match in_idle_since i with
         | None => set_instance model_id (fun i => i <| in_idle_since := Some now |>)
         | Some t =>
             when (seconds (idle_unload_seconds s) <=? now - t)
               (set_instance model_id (fun i =>
                  i <| in_state := DRAINING |> <| in_drain_reason := Some drain_idle |>
                    <| in_stage := Some "Unloading (idle)"%string |> <| in_version ::= Z.succ |>) ;;
                enqueue_model_job JOB_UNLOAD model_id (KModelUnload model_id) 3)
         end)
  end.

Definition in_states (states : list InstanceState) (g : Gateway) : list string :=
  map fst (List.filter (fun kv => bool_decide (in_state kv.2 ∈ states)) (map_to_list (gw_instances g))).

Definition reap_idle (locked : string -> bool) (now : instant) : GM unit :=
  let! instances := gets (fun g => List.filter (fun m => negb (locked m)) (in_states [READY; DRAINING] g)) in
  for_each instances (reap_instance now).

Definition container_running (c : Json) : bool :=
  match jget "state" c with Some (JStr x) => String.eqb x "running" | _ => false end.

(** A READY model whose container the runtime describes as [c]. *)
Definition reap_crashed (model_id : string) (c : Json) : GM unit :=
  when (negb (container_running c))
    (let! '(_, _, instance) := rows model_id in
     when (bool_decide (in_state instance = READY))
       (let error := JObj ([("code", JStr "MODEL_CRASHED");
                            ("message", JStr "The model server stopped unexpectedly.")]%string ++ exit_details c) in
        set_instance model_id (fun i =>
          i <| in_state := RUNTIME_ERROR |> <| in_error := Some error |> <| in_reserved_bytes := 0 |>
            <| in_endpoint := None |> <| in_version ::= Z.succ |>) ;;
        gw_record "model.crashed" model_id "failure" error)).

Definition live_job (key : DedupeKey) (g : Gateway) : bool :=
  existsb (fun j => bool_decide (live_key j = Some key)) (jq_rows (gw_jobs g)).

(** [row.state, row.stage, row.endpoint = "READY", None, endpoint] *)
Definition adopt (model_id : string) (e : Json) : GM unit :=
  let! '(_, _, row) := rows model_id in
  when (bool_decide (in_state row = LOADING))
    (let! ready := gw_utcnow in
     set_instance model_id (fun i =>
       i <| in_state := READY |> <| in_stage := None |> <| in_endpoint := Some e |>
         <| in_ready_at := Some ready |> <| in_version ::= Z.succ |>)).

(** One instance of [_recover_stuck], as read at its start; [c] and [probe] are what the
    runtime and the health URL answer for it. *)
Definition recover_instance (model_id : string) (i : ModelInstance) (c : Json) (probe : option (Z * list string))
    : GM bool :=
  if bool_decide (in_state i = LOADING) then
    let! busy := gets (live_job (KModelLoad model_id)) in
    if (busy : bool) then ret false
    else
      let! young := (match in_load_started_at i with
                     | Some t => let! now := gw_utcnow in ret (now - t <? load_grace s)
                     | None => ret false
                     end) in
      if (young : bool) then ret false
      else
        let e := or_empty (jget "endpoint" c) in
        match healthy model_id e probe with
        | Err x => if container_running c then raise x else
            fail_load model_id (mkLoadFailure "LOAD_INTERRUPTED" "The load was interrupted; retry." []) ;; ret true
        | Ok ok =>
            (if container_running c && ok then adopt model_id e
             else fail_load model_id (mkLoadFailure "LOAD_INTERRUPTED" "The load was interrupted; retry." [])) ;;
            ret true
        end
  else
    let! busy := gets (live_job (KModelUnload model_id)) in
    if (busy : bool) then ret false
    else enqueue_model_job JOB_UNLOAD model_id (KModelUnload model_id) 3 ;; ret true.

Definition recover_stuck (container : string -> Json) (probe : string -> option (Z * list string)) : Pass unit :=
  fun g => each (List.filter (fun kv => bool_decide (in_state kv.2 ∈ [LOADING; DRAINING]))
                   (map_to_list (gw_instances g)))
    (fun kv => commit (recover_instance kv.1 kv.2 (container kv.1) (probe kv.1) ;; ret tt)) g.

(** The models whose container, if any, [_stop_orphans] stops. *)
Definition orphans (container : string -> Json) (g : Gateway) : list string :=
  List.filter (fun m => match jget "state" (container m) with
                        | None | Some JNull => false
                        | Some (JStr x) => negb (String.eqb x "absent")
                        | Some _ => true
                        end) (in_states [NOT_LOADED; LOAD_ERROR; RUNTIME_ERROR] g).

(** A pass of the reaper; [container m] is the container of [m] as the runtime describes
    it.  Returns the containers to stop. *)
Definition reap (run_is_active : option (string -> bool)) (locked_leases : uuid -> bool)
    (locked_instances : string -> bool) (container : string -> Json)
    (probe : string -> option (Z * list string)) : Pass (list string) :=
  and_then (commit gw_utcnow) (fun now =>
  and_then (commit (reap_expired locked_leases now)) (fun _ =>
  and_then (match run_is_active with Some f => reap_runs f | None => done_ tt end) (fun _ =>
  and_then (commit (reap_idle locked_instances now)) (fun _ =>
  and_then (fun g => each (in_states [READY] g) (fun m => commit (reap_crashed m (container m))) g) (fun _ =>
  and_then (recover_stuck container probe) (fun _ =>
  commit (gets (orphans container)))))))).

(** ** Views *)

(** The reserved bytes and resident models that [memory] reports. *)
Definition memory_reserved (g : Gateway) : Z :=
  total (fun kv => if resident kv.2 then in_reserved_bytes kv.2 else 0) (map_to_list (gw_instances g)).

(** [files.get(key)] and [files.get(key, old)] into a nullable column. *)
Definition column_of (v : Json) : option Json := match v with JNull => None | _ => Some v end.
Definition get_column (key : string) (files : Json) : option Json := jget key files ≫= column_of.
Definition get_column_or (key : string) (old : option Json) (files : Json) : option Json :=
  match jget key files with Some v => column_of v | None => old end.

(** [int(files.get("bytesDone") or 0)] of a reported number. *)
Definition bytes_done (files : Json) : option Z :=
  match jget "bytesDone" files with
  | Some (JNum z) => Some z
  | Some v => if truthy v then None else Some 0
  | None => Some 0
  end.

(** [files.get("state", installation.state)]; another value violates the check constraint. *)
Definition reported_state (old : DownloadState) (files : Json) : option DownloadState :=
  match jget "state" files with
  | None => Some old
  | Some (JStr x) => parse_download_state x
  | Some _ => None
  end.

(** Mirrors what the daemon reports about the files of a model. *)
Definition refresh_installation (model_id : string) (files : Json) : GM unit :=
  let! g := get in
  match gw_installations g !! model_id with
  | None => raise UNEXPECTED
  | Some i =>
      match reported_state (mi_state i) files, bytes_done files with
      | Some state, Some done_bytes =>
          let! verified :=
            (if bool_decide (state = INSTALLED) && otruthy (jget "verifiedAt" files)
             then let! t := gw_utcnow in ret (Some t) else ret (mi_last_verified_at i)) in
          modify (fun g => g <| gw_installations ::= <[model_id :=
            mkModelInstallation state (get_column_or "revision" (mi_revision i) files)
              (get_column "path" files) done_bytes (get_column "bytesTotal" files)
              (get_column "currentFile" files) (get_column_or "manifestSha256" (mi_checksum i) files)
              (get_column "error" files) (mi_license_accepted_at i) verified]> |>)
      | _, _ => raise UNEXPECTED
      end
  end.

(** [delete_files] is refused for a resident model; [files] is the daemon's answer. *)
Definition delete_files (model_id : string) (files : Json) : GM unit :=
  let! '(_, _, instance) := rows model_id in
  guard (negb (resident instance)) (conflict "MODEL_RESIDENT" []) ;;
  refresh_installation model_id files.

(** [install] is refused for a gated model whose license was not accepted. *)
Definition install (model_id : string) (files : Json) : GM unit :=
  let! '(entry, installation, _) := rows model_id in
  guard (negb (otruthy (jget "gated" (or_empty (jget "license" (me_profile entry))))
               && negb (bool_decide (is_Some (mi_license_accepted_at installation)))))
    (conflict "LICENSE_ACCEPTANCE_REQUIRED" []) ;;
  refresh_installation model_id files.

Definition cancel_install (model_id : string) (files : Json) : GM unit := refresh_installation model_id files.
End manager.
