(* ===== verification/ModelInv.v ===== *)
(** * Invariants of model residency ([model_gateway/manager.py])

    The transactions of [ModelManager] as the steps of a system in which they interleave
    freely, its invariant (memory budget, one generative model, leases and drains, ready
    endpoints), and what the handlers and the reaper guarantee. *)

From S2P Require Import Prelude TimeUtil Json Redaction States Jobs RunModel Platform ModelManager.
#[local] Open Scope Z_scope.

(** ** Sums over tables *)

Section totals.
Context {A : Type} (f : A -> Z).

Lemma total_app l1 l2 : total f (l1 ++ l2) = total f l1 + total f l2.
Proof. induction l1 as [|x l1 IH]; simpl; [done|]. rewrite IH. lia. Qed.
Lemma total_perm l1 l2 : l1 ≡ₚ l2 -> total f l1 = total f l2.
Proof. induction 1; simpl; lia. Qed.
Lemma total_nonneg l : (forall x, x ∈ l -> 0 <= f x) -> 0 <= total f l.
Proof.
  induction l as [|x l IH]; simpl; [done|]. intros H.
  pose proof (H x ltac:(by left)). assert (0 <= total f l) by (apply IH; intros; apply H; by right). lia.
Qed.
End totals.

(** The sum of [f] over a table, and how it changes with one row. *)
Definition table_total {V} (f : V -> Z) (m : gmap string V) : Z := total (fun kv => f kv.2) (map_to_list m).

Lemma table_total_delete {V} (f : V -> Z) m k v :
  m !! k = Some v -> table_total f m = f v + table_total f (delete k m).
Proof.
  intros Hk. unfold table_total. rewrite <- (insert_delete_id m k v Hk) at 1.
  rewrite (total_perm _ _ _ (map_to_list_insert (delete k m) k v (lookup_delete_eq m k))). done.
Qed.

Lemma table_total_insert {V} (f : V -> Z) m k v v' :
  m !! k = Some v -> table_total f (<[k := v']> m) = table_total f m - f v + f v'.
Proof.
  intros Hk. rewrite (table_total_delete f (<[k := v']> m) k v') by apply lookup_insert_eq.
  rewrite delete_insert_eq, (table_total_delete f m k v Hk). lia.
Qed.

Lemma total_filter {A} (p : A -> bool) (f : A -> Z) l :
  total f (List.filter p l) = total (fun x => if p x then f x else 0) l.
Proof. induction l as [|x l IH]; simpl; [done|]. destruct (p x); simpl; lia. Qed.

(** ** The invariant *)

Abbreviation Entries := (gmap string ModelCatalogEntry) (only parsing).
Abbreviation Instances := (gmap string ModelInstance) (only parsing).

Definition reserved_of (i : ModelInstance) : Z := if resident i then in_reserved_bytes i else 0.

Definition has_lease (id : string) (ls : list ModelLease) : bool := existsb (active_on id) ls.

(** The index entry of an active lease. *)
Definition holder (l : ModelLease) : option (string * string * string) :=
  if lease_active l then Some (ml_model_id l, ml_holder_type l, ml_holder_id l) else None.

(** What holds of one model, by whether it is leased. *)
Record model_ok (e : ModelCatalogEntry) (i : ModelInstance) (used : bool) : Prop := mkModelOk {
  mo_reserved : in_reserved_bytes i = if resident i then me_expected_memory_bytes e else 0;
  mo_drain : is_Some (in_drain_reason i) <-> in_state i = DRAINING;
  mo_unused : in_state i = NOT_LOADED \/ in_drain_reason i = Some drain_manual -> used = false;
  mo_endpoint : in_state i = READY \/ in_drain_reason i = Some drain_idle \/
                in_drain_reason i = Some drain_stopping ->
                exists x, in_endpoint i = Some x /\ truthy x = true
}.

Section invariant.
Context (s : GatewaySettings).

Definition budget : Z := Z.max 0 (max_serving_bytes s - load_safety_margin_bytes s).

Record inv_on (E : Entries) (N : Instances) (ls : list ModelLease) : Prop := mkInvOn {
  io_entry : forall id e, E !! id = Some e -> me_id e = id /\ 0 <= me_expected_memory_bytes e;
  io_model : forall id i, N !! id = Some i -> exists e, E !! id = Some e /\ model_ok e i (has_lease id ls);
  io_holders : NoDup (omap holder ls);
  io_budget : table_total reserved_of N <= budget;
  io_one : one_generative_model s = true -> forall j k ij ik ej ek,
    N !! j = Some ij -> N !! k = Some ik -> E !! j = Some ej -> E !! k = Some ek ->
    resident ij = true -> resident ik = true ->
    is_generative (me_capabilities ej) = true -> is_generative (me_capabilities ek) = true -> j = k
}.

Definition gw_inv (g : Gateway) : Prop :=
  inv_on (gw_entries g) (gw_instances g) (gw_leases g) /\
  (forall id, is_Some (gw_entries g !! id) -> is_Some (gw_installations g !! id) /\ is_Some (gw_instances g !! id)).

(** One row changes and it was or stays within the admitted set. *)
Lemma inv_row E N ls ls' id i i' e :
  inv_on E N ls -> N !! id = Some i -> E !! id = Some e ->
  model_ok e i' (has_lease id ls') ->
  (forall m, m <> id -> has_lease m ls' = true -> has_lease m ls = true) -> NoDup (omap holder ls') ->
  table_total reserved_of N - reserved_of i + reserved_of i' <= budget ->
  (one_generative_model s = true -> resident i' = true -> is_generative (me_capabilities e) = true ->
    forall k ik ek, k <> id -> N !! k = Some ik -> E !! k = Some ek -> resident ik = true ->
      is_generative (me_capabilities ek) = false) ->
  inv_on E (<[id := i']> N) ls'.
Proof.
  intros [I1 I2 I3 I4 I5] Hi He Hok Hls Hnd Hb Hone. split; [done| |done| |].
  - intros k ik. rewrite lookup_insert. case_decide as Hk.
    + intros [= <-]. subst k. by exists e.
    + intros Hik. destruct (I2 k ik Hik) as (ek & Hek & [M1 M2 M3 M4]). exists ek. split; [done|].
      split; [done|done| |done]. intros H. specialize (M3 H). destruct (has_lease k ls') eqn:Hl; [|done].
      rewrite (Hls k) in M3; [done|congruence|done].
  - by rewrite (table_total_insert _ _ _ i).
  - intros Hp j k ij ik ej ek. rewrite !lookup_insert. specialize (Hone Hp).
    case_decide as Hj; case_decide as Hk; intros Hij Hik Hej Hek Rj Rk Gj Gk; simplify_eq; try done.
    + rewrite (Hone Rj Gj k ik ek) in Gk; done.
    + rewrite (Hone Rk Gk j ij ej) in Gj; done.
    + by eapply I5.
Qed.

(** A change of a row that does not make the model resident. *)
Lemma inv_alter E N ls id f :
  inv_on E N ls ->
  (forall e i, N !! id = Some i -> E !! id = Some e -> model_ok e i (has_lease id ls) ->
     model_ok e (f i) (has_lease id ls) /\ (resident (f i) = true -> resident i = true)) ->
  inv_on E (alter f id N) ls.
Proof.
  intros I Hf. pose proof I as [I1 I2 I3 I4 I5]. destruct (N !! id) as [i|] eqn:Hi.
  2:{ replace (alter f id N) with N; [done|]. apply map_eq. intros k. rewrite lookup_alter.
      case_decide; [subst; by rewrite Hi|done]. }
  destruct (I2 id i Hi) as (e & He & Hok). destruct (Hf e i eq_refl He Hok) as [Hok' Hres].
  replace (alter f id N) with (<[id := f i]> N).
  2:{ apply map_eq. intros k. rewrite lookup_alter, lookup_insert. case_decide; [subst; by rewrite Hi|done]. }
  eapply inv_row; try done.
  - assert (reserved_of (f i) <= reserved_of i); [|lia]. unfold reserved_of.
    rewrite (mo_reserved _ _ _ Hok'), (mo_reserved _ _ _ Hok).
    pose proof (proj2 (I1 id e He)). destruct (resident (f i)) eqn:Hr; [rewrite Hres by done; lia|].
    destruct (resident i); lia.
  - intros Hp Hr Hg k ik ek Hk Hik Hek Rk. destruct (is_generative (me_capabilities ek)) eqn:Gk; [|done].
    exfalso. apply Hk. eapply (I5 Hp k id); eauto.
Qed.

(** Leases only end. *)
Lemma inv_fewer E N ls ls' :
  inv_on E N ls -> (forall m, has_lease m ls' = true -> has_lease m ls = true) -> NoDup (omap holder ls') ->
  inv_on E N ls'.
Proof.
  intros [I1 I2 I3 I4 I5] Hls Hnd. split; try done. intros id i Hi.
  destruct (I2 id i Hi) as (e & He & [M1 M2 M3 M4]). exists e. split; [done|]. split; [done|done| |done].
  intros H. specialize (M3 H). destruct (has_lease id ls') eqn:Hl; [|done]. by rewrite Hls in M3.
Qed.
End invariant.

(** ** Leases *)

(** [l'] is [l], possibly renewed or released. *)
Definition carries (l l' : ModelLease) : Prop :=
  ml_id l' = ml_id l /\ ml_model_id l' = ml_model_id l /\ ml_holder_type l' = ml_holder_type l /\
  ml_holder_id l' = ml_holder_id l /\ (lease_active l' = true -> lease_active l = true).

Lemma carries_refl l : carries l l.
Proof. by split_and!. Qed.

Lemma carried_lease ls ls' m : Forall2 carries ls ls' -> has_lease m ls' = true -> has_lease m ls = true.
Proof.
  intros HC. unfold has_lease. induction HC as [|l l' ls ls' (_ & H1 & _ & _ & H2) _ IH]; simpl; [done|].
  intros [H|H]%orb_true_iff; apply orb_true_iff; [left|right; by apply IH].
  unfold active_on in *. rewrite H1 in H. apply andb_true_iff in H as [-> H]. by rewrite H2.
Qed.

Lemma carried_holders ls ls' : Forall2 carries ls ls' -> omap holder ls' `sublist_of` omap holder ls.
Proof.
  induction 1 as [|l l' ls ls' (_ & H1 & H2 & H3 & H4) _ IH]; [done|]. csimpl.
  assert (H : holder l' = None \/ holder l' = holder l).
  { unfold holder. rewrite H1, H2, H3. destruct (lease_active l'); [right; by rewrite H4|by left]. }
  destruct H as [-> | ->]; destruct (holder l); by constructor || done.
Qed.

Lemma NoDup_sublist {A} (l l' : list A) : l' `sublist_of` l -> NoDup l -> NoDup l'.
Proof.
  induction 1 as [|x l1 l2 Hs IH|x l1 l2 Hs IH]; [done| |].
  - intros [Hx Hl]%NoDup_cons. apply NoDup_cons. split; [|by apply IH]. intros Hin. apply Hx.
    by eapply (sublist_subseteq _ _ Hs).
  - intros [_ Hl]%NoDup_cons. by apply IH.
Qed.

Section leases.
Context {clk : Clock} (s : GatewaySettings).

Lemma release_rows_carries p reason t ls : Forall2 carries ls (release_rows p reason t ls).1.
Proof.
  revert t. induction ls as [|l ls IH]; intros t; simpl; [done|]. destruct (p l).
  - specialize (IH (Datatypes.S t)). destruct (release_rows p reason (Datatypes.S t) ls) as [r t']; simpl in *.
    constructor; [by split_and!|done].
  - specialize (IH t). destruct (release_rows p reason t ls) as [r t']; simpl in *.
    constructor; [apply carries_refl|done].
Qed.

(** Releasing every active lease of a model leaves it unused. *)
Lemma release_rows_all p reason t ls m :
  (forall l, active_on m l = true -> p l = true) -> has_lease m (release_rows p reason t ls).1 = false.
Proof.
  intros Hp. revert t. unfold has_lease. induction ls as [|l ls IH]; intros t; simpl; [done|].
  destruct (p l) eqn:Hl.
  - specialize (IH (Datatypes.S t)). destruct (release_rows p reason (Datatypes.S t) ls) as [r t']; simpl in *.
    rewrite IH. unfold active_on, lease_active. simpl. by rewrite andb_false_r.
  - specialize (IH t). destruct (release_rows p reason t ls) as [r t']; simpl in *. rewrite IH.
    destruct (active_on m l) eqn:Ha; [|done]. by rewrite Hp in Hl.
Qed.

Lemma gw_inv_leases g ls t :
  gw_inv s g -> Forall2 carries (gw_leases g) ls ->
  gw_inv s (g <| gw_leases := ls |> <| gw_tick := t |>).
Proof.
  intros [I H] HC. split; [|done]. eapply inv_fewer; [exact I| |].
  - intros m. by apply carried_lease.
  - eapply NoDup_sublist; [by apply carried_holders|]. apply (io_holders _ _ _ _ I).
Qed.

Lemma release_where_inv p reason g :
  gw_inv s g -> wp (release_where p reason) (fun _ => gw_inv s) g.
Proof.
  intros I. unfold wp, release_where.
  pose proof (release_rows_carries (fun l => lease_active l && p l) reason (gw_tick g) (gw_leases g)) as HC.
  destruct (release_rows _ _ _ _) as [ls t]. by apply gw_inv_leases.
Qed.

(** An instance row is changed in place. *)
Lemma gw_inv_alter g g' id f :
  gw_inv s g -> gw_entries g' = gw_entries g -> gw_installations g' = gw_installations g ->
  gw_instances g' = alter f id (gw_instances g) -> gw_leases g' = gw_leases g ->
  (forall e i, gw_instances g !! id = Some i -> gw_entries g !! id = Some e ->
     model_ok e i (leased id g) ->
     model_ok e (f i) (leased id g) /\ (resident (f i) = true -> resident i = true)) ->
  gw_inv s g'.
Proof.
  intros [I H] HE HI HN HL Hf. split; rewrite HE, ?HI, HN, ?HL.
  - by apply inv_alter.
  - intros k Hk. destruct (H k Hk) as [H1 [v Hv]]. split; [done|]. rewrite lookup_alter.
    case_decide; [subst; by rewrite Hv|by exists v].
Qed.

(** A change that matters to nothing the invariant speaks of. *)
Definition innocuous (f : ModelInstance -> ModelInstance) : Prop :=
  forall i, in_state (f i) = in_state i /\ in_drain_reason (f i) = in_drain_reason i /\
    in_reserved_bytes (f i) = in_reserved_bytes i /\ in_endpoint (f i) = in_endpoint i.

Lemma innocuous_ok f e i used : innocuous f -> model_ok e i used -> model_ok e (f i) used.
Proof.
  intros Hf [M1 M2 M3 M4]. destruct (Hf i) as (H1 & H2 & H3 & H4).
  split; unfold resident in *; rewrite ?H1, ?H2, ?H3, ?H4; done.
Qed.

Lemma set_innocuous id f g :
  gw_inv s g -> innocuous f -> wp (set_instance id f) (fun _ => gw_inv s) g.
Proof.
  intros I Hf. apply wp_modify. eapply (gw_inv_alter g _ id f); try done. intros e i Hi He Hok.
  split; [by apply innocuous_ok|]. unfold resident. by rewrite (proj1 (Hf i)).
Qed.

Lemma gw_inv_same g g' :
  gw_inv s g -> gw_entries g' = gw_entries g -> gw_installations g' = gw_installations g ->
  gw_instances g' = gw_instances g -> gw_leases g' = gw_leases g -> gw_inv s g'.
Proof. unfold gw_inv. by intros I -> -> -> ->. Qed.

Lemma mark_idle_inv m g : gw_inv s g -> wp (mark_idle_if_unused m) (fun _ => gw_inv s) g.
Proof.
  intros I. unfold mark_idle_if_unused. wp_step. apply wp_gets. apply wp_when; intros _; [|done].
  wp_step. unfold gw_utcnow, wp at 1. apply set_innocuous; [by eapply gw_inv_same|].
  intros i. by destruct (_ && _).
Qed.

Lemma release_inv id reason g : gw_inv s g -> wp (release id reason) (fun _ => gw_inv s) g.
Proof.
  intros I. unfold release. wp_step. eapply wp_mono; [by apply release_where_inv|]. intros ls g' I'.
  apply wp_for_each; [|done]. intros. by apply mark_idle_inv.
Qed.

Lemma release_holder_inv ht hid reason g :
  gw_inv s g -> wp (release_holder ht hid reason) (fun _ => gw_inv s) g.
Proof.
  intros I. unfold release_holder. wp_step. eapply wp_mono; [by apply release_where_inv|]. intros ls g' I'.
  wp_step. eapply wp_mono; [by apply wp_for_each; [intros; by apply mark_idle_inv|]|]. intros; by apply wp_ret.
Qed.
End leases.

(** ** Admission *)

Lemma total_ext {A} (f h : A -> Z) l : (forall x, x ∈ l -> f x = h x) -> total f l = total h l.
Proof.
  induction l as [|x l IH]; simpl; [done|]. intros H. rewrite (H x) by by left. rewrite IH; [done|].
  intros; apply H; by right.
Qed.

Section admission.
Context {clk : Clock} (s : GatewaySettings).

Lemma others_total g id i :
  (forall k v, gw_instances g !! k = Some v -> is_Some (gw_entries g !! k)) ->
  gw_instances g !! id = Some i ->
  total (fun r => in_reserved_bytes r.1.2) (others id g)
  = table_total reserved_of (gw_instances g) - reserved_of i.
Proof.
  intros HE Hi. unfold others.
  assert (H1 : forall l, (forall kv, kv ∈ l -> is_Some (gw_entries g !! kv.1)) ->
    total (fun r => in_reserved_bytes r.1.2) (omap (fun kv : string * ModelInstance =>
      if resident kv.2 && negb (String.eqb kv.1 id) then
        (fun e => (kv.1, kv.2, me_capabilities e)) <$> gw_entries g !! kv.1 else None) l)
    = total (fun kv => if String.eqb kv.1 id then 0 else reserved_of kv.2) l).
  { induction l as [|[k v] l IH]; [done|]. intros Hl. csimpl.
    rewrite <- IH by (intros; apply Hl; by right). unfold reserved_of.
    destruct (Hl (k, v) ltac:(by left)) as [e He]. simpl in He. rewrite He.
    destruct (resident v), (String.eqb k id); simpl; lia. }
  rewrite H1 by (intros [k v] Hin%elem_of_map_to_list; by eapply HE).
  rewrite (table_total_delete _ _ _ _ Hi). unfold table_total.
  rewrite <- (insert_delete_id (gw_instances g) id i Hi) at 1.
  rewrite (total_perm _ _ _ (map_to_list_insert (delete id (gw_instances g)) id i (lookup_delete_eq _ id))).
  simpl. rewrite String.eqb_refl.
  rewrite (total_ext _ (fun kv => reserved_of kv.2)); [lia|]. intros [k v] Hin%elem_of_map_to_list. simpl.
  destruct (String.eqb k id) eqn:Hk; [|done]. apply String.eqb_eq in Hk. subst k. by rewrite lookup_delete_eq in Hin.
Qed.

(** What a granted admission guarantees. *)
Definition admitted (g : Gateway) (e : ModelCatalogEntry) (available : Z) : Prop :=
  let peak := me_expected_memory_bytes e in
  total (fun r => in_reserved_bytes r.1.2) (others (me_id e) g) + peak + load_safety_margin_bytes s
    <= max_serving_bytes s /\
  peak + load_safety_margin_bytes s + system_reserve_bytes s <= available /\
  (one_generative_model s = true -> is_generative (me_capabilities e) = true ->
     forall r, r ∈ others (me_id e) g -> is_generative r.2 = false).

Lemma admit_spec e available g :
  wp (_admit s e available) (fun _ g' => g' = g /\ admitted g e available) g.
Proof.
  unfold _admit. wp_step. apply wp_gets. cbv zeta. wp_step. apply wp_guard; intros H1. wp_step.
  apply wp_guard; intros H2. apply wp_guard; intros H3. split; [done|].
  apply negb_true_iff, Z.ltb_ge in H2, H3. split_and!; [lia|lia|].
  intros Hp Hg r Hr. rewrite Hp, Hg in H1. apply negb_true_iff in H1. cbn [andb] in H1. reflect_all. destruct (is_generative r.2) eqn:Hgr; [|done].
  apply map_eq_nil in H1. apply list_elem_of_In in Hr.
  assert (Hin : In r (List.filter (fun r => is_generative r.2) (others (me_id e) g))) by by apply filter_In.
  by rewrite H1 in Hin.
Qed.

Lemma elem_of_others id g k v e :
  gw_instances g !! k = Some v -> gw_entries g !! k = Some e -> k <> id -> resident v = true ->
  (k, v, me_capabilities e) ∈ others id g.
Proof.
  intros Hv He Hne Hr. apply list_elem_of_omap. exists (k, v). split; [by apply elem_of_map_to_list|]. simpl.
  rewrite Hr, He. apply String.eqb_neq in Hne. by rewrite Hne.
Qed.

Lemma find_held_none id ht hid ls :
  List.find (held_by id ht hid) ls = None -> (id, ht, hid) ∉ omap holder ls.
Proof.
  intros Hf (l & Hl & Hh)%list_elem_of_omap. apply list_elem_of_In in Hl. pose proof (find_none _ _ Hf _ Hl) as H.
  unfold holder in Hh. destruct (lease_active l) eqn:Ha; [|done]. injection Hh as H1 H2 H3.
  unfold held_by, active_on in H. by rewrite H1, H2, H3, Ha, !String.eqb_refl in H.
Qed.

(** The lease is there, once per holder, and other models' leases are as before. *)
Lemma upsert_spec id ht hid label expires g :
  NoDup (omap holder (gw_leases g)) ->
  wp (upsert_lease id ht hid label expires) (fun lid g' =>
    exists ls n, g' = g <| gw_fresh := n |> <| gw_leases := ls |> /\ NoDup (omap holder ls) /\
      (forall m, m <> id -> has_lease m ls = has_lease m (gw_leases g)) /\
      exists l, l ∈ ls /\ ml_id l = lid /\ held_by id ht hid l = true /\ ml_expires_at l = expires) g.
Proof.
  intros Hnd. unfold upsert_lease. wp_step. apply wp_gets.
  destruct (List.find (held_by id ht hid) (gw_leases g)) as [l|] eqn:Hf.
  - wp_step. apply wp_modify. apply wp_ret. set (up := fun x : ModelLease => _).
    assert (Hh : forall x, holder (up x) = holder x /\ (forall m, active_on m (up x) = active_on m x)).
    { intros x. unfold up. by destruct (held_by id ht hid x). }
    exists (map up (gw_leases g)), (gw_fresh g). split; [by destruct g|]. split_and!.
    + replace (omap holder (map up (gw_leases g))) with (omap holder (gw_leases g)); [done|].
      clear -Hh. induction (gw_leases g) as [|x ls IH]; [done|]. csimpl. by rewrite (proj1 (Hh x)), IH.
    + intros m _. unfold has_lease. clear -Hh. induction (gw_leases g) as [|x ls IH]; [done|]. simpl.
      by rewrite (proj2 (Hh x)), IH.
    + apply find_some in Hf as [Hin Hl]. exists (up l). unfold up. rewrite Hl.
      split_and!; try done. apply list_elem_of_In, in_map_iff. exists l. by rewrite Hl.
  - wp_step. apply wp_gets. wp_step. apply wp_modify. apply wp_ret.
    eexists (gw_leases g ++ [_]), (N.succ (gw_fresh g)). split; [done|]. split_and!.
    + rewrite omap_app. apply NoDup_app. split; [done|].
      split; [|apply NoDup_singleton]. intros x Hx ->%list_elem_of_singleton. by eapply find_held_none.
    + intros m Hm. unfold has_lease. rewrite existsb_app. simpl. unfold active_on at 2. simpl.
      assert (String.eqb id m = false) as -> by (apply String.eqb_neq; congruence). by rewrite orb_false_r.
    + eexists. split; [apply elem_of_app; right; by left|]. split_and!; try done.
      unfold held_by, active_on, lease_active. simpl. by rewrite !String.eqb_refl.
Qed.

Lemma wp_rows id (Q : ModelCatalogEntry * ModelInstallation * ModelInstance -> Gateway -> Prop) g :
  (forall e i n, gw_entries g !! id = Some e -> gw_installations g !! id = Some i ->
     gw_instances g !! id = Some n -> Q (e, i, n) g) -> wp (rows id) Q g.
Proof.
  intros HQ. unfold rows. wp_step. apply wp_get. destruct (gw_entries g !! id) as [e|] eqn:He; [|done].
  destruct (gw_installations g !! id) as [i|] eqn:Hi; [|done].
  destruct (gw_instances g !! id) as [n|] eqn:Hn; [|done]. apply wp_ret. by apply HQ.
Qed.
End admission.

Lemma alter_some {V} (f : V -> V) (m : gmap string V) k v : m !! k = Some v -> alter f k m = <[k := f v]> m.
Proof.
  intros H. apply map_eq. intros j. rewrite lookup_alter, lookup_insert. case_decide; [subst; by rewrite H|done].
Qed.

Section acquire.
Context {clk : Clock} (s : GatewaySettings).

Definition fits (g : Gateway) (id : string) (e : ModelCatalogEntry) : Prop :=
  table_total reserved_of (gw_instances g) + me_expected_memory_bytes e <= budget s /\
  (one_generative_model s = true -> is_generative (me_capabilities e) = true ->
    forall k ik ek, k <> id -> gw_instances g !! k = Some ik -> gw_entries g !! k = Some ek ->
      resident ik = true -> is_generative (me_capabilities ek) = false).

Lemma admitted_fits g id e i available :
  gw_inv s g -> gw_entries g !! id = Some e -> gw_instances g !! id = Some i -> resident i = false ->
  admitted s g e available -> fits g id e.
Proof.
  intros [[I1 I2 _ _ _] _] He Hi Hr (A1 & _ & A3). destruct (I1 id e He) as [Hid _]. rewrite Hid in A1, A3.
  rewrite (others_total g id i) in A1; [|intros k v Hk; destruct (I2 k v Hk) as (x & -> & _); done|done].
  assert (H0 : reserved_of i = 0) by (unfold reserved_of; by rewrite Hr).
  rewrite H0 in A1. split; [unfold budget; lia|].
  intros Hp Hg k ik ek Hk Hik Hek Rk. by apply (A3 Hp Hg (k, ik, me_capabilities ek)), elem_of_others.
Qed.

(** A row of the model is replaced while its leases may have grown. *)
Lemma gw_inv_row g g' id e i i' :
  gw_inv s g -> gw_entries g' = gw_entries g -> gw_installations g' = gw_installations g ->
  gw_entries g !! id = Some e -> gw_instances g !! id = Some i ->
  gw_instances g' = <[id := i']> (gw_instances g) ->
  model_ok e i' (leased id g') -> NoDup (omap holder (gw_leases g')) ->
  (forall m, m <> id -> has_lease m (gw_leases g') = has_lease m (gw_leases g)) ->
  (resident i' = true -> resident i = true \/ fits g id e) -> gw_inv s g'.
Proof.
  intros [I H] HE HI He Hi HN Hok Hnd Hls Hres. split; rewrite HE, ?HI, HN.
  - pose proof I as [I1 I2 I3 I4 I5]. destruct (I2 id i Hi) as (e' & He' & M). simplify_eq.
    assert (Hri : reserved_of i = if resident i then me_expected_memory_bytes e else 0)
      by (unfold reserved_of; rewrite (mo_reserved _ _ _ M); by destruct (resident i)).
    assert (Hri' : reserved_of i' = if resident i' then me_expected_memory_bytes e else 0)
      by (unfold reserved_of; rewrite (mo_reserved _ _ _ Hok); by destruct (resident i')).
    pose proof (proj2 (I1 id e He)) as Hpos.
    eapply inv_row; try done.
    + intros m Hm. by rewrite Hls.
    + rewrite Hri, Hri'. destruct (resident i') eqn:Hr'; [|destruct (resident i); lia].
      destruct (Hres eq_refl) as [->|[Hf _]]; [lia|]. destruct (resident i); lia.
    + intros Hp Hr' Hg k ik ek Hk Hik Hek Rk. destruct (Hres Hr') as [Hr|[_ Hf]]; [|by eapply Hf].
      destruct (is_generative (me_capabilities ek)) eqn:Gk; [|done]. exfalso. apply Hk. by eapply (I5 Hp k id).
  - intros k Hk. destruct (H k Hk) as [H1 [v Hv]]. split; [done|]. rewrite lookup_insert.
    by case_decide; [|exists v].
Qed.

(** What [acquire] promises. *)
Definition acquired (id ht hid : string) (ttl available : Z) (g : Gateway) (lid : uuid) (g' : Gateway) : Prop :=
  (exists l, l ∈ gw_leases g' /\ ml_id l = lid /\ held_by id ht hid l = true /\
     ml_expires_at l = wall (gw_tick g) + seconds ttl) /\
  exists e i i', gw_entries g !! id = Some e /\ gw_instances g !! id = Some i /\
    gw_instances g' !! id = Some i' /\ resident i' = true /\
    (forall m, m <> id -> gw_instances g' !! m = gw_instances g !! m) /\
    in_drain_reason i' <> Some drain_idle /\ in_drain_reason i' <> Some drain_manual /\
    (resident i = false -> in_state i' = LOADING /\ admitted s g e available /\
       has_live (KModelLoad id) (gw_jobs g')).

Lemma acquire_spec id ht hid label ttl manual available g :
  gw_inv s g ->
  wp (acquire s id ht hid label ttl manual available)
    (fun lid g' => gw_inv s g' /\ acquired id ht hid ttl available g lid g') g.
Proof.
  intros I. unfold acquire. wp_step. apply wp_rows. intros e inst i He Hin Hi. wp_step.
  apply wp_guard; intros _. wp_step. apply wp_guard; intros Hnm. wp_step. unfold gw_utcnow, wp at 1.
  wp_step. eapply wp_mono; [apply upsert_spec; apply (io_holders _ _ _ _ (proj1 I))|].
  intros lid g1 (ls & n & -> & Hnd & Hls & Hlease). simpl in Hls.
  pose proof (proj1 I) as [_ I2 _ _ _]. destruct (I2 id i Hi) as (e' & He' & M). simplify_eq.
  pose proof M as [M1 M2 M3 M4].
  set (idle := fun x : ModelInstance => x <| in_idle_since := None |>).
  (* the final row [idle (f i)] *)
  assert (Fin : forall f g', gw_entries g' = gw_entries g -> gw_installations g' = gw_installations g ->
    gw_instances g' = alter f id (gw_instances g) -> gw_leases g' = ls ->
    model_ok e (f i) true -> resident (f i) = true -> in_drain_reason (f i) <> Some drain_idle ->
    (resident i = true \/ in_state (f i) = LOADING /\ admitted s g e available /\
       has_live (KModelLoad id) (gw_jobs g')) ->
    wp (set_instance id idle ;; ret lid)
      (fun lid g'' => gw_inv s g'' /\ acquired id ht hid ttl available g lid g'') g').
  { intros f g' HE HI HN HL Hok Hr Hd Hload. wp_step. apply wp_modify. apply wp_ret.
    rewrite (alter_some _ _ _ _ Hi) in HN.
    assert (HN' : alter idle id (gw_instances g') = <[id := idle (f i)]> (gw_instances g)).
    { rewrite HN, (alter_some _ _ _ (f i)) by apply lookup_insert_eq. apply insert_insert_eq. }
    assert (Hok' : model_ok e (idle (f i)) true) by by apply innocuous_ok.
    assert (Hused : has_lease id ls = true).
    { destruct Hlease as (l & Hl & _ & Hh & _). unfold has_lease. apply existsb_exists. exists l.
      split; [by apply list_elem_of_In|]. unfold held_by in Hh. by reflect_all. }
    split.
    - eapply (gw_inv_row g _ id e i (idle (f i))); try done; simpl; rewrite ?HL; try done.
      + unfold leased. simpl. rewrite HL. fold (has_lease id ls). by rewrite Hused.
      + intros _. destruct Hload as [Hload|(_ & Hload & _)]; [by left|].
        destruct (resident i) eqn:Hri; [by left|right]. by eapply admitted_fits.
    - split; [cbn [gw_leases update eta eta_Gateway]; by rewrite HL|]. exists e, i, (idle (f i)). simpl. rewrite HN'.
      split_and!; try done; [by apply lookup_insert_eq|intros m Hm; by apply lookup_insert_ne| |].
      + intros Hm. pose proof (mo_unused _ _ _ Hok (or_intror Hm)). done.
      + destruct Hload as [->|Hload]; [done|]. by intros _.
      }
  clear Hlease.
  assert (Hdr : in_state i <> DRAINING -> in_drain_reason i = None).
  { intros Hd. destruct (in_drain_reason i); [|done]. by destruct Hd; apply M2. }
  assert (Hsame : resident i = true -> in_state i <> DRAINING -> model_ok e i true).
  { intros Hr Hd. specialize (Hdr Hd). split; try done. intros [H|H]; [|congruence].
    unfold resident in Hr. by rewrite H in Hr. }
  destruct (in_state i) eqn:Hst.
  1,5,6: wp_step; wp_step; (eapply wp_mono; [apply admit_spec|]); intros _ ? [-> HA];
    wp_step; apply wp_modify; wp_step; unfold enqueue_model_job; wp_step; unfold gw_utcnow, wp at 1; apply wp_modify;
    apply wp_modify; specialize (Hdr ltac:(done));
    (eapply (Fin (fun i => i <| in_state := LOADING |> <| in_stage := Some "Queued"%string |> <| in_error := None |>
           <| in_reserved_bytes := me_expected_memory_bytes e |>
           <| in_load_started_at := Some (wall (gw_tick g)) |> <| in_ready_at := None |> <| in_version ::= Z.succ |>));
     try done;
     [split; simpl; rewrite ?Hdr; try done; [by intros []|by intros [|[]]]
     |simpl; by rewrite Hdr
     |right; split_and!; [done|exact HA|apply enqueue_has_live]]).
  - wp_step. apply wp_ret. specialize (Hdr ltac:(done)). apply (Fin (fun i => i)); try done; simpl.
    + by rewrite alter_id.
    + apply Hsame; [unfold resident; by rewrite Hst|done].
    + unfold resident. by rewrite Hst.
    + by rewrite Hdr.
    + left. unfold resident. by rewrite Hst.
  - wp_step. apply wp_ret. specialize (Hdr ltac:(done)). apply (Fin (fun i => i)); try done; simpl.
    + by rewrite alter_id.
    + apply Hsame; [unfold resident; by rewrite Hst|done].
    + unfold resident. by rewrite Hst.
    + by rewrite Hdr.
    + left. unfold resident. by rewrite Hst.
  - assert (Hri : resident i = true) by (unfold resident; by rewrite Hst).
    wp_step. apply wp_when; intros Hd.
    + apply bool_decide_eq_true in Hd. apply wp_modify.
      eapply (Fin (fun i => i <| in_state := READY |> <| in_drain_reason := None |> <| in_stage := None |>));
        try done; [|by left]. split; simpl; try done; [by rewrite M1, Hri|by intros []|].
      intros _. apply M4. auto.
    + apply bool_decide_eq_false in Hd. simpl in Hnm. apply negb_true_iff, bool_decide_eq_false in Hnm.
      apply (Fin (fun i => i)); try done; simpl; [by rewrite alter_id| |by left].
      split; [done|by rewrite Hst|by rewrite Hst; intros []|by rewrite Hst].
Qed.
End acquire.

(** ** The other transactions *)

Section transactions.
Context {clk : Clock} (s : GatewaySettings).

(** The condition of [gw_inv_alter] on a row read in state [st]. *)
Definition safe_change (id : string) (g : Gateway) (f : ModelInstance -> ModelInstance) : Prop :=
  forall e i, gw_instances g !! id = Some i -> gw_entries g !! id = Some e -> model_ok e i (leased id g) ->
    model_ok e (f i) (leased id g) /\ (resident (f i) = true -> resident i = true).

Lemma set_safe id f (Q : unit -> Gateway -> Prop) g :
  gw_inv s g -> safe_change id g f ->
  (gw_inv s (g <| gw_instances ::= alter f id |>) -> Q tt (g <| gw_instances ::= alter f id |>)) ->
  wp (set_instance id f) Q g.
Proof. intros I Hf HQ. apply wp_modify, HQ. by apply (gw_inv_alter s g _ id f). Qed.

Lemma enqueue_inv typ id k n g :
  gw_inv s g -> wp (enqueue_model_job typ id k n) (fun _ g' => gw_inv s g' /\ has_live k (gw_jobs g') /\
    gw_instances g' = gw_instances g /\ gw_leases g' = gw_leases g) g.
Proof.
  intros I. unfold enqueue_model_job. wp_step. unfold gw_utcnow, wp at 1. apply wp_modify.
  split_and!; [by eapply gw_inv_same|apply enqueue_has_live|done|done].
Qed.

Lemma record_inv a m o d g : gw_inv s g -> wp (gw_record a m o d) (fun _ => gw_inv s) g.
Proof. intros I. apply wp_modify. by eapply gw_inv_same. Qed.

Lemma set_stage_inv id st g : gw_inv s g -> wp (set_stage id st) (fun _ => gw_inv s) g.
Proof. intros I. by apply set_innocuous. Qed.

(** The drain reason of a row that is not draining. *)
Lemma not_draining e i used : model_ok e i used -> in_state i <> DRAINING -> in_drain_reason i = None.
Proof. intros [_ M _ _] Hd. destruct (in_drain_reason i); [|done]. by destruct Hd; apply M. Qed.

Lemma fail_load_inv id f g : gw_inv s g -> wp (fail_load id f) (fun _ => gw_inv s) g.
Proof.
  intros I. unfold fail_load. wp_step. apply wp_rows. intros e inst i He Hin Hi. apply wp_when; intros Hst; [|done].
  apply bool_decide_eq_true in Hst. wp_step. apply set_safe; [done| |intros I'; by apply record_inv].
  intros e' i' Hi' _ M. simplify_eq. pose proof (not_draining _ _ _ M ltac:(congruence)) as Hd.
  split; [|done]. split; simpl; rewrite ?Hd; try done; [by intros []|by intros [|[]]].
Qed.

Lemma load_done_inv id x g :
  gw_inv s g -> truthy x = true -> wp (load_done id x) (fun _ => gw_inv s) g.
Proof.
  intros I Hx. unfold load_done. wp_step. apply wp_rows. intros e inst i He Hin Hi.
  apply wp_when; intros Hst; [|done]. apply bool_decide_eq_true in Hst. wp_step. apply wp_gets.
  wp_step. unfold gw_utcnow, wp at 1. wp_step.
  apply (wp_mono _ (fun _ g' => exists t, g' = g <| gw_tick := t |>)).
  { destruct (leased id g); [apply wp_ret|apply wp_bind; unfold gw_utcnow, wp at 1; apply wp_ret]; by eexists. }
  intros o ? [t ->]. apply set_safe; [by eapply gw_inv_same| |done].
  intros e' i' Hi' _ M. simpl in Hi'. rewrite Hi in Hi'. injection Hi' as <-. pose proof (not_draining _ _ _ M ltac:(congruence)) as Hd.
  assert (Hr : resident i = true) by (unfold resident; by rewrite Hst).
  split; [|done]. split; simpl; rewrite ?Hd; try done; [by rewrite (mo_reserved _ _ _ M), Hr|by intros []|by eexists].
Qed.

Lemma adopt_inv id x g : gw_inv s g -> truthy x = true -> wp (adopt id x) (fun _ => gw_inv s) g.
Proof.
  intros I Hx. unfold adopt. wp_step. apply wp_rows. intros e inst i He Hin Hi.
  apply wp_when; intros Hst; [|done]. apply bool_decide_eq_true in Hst. wp_step. unfold gw_utcnow, wp at 1.
  apply set_safe; [by eapply gw_inv_same| |done].
  intros e' i' Hi' _ M. simpl in Hi'. rewrite Hi in Hi'. injection Hi' as <-. pose proof (not_draining _ _ _ M ltac:(congruence)) as Hd.
  assert (Hr : resident i = true) by (unfold resident; by rewrite Hst).
  split; [|done]. split; simpl; rewrite ?Hd; try done; [by rewrite (mo_reserved _ _ _ M), Hr|by intros []|by eexists].
Qed.

Lemma unload_inv id force g :
  gw_inv s g -> wp (unload id force) (fun r g' => gw_inv s g' /\
    (force = false -> leased id g = true -> r = false) /\
    (r = true -> leased id g' = false /\ has_live (KModelUnload id) (gw_jobs g') /\
       exists i, gw_instances g' !! id = Some i /\ in_state i = DRAINING /\
         in_drain_reason i = Some drain_manual)) g.
Proof.
  intros I. unfold unload. wp_step. apply wp_rows. intros e inst i He Hin Hi.
  apply wp_if; intros Hr; [by apply wp_ret|]. apply negb_false_iff in Hr.
  wp_step. apply wp_gets. wp_step. apply wp_guard; intros Hg. wp_step.
  eapply wp_mono; [apply wp_and; [by apply release_where_inv|]|].
  { instantiate (1 := fun _ g' => leased id g' = false /\ gw_instances g' = gw_instances g).
    unfold wp, release_where.
    pose proof (release_rows_all (fun l => lease_active l && String.eqb (ml_model_id l) id) "forced_unload"
      (gw_tick g) (gw_leases g) id) as HA.
    destruct (release_rows _ _ _ _) as [ls t]. split; [|done]. apply HA.
    unfold active_on. intros l H. by rewrite andb_comm. }
  intros _ g1 (I1 & Hu & HN). wp_step. apply set_safe; [done| |].
  { intros e' i' Hi' _ M. rewrite HN, Hi in Hi'. injection Hi' as <-. split; [|done].
    split; simpl; try done; [by rewrite (mo_reserved _ _ _ M), Hr|by intros [|[]]]. }
  intros I2. wp_step. eapply wp_mono; [by apply enqueue_inv|]. intros _ g3 (I3 & Hl & HN3 & HL3). apply wp_ret.
  split; [done|]. split.
  - intros -> Hleased. exfalso. unfold leased in Hleased. apply existsb_exists in Hleased as (l & Hl1 & Hl2).
    assert (Hin1 : In l (List.filter (active_on id) (gw_leases g))) by by apply filter_In.
    destruct (List.filter _ _) as [|x xs]; [done|]. by rewrite bool_decide_eq_false_2 in Hg.
  - intros _. unfold leased in *. rewrite HL3. split_and!; [done|done|]. rewrite HN3. simpl.
    rewrite HN, (alter_some _ _ _ _ Hi), lookup_insert_eq. by eexists.
Qed.
End transactions.

Section unloading.
Context {clk : Clock} (s : GatewaySettings).

Lemma unload_begin_inv id g : gw_inv s g -> wp (unload_begin id) (fun _ => gw_inv s) g.
Proof.
  intros I. unfold unload_begin. wp_step. apply wp_rows. intros e inst i He Hin Hi.
  apply wp_if; intros Hst; [done|]. apply negb_false_iff, bool_decide_eq_true in Hst.
  assert (Hr : resident i = true) by (unfold resident; by rewrite Hst).
  wp_step. apply wp_gets. apply wp_if; intros Hc.
  - apply andb_true_iff in Hc as [Hd%bool_decide_eq_true Hl]. wp_step. apply (set_safe s); [done| |intros; by apply wp_ret].
    intros e' i' Hi' _ M. rewrite Hi in Hi'. injection Hi' as <-. split; [|done].
    split; simpl; try done; [by rewrite (mo_reserved _ _ _ M), Hr|by intros []|].
    intros _. apply (mo_endpoint _ _ _ M). auto.
  - wp_step. apply wp_when; intros Hm; [|by apply wp_ret]. apply negb_true_iff, bool_decide_eq_false in Hm.
    apply (set_safe s); [done| |intros; by apply wp_ret].
    intros e' i' Hi' _ M. rewrite Hi in Hi'. injection Hi' as <-. split; [|done].
    split; simpl; try done; [by rewrite (mo_reserved _ _ _ M); unfold resident; simpl; rewrite Hst|
      by rewrite Hst; intros []|].
    intros _. apply (mo_endpoint _ _ _ M). apply (mo_drain _ _ _ M) in Hst as [[] Hd]; auto. by rewrite Hd in Hm.
Qed.

(** How an unload ends for a draining model. *)
Definition unloaded (removed used : bool) (id : string) (g' : Gateway) : Prop :=
  exists i', gw_instances g' !! id = Some i' /\
    if removed && used then in_state i' = LOADING /\ has_live (KModelLoad id) (gw_jobs g')
    else in_state i' = if removed then NOT_LOADED else RUNTIME_ERROR.

Lemma unload_finish_inv id report g :
  gw_inv s g ->
  wp (unload_finish id report) (fun _ g' => gw_inv s g' /\
    forall i, gw_instances g !! id = Some i -> in_state i = DRAINING ->
      unloaded (otruthy (jget "containerRemoved" report)) (leased id g) id g') g.
Proof.
  intros I. unfold unload_finish. set (removed := otruthy _). wp_step. apply wp_rows. intros e inst i He Hin Hi.
  apply wp_when; intros Hst.
  2:{ split; [done|]. intros i' Hi' Hd. apply bool_decide_eq_false in Hst. congruence. }
  apply bool_decide_eq_true in Hst. assert (Hr : resident i = true) by (unfold resident; by rewrite Hst).
  wp_step. apply wp_gets. set (used := leased id g). wp_step. apply wp_modify.
  pose proof (proj1 I) as [_ I2 _ _ _]. destruct (I2 id i Hi) as (e' & He' & M). simplify_eq.
  set (clear_ := fun x : ModelInstance => x <| in_drain_reason := None |> <| in_endpoint := None |>
    <| in_idle_since := None |> <| in_observed := Some report |> <| in_version ::= Z.succ |>).
  (* the second change, on top of the first *)
  assert (Two : forall f g', gw_entries g' = gw_entries g -> gw_installations g' = gw_installations g ->
    gw_instances g' = alter f id (alter clear_ id (gw_instances g)) -> gw_leases g' = gw_leases g ->
    model_ok e (f (clear_ i)) used ->
    gw_inv s g' /\ gw_instances g' !! id = Some (f (clear_ i))).
  { intros f g' HE HI HN HL Hok. split.
    - eapply (gw_inv_alter s g g' id (fun x => f (clear_ x))); try done.
      + rewrite HN. rewrite !(alter_some _ _ _ _ Hi), (alter_some _ _ _ (clear_ i)) by apply lookup_insert_eq.
        apply insert_insert_eq.
      + intros e1 i1 Hi1 He1 _. rewrite Hi in Hi1. rewrite He in He1. injection Hi1 as <-. injection He1 as <-. done.
    - rewrite HN, (alter_some clear_ _ _ _ Hi), (alter_some _ _ _ (clear_ i)) by apply lookup_insert_eq.
      apply lookup_insert_eq. }
  apply wp_if; intros Hc.
  - apply andb_true_iff in Hc as [Hrem Hu]. wp_step. unfold gw_utcnow, wp at 1. wp_step. apply wp_modify.
    unfold enqueue_model_job. wp_step. unfold gw_utcnow, wp at 1. apply wp_modify.
    match goal with |- _ ?x /\ _ => set (g' := x) end.
    destruct (Two (fun i => i <| in_state := LOADING |> <| in_stage := Some "Queued"%string |> <| in_error := None |>
      <| in_reserved_bytes := me_expected_memory_bytes e |>
      <| in_load_started_at := Some (wall (gw_tick g)) |>) g') as [I' Hi']; try done.
    { split; simpl; try done; [by intros []|by intros [|[]]]. }
    split; [done|]. intros _ _ _. eexists. split; [exact Hi'|]. rewrite Hrem, Hu. simpl.
    split; [done|apply enqueue_has_live].
  - wp_step. apply wp_modify. apply wp_modify. match goal with |- _ ?x /\ _ => set (g' := x) end.
    destruct (Two (fun i => i <| in_state := if removed then NOT_LOADED else RUNTIME_ERROR |> <| in_stage := None |>
      <| in_reserved_bytes := 0 |> <| in_error := if removed then None
         else Some (JObj [("code", JStr "UNLOAD_UNVERIFIED"); ("message", JStr "Container still present.")]%string) |>) g')
      as [I' Hi']; try done.
    { split; simpl; destruct removed; simpl; try done; try (by intros []); try (by intros [|[]]). }
    split; [done|]. intros _ _ _. eexists. split; [exact Hi'|]. fold used. by rewrite Hc.
Qed.

Lemma reap_expired_inv locked now g : gw_inv s g -> wp (reap_expired locked now) (fun _ => gw_inv s) g.
Proof.
  intros I. unfold reap_expired. set (expired := fun l : ModelLease => _). wp_step. apply wp_gets. wp_step. apply wp_modify.
  wp_step. apply (wp_mono _ (fun _ => gw_inv s)); [|intros; by apply wp_ret].
  apply wp_for_each; [intros; by apply mark_idle_inv|].
  eapply (gw_inv_same s (g <| gw_leases := _ |> <| gw_tick := gw_tick g |>)); [apply gw_inv_leases; [done|]|done..].
  simpl. apply Forall2_fmap_r, Forall_Forall2_diag, Forall_forall. intros l _.
  unfold compose. destruct (_ && _); [by split_and!|apply carries_refl].
Qed.

Lemma reap_instance_inv now id g : gw_inv s g -> wp (reap_instance s now id) (fun _ => gw_inv s) g.
Proof.
  intros I. unfold reap_instance. wp_step. apply wp_get. destruct (gw_instances g !! id) as [i|] eqn:Hi; [|done].
  apply wp_when; intros Hc; [|done]. apply andb_true_iff in Hc as [Hst%bool_decide_eq_true Hu].
  destruct (in_idle_since i) as [t|]; [|by apply set_innocuous]. apply wp_when; intros _; [|done].
  wp_step. apply (set_safe s); [done| |intros I'; eapply wp_mono; [by apply enqueue_inv|by intros ? ? []]].
  intros e' i' Hi' _ M. rewrite Hi in Hi'. injection Hi' as <-. split; [|unfold resident; by rewrite Hst].
  split; simpl; try done; [by rewrite (mo_reserved _ _ _ M); unfold resident; simpl; rewrite Hst|by intros []|].
  intros _. apply (mo_endpoint _ _ _ M). auto.
Qed.

Lemma reap_crashed_inv id c g : gw_inv s g -> wp (reap_crashed id c) (fun _ => gw_inv s) g.
Proof.
  intros I. unfold reap_crashed. apply wp_when; intros _; [|done]. wp_step. apply wp_rows. intros e inst i He Hin Hi.
  apply wp_when; intros Hst; [|done]. apply bool_decide_eq_true in Hst. wp_step.
  apply (set_safe s); [done| |intros; by apply record_inv].
  intros e' i' Hi' _ M. rewrite Hi in Hi'. injection Hi' as <-.
  pose proof (not_draining _ _ _ M ltac:(congruence)) as Hd.
  split; [|done]. split; simpl; rewrite ?Hd; try done; [by intros []|by intros [|[]]].
Qed.

Lemma or_empty_healthy id o probe : healthy id (or_empty o) probe = Ok true -> truthy (or_empty o) = true.
Proof. unfold healthy. by destruct (truthy (or_empty o)). Qed.

Lemma recover_instance_inv id i c probe g :
  gw_inv s g -> wp (recover_instance s id i c probe) (fun _ => gw_inv s) g.
Proof.
  intros I. unfold recover_instance. apply wp_if; intros Hst; wp_step; apply wp_gets; apply wp_if; intros _; try by apply wp_ret.
  - wp_step. apply (wp_mono _ (fun _ => gw_inv s)).
    { destruct (in_load_started_at i); [|by apply wp_ret]. wp_step. unfold gw_utcnow, wp at 1. apply wp_ret.
      by eapply gw_inv_same. }
    intros young g' I'. apply wp_if; intros _; [by apply wp_ret|].
    destruct (healthy id (or_empty (jget "endpoint" c)) probe) as [ok|x] eqn:Hh.
    + wp_step. apply (wp_mono _ (fun _ => gw_inv s)); [|intros; by apply wp_ret].
      apply wp_if; intros Hc; [|by apply fail_load_inv]. apply andb_true_iff in Hc as [_ ->].
      apply adopt_inv; [done|]. by eapply or_empty_healthy.
    + apply wp_if; intros _; [done|]. wp_step. eapply wp_mono; [by apply fail_load_inv|]. intros; by apply wp_ret.
  - wp_step. eapply wp_mono; [by apply enqueue_inv|]. intros ? ? []. by apply wp_ret.
Qed.

Lemma refresh_inv id st g : gw_inv s g -> wp (refresh_installation id st) (fun _ => gw_inv s) g.
Proof.
  intros [I H]. unfold refresh_installation. wp_step. apply wp_get.
  destruct (gw_installations g !! id) as [x|] eqn:Hx; [|done].
  destruct (reported_state _ _) as [state|]; [|done]. destruct (bytes_done _) as [n|]; [|done].
  assert (HM : forall v t, gw_inv s (g <| gw_tick := t |> <| gw_installations ::= <[id := v]> |>)).
  { intros v t. split; [done|]. simpl. intros k Hk. destruct (H k Hk) as [H1 H2]. split; [|done].
    rewrite lookup_insert. by case_decide. }
  wp_step. destruct (_ && _).
  - wp_step. apply (HM _ _).
  - apply wp_ret. apply (HM _ (gw_tick g)).
Qed.
End unloading.

(** ** The gateway as a system *)

Section system.
Context {clk : Clock} (s : GatewaySettings).

(** One committed transaction of some method, job handler or reaper pass. *)
Inductive gstep : Gateway -> Gateway -> Prop :=
| gs_acquire g id ht hid label ttl manual available lid g' :
    acquire s id ht hid label ttl manual available g = Ok (lid, g') -> gstep g g'
| gs_release g lid reason g' : release lid reason g = Ok (tt, g') -> gstep g g'
| gs_release_holder g ht hid reason n g' : release_holder ht hid reason g = Ok (n, g') -> gstep g g'
| gs_unload g id force r g' : unload id force g = Ok (r, g') -> gstep g g'
| gs_stage g id stage g' : set_stage id stage g = Ok (tt, g') -> gstep g g'
| gs_load_done g id x g' : truthy x = true -> load_done id x g = Ok (tt, g') -> gstep g g'
| gs_fail_load g id f g' : fail_load id f g = Ok (tt, g') -> gstep g g'
| gs_unload_begin g id r g' : unload_begin id g = Ok (r, g') -> gstep g g'
| gs_unload_finish g id report g' : unload_finish id report g = Ok (tt, g') -> gstep g g'
| gs_expired g locked now n g' : reap_expired locked now g = Ok (n, g') -> gstep g g'
| gs_idle g locked now g' : reap_idle s locked now g = Ok (tt, g') -> gstep g g'
| gs_crashed g id c g' : reap_crashed id c g = Ok (tt, g') -> gstep g g'
| gs_recover g id i c probe r g' : recover_instance s id i c probe g = Ok (r, g') -> gstep g g'
| gs_refresh g id files g' : refresh_installation id files g = Ok (tt, g') -> gstep g g'
| gs_other g g' :    (* the jobs table, the audit log, time *)
    gw_entries g' = gw_entries g -> gw_installations g' = gw_installations g ->
    gw_instances g' = gw_instances g -> gw_leases g' = gw_leases g -> gstep g g'.

Lemma reap_idle_inv locked now g : gw_inv s g -> wp (reap_idle s locked now) (fun _ => gw_inv s) g.
Proof.
  intros I. unfold reap_idle. wp_step. apply wp_gets. apply wp_for_each; [|done].
  intros. by apply reap_instance_inv.
Qed.

Lemma gstep_inv g g' : gstep g g' -> gw_inv s g -> gw_inv s g'.
Proof.
  intros Hs I. destruct Hs as [g id ht hid label ttl manual av lid g' H|g lid reason g' H|g ht hid reason n g' H|
    g id force r g' H|g id stage g' H|g id x g' Hx H|g id f g' H|g id r g' H|g id report g' H|g locked now n g' H|
    g locked now g' H|g id c g' H|g id i c probe r g' H|g id st g' H|g g' H1 H2 H3 H4].
  - exact (proj1 (wp_run _ _ _ _ _ (acquire_spec s id ht hid label ttl manual av g I) H)).
  - exact (wp_run _ _ _ _ _ (release_inv s lid reason g I) H).
  - exact (wp_run _ _ _ _ _ (release_holder_inv s ht hid reason g I) H).
  - exact (proj1 (wp_run _ _ _ _ _ (unload_inv s id force g I) H)).
  - exact (wp_run _ _ _ _ _ (set_stage_inv s id stage g I) H).
  - exact (wp_run _ _ _ _ _ (load_done_inv s id x g I Hx) H).
  - exact (wp_run _ _ _ _ _ (fail_load_inv s id f g I) H).
  - exact (wp_run _ _ _ _ _ (unload_begin_inv s id g I) H).
  - exact (proj1 (wp_run _ _ _ _ _ (unload_finish_inv s id report g I) H)).
  - exact (wp_run _ _ _ _ _ (reap_expired_inv s locked now g I) H).
  - exact (wp_run _ _ _ _ _ (reap_idle_inv locked now g I) H).
  - exact (wp_run _ _ _ _ _ (reap_crashed_inv s id c g I) H).
  - exact (wp_run _ _ _ _ _ (recover_instance_inv s id i c probe g I) H).
  - exact (wp_run _ _ _ _ _ (refresh_inv s id st g I) H).
  - by eapply gw_inv_same.
Qed.

(** A freshly synchronised catalog: nothing loaded, nothing leased. *)
Definition fresh_gateway (g : Gateway) : Prop :=
  (forall id e, gw_entries g !! id = Some e -> me_id e = id /\ 0 <= me_expected_memory_bytes e /\
     is_Some (gw_installations g !! id) /\ is_Some (gw_instances g !! id)) /\
  (forall id i, gw_instances g !! id = Some i -> is_Some (gw_entries g !! id) /\
     in_state i = NOT_LOADED /\ in_drain_reason i = None /\ in_reserved_bytes i = 0) /\
  gw_leases g = [].

Definition gw_reachable (g : Gateway) : Prop := exists g0, fresh_gateway g0 /\ rtc gstep g0 g.

Lemma fresh_inv g : fresh_gateway g -> gw_inv s g.
Proof.
  intros (F1 & F2 & F3).
  assert (HN : forall id i, gw_instances g !! id = Some i -> resident i = false /\ reserved_of i = 0).
  { intros id i Hi. destruct (F2 id i Hi) as (_ & Hs & _ & _). unfold reserved_of, resident. by rewrite Hs. }
  split.
  - rewrite F3. split.
    + intros id e He. destruct (F1 id e He) as (H1 & H2 & _). done.
    + intros id i Hi. destruct (F2 id i Hi) as ([e He] & Hs & Hd & Hr). exists e. split; [done|].
      split; unfold resident; rewrite ?Hs, ?Hd, ?Hr; try done. by intros [|[]].
    + constructor.
    + unfold table_total. rewrite (total_ext _ (fun _ => 0)).
      * unfold budget. assert (H0 : forall l : list (string * ModelInstance), total (fun _ => 0) l = 0)
          by (induction l; simpl; lia). rewrite H0. lia.
      * intros [k v] Hin%elem_of_map_to_list. by apply (HN k).
    + intros _ j k ij ik ej ek Hj _ _ _ Rj. by rewrite (proj1 (HN j ij Hj)) in Rj.
  - intros id [e He]. by apply (F1 id e).
Qed.

Lemma gw_reachable_inv g : gw_reachable g -> gw_inv s g.
Proof.
  intros (g0 & F & Hr). pose proof (fresh_inv g0 F) as I. clear F.
  induction Hr as [|g1 g2 g3 H _ IH]; [done|]. apply IH. by eapply gstep_inv.
Qed.
End system.
