(* ===== verification/ModelProps.v ===== *)
(** * What the model gateway guarantees

    The handlers and the reaper as sequences of the transactions of [ModelInv], and the
    properties of model residency in every reachable state: the memory budget, leases,
    loading and unloading. *)

From S2P Require Import Prelude TimeUtil Json Redaction States Jobs RunModel Platform ModelManager ModelInv.
#[local] Open Scope Z_scope.

Section refinement.
Context {clk : Clock} (s : GatewaySettings).
Implicit Types (g : Gateway).

Lemma healthy_truthy id x probe : healthy id x probe = Ok true -> truthy x = true.
Proof. unfold healthy. by destruct (truthy x). Qed.

Lemma poll_ready id known p x known' : poll_verdict id known p = (Some (Ok x), known') -> truthy x = true.
Proof.
  unfold poll_verdict. destruct (container_gone _); [done|].
  match goal with |- context [healthy id ?k _] => set (k0 := k) end.
  destruct (healthy id k0 (po_probe p)) as [[]|] eqn:Hh; [|by destruct (po_late p)|done].
  intros [= <- _]. by eapply healthy_truthy.
Qed.

(** A committed transaction is a step from wherever the method has got to. *)
Lemma step_on {A} (m : GM A) g0 g :
  rtc (gstep s) g0 g -> (forall a g', m g = Ok (a, g') -> gstep s g g') ->
  wp m (fun _ => rtc (gstep s) g0) g.
Proof.
  intros Hr Hs. unfold wp. destruct (m g) as [[a g']|] eqn:E; [|done]. eapply rtc_r; [exact Hr|by eapply Hs].
Qed.

Lemma stage_on id st g0 g : rtc (gstep s) g0 g -> wp (set_stage id st) (fun _ => rtc (gstep s) g0) g.
Proof. intros Hr. apply step_on; [done|]. intros [] g' H. by eapply gs_stage. Qed.
Lemma fail_on id f g0 g : rtc (gstep s) g0 g -> wp (fail_load id f) (fun _ => rtc (gstep s) g0) g.
Proof. intros Hr. apply step_on; [done|]. intros [] g' H. by eapply gs_fail_load. Qed.

Lemma load_polls_on id known polls g0 g :
  rtc (gstep s) g0 g -> wp (load_polls id known polls) (fun _ => rtc (gstep s) g0) g.
Proof.
  revert known g. induction polls as [|p polls IH]; intros known g Hr; [by apply wp_ret|]. cbn [load_polls].
  destruct (poll_verdict id known p) as [[[x|f]|] known'] eqn:Hv.
  - apply step_on; [done|]. intros [] g' H. eapply gs_load_done; [by eapply poll_ready|done].
  - by apply fail_on.
  - wp_step. eapply wp_mono; [by apply (stage_on _ _ g0)|]. intros ? g' Hr'. by apply IH.
Qed.

Lemma handle_load_steps id prepared started polls g :
  wp (handle_load id prepared started polls) (fun _ => rtc (gstep s) g) g.
Proof.
  unfold handle_load. wp_step. apply wp_rows. intros e inst i _ _ _. apply wp_when; intros _; [|by constructor].
  wp_step. eapply wp_mono; [by apply (stage_on _ _ g)|]. intros ? g1 R1. destruct prepared as [x|f]; [|by apply fail_on].
  wp_step. eapply wp_mono; [by apply (stage_on _ _ g)|]. intros ? g2 R2. destruct started as [st|f]; [|by apply fail_on].
  wp_step. eapply wp_mono; [by apply (stage_on _ _ g)|]. intros ? g3 R3. by apply load_polls_on.
Qed.

Lemma handle_unload_steps id report g : wp (handle_unload id report) (fun _ => rtc (gstep s) g) g.
Proof.
  unfold handle_unload. wp_step. eapply wp_mono; [apply step_on; [by constructor|intros; by eapply gs_unload_begin]|].
  intros [m|] g1 R1; [|by apply wp_ret]. apply step_on; [done|]. intros [] g' H. by eapply gs_unload_finish.
Qed.

Lemma manual_load_steps id actor available g :
  wp (manual_load s id actor available) (fun _ => rtc (gstep s) g) g.
Proof.
  unfold manual_load. wp_step. eapply wp_mono; [apply step_on; [by constructor|intros; by eapply gs_acquire]|].
  intros ? g1 R1. wp_step. eapply wp_mono; [apply (step_on _ g); [done|intros; by eapply gs_release_holder]|].
  intros; by apply wp_ret.
Qed.

Lemma install_steps id files g : wp (install id files) (fun _ => rtc (gstep s) g) g.
Proof.
  unfold install. wp_step. apply wp_rows. intros e i n _ _ _. wp_step. apply wp_guard; intros _.
  apply step_on; [by constructor|]. intros [] g'. apply gs_refresh.
Qed.

(** Files are only deleted while the model is not resident. *)
Lemma delete_files_steps id files g :
  wp (delete_files id files) (fun _ g' => rtc (gstep s) g g' /\
    exists i, gw_instances g !! id = Some i /\ resident i = false) g.
Proof.
  unfold delete_files. wp_step. apply wp_rows. intros e i n _ _ Hn. wp_step. apply wp_guard; intros Hr.
  eapply wp_mono; [apply (step_on _ g); [by constructor|intros [] g'; apply gs_refresh]|].
  intros ? g' R. split; [done|]. exists n. split; [done|]. by apply negb_true_iff in Hr.
Qed.

(** *** Passes *)

Definition passes {A} (r : Pass A) : Prop := forall g, rtc (gstep s) g (r g).2.

Lemma passes_done {A} (a : A) : passes (done_ a).
Proof. intros g. constructor. Qed.
Lemma passes_commit {A} (m : GM A) : (forall g, wp m (fun _ => rtc (gstep s) g) g) -> passes (commit m).
Proof. intros Hm g. specialize (Hm g). unfold commit, wp in *. destruct (m g) as [[]|]; [done|constructor]. Qed.
Lemma passes_then {A B} (r : Pass A) (k : A -> Pass B) :
  passes r -> (forall a, passes (k a)) -> passes (and_then r k).
Proof.
  intros Hr Hk g. specialize (Hr g). unfold and_then. destruct (r g) as [[a|e] g']; [|done].
  etrans; [exact Hr|apply Hk].
Qed.
Lemma passes_each {A} (xs : list A) body : (forall x, passes (body x)) -> passes (each xs body).
Proof. intros Hb. induction xs as [|x xs IH]; [apply passes_done|]. by apply passes_then. Qed.

Lemma one_step {A} (m : GM A) g : (forall a g', m g = Ok (a, g') -> gstep s g g') -> wp m (fun _ => rtc (gstep s) g) g.
Proof. intros H. apply step_on; [constructor|done]. Qed.
Lemma one_step_ret {A} (m : GM A) g :
  (forall a g', m g = Ok (a, g') -> gstep s g g') -> wp (m ;; ret tt) (fun _ => rtc (gstep s) g) g.
Proof. intros H. wp_step. eapply wp_mono; [by apply one_step|]. intros; by apply wp_ret. Qed.

Lemma reap_steps active ll li container probe : passes (reap s active ll li container probe).
Proof.
  unfold reap. apply passes_then.
  { apply passes_commit. intros g. apply one_step. intros a g' [= _ <-]. by apply gs_other. }
  intros now. apply passes_then.
  { apply passes_commit. intros g. apply one_step. intros. by eapply gs_expired. }
  intros _. apply passes_then.
  { destruct active as [f|]; [|apply passes_done]. intros g. unfold reap_runs.
    refine (passes_each _ _ _ g). intros l. destruct (f (ml_holder_id l)); [apply passes_done|].
    apply passes_commit. intros g1. apply one_step_ret. intros. by eapply gs_release_holder. }
  intros _. apply passes_then.
  { apply passes_commit. intros g. apply one_step. intros [] g' H. by eapply gs_idle. }
  intros _. apply passes_then.
  { intros g. refine (passes_each _ _ _ g). intros m. apply passes_commit. intros g1. apply one_step.
    intros [] g' H. by eapply gs_crashed. }
  intros _. apply passes_then.
  { intros g. unfold recover_stuck. refine (passes_each _ _ _ g). intros kv. apply passes_commit. intros g1.
    apply one_step_ret. intros. by eapply gs_recover. }
  intros _. apply passes_commit. intros g. constructor.
Qed.

End refinement.

Section guarantees.
Context {clk : Clock} (s : GatewaySettings).
Implicit Types (g : Gateway).

Lemma memory_table g : memory_reserved g = table_total reserved_of (gw_instances g).
Proof. done. Qed.

(** C33: The memory budget holds in every reachable state: what resident models have
    reserved, each its catalog estimate, never exceeds the serving limit less the safety
    margin, models that are not resident reserve nothing, and under the one-model policy
    at most one generative model is resident. *)
Theorem memory_budget g :
  gw_reachable s g ->
  memory_reserved g <= Z.max 0 (max_serving_bytes s - load_safety_margin_bytes s) /\
  (forall id i, gw_instances g !! id = Some i -> exists e, gw_entries g !! id = Some e /\
     in_reserved_bytes i = if resident i then me_expected_memory_bytes e else 0) /\
  (one_generative_model s = true -> forall j k ij ik ej ek,
     gw_instances g !! j = Some ij -> gw_instances g !! k = Some ik ->
     gw_entries g !! j = Some ej -> gw_entries g !! k = Some ek ->
     resident ij = true -> resident ik = true ->
     is_generative (me_capabilities ej) = true -> is_generative (me_capabilities ek) = true -> j = k).
Proof.
  intros [[I1 I2 I3 I4 I5] _]%gw_reachable_inv. rewrite memory_table. split_and!; [done| |done].
  intros id i Hi. destruct (I2 id i Hi) as (e & He & M). exists e. split; [done|]. apply M.
Qed.

Lemma held_unique ls (l1 l2 : ModelLease) i j :
  NoDup (omap holder ls) -> ls !! i = Some l1 -> ls !! j = Some l2 -> is_Some (holder l1) ->
  holder l1 = holder l2 -> i = j.
Proof.
  revert i j. induction ls as [|l ls IH]; intros i j Hnd Hi Hj [h Hh] He; [done|]. csimpl in Hnd.
  assert (Hin : forall x k, ls !! k = Some x -> holder x = Some h -> h ∈ omap holder ls).
  { intros x k Hk Hx. apply list_elem_of_omap. exists x. split; [by eapply list_elem_of_lookup_2|done]. }
  destruct i as [|i], j as [|j]; simpl in *; simplify_eq; try done.
  - rewrite Hh in Hnd. apply NoDup_cons in Hnd as [Hn _]. destruct Hn. apply (Hin l2 j); congruence.
  - rewrite <- He, Hh in Hnd. apply NoDup_cons in Hnd as [Hn _]. destruct Hn. by apply (Hin l1 i).
  - f_equal. apply (IH i j); try done. destruct (holder l); [by apply NoDup_cons in Hnd as [_ ?]|done].
Qed.

(** C34: A lease protects its model: in every reachable state a model with an active lease is
    not NOT_LOADED and not in a manual drain, each holder has at most one active lease on a
    model, and whoever waits for a READY model is answered with its endpoint at once. *)
Theorem lease_protects g id i :
  gw_reachable s g -> gw_instances g !! id = Some i ->
  (leased id g = true -> in_state i <> NOT_LOADED /\ in_drain_reason i <> Some drain_manual) /\
  (forall a b la lb, gw_leases g !! a = Some la -> gw_leases g !! b = Some lb ->
     lease_active la = true -> lease_active lb = true ->
     (ml_model_id la, ml_holder_type la, ml_holder_id la) = (ml_model_id lb, ml_holder_type lb, ml_holder_id lb) ->
     a = b) /\
  (in_state i = READY -> exists e, in_endpoint i = Some e /\
     forall ip late rest, wait_ready ip id ((i, late) :: rest) = Some (endpoint ip id e)).
Proof.
  intros [[I1 I2 I3 I4 I5] _]%gw_reachable_inv Hi. destruct (I2 id i Hi) as (e & He & [M1 M2 M3 M4]). split_and!.
  - intros Hl. change (has_lease id (gw_leases g)) with (leased id g) in M3. rewrite Hl in M3.
    split; intros H; by (discriminate M3; auto).
  - intros a b la lb Ha Hb Aa Ab Heq. eapply held_unique; [exact I3|exact Ha|exact Hb| |]; unfold holder;
      rewrite ?Aa, ?Ab; [done|by f_equal].
  - intros Hr. destruct M4 as (x & Hx & Ht); [by left|]. exists x. split; [done|]. intros ip late rest. simpl.
    unfold ready_verdict. by rewrite Hr, Hx, Ht.
Qed.

(** Acquiring a model.  On success the holder has an active lease with the requested
    expiry, the model is resident and no longer about to be unloaded, and no other model
    changed; if it was not resident, then a load is queued and it was admitted: its
    estimate fits next to everything reserved, the device has the memory free on top of
    the system reserve, and the one-model policy holds. *)
Theorem acquire_correct id ht hid label ttl manual available g lid g' :
  gw_reachable s g -> acquire s id ht hid label ttl manual available g = Ok (lid, g') ->
  (exists l, l ∈ gw_leases g' /\ ml_id l = lid /\ held_by id ht hid l = true /\
     ml_expires_at l = wall (gw_tick g) + seconds ttl) /\
  exists e i i', gw_entries g !! id = Some e /\ gw_instances g !! id = Some i /\
    gw_instances g' !! id = Some i' /\ resident i' = true /\
    (forall m, m <> id -> gw_instances g' !! m = gw_instances g !! m) /\
    in_drain_reason i' <> Some drain_idle /\ in_drain_reason i' <> Some drain_manual /\
    (resident i = false -> in_state i' = LOADING /\ has_live (KModelLoad id) (gw_jobs g') /\
       total (fun r => in_reserved_bytes r.1.2) (others id g) + me_expected_memory_bytes e
         + load_safety_margin_bytes s <= max_serving_bytes s /\
       me_expected_memory_bytes e + load_safety_margin_bytes s + system_reserve_bytes s <= available /\
       (one_generative_model s = true -> is_generative (me_capabilities e) = true ->
          forall r, r ∈ others id g -> is_generative r.2 = false)).
Proof.
  intros I%gw_reachable_inv Ha.
  destruct (wp_run _ _ _ _ _ (acquire_spec s id ht hid label ttl manual available g I) Ha)
    as (_ & HL & e & i & i' & He & Hi & Hi' & Hr & Ho & Hd1 & Hd2 & Hload). split; [done|].
  exists e, i, i'. split_and!; try done. intros Hri. destruct (Hload Hri) as (H1 & (A1 & A2 & A3) & H2).
  pose proof (proj1 I) as [I1 _ _ _ _]. destruct (I1 id e He) as [Hid _]. rewrite Hid in A1, A3. by split_and!.
Qed.
End guarantees.

(** ** Handlers *)

Section handlers.
Context {clk : Clock} (s : GatewaySettings).
Implicit Types (g : Gateway).

(** The three rows of a model are there. *)
Definition has_rows (id : string) (i : ModelInstance) (g : Gateway) : Prop :=
  is_Some (gw_entries g !! id) /\ is_Some (gw_installations g !! id) /\ gw_instances g !! id = Some i.

Lemma reachable_rows g id i : gw_reachable s g -> gw_instances g !! id = Some i -> has_rows id i g.
Proof.
  intros [I H]%gw_reachable_inv Hi. destruct (io_model _ _ _ _ I id i Hi) as (e & He & _).
  split_and!; [by exists e| |done]. apply H. by exists e.
Qed.

Lemma rows_total id i g : has_rows id i g -> exists e x, rows id g = Ok ((e, x, i), g).
Proof.
  intros ([e He] & [x Hx] & Hi). exists e, x. unfold rows, bind, get. by rewrite He, Hx, Hi.
Qed.

Lemma has_rows_alter id i f g g' :
  has_rows id i g -> gw_entries g' = gw_entries g -> gw_installations g' = gw_installations g ->
  gw_instances g' = alter f id (gw_instances g) -> has_rows id (f i) g'.
Proof.
  intros (H1 & H2 & H3) HE HI HN. unfold has_rows. by rewrite HE, HI, HN, lookup_alter_eq, H3.
Qed.

(** How the second half of an unload ends. *)
Definition stopped (removed used : bool) (i' : ModelInstance) (q : JobQueue) (id : string) : Prop :=
  if removed && used then in_state i' = LOADING /\ has_live (KModelLoad id) q
  else in_state i' = (if removed then NOT_LOADED else RUNTIME_ERROR) /\ in_reserved_bytes i' = 0.

Lemma unload_finish_total id report i g :
  has_rows id i g -> in_state i = DRAINING ->
  exists g' i', unload_finish id report g = Ok (tt, g') /\ gw_instances g' !! id = Some i' /\
    leased id g' = leased id g /\
    stopped (otruthy (jget "containerRemoved" report)) (leased id g) i' (gw_jobs g') id.
Proof.
  intros H0 Hst. destruct (rows_total id i g H0) as (e & x & Hrows). destruct H0 as (_ & _ & Hi).
  unfold unload_finish, bind at 1. rewrite Hrows. cbv beta iota. rewrite (bool_decide_eq_true_2 _ Hst).
  unfold when, bind at 1, gets, bind at 1, set_instance at 1, modify at 1. unfold stopped.
  destruct (otruthy (jget "containerRemoved" report) && leased id g) eqn:Hc.
  - unfold enqueue_model_job, set_instance, bind, gw_utcnow, modify. eexists _, _. split; [done|]. simpl.
    rewrite !lookup_alter_eq, Hi. simpl. split_and!; try done. apply enqueue_has_live.
  - unfold set_instance, gw_record, bind, modify. eexists _, _. split; [done|]. simpl.
    rewrite !lookup_alter_eq, Hi. simpl. split_and!; try done.
Qed.

Lemma unload_begin_total id i g :
  has_rows id i g -> in_state i = DRAINING ->
  exists r g1 i1, unload_begin id g = Ok (r, g1) /\ has_rows id i1 g1 /\ leased id g1 = leased id g /\
    in_endpoint i1 = in_endpoint i /\
    if bool_decide (in_drain_reason i = Some drain_idle) && leased id g then r = None /\ in_state i1 = READY
    else is_Some r /\ in_state i1 = DRAINING.
Proof.
  intros H0 Hst. destruct (rows_total id i g H0) as (e & x & Hrows).
  unfold unload_begin, bind at 1. rewrite Hrows. cbv beta iota. rewrite (bool_decide_eq_true_2 _ Hst). cbn [negb].
  unfold gets, bind at 1. destruct (bool_decide (in_drain_reason i = Some drain_idle) && leased id g).
  - unfold set_instance, bind, modify, ret. eexists _, _, _. split; [done|].
    split; [by eapply (has_rows_alter id i)|done].
  - destruct (bool_decide (in_drain_reason i = Some drain_manual)); unfold set_instance, when, bind, modify, ret.
    + eexists _, _, _. split; [done|]. split; [done|]. split_and!; try done; by eexists.
    + eexists _, _, _. split; [done|]. split; [by eapply (has_rows_alter id i)|]. split_and!; try done; by eexists.
Qed.

(** An unload always ends, and never strands a lease.  Run on a draining model, the
    handler commits; an idle drain that meets a new lease is called off and the model is
    READY again with its endpoint; if a lease is there once the container is gone, the
    model is queued to load again; otherwise a verified stop leaves it NOT_LOADED and an
    unverified one RUNTIME_ERROR, with the reservation given back. *)
Theorem unload_never_strands id report i g :
  gw_reachable s g -> gw_instances g !! id = Some i -> in_state i = DRAINING ->
  let removed := otruthy (jget "containerRemoved" report) in
  exists g' i', handle_unload id report g = Ok (tt, g') /\ gw_instances g' !! id = Some i' /\
    leased id g' = leased id g /\
    if leased id g then
      if bool_decide (in_drain_reason i = Some drain_idle) then in_state i' = READY /\ in_endpoint i' = in_endpoint i
      else if removed then in_state i' = LOADING /\ has_live (KModelLoad id) (gw_jobs g')
      else in_state i' = RUNTIME_ERROR /\ in_reserved_bytes i' = 0
    else in_state i' = (if removed then NOT_LOADED else RUNTIME_ERROR) /\ in_reserved_bytes i' = 0.
Proof.
  intros HR Hi Hst removed. pose proof (reachable_rows g id i HR Hi) as H0.
  destruct (unload_begin_total id i g H0 Hst) as (r & g1 & i1 & Hb & H1 & HL & He & Hcase).
  unfold handle_unload, bind. rewrite Hb.
  destruct (bool_decide (in_drain_reason i = Some drain_idle) && leased id g) eqn:Hc.
  - destruct Hcase as [-> Hs1]. apply andb_true_iff in Hc as [Hd Hl]. exists g1, i1. rewrite Hd, Hl in *.
    destruct H1 as (_ & _ & H1). done.
  - destruct Hcase as [[m ->] Hs1]. destruct (unload_finish_total id report i1 g1 H1 Hs1) as (g' & i' & Hf & Hi' & HL' & Hstop).
    exists g', i'. rewrite HL', HL in *. fold removed in Hstop. unfold stopped in Hstop. split_and!; try done.
    destruct (leased id g); [|by rewrite andb_false_r in Hstop].
    rewrite andb_true_r in Hc, Hstop. rewrite Hc. destruct removed; done.
Qed.

(** The first verdict of the polls. *)
Fixpoint load_outcome (id : string) (known : Json) (polls : list Poll) : option (Result LoadFailure Json) :=
  match polls with
  | [] => None
  | p :: rest => match poll_verdict id known p with
                 | (Some v, _) => Some v
                 | (None, known) => load_outcome id known rest
                 end
  end.

Definition load_verdict (id : string) (prepared started : Result LoadFailure Json) (polls : list Poll)
    : option (Result LoadFailure Json) :=
  match prepared, started with
  | Err f, _ => Some (Err f)
  | _, Err f => Some (Err f)
  | Ok _, Ok state => load_outcome id (or_empty (jget "endpoint" (or_empty (jget "container" state)))) polls
  end.

(** The instance after a load that reached a verdict. *)
Definition settled_load (id : string) (v : Result LoadFailure Json) (used : bool) (g' : Gateway) : Prop :=
  exists i', gw_instances g' !! id = Some i' /\
    match v with
    | Ok x => in_state i' = READY /\ in_endpoint i' = Some x /\ (is_Some (in_idle_since i') <-> used = false)
    | Err f => in_state i' = LOAD_ERROR /\ in_reserved_bytes i' = 0 /\ in_endpoint i' = None /\
        exists err, in_error i' = Some err /\ jget "code" err = Some (JStr (lf_code f))
    end.

Definition loading (id : string) (g : Gateway) : Prop := exists i, has_rows id i g /\ in_state i = LOADING.

Lemma set_stage_total id st g :
  loading id g -> exists g', set_stage id st g = Ok (tt, g') /\ loading id g' /\ leased id g' = leased id g.
Proof.
  intros (i & H0 & Hst). eexists. split; [done|]. split; [|done]. eexists.
  split; [by eapply (has_rows_alter id i)|done].
Qed.

Lemma fail_load_total id f g :
  loading id g -> exists g', fail_load id f g = Ok (tt, g') /\ settled_load id (Err f) (leased id g) g'.
Proof.
  intros (i & H0 & Hst). destruct (rows_total id i g H0) as (e & x & Hrows). destruct H0 as (_ & _ & Hi).
  unfold fail_load, bind at 1. rewrite Hrows. cbv beta iota. rewrite (bool_decide_eq_true_2 _ Hst).
  unfold when, set_instance, gw_record, bind, modify. eexists. split; [done|]. eexists. simpl.
  rewrite lookup_alter_eq, Hi. split; [done|]. split_and!; try done. by eexists.
Qed.

Lemma load_done_total id y g :
  loading id g -> exists g', load_done id y g = Ok (tt, g') /\ settled_load id (Ok y) (leased id g) g'.
Proof.
  intros (i & H0 & Hst). destruct (rows_total id i g H0) as (e & x & Hrows). destruct H0 as (_ & _ & Hi).
  unfold load_done, bind at 1. rewrite Hrows. cbv beta iota. rewrite (bool_decide_eq_true_2 _ Hst).
  unfold when, bind, gets, gw_utcnow. destruct (leased id g) eqn:Hl; unfold ret, set_instance, modify;
    (eexists; split; [done|]); eexists; simpl; rewrite lookup_alter_eq, Hi; (split; [done|]); split_and!; try done.
  split; [by intros []|done].
Qed.

Lemma load_polls_total id known polls v g :
  loading id g -> load_outcome id known polls = Some v ->
  exists g', load_polls id known polls g = Ok (tt, g') /\ settled_load id v (leased id g) g'.
Proof.
  revert known g. induction polls as [|p polls IH]; intros known g HL; cbn [load_outcome load_polls]; [done|].
  destruct (poll_verdict id known p) as [[[x|f]|] known'] eqn:Hv.
  - intros [= <-]. by apply load_done_total.
  - intros [= <-]. by apply fail_load_total.
  - intros Ho. destruct (set_stage_total id "Health check" g HL) as (g1 & E & HL1 & Hu). unfold bind. rewrite E.
    rewrite <- Hu. by apply IH.
Qed.


(** The reaper unloads only idle models: it starts an idle drain (and queues the unload)
    exactly for a READY model without an active lease that has been idle for the
    configured time; a READY model that just became unused gets its idle clock started;
    every other model, in particular every leased one, is left untouched. *)
Theorem reap_only_idle now id i g :
  gw_instances g !! id = Some i ->
  exists g' i', reap_instance s now id g = Ok (tt, g') /\ gw_instances g' = <[id := i']> (gw_instances g) /\
    gw_leases g' = gw_leases g /\
    match in_state i, leased id g, in_idle_since i with
    | READY, false, None => i' = i <| in_idle_since := Some now |>
    | READY, false, Some t =>
        if seconds (idle_unload_seconds s) <=? now - t then
          in_state i' = DRAINING /\ in_drain_reason i' = Some drain_idle /\
          has_live (KModelUnload id) (gw_jobs g')
        else i' = i
    | _, _, _ => i' = i
    end.
Proof.
  intros Hi. unfold reap_instance, bind at 1, get. rewrite Hi.
  assert (Same : exists g' i', ret (E := PlatformError) tt g = Ok (tt, g') /\ gw_instances g' = <[id := i']> (gw_instances g) /\
    gw_leases g' = gw_leases g /\ i' = i).
  { exists g, i. split_and!; try done. by rewrite insert_id. }
  destruct (in_state i) eqn:Hst; simpl; try exact Same.
  destruct (leased id g); simpl; [exact Same|]. destruct (in_idle_since i) as [t|].
  - destruct (_ <=? _); simpl; [|exact Same].
    unfold enqueue_model_job, set_instance, bind, gw_utcnow, modify. eexists _, _. split; [done|]. simpl.
    split; [by apply alter_some|]. split_and!; try done. apply enqueue_has_live.
  - eexists _, _. split; [done|]. simpl. split; [by apply alter_some|done].
Qed.
End handlers.
