(* ===== verification/LlmIdempotency.v ===== *)
(** * Idempotent LLM calls ([model_gateway/idempotency.py])

    The in-process store that lets keyed [/llm/chat] requests be retried without a second
    billed call.  The event loop switches tasks only at an [await], so each method is cut
    there: [run_begin] up to the provider call (or to the wait for somebody else's), then
    [run_end] when the call is over, [join] when a waiter wakes up; [stream_begin] and
    [stream_end] are the two halves of [claim_stream].  The dict holds references to entry
    objects ([_forget] compares identities): [ids_order] maps keys to entry numbers and
    [ids_heap] holds the entries. *)

From S2P Require Import Prelude Json JsonText.
#[local] Open Scope Z_scope.

Abbreviation Key := (string * string * string)%type (only parsing).

Definition MAX_KEY_LENGTH : nat := 200.
Definition IGNORED_FIELDS : list string := ["idempotencyKey"; "stream"; "holder"]%string.

(** [None]: the request carries no key. *)
Definition request_key (holder_type holder_id : string) (body : Json) : Result PlatformError (option Key) :=
  match jget "idempotencyKey" body with
  | None | Some JNull => Ok None
  | Some (JStr raw) =>
      if String.eqb raw "" then Ok None
      else if (MAX_KEY_LENGTH <? String.length raw)%nat then Err (invalid "INVALID_REQUEST" [])
      else Ok (Some (holder_type, holder_id, raw))
  | Some _ => Err (invalid "INVALID_REQUEST" [])
  end.

(** What a future holds once it is done. *)
Inductive Settled :=
| FResult (r : Json)
| FError (e : PlatformError)
| FCancelled.

Record Entry := mkIdEntry {
  en_fingerprint : string;
  en_streaming : bool;
  en_future : option Settled;
  en_expires : option Z;
  en_stale_after : option Z;
  en_waiters : Z
}.

#[export] Instance eta_Entry : Eta Entry := fun r =>
  mkIdEntry (en_fingerprint r) (en_streaming r) (en_future r) (en_expires r) (en_stale_after r) (en_waiters r).

Record IdempotencyStore := mkIdStore {
  ids_order : list (Key * nat);      (* the OrderedDict *)
  ids_heap : gmap nat Entry;
  ids_next : nat
}.

#[export] Instance eta_IdStore : Eta IdempotencyStore := fun r =>
  mkIdStore (ids_order r) (ids_heap r) (ids_next r).

Definition empty_store : IdempotencyStore := mkIdStore [] ∅ 0.

Section store.
Context {dig : Digest} (ttl max_entries : Z).

Definition fingerprint (body : Json) : string :=
  sha256_hex (json_dumps "," ":" true
    (match body with
     | JObj o => JObj (List.filter (fun kv => negb (bool_decide (kv.1 ∈ IGNORED_FIELDS))) o)
     | v => v
     end)).

Definition REQUEST_IN_PROGRESS : PlatformError := mkError "REQUEST_IN_PROGRESS" 409 [].
Definition NOT_COMPLETED : PlatformError := mkError "MODEL_UNAVAILABLE" 503 [].

(** ** The dict *)

Definition passed (t : option Z) (now : Z) : bool := match t with Some t => t <=? now | None => false end.

Definition entry_at (s : IdempotencyStore) (kv : Key * nat) : option Entry := ids_heap s !! kv.2.

Definition dead (s : IdempotencyStore) (now : Z) (kv : Key * nat) : bool :=
  match entry_at s kv with
  | Some e => passed (en_expires e) now || passed (en_stale_after e) now
  | None => false
  end.

Definition evict (now : Z) (s : IdempotencyStore) : IdempotencyStore :=
  s <| ids_order ::= List.filter (fun kv => negb (dead s now kv)) |>.

Definition completed (s : IdempotencyStore) (kv : Key * nat) : bool :=
  match entry_at s kv with Some e => bool_decide (is_Some (en_expires e)) | None => false end.

(** [while len >= max_entries and completed: del entries[completed.pop(0)]] *)
Fixpoint make_room (excess : nat) (s : IdempotencyStore) (order : list (Key * nat)) : list (Key * nat) :=
  match excess, order with
  | O, _ => order
  | _, [] => []
  | S n, kv :: rest => if completed s kv then make_room n s rest else kv :: make_room excess s rest
  end.

Definition capacity : nat := Z.to_nat (Z.max 1 max_entries).

(** [_add] of a key that is not in the dict. *)
Definition add (key : Key) (e : Entry) (s : IdempotencyStore) : nat * IdempotencyStore :=
  let id := ids_next s in
  let order := make_room (S (length (ids_order s)) - capacity) s (ids_order s) in
  (id, mkIdStore (order ++ [(key, id)]) (<[id := e]> (ids_heap s)) (S id)).

Definition lookup_key (key : Key) (s : IdempotencyStore) : option nat :=
  snd <$> List.find (fun kv => bool_decide (kv.1 = key)) (ids_order s).

(** [_forget]: only if the dict still holds this very entry. *)
Definition forget (key : Key) (id : nat) (s : IdempotencyStore) : IdempotencyStore :=
  s <| ids_order ::= List.filter (fun kv => negb (bool_decide (kv = (key, id)))) |>.

Definition set_entry (id : nat) (f : Entry -> Entry) (s : IdempotencyStore) : IdempotencyStore :=
  s <| ids_heap ::= alter f id |>.

(** ** [run] *)

Definition existing (key : Key) (print_ : string) (now : Z) (s : IdempotencyStore)
    : Result PlatformError (option nat) * IdempotencyStore :=
  let s := evict now s in
  (match lookup_key key s with
   | None => Ok None
   | Some id =>
       match ids_heap s !! id with
       | None => Ok None
       | Some e => if negb (String.eqb (en_fingerprint e) print_) then Err (invalid "INVALID_REQUEST" [])
                   else if en_streaming e then Err REQUEST_IN_PROGRESS
                   else Ok (Some id)
       end
   end, s).

Inductive Started := Joined (id : nat) | Calling (id : nat).

Definition run_begin (key : Key) (body : Json) (now : Z) (s : IdempotencyStore)
    : Result PlatformError Started * IdempotencyStore :=
  match existing key (fingerprint body) now s with
  | (Err e, s) => (Err e, s)
  | (Ok (Some id), s) => (Ok (Joined id), set_entry id (fun e => e <| en_waiters ::= Z.succ |>) s)
  | (Ok None, s) =>
      let '(id, s) := add key (mkIdEntry (fingerprint body) false None None None 0) s in
      (Ok (Calling id), s)
  end.

(** How the provider call ended: a result, a final (billed) error, an error before any
    result, or anything else (cancelled, a bug). *)
Inductive CallEnd :=
| EndResult (r : Json)
| EndFinal (e : PlatformError)
| EndError (e : PlatformError)
| EndBroken.

(** What the future is settled with, and so what the waiters are told. *)
Definition settled_with (o : CallEnd) : Settled :=
  match o with
  | EndResult r => FResult r
  | EndFinal e | EndError e => FError e
  | EndBroken => FError NOT_COMPLETED
  end.

Definition stored (o : CallEnd) : bool :=
  match o with EndResult _ | EndFinal _ => true | _ => false end.

Definition run_end (key : Key) (id : nat) (o : CallEnd) (now : Z) (s : IdempotencyStore) : IdempotencyStore :=
  let settle e := e <| en_future := Some (settled_with o) |> in
  if stored o then set_entry id (fun e => settle (e <| en_expires := Some (now + ttl) |>)) s
  else set_entry id settle (forget key id s).

(** [await asyncio.shield(entry.future)] of a waiter: [None] while the future is pending. *)
Definition told (f : Settled) : Result PlatformError Json :=
  match f with FResult r => Ok r | FError e => Err e | FCancelled => Err (mkError "CANCELLED" 500 []) end.

Definition leave (id : nat) (s : IdempotencyStore) : IdempotencyStore :=
  set_entry id (fun e => e <| en_waiters ::= Z.pred |>) s.

Definition join (id : nat) (s : IdempotencyStore) : option (Result PlatformError Json * IdempotencyStore) :=
  e ← ids_heap s !! id; f ← en_future e; Some (told f, leave id s).

(** ** [claim_stream] *)

(** [Ok (Some id)]: the stream holds the key; [Ok None]: it runs without holding it. *)
Definition stream_begin (key : Key) (body : Json) (now now' : Z) (s : IdempotencyStore)
    : Result PlatformError (option nat) * IdempotencyStore :=
  let s := evict now s in
  match lookup_key key s ≫= (fun id => ids_heap s !! id) with
  | Some e => (if bool_decide (is_Some (en_expires e)) then Ok None else Err REQUEST_IN_PROGRESS, s)
  | None =>
      let '(id, s) := add key (mkIdEntry (fingerprint body) true None None (Some (now' + ttl)) 0) s in
      (Ok (Some id), s)
  end.

Definition stream_end (key : Key) (id : nat) (s : IdempotencyStore) : IdempotencyStore :=
  set_entry id (fun e => if bool_decide (is_Some (en_future e)) then e
                         else e <| en_future := Some FCancelled |>) (forget key id s).
End store.

(** ** The requests of a gateway process *)

Inductive Task :=
| Owner (key : Key) (body : Json) (id : nat)                       (* its provider call is running *)
| OwnerDone (key : Key) (body : Json) (id : nat) (o : CallEnd)
| Waiter (key : Key) (body : Json) (id : nat)                      (* waits for the owner of [id] *)
| WaiterDone (key : Key) (body : Json) (id : nat) (r : Result PlatformError Json)
| Streaming (key : Key) (id : option nat)
| Gone.                                                            (* refused, cancelled or finished *)

Record Process := mkProcess {
  pr_store : IdempotencyStore;
  pr_tasks : gmap nat Task
}.

Section process.
Context {dig : Digest} (ttl max_entries : Z).

Definition run_task (key : Key) (body : Json) (r : Result PlatformError Started) : Task :=
  match r with
  | Ok (Calling id) => Owner key body id
  | Ok (Joined id) => Waiter key body id
  | Err _ => Gone
  end.

Definition stream_task (key : Key) (r : Result PlatformError (option nat)) : Task :=
  match r with Ok o => Streaming key o | Err _ => Gone end.

(** One switch of the event loop; the readings of the monotonic clock are arbitrary. *)
Inductive pstep : Process -> Process -> Prop :=
| ps_run s ts t key body now r s' :
    ts !! t = None -> run_begin max_entries key body now s = (r, s') ->
    pstep (mkProcess s ts) (mkProcess s' (<[t := run_task key body r]> ts))
| ps_end s ts t key body id o now :
    ts !! t = Some (Owner key body id) ->
    pstep (mkProcess s ts) (mkProcess (run_end ttl key id o now s) (<[t := OwnerDone key body id o]> ts))
| ps_join s ts t key body id r s' :
    ts !! t = Some (Waiter key body id) -> join id s = Some (r, s') ->
    pstep (mkProcess s ts) (mkProcess s' (<[t := WaiterDone key body id r]> ts))
| ps_leave s ts t key body id :
    ts !! t = Some (Waiter key body id) ->
    pstep (mkProcess s ts) (mkProcess (leave id s) (<[t := Gone]> ts))
| ps_stream s ts t key body now now' r s' :
    ts !! t = None -> stream_begin ttl max_entries key body now now' s = (r, s') ->
    pstep (mkProcess s ts) (mkProcess s' (<[t := stream_task key r]> ts))
| ps_stream_end s ts t key id :
    ts !! t = Some (Streaming key (Some id)) ->
    pstep (mkProcess s ts) (mkProcess (stream_end key id s) (<[t := Gone]> ts)).

Definition preach (p : Process) : Prop := rtc pstep (mkProcess empty_store ∅) p.

(** *** The invariant *)

Definition owner_task (key : Key) (id : nat) (x : Task) : Prop :=
  match x with
  | Owner k _ i | OwnerDone k _ i _ => k = key /\ i = id
  | _ => False
  end.

Definition task_id (x : Task) : option nat :=
  match x with
  | Owner _ _ i | OwnerDone _ _ i _ | Waiter _ _ i | WaiterDone _ _ i _ | Streaming _ (Some i) => Some i
  | _ => None
  end.

(** What a task may rely on. *)
Definition task_ok (s : IdempotencyStore) (ts : gmap nat Task) (x : Task) : Prop :=
  match x with
  | Owner key body id =>
      (key, id) ∈ ids_order s /\ exists w, ids_heap s !! id = Some (mkIdEntry (fingerprint body) false None None None w)
  | OwnerDone key body id o =>
      exists w ex, ids_heap s !! id = Some (mkIdEntry (fingerprint body) false (Some (settled_with o)) ex None w) /\
        (is_Some ex <-> stored o = true)
  | Waiter key body id =>
      exists e t x, ids_heap s !! id = Some e /\ en_streaming e = false /\ en_fingerprint e = fingerprint body /\
        ts !! t = Some x /\ owner_task key id x
  | WaiterDone key body id r =>
      exists t body' o, ts !! t = Some (OwnerDone key body' id o) /\ fingerprint body' = fingerprint body /\
        r = told (settled_with o)
  | Streaming key (Some id) => exists e, ids_heap s !! id = Some e /\ en_streaming e = true
  | Streaming _ None | Gone => True
  end.

(** An entry of the dict is a stream's, or its owner is known; in flight ones never expire. *)
Definition slot_ok (s : IdempotencyStore) (ts : gmap nat Task) (kv : Key * nat) : Prop :=
  exists e, ids_heap s !! kv.2 = Some e /\
    (en_streaming e = true \/ exists t x, ts !! t = Some x /\ owner_task kv.1 kv.2 x).

Record pinv (p : Process) : Prop := mkPInv {
  pv_keys : NoDup (map fst (ids_order (pr_store p)));
  pv_slots : forall kv, kv ∈ ids_order (pr_store p) -> slot_ok (pr_store p) (pr_tasks p) kv;
  pv_fresh : forall id, is_Some (ids_heap (pr_store p) !! id) -> (id < ids_next (pr_store p))%nat;
  pv_tasks : forall t x, pr_tasks p !! t = Some x -> task_ok (pr_store p) (pr_tasks p) x;
  pv_owners : forall t t' x x' k k' id, pr_tasks p !! t = Some x -> pr_tasks p !! t' = Some x' ->
    owner_task k id x -> owner_task k' id x' -> t = t'
}.

(** *** Steps keep the invariant *)

(** Entries stay what they are; only those of [P] may be settled. *)
Definition keeps (P : nat -> Prop) (s s' : IdempotencyStore) : Prop :=
  forall id e, ids_heap s !! id = Some e -> exists e', ids_heap s' !! id = Some e' /\
    en_streaming e' = en_streaming e /\ en_fingerprint e' = en_fingerprint e /\
    (~ P id -> en_future e' = en_future e /\ en_expires e' = en_expires e /\ en_stale_after e' = en_stale_after e).

Definition owners_kept (ts ts' : gmap nat Task) : Prop :=
  forall t x, ts !! t = Some x ->
    match x with
    | OwnerDone _ _ _ _ => ts' !! t = Some x
    | Owner k _ id => exists x', ts' !! t = Some x' /\ owner_task k id x'
    | _ => True
    end.

Lemma owner_kept ts ts' t x k id :
  owners_kept ts ts' -> ts !! t = Some x -> owner_task k id x -> exists x', ts' !! t = Some x' /\ owner_task k id x'.
Proof.
  intros HK Ht Ho. specialize (HK t x Ht). destruct x; simpl in Ho; try done; destruct Ho as [-> ->]; [done|].
  by eexists.
Qed.

Lemma slot_keeps P s s' ts ts' kv : keeps P s s' -> owners_kept ts ts' -> slot_ok s ts kv -> slot_ok s' ts' kv.
Proof.
  intros HK HO (e & He & H). destruct (HK _ _ He) as (e' & He' & Hs & _). exists e'. split; [done|].
  destruct H as [H|(t & x & Ht & Hx)]; [left; congruence|right].
  destruct (owner_kept _ _ _ _ _ _ HO Ht Hx) as (x' & Hx'). by exists t, x'.
Qed.

Lemma task_keeps P s s' ts ts' x :
  keeps P s s' -> owners_kept ts ts' ->
  match x with
  | Owner k _ id => (k, id) ∈ ids_order s' /\ ~ P id
  | OwnerDone _ _ id _ => ~ P id
  | _ => True
  end ->
  task_ok s ts x -> task_ok s' ts' x.
Proof.
  intros HK HO HX. destruct x as [k b id|k b id o|k b id|k b id r|k [id|]|]; simpl.
  - intros (_ & w & He). destruct HX as [Hin HP]. split; [done|].
    destruct (HK _ _ He) as ([fp st fu ex sa w'] & He' & H1 & H2 & H3). destruct (H3 HP) as (H4 & H5 & H6). simpl in *.
    subst. by exists w'.
  - intros (w & ex & He & Hs). destruct (HK _ _ He) as ([fp st fu ex' sa w'] & He' & H1 & H2 & H3).
    destruct (H3 HX) as (H4 & H5 & H6). simpl in *. subst. by exists w', ex.
  - intros (e & t & x & He & H1 & H2 & Ht & Hx). destruct (HK _ _ He) as (e' & He' & H3 & H4 & _).
    destruct (owner_kept _ _ _ _ _ _ HO Ht Hx) as (x' & Ht' & Hx'). exists e', t, x'. split_and!; congruence || done.
  - intros (t & b' & o & Ht & Hf & Hr). exists t, b', o. split; [exact (HO _ _ Ht)|done].
  - intros (e & He & H1). destruct (HK _ _ He) as (e' & He' & H3 & _). exists e'. split; congruence.
  - done.
  - done.
Qed.

Lemma pinv_step P s s' ts t x' :
  pinv (mkProcess s ts) ->
  NoDup (map fst (ids_order s')) ->
  (forall kv, kv ∈ ids_order s' -> kv ∈ ids_order s \/ slot_ok s' (<[t := x']> ts) kv) ->
  (forall id, is_Some (ids_heap s' !! id) -> (id < ids_next s')%nat) ->
  keeps P s s' ->
  match ts !! t with Some (OwnerDone _ _ _ _) => False | Some (Owner k _ id) => owner_task k id x' | _ => True end ->
  (forall t2 k b id, t2 <> t -> ts !! t2 = Some (Owner k b id) -> (k, id) ∈ ids_order s -> (k, id) ∈ ids_order s' /\ ~ P id) ->
  (forall t2 k b id o, t2 <> t -> ts !! t2 = Some (OwnerDone k b id o) -> ~ P id) ->
  task_ok s' (<[t := x']> ts) x' ->
  (forall k id, owner_task k id x' -> (exists x k0, ts !! t = Some x /\ owner_task k0 id x) \/ ids_heap s !! id = None) ->
  pinv (mkProcess s' (<[t := x']> ts)).
Proof.
  intros [V1 V2 V3 V4 V5] H1 H2 H3 H4 H5 H6 H7 H8 H9. simpl in *.
  assert (HO : owners_kept ts (<[t := x']> ts)).
  { intros t2 x2 Ht2. destruct (decide (t2 = t)) as [->|Hne].
    - rewrite Ht2 in H5. destruct x2; try done. exists x'. rewrite lookup_insert_eq. done.
    - rewrite lookup_insert_ne by done. destruct x2; try done. exists (Owner key body id). done. }
  split; simpl; [done| |done| |].
  - intros kv Hkv. destruct (H2 kv Hkv) as [Ho|Hn]; [|done]. by eapply slot_keeps; [| |apply V2].
  - intros t2 x2 Ht2. apply lookup_insert_Some in Ht2 as [[<- <-]|[Hne Ht2]]; [done|].
    eapply task_keeps; [done|done| |by apply (V4 t2)]. specialize (V4 _ _ Ht2).
    destruct x2; try done; [by eapply H6; [..|apply V4]|by eapply H7].
  - assert (Hfresh : forall t2 x2 k k2 id, t2 <> t -> ts !! t2 = Some x2 -> owner_task k2 id x2 -> owner_task k id x' -> t2 = t).
    { intros t2 x2 k k2 id Hne Ht2 Ho2 Ho. destruct (H9 _ _ Ho) as [(x & k0 & Hx & Hk0)|Hn].
      - by eapply V5.
      - exfalso. specialize (V4 _ _ Ht2). destruct x2; simpl in *; try done; destruct Ho2 as [-> ->].
        + destruct V4 as (_ & w & He). congruence.
        + destruct V4 as (w & ex & He & _). congruence. }
    intros t1 t2 x1 x2 k1 k2 id Ht1 Ht2 Ho1 Ho2.
    apply lookup_insert_Some in Ht1 as [[<- <-]|[Hn1 Ht1]], Ht2 as [[<- <-]|[Hn2 Ht2]]; [done| | |by eapply V5].
    + symmetry. by eapply (Hfresh t2).
    + by eapply (Hfresh t1).
Qed.

(** *** The dict operations *)

Lemma make_room_sublist n s l : make_room n s l `sublist_of` l.
Proof.
  revert n. induction l as [|kv l IH]; intros [|n]; simpl; try done.
  destruct (completed s kv); [apply sublist_cons|apply sublist_skip]; apply IH.
Qed.

Lemma make_room_keeps n s l kv : kv ∈ l -> completed s kv = false -> kv ∈ make_room n s l.
Proof.
  revert n. induction l as [|x l IH]; intros [|n] Hin Hc; simpl; try done.
  apply elem_of_cons in Hin as [->|Hin]; [rewrite Hc; set_solver|].
  destruct (completed s x); [by apply IH|]. apply elem_of_cons. right. by apply IH.
Qed.

Lemma sublist_keys l l' : l `sublist_of` l' -> NoDup (map fst l') -> NoDup (map (fst : Key * nat -> Key) l).
Proof. intros Hs Hn. eapply sublist_NoDup; [exact Hn|by apply fmap_sublist]. Qed.

Lemma elem_filter (f : Key * nat -> bool) l kv : kv ∈ List.filter f l <-> kv ∈ l /\ f kv = true.
Proof. rewrite !list_elem_of_In. apply filter_In. Qed.

Lemma filter_sublist (f : Key * nat -> bool) l : List.filter f l `sublist_of` l.
Proof. induction l as [|x l IH]; simpl; [done|]. destruct (f x); [by apply sublist_skip|by apply sublist_cons]. Qed.

Lemma evict_keeps now s kv fp st fu w :
  kv ∈ ids_order s -> ids_heap s !! kv.2 = Some (mkIdEntry fp st fu None None w) -> kv ∈ ids_order (evict now s).
Proof. intros Hin He. apply elem_filter. split; [done|]. unfold dead, entry_at. by rewrite He. Qed.

Lemma lookup_key_some key s id : lookup_key key s = Some id -> (key, id) ∈ ids_order s.
Proof.
  unfold lookup_key. destruct (List.find _ _) as [[k i]|] eqn:Hf; [|done]. intros [= <-].
  apply find_some in Hf as [Hin Hk]. apply bool_decide_eq_true in Hk. simpl in *. subst. by apply list_elem_of_In.
Qed.

Lemma lookup_key_none key s : lookup_key key s = None -> key ∉ map fst (ids_order s).
Proof.
  unfold lookup_key. destruct (List.find _ _) as [[k i]|] eqn:Hf; [done|]. intros _ Hin.
  apply list_elem_of_fmap in Hin as ([k i] & -> & Hin). apply list_elem_of_In in Hin.
  pose proof (find_none _ _ Hf _ Hin) as Hn. by apply bool_decide_eq_false in Hn.
Qed.

Lemma lookup_key_in key s id :
  NoDup (map fst (ids_order s)) -> (key, id) ∈ ids_order s -> lookup_key key s = Some id.
Proof.
  intros Hnd Hin. destruct (lookup_key key s) as [i|] eqn:Hk.
  - f_equal. apply lookup_key_some in Hk. clear -Hnd Hin Hk.
    induction (ids_order s) as [|[k j] l IH]; [by apply elem_of_nil in Hin|]. simpl in Hnd.
    apply NoDup_cons in Hnd as [Hn Hnd].
    apply elem_of_cons in Hin as [E1|Hin]; apply elem_of_cons in Hk as [E2|Hk]; [by simplify_eq| | |by apply IH].
    + exfalso. apply Hn. injection E1 as <- _. apply list_elem_of_fmap. by exists (key, i).
    + exfalso. apply Hn. injection E2 as <- _. apply list_elem_of_fmap. by exists (key, id).
  - exfalso. apply lookup_key_none in Hk. apply Hk. apply list_elem_of_fmap. by exists (key, id).
Qed.

Lemma keeps_refl P s s' : ids_heap s' = ids_heap s -> keeps P s s'.
Proof. intros E id e He. exists e. rewrite E. done. Qed.

Lemma keeps_alter P id f s s' :
  ids_heap s' = alter f id (ids_heap s) ->
  (forall e, en_streaming (f e) = en_streaming e /\ en_fingerprint (f e) = en_fingerprint e /\
     (~ P id -> en_future (f e) = en_future e /\ en_expires (f e) = en_expires e /\ en_stale_after (f e) = en_stale_after e)) ->
  keeps P s s'.
Proof.
  intros E Hf i e He. rewrite E. destruct (decide (i = id)) as [->|Hne].
  - rewrite lookup_alter_eq, He. exists (f e). split; [done|]. apply Hf.
  - rewrite lookup_alter_ne by done. by exists e.
Qed.

Lemma alter_fresh f (id : nat) (h : gmap nat Entry) n :
  (forall i, is_Some (h !! i) -> (i < n)%nat) -> forall i, is_Some (alter f id h !! i) -> (i < n)%nat.
Proof. intros Hn i. rewrite lookup_alter_is_Some. apply Hn. Qed.

(** The common part of starting a call and of opening a stream: evict, then add an entry. *)
Lemma add_inv now s ts t key e x' id s' :
  pinv (mkProcess s ts) -> ts !! t = None -> lookup_key key (evict now s) = None ->
  add max_entries key e (evict now s) = (id, s') ->
  en_streaming e = true \/ owner_task key id x' ->
  (ids_heap s' !! id = Some e -> (key, id) ∈ ids_order s' -> task_ok s' (<[t := x']> ts) x') ->
  (forall k i, owner_task k i x' -> i = id) ->
  pinv (mkProcess s' (<[t := x']> ts)).
Proof.
  intros I Ht Hk [= <- <-] Hnew Hok Hown. pose proof I as [V1 V2 V3 V4 V5]. simpl in *.
  set (order := make_room _ _ _). assert (Hsub : order `sublist_of` ids_order s).
  { etrans; [apply make_room_sublist|apply filter_sublist]. }
  assert (Hidn : ids_heap s !! ids_next s = None).
  { destruct (ids_heap s !! ids_next s) eqn:E; [|done]. pose proof (V3 _ (ex_intro _ _ E)). lia. }
  apply (pinv_step (fun _ => False) s); try done; simpl.
  - rewrite map_app. apply NoDup_app. split; [by eapply sublist_keys|]. split; [|apply NoDup_singleton].
    intros k Hin Hs. apply list_elem_of_singleton in Hs. simpl in Hs. subst k. apply lookup_key_none in Hk. apply Hk.
    apply list_elem_of_fmap in Hin as (kv & -> & Hin). apply list_elem_of_fmap. exists kv. split; [done|].
    eapply sublist_subseteq; [apply make_room_sublist|exact Hin].
  - intros kv [Hin| ->%list_elem_of_singleton]%elem_of_app; [left; by eapply sublist_subseteq|right].
    exists e. simpl. rewrite lookup_insert_eq. split; [done|]. destruct Hnew as [|Ho]; [by left|right].
    exists t, x'. by rewrite lookup_insert_eq.
  - intros i. destruct (decide (i = ids_next s)) as [->|Hne]; [lia|]. rewrite lookup_insert_ne by done.
    intros Hi%V3. lia.
  - intros i e0 He0. exists e0. destruct (decide (i = ids_next s)) as [->|Hne]; [congruence|]. simpl.
    rewrite lookup_insert_ne by done. done.
  - by rewrite Ht.
  - intros t2 k b i Hne Ht2 Hin. split; [|by intros []]. destruct (V4 _ _ Ht2) as (_ & w & He).
    apply elem_of_app. left. apply make_room_keeps; [by eapply evict_keeps|].
    unfold completed, entry_at. simpl. by rewrite He.
  - intros t2 k b i o _ _ [].
  - apply Hok; [apply lookup_insert_eq|]. apply elem_of_app. right. by apply list_elem_of_singleton.
  - intros k i Ho. right. by rewrite (Hown _ _ Ho).
Qed.

(** The dict may shrink and waiters may be counted: every entry in flight stays. *)
Lemma mild_inv s s' ts t x' :
  pinv (mkProcess s ts) -> ids_order s' `sublist_of` ids_order s ->
  (forall kv fp st fu w, kv ∈ ids_order s -> ids_heap s !! kv.2 = Some (mkIdEntry fp st fu None None w) ->
     kv ∈ ids_order s') ->
  ids_next s' = ids_next s -> (forall i, is_Some (ids_heap s' !! i) -> is_Some (ids_heap s !! i)) ->
  keeps (fun _ => False) s s' ->
  match ts !! t with Some (Owner _ _ _) | Some (OwnerDone _ _ _ _) => False | _ => True end ->
  (forall k i, ~ owner_task k i x') -> task_ok s' (<[t := x']> ts) x' ->
  pinv (mkProcess s' (<[t := x']> ts)).
Proof.
  intros I Hsub Hkeep Hn Hh HK Ht Ho Hok. pose proof I as [V1 V2 V3 V4 V5]. simpl in *.
  apply (pinv_step (fun _ => False) s); try done; simpl.
  - by eapply sublist_keys.
  - intros kv Hin. left. by eapply sublist_subseteq.
  - intros i Hi. rewrite Hn. by apply V3, Hh.
  - by destruct (ts !! t) as [[]|].
  - intros t2 k b i Hne Ht2 Hin. split; [|by intros []]. destruct (V4 _ _ Ht2) as (_ & w & He). by eapply Hkeep.
  - intros t2 k b i o _ _ [].
  - intros k i Hk. by destruct (Ho k i).
Qed.

Lemma evict_inv now s ts t x' :
  pinv (mkProcess s ts) -> ts !! t = None -> (forall k i, ~ owner_task k i x') ->
  task_ok (evict now s) (<[t := x']> ts) x' -> pinv (mkProcess (evict now s) (<[t := x']> ts)).
Proof.
  intros I Ht Ho Hok. apply (mild_inv s); try done.
  - apply filter_sublist.
  - intros. by eapply evict_keeps.
  - by apply keeps_refl.
  - by rewrite Ht.
Qed.

(** An entry in flight is settled once, and its key is free or holds the outcome. *)
Lemma end_inv s ts t key body id o now :
  pinv (mkProcess s ts) -> ts !! t = Some (Owner key body id) ->
  pinv (mkProcess (run_end ttl key id o now s) (<[t := OwnerDone key body id o]> ts)).
Proof.
  intros I Ht. pose proof I as [V1 V2 V3 V4 V5]. simpl in *. destruct (V4 _ _ Ht) as (Hin & w & He).
  set (s' := run_end _ _ _ _ _ _).
  assert (Hord : ids_order s' `sublist_of` ids_order s /\ forall kv, kv ∈ ids_order s -> kv <> (key, id) -> kv ∈ ids_order s').
  { subst s'. unfold run_end. destruct (stored o); simpl; [done|]. split; [apply filter_sublist|].
    intros kv Hkv Hne. apply elem_filter. split; [done|]. apply negb_true_iff. by apply bool_decide_eq_false_2. }
  assert (Hheap : exists f, ids_heap s' = alter f id (ids_heap s) /\ ids_next s' = ids_next s /\
    (forall e, en_streaming (f e) = en_streaming e /\ en_fingerprint (f e) = en_fingerprint e) /\
    exists ex, f (mkIdEntry (fingerprint body) false None None None w)
      = mkIdEntry (fingerprint body) false (Some (settled_with o)) ex None w /\ (is_Some ex <-> stored o = true)).
  { subst s'. unfold run_end. destruct (stored o) eqn:Hst; simpl.
    - eexists. split; [done|]. split; [done|]. split; [done|]. exists (Some (now + ttl)). split; [done|]. split; [done|by eexists].
    - eexists. split; [done|]. split; [done|]. split; [done|]. exists None. split; [done|]. split; [by intros []|done]. }
  destruct Hord as [Hsub Hrest], Hheap as (f & Hh & Hn & Hf & ex & Hfe & Hex).
  apply (pinv_step (fun i => i = id) s); try done; simpl.
  - by eapply sublist_keys.
  - intros kv Hkv. left. by eapply sublist_subseteq.
  - rewrite Hn, Hh. by apply alter_fresh.
  - eapply keeps_alter; [exact Hh|]. intros e. destruct (Hf e) as [H1 H2]. split_and!; [done|done|]. intros Hid. by destruct Hid.
  - by rewrite Ht.
  - intros t2 k b i Hne Ht2 Hi. destruct (decide (i = id)) as [->|Hi2].
    + exfalso. apply Hne. by eapply (V5 t2 t).
    + split; [|done]. apply Hrest; [done|]. congruence.
  - intros t2 k b i o2 Hne Ht2 ->. apply Hne. by eapply (V5 t2 t).
  - exists w, ex. split; [|done]. rewrite Hh, lookup_alter_eq, He. simpl. by rewrite Hfe.
  - intros k i [<- <-]. left. exists (Owner key body id), key. done.
Qed.

(** Joining counts a waiter of an entry that the dict still holds. *)
Lemma join_inv now s ts t key body id e :
  pinv (mkProcess s ts) -> ts !! t = None -> lookup_key key (evict now s) = Some id -> ids_heap s !! id = Some e ->
  en_streaming e = false -> en_fingerprint e = fingerprint body ->
  pinv (mkProcess (set_entry id (fun e => e <| en_waiters ::= Z.succ |>) (evict now s)) (<[t := Waiter key body id]> ts)).
Proof.
  intros I Ht Hk He Hs Hf. pose proof I as [V1 V2 V3 V4 V5]. simpl in *. apply (mild_inv s); try done; simpl.
  - apply filter_sublist.
  - intros. by eapply evict_keeps.
  - intros i. by rewrite lookup_alter_is_Some.
  - by eapply (keeps_alter _ id).
  - by rewrite Ht.
  - intros k i [].
  - exists (e <| en_waiters ::= Z.succ |>). apply lookup_key_some, elem_filter in Hk as [Hin _].
    destruct (V2 _ Hin) as (e' & He' & Hslot). simpl in *. simplify_eq.
    destruct Hslot as [Hst|(t' & x & Ht' & Hx)]; [congruence|]. exists t', x.
    rewrite lookup_alter_eq, He. split_and!; try done. rewrite lookup_insert_ne; [done|]. congruence.
Qed.

Lemma leave_inv s ts t key body id x' :
  pinv (mkProcess s ts) -> ts !! t = Some (Waiter key body id) -> (forall k i, ~ owner_task k i x') ->
  task_ok (leave id s) (<[t := x']> ts) x' -> pinv (mkProcess (leave id s) (<[t := x']> ts)).
Proof.
  intros I Ht Hx Hok. apply (mild_inv s); try done; simpl.
  - intros i. by rewrite lookup_alter_is_Some.
  - by eapply (keeps_alter _ id).
  - by rewrite Ht.
Qed.

Lemma stream_end_inv s ts t key id :
  pinv (mkProcess s ts) -> ts !! t = Some (Streaming key (Some id)) ->
  pinv (mkProcess (stream_end key id s) (<[t := Gone]> ts)).
Proof.
  intros I Ht. pose proof I as [V1 V2 V3 V4 V5]. simpl in *. destruct (V4 _ _ Ht) as (e & He & Hs).
  apply (pinv_step (fun i => i = id) s); try done; simpl.
  - eapply sublist_keys; [apply filter_sublist|done].
  - intros kv [Hin _]%elem_filter. by left.
  - by apply alter_fresh.
  - eapply keeps_alter; [done|]. intros e0. cbv beta. case_bool_decide; split_and!; try done; intros Hid; by destruct Hid.
  - by rewrite Ht.
  - intros t2 k b i Hne Ht2 Hi. destruct (V4 _ _ Ht2) as (_ & w & Hw).
    assert (Hii : i <> id) by (intros ->; simplify_eq; done). split; [|done].
    apply elem_filter. split; [done|]. apply negb_true_iff, bool_decide_eq_false_2. congruence.
  - intros t2 k b i o Hne Ht2 ->. destruct (V4 _ _ Ht2) as (w & ex & Hw & _). simplify_eq; done.
Qed.

(** A stream or a call that finds no entry of its key adds one. *)
Lemma pstep_inv p p' : pstep p p' -> pinv p -> pinv p'.
Proof.
  intros Hs I. destruct Hs as [s ts t key body now r s' Ht Hr|s ts t key body id o now Ht|s ts t key body id r s' Ht Hj|
    s ts t key body id Ht|s ts t key body now now' r s' Ht Hr|s ts t key id Ht].
  - unfold run_begin, existing in Hr. destruct (lookup_key key (evict now s)) as [id|] eqn:Hk.
    + destruct (ids_heap (evict now s) !! id) as [e|] eqn:He.
      2:{ exfalso. apply lookup_key_some, elem_filter in Hk as [Hin _].
          destruct (pv_slots _ I _ Hin) as (e' & He' & _). simpl in *. congruence. }
      destruct (String.eqb (en_fingerprint e) (fingerprint body)) eqn:Hf; simpl in Hr;
        [|injection Hr as <- <-; apply evict_inv; [done|done|intros k i []|done]].
      destruct (en_streaming e) eqn:Hst; injection Hr as <- <-; [apply evict_inv; [done|done|intros k i []|done]|].
      apply String.eqb_eq in Hf. by eapply join_inv.
    + destruct (add _ _ _ _) as [id s1] eqn:Ha. injection Hr as <- <-. pose proof Ha as [= <- _]. simpl.
      eapply add_inv; [done|done|exact Hk|exact Ha|by right| |by intros k i [_ <-]].
      intros He Hin. split; [done|]. by exists 0.
  - by apply end_inv.
  - unfold join in Hj. destruct (ids_heap s !! id) as [e|] eqn:He; [|done]. simpl in Hj.
    destruct (en_future e) as [f|] eqn:Hfu; [|done]. injection Hj as <- <-.
    eapply leave_inv; [done|done|intros k i []|].
    destruct (pv_tasks _ I _ _ Ht) as (e' & t' & x & He' & Hs & Hf & Ht' & Hx). simpl in *. simplify_eq.
    pose proof (pv_tasks _ I _ _ Ht') as Hok. destruct x; simpl in Hx, Hok; try done; destruct Hx as [-> ->].
    + destruct Hok as (_ & w & Hw). by simplify_eq.
    + destruct Hok as (w & ex & Hw & _). simplify_eq. simpl in *. simplify_eq.
      exists t', body0, o. rewrite lookup_insert_ne by congruence. done.
  - eapply leave_inv; [done|done|intros k i []|done].
  - unfold stream_begin in Hr. destruct (lookup_key key (evict now s) ≫= _) as [e|] eqn:He.
    + case_bool_decide; injection Hr as <- <-; (apply evict_inv; [done|done|intros k i []|done]).
    + destruct (lookup_key key (evict now s)) as [id|] eqn:Hk.
      { exfalso. apply lookup_key_some, elem_filter in Hk as [Hin _].
        destruct (pv_slots _ I _ Hin) as (e' & He' & _). simpl in *. congruence. }
      destruct (add _ _ _ _) as [id s1] eqn:Ha. injection Hr as <- <-. simpl.
      eapply add_inv; [done|done|exact Hk|exact Ha|by left| |intros k i []].
      intros He1 _. eexists. split; [exact He1|done].
  - by apply stream_end_inv.
Qed.

Lemma preach_inv p : preach p -> pinv p.
Proof.
  intros Hp. unfold preach in Hp. apply rtc_ind_r with (P := pinv) in Hp; [done| |].
  - split; simpl; [constructor|set_solver|by intros ? []| |].
    + intros t x Ht. by rewrite lookup_empty in Ht.
    + intros t t' x x' k k' id Ht. by rewrite lookup_empty in Ht.
  - intros y z _ Hs. by apply pstep_inv.
Qed.

(** *** What the store promises *)

(** A keyed request never causes two provider calls at once, and never a second one while
    an outcome is stored: in every reachable state of the process at most one call per key
    is running; and a new request for a key whose call is running, or whose stored outcome
    has not expired, is not a call: with the same body it joins that call, with another one
    it is refused with INVALID_REQUEST. *)
Theorem single_flight p t key body id :
  preach p -> pr_tasks p !! t = Some (Owner key body id) \/
    (exists o, pr_tasks p !! t = Some (OwnerDone key body id o) /\ stored o = true) ->
  (forall t' body' id', pr_tasks p !! t' = Some (Owner key body' id') ->
     pr_tasks p !! t = Some (Owner key body id) -> t' = t) /\
  forall now body', (key, id) ∈ ids_order (evict now (pr_store p)) ->
    (run_begin max_entries key body' now (pr_store p)).1
    = if String.eqb (fingerprint body) (fingerprint body') then Ok (Joined id) else Err (invalid "INVALID_REQUEST" []).
Proof.
  intros I%preach_inv Ht. destruct p as [s ts]. pose proof I as [V1 V2 V3 V4 V5]. simpl in *. split.
  - intros t' body' id' Ht' Ht0. destruct (V4 _ _ Ht0) as [Hin _]. destruct (V4 _ _ Ht') as [Hin' _].
    pose proof (lookup_key_in _ _ _ V1 Hin) as E. rewrite (lookup_key_in _ _ _ V1 Hin') in E. injection E as ->.
    by eapply V5.
  - intros now body' Hin. unfold run_begin, existing.
    assert (Hnd : NoDup (map fst (ids_order (evict now s)))) by (eapply sublist_keys; [apply filter_sublist|done]).
    rewrite (lookup_key_in _ _ _ Hnd Hin). simpl.
    assert (He : exists e, ids_heap s !! id = Some e /\ en_fingerprint e = fingerprint body /\ en_streaming e = false).
    { destruct Ht as [Ht|(o & Ht & _)]; specialize (V4 _ _ Ht).
      - destruct V4 as (_ & w & He). by eexists.
      - destruct V4 as (w & ex & He & _). by eexists. }
    destruct He as (e & He & Hf & Hst). rewrite He, Hf, Hst. by destruct (String.eqb _ _).
Qed.

(** A running call is never evicted, whatever the time and however full the store: its key
    stays taken until it ends. *)
Lemma running_stays p t key body id now :
  preach p -> pr_tasks p !! t = Some (Owner key body id) -> (key, id) ∈ ids_order (evict now (pr_store p)).
Proof.
  intros I%preach_inv Ht. destruct (pv_tasks _ I _ _ Ht) as (Hin & w & He). by eapply evict_keeps.
Qed.

(** Duplicates are told what the original was told: a request that joined a call is
    answered only after that call ended, with its result, its error, or (if the original was
    cancelled) a retryable 503, and it had asked for the same thing (same fingerprint). *)
Theorem duplicates_agree p t key body id r :
  preach p -> pr_tasks p !! t = Some (WaiterDone key body id r) ->
  exists t' body' o, pr_tasks p !! t' = Some (OwnerDone key body' id o) /\ fingerprint body' = fingerprint body /\
    r = match o with EndResult x => Ok x | EndFinal e | EndError e => Err e | EndBroken => Err NOT_COMPLETED end.
Proof.
  intros I%preach_inv Ht. destruct (pv_tasks _ I _ _ Ht) as (t' & body' & o & H1 & H2 & H3).
  exists t', body', o. split; [done|]. split; [done|]. by destruct o.
Qed.

Lemma make_room_length n s l :
  (length (make_room n s l) + n <= length l)%nat \/ (forall kv, kv ∈ make_room n s l -> completed s kv = false).
Proof.
  revert n. induction l as [|kv l IH]; intros [|n]; simpl; try (left; lia); [right; set_solver|].
  destruct (completed s kv) eqn:Hc.
  - destruct (IH n) as [H|H]; [left; lia|by right].
  - destruct (IH (S n)) as [H|H]; [left; simpl; lia|right]. intros x [->|Hx]%elem_of_cons; [done|by apply H].
Qed.

(** The store is bounded: right after a call was admitted, either the dict is within its
    capacity or every other entry it holds is still in flight (completed outcomes are
    dropped first, running calls never). *)
Theorem store_bounded key body now s id s' :
  run_begin max_entries key body now s = (Ok (Calling id), s') ->
  (length (ids_order s') <= capacity max_entries)%nat \/
  forall kv, kv ∈ ids_order s' -> kv.2 <> id -> completed s kv = false.
Proof.
  unfold run_begin. destruct (existing _ _ _ _) as [[[i|]|e] s1] eqn:He; try done.
  assert (s1 = evict now s) as -> by (unfold existing in He; by injection He). clear He.
  unfold add. intros [= <- <-]. simpl. set (l := List.filter _ _). rewrite length_app. simpl.
  destruct (make_room_length (S (length l) - capacity max_entries) (evict now s) l) as [H|H].
  - left. assert (1 <= capacity max_entries)%nat by (unfold capacity; lia). lia.
  - right. intros kv [Hin| ->%list_elem_of_singleton]%elem_of_app Hne; [by apply H|done].
Qed.
End process.
