(* ===== verification/Chaining.v ===== *)
(** * Agents starting agents ([chaining.py])

    A running run starts another agent of the same owner.  The readiness of the target is
    decided by other services (model and connection status) and is a parameter: the failing
    checks of an installation, empty when it is ready. *)

From S2P Require Import Prelude TimeUtil Json Redaction SchemaGuard States Jobs RunModel RunService RunInv.
From S2P Require Import RunOps Platform Capability Worker Reconciler World SystemProps.
#[local] Open Scope Z_scope.

Definition MAX_INPUT_BYTES : Z := 16 * 1024.
Definition TARGETS_KEY : string := "agentTargets".

Record ChainSettings := mkChainSettings {
  agent_starts_enabled : bool;
  agent_chain_max_depth : Z;
  agent_starts_per_run : Z
}.

(** The status services, as far as [views.readiness] depends on them: the checks that fail. *)
Class Readiness := failing_checks : AgentInstallation -> AgentVersion -> list Json.

(** [x in v] for a JSON list. *)
Definition json_in (x : string) (v : Json) : bool :=
  match v with
  | JList l => existsb (fun y => match y with JStr s => String.eqb x s | _ => false end) l
  | _ => false
  end.

Section chaining.
Context {clk : Clock} {RD : Readiness} (settings : ChainSettings).

Definition agent_of (d : DB) (run : AgentRun) : option string :=
  ver_agent_id <$> db_versions d !! run_agent_version_id run.

(** [_agent_id]: the version row must be there. *)
Definition agent_id (run : AgentRun) : PM string :=
  let! d := get in
  match agent_of d run with Some a => ret a | None => raise UNEXPECTED end.

(** The loop of [_ancestors]: [seen] are the runs passed, [fuel] bounds the iterations
    (each passes a new run, so one more than there are runs is enough). *)
Fixpoint climb (fuel : nat) (seen : list uuid) (parent_id : option uuid) : PM (list string) :=
  match fuel with
  | O => raise UNEXPECTED
  | Datatypes.S fuel' =>
      match parent_id with
      | None => ret []
      | Some p =>
          if bool_decide (p ∈ seen) then ret []
          else
            let! d := get in
            match db_runs d !! p with
            | None => ret []
            | Some parent =>
                let! a := agent_id (rr_run parent) in
                let! rest := climb fuel' (p :: seen) (run_parent_run_id (rr_run parent)) in
                ret (a :: rest)
            end
      end
  end.

Definition ancestors (run : AgentRun) : PM (list string) :=
  let! a := agent_id run in
  let! d := get in
  let! rest := climb (Datatypes.S (size (db_runs d))) [run_id run] (run_parent_run_id run) in
  ret (a :: rest).

Definition candidate (owner_id : uuid) (agent : string) (i : AgentInstallation) : bool :=
  (ins_user_id i =? owner_id)%N && String.eqb (ins_agent_id i) agent
  && negb (bool_decide (is_Some (ins_deleted_at i))) && ins_enabled i.

(** [targets.get(agent_id) if isinstance(targets, dict) else None] *)
Definition chosen_target (config : Json) (agent : string) : option Json :=
  match jget TARGETS_KEY config with Some ((JObj _) as targets) => jget agent targets | _ => None end.

Definition target (parent : AgentRun) (owner_id : uuid) (agent : string) : PM AgentInstallation :=
  let! candidates := gets (fun d => List.filter (candidate owner_id agent)
                                      (map snd (map_to_list (db_installations d)))) in
  match candidates with
  | [] => raise (conflict "TARGET_NOT_INSTALLED" [("agentId", JStr agent)]%string)
  | [c] => ret c
  | _ =>
      match List.find (fun c => match chosen_target (run_config_snapshot parent) agent with
                                | Some (JStr x) => String.eqb (uuid_str (ins_id c)) x
                                | _ => false
                                end) candidates with
      | Some c => ret c
      | None => raise (mkError "NEEDS_CONFIGURATION" 409
                         [("key", JStr (TARGETS_KEY +:+ "." +:+ agent))]%string)
      end
  end.

Definition lock_run (rid : uuid) : PM AgentRun :=
  let! d := get in
  match db_runs d !! rid with Some rr => ret (rr_run rr) | None => raise (not_found (uuid_str rid)) end.

(** [agent_id in (permissions.get("startsAgents") or [])] *)
Definition may_start (parent : AgentRun) (agent : string) : bool :=
  match jget "startsAgents" (run_permissions_snapshot parent) with
  | Some l => json_in agent l
  | None => false
  end.

Definition started_by (parent : uuid) (key : string) (r : AgentRun) : bool :=
  bool_decide (run_parent_run_id r = Some parent) && bool_decide (run_start_key r = Some key).

Definition children (parent : uuid) (d : DB) : Z :=
  Z.of_nat (length (List.filter (fun kv => bool_decide (run_parent_run_id (rr_run kv.2) = Some parent))
                      (map_to_list (db_runs d)))).

Definition db_get {A} (find : DB -> option A) : PM A :=
  let! d := get in
  match find d with Some a => ret a | None => raise UNEXPECTED end.

(** Everything that follows the replay check. *)
Definition start_new (parent : AgentRun) (agent start_key : string) (trigger_input : option Json)
    : PM (uuid * bool) :=
  guard (agent_starts_enabled settings) (mkError "AGENT_STARTS_DISABLED" 403 []) ;;
  guard (may_start parent agent) (mkError "PERMISSION_DENIED" 403 []) ;;
  guard (match trigger_input with Some v => json_size v <=? MAX_INPUT_BYTES | None => true end)
    (invalid "INPUT_TOO_LARGE" []) ;;
  let! chain := ancestors parent in
  guard (negb (existsb (String.eqb agent) chain)) (conflict "CHAIN_CYCLE" []) ;;
  guard (negb (agent_chain_max_depth settings <? Z.of_nat (length chain))) (conflict "CHAIN_TOO_DEEP" []) ;;
  let! started := gets (children (run_id parent)) in
  guard (negb (agent_starts_per_run settings <=? started)) (conflict "START_LIMIT_REACHED" []) ;;
  let! parent_installation := db_get (fun d => db_installations d !! run_installation_id parent) in
  let! tgt := target parent (ins_user_id parent_installation) agent in
  let! version := db_get (fun d => db_versions d !! ins_agent_version_id tgt) in
  let! spec := item "spec" (ver_manifest version) in
  let! triggers := item "triggers" spec in
  guard (json_in "agent" triggers)
    (conflict "TRIGGER_NOT_SUPPORTED" []) ;;
  let checks := failing_checks tgt version in
  guard (match checks with [] => true | _ => false end)
    (conflict "INSTALLATION_NOT_READY" [("checks", JList checks)]%string) ;;
  let! created := create_run tgt version
    (mkNewRun "agent" None None None (Some (run_id parent)) (Some start_key) trigger_input) in
  modify (fun d => d <| db_audit ::= fun l => l ++
    [mkAudit "service" (Some (uuid_str (run_id parent))) "run.created" (Some "run"%string)
       (Some (uuid_str created.1)) "success"
       (redact (JObj [("installationId", JStr (uuid_str (ins_id tgt))); ("trigger", JStr "agent");
                      ("parentRunId", JStr (uuid_str (run_id parent))); ("agentId", JStr agent)]%string))] |>) ;;
  ret created.

Definition start_agent_run (rid : uuid) (attempt : Z) (agent start_key : string)
    (trigger_input : option Json) : PM (uuid * bool) :=
  let! parent := lock_run rid in
  guard (attempt =? run_current_attempt parent)
    (conflict "STALE_ATTEMPT"
       [("attempt", JNum attempt); ("currentAttempt", JNum (run_current_attempt parent))]%string) ;;
  guard (negb (negb (mem (run_state parent) ACTIVE_STATES) || bool_decide (is_Some (run_cancel_requested_at parent))))
    (conflict "INVALID_RUN_STATE" []) ;;
  let! replay := gets (fun d => find_run (started_by (run_id parent) start_key) d) in
  match replay with
  | Some child =>
      let! c := lock_run child in
      let! a := agent_id c in
      guard (String.eqb a agent) (conflict "START_KEY_REUSED" []) ;;
      ret (child, false)
  | None => start_new parent agent start_key trigger_input
  end.
End chaining.

(** ** Chains *)

Section chains.
Context {clk : Clock} {RD : Readiness} (settings : ChainSettings).
Implicit Types (d : DB).

(** The foreign keys: a parent run exists, and a run's version exists. *)
Definition foreign_keys (d : DB) : Prop :=
  forall rid rr, db_runs d !! rid = Some rr ->
    is_Some (db_versions d !! run_agent_version_id (rr_run rr)) /\
    (forall p, run_parent_run_id (rr_run rr) = Some p -> is_Some (db_runs d !! p)).

Lemma agent_id_total run d a : agent_of d run = Some a -> agent_id run d = Ok (a, d).
Proof. intros H. unfold agent_id, bind, get. by rewrite H. Qed.

Lemma agent_of_total d rid rr : foreign_keys d -> db_runs d !! rid = Some rr -> is_Some (agent_of d (rr_run rr)).
Proof. intros HF Hr. destruct (HF rid rr Hr) as [[v Hv] _]. unfold agent_of. rewrite Hv. by eexists. Qed.

(** The climb ends: every iteration passes a run that was not passed before. *)
Lemma climb_total fuel seen p d :
  foreign_keys d -> NoDup seen -> (forall x, x ∈ seen -> is_Some (db_runs d !! x)) ->
  (size (db_runs d) < fuel + length seen)%nat ->
  exists l, climb fuel seen p d = Ok (l, d).
Proof.
  intros HF. revert seen p. induction fuel as [|fuel IH]; intros seen p Hnd Hin Hlt.
  - exfalso. assert (Hle : (length seen <= size (db_runs d))%nat); [|lia].
    rewrite <- size_dom. rewrite <- (size_list_to_set (C := gset uuid)) by done.
    apply subseteq_size. intros x Hx%elem_of_list_to_set. by apply elem_of_dom, Hin.
  - cbn [climb]. destruct p as [p|]; [|by eexists]. case_bool_decide as Hs; [by eexists|].
    unfold bind at 1, get. destruct (db_runs d !! p) as [rr|] eqn:Hp; [|by eexists].
    destruct (agent_of_total d p rr HF Hp) as [a Ha]. unfold bind at 1. rewrite (agent_id_total _ _ _ Ha).
    destruct (IH (p :: seen) (run_parent_run_id (rr_run rr))) as [l Hl].
    + by apply NoDup_cons.
    + intros x [->|Hx]%elem_of_cons; [by exists rr|by apply Hin].
    + simpl. lia.
    + unfold bind. rewrite Hl. by eexists.
Qed.

Lemma ancestors_total rid rr d :
  foreign_keys d -> db_runs d !! rid = Some rr -> run_id (rr_run rr) = rid ->
  exists a l, agent_of d (rr_run rr) = Some a /\
    climb (Datatypes.S (size (db_runs d))) [rid] (run_parent_run_id (rr_run rr)) d = Ok (l, d) /\
    ancestors (rr_run rr) d = Ok (a :: l, d).
Proof.
  intros HF Hr Hid. destruct (agent_of_total d rid rr HF Hr) as [a Ha].
  destruct (climb_total (Datatypes.S (size (db_runs d))) [rid] (run_parent_run_id (rr_run rr)) d HF) as [l Hl].
  - apply NoDup_singleton.
  - intros x ->%list_elem_of_singleton. by exists rr.
  - simpl. lia.
  - exists a, l. split_and!; [done|done|]. unfold ancestors, bind. rewrite (agent_id_total _ _ _ Ha). unfold get.
    rewrite Hid, Hl. done.
Qed.

(** The chain of a run is the same after a run [c] nobody descends from was added. *)
Lemma climb_extend fuel fuel' seen seen' p c rc l d d' :
  (fuel <= fuel')%nat -> db_runs d' = <[c := rc]> (db_runs d) -> db_versions d' = db_versions d ->
  foreign_keys d -> db_runs d !! c = None -> (forall x, x ∈ seen' <-> x ∈ seen \/ x = c) -> p <> Some c ->
  climb fuel seen p d = Ok (l, d) -> climb fuel' seen' p d' = Ok (l, d').
Proof.
  intros Hle HR HV HF Hc. revert fuel' seen seen' p l Hle.
  induction fuel as [|fuel IH]; intros fuel' seen seen' p l Hle Hseen Hp; [done|].
  destruct fuel' as [|fuel']; [lia|]. cbn [climb]. destruct p as [p|]; [|by intros [= <-]].
  assert (Hs : bool_decide (p ∈ seen') = bool_decide (p ∈ seen)).
  { apply bool_decide_ext. rewrite Hseen. split; [intros [|]; [done|congruence]|by left]. }
  rewrite Hs. destruct (bool_decide (p ∈ seen)); [by intros [= <-]|].
  unfold bind, get. rewrite HR, lookup_insert_ne by congruence.
  destruct (db_runs d !! p) as [rr|] eqn:Hrr; [|by intros [= <-]].
  destruct (agent_of_total d p rr HF Hrr) as [a Ha].
  assert (Ha' : agent_of d' (rr_run rr) = Some a) by (unfold agent_of; by rewrite HV).
  rewrite (agent_id_total _ _ _ Ha), (agent_id_total _ _ _ Ha'). destruct (climb fuel (p :: seen) _ d) as [[l0 d0]|] eqn:Hl0; [|done].
  intros [= <- ->]. rewrite (IH fuel' (p :: seen) (p :: seen') _ l0); [done|lia| | |done].
  - intros x. rewrite !elem_of_cons, Hseen. naive_solver.
  - intros Hcp. destruct (HF p rr Hrr) as [_ H]. destruct (H c Hcp) as [? E]. by rewrite Hc in E.
Qed.
End chains.

(** ** Starting an agent *)

Section starting.
Context {clk : Clock} {JS : JsonSchema} {J : Jwt} {RT : Runtime} {RD : Readiness} (st : Settings)
  (settings : ChainSettings).
Implicit Types (d : DB).

Lemma create_run_tables ins ver args d :
  wp (create_run ins ver args) (fun res d' =>
    db_versions d' = db_versions d /\ db_installations d' = db_installations d /\
    (res.2 = true -> exists rr, db_runs d' = <[res.1 := rr]> (db_runs d) /\
       run_agent_version_id (rr_run rr) = ver_id ver /\ run_parent_run_id (rr_run rr) = nr_parent_run_id args)) d.
Proof.
  unfold create_run.
  do 2 (wp_step; apply wp_item; intros ?). wp_step; apply wp_db_uuid7. wp_step; apply wp_db_utcnow.
  do 2 wp_step. apply wp_item; intros ?. apply wp_as_int; intros act.
  wp_step; apply wp_as_int; intros mw. cbv zeta. wp_step; apply wp_get.
  destruct (duplicate_of _ _); [by apply wp_ret|]. wp_step. apply wp_guard; intros _. wp_step.
  apply wp_modify. wp_step. unfold wp, with_run. cbn [db_runs update eta eta_DB]. rewrite lookup_insert_eq.
  unfold bind, append_event, bind, the_events, the_run, gets, utcnow, add_events, modify, ret, enqueue_job, bind, utcnow, modify.
  simpl. split_and!; try done. intros _. eexists. split; [apply insert_insert_eq|]. done.
Qed.

(** The version an installation points to is a version of its agent. *)
Definition versions_match (d : DB) : Prop :=
  forall k i v, db_installations d !! k = Some i -> db_versions d !! ins_agent_version_id i = Some v ->
    ver_agent_id v = ins_agent_id i /\ ver_id v = ins_agent_version_id i.

Lemma target_spec parent owner agent d :
  wp (target parent owner agent) (fun t d' => d' = d /\ candidate owner agent t = true /\
    exists k, db_installations d !! k = Some t) d.
Proof.
  unfold target. wp_step. apply wp_gets. set (l := List.filter _ _).
  assert (Hl : forall t, In t l -> candidate owner agent t = true /\ exists k, db_installations d !! k = Some t).
  { intros t [Hin Hc]%filter_In. split; [done|]. apply in_map_iff in Hin as ([k x] & <- & Hin).
    exists k. by apply elem_of_map_to_list, list_elem_of_In. }
  destruct l as [|c [|c' l']] eqn:El; [done|apply wp_ret; split; [done|apply Hl; by left]|].
  match goal with |- context [List.find ?p ?x] => destruct (List.find p x) as [t|] eqn:Hf end; [|done].
  apply wp_ret. split; [done|]. apply Hl. by apply find_some in Hf as [Hf _].
Qed.

Lemma wp_db_get {A} (find : DB -> option A) (Q : A -> DB -> Prop) d :
  (forall a, find d = Some a -> Q a d) -> wp (db_get find) Q d.
Proof. intros HQ. unfold db_get. wp_step. apply wp_get. destruct (find d) as [a|]; [by apply HQ|done]. Qed.

Lemma wp_climb fuel seen p d : wp (climb fuel seen p) (fun _ d' => d' = d) d.
Proof.
  revert seen p. induction fuel as [|fuel IH]; intros seen p; [done|]. cbn [climb].
  destruct p as [p|]; [|by apply wp_ret]. apply wp_if; intros _; [by apply wp_ret|]. wp_step. apply wp_get.
  destruct (db_runs d !! p) as [rr|]; [|by apply wp_ret]. wp_step. unfold agent_id. wp_step. apply wp_get.
  destruct (agent_of d (rr_run rr)); [|done]. apply wp_ret. wp_step. eapply wp_mono; [apply IH|].
  intros l ? ->. by apply wp_ret.
Qed.

Lemma wp_ancestors run d : wp (ancestors run) (fun l d' => d' = d /\ ancestors run d = Ok (l, d)) d.
Proof.
  assert (H : wp (ancestors run) (fun _ d' => d' = d) d).
  { unfold ancestors. wp_step. unfold agent_id. wp_step. apply wp_get. destruct (agent_of d run); [|done].
    apply wp_ret. wp_step. apply wp_get. wp_step. eapply wp_mono; [apply wp_climb|]. intros l ? ->. by apply wp_ret. }
  unfold wp in *. destruct (ancestors run d) as [[l d']|]; [by subst|done].
Qed.

(** What a new child is. *)
Definition started (parent : AgentRun) (agent key : string) (d : DB) (id : uuid) (d' : DB) : Prop :=
  db_runs d !! id = None /\ (forall i, i <> id -> db_runs d' !! i = db_runs d !! i) /\
  agent_starts_enabled settings = true /\ may_start parent agent = true /\
  children (run_id parent) d < agent_starts_per_run settings /\
  exists chain child owner tgt k v, db_runs d' !! id = Some child /\ run_state (rr_run child) = QUEUED /\
    agent_start (rr_run child) = Some (run_id parent, key) /\
    db_installations d !! run_installation_id parent = Some owner /\
    db_installations d !! k = Some tgt /\ candidate (ins_user_id owner) agent tgt = true /\
    failing_checks tgt v = [] /\
    run_permissions_snapshot (rr_run child) = ins_approved_permissions tgt /\
    ancestors parent d = Ok (chain, d) /\ agent ∉ chain /\
    Z.of_nat (length chain) <= agent_chain_max_depth settings /\
    ancestors (rr_run child) d' = Ok (agent :: chain, d').

Lemma agent_start_parts r p k :
  agent_start r = Some (p, k) -> run_parent_run_id r = Some p /\ run_start_key r = Some k.
Proof.
  unfold agent_start. destruct (run_parent_run_id r), (run_start_key r); try done. by intros [= -> ->].
Qed.

Lemma not_in_chain agent chain : existsb (String.eqb agent) chain = false -> agent ∉ chain.
Proof.
  intros H Hin%list_elem_of_In. assert (Ht : existsb (String.eqb agent) chain = true)
    by (apply existsb_exists; exists agent; split; [done|apply String.eqb_refl]). by rewrite H in Ht.
Qed.

(** The chain of the new child. *)
Lemma child_chain parent child id rr v chain a d d' :
  platform_inv d -> foreign_keys d -> db_runs d !! run_id (rr_run parent) = Some parent ->
  db_runs d !! id = None -> db_runs d' = <[id := child]> (db_runs d) -> db_versions d' = db_versions d ->
  rr = rr_run child -> run_id rr = id -> run_parent_run_id rr = Some (run_id (rr_run parent)) ->
  db_versions d !! run_agent_version_id rr = Some v -> ver_agent_id v = a ->
  ancestors (rr_run parent) d = Ok (chain, d) -> ancestors rr d' = Ok (a :: chain, d').
Proof.
  intros P HF Hpar Hnone HR HV -> Hid Hp Hv Ha Hch.
  destruct (ancestors_total _ _ _ HF Hpar eq_refl) as (pa & pl & Hpa & Hcl & Hanc).
  rewrite Hanc in Hch. injection Hch as <-.
  assert (Hne : run_id (rr_run parent) <> id) by congruence.
  unfold ancestors, bind, get.
  rewrite (agent_id_total _ d' a) by (unfold agent_of; rewrite HV, Hv; simpl; by rewrite Ha).
  rewrite HR, map_size_insert_None by done. rewrite Hid, Hp.
  remember (Datatypes.S (size (db_runs d))) as fuel eqn:Hfuel. cbn [climb].
  rewrite bool_decide_eq_false_2 by (rewrite list_elem_of_singleton; done).
  unfold bind, get. rewrite HR, lookup_insert_ne, Hpar by congruence.
  rewrite (agent_id_total _ d' pa) by (unfold agent_of; by rewrite HV).
  rewrite (climb_extend fuel fuel [run_id (rr_run parent)] [run_id (rr_run parent); id] _ id child pl d d'
    (Nat.le_refl _) HR HV HF Hnone); [done| | |exact Hcl].
  - intros x. rewrite elem_of_cons, !list_elem_of_singleton. done.
  - intros Hc. destruct (HF _ _ Hpar) as [_ H]. destruct (H id Hc) as [? E]. by rewrite Hnone in E.
Qed.

Lemma start_new_spec parent rr agent key input d :
  platform_inv d -> foreign_keys d -> versions_match d -> parent = rr_run rr ->
  db_runs d !! run_id parent = Some rr -> find_run (started_by (run_id parent) key) d = None ->
  wp (start_new settings parent agent key input) (fun res d' =>
    res.2 = true /\ platform_inv d' /\ started parent agent key d res.1 d') d.
Proof.
  intros P HF HM -> Hpar Hno. unfold start_new. wp_step. apply wp_guard; intros Hen.
  wp_step. apply wp_guard; intros Hmay. wp_step. apply wp_guard; intros _. wp_step.
  eapply wp_mono; [apply wp_ancestors|]. intros chain ? [-> Hch]. wp_step. apply wp_guard; intros Hcy.
  wp_step. apply wp_guard; intros Hdeep. wp_step. apply wp_gets. wp_step. apply wp_guard; intros Hlim.
  wp_step. apply wp_db_get; intros owner Hown. wp_step.
  eapply wp_mono; [apply target_spec|]. intros tgt ? (-> & Hcand & k & Hk).
  wp_step. apply wp_db_get; intros v Hv. do 2 (wp_step; apply wp_item; intros ?).
  wp_step. apply wp_guard; intros _. wp_step. apply wp_guard; intros Hready.
  wp_step. set (args := mkNewRun _ _ _ _ _ _ _).
  eapply wp_mono; [apply wp_and; [by apply (create_run_spec tgt v args)|apply (create_run_tables tgt v args)]|].
  intros [id created] d1 ((P1 & HC & _) & HV & HI & HT). wp_step. apply wp_modify. apply wp_ret.
  destruct created.
  2:{ exfalso. destruct HC as (_ & _ & rr' & Hrr' & _ & Hs). apply agent_start_parts in Hs as [H1 H2].
      apply (find_run_none _ _ _ _ Hno) in Hrr'. unfold started_by in Hrr'.
      by rewrite H1, H2, !bool_decide_eq_true_2 in Hrr'. }
  destruct HC as (C1 & C2 & child & C3 & (Cid & Cst & _) & Cp & _ & _ & _ & _ & Cs).
  destruct (HT eq_refl) as (rr' & HR & Hver & Hpp). simpl in *.
  rewrite HR, lookup_insert_eq in C3. injection C3 as ->.
  destruct (HM k tgt v Hk Hv) as [Hva Hvid].
  assert (Hag : ver_agent_id v = agent).
  { rewrite Hva. unfold candidate in Hcand. reflect_all. by apply String.eqb_eq. }
  reflect_all. split; [done|]. split; [by eapply platform_inv_same; [..|exact P1]; try done; simpl; lia|].
  split_and!; try done.
  exists chain, child, owner, tgt, k, v. simpl. split_and!; try done.
  - rewrite HR. apply lookup_insert_eq.
  - by destruct (failing_checks tgt v).
  - by apply not_in_chain.
  - set (d2 := d1 <| db_audit ::= _ |>).
    apply (child_chain rr child id (rr_run child) v chain agent d d2); try done.
    by rewrite Hver, Hvid.
Qed.

(** What a successful [start_agent_run] guarantees. *)
Definition start_post (rid : uuid) (attempt : Z) (agent key : string) (d : DB) (res : uuid * bool) (d' : DB)
    : Prop :=
  exists parent, db_runs d !! rid = Some parent /\ run_current_attempt (rr_run parent) = attempt /\
    run_state (rr_run parent) ∈ ACTIVE_STATES /\ run_cancel_requested_at (rr_run parent) = None /\
    if res.2 then started (rr_run parent) agent key d res.1 d'
    else d' = d /\ exists child, db_runs d !! res.1 = Some child /\
      agent_start (rr_run child) = Some (rid, key) /\ agent_of d (rr_run child) = Some agent.

Lemma start_agent_spec rid attempt agent key input d :
  platform_inv d -> foreign_keys d -> versions_match d ->
  wp (start_agent_run settings rid attempt agent key input)
    (fun res d' => platform_inv d' /\ start_post rid attempt agent key d res d') d.
Proof.
  intros P HF HM. unfold start_agent_run, lock_run. do 3 wp_step.
  destruct (db_runs d !! rid) as [parent|] eqn:Hp; [|done].
  apply wp_ret. wp_step. apply wp_guard; intros Hatt. wp_step. apply wp_guard; intros Hact.
  apply negb_true_iff, orb_false_iff in Hact as [Hact%negb_false_iff%bool_decide_eq_true Hcan%bool_decide_eq_false].
  apply eq_None_not_Some in Hcan. apply Z.eqb_eq in Hatt. pose proof (pi_id P _ _ Hp) as Hid.
  wp_step. apply wp_gets. destruct (find_run _ _) as [c|] eqn:Hf.
  - apply find_run_some in Hf as (child & Hc & Hst). do 3 wp_step. rewrite Hc. apply wp_ret. wp_step.
    unfold agent_id. wp_step. apply wp_get. destruct (agent_of d (rr_run child)) as [a|] eqn:Ha; [|done].
    apply wp_ret. wp_step. apply wp_guard; intros Heq%String.eqb_eq. subst a. apply wp_ret. split; [done|].
    exists parent. simpl. split_and!; try done. exists child. split_and!; try done.
    unfold started_by in Hst. apply andb_true_iff in Hst as [H1%bool_decide_eq_true H2%bool_decide_eq_true].
    unfold agent_start. by rewrite H1, H2, Hid.
  - rewrite <- Hid in Hp. eapply wp_mono; [by apply (start_new_spec _ parent)|]. intros [c cr] d2 (Hcr & P2 & HS).
    simpl in *. subst cr. split; [done|]. exists parent. rewrite Hid in Hp. by split_and!.
Qed.

(** Starting an agent from a run.  If the call succeeds, the parent run exists, is on
    the given attempt, active and not being cancelled, and either (a) this start key was
    used before for the same agent: that child is returned and nothing changes; or (b)
    exactly one new QUEUED child is created under the key, with the target's own approved
    permissions: the owner approved the target for the parent, the target is an enabled
    installation of the same owner that is ready, the parent's start limit is not
    exhausted, and the chain of agents above the child repeats no agent at the child and
    stays within the depth limit. *)
Theorem start_agent_correct w rid attempt agent key input id created d' :
  reachable st w -> foreign_keys (w_db w) -> versions_match (w_db w) ->
  start_agent_run settings rid attempt agent key input (w_db w) = Ok ((id, created), d') ->
  exists parent, db_runs (w_db w) !! rid = Some parent /\ run_current_attempt (rr_run parent) = attempt /\
    run_state (rr_run parent) ∈ ACTIVE_STATES /\ run_cancel_requested_at (rr_run parent) = None /\
    if created then started (rr_run parent) agent key (w_db w) id d'
    else d' = w_db w /\ exists child, db_runs (w_db w) !! id = Some child /\
      agent_start (rr_run child) = Some (rid, key) /\ agent_of (w_db w) (rr_run child) = Some agent.
Proof.
  intros P%reachable_platform HF HM Hs.
  exact (proj2 (wp_run _ _ _ _ _ (start_agent_spec rid attempt agent key input _ P HF HM) Hs)).
Qed.

Lemma ancestors_agent run a l d d' : ancestors run d = Ok (a :: l, d') -> agent_of d run = Some a.
Proof.
  unfold ancestors, bind, agent_id, bind, get. destruct (agent_of d run) as [b|]; [|done]. unfold ret.
  destruct (climb _ _ _ d) as [[l' d'']|]; [|done]. by intros [= -> _ _].
Qed.

(** The child and its parent as the next request finds them. *)
Lemma start_post_after rid attempt agent key d id created d' :
  platform_inv d -> start_post rid attempt agent key d (id, created) d' ->
  exists parent child, db_runs d' !! rid = Some parent /\ run_current_attempt (rr_run parent) = attempt /\
    run_state (rr_run parent) ∈ ACTIVE_STATES /\ run_cancel_requested_at (rr_run parent) = None /\
    db_runs d' !! id = Some child /\ agent_start (rr_run child) = Some (rid, key) /\
    agent_of d' (rr_run child) = Some agent.
Proof.
  intros P (parent & Hp & H1 & H2 & H3 & Hcase). destruct created; simpl in Hcase.
  - destruct Hcase as (Hnone & Hoth & _ & _ & _ & chain & child & owner & tgt & k & v & Hc & _ & Hs & _ & _ & _ & _ & _ & _ & _ & _ & Hanc).
    exists parent, child. rewrite Hoth by congruence. split_and!; try done.
    + by rewrite <- (pi_id P _ _ Hp).
    + by eapply ancestors_agent.
  - destruct Hcase as [-> (child & Hc & Hs & Ha)]. by exists parent, child.
Qed.

(** Starts are idempotent: once a start has been answered, repeating the request (the
    parent still on that attempt) returns the same child and creates nothing. *)
Theorem start_agent_replay w rid attempt agent key input input' id created d' :
  reachable st w -> foreign_keys (w_db w) -> versions_match (w_db w) ->
  start_agent_run settings rid attempt agent key input (w_db w) = Ok ((id, created), d') ->
  start_agent_run settings rid attempt agent key input' d' = Ok ((id, false), d').
Proof.
  intros P%reachable_platform HF HM Hs.
  destruct (wp_run _ _ _ _ _ (start_agent_spec rid attempt agent key input _ P HF HM) Hs) as [P' HS].
  apply start_post_after in HS as (parent & child & Hp & H1 & H2 & H3 & Hc & Hk & Ha); [|done].
  pose proof (pi_id P' _ _ Hp) as Hid.
  unfold start_agent_run, lock_run, bind, get. rewrite Hp. unfold ret, guard. rewrite H1, Z.eqb_refl.
  unfold mem. rewrite (bool_decide_eq_true_2 _ H2), H3, (bool_decide_eq_false_2 (is_Some None)) by (by intros []). simpl. unfold gets.
  assert (Hf : find_run (started_by (run_id (rr_run parent)) key) d' = Some id).
  { apply agent_start_parts in Hk as Hk'. destruct Hk' as [K1 K2].
    destruct (find_run _ d') as [c|] eqn:Hf.
    - apply find_run_some in Hf as (rc & Hrc & Hb). unfold started_by in Hb.
      apply andb_true_iff in Hb as [B1%bool_decide_eq_true B2%bool_decide_eq_true]. f_equal.
      eapply (pi_start _ _ P' c id rc child (rid, key)); try done. unfold agent_start. by rewrite B1, B2, Hid.
    - apply (find_run_none _ _ _ _ Hf) in Hc. unfold started_by in Hc.
      by rewrite K1, K2, Hid, !bool_decide_eq_true_2 in Hc. }
  rewrite Hf. unfold bind, get. rewrite Hc. unfold ret. rewrite (agent_id_total _ _ _ Ha), String.eqb_refl. done.
Qed.
End starting.
