(* ===== verification/A1.v ===== *)
(** * A1 ranges ([capability_broker/a1.py])

    Parsing of sheet ranges and the containment test that scopes Sheets calls to the ranges
    the owner configured.  Text is a list of 7-bit characters; a bound that is missing in
    the source ([math.inf]) is [None]. *)

From Stdlib Require Import Ascii.
From S2P Require Import Prelude Redaction Cron.
#[local] Open Scope Z_scope.

Record Area := mkArea {
  tab : text;
  first_col : Z;
  first_row : Z;
  last_col : option Z;
  last_row : option Z
}.

(** [a <= b] where [None] is infinity. *)
Definition le_inf (a b : option Z) : bool :=
  match a, b with
  | _, None => true
  | None, Some _ => false
  | Some x, Some y => x <=? y
  end.

Definition casefold (t : text) : text := map lower t.

Definition contains (self other : Area) : bool :=
  bool_decide (casefold (tab self) = casefold (tab other))
  && (first_col self <=? first_col other) && le_inf (last_col other) (last_col self)
  && (first_row self <=? first_row other) && le_inf (last_row other) (last_row self).

(** [char.upper()] for a letter. *)
Definition upper (c : ascii) : ascii :=
  if is_lower c then ascii_of_N (N_of_ascii c - 32) else c.

Definition column (letters : text) : Z :=
  fold_left (fun index c => index * 26 + code (upper c) - 65 + 1) letters 0.

(** [$] matches at the end and before a final newline. *)
Definition at_end (s : text) : bool :=
  match s with [] => true | [c] => code c =? 10 | _ => false end.

(** [_REF.match]: up to three letters, then optionally a number of up to seven digits
    without leading zero. *)
Definition ref_match (p : text) : option (text * option text) :=
  let '(letters, rest) := take_upto 3 is_letter p in
  if at_end rest then Some (letters, None)
  else match rest with
       | d :: rest' =>
           if between 49 57 d then
             let '(digits, rest'') := take_upto 6 is_digit rest' in
             if at_end rest'' then Some (letters, Some (d :: digits)) else None
           else None
       | [] => None
       end.

(** [text.partition(c)]: what precedes the first [c], and what follows it if there is one. *)
Fixpoint partition_at (c : ascii) (s : text) : text * option text :=
  match s with
  | [] => ([], None)
  | x :: s' => if Ascii.eqb x c then ([], Some s') else let '(l, r) := partition_at c s' in (x :: l, r)
  end.

Definition quote : ascii := "039".

(** The body of a quoted tab name (a doubled quote stands for one) and what follows the
    closing quote. *)
Fixpoint quoted_body (s : text) : option (text * text) :=
  match s with
  | [] => None
  | x :: s' =>
      if Ascii.eqb x quote then
        match s' with
        | y :: s'' => if Ascii.eqb y quote
                      then match quoted_body s'' with Some (b, r) => Some (quote :: b, r) | None => None end
                      else Some ([], s')
        | [] => Some ([], [])
        end
      else match quoted_body s' with Some (b, r) => Some (x :: b, r) | None => None end
  end.

Definition is_ref (p : text) : bool := negb (bool_decide (p = [])) && bool_decide (is_Some (ref_match p)).

(** [None] is [ValueError]. *)
Definition split_tab (t : text) : option (text * option text) :=
  match t with
  | q :: t' =>
      if Ascii.eqb q quote then
        match quoted_body t' with
        | Some ([], _) => None
        | Some (body, []) => Some (body, None)
        | Some (body, b :: ref) => if Ascii.eqb b "!" then Some (body, Some ref) else None
        | None => None
        end
      else match partition_at "!" t with
           | (l, Some r) => Some (l, Some r)
           | (_, None) => if forallb is_ref (split_at ":" t) then None else Some (t, None)
           end
  | [] => if forallb is_ref (split_at ":" t) then None else Some (t, None)
  end.

(** [text.strip()] *)
Fixpoint lstrip (s : text) : text :=
  match s with c :: s' => if is_space c then lstrip s' else s | [] => [] end.
Definition strip (s : text) : text := rev (lstrip (rev (lstrip s))).

Definition has_bang (t : text) : bool := existsb (fun c => Ascii.eqb c "!") t.

(** [int(digits)] *)
Definition int_of (digits : text) : Z := fold_left (fun n c => n * 10 + (code c - 48)) digits 0.

Definition col_or (c : text) : option Z := match c with [] => None | _ => Some (column c) end.

(** The area between two references; the second is the first again when there is only one. *)
Definition area_of (t : text) (ref1 ref2 : text * option text) : option Area :=
  let fc := default 1 (col_or ref1.1) in
  let fr := default 1 (int_of <$> ref1.2) in
  let lc := col_or ref2.1 in
  let lr := int_of <$> ref2.2 in
  if le_inf (Some fc) lc && le_inf (Some fr) lr then Some (mkArea t fc fr lc lr) else None.

Definition parse (s : text) : option Area :=
  match split_tab (strip s) with
  | None => None
  | Some (t, ref) =>
      if bool_decide (t = []) || has_bang t || match ref with Some r => has_bang r | None => false end then None
      else match ref with
           | None => Some (mkArea t 1 1 None None)
           | Some r =>
               let parts := split_at ":" r in
               if forallb is_ref parts then
                 match omap ref_match parts with
                 | [a] => area_of t a a
                 | [a; b] => area_of t a b
                 | _ => None
                 end
               else None
           end
  end.

Example parse_examples :
  (fun s => (fun a => (first_col a, first_row a, last_col a, last_row a)) <$> parse (chars s)) <$>
    ["Contacts!A2:D"; "'My ''tab'''!AA10"; "A1:B2"; "Contacts"; "T!B1:A1"; "T!5:7"]%string
  = [Some (1, 2, Some 4, None); Some (27, 10, Some 27, Some 10); None; Some (1, 1, None, None); None;
     Some (1, 5, None, Some 7)].
Proof. vm_compute. reflexivity. Qed.

(** ** Areas as sets of cells *)

Definition in_area (a : Area) (c r : Z) : Prop :=
  first_col a <= c /\ le_inf (Some c) (last_col a) = true /\
  first_row a <= r /\ le_inf (Some r) (last_row a) = true.

(** An area has its top left cell. *)
Definition area_ok (a : Area) : Prop :=
  tab a <> [] /\ in_area a (first_col a) (first_row a).

Lemma area_of_ok t a b x : t <> [] -> area_of t a b = Some x -> area_ok x /\ tab x = t.
Proof.
  intros Ht. unfold area_of. destruct (_ && _) eqn:Hc; [|done]. intros [= <-]. apply andb_true_iff in Hc as [H1 H2].
  split; [|done]. unfold area_ok, in_area. simpl. split_and!; [done|lia|done|lia|done].
Qed.

Lemma parse_ok s a : parse s = Some a -> area_ok a.
Proof.
  unfold parse. destruct (split_tab (strip s)) as [[t ref]|]; [|done].
  destruct (bool_decide (t = []) || _ || _) eqn:Hc; [done|].
  apply orb_false_iff in Hc as [Hc _]. apply orb_false_iff in Hc as [Ht%bool_decide_eq_false _].
  destruct ref as [r|]; [|intros [= <-]; unfold area_ok, in_area; simpl; split_and!; (done || lia)].
  destruct (forallb is_ref _); [|done].
  destruct (omap ref_match _) as [|x [|y [|]]]; try done; intros H; by apply area_of_ok in H as [H _].
Qed.

(** One axis: an interval inside another, by its cells. *)
Lemma interval_inside f l f' l' :
  le_inf (Some f') l' = true ->
  (f <=? f') && le_inf l' l = true <->
  forall x, f' <= x -> le_inf (Some x) l' = true -> f <= x /\ le_inf (Some x) l = true.
Proof.
  intros Hne. rewrite andb_true_iff, Z.leb_le. split.
  - intros [H1 H2] x Hx Hl. split; [lia|]. destruct l as [l|], l' as [l'|]; simpl in *; try done.
    apply Z.leb_le in H2, Hl. apply Z.leb_le. lia.
  - intros H. split; [apply (H f'); [lia|done]|]. destruct l as [l|], l' as [l'|]; simpl in *; try done.
    + apply Z.leb_le in Hne. apply (H l'); [lia|apply Z.leb_refl].
    + destruct (H (Z.max f' (l + 1))) as [_ Hl]; [lia|done|]. apply Z.leb_le in Hl. lia.
Qed.

Lemma contains_cells s s' a b :
  parse s = Some a -> parse s' = Some b ->
  contains a b = true <->
  casefold (tab a) = casefold (tab b) /\ (forall c r, in_area b c r -> in_area a c r).
Proof.
  intros _ (_ & _ & Hc & _ & Hr)%parse_ok.
  pose proof (interval_inside (first_col a) (last_col a) (first_col b) (last_col b) Hc) as HC.
  pose proof (interval_inside (first_row a) (last_row a) (first_row b) (last_row b) Hr) as HR.
  assert (Hcon : contains a b = true <-> casefold (tab a) = casefold (tab b) /\
    (first_col a <=? first_col b) && le_inf (last_col b) (last_col a) = true /\
    (first_row a <=? first_row b) && le_inf (last_row b) (last_row a) = true).
  { unfold contains. rewrite !andb_true_iff, bool_decide_eq_true. tauto. }
  rewrite Hcon, HC, HR. unfold in_area. split.
  - intros (Ht & H1 & H2). split; [done|]. intros c r (B1 & B2 & B3 & B4).
    destruct (H1 c B1 B2), (H2 r B3 B4). done.
  - intros [Ht H]. split_and!; [done| |].
    + intros c B1 B2. destruct (H c (first_row b)) as (? & ? & _); [split_and!; (done || lia)|done].
    + intros r B1 B2. destruct (H (first_col b) r) as (_ & _ & ?); [split_and!; (done || lia)|done].
Qed.

(** Containment of ranges is containment of cells: for any two ranges that parse, the
    check that lets a Sheets call through holds exactly when they name the same tab (case
    ignored) and every cell of the requested range, open-ended ones included, lies in the
    configured range. *)
Theorem range_containment s s' a b :
  parse s = Some a -> parse s' = Some b ->
  contains a b = true <->
  casefold (tab a) = casefold (tab b) /\ (forall c r, in_area b c r -> in_area a c r).
Proof. apply contains_cells. Qed.
