(* ===== verification/Chunking.v ===== *)
(** * Document chunking ([crewquarters_knowledge/chunking.py])

    A document is a list of extracted segments.  Their texts are joined, scanned
    for tokens, and cut into overlapping windows of tokens that prefer to end
    where a segment ends.  Text is 7-bit; a locator is the dict of positions that
    [extract.py] gives a segment. *)

From S2P Require Import Prelude Redaction.
From Stdlib Require Import Ascii.
#[local] Open Scope nat_scope.

Inductive LocVal := LInt (z : Z) | LText (s : string).
#[export] Instance LocVal_eq_dec : EqDecision LocVal.
Proof. solve_decision. Defined.

Abbreviation Locator := (gmap string LocVal) (only parsing).

Record Segment := mkSegment { seg_text : text; seg_locator : Locator }.

(** The locator of a chunk: the entries of its first segment and, when it ends in a
    segment with another locator, the [through] entry. *)
Record ChunkLocator := mkChunkLocator { cl_head : Locator; cl_through : option Locator }.

Record Chunk := mkChunk {
  ch_text : text;
  ch_token_count : nat;
  ch_locator : ChunkLocator
}.

(** ** Tokens: [\w+|[^\w\s]] *)

Definition is_word (c : ascii) : bool := is_letter c || is_digit c || one_of "_" c.

(** The spans [finditer] yields in [s], which starts at offset [pos]; [word] is where the
    word being read began. *)
Fixpoint token_spans (pos : nat) (word : option nat) (s : text) : list (nat * nat) :=
  match s with
  | [] => match word with Some a => [(a, pos)] | None => [] end
  | c :: s' =>
      if is_word c then token_spans (S pos) (Some (default pos word)) s'
      else
        match word with Some a => [(a, pos)] | None => [] end ++
        (if is_space c then [] else [(pos, S pos)]) ++
        token_spans (S pos) None s'
  end.

Definition spans_of (s : text) : list (nat * nat) := token_spans 0 None s.
Definition count_tokens (s : text) : nat := length (spans_of s).

(** ** The joined text *)

Definition newline : ascii := "010".
Definition SEPARATOR : text := [newline; newline].

Fixpoint joined (segments : list Segment) : text :=
  match segments with
  | [] => []
  | [s] => seg_text s
  | s :: rest => seg_text s ++ SEPARATOR ++ joined rest
  end.

Fixpoint segment_starts (offset : nat) (segments : list Segment) : list nat :=
  match segments with
  | [] => []
  | s :: rest => offset :: segment_starts (offset + (length (seg_text s) + length SEPARATOR)) rest
  end.

(** Binary search in a sorted list: the length of the prefix on which [p] holds
    ([bisect_left] with [x < key], [bisect_right] with [x <= key]). *)
Fixpoint bisect {A} (p : A -> bool) (l : list A) : nat :=
  match l with
  | [] => 0
  | x :: l' => if p x then S (bisect p l') else 0
  end.

(** [spans] are pairs: [(a, b) < (start, 0)] lexicographically. *)
Definition starts_before (start : nat) (sp : nat * nat) : bool :=
  (sp.1 <? start) || ((sp.1 =? start) && (sp.2 <? 0)).

Fixpoint insert_nat (n : nat) (l : list nat) : list nat :=
  match l with
  | [] => [n]
  | m :: l' => if n <? m then n :: l else if n =? m then l else m :: insert_nat n l'
  end.

(** [sorted({...})]. *)
Definition sorted_set (l : list nat) : list nat := foldr insert_nat [] l.

Definition boundaries_of (spans : list (nat * nat)) (starts : list nat) : list nat :=
  sorted_set (map (fun start => bisect (starts_before start) spans) (tail starts)).

(** ** The loop *)

Inductive Raised := ValueError | IndexError | OutOfFuel.

Definition locator_at (segments : list Segment) (starts : list nat) (i : nat) : option Locator :=
  match bisect (fun st => st <=? i) starts with
  | O => seg_locator <$> last segments
  | S k => seg_locator <$> segments !! k
  end.

Definition locator (segments : list Segment) (starts : list nat) (begin_ last_ : nat) : option ChunkLocator :=
  match locator_at segments starts begin_, locator_at segments starts last_ with
  | Some head, Some tail =>
      Some (if bool_decide (tail = head) then mkChunkLocator head None else mkChunkLocator head (Some tail))
  | _, _ => None
  end.

(** [int(max_tokens * SNAP_FRACTION)] with [SNAP_FRACTION = 0.75], exact in binary floating
    point. *)
Definition snap (max_tokens : nat) : nat := 3 * max_tokens / 4.

Definition window_end (n max_tokens : nat) (boundaries : list nat) (first : nat) : nat :=
  let end_ := Nat.min (first + max_tokens) n in
  if end_ <? n then
    let floor := first + snap max_tokens in
    match last (List.filter (fun b => (floor <? b) && (b <=? end_)) boundaries) with
    | Some b => b
    | None => end_
    end
  else end_.

Section chunk_loop.
Context (segments : list Segment) (document : text) (starts : list nat)
  (spans : list (nat * nat)) (boundaries : list nat) (max_tokens overlap : nat).

Definition chunk_at (first end_ : nat) : option Chunk :=
  match spans !! first, spans !! (end_ - 1) with
  | Some (begin_char, _), Some (_, end_char) =>
      match locator segments starts begin_char (end_char - 1) with
      | Some loc =>
          Some (mkChunk (take (end_char - begin_char) (drop begin_char document)) (end_ - first) loc)
      | None => None
      end
  | _, _ => None
  end.

Fixpoint chunk_loop (fuel first : nat) : Result Raised (list Chunk) :=
  if first <? length spans then
    match fuel with
    | O => Err OutOfFuel
    | S fuel' =>
        let end_ := window_end (length spans) max_tokens boundaries first in
        match chunk_at first end_ with
        | None => Err IndexError
        | Some c =>
            if end_ =? length spans then Ok [c]
            else match chunk_loop fuel' (Nat.max (end_ - overlap) (S first)) with
                 | Ok rest => Ok (c :: rest)
                 | Err e => Err e
                 end
        end
    end
  else Ok [].
End chunk_loop.

Definition chunk (segments : list Segment) (max_tokens overlap : Z) : Result Raised (list Chunk) :=
  if negb ((0 <=? overlap)%Z && (overlap <? max_tokens)%Z) then Err ValueError
  else
    let document := joined segments in
    let starts := segment_starts 0 segments in
    let spans := spans_of document in
    chunk_loop segments document starts spans (boundaries_of spans starts)
      (Z.to_nat max_tokens) (Z.to_nat overlap) (length spans) 0.

(** ** Citations *)

Definition rsplit1 (s : text) : text * option text :=
  let r := rev s in
  let tail := rev (take (bisect (fun c => negb (Ascii.eqb c " ")) r) r) in
  if length tail <? length s then (take (length s - length tail - 1) s, Some tail) else (s, None).

Definition val_str (v : LocVal) : text :=
  match v with LInt z => chars (pretty z) | LText s => chars s end.

Fixpoint position_from (keys : list string) (loc : Locator) : text :=
  match keys with
  | [] => []
  | key :: keys' =>
      match loc !! key with
      | Some v =>
          match loc !! "table"%string with
          | Some t => chars "table " ++ val_str t ++ chars ", "
          | None => []
          end ++ chars key ++ chars " " ++ val_str v
      | None => position_from keys' loc
      end
  end.
Definition position (loc : Locator) : text := position_from ["page"; "row"; "paragraph"; "line"]%string loc.

(** Truthiness of [locator.get("section")]. *)
Definition section_of (loc : Locator) : text :=
  match loc !! "section"%string with
  | Some (LInt 0) | None => []
  | Some v => val_str v
  end.

Definition labelled (section position : text) : text :=
  match section, position with
  | _ :: _, _ :: _ => section ++ chars " (" ++ position ++ chars ")"
  | [], _ => position
  | _, [] => section
  end.

Definition describe (l : ChunkLocator) : text :=
  let loc := cl_head l in
  let start := position loc in
  match cl_through l with
  | None => labelled (section_of loc) start
  | Some through =>
      if negb (bool_decide (through !! "section"%string = loc !! "section"%string)) then
        labelled (section_of loc) start ++ chars " to " ++ labelled (section_of through) (position through)
      else
        let end_ := position through in
        labelled (section_of loc)
          match end_ with
          | [] => start
          | _ =>
              if bool_decide ((rsplit1 end_).1 = (rsplit1 start).1) then
                start ++ chars "-" ++ default [] (rsplit1 end_).2
              else start ++ chars " to " ++ end_
          end
  end.

(** The two examples of the docstring of [describe]. *)
Example describe_pages :
  describe (mkChunkLocator {["page" := LInt 3]}%string (Some {["page" := LInt 4]}%string)) = chars "page 3-4".
Proof. vm_compute. reflexivity. Qed.
Example describe_section :
  describe (mkChunkLocator {["section" := LText "Refunds"; "line" := LInt 2]}%string None) = chars "Refunds (line 2)".
Proof. vm_compute. reflexivity. Qed.

(** ** Spans *)

(** Spans in order, from offset [lo] on, none empty, none overlapping. *)
Fixpoint ordered (lo : nat) (l : list (nat * nat)) : Prop :=
  match l with
  | [] => True
  | (a, b) :: l' => lo <= a /\ a < b /\ ordered b l'
  end.

Lemma ordered_weaken lo lo' l : lo' <= lo -> ordered lo l -> ordered lo' l.
Proof. destruct l as [|[a b] l]; simpl; [done|]. intros ? (? & ? & ?). split; [lia|done]. Qed.

Lemma token_spans_ordered s pos lo word :
  (forall a, word = Some a -> lo <= a < pos) -> lo <= pos -> ordered lo (token_spans pos word s).
Proof.
  revert pos lo word. induction s as [|c s IH]; intros pos lo word Hw Hlo; cbn [token_spans].
  - destruct word as [a|]; simpl; [|done]. specialize (Hw a eq_refl). lia.
  - destruct (is_word c).
    + apply IH; [|lia]. intros a [= <-]. destruct word as [a|]; simpl; [|lia]. specialize (Hw a eq_refl). lia.
    + assert (Hrest : ordered pos ((if is_space c then [] else [(pos, S pos)]) ++ token_spans (S pos) None s)).
      { destruct (is_space c); simpl; [apply IH; [done|lia]|]. split_and!; [lia|lia|apply IH; [done|lia]]. }
      destruct word as [a|]; simpl; [|by eapply ordered_weaken]. specialize (Hw a eq_refl). split_and!; [lia|lia|done].
Qed.

(** Every character that is not white space lies in a token. *)
Lemma token_spans_cover s pos word i :
  (forall a, word = Some a -> a < pos) ->
  (exists a, word = Some a /\ a <= i < pos) \/
  (pos <= i /\ exists c, s !! (i - pos) = Some c /\ is_space c = false) ->
  exists sp, sp ∈ token_spans pos word s /\ sp.1 <= i < sp.2.
Proof.
  revert pos word. induction s as [|c s IH]; intros pos word Hw Hi; cbn [token_spans].
  { destruct Hi as [(a & -> & Ha)|(_ & c & Hc & _)]; [|done]. exists (a, pos). split; [by left|done]. }
  assert (Hnext : forall w, (forall a, w = Some a -> a < S pos) -> pos < i ->
    (exists c', (c :: s) !! (i - pos) = Some c' /\ is_space c' = false) ->
    exists sp, sp ∈ token_spans (S pos) w s /\ sp.1 <= i < sp.2).
  { intros w Hw' Hlt (c' & Hc & Hs). apply IH; [done|]. right. split; [lia|]. exists c'.
    replace (i - pos) with (S (i - S pos)) in Hc by lia. by split. }
  destruct (is_word c).
  - assert (Hw' : forall a, Some (default pos word) = Some a -> a < S pos).
    { intros a [= <-]. destruct word as [b|]; simpl; [specialize (Hw b eq_refl)|]; lia. }
    destruct Hi as [(a & -> & Ha)|(Hle & Hc)].
    { apply IH; [done|]. left. exists a. split; [done|lia]. }
    destruct (decide (i = pos)) as [->|Hne]; [|apply Hnext; [done|lia|done]].
    apply IH; [done|]. left. exists (default pos word). split; [done|].
    destruct word as [b|]; simpl; [specialize (Hw b eq_refl)|]; lia.
  - destruct Hi as [(a & -> & Ha)|(Hle & Hc)]; [exists (a, pos); split; [by left|done]|].
    destruct (decide (i = pos)) as [->|Hne].
    + exists (pos, S pos). split; [|simpl; lia]. apply elem_of_app. right. apply elem_of_app. left.
      rewrite Nat.sub_diag in Hc. destruct Hc as (c' & [= <-] & ->). by left.
    + destruct (Hnext None) as (sp & Hsp & Hin); [done|lia|done|]. exists sp. split; [|done].
      apply elem_of_app. right. apply elem_of_app. by right.
Qed.

Lemma word_not_space c : is_word c = true -> is_space c = false.
Proof. destruct c as [[] [] [] [] [] [] [] []]; vm_compute; congruence. Qed.

Definition solid (d : text) (i : nat) : Prop := exists c, d !! i = Some c /\ is_space c = false.

(** A token holds no white space. *)
Lemma token_spans_solid d pos word sp i :
  (forall a j, word = Some a -> a <= j < pos -> solid d j) ->
  sp ∈ token_spans pos word (drop pos d) -> sp.1 <= i < sp.2 -> solid d i.
Proof.
  remember (drop pos d) as s eqn:Hd. revert pos word Hd.
  induction s as [|c s IH]; intros pos word Hd Hw Hsp Hi; cbn [token_spans] in Hsp.
  { destruct word as [a|]; [|set_solver]. apply list_elem_of_singleton in Hsp as ->. by apply (Hw a). }
  assert (Hc : d !! pos = Some c).
  { rewrite <- (Nat.add_0_r pos), <- lookup_drop, <- Hd. done. }
  assert (Hs : s = drop (S pos) d).
  { rewrite <- Nat.add_1_r, <- drop_drop, <- Hd. done. }
  destruct (is_word c) eqn:Hwc.
  - eapply IH; [done| |done|done]. intros a j [= <-] Hj. destruct (decide (j = pos)) as [->|Hne].
    { exists c. split; [done|by apply word_not_space]. }
    destruct word as [b|]; simpl in Hj; [|lia]. apply (Hw b); [done|lia].
  - apply elem_of_app in Hsp as [Hsp|[Hsp|Hsp]%elem_of_app].
    + destruct word as [a|]; [|set_solver]. apply list_elem_of_singleton in Hsp as ->. by apply (Hw a).
    + destruct (is_space c) eqn:Hsc; [set_solver|]. apply list_elem_of_singleton in Hsp as ->. simpl in Hi.
      exists c. by replace i with pos by lia.
    + apply (IH (S pos) None Hs); [done|done|done].
Qed.

Lemma spans_of_solid d sp i : sp ∈ spans_of d -> sp.1 <= i < sp.2 -> solid d i.
Proof. intros Hsp. apply (token_spans_solid d 0 None); [done|]. by rewrite drop_0. Qed.

Lemma spans_of_cover d i : solid d i -> exists sp, sp ∈ spans_of d /\ sp.1 <= i < sp.2.
Proof. intros (c & Hc). apply token_spans_cover; [done|]. right. split; [lia|]. exists c. by rewrite Nat.sub_0_r. Qed.

Lemma ordered_lookup lo l i j x y :
  ordered lo l -> i <= j -> l !! i = Some x -> l !! j = Some y -> lo <= x.1 /\ x.1 < x.2 /\ x.1 <= y.1 /\ x.2 <= y.2.
Proof.
  revert lo i j x y. induction l as [|[a b] l IH]; intros lo i j x y Ho Hij Hx Hy; [done|].
  simpl in Ho. destruct Ho as (H1 & H2 & H3). destruct i as [|i].
  - injection Hx as <-. simpl. destruct j as [|j]; [injection Hy as <-; simpl; lia|].
    destruct (IH b j j y y H3) as (K1 & K2 & K3); [lia|done|done|]. lia.
  - destruct j as [|j]; [lia|]. destruct (IH b i j x y H3) as (K1 & K2 & K3); [lia|done|done|]. lia.
Qed.

Lemma spans_of_ordered d : ordered 0 (spans_of d).
Proof. apply token_spans_ordered; [done|lia]. Qed.

(** ** Segments *)

Lemma joined_cons s t rest : joined (s :: t :: rest) = seg_text s ++ SEPARATOR ++ joined (t :: rest).
Proof. done. Qed.

(** A character that is not white space belongs to the segment that [bisect_right] finds. *)
Lemma segment_found segments off i c :
  joined segments !! i = Some c -> is_space c = false ->
  exists k s, bisect (fun st => st <=? off + i) (segment_starts off segments) = S k /\
    segments !! k = Some s /\
    exists st, segment_starts off segments !! k = Some st /\ st <= off + i < st + length (seg_text s).
Proof.
  revert off i. induction segments as [|s [|t rest] IH]; intros off i Hi Hc; [done| |].
  - exists 0, s. simpl. rewrite (proj2 (Nat.leb_le off (off + i))) by lia. split_and!; [done|done|].
    exists off. split; [done|]. apply lookup_lt_Some in Hi. simpl in Hi. lia.
  - rewrite joined_cons in Hi. destruct (decide (i < length (seg_text s))) as [Hlt|Hge].
    + exists 0, s. cbn [segment_starts bisect]. rewrite (proj2 (Nat.leb_le off (off + i))) by lia.
      rewrite (proj2 (Nat.leb_gt _ (off + i))) by (simpl; lia). split_and!; [done|done|].
      exists off. split; [done|lia].
    + rewrite lookup_app_r in Hi by lia. destruct (decide (i - length (seg_text s) < 2)) as [Hsep|Hsep].
      { exfalso. rewrite lookup_app_l in Hi by (simpl; lia). unfold SEPARATOR in Hi.
        destruct (i - length (seg_text s)) as [|[|?]]; [| |lia]; injection Hi as <-; by vm_compute in Hc. }
      rewrite lookup_app_r in Hi by (simpl; lia). change (length SEPARATOR) with 2 in Hi.
      destruct (IH (off + (length (seg_text s) + 2)) _ Hi Hc) as (k & x & Hk & Hx & st & Hst & Hin).
      replace (off + (length (seg_text s) + 2) + (i - length (seg_text s) - 2)) with (off + i) in Hk, Hin by lia.
      exists (S k), x. split_and!; [|done|by exists st].
      change (segment_starts off (s :: t :: rest)) with (off :: segment_starts (off + (length (seg_text s) + 2)) (t :: rest)).
      cbn [bisect]. rewrite (proj2 (Nat.leb_le off (off + i))) by lia. by rewrite Hk.
Qed.

(** ** Windows *)

(** Membership in the candidates of a window. *)
Lemma last_filter_bounds (floor end_ : nat) bs b :
  last (List.filter (fun b => (floor <? b) && (b <=? end_)) bs) = Some b -> floor < b <= end_.
Proof.
  intros Hl. apply last_Some_elem_of in Hl. apply list_elem_of_In, filter_In in Hl as [_ Hb].
  apply andb_true_iff in Hb as [H1%Nat.ltb_lt H2%Nat.leb_le]. lia.
Qed.

Lemma window_end_bounds n max_tokens bs first :
  0 < max_tokens -> first < n ->
  let e := window_end n max_tokens bs first in
  first < e <= n /\ e <= first + max_tokens /\ (e < n -> first + snap max_tokens < e \/ e = first + max_tokens).
Proof.
  intros Hm Hf. unfold window_end. destruct (Nat.ltb_spec (Nat.min (first + max_tokens) n) n) as [Hlt|Hge].
  - destruct (last _) as [b|] eqn:Hl; [apply last_filter_bounds in Hl; lia|lia].
  - lia.
Qed.

(** The token windows of a result: each chunk with the tokens it was cut from. *)
Inductive cut (segments : list Segment) (document : text) (starts : list nat) (spans : list (nat * nat))
    (max_tokens overlap : nat) : nat -> list Chunk -> Prop :=
| cut_nil first : length spans <= first -> cut segments document starts spans max_tokens overlap first []
| cut_last first c :
    first < length spans <= first + max_tokens ->
    chunk_at segments document starts spans first (length spans) = Some c ->
    cut segments document starts spans max_tokens overlap first [c]
| cut_cons first end_ c rest :
    first < end_ < length spans -> end_ <= first + max_tokens ->
    chunk_at segments document starts spans first end_ = Some c ->
    cut segments document starts spans max_tokens overlap (Nat.max (end_ - overlap) (S first)) rest ->
    cut segments document starts spans max_tokens overlap first (c :: rest).

(** ** Correctness *)

(** The segment that the character at offset [i] of the document comes from. *)
Definition in_segment (segments : list Segment) (i : nat) (s : Segment) : Prop :=
  exists k st, segments !! k = Some s /\ segment_starts 0 segments !! k = Some st /\
    st <= i < st + length (seg_text s).

(** [c] is the excerpt of the document that starts at [b], and its locator names the segments
    of its first and of its last character. *)
Record excerpt (segments : list Segment) (c : Chunk) (b : nat) : Prop := mkExcerpt {
  ex_text : ch_text c = take (length (ch_text c)) (drop b (joined segments));
  ex_nonempty : ch_text c <> [];
  ex_located : exists s t,
    in_segment segments b s /\ in_segment segments (b + length (ch_text c) - 1) t /\
    ch_locator c = mkChunkLocator (seg_locator s)
      (if bool_decide (seg_locator t = seg_locator s) then None else Some (seg_locator t))
}.

Section chunk_correct.
Context (segments : list Segment) (max_tokens overlap : nat).
Let document := joined segments.
Let spans := spans_of document.
Let starts := segment_starts 0 segments.

Lemma locator_at_solid i :
  solid document i -> exists s, locator_at segments starts i = Some (seg_locator s) /\ in_segment segments i s.
Proof.
  intros (c & Hc & Hs). destruct (segment_found segments 0 i c Hc Hs) as (k & s & Hk & Hl & st & Hst & Hin).
  exists s. split; [|by exists k, st]. unfold locator_at, starts. simpl in Hk. by rewrite Hk, Hl.
Qed.

(** Cutting tokens [first, end_) out of the document never fails. *)
Lemma chunk_at_spec first end_ :
  first < end_ <= length spans ->
  exists c b, chunk_at segments document starts spans first end_ = Some c /\ ch_token_count c = end_ - first /\
    excerpt segments c b /\
    forall k sp, first <= k < end_ -> spans !! k = Some sp -> b <= sp.1 /\ sp.2 <= b + length (ch_text c).
Proof.
  intros Hr. destruct (lookup_lt_is_Some_2 spans first) as [[b b'] Hb]; [lia|].
  destruct (lookup_lt_is_Some_2 spans (end_ - 1)) as [[e' e] He]; [lia|].
  pose proof (spans_of_ordered document) as Ho. fold spans in Ho.
  destruct (ordered_lookup _ _ _ _ _ _ Ho (ltac:(lia) : first <= end_ - 1) Hb He) as (_ & Hb1 & Hb2 & Hb3).
  destruct (ordered_lookup _ _ _ _ _ _ Ho (Nat.le_refl (end_ - 1)) He He) as (_ & He1 & _).
  simpl in *. assert (Hsb : solid document b).
  { eapply spans_of_solid; [exact (list_elem_of_lookup_2 _ _ _ Hb)|simpl; lia]. }
  assert (Hse : solid document (e - 1)).
  { eapply spans_of_solid; [exact (list_elem_of_lookup_2 _ _ _ He)|simpl; lia]. }
  destruct (locator_at_solid _ Hsb) as (s & Hls & Hins). destruct (locator_at_solid _ Hse) as (t & Hlt & Hint).
  destruct Hse as (ce & Hce & _). apply lookup_lt_Some in Hce.
  assert (Hlen : length (take (e - b) (drop b document)) = e - b) by (rewrite length_take, length_drop; lia).
  eexists _, b. unfold chunk_at, locator. rewrite Hb, He, Hls, Hlt. split_and!; [done|done| |].
  - split; simpl; rewrite ?Hlen.
    + done.
    + intros E. rewrite E in Hlen. simpl in Hlen. lia.
    + exists s, t. replace (b + (e - b) - 1) with (e - 1) by lia. split_and!; [done|done|].
      by case_bool_decide.
  - simpl. intros k sp Hk Hsp. rewrite Hlen.
    destruct (ordered_lookup _ _ _ _ _ _ Ho (ltac:(lia) : first <= k) Hb Hsp) as (_ & _ & K1 & _).
    destruct (ordered_lookup _ _ _ _ _ _ Ho (ltac:(lia) : k <= end_ - 1) Hsp He) as (_ & _ & _ & K2).
    simpl in *. lia.
Qed.

(** The loop ends within as many rounds as there are tokens. *)
Lemma chunk_loop_cut boundaries fuel first :
  0 < max_tokens -> length spans - first <= fuel ->
  exists chunks,
    chunk_loop segments document starts spans boundaries max_tokens overlap fuel first = Ok chunks /\
    cut segments document starts spans max_tokens overlap first chunks.
Proof.
  intros Hm. revert first. induction fuel as [|fuel IH]; intros first Hf; cbn [chunk_loop].
  - destruct (Nat.ltb_spec first (length spans)); [lia|]. eexists. split; [done|by constructor].
  - destruct (Nat.ltb_spec first (length spans)) as [Hlt|Hge]; [|eexists; split; [done|by constructor]].
    pose proof (window_end_bounds _ max_tokens boundaries _ Hm Hlt) as (Hw1 & Hw2 & _).
    set (e := window_end _ _ _ _) in *. destruct (chunk_at_spec first e) as (c & b & Hc & _); [lia|]. rewrite Hc.
    destruct (Nat.eqb_spec e (length spans)) as [He|He].
    + exists [c]. split; [done|]. apply cut_last; [lia|by rewrite <- He].
    + destruct (IH (Nat.max (e - overlap) (S first))) as (rest & Hrest & Hcut); [lia|]. rewrite Hrest.
      exists (c :: rest). split; [done|]. eapply (cut_cons _ _ _ _ _ _ first e); [lia|lia|done|done].
Qed.

(** Every token from [first] on is in a chunk, and every chunk is a window of tokens. *)
Lemma cut_covers first chunks k :
  cut segments document starts spans max_tokens overlap first chunks -> first <= k < length spans ->
  exists c f e, c ∈ chunks /\ f <= k < e /\ e <= length spans /\ chunk_at segments document starts spans f e = Some c.
Proof.
  induction 1 as [|first c Hr Hc|first e c rest Hr Hm Hc Hcut IH]; intros Hk; [lia| |].
  - exists c, first, (length spans). split_and!; [by left|lia|lia|lia|done].
  - destruct (decide (k < e)) as [Hlt|Hge]; [exists c, first, e; split_and!; [by left|lia|lia|lia|done]|].
    destruct IH as (c' & f & e' & Hin & K); [lia|]. exists c', f, e'. split; [by right|done].
Qed.

Lemma cut_windows first chunks c :
  cut segments document starts spans max_tokens overlap first chunks -> c ∈ chunks ->
  exists f e, f < e <= length spans /\ e <= f + max_tokens /\ chunk_at segments document starts spans f e = Some c.
Proof.
  induction 1 as [|first c' Hr Hc|first e c' rest Hr Hm Hc Hcut IH]; intros Hin; [set_solver| |].
  - apply list_elem_of_singleton in Hin as ->. exists first, (length spans). split_and!; [lia|lia|lia|done].
  - apply elem_of_cons in Hin as [->|Hin]; [exists first, e; split_and!; [lia|lia|lia|done]|by apply IH].
Qed.
End chunk_correct.

(** Chunking loses nothing and stays in bounds.  For every document and every admissible
    window and overlap it terminates with a list of chunks, raising nothing; each chunk is a
    contiguous excerpt of the document with between one and [max_tokens] tokens, whose locator
    names the segments of its first and last character; and every character that is not white
    space is in the excerpt of some chunk. *)
Theorem chunk_complete segments max_tokens overlap :
  (0 <= overlap < max_tokens)%Z ->
  exists chunks, chunk segments max_tokens overlap = Ok chunks /\
    (forall c, c ∈ chunks ->
      1 <= ch_token_count c <= Z.to_nat max_tokens /\ exists b, excerpt segments c b) /\
    (forall i ch, joined segments !! i = Some ch -> is_space ch = false ->
      exists c b, c ∈ chunks /\ excerpt segments c b /\ b <= i < b + length (ch_text c)).
Proof.
  intros Hr. unfold chunk. rewrite (proj2 (Z.leb_le _ _)), (proj2 (Z.ltb_lt _ _)) by lia.
  destruct (chunk_loop_cut segments (Z.to_nat max_tokens) (Z.to_nat overlap)
    (boundaries_of (spans_of (joined segments)) (segment_starts 0 segments)) (length (spans_of (joined segments))) 0)
    as (chunks & Hok & Hcut); [lia|lia|].
  exists chunks. split_and!; [done| |].
  - intros c Hc. destruct (cut_windows _ _ _ _ _ c Hcut Hc) as (f & e & H1 & H2 & H3).
    destruct (chunk_at_spec segments f e) as (c' & b & H4 & H5 & H6 & _); [lia|].
    rewrite H3 in H4. injection H4 as <-. split; [lia|by exists b].
  - intros i ch Hi Hs. destruct (spans_of_cover (joined segments) i) as (sp & Hsp & Hin); [by exists ch|].
    apply list_elem_of_lookup in Hsp as [k Hk].
    destruct (cut_covers _ _ _ _ _ k Hcut) as (c & f & e & Hc & H1 & H2 & H3).
    { apply lookup_lt_Some in Hk. lia. }
    destruct (chunk_at_spec segments f e) as (c' & b & H4 & _ & H6 & H7); [lia|].
    rewrite H3 in H4. injection H4 as <-. destruct (H7 k sp H1 Hk). exists c, b. split_and!; [done|done|lia|lia].
Qed.
