(* ===== verification/Knowledge.v ===== *)
(** * The knowledge service ([knowledge/service.py], [worker.py], [isolation.py], [models.py])

    Knowledge bases hold documents; a document is uploaded, ingested by a background job
    (extract, chunk, embed, index) and queried.  Each transaction of the service is a
    computation on the rows ([KM]); the worker carries a job through several transactions
    ([advance], one per call), between which anything else may happen.  Files are represented
    by their contents at upload only.  The embedding model and the parsers are parameters, the
    latter through the way the extraction process ends. *)

From stdpp Require Import sorting.
From S2P Require Import Prelude Json Redaction JsonText States Jobs RunModel A1 Chunking Evidence.
From Stdlib Require Import Ascii QArith Qround.
#[local] Open Scope Z_scope.

(** ** Rows *)

Record KnowledgeBase := mkBase {
  kb_id : uuid;
  kb_owner_id : uuid;
  kb_name : string;
  kb_embedding_profile : string;
  kb_embedding_dimension : Z;
  kb_created_at : instant
}.

Inductive DocState := DOC_PENDING | DOC_PROCESSING | DOC_READY | DOC_FAILED.
#[export] Instance DocState_eq_dec : EqDecision DocState.
Proof. solve_decision. Defined.

Record Extracted := mkExtracted { ex_segments : nat; ex_chunks : nat; ex_tokens : nat }.
#[export] Instance Extracted_eq_dec : EqDecision Extracted.
Proof. solve_decision. Defined.

Record Document := mkDocument {
  doc_id : uuid;
  doc_kb_id : uuid;
  doc_name : string;
  doc_mime : string;
  doc_path : string;
  doc_sha256 : string;
  doc_bytes : Z;
  doc_state : DocState;
  doc_extracted : option Extracted;
  doc_error : option string;
  doc_updated_at : instant
}.

#[export] Instance Document_eq_dec : EqDecision Document.
Proof. solve_decision. Defined.

#[export] Instance eta_Document : Eta Document := fun r =>
  mkDocument (doc_id r) (doc_kb_id r) (doc_name r) (doc_mime r) (doc_path r) (doc_sha256 r) (doc_bytes r)
    (doc_state r) (doc_extracted r) (doc_error r) (doc_updated_at r).

(** The embedding model: [Embedder] with the distance of the vector column. *)
Class Embedder := {
  Vec : Type;
  emb_profile : string;
  emb_dimension : Z;
  embed_documents : list text -> list Vec;
  embed_query : text -> Vec;
  cosine_distance : Vec -> Vec -> Q
}.

Section knowledge.
Context {clk : Clock} {dig : Digest} {emb : Embedder}.

Record DocumentChunk := mkDocumentChunk {
  dc_id : uuid;
  dc_document_id : uuid;
  dc_ordinal : nat;
  dc_text : text;
  dc_token_count : nat;
  dc_locator : ChunkLocator;
  dc_embedding : Vec
}.

Record Knowledge := mkKnowledge {
  kn_bases : gmap uuid KnowledgeBase;
  kn_documents : gmap uuid Document;
  kn_chunks : list DocumentChunk;
  kn_jobs : JobQueue;
  kn_tick : nat;
  kn_fresh : uuid;
  kn_now : instant
}.

#[export] Instance eta_Knowledge : Eta Knowledge := fun r =>
  mkKnowledge (kn_bases r) (kn_documents r) (kn_chunks r) (kn_jobs r) (kn_tick r) (kn_fresh r) (kn_now r).

Definition KM := Tx PlatformError Knowledge.

Definition kn_uuid7 : KM uuid := fun d => Ok (kn_fresh d, d <| kn_fresh ::= N.succ |>).

Definition kn_enqueue (typ : string) (payload : JobPayload) (key : DedupeKey) (max_attempts : Z) : KM unit :=
  modify (fun d =>
    d <| kn_jobs := (enqueue (kn_now d) (wall (kn_tick d)) typ payload (Some key) None max_attempts (kn_jobs d)).2 |>
      <| kn_tick ::= Datatypes.S |>).

Definition INGEST_JOB : string := "knowledge.ingest".
Definition PURGE_JOB : string := "knowledge.purge".

(** A flush writes the row, and its [updated_at], when a column has changed. *)
Definition put_document (doc : Document) : KM unit :=
  modify (fun d =>
    if bool_decide (kn_documents d !! doc_id doc = Some doc) then d
    else d <| kn_documents ::= <[doc_id doc := doc <| doc_updated_at := kn_now d |>]> |>).

(** ** Knowledge bases *)

Definition get_kb (kb : uuid) : KM KnowledgeBase :=
  let! d := get in
  match kn_bases d !! kb with
  | Some row => ret row
  | None => raise (not_found (uuid_str kb))
  end.

(** The unique index on [(owner_id, name)] refuses the commit. *)
Definition create_kb (owner_id : uuid) (name : string) : KM KnowledgeBase :=
  let! id := kn_uuid7 in
  let! d := get in
  let kb := mkBase id owner_id name emb_profile emb_dimension (kn_now d) in
  guard (negb (bool_decide (map_Exists (fun _ b => kb_owner_id b = owner_id /\ kb_name b = name) (kn_bases d))))
    (conflict "DUPLICATE_NAME" []) ;;
  modify (fun d => d <| kn_bases ::= <[id := kb]> |>) ;;
  ret kb.

Definition enqueue_purge (relative : string) (dedupe : uuid) : KM unit :=
  kn_enqueue PURGE_JOB (path_payload relative) (KPurge dedupe) 10.

(** Deleting a document deletes its chunks, deleting a base its documents ([ON DELETE
    CASCADE]). *)
Definition drop_chunks (gone : uuid -> bool) (d : Knowledge) : Knowledge :=
  d <| kn_chunks ::= List.filter (fun c => negb (gone (dc_document_id c))) |>.

Definition in_base (kb : uuid) (d : Knowledge) (id : uuid) : bool :=
  match kn_documents d !! id with Some doc => bool_decide (doc_kb_id doc = kb) | None => false end.

Definition delete_kb (kb : uuid) : KM unit :=
  let! row := get_kb kb in
  modify (fun d =>
    drop_chunks (in_base kb d) d
      <| kn_documents ::= filter (fun x => doc_kb_id x.2 <> kb) |>
      <| kn_bases ::= delete kb |>) ;;
  enqueue_purge (uuid_str kb) kb.

(** ** Uploads *)

Definition backslash : ascii := "092".
Definition slashed (c : ascii) : ascii := if Ascii.eqb c backslash then "/"%char else c.

(** [PurePosixPath(name).name]: the last component other than the empty one and [.]. *)
Definition path_name (s : text) : text :=
  default [] (last (List.filter (fun p => negb (bool_decide (p = []) || bool_decide (p = ["."%char])))
    (split_at "/" s))).

(** [[\x00-\x08\x0b-\x1f\x7f]]. *)
Definition is_control (c : ascii) : bool := between 0 8 c || between 11 31 c || between 127 127 c.

Definition MAX_FILENAME : nat := 200.

Definition safe_filename (name : text) : Result string text :=
  let base := strip (List.filter (fun c => negb (is_control c)) (path_name (map slashed name))) in
  if bool_decide (base = []) || bool_decide (base = chars ".") || bool_decide (base = chars "..")
     || (MAX_FILENAME <? length base)%nat
  then Err "INVALID_FILENAME"%string
  else Ok base.

(** [PurePosixPath(name).suffix.lower()]. *)
Definition suffix (name : text) : text :=
  let ext := rev (take (bisect (fun c => negb (Ascii.eqb c ".")) (rev name)) (rev name)) in
  if (bool_decide (ext = [])) || (length name <=? S (length ext))%nat then []
  else map lower ("."%char :: ext).

Definition DOCX_MIME : string := "application/vnd.openxmlformats-officedocument.wordprocessingml.document".
Definition SUPPORTED : list (string * string) :=
  [(".txt", "text/plain"); (".md", "text/markdown"); (".csv", "text/csv"); (".pdf", "application/pdf");
   (".docx", DOCX_MIME)]%string.

Definition starts_with (p s : text) : bool := match expect p s with Some _ => true | None => false end.

Definition detect_mime (filename head : text) : Result string string :=
  match assoc (unchars (suffix filename)) SUPPORTED with
  | None => Err "UNSUPPORTED_TYPE"%string
  | Some mime =>
      let ok :=
        if String.eqb mime "application/pdf" then starts_with (chars "%PDF-") head
        else if String.eqb mime DOCX_MIME then starts_with ["P"; "K"; "003"; "004"]%char head
        else negb (has_char "000" head) in
      if ok then Ok mime else Err "CONTENT_MISMATCH"%string
  end.

(** The loop that stages the blocks of the upload: size and content so far. *)
Fixpoint stage (max_upload_bytes size : Z) (content : text) (blocks : list text) : Result PlatformError (Z * text) :=
  match blocks with
  | [] | [] :: _ => Ok (size, content)
  | block :: rest =>
      let size' := size + Z.of_nat (length block) in
      if max_upload_bytes <? size' then Err (mkError "PAYLOAD_TOO_LARGE" 413 [])
      else stage max_upload_bytes size' (content ++ block) rest
  end.

Definition lift_result {A} (r : Result PlatformError A) : KM A :=
  match r with Ok a => ret a | Err e => raise e end.
Definition lift_extraction {A} (r : Result string A) : KM A :=
  match r with Ok a => ret a | Err code => raise (mkError code 422 []) end.

Definition same_file (kb : uuid) (sha : string) (_ : uuid) (doc : Document) : Prop :=
  doc_kb_id doc = kb /\ doc_sha256 doc = sha.

(** The check for an existing document and the unique index on [(kb_id, sha256)] that backs
    it up both answer [DUPLICATE_DOCUMENT]. *)
Definition upload (max_upload_bytes : Z) (kb : uuid) (filename : text) (blocks : list text) : KM Document :=
  get_kb kb ;;
  let! name := lift_extraction (safe_filename filename) in
  let! staged := lift_result (stage max_upload_bytes 0 [] blocks) in
  guard (negb (staged.1 =? 0)) (mkError "EMPTY_DOCUMENT" 422 []) ;;
  let! mime := lift_extraction (detect_mime name (take 8192 (default [] (head blocks)))) in
  let sha := sha256_hex (unchars staged.2) in
  let! d := get in
  guard (negb (bool_decide (map_Exists (same_file kb sha) (kn_documents d)))) (conflict "DUPLICATE_DOCUMENT" []) ;;
  let! id := kn_uuid7 in
  let doc := mkDocument id kb (unchars name) mime
    (uuid_str kb +:+ "/" +:+ uuid_str id +:+ unchars (suffix name))%string sha staged.1 DOC_PENDING None None (kn_now d) in
  put_document doc ;;
  kn_enqueue INGEST_JOB (document_payload id) (KIngest id) 3 ;;
  ret doc.

Definition delete_document (id : uuid) : KM unit :=
  let! d := get in
  match kn_documents d !! id with
  | None => raise (not_found (uuid_str id))
  | Some doc =>
      modify (fun d => drop_chunks (fun i => bool_decide (i = id)) d <| kn_documents ::= delete id |>) ;;
      enqueue_purge (doc_path doc) id
  end.

Definition reindex_document (id : uuid) : KM Document :=
  let! d := get in
  match kn_documents d !! id with
  | None => raise (not_found (uuid_str id))
  | Some doc =>
      let doc' := doc <| doc_state := DOC_PENDING |> <| doc_error := None |> in
      put_document doc' ;;
      kn_enqueue INGEST_JOB (document_payload id) (KIngest id) 3 ;;
      ret doc'
  end.

(** ** Preparation in the extraction process ([isolation.py]) *)

Definition MAX_EXTRACTED_CHARS : nat := Z.to_nat 5000000.
Definition MAX_CHUNKS : nat := Z.to_nat 2500.

Record Prepared := mkPrepared { pr_pieces : list Chunk; pr_segments : nat; pr_tokens : nat }.

(** How the child ends: with what [extract] gave it, out of memory, in another exception, by
    the clock, by a signal (a resource limit), or without a usable answer. *)
Inductive ChildEnd :=
| Extraction (r : Result string (list Segment))
| MemoryError
| ParserError
| TimedOut
| Killed
| Broken.

Inductive IngestError := ExtractionError (code : string) | RuntimeError.

Definition run_request (segments : list Segment) (chunk_tokens overlap_tokens : Z) : Result IngestError Prepared :=
  if (MAX_EXTRACTED_CHARS <? list_sum (map (fun s => length (seg_text s)) segments))%nat then
    Err (ExtractionError "DOCUMENT_TOO_COMPLEX")
  else match chunk segments chunk_tokens overlap_tokens with
       | Err _ => Err (ExtractionError "EXTRACTION_FAILED")
       | Ok pieces =>
           if (MAX_CHUNKS <? length pieces)%nat then Err (ExtractionError "DOCUMENT_TOO_COMPLEX")
           else Ok (mkPrepared pieces (length segments)
                  (list_sum (map (fun s => count_tokens (seg_text s)) segments)))
       end.

Definition prepare (child : ChildEnd) (chunk_tokens overlap_tokens : Z) : Result IngestError Prepared :=
  match child with
  | Extraction (Ok segments) => run_request segments chunk_tokens overlap_tokens
  | Extraction (Err code) => Err (ExtractionError code)
  | MemoryError => Err (ExtractionError "DOCUMENT_TOO_COMPLEX")
  | ParserError => Err (ExtractionError "EXTRACTION_FAILED")
  | TimedOut => Err (ExtractionError "EXTRACTION_TIMEOUT")
  | Killed => Err (ExtractionError "DOCUMENT_TOO_COMPLEX")
  | Broken => Err RuntimeError
  end.

(** ** Ingestion *)

Definition BATCH_SIZE : nat := 32.

(** [for start in range(0, len(pieces), BATCH_SIZE)]. *)
Fixpoint embed_batches (fuel : nat) (texts : list text) : list Vec :=
  match texts, fuel with
  | [], _ | _, O => []
  | _, Datatypes.S fuel' => embed_documents (take BATCH_SIZE texts) ++ embed_batches fuel' (drop BATCH_SIZE texts)
  end.
Definition embed_all (texts : list text) : list Vec := embed_batches (length texts) texts.

(** The first transaction: [None] for a document deleted while queued. *)
Definition ingest_begin (id : uuid) : KM (option string) :=
  let! d := get in
  match kn_documents d !! id with
  | None => ret None
  | Some doc =>
      let! kb := get_kb (doc_kb_id doc) in
      put_document (doc <| doc_state := DOC_PROCESSING |>) ;;
      ret (Some (kb_embedding_profile kb))
  end.

(** Between the transactions: what is to be indexed, with its vectors. *)
Definition ingest_prepare (profile : string) (child : ChildEnd) (chunk_tokens overlap_tokens : Z)
    : Result IngestError (Prepared * list Vec) :=
  if negb (String.eqb profile emb_profile) then Err (ExtractionError "EMBEDDING_PROFILE_MISMATCH")
  else match prepare child chunk_tokens overlap_tokens with
       | Err e => Err e
       | Ok prepared =>
           match pr_pieces prepared with
           | [] => Err (ExtractionError "EMPTY_DOCUMENT")
           | pieces => Ok (prepared, embed_all (map ch_text pieces))
           end
       end.

(** An exception that is not a [PlatformError]. *)
Definition VALUE_ERROR : PlatformError := mkError "ValueError" 500 [].

(** The rows of the chunks, with fresh ids; [zip(..., strict=True)] refuses lists of
    different lengths. *)
Fixpoint chunk_rows (id : uuid) (ordinal : nat) (pieces : list Chunk) (vectors : list Vec) : KM (list DocumentChunk) :=
  match pieces, vectors with
  | [], [] => ret []
  | p :: pieces', v :: vectors' =>
      let! cid := kn_uuid7 in
      let! rest := chunk_rows id (Datatypes.S ordinal) pieces' vectors' in
      ret (mkDocumentChunk cid id ordinal (ch_text p) (ch_token_count p) (ch_locator p) v :: rest)
  | _, _ => raise VALUE_ERROR
  end.

(** The second transaction: [false] for a document deleted meanwhile. *)
Definition ingest_finish (id : uuid) (prepared : Prepared) (vectors : list Vec) : KM bool :=
  let! d := get in
  match kn_documents d !! id with
  | None => ret false
  | Some doc =>
      modify (drop_chunks (fun i => bool_decide (i = id))) ;;
      let! rows := chunk_rows id 0 (pr_pieces prepared) vectors in
      modify (fun d => d <| kn_chunks ::= fun cs => cs ++ rows |>) ;;
      put_document (doc <| doc_state := DOC_READY |> <| doc_error := None |>
        <| doc_extracted := Some (mkExtracted (pr_segments prepared) (length (pr_pieces prepared)) (pr_tokens prepared)) |>) ;;
      ret true
  end.

Definition mark_failed (id : uuid) (code : string) (state : DocState) : KM unit :=
  let! d := get in
  match kn_documents d !! id with
  | None => ret tt
  | Some doc => put_document (doc <| doc_state := state |> <| doc_error := Some code |>)
  end.

(** [state IN ('PENDING', 'PROCESSING')] with no live ingest job. *)
Definition unsettled (doc : Document) : bool :=
  match doc_state doc with DOC_PENDING | DOC_PROCESSING => true | _ => false end.

Definition ingesting (q : JobQueue) (id : uuid) : bool :=
  existsb (fun j => String.eqb (job_type j) INGEST_JOB && live j && bool_decide (pl_document_id (job_payload j) = Some id))
    (jq_rows q).

Definition abandoned (d : Knowledge) (grace_seconds : Z) (doc : Document) : bool :=
  unsettled doc && (doc_updated_at doc <? kn_now d - seconds grace_seconds) && negb (ingesting (kn_jobs d) (doc_id doc)).

Definition fail_abandoned (grace_seconds : Z) : KM nat :=
  let! d := get in
  let failed := filter (fun x => abandoned d grace_seconds x.2 = true) (kn_documents d) in
  modify (fun d0 => d0 <| kn_documents ::= fmap (fun doc =>
    if abandoned d grace_seconds doc then
      doc <| doc_state := DOC_FAILED |> <| doc_error := Some "INGEST_ABANDONED"%string |> <| doc_updated_at := kn_now d |>
    else doc) |>) ;;
  ret (size failed).

(** ** The worker *)

(** What the worker does next with its job, one transaction at a time: the transactions of
    [ingest], then those that settle the job. *)
Inductive Phase :=
| Begin
| Refuse (code : string)                    (* [mark_failed] inside [ingest] *)
| Index (prepared : Prepared) (vectors : list Vec)
| Purge
| FailJob (timeout : bool)                  (* [TimeoutError], or another exception *)
| FailPurge
| MarkDocument (code : string) (state : DocState)
| CompleteJob
| Finished.

Inductive Timeout := NotYet | BeforeCommit | AfterCommit.
Inductive PurgeEnd := Purged | PurgeRefused | PurgeFailed.

(** What the outside contributes to a step: how the extraction process ended, whether
    [wait_for] gave up, how the files went, the jitter of the backoff. *)
Record Input := mkInput {
  in_child : ChildEnd;
  in_timeout : Timeout;
  in_purge : PurgeEnd;
  in_rnd : Q
}.

(** A transaction on its own: an exception leaves the rows as they were. *)
Definition attempt {A} (m : KM A) (d : Knowledge) : Result PlatformError A * Knowledge :=
  match m d with Ok (a, d') => (Ok a, d') | Err e => (Err e, d) end.

(** A transaction of [ingest] under [asyncio.wait_for]. *)
Definition within_limit {A} (t : Timeout) (m : KM A) (next : Result PlatformError A -> Phase) (d : Knowledge)
    : Phase * Knowledge :=
  match t with
  | BeforeCommit => (FailJob true, d)
  | AfterCommit => (FailJob true, (attempt m d).2)
  | NotYet => let '(r, d') := attempt m d in (next r, d')
  end.

Definition begun (child : ChildEnd) (chunk_tokens overlap_tokens : Z) (r : Result PlatformError (option string)) : Phase :=
  match r with
  | Err _ => FailJob false
  | Ok None => CompleteJob
  | Ok (Some profile) =>
      match ingest_prepare profile child chunk_tokens overlap_tokens with
      | Ok (prepared, vectors) => Index prepared vectors
      | Err (ExtractionError code) => Refuse code
      | Err RuntimeError => FailJob false
      end
  end.

Definition error_code (code : string) : Json := JObj [("code", JStr code)]%string.

Definition advance (chunk_tokens overlap_tokens : Z) (worker : string) (job : Job) (i : Input) (ph : Phase)
    (d : Knowledge) : Phase * Knowledge :=
  let id := default 0%N (pl_document_id (job_payload job)) in
  match ph with
  | Begin => within_limit (in_timeout i) (ingest_begin id) (begun (in_child i) chunk_tokens overlap_tokens) d
  | Refuse code =>
      within_limit (in_timeout i) (mark_failed id code DOC_FAILED)
        (fun r => match r with Ok _ => CompleteJob | Err _ => FailJob false end) d
  | Index prepared vectors =>
      within_limit (in_timeout i) (ingest_finish id prepared vectors)
        (fun r => match r with Ok _ => CompleteJob | Err _ => FailJob false end) d
  | Purge => (match in_purge i with PurgeFailed => FailPurge | _ => CompleteJob end, d)
  | FailJob true =>
      (MarkDocument "INGEST_TIMEOUT" DOC_FAILED,
       d <| kn_jobs := (fail (kn_now d) (job_id job) worker (error_code "INGEST_TIMEOUT") false (in_rnd i) (kn_jobs d)).2 |>)
  | FailJob false =>
      let '(state, q) := fail (kn_now d) (job_id job) worker (error_code "INGEST_FAILED") true (in_rnd i) (kn_jobs d) in
      (match state with
       | Some dead => MarkDocument "INGEST_FAILED" DOC_FAILED
       | Some available => MarkDocument "INGEST_RETRYING" DOC_PENDING
       | _ => Finished
       end, d <| kn_jobs := q |>)
  | FailPurge =>
      (Finished, d <| kn_jobs := (fail (kn_now d) (job_id job) worker (error_code "PURGE_FAILED") true (in_rnd i) (kn_jobs d)).2 |>)
  | MarkDocument code state => (Finished, (attempt (mark_failed id code state) d).2)
  | CompleteJob => (Finished, d <| kn_jobs := (complete (kn_now d) (job_id job) worker (kn_jobs d)).2 |>)
  | Finished => (Finished, d)
  end.

(** [run_once]: without a model only purges are claimed. *)
Definition claimed_types (ready : bool) : list string := if ready then [INGEST_JOB; PURGE_JOB] else [PURGE_JOB].

Definition kn_claim (worker : string) (lease_seconds : Z) (ready : bool) (locked : Z -> bool) (d : Knowledge)
    : option (Job * Phase) * Knowledge :=
  let '(job, q) := claim (kn_now d) worker lease_seconds (Some (claimed_types ready)) locked (kn_jobs d) in
  ((fun j => (j, if String.eqb (job_type j) PURGE_JOB then Purge else Begin)) <$> job, d <| kn_jobs := q |>).

(** ** Retrieval *)

(** [round(x, 6)]: to the nearest millionth, halves to even. *)
Definition round6 (x : Q) : Q :=
  let scaled := (x * inject_Z 1000000)%Q in
  let f := Qfloor scaled in
  let r := (scaled - inject_Z f)%Q in
  let n := if Qle_bool r (1 # 2) then (if Qle_bool (1 # 2) r then (if Z.even f then f else f + 1) else f) else f + 1 in
  (n # 1000000)%Q.

Record Candidate := mkCandidate { ca_chunk : DocumentChunk; ca_name : string; ca_distance : Q }.

Definition nearer (a b : Candidate) : Prop := Qle_bool (ca_distance a) (ca_distance b) = true.
#[export] Instance nearer_dec : RelDecision nearer.
Proof. intros a b. unfold nearer. apply _. Defined.

(** [WHERE kb_id = :kb AND state = 'READY'] and the optional document filter. *)
Definition eligible (kb : uuid) (document_ids : option (list uuid)) (d : Knowledge) (c : DocumentChunk) : option Document :=
  match kn_documents d !! dc_document_id c with
  | Some doc =>
      if bool_decide (doc_kb_id doc = kb) && bool_decide (doc_state doc = DOC_READY)
         && match document_ids with
            | Some ((_ :: _) as ids) => bool_decide (doc_id doc ∈ ids)
            | _ => true
            end
      then Some doc else None
  | None => None
  end.

Definition candidates (kb : uuid) (vector : Vec) (document_ids : option (list uuid)) (d : Knowledge) : list Candidate :=
  omap (fun c => (fun doc => mkCandidate c (doc_name doc) (cosine_distance (dc_embedding c) vector))
                 <$> eligible kb document_ids d c) (kn_chunks d).

Definition passage_of (c : Candidate) : Passage :=
  mkPassage (chars (uuid_str (dc_id (ca_chunk c)))) (dc_text (ca_chunk c)) (round6 (1 - ca_distance c))
    (dc_document_id (ca_chunk c)) (chars (ca_name c)) (dc_locator (ca_chunk c)) (describe (dc_locator (ca_chunk c))).

Fixpoint within_budget (budget : Z) (rows : list Candidate) : list Candidate :=
  match rows with
  | [] => []
  | r :: rest =>
      if budget <? Z.of_nat (dc_token_count (ca_chunk r)) then []
      else r :: within_budget (budget - Z.of_nat (dc_token_count (ca_chunk r))) rest
  end.

Record QueryResult := mkQueryResult { qr_profile : string; qr_passages : list Passage; qr_context : text }.

Definition retrieved (kb : uuid) (question : text) (top_k : nat) (max_context_tokens : Z)
    (document_ids : option (list uuid)) (d : Knowledge) : list Candidate :=
  within_budget max_context_tokens
    (take top_k (merge_sort nearer (candidates kb (embed_query question) document_ids d))).

Definition query (kb : uuid) (question : text) (top_k : nat) (max_context_tokens : Z)
    (document_ids : option (list uuid)) : KM QueryResult :=
  let! row := get_kb kb in
  guard (String.eqb (kb_embedding_profile row) emb_profile) (conflict "EMBEDDING_PROFILE_MISMATCH" []) ;;
  let! d := get in
  let passages := map passage_of (retrieved kb question top_k max_context_tokens document_ids d) in
  ret (mkQueryResult (kb_embedding_profile row) passages (format_context passages)).
End knowledge.
