(* ===== verification/KnowledgeProps.v ===== *)
(** * Correctness of the knowledge service

    The invariant of its tables over every interleaving of requests, workers and the rest of
    the platform ([knowledge_invariant]), what one ingestion leaves behind
    ([ingest_settles]), the sweep ([sweep_exact]) and retrieval ([query_correct]). *)

From stdpp Require Import sorting.
From S2P Require Import Prelude Json Redaction JsonText States Jobs RunModel A1 Chunking Evidence Knowledge.
From Stdlib Require Import Ascii QArith.
#[local] Open Scope Z_scope.

Section knowledge_props.
Context {clk : Clock} {dig : Digest} {emb : Embedder} (max_upload_bytes chunk_tokens overlap_tokens : Z).

(** ** The service as a transition system *)

Inductive Request :=
| CreateKb (owner : uuid) (name : string)
| DeleteKb (kb : uuid)
| Upload (kb : uuid) (filename : text) (blocks : list text)
| DeleteDocument (id : uuid)
| Reindex (id : uuid)
| Sweep (grace_seconds : Z).

Definition serve (r : Request) : KM unit :=
  match r with
  | CreateKb owner name => create_kb owner name ;; ret tt
  | DeleteKb kb => delete_kb kb
  | Upload kb filename blocks => upload max_upload_bytes kb filename blocks ;; ret tt
  | DeleteDocument id => delete_document id
  | Reindex id => reindex_document id ;; ret tt
  | Sweep grace => fail_abandoned grace ;; ret tt
  end.

(** The tables and what each worker is doing. *)
Record KService := mkService { ks_rows : Knowledge; ks_work : gmap string (Job * Phase) }.

Inductive kstep : KService -> KService -> Prop :=
| k_serve d ws r d' : serve r d = Ok (tt, d') -> kstep (mkService d ws) (mkService d' ws)
| k_claim d ws w lease_seconds ready locked a d' :
    ws !! w = None -> kn_claim w lease_seconds ready locked d = (Some a, d') ->
    kstep (mkService d ws) (mkService d' (<[w := a]> ws))
| k_work d ws w job ph i :
    ws !! w = Some (job, ph) ->
    kstep (mkService d ws)
      (mkService (advance chunk_tokens overlap_tokens w job i ph d).2
         (<[w := (job, (advance chunk_tokens overlap_tokens w job i ph d).1)]> ws))
| k_gone d ws w : kstep (mkService d ws) (mkService d (delete w ws))   (* done, or crashed *)
| k_queue d ws os now :                      (* heartbeats, the reaper, other services, time *)
    Forall op_wf os ->
    kstep (mkService d ws) (mkService (d <| kn_jobs ::= run_ops os |> <| kn_now := now |>) ws).

(** ** The invariant *)

Definition chunks_of (id : uuid) (cs : list DocumentChunk) : list DocumentChunk :=
  List.filter (fun c => bool_decide (dc_document_id c = id)) cs.

(** The chunks of a document are numbered without gaps; a READY document has some, as many
    as its row says. *)
Definition numbered (cs : list DocumentChunk) : Prop := map dc_ordinal cs = seq 0 (length cs).
Definition indexed (doc : Document) (cs : list DocumentChunk) : Prop :=
  cs <> [] /\ exists e, doc_extracted doc = Some e /\ ex_chunks e = length cs.

Record kinv (d : Knowledge) : Prop := mkKInv {
  ki_queue : queue_ok (kn_jobs d);
  ki_bases : forall id kb, kn_bases d !! id = Some kb -> kb_id kb = id /\ (id < kn_fresh d)%N;
  ki_names : forall i j x y, kn_bases d !! i = Some x -> kn_bases d !! j = Some y ->
    kb_owner_id x = kb_owner_id y -> kb_name x = kb_name y -> i = j;
  ki_docs : forall id doc, kn_documents d !! id = Some doc ->
    doc_id doc = id /\ (id < kn_fresh d)%N /\ is_Some (kn_bases d !! doc_kb_id doc);
  ki_files : forall i j x y, kn_documents d !! i = Some x -> kn_documents d !! j = Some y ->
    doc_kb_id x = doc_kb_id y -> doc_sha256 x = doc_sha256 y -> i = j;
  ki_chunks : forall c, c ∈ kn_chunks d -> is_Some (kn_documents d !! dc_document_id c);
  ki_numbered : forall id, numbered (chunks_of id (kn_chunks d));
  ki_ready : forall id doc, kn_documents d !! id = Some doc -> doc_state doc = DOC_READY ->
    indexed doc (chunks_of id (kn_chunks d))
}.

(** What a worker holds is worth indexing, and a failure does not make a document ready. *)
Definition phase_ok (ph : Phase) : Prop :=
  match ph with
  | Index p _ => pr_pieces p <> []
  | MarkDocument _ state => state <> DOC_READY
  | _ => True
  end.

Record service_ok (s : KService) : Prop := mkServiceOk {
  so_rows : kinv (ks_rows s);
  so_work : forall w job ph, ks_work s !! w = Some (job, ph) -> phase_ok ph
}.

(** *** Rows of chunks *)

Lemma chunks_of_app id a b : chunks_of id (a ++ b) = chunks_of id a ++ chunks_of id b.
Proof. apply List.filter_app. Qed.

Lemma chunks_of_all id rows : Forall (fun c => dc_document_id c = id) rows -> chunks_of id rows = rows.
Proof.
  induction 1 as [|c rows Hc _ IH]; [done|]. unfold chunks_of in *. cbn [List.filter].
  by rewrite bool_decide_eq_true_2, IH.
Qed.

Lemma chunks_of_none id rows : Forall (fun c => dc_document_id c <> id) rows -> chunks_of id rows = [].
Proof.
  induction 1 as [|c rows Hc _ IH]; [done|]. unfold chunks_of in *. cbn [List.filter].
  by rewrite bool_decide_eq_false_2.
Qed.

Lemma chunks_of_dropped id gone (d : Knowledge) :
  chunks_of id (kn_chunks (drop_chunks gone d)) = if gone id then [] else chunks_of id (kn_chunks d).
Proof.
  unfold drop_chunks, chunks_of. simpl. induction (kn_chunks d) as [|c cs IH]; simpl; [by destruct (gone id)|].
  destruct (gone (dc_document_id c)) eqn:Hg; simpl.
  - rewrite IH. case_bool_decide as Hc; [|done]. subst. by rewrite Hg.
  - rewrite IH. case_bool_decide as Hc; [|done]. subst. by rewrite Hg.
Qed.

Lemma dropped_elem c gone (d : Knowledge) :
  c ∈ kn_chunks (drop_chunks gone d) <-> c ∈ kn_chunks d /\ gone (dc_document_id c) = false.
Proof. unfold drop_chunks. simpl. rewrite !list_elem_of_In, filter_In, negb_true_iff. done. Qed.

Lemma wp_kn_uuid7 (Q : uuid -> Knowledge -> Prop) d :
  Q (kn_fresh d) (d <| kn_fresh ::= N.succ |>) -> wp kn_uuid7 Q d.
Proof. done. Qed.

(** [chunk_rows] makes one row per piece, in order, and only consumes identifiers. *)
Record rows_of (id : uuid) (k : nat) (pieces : list Chunk) (rows : list DocumentChunk) : Prop := mkRowsOf {
  ro_document : Forall (fun c => dc_document_id c = id) rows;
  ro_ordinals : map dc_ordinal rows = seq k (length pieces);
  ro_texts : map dc_text rows = map ch_text pieces;
  ro_counts : map dc_token_count rows = map ch_token_count pieces;
  ro_locators : map dc_locator rows = map ch_locator pieces
}.

Lemma chunk_rows_spec id k pieces vectors (Q : list DocumentChunk -> Knowledge -> Prop) d :
  (forall rows n, (kn_fresh d <= n)%N -> rows_of id k pieces rows -> Q rows (d <| kn_fresh := n |>)) ->
  wp (chunk_rows id k pieces vectors) Q d.
Proof.
  revert k vectors Q d. induction pieces as [|p pieces IH]; intros k [|v vectors] Q d HQ; cbn [chunk_rows]; try done.
  - apply wp_ret. specialize (HQ [] (kn_fresh d)). destruct d. apply HQ; [lia|]. by split; try constructor.
  - wp_step. apply wp_kn_uuid7. wp_step. apply IH. intros rows n Hn [R1 R2 R3 R4 R5]. apply wp_ret.
    replace (d <| kn_fresh ::= N.succ |> <| kn_fresh := n |>) with (d <| kn_fresh := n |>) by done.
    apply HQ; [simpl in Hn; lia|]. split; simpl; [by constructor|..]; congruence.
Qed.

(** *** Statements *)

Lemma wp_kn_enqueue typ pl key n (Q : unit -> Knowledge -> Prop) d :
  (forall q, 1 <= n -> queue_ok (kn_jobs d) -> q = (enqueue (kn_now d) (wall (kn_tick d)) typ pl (Some key) None n (kn_jobs d)).2 ->
     Q tt (d <| kn_jobs := q |> <| kn_tick ::= Datatypes.S |>)) ->
  1 <= n -> queue_ok (kn_jobs d) -> wp (kn_enqueue typ pl key n) Q d.
Proof. intros HQ Hn Hq. by apply HQ. Qed.

Lemma wp_put doc (Q : unit -> Knowledge -> Prop) d :
  (forall t, Q tt (d <| kn_documents ::= <[doc_id doc := doc <| doc_updated_at := t |>]> |>)) -> wp (put_document doc) Q d.
Proof.
  intros HQ. unfold put_document. apply wp_modify. case_bool_decide as Hd; [|apply HQ].
  specialize (HQ (doc_updated_at doc)).
  replace (doc <| doc_updated_at := doc_updated_at doc |>) with doc in HQ by by destruct doc.
  replace (d <| kn_documents ::= <[doc_id doc := doc]> |>) with d in HQ; [done|].
  destruct d; unfold update; simpl in *; by rewrite insert_id.
Qed.

Lemma wp_get_kb kb (Q : KnowledgeBase -> Knowledge -> Prop) d :
  (forall row, kn_bases d !! kb = Some row -> Q row d) -> wp (get_kb kb) Q d.
Proof. intros HQ. unfold get_kb. wp_step. apply wp_get. destruct (kn_bases d !! kb) eqn:E; [|done]. apply wp_ret. by apply HQ. Qed.

Lemma wp_lift_result {A} (r : Result PlatformError A) (Q : A -> Knowledge -> Prop) d :
  (forall a, r = Ok a -> Q a d) -> wp (lift_result r) Q d.
Proof. intros HQ. destruct r; [by apply HQ|done]. Qed.
Lemma wp_lift_extraction {A} (r : Result string A) (Q : A -> Knowledge -> Prop) d :
  (forall a, r = Ok a -> Q a d) -> wp (lift_extraction r) Q d.
Proof. intros HQ. destruct r; [by apply HQ|done]. Qed.

(** *** Preservation *)

Definition same_documents (d d' : Knowledge) : Prop := forall i, is_Some (kn_documents d' !! i) <-> is_Some (kn_documents d !! i).

Lemma same_documents_put d d' doc old x :
  kn_documents d !! doc_id doc = Some old -> kn_documents d' = <[doc_id doc := x]> (kn_documents d) -> same_documents d d'.
Proof.
  intros Hd E i. rewrite E, lookup_insert_is_Some'. split; [intros [<-|?]; [by rewrite Hd|done]|by right].
Qed.

Lemma kinv_same d d' :
  kinv d -> kn_bases d' = kn_bases d -> kn_documents d' = kn_documents d -> kn_chunks d' = kn_chunks d ->
  (kn_fresh d <= kn_fresh d')%N -> queue_ok (kn_jobs d') -> kinv d'.
Proof.
  intros [K1 K2 K3 K4 K5 K6 K7 K8] Eb Ed Ec Hf Hq. split; rewrite ?Eb, ?Ed, ?Ec; try done.
  - intros id kb H. destruct (K2 _ _ H). split; [done|lia].
  - intros id doc H. destruct (K4 _ _ H) as (? & ? & ?). split_and!; [done|lia|done].
Qed.

(** Replacing the row of a document, and possibly its chunks. *)
Lemma kinv_put d doc old cs n t :
  kinv d -> kn_documents d !! doc_id doc = Some old ->
  doc_kb_id doc = doc_kb_id old -> doc_sha256 doc = doc_sha256 old -> (kn_fresh d <= n)%N ->
  (forall c, c ∈ cs -> is_Some (kn_documents d !! dc_document_id c)) ->
  (forall id, numbered (chunks_of id cs)) ->
  (forall id, id <> doc_id doc -> chunks_of id cs = chunks_of id (kn_chunks d)) ->
  (doc_state doc = DOC_READY -> indexed doc (chunks_of (doc_id doc) cs)) ->
  kinv (d <| kn_chunks := cs |> <| kn_fresh := n |> <| kn_documents ::= <[doc_id doc := doc <| doc_updated_at := t |>]> |>).
Proof.
  intros [K1 K2 K3 K4 K5 K6 K7 K8] Hold Hkb Hsha Hn Hcs Hnum Hoth Hready.
  set (doc' := doc <| doc_updated_at := t |>).
  assert (Hrow : forall id x, <[doc_id doc := doc']> (kn_documents d) !! id = Some x ->
    exists x0, kn_documents d !! id = Some x0 /\ doc_kb_id x = doc_kb_id x0 /\ doc_sha256 x = doc_sha256 x0).
  { intros id x [[<- <-]|[Hne Hx]]%lookup_insert_Some; [by exists old|by exists x]. }
  split; simpl.
  - done.
  - intros id kb H. destruct (K2 _ _ H). split; [done|lia].
  - done.
  - intros id x [[<- <-]|[Hne Hx]]%lookup_insert_Some.
    + destruct (K4 _ _ Hold) as (? & ? & ?). simpl. rewrite Hkb. split_and!; [done|lia|done].
    + destruct (K4 _ _ Hx) as (? & ? & ?). split_and!; [done|lia|done].
  - intros i j x y Hx Hy E1 E2. destruct (Hrow _ _ Hx) as (x0 & Hx0 & Ex1 & Ex2).
    destruct (Hrow _ _ Hy) as (y0 & Hy0 & Ey1 & Ey2). apply (K5 i j x0 y0); congruence.
  - intros c Hc. apply lookup_insert_is_Some'. right. by apply Hcs.
  - done.
  - intros id x [[<- <-]|[Hne Hx]]%lookup_insert_Some Hs; [by apply Hready|].
    rewrite Hoth by done. by eapply K8.
Qed.

Lemma kinv_put_row d doc old t :
  kinv d -> kn_documents d !! doc_id doc = Some old ->
  doc_kb_id doc = doc_kb_id old -> doc_sha256 doc = doc_sha256 old ->
  (doc_state doc = DOC_READY -> indexed doc (chunks_of (doc_id doc) (kn_chunks d))) ->
  kinv (d <| kn_documents ::= <[doc_id doc := doc <| doc_updated_at := t |>]> |>).
Proof.
  intros HI Hold Hkb Hsha Hr.
  replace (d <| kn_documents ::= _ |>) with
    (d <| kn_chunks := kn_chunks d |> <| kn_fresh := kn_fresh d |> <| kn_documents ::= <[doc_id doc := doc <| doc_updated_at := t |>]> |>)
    by by destruct d.
  eapply kinv_put; try done; apply HI.
Qed.

Lemma mark_failed_inv id code state d : state <> DOC_READY -> kinv d -> wp (mark_failed id code state) (fun _ => kinv) d.
Proof.
  intros Hs HI. unfold mark_failed. wp_step. apply wp_get. destruct (kn_documents d !! id) as [doc|] eqn:Hd; [|by apply wp_ret].
  apply wp_put. intros t. destruct (ki_docs _ HI _ _ Hd) as [Hid _]. by apply (kinv_put_row d _ doc); simpl; rewrite ?Hid.
Qed.

Lemma ingest_begin_inv id d : kinv d -> wp (ingest_begin id) (fun _ => kinv) d.
Proof.
  intros HI. unfold ingest_begin. wp_step. apply wp_get. destruct (kn_documents d !! id) as [doc|] eqn:Hd; [|by apply wp_ret].
  destruct (ki_docs _ HI _ _ Hd) as [Hid _]. wp_step. apply wp_get_kb. intros kb Hkb. wp_step. apply wp_put. intros t.
  apply wp_ret. by apply (kinv_put_row d _ doc); simpl; rewrite ?Hid.
Qed.

(** Indexing replaces the chunks of the document by rows for exactly the pieces. *)
Lemma ingest_finish_spec id prepared vectors d :
  kinv d -> pr_pieces prepared <> [] ->
  wp (ingest_finish id prepared vectors) (fun ok d' => kinv d' /\ kn_jobs d' = kn_jobs d /\ same_documents d d' /\
    (ok = false -> d' = d /\ kn_documents d !! id = None) /\
    (ok = true -> exists doc', kn_documents d' !! id = Some doc' /\ doc_state doc' = DOC_READY /\
       rows_of id 0 (pr_pieces prepared) (chunks_of id (kn_chunks d')))) d.
Proof.
  intros HI Hp. unfold ingest_finish. wp_step. apply wp_get.
  destruct (kn_documents d !! id) as [doc|] eqn:Hd; [|by apply wp_ret].
  destruct (ki_docs _ HI _ _ Hd) as [Hid _]. wp_step. apply wp_modify. wp_step. apply chunk_rows_spec.
  intros rows n Hn Hrows. destruct Hrows as [R1 R2 R3 R4 R5] eqn:ER. clear ER.
  set (dropped := drop_chunks _ d) in *. wp_step. apply wp_modify. wp_step. apply wp_put. intros t. apply wp_ret.
  set (doc' := doc <| doc_state := DOC_READY |> <| doc_error := None |> <| doc_extracted := _ |>).
  set (cs := kn_chunks dropped ++ rows).
  assert (Hself : chunks_of id cs = rows).
  { unfold cs, dropped. rewrite chunks_of_app, chunks_of_dropped, bool_decide_eq_true_2 by done. by apply chunks_of_all. }
  assert (Hlen : length rows = length (pr_pieces prepared)).
  { rewrite <- (length_map dc_ordinal), R2. by rewrite length_seq. }
  match goal with |- kinv ?x /\ _ => replace x with
    (d <| kn_chunks := cs |> <| kn_fresh := n |> <| kn_documents ::= <[doc_id doc' := doc' <| doc_updated_at := t |>]> |>) by done end.
  split; [|split; [done|split; [by eapply (same_documents_put d _ doc' doc); [simpl; rewrite Hid|]|split; [done|intros _]]]].
  - apply (kinv_put d doc' doc); simpl; rewrite ?Hid; try done.
    + intros c [Hc|Hc]%elem_of_app; [apply dropped_elem in Hc as [Hc _]; by apply (ki_chunks _ HI)|].
      rewrite Forall_forall in R1. rewrite (R1 _ Hc). by exists doc.
    + intros i. destruct (decide (i = id)) as [->|Hne].
      * rewrite Hself. unfold numbered. by rewrite R2, Hlen.
      * unfold cs, dropped. rewrite chunks_of_app, chunks_of_dropped, bool_decide_eq_false_2 by done.
        rewrite (chunks_of_none i rows), app_nil_r; [apply HI|]. eapply Forall_impl; [exact R1|]. simpl. congruence.
    + intros i Hne. unfold cs, dropped. rewrite chunks_of_app, chunks_of_dropped, bool_decide_eq_false_2 by done.
      rewrite (chunks_of_none i rows), app_nil_r; [done|]. eapply Forall_impl; [exact R1|]. simpl. congruence.
    + intros _. rewrite Hself. split; [by intros ->; destruct (pr_pieces prepared)|]. eexists. split; [done|]. done.
  - exists (doc' <| doc_updated_at := t |>). simpl. rewrite Hid, lookup_insert_eq.
    split_and!; [done|done|]. simpl in Hself. by rewrite Hself.
Qed.

(** Enqueueing keeps the invariant. *)
Lemma kn_enqueue_inv typ pl key n d : 1 <= n -> kinv d -> wp (kn_enqueue typ pl key n) (fun _ => kinv) d.
Proof.
  intros Hn HI. apply wp_kn_enqueue; [|done|apply HI]. intros q _ Hq ->.
  eapply kinv_same; try done. by apply enqueue_ok.
Qed.

Lemma create_kb_inv owner name d : kinv d -> wp (create_kb owner name) (fun _ => kinv) d.
Proof.
  intros HI. unfold create_kb. wp_step. apply wp_kn_uuid7. wp_step. apply wp_get. wp_step. apply wp_guard. intros Hg.
  apply negb_true_iff, bool_decide_eq_false in Hg. simpl in Hg. wp_step. apply wp_modify. apply wp_ret.
  destruct HI as [K1 K2 K3 K4 K5 K6 K7 K8].
  assert (Hnew : kn_bases d !! kn_fresh d = None).
  { destruct (kn_bases d !! kn_fresh d) eqn:E; [|done]. destruct (K2 _ _ E). lia. }
  assert (Hno : forall i x, kn_bases d !! i = Some x -> kb_owner_id x = owner -> kb_name x = name -> False).
  { intros i x Hx E1 E2. apply Hg. by exists i, x. }
  split; simpl; try done.
  - intros id kb [[<- <-]|[_ H]]%lookup_insert_Some; [split; [done|lia]|]. destruct (K2 _ _ H). split; [done|lia].
  - intros i j x y [[<- <-]|[_ Hx]]%lookup_insert_Some [[<- <-]|[_ Hy]]%lookup_insert_Some E1 E2; simpl in *; try done.
    + exfalso. by eapply (Hno _ _ Hy).
    + exfalso. by eapply (Hno _ _ Hx).
    + by eapply K3.
  - intros id doc H. destruct (K4 _ _ H) as (? & ? & ?). split_and!; [done|lia|].
    apply lookup_insert_is_Some'. by right.
Qed.

(** Removing documents with their chunks. *)
Lemma kinv_removed d (gone : uuid -> bool) docs bases :
  kinv d ->
  (forall id doc, docs !! id = Some doc <-> kn_documents d !! id = Some doc /\ gone id = false) ->
  (forall id kb, bases !! id = Some kb -> kn_bases d !! id = Some kb) ->
  (forall id doc, docs !! id = Some doc -> is_Some (bases !! doc_kb_id doc)) ->
  kinv (drop_chunks gone d <| kn_documents := docs |> <| kn_bases := bases |>).
Proof.
  intros [K1 K2 K3 K4 K5 K6 K7 K8] Hdocs Hbases Hfk. split; simpl.
  - done.
  - intros id kb H. apply K2. by apply Hbases.
  - intros i j x y Hx Hy. apply (K3 i j x y); by apply Hbases.
  - intros id doc H. pose proof (Hfk _ _ H) as Hb. apply Hdocs in H as [H _].
    destruct (K4 _ _ H) as (? & ? & _). by split_and!.
  - intros i j x y Hx Hy. apply Hdocs in Hx as [Hx _]. apply Hdocs in Hy as [Hy _]. by apply (K5 i j x y).
  - intros c Hc. apply (dropped_elem c gone d) in Hc as [Hc Hg]. destruct (K6 _ Hc) as [doc Hd].
    exists doc. by apply Hdocs.
  - intros id. pose proof (chunks_of_dropped id gone d) as E. simpl in E. rewrite E. by destruct (gone id).
  - intros id doc H Hs. apply Hdocs in H as [H Hg].
    pose proof (chunks_of_dropped id gone d) as E. simpl in E. rewrite E, Hg. by apply K8.
Qed.

Lemma delete_document_inv id d : kinv d -> wp (delete_document id) (fun _ => kinv) d.
Proof.
  intros HI. unfold delete_document. wp_step. apply wp_get. destruct (kn_documents d !! id) as [doc|] eqn:Hd; [|done].
  wp_step. apply wp_modify. apply kn_enqueue_inv; [lia|].
  match goal with |- kinv ?x => replace x with
    (drop_chunks (fun i => bool_decide (i = id)) d <| kn_documents := delete id (kn_documents d) |> <| kn_bases := kn_bases d |>)
    by by destruct d end.
  apply kinv_removed; [done| |done|].
  - intros i x. rewrite lookup_delete_Some, bool_decide_eq_false. naive_solver.
  - intros i x [_ Hx]%lookup_delete_Some. by destruct (ki_docs _ HI _ _ Hx) as (_ & _ & ?).
Qed.

Lemma delete_kb_inv kb d : kinv d -> wp (delete_kb kb) (fun _ => kinv) d.
Proof.
  intros HI. unfold delete_kb. wp_step. apply wp_get_kb. intros row _. wp_step. apply wp_modify.
  apply kn_enqueue_inv; [lia|].
  match goal with |- kinv ?x => replace x with
    (drop_chunks (in_base kb d) d <| kn_documents := filter (fun y => doc_kb_id y.2 <> kb) (kn_documents d) |>
       <| kn_bases := delete kb (kn_bases d) |>) by by destruct d end.
  assert (Hin : forall i x, kn_documents d !! i = Some x -> in_base kb d i = bool_decide (doc_kb_id x = kb)).
  { intros i x Hx. unfold in_base. by rewrite Hx. }
  apply kinv_removed; [done| | |].
  - intros i x. rewrite map_lookup_filter_Some. simpl. split; intros [Hx Hk]; split; try done.
    + rewrite (Hin _ _ Hx). by apply bool_decide_eq_false.
    + rewrite (Hin _ _ Hx) in Hk. by apply bool_decide_eq_false in Hk.
  - by intros i x [_ Hx]%lookup_delete_Some.
  - intros i x [Hx Hk]%map_lookup_filter_Some. simpl in Hk. rewrite lookup_delete_ne by congruence.
    by destruct (ki_docs _ HI _ _ Hx) as (_ & _ & ?).
Qed.

Lemma reindex_inv id d : kinv d -> wp (reindex_document id) (fun _ => kinv) d.
Proof.
  intros HI. unfold reindex_document. wp_step. apply wp_get. destruct (kn_documents d !! id) as [doc|] eqn:Hd; [|done].
  destruct (ki_docs _ HI _ _ Hd) as [Hid _]. wp_step. apply wp_put. intros t. wp_step.
  eapply wp_mono; [apply kn_enqueue_inv; [lia|]|by intros; apply wp_ret].
  by apply (kinv_put_row d _ doc); simpl; rewrite ?Hid.
Qed.

(** A document under a fresh id, not READY, with a file that is new to its base. *)
Lemma kinv_new d doc t :
  kinv d -> doc_id doc = kn_fresh d -> is_Some (kn_bases d !! doc_kb_id doc) -> doc_state doc <> DOC_READY ->
  ~ map_Exists (same_file (doc_kb_id doc) (doc_sha256 doc)) (kn_documents d) ->
  kinv (d <| kn_fresh ::= N.succ |> <| kn_documents ::= <[doc_id doc := doc <| doc_updated_at := t |>]> |>).
Proof.
  intros [K1 K2 K3 K4 K5 K6 K7 K8] Hid Hkb Hs Hnew.
  assert (Hno : forall i x, kn_documents d !! i = Some x -> doc_kb_id x = doc_kb_id doc -> doc_sha256 x = doc_sha256 doc -> False).
  { intros i x Hx E1 E2. apply Hnew. by exists i, x. }
  split; simpl; try done.
  - intros id kb H. destruct (K2 _ _ H). split; [done|lia].
  - intros id x [[<- <-]|[_ H]]%lookup_insert_Some; [split_and!; [done|lia|done]|].
    destruct (K4 _ _ H) as (? & ? & ?). split_and!; [done|lia|done].
  - intros i j x y [[<- <-]|[_ Hx]]%lookup_insert_Some [[<- <-]|[_ Hy]]%lookup_insert_Some E1 E2; simpl in *; try done.
    + exfalso. by eapply (Hno _ _ Hy).
    + exfalso. by eapply (Hno _ _ Hx).
    + by eapply K5.
  - intros c Hc. apply lookup_insert_is_Some'. right. by apply K6.
  - intros id x [[<- <-]|[Hne Hx]]%lookup_insert_Some Hr; [done|by apply K8].
Qed.

Lemma upload_inv kb filename blocks d : kinv d -> wp (upload max_upload_bytes kb filename blocks) (fun _ => kinv) d.
Proof.
  intros HI. unfold upload. wp_step. apply wp_get_kb. intros row Hkb. wp_step. apply wp_lift_extraction. intros name _.
  wp_step. apply wp_lift_result. intros [sz content] _. wp_step. apply wp_guard. intros _.
  wp_step. apply wp_lift_extraction. intros mime _. wp_step. apply wp_get. wp_step. apply wp_guard. intros Hg.
  apply negb_true_iff, bool_decide_eq_false in Hg.
  wp_step. apply wp_kn_uuid7. wp_step. apply wp_put. intros t. wp_step.
  eapply wp_mono; [apply kn_enqueue_inv; [lia|]|by intros; apply wp_ret].
  by apply kinv_new.
Qed.

Lemma fail_abandoned_inv grace d : kinv d -> wp (fail_abandoned grace) (fun _ => kinv) d.
Proof.
  intros [K1 K2 K3 K4 K5 K6 K7 K8]. unfold fail_abandoned. wp_step. apply wp_get. wp_step. apply wp_modify. apply wp_ret.
  set (f := fun doc => if abandoned d grace doc then _ else doc).
  assert (Hf : forall doc, doc_id (f doc) = doc_id doc /\ doc_kb_id (f doc) = doc_kb_id doc /\
    doc_sha256 (f doc) = doc_sha256 doc /\ (doc_state (f doc) = DOC_READY -> f doc = doc)).
  { intros doc. unfold f. by destruct (abandoned d grace doc). }
  assert (Hl : forall id x, (f <$> kn_documents d) !! id = Some x -> exists x0, x = f x0 /\ kn_documents d !! id = Some x0).
  { intros id x. rewrite lookup_fmap, fmap_Some. intros (x0 & Hx0 & ->). by exists x0. }
  split; simpl; try done.
  - intros id x Hx. destruct (Hl _ _ Hx) as (x0 & -> & Hx0). destruct (Hf x0) as (-> & -> & _). by apply K4.
  - intros i j x y Hx Hy. destruct (Hl _ _ Hx) as (x0 & -> & Hx0). destruct (Hl _ _ Hy) as (y0 & -> & Hy0).
    destruct (Hf x0) as (_ & -> & -> & _). destruct (Hf y0) as (_ & -> & -> & _). by apply K5.
  - intros c Hc. rewrite lookup_fmap. apply fmap_is_Some. by apply K6.
  - intros id x Hx Hs. destruct (Hl _ _ Hx) as (x0 & -> & Hx0). destruct (Hf x0) as (_ & _ & _ & E).
    specialize (E Hs). rewrite E in *. by eapply K8.
Qed.

Lemma serve_inv r d : kinv d -> wp (serve r) (fun _ => kinv) d.
Proof.
  intros HI. destruct r; cbn [serve].
  - wp_step. eapply wp_mono; [by apply create_kb_inv|by intros; apply wp_ret].
  - by apply delete_kb_inv.
  - wp_step. eapply wp_mono; [by apply upload_inv|by intros; apply wp_ret].
  - by apply delete_document_inv.
  - wp_step. eapply wp_mono; [by apply reindex_inv|by intros; apply wp_ret].
  - wp_step. eapply wp_mono; [by apply fail_abandoned_inv|by intros; apply wp_ret].
Qed.

(** *** The worker *)

Lemma attempt_wp {A} (m : KM A) (P : Knowledge -> Prop) d : P d -> wp m (fun _ => P) d -> P (attempt m d).2.
Proof. unfold wp, attempt. by destruct (m d) as [[a d']|e]. Qed.

Lemma kinv_queue d q : kinv d -> queue_ok q -> kinv (d <| kn_jobs := q |>).
Proof. intros HI Hq. by eapply kinv_same. Qed.

Lemma within_limit_inv {A} t (m : KM A) next d :
  kinv d -> wp m (fun _ => kinv) d -> (forall r, phase_ok (next r)) ->
  kinv (within_limit t m next d).2 /\ phase_ok (within_limit t m next d).1.
Proof.
  intros HI Hm Hn. assert (Ha : kinv (attempt m d).2) by by apply attempt_wp.
  unfold within_limit. destruct t; [|done|done]. destruct (attempt m d) as [r d']. by split; [|apply Hn].
Qed.

Lemma begun_ok child r : phase_ok (begun child chunk_tokens overlap_tokens r).
Proof.
  unfold begun. destruct r as [[profile|]|]; [|done|done]. unfold ingest_prepare.
  destruct (negb _); [done|]. destruct (prepare _ _ _) as [p|[]]; [|done|done].
  by destruct (pr_pieces p) eqn:E; simpl; rewrite ?E.
Qed.

Lemma advance_inv w job i ph d :
  kinv d -> phase_ok ph ->
  kinv (advance chunk_tokens overlap_tokens w job i ph d).2 /\
  phase_ok (advance chunk_tokens overlap_tokens w job i ph d).1.
Proof.
  intros HI Hph. assert (Hq := ki_queue _ HI).
  destruct ph as [|code|p vs| |[]| |code st| |]; cbn [advance].
  - apply within_limit_inv; [done|by apply ingest_begin_inv|intros r; apply begun_ok].
  - apply within_limit_inv; [done|by apply mark_failed_inv|by intros []].
  - apply within_limit_inv; [done| |by intros []]. eapply wp_mono; [by apply ingest_finish_spec|]. by intros ? ? [? _].
  - by destruct (in_purge i).
  - split; [|done]. apply kinv_queue; [done|]. by apply fail_ok.
  - pose proof (fail_ok (kn_now d) (job_id job) w (error_code "INGEST_FAILED") true (in_rnd i) _ Hq) as Hf.
    destruct (fail _ _ _ _ _ _ _) as [st q]. split; [by apply kinv_queue|]. by destruct st as [[]|].
  - split; [|done]. apply kinv_queue; [done|]. by apply fail_ok.
  - split; [|done]. apply attempt_wp; [done|by apply mark_failed_inv].
  - split; [|done]. apply kinv_queue; [done|]. by apply complete_ok.
  - done.
Qed.

Lemma kn_claim_inv w l ready locked d a d' :
  kinv d -> kn_claim w l ready locked d = (a, d') -> kinv d' /\ forall job ph, a = Some (job, ph) -> phase_ok ph.
Proof.
  intros HI. unfold kn_claim. pose proof (claim_ok (kn_now d) w l (Some (claimed_types ready)) locked _ (ki_queue _ HI)) as Hq.
  destruct (claim _ _ _ _ _ _) as [j q]. intros [= <- <-]. split; [by apply kinv_queue|].
  intros job ph. destruct j as [j|]; [|done]. simpl. intros [= <- <-]. by destruct (String.eqb _ _).
Qed.

Lemma kstep_ok s s' : kstep s s' -> service_ok s -> service_ok s'.
Proof.
  intros Hs [HI HW]. destruct Hs as [d ws r d' H|d ws w l rd lk a d' Hw H|d ws w job ph i Hw|d ws w|d ws os now Hos]; simpl in *.
  - split; [|done]. exact (wp_run _ _ _ _ _ (serve_inv r d HI) H).
  - destruct (kn_claim_inv _ _ _ _ _ _ _ HI H) as [H1 H2]. split; [done|]. simpl.
    intros w' job ph [[<- ->]|[_ Hx]]%lookup_insert_Some; [by eapply H2|by eapply HW].
  - destruct (advance_inv w job i ph d HI (HW _ _ _ Hw)) as [H1 H2]. split; [done|]. simpl.
    intros w' job' ph' [[<- [= <- <-]]|[_ Hx]]%lookup_insert_Some; [done|by eapply HW].
  - split; [done|]. simpl. intros w' job ph [_ Hx]%lookup_delete_Some. by eapply HW.
  - split; [|done]. simpl. eapply kinv_same; [exact HI|done|done|done|simpl; lia|]. simpl. apply run_ops_ok; [done|apply HI].
Qed.

Definition empty_knowledge (now : instant) : Knowledge := mkKnowledge ∅ ∅ [] empty_queue 0 1%N now.

Lemma empty_ok now : service_ok (mkService (empty_knowledge now) ∅).
Proof.
  split; [|simpl; intros w job ph; by rewrite lookup_empty]. split; simpl; try (intros *; by rewrite lookup_empty); try done.
  - apply empty_queue_ok.
  - by intros c Hc%elem_of_nil.
Qed.

(** C38: In every reachable state of the knowledge service, whatever requests, ingestions,
    crashes, timeouts and queue operations were interleaved: a document that is READY has
    chunks, numbered from zero without gaps, exactly as many as its row reports; no chunk
    outlives its document and no document its knowledge base; a file occurs once per knowledge
    base and a name once per owner; and the job table is well formed. *)
Theorem knowledge_invariant now s :
  rtc kstep (mkService (empty_knowledge now) ∅) s -> kinv (ks_rows s).
Proof.
  intros Hr. apply so_rows. remember (mkService (empty_knowledge now) ∅) as s0 eqn:E.
  assert (H0 : service_ok s0) by (subst; apply empty_ok). clear E.
  induction Hr as [|x y z Hxy _ IH]; [done|]. apply IH. by eapply kstep_ok.
Qed.

(** ** One ingestion from beginning to end *)

Definition run_job (w : string) (job : Job) (inputs : list Input) (start : Phase * Knowledge) : Phase * Knowledge :=
  fold_left (fun x i => advance chunk_tokens overlap_tokens w job i x.1 x.2) inputs start.

(** The worker holds the lease of an ingest job for the document. *)
Record held (w : string) (job : Job) (id : uuid) (d : Knowledge) : Prop := mkHeld {
  he_row : job ∈ jq_rows (kn_jobs d);
  he_state : job_state job = claimed;
  he_owner : job_lease_owner job = Some w;
  he_type : job_type job = INGEST_JOB;
  he_document : pl_document_id (job_payload job) = Some id
}.

(** What an ingestion may leave of a document: gone, indexed, failed with a reason, or waiting
    for a job that will try again; never halfway. *)
Definition settled (retry : bool) (id : uuid) (d : Knowledge) : Prop :=
  match kn_documents d !! id with
  | None => True
  | Some doc =>
      match doc_state doc with
      | DOC_READY => indexed doc (chunks_of id (kn_chunks d))
      | DOC_FAILED => is_Some (doc_error doc)
      | DOC_PENDING => retry = true /\ ingesting (kn_jobs d) id = true
      | DOC_PROCESSING => False
      end
  end.

Definition expects (w : string) (job : Job) (id : uuid) (ph : Phase) (d : Knowledge) : Prop :=
  match ph with
  | Begin | Refuse _ | FailJob _ => held w job id d
  | Index p _ => held w job id d /\ pr_pieces p <> []
  | MarkDocument _ state => state = DOC_FAILED \/ (state = DOC_PENDING /\ ingesting (kn_jobs d) id = true)
  | CompleteJob => settled false id d
  | Finished => settled true id d
  | Purge | FailPurge => False
  end.

Definition rank (ph : Phase) : nat :=
  match ph with
  | Begin => 4 | Refuse _ | Index _ _ => 3 | FailJob _ | FailPurge | Purge => 2
  | MarkDocument _ _ | CompleteJob => 1 | Finished => 0
  end%nat.

Lemma mark_failed_spec id code state d :
  kinv d ->
  wp (mark_failed id code state) (fun _ d' => kn_jobs d' = kn_jobs d /\ kn_chunks d' = kn_chunks d /\ same_documents d d' /\
    forall doc, kn_documents d' !! id = Some doc -> doc_state doc = state /\ doc_error doc = Some code) d.
Proof.
  intros HI. unfold mark_failed. wp_step. apply wp_get. destruct (kn_documents d !! id) as [doc|] eqn:Hd.
  - destruct (ki_docs _ HI _ _ Hd) as [Hid _]. apply wp_put. intros t. split_and!; [done|done| |].
    + by eapply (same_documents_put d _ _ doc); [simpl; rewrite Hid|].
    + simpl. intros x. rewrite Hid, lookup_insert_eq. by intros [= <-].
  - apply wp_ret. split_and!; [done|done|done|]. by rewrite Hd.
Qed.

Lemma mark_failed_commits id code state d : exists d', mark_failed id code state d = Ok (tt, d').
Proof.
  unfold mark_failed, bind, get. destruct (kn_documents d !! id); [|by eexists]. unfold put_document, modify. by eexists.
Qed.

Lemma ingest_begin_spec id d :
  kinv d -> wp (ingest_begin id) (fun r d' => kn_jobs d' = kn_jobs d /\ same_documents d d' /\
    (r = None -> kn_documents d' !! id = None)) d.
Proof.
  intros HI. unfold ingest_begin. wp_step. apply wp_get. destruct (kn_documents d !! id) as [doc|] eqn:Hd; [|by apply wp_ret].
  destruct (ki_docs _ HI _ _ Hd) as [Hid _]. wp_step. apply wp_get_kb. intros kb _. wp_step. apply wp_put. intros t.
  apply wp_ret. split_and!; [done| |done]. by eapply (same_documents_put d _ _ doc); [simpl; rewrite Hid|].
Qed.

(** Failing a held job with retries settles it or leaves it live for its document. *)
Lemma fail_held w job id e rnd d :
  kinv d -> held w job id d ->
  match fail (kn_now d) (job_id job) w e true rnd (kn_jobs d) with
  | (Some dead, _) => True
  | (Some available, q) => ingesting q id = true
  | _ => False
  end.
Proof.
  intros HI [H1 H2 H3 H4 H5]. unfold fail. destruct (matching _ _) as [|j js] eqn:Em.
  { assert (Hm : job ∈ matching (owned (job_id job) w) (kn_jobs d)).
    { apply matching_elem. split; [done|]. unfold owned. by rewrite Z.eqb_refl, !bool_decide_eq_true_2. }
    rewrite Em in Hm. set_solver. }
  assert (Hj : j ∈ matching (owned (job_id job) w) (kn_jobs d)) by (rewrite Em; by left).
  apply matching_elem in Hj as [Hj Ho]. unfold owned in Ho. reflect_all.
  assert (j = job) as -> by (by eapply same_id_same_row; [apply HI|..]).
  destruct (true && _); [|done]. unfold ingesting. apply existsb_exists.
  exists (requeue (kn_now d) (kn_now d + make_interval (backoff_seconds (job_attempts job) rnd)) e job). split.
  - apply list_elem_of_In. unfold update_where. simpl. apply list_elem_of_fmap. exists job. by rewrite Z.eqb_refl.
  - simpl. rewrite H4, H5. by rewrite bool_decide_eq_true_2.
Qed.

Lemma held_same w job id d d' : kn_jobs d' = kn_jobs d -> held w job id d -> held w job id d'.
Proof. intros E [H1 H2 H3 H4 H5]. split; try done. by rewrite E. Qed.

(** The three transactions of [ingest] itself: under the time limit, and whatever they find,
    the worker goes on to settle the job. *)
Lemma within_limit_expects {A} (other : Prop) w job id t (m : KM A) next n d :
  held w job id d ->
  wp m (fun a d' => kn_jobs d' = kn_jobs d /\ same_documents d d' /\ expects w job id (next (Ok a)) d' /\
    (rank (next (Ok a)) < n)%nat) d ->
  (forall e, next (Err e) = FailJob false) -> (2 < n)%nat ->
  let r := within_limit t m next d in
  expects w job id r.1 r.2 /\ ((rank r.1 < n)%nat \/ other) /\ same_documents d r.2.
Proof.
  intros Hh Hm He Hn. unfold within_limit, attempt. unfold wp in Hm. destruct t; simpl.
  - destruct (m d) as [[a d']|e]; simpl; [destruct Hm as (_ & ? & ? & ?); split_and!; [done|by left|done]|].
    rewrite He. simpl. split_and!; [done|by left|done].
  - split_and!; [done|by left|done].
  - destruct (m d) as [[a d']|e]; simpl; [|split_and!; [done|by left|done]].
    destruct Hm as (? & ? & _). split_and!; [by eapply held_same|by left|done].
Qed.

Lemma advance_expects w job id i ph d :
  pl_document_id (job_payload job) = Some id -> kinv d -> expects w job id ph d ->
  let r := advance chunk_tokens overlap_tokens w job i ph d in
  expects w job id r.1 r.2 /\ (rank r.1 < rank ph \/ ph = Finished /\ r.1 = Finished)%nat /\ same_documents d r.2.
Proof.
  intros Hid HI He.
  destruct ph as [|code|p vs| |[]| |code st| |]; cbn [advance]; rewrite ?Hid; change (default 0%N (Some id)) with id; try done.
  - apply within_limit_expects; [done| |done|simpl; lia].
    eapply wp_mono; [by apply ingest_begin_spec|]. intros r d' (E1 & E2 & E3). split_and!; [done|done| |].
    + destruct r as [profile|]; simpl; [|unfold settled; by rewrite E3].
      pose proof (begun_ok (in_child i) (Ok (Some profile))) as Hb. simpl in Hb.
      destruct (ingest_prepare _ _ _ _) as [[p vs]|[]]; simpl in *; [|by eapply held_same|by eapply held_same].
      split; [by eapply held_same|done].
    + destruct r as [profile|]; simpl; [|lia]. destruct (ingest_prepare _ _ _ _) as [[p vs]|[]]; simpl; lia.
  - apply within_limit_expects; [done| |done|simpl; lia].
    eapply wp_mono; [by apply mark_failed_spec|]. intros _ d' (E1 & _ & E2 & E3). split_and!; [done|done| |simpl; lia].
    simpl. unfold settled. destruct (kn_documents d' !! id) as [doc|]; [|done]. by destruct (E3 doc eq_refl) as [-> ->].
  - destruct He as [Hh Hp]. apply within_limit_expects; [done| |done|simpl; lia].
    eapply wp_mono; [by apply (ingest_finish_spec id p vs)|]. intros ok d' (HI' & E1 & E4 & E2 & E3). split_and!; [done|done| |simpl; lia]. simpl. unfold settled.
    destruct ok; [|destruct (E2 eq_refl) as [-> ->]; done].
    destruct (E3 eq_refl) as (doc & Hd & Hs & _). rewrite Hd, Hs. by eapply (ki_ready _ HI').
  - simpl. split_and!; [by left|left; lia|done].
  - pose proof (fail_held w job id (error_code "INGEST_FAILED") (in_rnd i) d HI He) as Hf.
    destruct (fail _ _ _ _ _ _ _) as [[[]|] q]; try done; simpl; split_and!; try done; try (left; lia); [by right|by left].
  - destruct (mark_failed_commits id code st d) as [d' Hm]. unfold attempt. rewrite Hm. simpl in *.
    destruct (wp_run _ _ _ _ _ (mark_failed_spec id code st d HI) Hm) as (E1 & _ & E2 & E3).
    split_and!; [|left; lia|done]. unfold settled. destruct (kn_documents d' !! id) as [doc|]; [|done].
    destruct (E3 doc eq_refl) as [-> ->]. rewrite E1. by destruct He as [->|[-> ?]].
  - simpl. simpl in He. split_and!; [|left; lia|done]. unfold settled in *. simpl.
    destruct (kn_documents d !! id) as [doc|]; [|done]. destruct (doc_state doc); try done. by destruct He.
  - split_and!; [done|by right|done].
Qed.

Lemma run_job_expects w job id inputs ph d :
  pl_document_id (job_payload job) = Some id -> kinv d -> phase_ok ph -> expects w job id ph d ->
  (rank ph <= length inputs)%nat ->
  let r := run_job w job inputs (ph, d) in
  r.1 = Finished /\ settled true id r.2 /\ kinv r.2 /\ same_documents d r.2.
Proof.
  intros Hid. revert ph d. induction inputs as [|i inputs IH]; intros ph d HI Hph He Hr.
  - assert (ph = Finished) as -> by (destruct ph as [| | | |[]| | | |]; simpl in Hr; (done || lia)). by split_and!.
  - simpl. destruct (advance_inv w job i ph d HI Hph) as [H1 H2].
    destruct (advance_expects w job id i ph d Hid HI He) as (H3 & H4 & H5).
    destruct (advance _ _ _ _ _ _ _) as [ph' d'] eqn:Ea. simpl in *.
    destruct (IH ph' d' H1 H2 H3) as (K1 & K2 & K3 & K4).
    + destruct H4 as [?|[_ ->]]; simpl; lia.
    + split_and!; [done|done|done|]. intros j. etransitivity; [apply K4|apply H5].
Qed.

(** An ingestion always settles its document.  Whatever the parser, the embedding model,
    the clock and the file do, a worker that holds the job is done after at most four
    transactions, and then the document is indexed and READY, or FAILED with a reason, or PENDING
    with a live job that will try again, or it had been deleted before; it is never left
    PROCESSING, and no document appears or disappears. *)
Theorem ingest_settles d w job id inputs :
  kinv d -> held w job id d -> (4 <= length inputs)%nat ->
  let r := run_job w job inputs (Begin, d) in
  r.1 = Finished /\ settled true id r.2 /\ kinv r.2 /\ same_documents d r.2.
Proof. intros HI Hh Hl. by apply run_job_expects; [apply Hh|..]. Qed.

(** The sweep fails exactly the documents that nobody will finish: those PENDING or
    PROCESSING for longer than the grace period without a live ingest job.  Afterwards there is
    none, every other document is as before, and the number reported is the number failed. *)
Theorem sweep_exact grace d n d' :
  fail_abandoned grace d = Ok (n, d') ->
  (forall id doc, kn_documents d' !! id = Some doc -> abandoned d' grace doc = false) /\
  (forall id doc, kn_documents d !! id = Some doc ->
     if abandoned d grace doc then
       exists doc', kn_documents d' !! id = Some doc' /\ doc_state doc' = DOC_FAILED /\
         doc_error doc' = Some "INGEST_ABANDONED"%string
     else kn_documents d' !! id = Some doc) /\
  n = size (filter (fun x => abandoned d grace x.2 = true) (kn_documents d)).
Proof.
  intros [= <- <-]. split_and!; [| |done].
  - intros id doc. simpl. rewrite lookup_fmap, fmap_Some. intros (x & Hx & ->).
    destruct (abandoned d grace x) eqn:E; [done|]. exact E.
  - intros id doc Hd. simpl. rewrite lookup_fmap, Hd. simpl. destruct (abandoned d grace doc); [by eexists|done].
Qed.

(** ** Retrieval *)

#[local] Instance nearer_total : Total nearer.
Proof.
  intros a b. unfold nearer. rewrite !Qle_bool_iff. destruct (Qlt_le_dec (ca_distance a) (ca_distance b)); [left|by right].
  by apply Qlt_le_weak.
Qed.
#[local] Instance nearer_trans : Transitive nearer.
Proof. intros a b c. unfold nearer. rewrite !Qle_bool_iff. apply Qle_trans. Qed.

Lemma within_budget_prefix budget rows : exists rest, rows = within_budget budget rows ++ rest.
Proof.
  revert budget. induction rows as [|r rows IH]; intros budget; simpl; [by exists []|].
  destruct (_ <? _); [by eexists|]. destruct (IH (budget - Z.of_nat (dc_token_count (ca_chunk r)))) as [rest Hr].
  exists rest. simpl. by rewrite <- Hr.
Qed.

Definition tokens (rows : list Candidate) : Z :=
  Z.of_nat (list_sum (map (fun c => dc_token_count (ca_chunk c)) rows)).

Lemma within_budget_sum budget rows : 0 <= budget -> tokens (within_budget budget rows) <= budget.
Proof.
  revert budget. induction rows as [|r rows IH]; intros budget Hb; simpl; [done|].
  destruct (Z.ltb_spec budget (Z.of_nat (dc_token_count (ca_chunk r)))); [done|]. unfold tokens in *. simpl.
  specialize (IH (budget - Z.of_nat (dc_token_count (ca_chunk r)))). lia.
Qed.

Lemma sorted_prefix_nearer (l1 l2 : list Candidate) a b :
  StronglySorted nearer (l1 ++ l2) -> a ∈ l1 -> b ∈ l2 -> nearer a b.
Proof.
  induction l1 as [|x l1 IH]; simpl; intros Hs Ha Hb; [set_solver|]. apply StronglySorted_inv in Hs as [Hs Hx].
  apply elem_of_cons in Ha as [->|Ha]; [|by apply IH]. rewrite List.Forall_forall in Hx. apply Hx, list_elem_of_In.
  apply elem_of_app. by right.
Qed.

(** A query answers with the nearest passages it may use.  The passages are those of at most
    [top_k] candidates, each a chunk of a READY document of this knowledge base (and of the
    requested documents), carrying that chunk's text and its document's name; together they
    stay within the token budget; every candidate left out is at least as far away as every one
    returned; and the context is the formatted passages. *)
Theorem query_correct kb question top_k budget ids d r d' :
  0 <= budget -> query kb question top_k budget ids d = Ok (r, d') ->
  d' = d /\ exists chosen rest,
    candidates kb (embed_query question) ids d ≡ₚ chosen ++ rest /\
    qr_passages r = map passage_of chosen /\ qr_context r = format_context (map passage_of chosen) /\
    (length chosen <= top_k)%nat /\ tokens chosen <= budget /\
    (forall a b, a ∈ chosen -> b ∈ rest -> (ca_distance a <= ca_distance b)%Q) /\
    (forall c, c ∈ chosen -> ca_chunk c ∈ kn_chunks d /\
       exists doc, kn_documents d !! dc_document_id (ca_chunk c) = Some doc /\ doc_state doc = DOC_READY /\
         doc_kb_id doc = kb /\ ca_name c = doc_name doc /\
         match ids with Some ((_ :: _) as l) => doc_id doc ∈ l | _ => True end).
Proof.
  intros Hb Hq. unfold query, bind, get_kb, get, guard in Hq. cbn in Hq.
  destruct (kn_bases d !! kb) as [row|]; [|done]. cbn in Hq. destruct (String.eqb _ _); [|done].
  injection Hq as <- <-. split; [done|]. cbn [qr_passages qr_context].
  set (cands := candidates kb (embed_query question) ids d).
  set (sorted := merge_sort nearer cands). destruct (within_budget_prefix budget (take top_k sorted)) as [rest Hrest].
  exists (within_budget budget (take top_k sorted)), (rest ++ drop top_k sorted).
  assert (Hsplit : sorted = within_budget budget (take top_k sorted) ++ rest ++ drop top_k sorted).
  { rewrite app_assoc, <- Hrest. by rewrite take_drop. }
  split_and!; [|done|done| |by apply within_budget_sum| |].
  - rewrite <- Hsplit. symmetry. apply merge_sort_Permutation.
  - assert (length (take top_k sorted) <= top_k)%nat by (rewrite length_take; lia).
    rewrite Hrest, length_app in H. lia.
  - intros a b Ha Hb'. apply Qle_bool_iff. eapply sorted_prefix_nearer; [|exact Ha|exact Hb'].
    rewrite <- Hsplit. apply (StronglySorted_merge_sort nearer).
  - intros c Hc. assert (Hin : c ∈ cands).
    { rewrite <- (merge_sort_Permutation nearer cands). fold sorted. rewrite Hsplit. apply elem_of_app. by left. }
    unfold cands, candidates in Hin. apply list_elem_of_omap in Hin as (x & Hx & Ex).
    apply fmap_Some in Ex as (doc & Ed & ->). simpl. split; [done|]. exists doc. unfold eligible in Ed.
    destruct (kn_documents d !! dc_document_id x) as [doc0|]; [|done].
    destruct (_ && _) eqn:Ec in Ed; [|done]. injection Ed as <-. reflect_all. split_and!; try done.
    destruct ids as [[|]|]; [done| |done]. by reflect_all.
Qed.
End knowledge_props.
