(* ===== verification/JsonGuard.v ===== *)
(** * The request guard ([control_api/json_guard.py])

    Request bodies nested too deeply or holding NUL characters are answered with 422 before
    they reach a route.  The check keeps its own stack of nodes; the stack is modelled with
    its top first. *)

From S2P Require Import Prelude Json Redaction A1 Chunking Evidence.
From Stdlib Require Import Ascii.
#[local] Open Scope nat_scope.

Definition MAX_JSON_DEPTH : nat := 64.

Inductive Problem := NulCharacter | TooDeep | Unfinished.

Definition nul : ascii := "000".
Definition has_nul (s : string) : bool := has_char nul (chars s).

(** The loop over the entries of a dict: the first NUL in a key ends the check. *)
Fixpoint push_items (depth : nat) (o : list (string * Json)) (stack : list (Json * nat)) : option (list (Json * nat)) :=
  match o with
  | [] => Some stack
  | (k, v) :: o' => if has_nul k then None else push_items depth o' ((v, S depth) :: stack)
  end.

Fixpoint check_stack (max_depth fuel : nat) (stack : list (Json * nat)) : option Problem :=
  match stack with
  | [] => None
  | (node, depth) :: rest =>
      match fuel with
      | O => Some Unfinished
      | S fuel' =>
          match node with
          | JStr s => if has_nul s then Some NulCharacter else check_stack max_depth fuel' rest
          | JList l =>
              if max_depth <=? depth then Some TooDeep
              else check_stack max_depth fuel' (rev (map (fun v => (v, S depth)) l) ++ rest)
          | JObj o =>
              if max_depth <=? depth then Some TooDeep
              else match push_items depth o rest with
                   | None => Some NulCharacter
                   | Some stack' => check_stack max_depth fuel' stack'
                   end
          | _ => check_stack max_depth fuel' rest
          end
      end
  end.

(** Number of nodes: every node is popped once. *)
Fixpoint nodes (v : Json) : nat :=
  match v with
  | JList l => S ((fix go l := match l with [] => 0 | x :: l' => nodes x + go l' end) l)
  | JObj o => S ((fix go o := match o with [] => 0 | (_, x) :: o' => nodes x + go o' end) o)
  | _ => 1
  end.

Definition json_problem (v : Json) (max_depth : nat) : option Problem := check_stack max_depth (nodes v) [(v, 0)].

(** What [json.loads] makes of the body. *)
Inductive Loaded := Parsed (v : Json) | RecursionError | NotJson.

Definition body_problem (empty : bool) (loaded : Loaded) (max_depth : nat) : option Problem :=
  if empty then None
  else match loaded with
       | RecursionError => Some TooDeep
       | NotJson => None
       | Parsed v => json_problem v max_depth
       end.

(** ** The middleware *)

Fixpoint contains_text (p s : text) : bool :=
  match expect p s with
  | Some _ => true
  | None => match s with [] => false | _ :: s' => contains_text p s' end
  end.

Definition ends_with (p s : text) : bool :=
  match expect (rev p) (rev s) with Some _ => true | None => false end.

(** The first [content-type] header decides; without one the body counts as JSON. *)
Fixpoint is_json (headers : list (text * text)) : bool :=
  match headers with
  | [] => true
  | (name, value) :: rest =>
      if bool_decide (name = chars "content-type") then
        let media := map lower (strip (fst (partition_at ";" value))) in
        bool_decide (media = chars "application/json") || ends_with (chars "+json") media
      else is_json rest
  end.

Record Scope := mkScope {
  hs_http : bool;
  hs_method : string;
  hs_path : text;
  hs_query : text;
  hs_headers : list (text * text)
}.

Definition METHODS : list string := ["POST"; "PUT"; "PATCH"; "DELETE"]%string.

Inductive Verdict := Forward | RejectPath | RejectBody (p : Problem).

(** [body] is the whole body, [loads] the JSON parser. *)
Definition guarded (loads : text -> Loaded) (max_depth : nat) (s : Scope) (body : text) : Verdict :=
  if negb (hs_http s) then Forward
  else if has_char nul (hs_path s) || contains_text (chars "%00") (map lower (hs_query s)) || has_char nul (map lower (hs_query s))
  then RejectPath
  else if negb (existsb (String.eqb (hs_method s)) METHODS) || negb (is_json (hs_headers s)) then Forward
  else match body_problem (bool_decide (body = [])) (loads body) max_depth with
       | None => Forward
       | Some p => RejectBody p
       end.

(** ** What the guard accepts *)

Fixpoint json_depth (v : Json) : nat :=
  match v with
  | JList l => S ((fix go l := match l with [] => 0 | x :: l' => Nat.max (json_depth x) (go l') end) l)
  | JObj o => S ((fix go o := match o with [] => 0 | (_, x) :: o' => Nat.max (json_depth x) (go o') end) o)
  | _ => 0
  end.

Fixpoint nul_free (v : Json) : Prop :=
  match v with
  | JStr s => has_nul s = false
  | JList l => (fix go l := match l with [] => True | x :: l' => nul_free x /\ go l' end) l
  | JObj o => (fix go o := match o with [] => True | (k, x) :: o' => has_nul k = false /\ nul_free x /\ go o' end) o
  | _ => True
  end.

(** A node of the stack is acceptable where it stands. *)
Definition acceptable (max_depth : nat) (x : Json * nat) : Prop :=
  (json_depth x.1 = 0 \/ json_depth x.1 + x.2 <= max_depth) /\ nul_free x.1.

Definition stack_nodes (stack : list (Json * nat)) : nat := list_sum (map (fun x => nodes x.1) stack).

Lemma nodes_list l : nodes (JList l) = S (list_sum (map (fun x => nodes x) l)).
Proof. simpl. f_equal. induction l as [|x l IH]; simpl; [done|]. by rewrite IH. Qed.
Lemma nodes_obj o : nodes (JObj o) = S (list_sum (map (fun kv => nodes kv.2) o)).
Proof. simpl. f_equal. induction o as [|[k x] o IH]; simpl; [done|]. by rewrite IH. Qed.

Lemma acceptable_list m l d :
  d < m -> acceptable m (JList l, d) <-> Forall (acceptable m) (map (fun v => (v, S d)) l).
Proof.
  intros Hd. unfold acceptable at 1. simpl. split.
  - intros [[[=]|Hj] Hn]. induction l as [|x l IH]; simpl in *; [constructor|]. constructor.
    + split; simpl; [right; lia|by destruct Hn].
    + apply IH; [lia|by destruct Hn].
  - intros Hf. split; [right|].
    + induction l as [|x l IH]; [lia|]. simpl in *. apply Forall_cons in Hf as [[Hx _] Hf]. simpl in Hx.
      specialize (IH Hf). lia.
    + induction l as [|x l IH]; [done|]. simpl in *. apply Forall_cons in Hf as [[_ Hx] Hf]. by split; [|apply IH].
Qed.

Lemma acceptable_obj m o d :
  d < m -> acceptable m (JObj o, d) <->
    Forall (fun kv => has_nul kv.1 = false) o /\ Forall (acceptable m) (map (fun kv => (kv.2, S d)) o).
Proof.
  intros Hd. unfold acceptable at 1. simpl. split.
  - intros [[[=]|Hj] Hn]. induction o as [|[k x] o IH]; simpl in *; [by split; constructor|].
    destruct Hn as (H1 & H2 & H3). destruct IH as [I1 I2]; [lia|done|]. split; constructor; try done.
    split; simpl; [right; lia|done].
  - intros [Hk Hf]. split; [right|].
    + induction o as [|[k x] o IH]; [lia|]. simpl in *. apply Forall_cons in Hf as [[Hx _] Hf]. simpl in Hx.
      apply Forall_cons in Hk as [_ Hk]. specialize (IH Hk Hf). lia.
    + induction o as [|[k x] o IH]; [done|]. simpl in *. apply Forall_cons in Hf as [[_ Hx] Hf].
      apply Forall_cons in Hk as [Hk1 Hk]. split_and!; [done|done|by apply IH].
Qed.

Lemma push_items_spec d o stack :
  match push_items d o stack with
  | Some s => Forall (fun kv => has_nul kv.1 = false) o /\ s = rev (map (fun kv => (kv.2, S d)) o) ++ stack
  | None => ~ Forall (fun kv => has_nul kv.1 = false) o
  end.
Proof.
  revert stack. induction o as [|[k v] o IH]; intros stack; simpl; [done|].
  destruct (has_nul k) eqn:Hk; [intros [Hx _]%Forall_cons; simpl in Hx; congruence|]. specialize (IH ((v, S d) :: stack)).
  destruct (push_items _ _ _) as [s|].
  - destruct IH as [H1 ->]. split; [by constructor|]. by rewrite <- app_assoc.
  - intros [_ H]%Forall_cons. by apply IH.
Qed.

(** Too deep: the node stands at the limit. *)
Lemma too_deep m v d : m <= d -> 0 < json_depth v -> ~ acceptable m (v, d).
Proof. intros Hd Hv [[H|H] _]; simpl in H; lia. Qed.

Lemma check_stack_spec m fuel stack :
  stack_nodes stack <= fuel ->
  check_stack m fuel stack <> Some Unfinished /\
  (check_stack m fuel stack = None <-> Forall (acceptable m) stack).
Proof.
  revert stack. induction fuel as [|fuel IH]; intros [|[v d] rest] Hf; try (split; [done|split; [constructor|done]]).
  { exfalso. unfold stack_nodes in Hf. simpl in Hf. destruct v; simpl in Hf; lia. }
  assert (Hscalar : nodes v = 1 -> (acceptable m (v, d)) ->
    check_stack m fuel rest <> Some Unfinished /\ (check_stack m fuel rest = None <-> Forall (acceptable m) ((v, d) :: rest))).
  { intros H1 Hv. destruct (IH rest) as [I1 I2]; [unfold stack_nodes in *; simpl in *; lia|]. split; [done|].
    rewrite I2, Forall_cons. naive_solver. }
  cbn [check_stack]. destruct v as [|b|z|s|l|o].
  - apply Hscalar; [done|]. split; simpl; [by left|done].
  - apply Hscalar; [done|]. split; simpl; [by left|done].
  - apply Hscalar; [done|]. split; simpl; [by left|done].
  - destruct (has_nul s) eqn:Hs.
    + split; [done|]. split; [done|]. intros [[_ Hn] _]%Forall_cons. simpl in Hn. congruence.
    + apply Hscalar; [done|]. split; simpl; [by left|done].
  - destruct (Nat.leb_spec m d) as [Hd|Hd].
    + split; [done|]. split; [done|]. intros [Ha _]%Forall_cons. exfalso. eapply too_deep; [exact Hd| |exact Ha]. simpl; lia.
    + destruct (IH (rev (map (fun v => (v, S d)) l) ++ rest)) as [I1 I2].
      { unfold stack_nodes in *. cbn [map list_sum] in Hf. rewrite map_app, list_sum_app, map_rev, map_map.
        rewrite <- (Permutation_rev (map _ l)). cbn [fst] in *. rewrite nodes_list in Hf. simpl in *. lia. }
      split; [done|]. rewrite I2, Forall_app, Forall_cons, acceptable_list by done.
      by rewrite <- (Permutation_rev (map _ l)).
  - destruct (Nat.leb_spec m d) as [Hd|Hd].
    + split; [done|]. split; [done|]. intros [Ha _]%Forall_cons. exfalso. eapply too_deep; [exact Hd| |exact Ha]. simpl; lia.
    + pose proof (push_items_spec d o rest) as Hp. destruct (push_items d o rest) as [s|].
      * destruct Hp as [Hk ->]. destruct (IH (rev (map (fun kv => (kv.2, S d)) o) ++ rest)) as [I1 I2].
        { unfold stack_nodes in *. cbn [map list_sum] in Hf. rewrite map_app, list_sum_app, map_rev, map_map.
          rewrite <- (Permutation_rev (map _ o)). cbn [fst] in *. rewrite nodes_obj in Hf. simpl in *. lia. }
        split; [done|]. rewrite I2, Forall_app, Forall_cons, acceptable_obj by done.
        rewrite <- (Permutation_rev (map _ o)). naive_solver.
      * split; [done|]. split; [done|]. intros [Ha _]%Forall_cons. apply acceptable_obj in Ha as [? _]; done.
Qed.

(** The request guard decides exactly what it should, on bodies of any depth: it always
    reaches a verdict, and it lets a body through precisely when its arrays and objects nest at
    most [max_depth] deep and no string or key in it holds a NUL character. *)
Theorem json_problem_correct v max_depth :
  json_problem v max_depth <> Some Unfinished /\
  (json_problem v max_depth = None <-> (json_depth v <= max_depth /\ nul_free v)).
Proof.
  destruct (check_stack_spec max_depth (nodes v) [(v, 0)]) as [H1 H2]; [unfold stack_nodes; simpl; lia|].
  split; [done|]. unfold json_problem. rewrite H2, Forall_singleton. unfold acceptable. simpl.
  rewrite Nat.add_0_r. split; [intros [[->|?] ?]; (split; [lia|done])|intros [? ?]; split; [by right|done]].
Qed.
