(* ===== verification/Pagination.v ===== *)
(** * Pagination ([control_api/pagination.py] and the keyset queries of the routers)

    Cursors are base64url text without padding.  The decoder is CPython's lenient one
    ([binascii.a2b_base64] after the url-safe translation).  Strings are their UTF-8 bytes: code
    points and UTF-8 bytes compare alike. *)

From stdpp Require Import sorting.
From S2P Require Import Prelude Json Redaction.
From Stdlib Require Import Ascii ZifyN ZifyNat.
#[local] Open Scope N_scope.

(** ** Base64 *)

Definition byte_of (c : ascii) : N := N_of_ascii c.

(** The url-safe alphabet. *)
Definition sextet (n : N) : ascii :=
  ascii_of_N (if n <? 26 then 65 + n else if n <? 52 then 71 + n else if n <? 62 then n - 4
              else if n =? 62 then 45 else 95).

(** [urlsafe_b64encode(...).rstrip("=")]. *)
Fixpoint b64encode (s : text) : text :=
  match s with
  | [] => []
  | [a] => [sextet (byte_of a / 4); sextet (byte_of a mod 4 * 16)]
  | [a; b] =>
      [sextet (byte_of a / 4); sextet (byte_of a mod 4 * 16 + byte_of b / 16); sextet (byte_of b mod 16 * 4)]
  | a :: b :: c :: s' =>
      sextet (byte_of a / 4) :: sextet (byte_of a mod 4 * 16 + byte_of b / 16)
      :: sextet (byte_of b mod 16 * 4 + byte_of c / 64) :: sextet (byte_of c mod 64) :: b64encode s'
  end.

(** The value of a character: [-] and [_] are translated to [+] and [/] first, so both
    alphabets are read; anything else is skipped. *)
Definition sextet_value (c : ascii) : option N :=
  let n := byte_of c in
  if (65 <=? n) && (n <=? 90) then Some (n - 65)
  else if (97 <=? n) && (n <=? 122) then Some (n - 71)
  else if (48 <=? n) && (n <=? 57) then Some (n + 4)
  else if (n =? 45) || (n =? 43) then Some 62
  else if (n =? 95) || (n =? 47) then Some 63
  else None.

(** [quad] is the position in the group of four, [left] the bits kept from the last
    character, [pads] the padding characters in a row.  [None] is [binascii.Error]. *)
Fixpoint a2b (quad left pads : N) (s : text) : option text :=
  match s with
  | [] => if quad =? 0 then Some [] else None
  | c :: s' =>
      if Ascii.eqb c "=" then
        if (2 <=? quad) && (4 <=? quad + (pads + 1)) then Some []
        else a2b quad left (if 2 <=? quad then pads + 1 else pads) s'
      else match sextet_value c with
           | None => a2b quad left pads s'
           | Some v =>
               if quad =? 0 then a2b 1 v 0 s'
               else if quad =? 1 then cons (ascii_of_N (left * 4 + v / 16)) <$> a2b 2 (v mod 16) 0 s'
               else if quad =? 2 then cons (ascii_of_N (left * 16 + v / 4)) <$> a2b 3 (v mod 4) 0 s'
               else cons (ascii_of_N (left * 64 + v)) <$> a2b 0 0 0 s'
           end
  end.

(** [urlsafe_b64decode(cursor + "=" * (-len(cursor) % 4))]. *)
Definition b64decode (cursor : text) : option text :=
  a2b 0 0 0 (cursor ++ replicate (Nat.modulo (4 - Nat.modulo (length cursor) 4) 4) "="%char).

(** ** Bytes of identifiers and of text *)

Fixpoint be_bytes (k : nat) (n : N) : text :=
  match k with
  | O => []
  | S k' => be_bytes k' (n / 256) ++ [ascii_of_N (n mod 256)]
  end.
Definition of_be_bytes (s : text) : N := fold_left (fun n c => n * 256 + byte_of c) s 0.

(** [uuid.UUID.bytes], [uuid.UUID(bytes=...)]. *)
Definition uuid_bytes (u : uuid) : text := be_bytes 16 u.
Definition uuid_of_bytes (s : text) : option uuid := if Nat.eqb (length s) 16 then Some (of_be_bytes s) else None.

Definition within (lo hi : N) (c : ascii) : bool := (lo <=? byte_of c) && (byte_of c <=? hi).
Definition cont (c : ascii) : bool := within 128 191 c.

(** [bytes.decode()] succeeds: well-formed UTF-8. *)
Fixpoint utf8_valid (s : text) : bool :=
  match s with
  | [] => true
  | a :: s1 =>
      if within 0 127 a then utf8_valid s1
      else match s1 with
      | [] => false
      | b :: s2 =>
          if within 194 223 a then cont b && utf8_valid s2
          else match s2 with
          | [] => false
          | c :: s3 =>
              if within 224 239 a then
                (if byte_of a =? 224 then within 160 191 b
                 else if byte_of a =? 237 then within 128 159 b else cont b) && cont c && utf8_valid s3
              else match s3 with
              | [] => false
              | d :: s4 =>
                  within 240 244 a &&
                  (if byte_of a =? 240 then within 144 191 b
                   else if byte_of a =? 244 then within 128 143 b else cont b) && cont c && cont d && utf8_valid s4
              end
          end
      end
  end.

(** ** Cursors *)

Definition INVALID_CURSOR : PlatformError := invalid "INVALID_CURSOR" [].

Definition encode_cursor (last_id : uuid) : text := b64encode (uuid_bytes last_id).

Definition decode_cursor (cursor : option text) : Result PlatformError (option uuid) :=
  match cursor with
  | None | Some [] => Ok None
  | Some c =>
      match b64decode c with
      | None => Err INVALID_CURSOR
      | Some bytes => match uuid_of_bytes bytes with Some u => Ok (Some u) | None => Err INVALID_CURSOR end
      end
  end.

Definition encode_text_cursor (value : text) : text := b64encode value.

Definition decode_text_cursor (cursor : option text) : Result PlatformError (option text) :=
  match cursor with
  | None | Some [] => Ok None
  | Some c =>
      match b64decode c with
      | Some s => if utf8_valid s then Ok (Some s) else Err INVALID_CURSOR
      | None => Err INVALID_CURSOR
      end
  end.

Definition MAX_LIMIT : Z := 200.
Definition clamp_limit (limit : Z) : Z := Z.max 1 (Z.min MAX_LIMIT limit).

(** ** Pages *)

(** Strings compare by code point. *)
Fixpoint text_ltb (a b : text) : bool :=
  match a, b with
  | _, [] => false
  | [], _ :: _ => true
  | x :: a', y :: b' => (byte_of x <? byte_of y) || ((byte_of x =? byte_of y) && text_ltb a' b')
  end.

Section pages.
Context {T : Type}.

Definition key_le (key : T -> text) (a b : T) : Prop := text_ltb (key b) (key a) = false.
#[export] Instance key_le_dec key : RelDecision (key_le key).
Proof. intros a b. unfold key_le. apply _. Defined.

Definition page_in_memory (items : list T) (key : T -> text) (limit : Z) (cursor : option text)
    : Result PlatformError (list T * option text) :=
  let limit := Z.to_nat (clamp_limit limit) in
  let ordered := merge_sort (key_le key) items in
  match decode_text_cursor cursor with
  | Err e => Err e
  | Ok after =>
      let ordered := match after with
                     | Some k => List.filter (fun i => text_ltb k (key i)) ordered
                     | None => ordered
                     end in
      let page := take limit ordered in
      let more := Nat.ltb limit (length ordered) in
      Ok (page, if more then (fun i => encode_text_cursor (key i)) <$> last page else None)
  end.

Definition id_ge (id : T -> uuid) (a b : T) : Prop := id b <= id a.
#[export] Instance id_ge_dec id : RelDecision (id_ge id).
Proof. intros a b. unfold id_ge. apply _. Defined.

(** The keyset queries over a table: [ORDER BY id DESC LIMIT limit + 1], newest first. *)
Definition page_by_id (rows : list T) (id : T -> uuid) (limit : Z) (cursor : option text)
    : Result PlatformError (list T * option text) :=
  let limit := Z.to_nat (clamp_limit limit) in
  match decode_cursor cursor with
  | Err e => Err e
  | Ok after =>
      let found := match after with
                   | Some u => List.filter (fun r => id r <? u) rows
                   | None => rows
                   end in
      let rows := take (limit + 1) (merge_sort (id_ge id) found) in
      let more := Nat.ltb limit (length rows) in
      Ok (take limit rows, if more then (fun r => encode_cursor (id r)) <$> rows !! (limit - 1)%nat else None)
  end.

(** A client that follows the cursors: everything it is given; [None] if it did not reach
    the end within [fuel] requests. *)
Fixpoint follow (fuel : nat) (fetch : option text -> Result PlatformError (list T * option text)) (cursor : option text)
    : option (list T) :=
  match fuel with
  | O => None
  | S fuel' =>
      match fetch cursor with
      | Err _ => None
      | Ok (page, None) => Some page
      | Ok (page, Some next) => app page <$> follow fuel' fetch (Some next)
      end
  end.
End pages.

(** ** Round trips *)

#[local] Ltac Zify.zify_post_hook ::= Z.div_mod_to_equations.

Lemma sextet_value_sextet n : n < 64 -> sextet_value (sextet n) = Some n /\ sextet n <> "="%char.
Proof.
  intros Hn. assert (Hall : forallb (fun k => bool_decide (sextet_value (sextet (N.of_nat k)) = Some (N.of_nat k))
    && bool_decide (sextet (N.of_nat k) <> "="%char)) (seq 0 64) = true) by (vm_compute; reflexivity).
  rewrite forallb_forall in Hall. specialize (Hall (N.to_nat n)).
  rewrite N2Nat.id in Hall. specialize (Hall ltac:(apply in_seq; lia)).
  apply andb_true_iff in Hall as [H1 H2]. by apply bool_decide_eq_true in H1, H2.
Qed.

Lemma a2b_sextet quad left pads n s :
  n < 64 ->
  a2b quad left pads (sextet n :: s) =
    if quad =? 0 then a2b 1 n 0 s
    else if quad =? 1 then cons (ascii_of_N (left * 4 + n / 16)) <$> a2b 2 (n mod 16) 0 s
    else if quad =? 2 then cons (ascii_of_N (left * 16 + n / 4)) <$> a2b 3 (n mod 4) 0 s
    else cons (ascii_of_N (left * 64 + n)) <$> a2b 0 0 0 s.
Proof.
  intros Hn. destruct (sextet_value_sextet n Hn) as [H1 H2]. cbn [a2b].
  rewrite (proj2 (Ascii.eqb_neq _ _) H2). by rewrite H1.
Qed.

Ltac sextets := repeat (rewrite a2b_sextet by lia; cbn [N.eqb Pos.eqb]).

Lemma byte_bound c : byte_of c < 256.
Proof. apply N_ascii_bounded. Qed.

Lemma ascii_byte c n : n = byte_of c -> ascii_of_N n = c.
Proof. intros ->. apply ascii_N_embedding. Qed.

Lemma a2b_b64encode s :
  a2b 0 0 0 (b64encode s ++ replicate (Nat.modulo (4 - Nat.modulo (length (b64encode s)) 4) 4) "="%char) = Some s.
Proof.
  induction s as [s IH] using (induction_ltof1 _ (@length ascii)). unfold ltof in IH.
  destruct s as [|a [|b [|c s]]]; [done|..]; pose proof (byte_bound a) as Ha.
  - cbn [b64encode app length]. change (replicate _ _) with ["="; "="]%char. sextets.
    change (a2b 2 _ 0 _) with (Some (@nil ascii)). simpl. f_equal. f_equal. apply ascii_byte. lia.
  - pose proof (byte_bound b) as Hb. cbn [b64encode app length]. change (replicate _ _) with ["="]%char. sextets.
    change (a2b 3 _ 0 _) with (Some (@nil ascii)). simpl. f_equal. f_equal; [|f_equal]; apply ascii_byte; lia.
  - pose proof (byte_bound b) as Hb. pose proof (byte_bound c) as Hc. cbn [b64encode app length]. sextets.
    replace (Nat.modulo (S (S (S (S (length (b64encode s)))))) 4) with (Nat.modulo (length (b64encode s)) 4).
    2:{ replace (S (S (S (S (length (b64encode s)))))) with (length (b64encode s) + 1 * 4)%nat by lia.
        by rewrite Nat.Div0.mod_add. }
    rewrite IH by (simpl; lia). simpl. f_equal. f_equal; [|f_equal; [|f_equal]]; apply ascii_byte; lia.
Qed.

Lemma b64decode_encode s : b64decode (b64encode s) = Some s.
Proof. apply a2b_b64encode. Qed.

Lemma b64encode_nonempty s : s <> [] -> b64encode s <> [].
Proof. by destruct s as [|a [|b [|c s]]]. Qed.

Lemma be_bytes_length k n : length (be_bytes k n) = k.
Proof. revert n. induction k as [|k IH]; intros n; [done|]. simpl. rewrite length_app, IH. simpl. lia. Qed.

Lemma of_be_bytes_snoc s c : of_be_bytes (s ++ [c]) = of_be_bytes s * 256 + byte_of c.
Proof. unfold of_be_bytes. by rewrite fold_left_app. Qed.

Lemma of_be_bytes_be k n : n < 256 ^ N.of_nat k -> of_be_bytes (be_bytes k n) = n.
Proof.
  revert n. induction k as [|k IH]; intros n Hn; [simpl in *; unfold of_be_bytes; simpl; lia|].
  cbn [be_bytes]. rewrite of_be_bytes_snoc, IH.
  - unfold byte_of. rewrite N_ascii_embedding by lia. lia.
  - rewrite Nat2N.inj_succ, N.pow_succ_r' in Hn. lia.
Qed.

Lemma decode_encode_cursor u : u < 2 ^ 128 -> decode_cursor (Some (encode_cursor u)) = Ok (Some u).
Proof.
  intros Hu. unfold decode_cursor, encode_cursor. destruct (b64encode (uuid_bytes u)) as [|c t] eqn:E; [|rewrite <- E].
  { exfalso. apply (b64encode_nonempty (uuid_bytes u)); [|done]. intros Hn.
    pose proof (be_bytes_length 16 u) as Hl. unfold uuid_bytes in Hn. by rewrite Hn in Hl. }
  rewrite b64decode_encode. unfold uuid_of_bytes, uuid_bytes. rewrite be_bytes_length. simpl Nat.eqb. cbv iota.
  by rewrite of_be_bytes_be.
Qed.

Lemma decode_encode_text s :
  s <> [] -> utf8_valid s = true -> decode_text_cursor (Some (encode_text_cursor s)) = Ok (Some s).
Proof.
  intros Hs Hv. unfold decode_text_cursor, encode_text_cursor.
  destruct (b64encode s) as [|c t] eqn:E; [by apply b64encode_nonempty in E|rewrite <- E].
  by rewrite b64decode_encode, Hv.
Qed.

(** A cursor leads back to the row it was made from: decoding an encoded identifier gives
    that identifier, for every 128-bit UUID, and decoding an encoded text that text, for every
    non-empty well-formed UTF-8 string. *)
Theorem cursor_roundtrip u s :
  u < 2 ^ 128 -> s <> [] -> utf8_valid s = true ->
  decode_cursor (Some (encode_cursor u)) = Ok (Some u) /\
  decode_text_cursor (Some (encode_text_cursor s)) = Ok (Some s).
Proof. intros Hu Hs Hv. split; [by apply decode_encode_cursor|by apply decode_encode_text]. Qed.

(** ** Orders *)

Lemma byte_of_inj a b : byte_of a = byte_of b -> a = b.
Proof. intros H%(f_equal ascii_of_N). unfold byte_of in H. by rewrite !ascii_N_embedding in H. Qed.

Lemma text_ltb_irrefl a : text_ltb a a = false.
Proof. induction a as [|x a IH]; [done|]. simpl. rewrite IH, N.ltb_irrefl, andb_false_r. done. Qed.

Lemma text_ltb_trans a b c : text_ltb a b = true -> text_ltb b c = true -> text_ltb a c = true.
Proof.
  revert b c. induction a as [|x a IH]; intros [|y b] [|z c]; simpl; try done.
  rewrite !orb_true_iff, !andb_true_iff, !N.ltb_lt, !N.eqb_eq.
  intros [H1|[H1 H2]] [H3|[H3 H4]]; [left; lia|left; lia|left; lia|right]. split; [congruence|by eapply IH].
Qed.

Lemma text_ltb_total a b : text_ltb a b = false -> text_ltb b a = false -> a = b.
Proof.
  revert b. induction a as [|x a IH]; intros [|y b]; simpl; try done.
  rewrite !orb_false_iff, !andb_false_iff, !N.ltb_ge, !N.eqb_neq. intros [H1 H2] [H3 H4].
  assert (byte_of x = byte_of y) as E by lia. f_equal; [by apply byte_of_inj|]. apply IH; [by destruct H2|].
  destruct H4; [congruence|done].
Qed.

(** ** Following the cursors *)

Section keyset.
Context {T : Type} (fetch : option text -> Result PlatformError (list T * option text)) (encode : T -> text)
  (ordered : list T) (limit : nat).

(** The answer when [todo] is what remains. *)
Definition page_of (todo : list T) : list T * option text :=
  (take limit todo, if Nat.ltb limit (length todo) then encode <$> last (take limit todo) else None).

Context (Hlimit : (1 <= limit)%nat)
  (Hnext : forall seen x todo, ordered = seen ++ x :: todo -> fetch (Some (encode x)) = Ok (page_of todo)).

Lemma follow_rest fuel seen todo cursor :
  ordered = seen ++ todo -> fetch cursor = Ok (page_of todo) -> (length todo < fuel)%nat ->
  follow fuel fetch cursor = Some todo.
Proof.
  revert seen todo cursor. induction fuel as [|fuel IH]; intros seen todo cursor Ho Hf Hl; [lia|].
  cbn [follow]. rewrite Hf. unfold page_of. destruct (Nat.ltb_spec limit (length todo)) as [Hlt|Hge].
  - destruct (last (take limit todo)) as [x|] eqn:Hx.
    2:{ apply last_None in Hx. apply (f_equal length) in Hx. rewrite length_take in Hx. simpl in Hx. lia. }
    apply last_Some in Hx as [p Hp]. simpl.
    rewrite (IH (seen ++ take limit todo) (drop limit todo)).
    + simpl. by rewrite take_drop.
    + by rewrite <- app_assoc, take_drop.
    + apply (Hnext (seen ++ p)). rewrite Ho. rewrite <- (take_drop limit todo) at 1. rewrite Hp.
      by rewrite <- !app_assoc.
    + rewrite length_drop. lia.
  - by rewrite take_ge by lia.
Qed.

Lemma follow_all fuel :
  fetch None = Ok (page_of ordered) -> (length ordered < fuel)%nat -> follow fuel fetch None = Some ordered.
Proof. intros Hf Hl. by apply (follow_rest fuel []). Qed.
End keyset.

Lemma filter_none {A} (p : A -> bool) (l : list A) : (forall x, x ∈ l -> p x = false) -> List.filter p l = [].
Proof.
  induction l as [|x l IH]; intros H; [done|]. cbn [List.filter]. rewrite (H x) by (by left).
  apply IH. intros y Hy. apply H. by right.
Qed.
Lemma filter_every {A} (p : A -> bool) (l : list A) : (forall x, x ∈ l -> p x = true) -> List.filter p l = l.
Proof.
  induction l as [|x l IH]; intros H; [done|]. cbn [List.filter]. rewrite (H x) by (by left).
  f_equal. apply IH. intros y Hy. apply H. by right.
Qed.

Lemma filter_permuted {A} (p : A -> bool) l l' : l ≡ₚ l' -> List.filter p l ≡ₚ List.filter p l'.
Proof.
  induction 1 as [|x l l' _ IH|x y l|l1 l2 l3 _ IH1 _ IH2]; cbn [List.filter].
  - done.
  - destruct (p x); [by rewrite IH|done].
  - destruct (p x), (p y); try done. constructor.
  - by rewrite IH1.
Qed.

(** In a list ordered by [R], the elements after [x] are those that [p] selects. *)
Lemma filter_after {A} (R : A -> A -> Prop) (p : A -> bool) seen x todo :
  StronglySorted R (seen ++ x :: todo) ->
  (forall y, R y x \/ y = x -> p y = false) -> (forall y, y ∈ todo -> R x y -> p y = true) ->
  List.filter p (seen ++ x :: todo) = todo.
Proof.
  intros Hs Hbefore Hafter. apply StronglySorted_app in Hs as (H1 & _ & H2). apply StronglySorted_inv in H2 as [_ H2].
  rewrite List.filter_app, filter_none.
  - cbn [app List.filter]. rewrite (Hbefore x) by (by right). apply filter_every. intros y Hy. apply Hafter; [done|].
    rewrite List.Forall_forall in H2. apply H2. by apply list_elem_of_In.
  - intros y Hy. apply Hbefore. left. apply H1; [done|by left].
Qed.

#[export] Instance key_le_total {T} (key : T -> text) : Total (key_le key).
Proof.
  intros a b. unfold key_le. destruct (text_ltb (key b) (key a)) eqn:E; [right|by left].
  destruct (text_ltb (key a) (key b)) eqn:E'; [|done].
  pose proof (text_ltb_trans _ _ _ E' E) as X. by rewrite text_ltb_irrefl in X.
Qed.
#[export] Instance key_le_trans {T} (key : T -> text) : Transitive (key_le key).
Proof.
  intros a b c. unfold key_le. intros H1 H2. destruct (text_ltb (key c) (key a)) eqn:E; [|done].
  destruct (text_ltb (key b) (key c)) eqn:E1; [by rewrite (text_ltb_trans _ _ _ E1 E) in H1|].
  rewrite (text_ltb_total _ _ E1 H2) in H1. congruence.
Qed.
#[local] Instance id_ge_total {T} (id : T -> uuid) : Total (id_ge id).
Proof. intros a b. unfold id_ge. lia. Qed.
#[local] Instance id_ge_trans {T} (id : T -> uuid) : Transitive (id_ge id).
Proof. intros a b c. unfold id_ge. lia. Qed.

Lemma NoDup_key_later {A K} (key : A -> K) seen x todo y :
  NoDup (map key (seen ++ x :: todo)) -> y ∈ todo -> key x <> key y.
Proof.
  rewrite map_app. intros (_ & _ & H)%NoDup_app Hy E. simpl in H. apply NoDup_cons in H as [H _]. apply H.
  rewrite E. by apply list_elem_of_fmap_2.
Qed.

Lemma NoDup_map_eq {A K} (key : A -> K) l a b : NoDup (map key l) -> a ∈ l -> b ∈ l -> key a = key b -> a = b.
Proof.
  intros Hnd Ha Hb E. apply list_elem_of_lookup in Ha as [i Hi]. apply list_elem_of_lookup in Hb as [j Hj].
  assert (i = j) as ->; [|congruence]. eapply (NoDup_lookup (map key l)); [done| |].
  - by rewrite list_lookup_fmap, Hi.
  - rewrite list_lookup_fmap, Hj. simpl. by rewrite E.
Qed.

Lemma clamp_limit_pos limit : (1 <= Z.to_nat (clamp_limit limit))%nat.
Proof. unfold clamp_limit. lia. Qed.

(** A listing that another service provides is paged completely: a client that follows the
    cursors, with any page size, is given every item exactly once, in the order of the keys,
    and reaches the end (keys are distinct, non-empty, well-formed strings). *)
Theorem pages_complete {T} (items : list T) key limit :
  NoDup (map key items) -> Forall (fun i => key i <> [] /\ utf8_valid (key i) = true) items ->
  follow (S (length items)) (page_in_memory items key limit) None = Some (merge_sort (key_le key) items).
Proof.
  intros Hnd Hok. set (ordered := merge_sort (key_le key) items).
  assert (Hperm : ordered ≡ₚ items) by apply merge_sort_Permutation.
  assert (Hsort : StronglySorted (key_le key) ordered) by apply (StronglySorted_merge_sort (key_le key)).
  assert (Hnd' : NoDup (map key ordered)) by by rewrite Hperm.
  assert (Hok' : forall x, x ∈ ordered -> key x <> [] /\ utf8_valid (key x) = true).
  { intros x Hx. rewrite Hperm in Hx. by apply (proj1 (Forall_forall _ _) Hok). }
  eapply (follow_all _ (fun i => encode_text_cursor (key i)) ordered _ (clamp_limit_pos limit)).
  - intros seen x todo E. unfold page_in_memory. fold ordered.
    destruct (Hok' x) as [H1 H2]; [rewrite E; apply elem_of_app; right; by left|].
    rewrite decode_encode_text by done. rewrite E in Hnd', Hsort |- *.
    erewrite (filter_after (key_le key)); [done|done| |].
    + intros y [Hy| ->]; [done|apply text_ltb_irrefl].
    + intros y Hy Hle. destruct (text_ltb (key x) (key y)) eqn:El; [done|].
      exfalso. apply (NoDup_key_later key _ _ _ _ Hnd' Hy). by apply text_ltb_total.
  - done.
  - rewrite Hperm. lia.
Qed.

Lemma page_by_id_page {T} (id : T -> uuid) limit (l : list T) :
  (1 <= limit)%nat ->
  (take limit (take (limit + 1) l),
   if Nat.ltb limit (length (take (limit + 1) l)) then (fun r => encode_cursor (id r)) <$> take (limit + 1) l !! (limit - 1)%nat else None)
  = page_of (fun r => encode_cursor (id r)) limit l.
Proof.
  intros Hl. unfold page_of. rewrite take_take, length_take, Nat.min_l by lia. f_equal.
  destruct (Nat.ltb_spec limit (length l)) as [Hlt|Hge].
  - rewrite (proj2 (Nat.ltb_lt _ _)) by lia. rewrite lookup_take_lt by lia.
    rewrite last_lookup, length_take, Nat.min_l by lia. rewrite lookup_take_lt by lia. do 2 f_equal. lia.
  - by rewrite (proj2 (Nat.ltb_ge _ _)) by lia.
Qed.

(** The keyset listings over a table are complete: a client that follows the cursors, with
    any page size, is given every row exactly once, newest identifier first, and reaches the
    end (the identifiers are distinct UUIDs). *)
Theorem keyset_complete {T} (rows : list T) id limit :
  NoDup (map id rows) -> Forall (fun r => id r < 2 ^ 128) rows ->
  follow (S (length rows)) (page_by_id rows id limit) None = Some (merge_sort (id_ge id) rows).
Proof.
  intros Hnd Hok. set (ordered := merge_sort (id_ge id) rows).
  assert (Hperm : ordered ≡ₚ rows) by apply merge_sort_Permutation.
  assert (Hsort : StronglySorted (id_ge id) ordered) by apply (StronglySorted_merge_sort (id_ge id)).
  assert (Hnd' : NoDup (map id ordered)) by by rewrite Hperm.
  eapply (follow_all _ (fun r => encode_cursor (id r)) ordered _ (clamp_limit_pos limit)).
  - intros seen x todo E. unfold page_by_id.
    rewrite decode_encode_cursor.
    2:{ apply (proj1 (Forall_forall _ _) Hok). rewrite <- Hperm, E. apply elem_of_app. right. by left. }
    assert (merge_sort (id_ge id) (List.filter (fun r => id r <? id x) rows) = todo) as ->.
    { rewrite E in Hnd', Hsort.
      assert (Hf : List.filter (fun r => id r <? id x) (seen ++ x :: todo) = todo).
      { apply (filter_after (id_ge id)); [done| |].
        - intros y [Hy| ->]; apply N.ltb_ge; [done|lia].
        - intros y Hy Hle. apply N.ltb_lt. pose proof (NoDup_key_later id _ _ _ _ Hnd' Hy). unfold id_ge in Hle. lia. }
      assert (Hp : List.filter (fun r => id r <? id x) rows ≡ₚ todo).
      { rewrite <- Hf, <- E. apply filter_permuted. by symmetry. }
      apply (StronglySorted_unique_strong (id_ge id)).
      - intros a b Ha Hb Hab Hba. rewrite merge_sort_Permutation, Hp in Ha. apply (NoDup_map_eq id todo); [|done|done|].
        + rewrite map_app in Hnd'. apply NoDup_app in Hnd' as (_ & _ & Hnd'). by apply NoDup_cons in Hnd' as [_ ?].
        + unfold id_ge in *. lia.
      - apply (StronglySorted_merge_sort (id_ge id)).
      - apply StronglySorted_app_1_r in Hsort. by apply StronglySorted_inv in Hsort as [? _].
      - by rewrite merge_sort_Permutation. }
    by rewrite page_by_id_page by apply clamp_limit_pos.
  - unfold page_by_id. simpl. fold ordered. by rewrite page_by_id_page by apply clamp_limit_pos.
  - rewrite Hperm. lia.
Qed.
