(* ===== verification/Manifest.v ===== *)
(** * Agent manifests ([shared/manifest.py])

    Validation and normalisation of manifests, model bindings of an installation and its
    configuration.  The schema of manifests is the file
    [packages/contracts/agent-manifest.schema.json]: a parameter, of which
    [ManifestContract] states the shape it enforces on the parts the services index. *)

From S2P Require Import Prelude Json Redaction PyValue SchemaGuard States Jobs RunModel RunService RunInv RunOps.
From S2P Require Import Platform Capability.
From Stdlib Require Import Ascii.
#[local] Open Scope Z_scope.

Definition or_raise {A} (o : option A) : Result PlatformError A :=
  match o with Some a => Ok a | None => Err UNEXPECTED end.
(** [d[k]]; a missing key is a [KeyError]. *)
Definition at_key (k : string) (d : Json) : Result PlatformError Json := or_raise (jget k d).
Definition ensure (c : bool) (e : PlatformError) : Result PlatformError unit := if c then Ok tt else Err e.

Definition DEFAULT_VARIANTS : list (string * string) :=
  [("local.general", "local.general.small"); ("local.embedding", "local.embedding.small");
   ("local.stt", "local.stt.small"); ("local.tts", "local.tts.small")]%string.

Definition KNOWN_VARIANTS : list string :=
  ["local.general.small"; "local.general.quality"; "local.embedding.small"; "local.stt.small";
   "local.tts.small"]%string.

Definition MAX_INPUT_WAIT_SECONDS : Z := 86400.

Definition is_known_variant (v : string) : bool := existsb (String.eqb v) KNOWN_VARIANTS.
Definition is_family (p : string) : bool := bool_decide (is_Some (assoc p DEFAULT_VARIANTS)).

(** [prefix] starts [s]. *)
Definition startswith (prefix s : string) : bool := String.prefix prefix s.

(** ** Validation errors *)

Fixpoint path_leb (a b : list (string + Z)) : bool :=
  match a, b with
  | [], _ => true
  | _ :: _, [] => false
  | inl x :: a', inl y :: b' => if String.eqb x y then path_leb a' b' else String.leb x y
  | inr m :: a', inr n :: b' => if m =? n then path_leb a' b' else m <=? n
  (* two paths of one instance first differ inside one container, so this never decides *)
  | inl _ :: _, inr _ :: _ => false
  | inr _ :: _, inl _ :: _ => true
  end.

Fixpoint insert_error (e : ValidationError) (l : list ValidationError) : list ValidationError :=
  match l with
  | [] => [e]
  | x :: l' => if path_leb (absolute_path e) (absolute_path x) then e :: l else x :: insert_error e l'
  end.

Definition path_item (p : string + Z) : string := match p with inl s => s | inr z => pretty z end.

Definition error_json (e : ValidationError) : Json :=
  JObj [("path", JStr ("/" +:+ String.concat "/" (map path_item (absolute_path e))));
        ("message", JStr (error_message e))]%string.

(** ** Profiles *)

Definition image_digest (image : string) : Result PlatformError string :=
  match rev (split_at "@"%char (chars image)) with
  | digest :: _ :: _ => Ok (unchars digest)
  | _ => Err UNEXPECTED
  end.

Definition profile_family (profile : string) : string :=
  String.concat "." (map unchars (take 2 (split_at "."%char (chars profile)))).

(** One iteration of [resolve_model_bindings]. *)
Definition bind_profile (choices : list (string * string)) (profile : string) : Result PlatformError string :=
  match assoc profile DEFAULT_VARIANTS with
  | Some variant =>
      let chosen := default variant (assoc profile choices) in
      if negb (String.eqb (profile_family chosen) profile) || negb (is_known_variant chosen)
      then Err (invalid "INVALID_MODEL_BINDING" [("profile", JStr profile); ("choice", JStr chosen)]%string)
      else Ok chosen
  | None =>
      match assoc profile choices with
      | Some c => if String.eqb c profile then Ok profile
                  else Err (invalid "INVALID_MODEL_BINDING" [("profile", JStr profile)]%string)
      | None => Ok profile
      end
  end.

Fixpoint bind_profiles (choices : list (string * string)) (profiles : list string)
    (bindings : list (string * string)) : Result PlatformError (list (string * string)) :=
  match profiles with
  | [] => Ok bindings
  | profile :: rest =>
      chosen ← bind_profile choices profile;
      bind_profiles choices rest (dict_set profile chosen bindings)
  end.

Definition resolve_model_bindings (requested_profiles : list string) (choices : list (string * string))
    : Result PlatformError (list (string * string)) :=
  let unknown := List.filter (fun k => negb (existsb (String.eqb k) requested_profiles)) (map fst choices) in
  match unknown with
  | _ :: _ => Err (invalid "INVALID_MODEL_BINDING" [("profiles", JList (map JStr (sorted_set unknown)))]%string)
  | [] => bind_profiles choices requested_profiles []
  end.

(** The bindings as the column holds them. *)
Definition bindings_json (b : list (string * string)) : Json := JObj (map (fun kv => (kv.1, JStr kv.2)) b).

Section schemas.
Context {JS : JsonSchema}.

Definition errors_of (schema instance : Json) : list Json :=
  take 20 (map error_json (foldr insert_error [] (iter_errors schema instance))).

(** ** Manifests *)

Definition with_defaults (manifest : Json) : option Json :=
  alter_key "spec" (fun spec =>
    spec ← setdefault "sdkProtocol" (JStr "v1alpha1") spec;
    spec ← alter_key "resources" (fun r =>
      r ← setdefault "maxInputWaitSeconds" (JNum MAX_INPUT_WAIT_SECONDS) r;
      setdefault "pids" (JNum 256) r) spec;
    alter_key "permissions" (fun p =>
      p ← alter_key "connectors" (fun c =>
        c ← setdefault "google" (JList []) c;
        c ← setdefault "twilio" (JList []) c;
        setdefault "github" (JList []) c) p;
      setdefault "startsAgents" (JList []) p) spec) manifest.

Definition DEFAULT_CONFIGURATION_SCHEMA : Json :=
  JObj [("type", JStr "object"); ("properties", JObj []); ("additionalProperties", JBool false)]%string.

(** [x in l] for a list. *)
Definition py_in (x l : Json) : Result PlatformError bool :=
  match l with JList l => Ok (existsb (py_eq x) l) | _ => Err UNEXPECTED end.

Fixpoint check_profiles (profiles : list string) : Result PlatformError unit :=
  match profiles with
  | [] => Ok tt
  | profile :: rest =>
      let is_known := is_family profile || is_known_variant profile in
      _ ← ensure (negb (startswith "local." profile && negb is_known)) (invalid "UNKNOWN_MODEL_PROFILE" []);
      check_profiles rest
  end.

Definition check_manifest (m : Json) : Result PlatformError Json :=
  spec ← at_key "spec" m;
  permissions ← at_key "permissions" spec;
  starts ← at_key "startsAgents" permissions;
  metadata ← at_key "metadata" m;
  id ← at_key "id" metadata;
  itself ← py_in id starts;
  _ ← ensure (negb itself) (invalid "INVALID_MANIFEST" []);
  m ← or_raise (alter_key "spec" (setdefault "configurationSchema" DEFAULT_CONFIGURATION_SCHEMA) m);
  spec ← at_key "spec" m;
  config_schema ← at_key "configurationSchema" spec;
  _ ← check_schema config_schema "INVALID_MANIFEST" true;
  _ ← match jget "resultSchema" spec with
      | None | Some JNull => Ok tt
      | Some result_schema => check_schema result_schema "INVALID_MANIFEST" true
      end;
  profiles ← at_key "llmProfiles" permissions;
  profiles ← or_raise (strings_of profiles);
  _ ← check_profiles profiles;
  Ok m.

Definition validate_manifest (manifest_schema manifest : Json) : Result PlatformError Json :=
  match errors_of manifest_schema manifest with
  | (_ :: _) as errors => Err (invalid "INVALID_MANIFEST" [("errors"%string, JList errors)])
  | [] => m ← or_raise (with_defaults manifest); check_manifest m
  end.

(** ** Configuration *)

Definition has_default (prop : Json) : option Json := jget "default" prop.

Definition fill_default (name : string) (prop : Json) (out : list (string * Json)) : list (string * Json) :=
  match assoc name out, has_default prop with
  | None, Some v => dict_set name v out
  | _, _ => out
  end.

Fixpoint fill_defaults (properties : list (string * Json)) (out : list (string * Json)) : list (string * Json) :=
  match properties with
  | [] => out
  | (name, prop) :: rest => fill_defaults rest (fill_default name prop out)
  end.

Definition apply_config_defaults (schema : Json) (config : list (string * Json))
    : Result PlatformError (list (string * Json)) :=
  match get_dict_or "properties" schema with
  | JObj properties => Ok (fill_defaults properties config)
  | _ => Err UNEXPECTED
  end.

Definition validate_config (manifest : Json) (config : list (string * Json)) (bindings : list (string * string))
    : Result PlatformError (list (string * Json)) :=
  spec ← at_key "spec" manifest;
  schema ← at_key "configurationSchema" spec;
  filled ← apply_config_defaults schema config;
  match errors_of schema (JObj filled) with
  | (_ :: _) as errors => Err (invalid "INVALID_CONFIGURATION" [("errors"%string, JList errors)])
  | [] =>
      let permitted := sorted_set (map snd bindings) in
      let refuse p := Err (invalid "MODEL_PROFILE_NOT_PERMITTED"
                        [("modelProfile", p); ("permitted", JList (map JStr permitted))]%string) in
      match assoc "modelProfile" filled with
      | None | Some JNull => Ok filled
      | Some (JStr p) => if existsb (String.eqb p) (map snd bindings) then Ok filled else refuse (JStr p)
      | Some (JList _) | Some (JObj _) => Err UNEXPECTED
      | Some p => refuse p
      end
  end.
End schemas.

Example profile_families :
  map profile_family ["local.general.quality"; "local.general"; "openai"; "a.b.c.d"]%string
  = ["local.general"; "local.general"; "openai"; "a.b"]%string.
Proof. reflexivity. Qed.

Example digest_of_image :
  image_digest "registry:5000/agents/mail:1@sha256:ab" = Ok "sha256:ab"%string /\
  image_digest "agents/mail" = Err UNEXPECTED.
Proof. done. Qed.

(** ** Model bindings *)

(** What a profile may be bound to under the owner's choices: a family to the chosen (or
    default) known variant of it, anything else to itself. *)
Definition allowed_binding (choices : list (string * string)) (p v : string) : Prop :=
  match assoc p DEFAULT_VARIANTS with
  | Some variant => v = default variant (assoc p choices) /\ profile_family v = p /\ v ∈ KNOWN_VARIANTS
  | None => v = p /\ forall c, assoc p choices = Some c -> c = p
  end.

Lemma existsb_eqb x l : existsb (String.eqb x) l = true <-> x ∈ l.
Proof.
  rewrite existsb_exists. setoid_rewrite <- list_elem_of_In. split.
  - by intros (y & Hy & ->%String.eqb_eq).
  - intros H. exists x. by rewrite String.eqb_refl.
Qed.

Lemma bind_profile_spec choices p :
  match bind_profile choices p with
  | Ok v => allowed_binding choices p v
  | Err e => err_code e = "INVALID_MODEL_BINDING"%string /\ forall v, ~ allowed_binding choices p v
  end.
Proof.
  unfold bind_profile, allowed_binding. destruct (assoc p DEFAULT_VARIANTS) as [variant|].
  - destruct (_ || _) eqn:E.
    + split; [done|]. intros v (-> & Hf & Hk). reflect_all. destruct E as [E|E]; apply negb_true_iff in E.
      * by apply String.eqb_neq in E.
      * unfold is_known_variant in E. by rewrite (proj2 (existsb_eqb _ _) Hk) in E.
    + reflect_all. split_and!; [done|by apply String.eqb_eq|by apply existsb_eqb].
  - destruct (assoc p choices) as [c|]; [|by split].
    destruct (String.eqb_spec c p) as [->|Hne]; [split; [done|by intros ? [= ->]]|].
    split; [done|]. intros v [-> H]. by apply Hne, H.
Qed.

Lemma bind_profiles_spec choices ps acc :
  match bind_profiles choices ps acc with
  | Ok b => (NoDup (map fst acc) -> NoDup (map fst b)) /\
      (forall p, p ∈ map fst b <-> p ∈ map fst acc \/ p ∈ ps) /\
      (forall p v, assoc p b = Some v -> if bool_decide (p ∈ ps) then allowed_binding choices p v else assoc p acc = Some v)
  | Err e => err_code e = "INVALID_MODEL_BINDING"%string /\ exists p, p ∈ ps /\ forall v, ~ allowed_binding choices p v
  end.
Proof.
  revert acc. induction ps as [|p ps IH]; intros acc; simpl.
  { split_and!; try done. intros p. set_solver. }
  pose proof (bind_profile_spec choices p) as Hp. destruct (bind_profile choices p) as [v|e]; simpl.
  - specialize (IH (dict_set p v acc)). destruct (bind_profiles _ _ _) as [b|e].
    + destruct IH as (I1 & I2 & I3). split_and!.
      * intros Hnd. by apply I1, dict_set_nodup.
      * intros q. rewrite I2, dict_set_keys. set_solver.
      * intros q w Hq. specialize (I3 q w Hq). rewrite assoc_dict_set in I3.
        destruct (decide (q ∈ ps)) as [Hin|Hin].
        -- rewrite bool_decide_true in I3 by done. by rewrite bool_decide_true by (by right).
        -- rewrite bool_decide_false in I3 by done. destruct (String.eqb_spec q p) as [->|Hne].
           ++ injection I3 as <-. by rewrite bool_decide_true by (by left).
           ++ rewrite bool_decide_false; [done|]. by intros [?|?]%elem_of_cons.
    + destruct IH as (He & q & Hq & Hn). split; [done|]. exists q. split; [by right|done].
  - destruct Hp as [He Hn]. split; [done|]. exists p. split; [by left|done].
Qed.

Lemma resolve_spec requested choices :
  match resolve_model_bindings requested choices with
  | Ok b => (forall k, k ∈ map fst choices -> k ∈ requested) /\ NoDup (map fst b) /\
      (forall p, p ∈ map fst b <-> p ∈ requested) /\
      (forall p v, assoc p b = Some v -> allowed_binding choices p v)
  | Err e => err_code e = "INVALID_MODEL_BINDING"%string /\
      ((exists k, k ∈ map fst choices /\ k ∉ requested) \/
       exists p, p ∈ requested /\ forall v, ~ allowed_binding choices p v)
  end.
Proof.
  unfold resolve_model_bindings. set (unknown := List.filter _ _).
  assert (Hu : forall k, k ∈ unknown <-> k ∈ map fst choices /\ k ∉ requested).
  { intros k. unfold unknown. rewrite !list_elem_of_In, filter_In, <- !list_elem_of_In, negb_true_iff.
    destruct (existsb (String.eqb k) requested) eqn:E.
    - apply existsb_eqb in E. naive_solver.
    - assert (k ∉ requested) by (intros Hk%existsb_eqb; congruence). naive_solver. }
  destruct unknown as [|k ks].
  - pose proof (bind_profiles_spec choices requested []) as H. destruct (bind_profiles _ _ _) as [b|e].
    + destruct H as (H1 & H2 & H3). split_and!.
      * intros k Hk. destruct (decide (k ∈ requested)); [done|].
        assert (Hin : k ∈ []) by by apply Hu. set_solver.
      * apply H1, NoDup_nil_2.
      * intros p. rewrite H2. set_solver.
      * intros p v Hp. specialize (H3 p v Hp). case_bool_decide; done.
    + destruct H as [He H]. split; [done|by right].
  - split; [done|]. left. exists k. apply Hu. by left.
Qed.

Lemma bind_profiles_elem choices ps acc b :
  bind_profiles choices ps acc = Ok b -> forall p v, p ∈ ps -> assoc p b = Some v -> bind_profile choices p = Ok v.
Proof.
  intros H p v Hp Hv. pose proof (bind_profiles_spec choices ps acc) as S. rewrite H in S.
  destruct S as (_ & _ & S). specialize (S p v Hv). rewrite bool_decide_true in S by done.
  pose proof (bind_profile_spec choices p) as B. destruct (bind_profile choices p) as [w|e].
  - f_equal. revert S B. unfold allowed_binding. destruct (assoc p DEFAULT_VARIANTS); naive_solver.
  - destruct B as [_ B]. by destruct (B v).
Qed.

Lemma bind_profiles_ext choices choices' ps acc :
  (forall p, p ∈ ps -> bind_profile choices p = bind_profile choices' p) ->
  bind_profiles choices ps acc = bind_profiles choices' ps acc.
Proof.
  revert acc. induction ps as [|p ps IH]; intros acc H; simpl; [done|].
  rewrite <- (H p) by by left. destruct (bind_profile choices p); simpl; [|done].
  apply IH. intros q Hq. apply H. by right.
Qed.

Lemma bind_profile_own choices b p v :
  allowed_binding choices p v -> assoc p b = Some v -> bind_profile b p = Ok v.
Proof.
  unfold allowed_binding, bind_profile. intros H Hb. rewrite Hb.
  destruct (assoc p DEFAULT_VARIANTS) as [variant|].
  - change (default variant (Some v)) with v. destruct H as (_ & Hf & Hk%existsb_eqb).
    unfold is_known_variant. by rewrite Hk, Hf, String.eqb_refl.
  - destruct H as [-> _]. by rewrite String.eqb_refl.
Qed.

(** Resolving again with the stored bindings as choices changes nothing. *)
Lemma resolve_stable requested choices b :
  resolve_model_bindings requested choices = Ok b -> resolve_model_bindings requested b = Ok b.
Proof.
  intros H. pose proof (resolve_spec requested choices) as E. rewrite H in E.
  destruct E as (_ & _ & Hkeys & Hok). unfold resolve_model_bindings in *.
  destruct (List.filter _ (map fst choices)) as [|]; [|done].
  destruct (List.filter _ (map fst b)) as [|k ks] eqn:Hf.
  - rewrite <- H. apply bind_profiles_ext. intros p Hp.
    destruct (assoc p b) as [v|] eqn:Hv.
    + rewrite (bind_profiles_elem _ _ _ _ H p v Hp Hv). by eapply bind_profile_own; [apply Hok|].
    + apply assoc_None in Hv. destruct Hv. by apply Hkeys.
  - assert (Hk : k ∈ k :: ks) by by left. rewrite <- Hf, list_elem_of_In, filter_In, <- list_elem_of_In in Hk.
    destruct Hk as [Hk Hn]. apply Hkeys, existsb_eqb in Hk. by rewrite Hk in Hn.
Qed.

(** The model bindings of an installation are exact: resolving succeeds precisely when the
    owner's choices only name requested profiles and every requested profile has an allowed
    binding, it then binds each requested profile and nothing else, a family to the chosen or
    default known variant of that family and an exact profile to itself; otherwise it is
    refused with [INVALID_MODEL_BINDING]. *)
Theorem bindings_exact requested choices :
  match resolve_model_bindings requested choices with
  | Ok b => (forall k, k ∈ map fst choices -> k ∈ requested) /\ NoDup (map fst b) /\
      (forall p, p ∈ map fst b <-> p ∈ requested) /\
      (forall p v, assoc p b = Some v -> allowed_binding choices p v)
  | Err e => err_code e = "INVALID_MODEL_BINDING"%string /\
      ((exists k, k ∈ map fst choices /\ k ∉ requested) \/
       exists p, p ∈ requested /\ forall v, ~ allowed_binding choices p v)
  end.
Proof. apply resolve_spec. Qed.

(** ** Normalised manifests *)

(** Everything [validate_manifest] fills in is there. *)
Definition normal (m : Json) : Prop := exists spec res perms conn,
  jget "spec" m = Some spec /\ is_Some (jget "sdkProtocol" spec) /\
  jget "resources" spec = Some res /\ is_Some (jget "maxInputWaitSeconds" res) /\ is_Some (jget "pids" res) /\
  jget "permissions" spec = Some perms /\ jget "connectors" perms = Some conn /\
  is_Some (jget "google" conn) /\ is_Some (jget "twilio" conn) /\ is_Some (jget "github" conn) /\
  is_Some (jget "startsAgents" perms).

Lemma setdefault_fixed k v d : is_Some (jget k d) -> setdefault k v d = Some d.
Proof. intros [w Hw]. by eapply setdefault_same. Qed.

Lemma normal_fixed m : normal m -> with_defaults m = Some m.
Proof.
  intros (spec & res & perms & conn & Hs & H1 & Hr & H2 & H3 & Hp & Hc & H4 & H5 & H6 & H7).
  apply (alter_key_same _ _ _ _ Hs). rewrite setdefault_fixed by done. simpl.
  rewrite (alter_key_same _ _ _ _ Hr); simpl.
  - apply (alter_key_same _ _ _ _ Hp). rewrite (alter_key_same _ _ _ _ Hc); simpl.
    + by apply setdefault_fixed.
    + rewrite setdefault_fixed by done. simpl. rewrite setdefault_fixed by done. by apply setdefault_fixed.
  - rewrite setdefault_fixed by done. by apply setdefault_fixed.
Qed.

Lemma setdefault_has k v d d' : setdefault k v d = Some d' -> is_Some (jget k d').
Proof. intros H. rewrite (jget_setdefault _ k _ _ _ H), String.eqb_refl. by eexists. Qed.

Lemma setdefault_keeps k j v d d' : setdefault k v d = Some d' -> is_Some (jget j d) -> is_Some (jget j d').
Proof.
  intros H Hj. rewrite (jget_setdefault _ j _ _ _ H). destruct (String.eqb j k); [by eexists|done].
Qed.

Lemma setdefault_other k j v d d' : setdefault k v d = Some d' -> j <> k -> jget j d' = jget j d.
Proof. intros H Hne. rewrite (jget_setdefault _ j _ _ _ H). by destruct (String.eqb_spec j k). Qed.

Lemma alter_key_at k f d d' :
  alter_key k f d = Some d' -> exists v v', jget k d = Some v /\ f v = Some v' /\ jget k d' = Some v'.
Proof.
  intros H. destruct (jget_alter_key _ k _ _ _ H) as (v & v' & Hv & Hf & Hg). rewrite String.eqb_refl in Hg. eauto.
Qed.

Lemma alter_key_other k j f d d' : alter_key k f d = Some d' -> j <> k -> jget j d' = jget j d.
Proof.
  intros H Hne. destruct (jget_alter_key _ j _ _ _ H) as (v & v' & _ & _ & Hg). by destruct (String.eqb_spec j k).
Qed.

Ltac bind_some H x Hx :=
  match type of H with
  | ?m ≫= _ = Some _ => destruct m as [x|] eqn:Hx; simpl in H; [|discriminate H]
  end.

(** What the defaults leave alone, and that the result is normal. *)
Lemma with_defaults_spec m m' :
  with_defaults m = Some m' ->
  normal m' /\ (forall j, j <> "spec"%string -> jget j m' = jget j m) /\
  exists spec spec' perms perms' conn conn',
    jget "spec" m = Some spec /\ jget "spec" m' = Some spec' /\
    (forall j, j ∉ ["sdkProtocol"; "resources"; "permissions"]%string -> jget j spec' = jget j spec) /\
    jget "permissions" spec = Some perms /\ jget "permissions" spec' = Some perms' /\
    jget "connectors" perms = Some conn /\ jget "connectors" perms' = Some conn' /\
    (forall j, j <> "connectors"%string -> jget j perms' =
       if String.eqb j "startsAgents" then Some (default (JList []) (jget j perms)) else jget j perms) /\
    (forall j, jget j conn' =
       if bool_decide (j ∈ ["google"; "twilio"; "github"]%string)
       then Some (default (JList []) (jget j conn)) else jget j conn).
Proof.
  intros H. destruct (alter_key_at _ _ _ _ H) as (spec & spec' & Hs & Hf & Hs').
  split; [|split; [intros j; by apply (alter_key_other _ _ _ _ _ H)|]].
  all: bind_some Hf s1 E1; bind_some Hf s2 E2; destruct (alter_key_at _ _ _ _ E2) as (res & res' & Hr & Fr & Hr').
  all: bind_some Fr r1 F1; destruct (alter_key_at _ _ _ _ Hf) as (perms & perms' & Hp & Fp & Hp').
  all: bind_some Fp p1 G1; destruct (alter_key_at _ _ _ _ G1) as (conn & conn' & Hc & Fc & Hc').
  all: bind_some Fc c1 K1; bind_some Fc c2 K2.
  - exists spec', res', perms', conn'. split_and!.
    + done.
    + rewrite (alter_key_other _ _ _ _ _ Hf), (alter_key_other _ _ _ _ _ E2) by done. by eapply setdefault_has.
    + by rewrite (alter_key_other _ _ _ _ _ Hf).
    + eapply setdefault_keeps; [done|]. by eapply setdefault_has.
    + by eapply setdefault_has.
    + done.
    + by rewrite (setdefault_other _ _ _ _ _ Fp).
    + do 2 (eapply setdefault_keeps; [done|]). by eapply setdefault_has.
    + eapply setdefault_keeps; [done|]. by eapply setdefault_has.
    + by eapply setdefault_has.
    + by eapply setdefault_has.
  - rewrite (alter_key_other _ _ _ _ _ E2), (setdefault_other _ _ _ _ _ E1) in Hp by done.
    exists spec, spec', perms, perms', conn, conn'. split_and!; try done.
    + intros j Hj. rewrite (alter_key_other _ _ _ _ _ Hf), (alter_key_other _ _ _ _ _ E2),
        (setdefault_other _ _ _ _ _ E1) by set_solver. done.
    + by rewrite (setdefault_other _ _ _ _ _ Fp).
    + intros j Hj. rewrite (jget_setdefault _ _ _ _ _ Fp), !(alter_key_other _ _ _ _ _ G1) by done.
      by destruct (String.eqb_spec j "startsAgents") as [->|].
    + intros j. rewrite (jget_setdefault _ _ _ _ _ Fc), !(jget_setdefault _ _ _ _ _ K2), !(jget_setdefault _ _ _ _ _ K1).
      case_bool_decide as Hj.
      * apply elem_of_cons in Hj as [->|Hj]; [done|]. apply elem_of_cons in Hj as [->|Hj]; [done|].
        by apply list_elem_of_singleton in Hj as ->.
      * destruct (String.eqb_spec j "github"), (String.eqb_spec j "twilio"), (String.eqb_spec j "google"); set_solver.
Qed.

Ltac bind_ok H x Hx :=
  match type of H with
  | ?m ≫= _ = Ok _ => destruct m as [x|] eqn:Hx; simpl in H; [|discriminate H]
  end.

Lemma at_key_ok k d v : at_key k d = Ok v -> jget k d = Some v.
Proof. unfold at_key, or_raise. by destruct (jget k d); intros [= ->]. Qed.

Lemma at_key_some k d v : jget k d = Some v -> at_key k d = Ok v.
Proof. unfold at_key. by intros ->. Qed.

Lemma or_raise_ok {A} (o : option A) a : or_raise o = Ok a -> o = Some a.
Proof. by destruct o; intros [= ->]. Qed.

Section validation.
Context {JS : JsonSchema}.

Lemma check_manifest_spec m m' :
  check_manifest m = Ok m' ->
  check_manifest m' = Ok m' /\ (normal m -> normal m') /\
  (forall j, j <> "spec"%string -> jget j m' = jget j m) /\
  exists spec spec' perms,
    jget "spec" m = Some spec /\ jget "spec" m' = Some spec' /\
    (forall j, j <> "configurationSchema"%string -> jget j spec' = jget j spec) /\
    jget "permissions" spec = Some perms /\ is_Some (jget "configurationSchema" spec') /\
    (exists ps, jget "llmProfiles" perms ≫= strings_of = Some ps).
Proof.
  unfold check_manifest at 1. intros H.
  bind_ok H spec Hs. bind_ok H perms Hp. bind_ok H starts Hst. bind_ok H meta Hm. bind_ok H mid Hid.
  bind_ok H itself Hit. bind_ok H u1 Hu1. bind_ok H m2 Hm2. bind_ok H spec' Hs'. bind_ok H cs Hcs.
  bind_ok H u2 Hu2. bind_ok H u3 Hu3. bind_ok H ps Hps. bind_ok H strs Hstrs. bind_ok H u4 Hu4.
  injection H as <-. apply at_key_ok in Hs, Hs', Hp, Hst, Hm, Hid, Hcs, Hps. apply or_raise_ok in Hm2, Hstrs.
  destruct (alter_key_at _ _ _ _ Hm2) as (sp & sp' & E1 & E2 & E3). simplify_eq.
  assert (Hspec : forall j, j <> "configurationSchema"%string -> jget j spec' = jget j spec).
  { intros j. by apply setdefault_other with (v := DEFAULT_CONFIGURATION_SCHEMA). }
  assert (Hm' : forall j, j <> "spec"%string -> jget j m2 = jget j m).
  { intros j. by apply alter_key_other with (1 := Hm2). }
  split_and!; [| |done|].
  - unfold check_manifest. rewrite (at_key_some _ _ _ Hs'). simpl.
    rewrite (at_key_some "permissions" spec' perms) by (by rewrite Hspec). simpl.
    rewrite (at_key_some _ _ _ Hst). simpl. rewrite (at_key_some "metadata" m2 meta) by (by rewrite Hm'). simpl.
    rewrite (at_key_some _ _ _ Hid). simpl. rewrite Hit. simpl. rewrite Hu1. simpl.
    rewrite (alter_key_same _ _ _ _ Hs') by (apply setdefault_fixed; by eexists). simpl.
    rewrite (at_key_some _ _ _ Hs'). simpl. rewrite (at_key_some _ _ _ Hcs). simpl. rewrite Hu2. simpl.
    rewrite Hu3. simpl. rewrite (at_key_some _ _ _ Hps). simpl. rewrite Hstrs. simpl. by rewrite Hu4.
  - intros (sp & res & pm & conn & H1 & H2 & H3 & H4 & H5 & H6 & H7 & H8 & H9 & H10 & H11). simplify_eq.
    exists spec', res, perms, conn. rewrite !Hspec by done. by split_and!.
  - exists spec, spec', perms. rewrite Hps. simpl. split_and!; try done; by eexists.
Qed.

Lemma errors_of_nil schema v : errors_of schema v = [] <-> iter_errors schema v = [].
Proof.
  unfold errors_of. destruct (iter_errors schema v) as [|e l]; simpl; [done|]. split; [|done].
  destruct (foldr insert_error [] l) as [|x xs]; simpl; [done|]. by destruct (path_leb _ _).
Qed.

Lemma validate_manifest_parts schema m m' :
  validate_manifest schema m = Ok m' ->
  iter_errors schema m = [] /\ exists m1, with_defaults m = Some m1 /\ check_manifest m1 = Ok m'.
Proof.
  unfold validate_manifest. destruct (errors_of schema m) as [|e l] eqn:He; [|done].
  apply errors_of_nil in He. intros H. bind_ok H m1 H1. apply or_raise_ok in H1. eauto.
Qed.

Lemma with_defaults_proper m m' : proper_value m -> with_defaults m = Some m' -> proper_value m'.
Proof.
  intros Hm. apply proper_alter_key; [clear m m' Hm|done]. intros spec spec' Hs H. bind_some H s1 E1. bind_some H s2 E2.
  revert H. apply proper_alter_key.
  - intros p p' Hp H. bind_some H p1 F1. revert H. apply proper_setdefault; [by repeat constructor|].
    revert F1. apply proper_alter_key; [|done]. intros c c' Hc H. bind_some H c1 G1. bind_some H c2 G2.
    revert H. apply proper_setdefault; [by repeat constructor|]. revert G2. apply proper_setdefault; [by repeat constructor|].
    revert G1. by apply proper_setdefault; [repeat constructor|].
  - revert E2. apply proper_alter_key.
    + intros r r' Hr H. bind_some H r1 F1. revert H. apply proper_setdefault; [by repeat constructor|].
      revert F1. by apply proper_setdefault; [repeat constructor|].
    + revert E1. by apply proper_setdefault; [repeat constructor|].
Qed.

Lemma check_manifest_proper m m' : proper_value m -> check_manifest m = Ok m' -> proper_value m'.
Proof.
  unfold check_manifest. intros Hm H.
  bind_ok H spec Hs. bind_ok H perms Hp. bind_ok H starts Hst. bind_ok H meta Hmt. bind_ok H mid Hid.
  bind_ok H itself Hit. bind_ok H u1 Hu1. bind_ok H m2 Hm2. bind_ok H spec' Hs'. bind_ok H cs Hcs.
  bind_ok H u2 Hu2. bind_ok H u3 Hu3. bind_ok H ps Hps. bind_ok H strs Hstrs. bind_ok H u4 Hu4.
  injection H as <-. apply or_raise_ok in Hm2. revert Hm2. apply proper_alter_key; [|done].
  intros v v'. apply proper_setdefault. apply proper_obj. split; [apply (bool_decide_unpack _); reflexivity|by repeat constructor].
Qed.

(** Parsed JSON has unique keys, and so has what validation makes of it. *)
Lemma validate_manifest_proper schema m m' :
  proper_value m -> validate_manifest schema m = Ok m' -> proper_value m'.
Proof.
  intros Hm (_ & m1 & Hd & Hc)%validate_manifest_parts.
  eapply check_manifest_proper; [by eapply with_defaults_proper|done].
Qed.

End validation.

(** ** The contract of manifests *)

(** The lists of a permission block hold strings. *)
Definition permissions_shape (p : Json) : Prop :=
  (forall key, key ∈ ["llmProfiles"; "knowledge"; "cloudProviders"; "startsAgents"]%string ->
     is_Some (get_list key p)) /\
  exists o, jget "connectors" p = Some (JObj o) /\
    forall key, key ∈ ["google"; "twilio"; "github"; "sip"]%string -> is_Some (get_list key (JObj o)).

(** [agent-manifest.schema.json], and what it says of permission blocks. *)
Class ManifestContract {JS : JsonSchema} := {
  manifest_schema : Json;
  permissions_checked : forall m spec p,
    iter_errors manifest_schema m = [] -> jget "spec" m = Some spec -> jget "permissions" spec = Some p ->
    permissions_shape p
}.

(** The permissions an accepted manifest requests have the shape of the contract. *)
Lemma requested_shape `{ManifestContract} m m' :
  validate_manifest manifest_schema m = Ok m' ->
  exists spec p, jget "spec" m' = Some spec /\ jget "permissions" spec = Some p /\ permissions_shape p.
Proof.
  intros (He & m1 & Hd & Hc)%validate_manifest_parts.
  destruct (with_defaults_spec _ _ Hd) as (_ & _ & spec1 & spec2 & p1 & p2 & c1 & c2 & E1 & E2 & _ & E4 & E5 & E6 & E7 & E8 & E9).
  destruct (check_manifest_spec _ _ Hc) as (_ & _ & _ & sp & sp' & pm & F1 & F2 & F3 & F4 & _ & _). simplify_eq.
  exists sp', p2. rewrite F3 by done. split_and!; try done.
  destruct (permissions_checked _ _ _ He E1 E4) as [S1 (o & So & S2)]. rewrite E6 in So. simplify_eq. split.
  - intros key Hk. unfold get_list. rewrite E8 by (intros ->; set_solver). specialize (S1 key Hk). unfold get_list in S1.
    destruct (String.eqb key "startsAgents"), (jget key p1); simpl; try done; by eexists.
  - assert (Hg : is_Some (jget "google" c2)).
    { rewrite E9, bool_decide_true by set_solver. by eexists. }
    destruct c2 as [| | | | |o']; try by destruct Hg. exists o'. split; [done|]. intros key Hk. specialize (S2 key Hk). unfold get_list in *. rewrite E9.
    case_bool_decide; [|done]. destruct (jget key (JObj o)); simpl; [done|by eexists].
Qed.

(** ** Configurations *)

Section configuration.
Context {JS : JsonSchema}.

(** No property with a default is missing. *)
Definition filled (properties : list (string * Json)) (o : list (string * Json)) : Prop :=
  forall name prop v, (name, prop) ∈ properties -> has_default prop = Some v -> is_Some (assoc name o).

Lemma fill_defaults_filled ps o : filled ps (fill_defaults ps o) /\ forall k v, assoc k o = Some v -> assoc k (fill_defaults ps o) = Some v.
Proof.
  revert o. induction ps as [|[name prop] ps IH]; intros o; simpl; [split; [|done]; intros ??? ?%not_elem_of_nil; done|].
  destruct (IH (fill_default name prop o)) as [I1 I2].
  assert (Ho : forall k v, assoc k o = Some v -> assoc k (fill_default name prop o) = Some v).
  { intros k v Hk. unfold fill_default. destruct (assoc name o) eqn:Hn, (has_default prop); try done. rewrite assoc_dict_set.
    destruct (String.eqb_spec k name); [congruence|done]. }
  split; [|by auto]. intros n p v [[= -> ->]|Hin]%elem_of_cons Hv; [|by eapply I1].
  destruct (assoc name o) as [w|] eqn:Hn; [exists w; by auto|]. exists v. apply I2. unfold fill_default.
  rewrite Hn, Hv, assoc_dict_set. by rewrite String.eqb_refl.
Qed.

Lemma fill_defaults_fixed ps o : filled ps o -> fill_defaults ps o = o.
Proof.
  revert o. induction ps as [|[name prop] ps IH]; intros o Hf; simpl; [done|].
  replace (fill_default name prop o) with o; [apply IH; intros ????; eapply Hf; by right|].
  unfold fill_default. destruct (assoc name o) eqn:Hn; [done|]. destruct (has_default prop) as [v|] eqn:Hd; [|done].
  destruct (Hf name prop v) as [w Hw]; [by left|done|congruence].
Qed.

(** A configuration that was accepted is complete: it contains what the owner gave, and
    validating it again returns it unchanged. *)
Lemma validate_config_stable m o b o' :
  validate_config m o b = Ok o' ->
  validate_config m o' b = Ok o' /\ forall k v, assoc k o = Some v -> assoc k o' = Some v.
Proof.
  unfold validate_config. intros H. bind_ok H spec Hs. bind_ok H schema Hc. bind_ok H out Ho.
  assert (Hfix : apply_config_defaults schema out = Ok out /\ forall k v, assoc k o = Some v -> assoc k out = Some v).
  { unfold apply_config_defaults in *. destruct (get_dict_or "properties" schema) as [| | | | |ps]; try done.
    injection Ho as <-. destruct (fill_defaults_filled ps o) as [F1 F2]. split; [|done]. by rewrite fill_defaults_fixed. }
  destruct Hfix as [Hfix Hkeep].
  assert (out = o') as ->; [|split; [|done]].
  { destruct (errors_of schema (JObj out)); [|done].
    destruct (assoc "modelProfile" out) as [[]|]; try congruence. by destruct (existsb _ _); [congruence|]. }
  simpl. rewrite Hc. simpl. by rewrite Hfix.
Qed.
End configuration.
