(* ===== verification/Catalog.v ===== *)
(** * The agent catalog ([control_api/catalog.py])

    Importing manifests: catalog entries, immutable versions, and the synchronisation of the
    bundled directory.  The machine the services run on is a parameter
    ([platform.machine()]), as are the files of the directory. *)

From S2P Require Import Prelude Json Redaction PyValue SchemaGuard States Jobs RunModel RunService RunInv RunOps.
From S2P Require Import Platform Capability Cron Scheduler Manifest.
#[local] Open Scope Z_scope.

(** [platform.machine()] *)
Class Machine := machine : string.

Definition ARCH : list (string * string) :=
  [("x86_64", "linux/amd64"); ("amd64", "linux/amd64"); ("aarch64", "linux/arm64"); ("arm64", "linux/arm64")]%string.

Definition str_lower (s : string) : string := unchars (map lower (chars s)).

Section compatibility.
Context {MC : Machine}.

Definition host_architecture : string :=
  default ("linux/" +:+ str_lower machine)%string (assoc (str_lower machine) ARCH).

Definition compatibility_issues (manifest : Json) : Result PlatformError (list string) :=
  spec ← at_key "spec" manifest;
  architectures ← at_key "architectures" spec;
  here ← py_in (JStr host_architecture) architectures;
  Ok ((if here : bool then [] else [("This agent has no " +:+ host_architecture +:+ " image for this device.")%string]) ++
      (if py_eq (default (JStr "v1alpha1") (jget "sdkProtocol" spec)) (JStr "v1alpha1") then []
       else ["This agent needs a newer platform SDK protocol."%string])).
End compatibility.

(** A string column; the schema of manifests makes these strings. *)
Definition as_text (v : Json) : PM string := match v with JStr s => ret s | _ => raise UNEXPECTED end.
Definition text_item (k : string) (v : Json) : PM string := let! x := item k v in as_text x.

(** [select(AgentVersion).where(agent_id ==, version ==)]; the pair is unique. *)
Definition find_version (agent version : string) (d : DB) : option AgentVersion :=
  List.find (fun v => String.eqb agent (ver_agent_id v) && String.eqb version (ver_version v))
    (map snd (map_to_list (db_versions d))).

Section catalog.
Context {JS : JsonSchema} {MF : ManifestContract}.

(** [pg_insert(...).on_conflict_do_update(...)] *)
Definition upsert_entry (id name summary publisher version source trust : string) : PM unit :=
  modify (fun d => d <| db_catalog ::= partial_alter (fun e => Some
    match e with
    | None => mkEntry id name summary publisher version source trust
    | Some e => e <| ent_name := name |> <| ent_summary := summary |> <| ent_publisher := publisher |>
                  <| ent_current_version := version |>
    end) id |>).

Definition upsert_manifest (manifest : Json) (source : string) : PM AgentVersion :=
  let! manifest := lift (validate_manifest manifest_schema manifest) in
  let! meta := item "metadata" manifest in
  let! spec := item "spec" manifest in
  let trust := (if String.eqb source "bundled" then "curated" else "imported_unreviewed")%string in
  let! id := text_item "id" meta in
  let! entry := gets (fun d => db_catalog d !! id) in
  guard (match entry with Some e => String.eqb (ent_source e) source | None => true end)
    (conflict "CATALOG_SOURCE_CONFLICT" [("agentId"%string, JStr id)]) ;;
  let! version := text_item "version" meta in
  let! existing := gets (find_version id version) in
  match existing with
  | Some v =>
      guard (py_eq (ver_manifest v) manifest)
        (conflict "AGENT_VERSION_IMMUTABLE" [("agentId", JStr id); ("version", JStr version)]%string) ;;
      ret v
  | None =>
      let! name := text_item "name" meta in
      let! summary := as_text (default (JStr "") (jget "summary" meta)) in
      let! publisher := as_text (default (JStr "local") (jget "publisher" meta)) in
      upsert_entry id name summary publisher version source trust ;;
      let! image := text_item "image" spec in
      let! digest := lift (image_digest image) in
      let! protocol := text_item "sdkProtocol" spec in
      let! architectures := item "architectures" spec in
      let! architectures := lift (or_raise (strings_of architectures)) in
      let! vid := db_uuid7 in
      let row := mkVersion vid id version manifest image digest protocol architectures in
      modify (fun d => d <| db_versions ::= <[vid := row]> |>) ;;
      ret row
  end.

(** One file of the directory: [load_manifest_file] and the import under a savepoint, which is
    rolled back when a [PlatformError] is raised; other exceptions end the synchronisation. *)
Definition sync_file (file : Result PlatformError Json) : PM (list string) := fun d =>
  match (let! manifest := lift file in upsert_manifest manifest "bundled") d with
  | Ok (v, d') => Ok ([(ver_agent_id v +:+ "@" +:+ ver_version v)%string], d')
  | Err e => if bool_decide (err_code e = err_code UNEXPECTED) then Err e else Ok ([], d)
  end.

Fixpoint sync_directory (files : list (Result PlatformError Json)) : PM (list string) :=
  match files with
  | [] => ret []
  | file :: rest =>
      let! loaded := sync_file file in
      let! more := sync_directory rest in
      ret (loaded ++ more)
  end.

(** ** The catalog over time *)

(** A version row: identified by its id, the columns are those of its validated manifest. *)
Record version_ok (vid : uuid) (v : AgentVersion) : Prop := mkVersionOk {
  vo_id : ver_id v = vid;
  vo_valid : exists raw, validate_manifest manifest_schema raw = Ok (ver_manifest v);
  vo_meta : exists meta, jget "metadata" (ver_manifest v) = Some meta /\
    jget "id" meta = Some (JStr (ver_agent_id v)) /\ jget "version" meta = Some (JStr (ver_version v))
}.

Record catalog_inv (d : DB) : Prop := mkCatalogInv {
  ci_version : forall vid v, db_versions d !! vid = Some v -> version_ok vid v;
  ci_fresh : forall vid v, db_versions d !! vid = Some v -> (vid < db_fresh d)%N;
  ci_unique : forall i j v w, db_versions d !! i = Some v -> db_versions d !! j = Some w ->
    ver_agent_id v = ver_agent_id w -> ver_version v = ver_version w -> i = j;
  ci_listed : forall vid v, db_versions d !! vid = Some v -> is_Some (db_catalog d !! ver_agent_id v);
  ci_entry : forall a e, db_catalog d !! a = Some e -> ent_agent_id e = a /\
    (exists vid v, db_versions d !! vid = Some v /\ ver_agent_id v = a /\ ver_version v = ent_current_version e) /\
    ent_trust_status e = (if String.eqb (ent_source e) "bundled" then "curated" else "imported_unreviewed")%string
}.

(** What a later state has kept of an earlier one. *)
Definition catalog_kept (d d' : DB) : Prop :=
  (forall vid v, db_versions d !! vid = Some v -> db_versions d' !! vid = Some v) /\
  (forall a e, db_catalog d !! a = Some e -> exists e', db_catalog d' !! a = Some e' /\ ent_source e' = ent_source e).

Lemma catalog_kept_refl d : catalog_kept d d.
Proof. split; [done|]. intros a e H. by exists e. Qed.
Lemma catalog_kept_trans d1 d2 d3 : catalog_kept d1 d2 -> catalog_kept d2 d3 -> catalog_kept d1 d3.
Proof.
  intros [A1 A2] [B1 B2]. split; [by auto|]. intros a e H. destruct (A2 _ _ H) as (e' & H' & E).
  destruct (B2 _ _ H') as (e'' & H'' & E'). exists e''. split; [done|congruence].
Qed.

Lemma find_version_some agent version d v :
  find_version agent version d = Some v ->
  ver_agent_id v = agent /\ ver_version v = version /\ exists vid, db_versions d !! vid = Some v.
Proof.
  intros [Hin H]%find_some. apply andb_true_iff in H as [->%String.eqb_eq ->%String.eqb_eq]. split_and!; try done.
  apply in_map_iff in Hin as ([vid w] & <- & Hin). exists vid. by apply elem_of_map_to_list, list_elem_of_In.
Qed.

Lemma find_version_none agent version d vid v :
  find_version agent version d = None -> db_versions d !! vid = Some v ->
  ver_agent_id v = agent -> ver_version v = version -> False.
Proof.
  intros H Hv <- <-. eapply find_none in H; [|apply in_map_iff; exists (vid, v); split; [done|]].
  - by rewrite !String.eqb_refl in H.
  - by apply list_elem_of_In, elem_of_map_to_list.
Qed.

Lemma find_version_exact d vid v :
  catalog_inv d -> db_versions d !! vid = Some v -> find_version (ver_agent_id v) (ver_version v) d = Some v.
Proof.
  intros HI Hv. destruct (find_version _ _ d) as [w|] eqn:E.
  - apply find_version_some in E as (E1 & E2 & wid & Hw). f_equal.
    assert (wid = vid) by by eapply (ci_unique d HI). congruence.
  - by destruct (find_version_none _ _ _ _ _ E Hv).
Qed.

Lemma wp_item_some k v (Q : Json -> DB -> Prop) d : (forall x, jget k v = Some x -> Q x d) -> wp (item k v) Q d.
Proof. intros HQ. unfold item. destruct (jget k v); [by apply wp_ret, HQ|done]. Qed.

Lemma wp_text_item k v (Q : string -> DB -> Prop) d :
  (forall s, jget k v = Some (JStr s) -> Q s d) -> wp (text_item k v) Q d.
Proof.
  intros HQ. unfold text_item. wp_step. apply wp_item_some. intros x Hx. destruct x; try done. by apply wp_ret, HQ.
Qed.
Lemma wp_as_text v (Q : string -> DB -> Prop) d : (forall s, v = JStr s -> Q s d) -> wp (as_text v) Q d.
Proof. intros HQ. destruct v; try done. by apply wp_ret, HQ. Qed.

(** What an import leaves alone. *)
Definition outside_catalog (d d' : DB) : Prop :=
  db_runs d' = db_runs d /\ db_installations d' = db_installations d /\ db_schedules d' = db_schedules d /\
  db_audit d' = db_audit d /\ (db_fresh d <= db_fresh d')%N.

Lemma upsert_inv (d : DB) m source trust id name summary publisher version image digest protocol archs meta :
  catalog_inv d -> (exists raw, validate_manifest manifest_schema raw = Ok m) ->
  jget "metadata" m = Some meta -> jget "id" meta = Some (JStr id) -> jget "version" meta = Some (JStr version) ->
  trust = (if String.eqb source "bundled" then "curated" else "imported_unreviewed")%string ->
  find_version id version d = None ->
  let row := mkVersion (db_fresh d) id version m image digest protocol archs in
  let d' := d <| db_catalog ::= partial_alter (fun e => Some
    match e with
    | None => mkEntry id name summary publisher version source trust
    | Some e => e <| ent_name := name |> <| ent_summary := summary |> <| ent_publisher := publisher |>
                  <| ent_current_version := version |>
    end) id |> <| db_fresh ::= N.succ |> <| db_versions ::= <[db_fresh d := row]> |> in
  catalog_inv d' /\ catalog_kept d d'.
Proof.
  intros [I1 I2 I3 I4 I5] Hraw Hm Hid Hver Htrust Hnone row d'.
  assert (Hnew : db_versions d !! db_fresh d = None).
  { destruct (db_versions d !! db_fresh d) as [v|] eqn:E; [|done]. apply I2 in E. lia. }
  assert (Hkeep : forall vid v, db_versions d !! vid = Some v -> db_versions d' !! vid = Some v).
  { intros vid v Hv. simpl. rewrite lookup_insert_ne; [done|]. intros <-. congruence. }
  assert (Hinv : forall vid v, db_versions d' !! vid = Some v ->
    (vid = db_fresh d /\ v = row) \/ db_versions d !! vid = Some v).
  { intros vid v. simpl. intros [[<- <-]|[_ Hv]]%lookup_insert_Some; [by left|by right]. }
  assert (Hcat : forall a, a <> id -> db_catalog d' !! a = db_catalog d !! a).
  { intros a Ha. simpl. by rewrite lookup_partial_alter_ne. }
  split; [split|split].
  - intros vid v [[-> ->]|Hv]%Hinv; [|by apply I1]. split; [done|done|]. by exists meta.
  - intros vid v [[-> ->]|Hv]%Hinv; simpl; [lia|]. apply I2 in Hv. lia.
  - intros i j v w [[-> ->]|Hv]%Hinv [[-> ->]|Hw]%Hinv Ea Ev; simpl in *.
    + done.
    + by destruct (find_version_none id version d j w).
    + by destruct (find_version_none id version d i v).
    + by eapply I3.
  - intros vid v [[-> ->]|Hv]%Hinv; simpl.
    + rewrite lookup_partial_alter_eq. by eexists.
    + apply I4 in Hv as [e He]. destruct (decide (ver_agent_id v = id)) as [->|Hne].
      * rewrite lookup_partial_alter_eq. by eexists.
      * rewrite lookup_partial_alter_ne by done. by exists e.
  - intros a e. destruct (decide (a = id)) as [->|Hne].
    + simpl. rewrite lookup_partial_alter_eq. intros [= <-].
      assert (Hrow : exists vid v, db_versions d' !! vid = Some v /\ ver_agent_id v = id /\ ver_version v = version).
      { exists (db_fresh d), row. simpl. by rewrite lookup_insert_eq. }
      destruct (db_catalog d !! id) as [e|] eqn:He; [|by split_and!]. destruct (I5 _ _ He) as (E1 & _ & E3). by split_and!.
    + rewrite Hcat by done. intros He. destruct (I5 _ _ He) as (E1 & (vid & v & Hv & E2) & E3). split_and!; try done.
      exists vid, v. split; [by apply Hkeep|done].
  - done.
  - intros a e He. destruct (decide (a = id)) as [->|Hne].
    + simpl. rewrite lookup_partial_alter_eq, He. by eexists.
    + exists e. by rewrite Hcat.
Qed.

Lemma upsert_manifest_spec manifest source d :
  catalog_inv d ->
  wp (upsert_manifest manifest source) (fun v d' =>
    catalog_inv d' /\ catalog_kept d d' /\ outside_catalog d d' /\ db_versions d' !! ver_id v = Some v /\
    (exists e, db_catalog d' !! ver_agent_id v = Some e /\ ent_source e = source) /\
    exists m, validate_manifest manifest_schema manifest = Ok m /\ is_Some (jget "spec" m) /\
      (exists meta, jget "metadata" m = Some meta /\ jget "id" meta = Some (JStr (ver_agent_id v)) /\
         jget "version" meta = Some (JStr (ver_version v))) /\
      ((ver_manifest v = m /\ db_versions d !! ver_id v = None) \/ (py_eq (ver_manifest v) m = true /\ d' = d))) d.
Proof.
  intros HI. unfold upsert_manifest. wp_step. apply wp_lift; intros m Hm. wp_step. apply wp_item_some; intros meta Hmeta.
  wp_step. apply wp_item_some; intros spec Hspec. cbv zeta. wp_step. apply wp_text_item; intros id Hid. wp_step. apply wp_gets.
  wp_step. apply wp_guard; intros Hsrc. wp_step. apply wp_text_item; intros version Hver. wp_step. apply wp_gets.
  destruct (find_version id version d) as [v|] eqn:Hf.
  - wp_step. apply wp_guard; intros Heq. apply wp_ret.
    apply find_version_some in Hf as (<- & <- & vid & Hv). pose proof (vo_id _ _ (ci_version _ HI _ _ Hv)) as Hvid.
    split_and!; [done|apply catalog_kept_refl|by split_and!|by rewrite Hvid| |].
    + destruct (ci_listed _ HI _ _ Hv) as [e He]. rewrite He in Hsrc. exists e. split; [done|by apply String.eqb_eq].
    + exists m. split_and!; [done|by eexists|by exists meta|by right].
  - wp_step. apply wp_text_item; intros name _. wp_step. apply wp_as_text; intros summary _.
    wp_step. apply wp_as_text; intros publisher _. wp_step. unfold upsert_entry. apply wp_modify.
    wp_step. apply wp_text_item; intros image _. wp_step. apply wp_lift; intros digest _.
    wp_step. apply wp_text_item; intros protocol _. wp_step. apply wp_item_some; intros archs _.
    wp_step. apply wp_lift; intros archs' _. wp_step. apply wp_db_uuid7. wp_step. apply wp_modify. apply wp_ret.
    destruct (upsert_inv d m source _ id name summary publisher version image digest protocol archs' meta
      HI (ex_intro _ manifest Hm) Hmeta Hid Hver eq_refl Hf) as [HI' HK].
    split_and!; [exact HI'|exact HK| | | |].
    + split_and!; try done. simpl. lia.
    + simpl. by rewrite lookup_insert_eq.
    + simpl. rewrite lookup_partial_alter_eq. destruct (db_catalog d !! id) as [e|]; [|by eexists].
      eexists. split; [done|]. by apply String.eqb_eq.
    + exists m. split_and!; [done|by eexists|by exists meta|]. left. split; [done|]. simpl.
      destruct (db_versions d !! db_fresh d) as [w|] eqn:Hw; [|done]. apply (ci_fresh d HI) in Hw. lia.
Qed.

Lemma catalog_inv_same d d' :
  db_versions d' = db_versions d -> db_catalog d' = db_catalog d -> (db_fresh d <= db_fresh d')%N ->
  catalog_inv d -> catalog_inv d'.
Proof.
  intros Ev Ec Hf [I1 I2 I3 I4 I5]. split; rewrite ?Ev, ?Ec; try done.
  intros vid v Hv. apply I2 in Hv. lia.
Qed.

Lemma catalog_kept_same d d' : db_versions d' = db_versions d -> db_catalog d' = db_catalog d -> catalog_kept d d'.
Proof. intros Ev Ec. unfold catalog_kept. rewrite Ev, Ec. apply catalog_kept_refl. Qed.

Lemma sync_spec files d :
  catalog_inv d -> wp (sync_directory files) (fun _ d' => catalog_inv d' /\ catalog_kept d d' /\ outside_catalog d d') d.
Proof.
  revert d. induction files as [|file files IH]; intros d HI; simpl.
  { apply wp_ret. split_and!; [done|apply catalog_kept_refl|by split_and!]. }
  wp_step. apply (wp_mono _ (fun _ d' => catalog_inv d' /\ catalog_kept d d' /\ outside_catalog d d')).
  - unfold sync_file. destruct file as [m|e]; simpl.
    + pose proof (upsert_manifest_spec m "bundled" d HI) as H. unfold wp, bind in *. simpl.
      destruct (upsert_manifest m "bundled" d) as [[v d']|e]; [naive_solver|].
      case_bool_decide; [done|]. split_and!; [done|apply catalog_kept_refl|by split_and!].
    + unfold wp, bind. simpl. case_bool_decide; [done|]. split_and!; [done|apply catalog_kept_refl|by split_and!].
  - intros loaded d1 (HI1 & HK1 & (O1 & O2 & O3 & O4 & O5)). wp_step. eapply wp_mono; [by apply IH|].
    intros more d2 (HI2 & HK2 & (P1 & P2 & P3 & P4 & P5)). apply wp_ret. split_and!; [done|by eapply catalog_kept_trans|].
    split_and!; (congruence || lia).
Qed.

(** Imports by the owner, synchronisations of the directory, and everything else. *)
Inductive catalog_step : DB -> DB -> Prop :=
| cs_import d manifest source v d' : upsert_manifest manifest source d = Ok (v, d') -> catalog_step d d'
| cs_sync d files loaded d' : sync_directory files d = Ok (loaded, d') -> catalog_step d d'
| cs_other d d' : db_versions d' = db_versions d -> db_catalog d' = db_catalog d ->
    (db_fresh d <= db_fresh d')%N -> catalog_step d d'.

Lemma catalog_step_ok d d' : catalog_step d d' -> catalog_inv d -> catalog_inv d' /\ catalog_kept d d'.
Proof.
  intros Hs HI. destruct Hs as [d m source v d' H|d files loaded d' H|d d' Ev Ec Hf].
  - destruct (wp_run _ _ _ _ _ (upsert_manifest_spec m source d HI) H) as (? & ? & _). done.
  - destruct (wp_run _ _ _ _ _ (sync_spec files d HI) H) as (? & ? & _). done.
  - split; [by eapply catalog_inv_same|by apply catalog_kept_same].
Qed.

Lemma catalog_steps_ok d d' : rtc catalog_step d d' -> catalog_inv d -> catalog_inv d' /\ catalog_kept d d'.
Proof.
  intros Hr. induction Hr as [d|d1 d2 d3 Hs Hr IH]; intros HI; [split; [done|apply catalog_kept_refl]|].
  destruct (catalog_step_ok _ _ Hs HI) as [HI2 HK2]. destruct (IH HI2) as [HI3 HK3].
  split; [done|by eapply catalog_kept_trans].
Qed.

Lemma catalog_inv_empty d : db_versions d = ∅ -> db_catalog d = ∅ -> catalog_inv d.
Proof. intros Ev Ec. by split; rewrite ?Ev, ?Ec; intros; rewrite lookup_empty in *. Qed.

(** The catalog is durable and consistent over any history of imports and synchronisations:
    a version, once published, is never changed or removed; no two rows share an agent and a
    version; a version's manifest was validated and carries the identity of the row; every
    entry's current version exists, its trust follows from its source, and an entry never
    changes its source (an import cannot take over a bundled agent, nor the reverse). *)
Theorem catalog_durable d0 d d' :
  db_versions d0 = ∅ -> db_catalog d0 = ∅ -> rtc catalog_step d0 d -> rtc catalog_step d d' ->
  catalog_inv d /\ catalog_kept d d'.
Proof.
  intros Ev Ec Hr Hr'. destruct (catalog_steps_ok _ _ Hr) as [HI _]; [by apply catalog_inv_empty|].
  split; [done|]. by apply catalog_steps_ok.
Qed.

(** Importing is idempotent: once an import of a manifest has committed, importing it again
    from the same source, after any further imports and synchronisations, answers with the
    same version and changes nothing. *)
Theorem reimport_unchanged d0 d manifest source v d1 d2 :
  db_versions d0 = ∅ -> db_catalog d0 = ∅ -> rtc catalog_step d0 d -> proper_value manifest ->
  upsert_manifest manifest source d = Ok (v, d1) -> rtc catalog_step d1 d2 ->
  upsert_manifest manifest source d2 = Ok (v, d2).
Proof.
  intros Ev Ec H0 Hp Hu Hr. destruct (catalog_steps_ok _ _ H0) as [HI _]; [by apply catalog_inv_empty|].
  destruct (wp_run _ _ _ _ _ (upsert_manifest_spec manifest source d HI) Hu)
    as (HI1 & HK1 & _ & Hv & (e & He & Hsrc) & m & Hm & [spec Hspec] & (meta & M1 & M2 & M3) & Hcase).
  destruct (catalog_steps_ok _ _ Hr HI1) as [HI2 [K1 K2]]. apply K1 in Hv. destruct (K2 _ _ He) as (e2 & He2 & Hsrc2).
  assert (Heq : py_eq (ver_manifest v) m = true).
  { destruct Hcase as [[<- _]|[Heq _]]; [|done]. eapply py_eq_refl, validate_manifest_proper; [exact Hp|exact Hm]. }
  unfold upsert_manifest, lift, bind, text_item, item, as_text, gets, guard, ret. rewrite Hm, M1, Hspec.
  unfold bind. rewrite M2, He2, Hsrc2, Hsrc, String.eqb_refl, M3, (find_version_exact _ _ _ HI2 Hv). by rewrite Heq.
Qed.
End catalog.
