(* ===== verification/Readiness.v ===== *)
(** * Whether an installation can run ([views.readiness])

    The checks behind the "ready" badge, which also guard manual runs and runs started by
    agents.  The model gateway and the connection service are parameters: what they answer
    while the checks are made.  The texts of the checks are left out. *)

From S2P Require Import Prelude Json Redaction PyValue SchemaGuard States Jobs RunModel RunService RunInv RunOps.
From S2P Require Import Platform Capability Worker Reconciler World SystemProps Chaining Manifest Catalog.
#[local] Open Scope Z_scope.

Inductive CheckStatus := status_ok | status_missing | status_needs_attention.

#[export] Instance CheckStatus_eq_dec : EqDecision CheckStatus.
Proof. solve_decision. Defined.

Record ReadinessCheck := mkCheck {
  rc_name : string;
  rc_status : CheckStatus;
  rc_resource : option string
}.

Record Connection := mkConnection {
  con_provider : string;
  con_status : string;
  con_granted : list string
}.

(** [connections.list_connections()] and [models.get_model(variant)]. *)
Class StatusClients := {
  list_connections : list Connection;
  get_model : string -> option Json
}.

Section readiness.
Context {JS : JsonSchema} {MC : Machine} {SC : StatusClients}.

(** The inner function [add]. *)
Definition check_row (name : string) (ok : bool) (resource : option string) (missing : bool) : ReadinessCheck :=
  mkCheck name (if ok then status_ok else if missing then status_missing else status_needs_attention) resource.

(** [status_by_provider.get(provider)]: the last connection listed for the provider. *)
Definition connection_of (provider : string) : option Connection :=
  List.find (fun c => String.eqb (con_provider c) provider) (rev list_connections).

(** [required.setdefault(provider, []).append(scope)] *)
Definition require_scope (provider scope : string) (required : list (string * list string)) : list (string * list string) :=
  dict_set provider (default [] (assoc provider required) ++ [scope]) required.

Definition require_all (pairs : list (string * string)) : list (string * list string) :=
  fold_left (fun required p => require_scope p.1 p.2 required) pairs [].

(** The scopes the permissions ask of each provider, in the order of the loops. *)
Definition required_scopes (perms : Json) : Result PlatformError (list (string * string)) :=
  connectors ← at_key "connectors" perms;
  google ← or_raise (get_list "google" connectors);
  twilio ← or_raise (get_list "twilio" connectors);
  github ← or_raise (get_list "github" connectors);
  cloud ← or_raise (get_list "cloudProviders" perms);
  Ok (map (pair "google"%string) google ++ map (pair "twilio"%string) twilio ++ map (pair "github"%string) github ++
      map (fun p => (p, "cloud." +:+ p)%string) cloud).

Definition connection_check (provider : string) (scopes : list string) : ReadinessCheck :=
  let conn := connection_of provider in
  let connected := match conn with Some c => String.eqb (con_status c) "CONNECTED" | None => false end in
  let granted := match conn with Some c => con_granted c | None => [] end in
  let missing_scopes := List.filter (fun s => negb (existsb (String.eqb s) granted)) scopes in
  if match conn with Some c => String.eqb (con_status c) "UNKNOWN" | None => false end
  then check_row "connection" false (Some provider) false
  else if negb connected then check_row "connection" false (Some provider) true
  else match missing_scopes with
       | _ :: _ => check_row "connection" false (Some provider) false
       | [] => check_row "connection" true (Some provider) false
       end.

Definition model_installed (variant : string) : bool :=
  match get_model variant with
  | Some model => match jget "downloadState" model with Some (JStr s) => String.eqb s "INSTALLED" | _ => false end
  | None => false
  end.

Definition model_checks (bindings : list (string * string)) : list ReadinessCheck :=
  map (fun v => check_row "model" (model_installed v) (Some v) true)
    (List.filter (startswith "local.") (sorted_set (map snd bindings))).

(** The columns of an installation as dictionaries. *)
Definition config_items (i : AgentInstallation) : Result PlatformError (list (string * Json)) :=
  match ins_config i with JObj o => Ok o | _ => Err UNEXPECTED end.

Definition string_entry (kv : string * Json) : option (string * string) := pair kv.1 <$> json_string kv.2.
Definition binding_items (i : AgentInstallation) : Result PlatformError (list (string * string)) :=
  match ins_model_bindings i with JObj o => or_raise (mapM string_entry o) | _ => Err UNEXPECTED end.

(** A [PlatformError] of [validate_config] is a failed check, any other exception is raised. *)
Definition configuration_check (manifest : Json) (config : list (string * Json)) (bindings : list (string * string))
    : Result PlatformError ReadinessCheck :=
  match validate_config manifest config bindings with
  | Ok _ => Ok (check_row "configuration" true None false)
  | Err e => if bool_decide (err_code e = err_code UNEXPECTED) then Err e
             else Ok (check_row "configuration" false None true)
  end.

Definition readiness (i : AgentInstallation) (v : AgentVersion) : Result PlatformError (list ReadinessCheck) :=
  spec ← at_key "spec" (ver_manifest v);
  perms ← at_key "permissions" spec;
  issues ← compatibility_issues (ver_manifest v);
  config ← config_items i;
  bindings ← binding_items i;
  configuration ← configuration_check (ver_manifest v) config bindings;
  pairs ← required_scopes perms;
  Ok ([check_row "enabled" (ins_enabled i) None false;
       check_row "permissions" (negb (ins_needs_reapproval i)) None false;
       check_row "architecture" (match issues with [] => true | _ => false end) None false;
       configuration] ++
      map (fun ps => connection_check ps.1 ps.2) (require_all pairs) ++
      model_checks bindings).

(** [Readiness.ready] *)
Definition is_ready (checks : list ReadinessCheck) : bool :=
  forallb (fun c => bool_decide (rc_status c = status_ok)) checks.

(** The failing checks as the error of a refused run lists them. *)
Definition status_str (s : CheckStatus) : string :=
  match s with status_ok => "ok" | status_missing => "missing" | status_needs_attention => "needs_attention" end.

Definition check_json (c : ReadinessCheck) : Json :=
  JObj [("name", JStr (rc_name c)); ("status", JStr (status_str (rc_status c)));
        ("resource", match rc_resource c with Some r => JStr r | None => JNull end)]%string.

Definition failing (checks : list ReadinessCheck) : list Json :=
  map check_json (List.filter (fun c => negb (bool_decide (rc_status c = status_ok))) checks).

(** ** What ready means *)

(** The provider is connected and has granted the scope. *)
Definition scope_granted (provider scope : string) : Prop :=
  exists c, connection_of provider = Some c /\ con_status c = "CONNECTED"%string /\ scope ∈ con_granted c.

(** Nothing stands in the way of a run of version [v] as installation [i]. *)
Definition can_run (i : AgentInstallation) (v : AgentVersion) : Prop :=
  ins_enabled i = true /\ ins_needs_reapproval i = false /\ compatibility_issues (ver_manifest v) = Ok [] /\
  (exists config bindings pairs, config_items i = Ok config /\ binding_items i = Ok bindings /\
    (exists filled, validate_config (ver_manifest v) config bindings = Ok filled) /\
    (exists spec perms, jget "spec" (ver_manifest v) = Some spec /\ jget "permissions" spec = Some perms /\
       required_scopes perms = Ok pairs) /\
    (forall provider scope, (provider, scope) ∈ pairs -> scope_granted provider scope) /\
    (forall profile variant, (profile, variant) ∈ bindings -> startswith "local." variant = true ->
       model_installed variant = true)).

Lemma check_row_ok name ok r missing : rc_status (check_row name ok r missing) = status_ok <-> ok = true.
Proof. by destruct ok, missing. Qed.

Lemma assoc_require p q s req :
  assoc q (require_scope p s req) = if String.eqb q p then Some (default [] (assoc p req) ++ [s]) else assoc q req.
Proof. apply assoc_dict_set. Qed.

(** The dictionary of requirements has exactly the pairs, under unique keys. *)
Lemma require_all_spec pairs :
  NoDup (map fst (require_all pairs)) /\
  forall p s, (p, s) ∈ pairs <-> exists ss, (p, ss) ∈ require_all pairs /\ s ∈ ss.
Proof.
  unfold require_all. enough (H : forall acc, NoDup (map fst acc) ->
    let r := fold_left (fun required p => require_scope p.1 p.2 required) pairs acc in
    NoDup (map fst r) /\ forall p s, (exists ss, assoc p r = Some ss /\ s ∈ ss) <->
      (p, s) ∈ pairs \/ exists ss, assoc p acc = Some ss /\ s ∈ ss).
  { destruct (H []) as [H1 H2]; [apply NoDup_nil_2|]. split; [done|]. intros p s.
    transitivity (exists ss, assoc p (fold_left (fun required p => require_scope p.1 p.2 required) pairs []) = Some ss /\ s ∈ ss).
    - rewrite H2. simpl. naive_solver.
    - split; intros (ss & Hss & Hs); exists ss; (split; [|done]); [by apply assoc_elem|by apply assoc_unique]. }
  induction pairs as [|[p s] pairs IH]; intros acc Hnd; cbn [fold_left]; [split; [done|]; intros q t; rewrite elem_of_nil; naive_solver|].
  destruct (IH (require_scope p s acc)) as [I1 I2]; [by apply dict_set_nodup|]. split; [done|]. intros q t.
  rewrite I2, assoc_require, elem_of_cons. cbn [fst snd].
  destruct (String.eqb_spec q p) as [->|Hne]; [|naive_solver].
  destruct (assoc p acc) as [ss|]; simpl; split.
  - intros [H|(ss' & [= <-] & [Ht| ->%list_elem_of_singleton]%elem_of_app)]; eauto.
  - intros [[[= ->]|H]|(ss' & [= <-] & Ht)]; eauto; right; (eexists; split; [done|]); apply elem_of_app; [right; by left|by left].
  - intros [H|(ss' & [= <-] & ->%list_elem_of_singleton)]; eauto.
  - intros [[[= ->]|H]|(ss' & [=] & Ht)]; eauto. right. eexists. split; [done|]. by left.
Qed.

Lemma connection_check_ok provider scopes :
  scopes <> [] ->
  rc_status (connection_check provider scopes) = status_ok <-> forall s, s ∈ scopes -> scope_granted provider s.
Proof.
  intros Hne. unfold connection_check, scope_granted. destruct (connection_of provider) as [c|]; simpl.
  - destruct (String.eqb_spec (con_status c) "UNKNOWN") as [E|E].
    { split; [done|]. intros H. destruct scopes as [|s ss]; [done|]. destruct (H s) as (c' & [= <-] & E' & _); [by left|congruence]. }
    destruct (String.eqb_spec (con_status c) "CONNECTED") as [E'|E']; simpl.
    + destruct (List.filter _ scopes) as [|s ss] eqn:Hf.
      * split; [|done]. intros _ s Hs. exists c. split_and!; try done. apply existsb_eqb.
        destruct (existsb _ _) eqn:Hx; [done|]. assert (Hin : s ∈ List.filter (fun s => negb (existsb (String.eqb s) (con_granted c))) scopes).
        { apply list_elem_of_In, filter_In. split; [by apply list_elem_of_In|by rewrite Hx]. }
        rewrite Hf in Hin. set_solver.
      * split; [done|]. intros H. assert (Hin : s ∈ s :: ss) by by left. rewrite <- Hf, list_elem_of_In, filter_In in Hin.
        destruct Hin as [Hs Hn]. apply list_elem_of_In, H in Hs as (c' & [= <-] & _ & Hg%existsb_eqb). by rewrite Hg in Hn.
    + split; [done|]. intros H. destruct scopes as [|s ss]; [done|]. destruct (H s) as (c' & [= <-] & E'' & _); [by left|congruence].
  - split; [done|]. intros H. destruct scopes as [|s ss]; [done|]. destruct (H s) as (c' & ? & _); [by left|done].
Qed.

Lemma require_all_nonempty pairs p ss : (p, ss) ∈ require_all pairs -> ss <> [].
Proof.
  destruct (require_all_spec pairs) as [Hnd _]. intros Hin%assoc_unique; [|done]. clear Hnd. revert p ss Hin.
  unfold require_all. enough (H : forall acc, (forall p ss, assoc p acc = Some ss -> ss <> []) ->
    forall p ss, assoc p (fold_left (fun required p => require_scope p.1 p.2 required) pairs acc) = Some ss -> ss <> []).
  { by apply (H []). }
  induction pairs as [|[q s] pairs IH]; intros acc Hacc; cbn [fold_left]; [done|]. apply IH. intros p ss.
  rewrite assoc_require. cbn [fst snd]. destruct (String.eqb p q); [|by apply Hacc]. intros [= <-] H%app_nil. by destruct H.
Qed.

Lemma is_ready_spec checks : is_ready checks = true <-> Forall (fun c => rc_status c = status_ok) checks.
Proof.
  unfold is_ready. rewrite forallb_forall, Forall_forall. setoid_rewrite bool_decide_eq_true.
  by setoid_rewrite list_elem_of_In.
Qed.

Lemma connections_ok pairs :
  Forall (fun c => rc_status c = status_ok) (map (fun ps => connection_check ps.1 ps.2) (require_all pairs)) <->
  forall provider scope, (provider, scope) ∈ pairs -> scope_granted provider scope.
Proof.
  rewrite Forall_map, Forall_forall. destruct (require_all_spec pairs) as [Hnd Hp]. split.
  - intros H p s (ss & Hin & Hs)%Hp. specialize (H (p, ss) Hin). simpl in H. eapply connection_check_ok; [|exact H|done].
    by eapply require_all_nonempty.
  - intros H [p ss] Hin. simpl. apply connection_check_ok; [by eapply require_all_nonempty|].
    intros s Hs. apply H, Hp. by exists ss.
Qed.

Lemma models_ok bindings :
  Forall (fun c => rc_status c = status_ok) (model_checks bindings) <->
  forall profile variant, (profile, variant) ∈ bindings -> startswith "local." variant = true ->
    model_installed variant = true.
Proof.
  unfold model_checks. rewrite Forall_map, Forall_forall. setoid_rewrite list_elem_of_In. setoid_rewrite filter_In.
  setoid_rewrite <- list_elem_of_In. setoid_rewrite sorted_set_elem. setoid_rewrite check_row_ok. split.
  - intros H p v Hin Hl. apply H. split; [|done]. apply list_elem_of_fmap. by exists (p, v).
  - intros H v [Hin Hl]. apply list_elem_of_fmap in Hin as ([p w] & -> & Hin). by eapply H.
Qed.

Lemma configuration_ok m config bindings c :
  configuration_check m config bindings = Ok c ->
  rc_status c = status_ok <-> exists filled, validate_config m config bindings = Ok filled.
Proof.
  unfold configuration_check. destruct (validate_config m config bindings) as [f|e].
  - intros [= <-]. split; [by eexists|done].
  - case_bool_decide; [done|]. intros [= <-]. split; [done|by intros []].
Qed.

Lemma readiness_spec i v :
  (exists checks, readiness i v = Ok checks /\ is_ready checks = true) <-> can_run i v.
Proof.
  unfold readiness, can_run. split.
  - intros (checks & H & Hready). bind_ok H spec Hs. bind_ok H perms Hp. bind_ok H issues Hi. bind_ok H config Hc.
    bind_ok H bindings Hb. bind_ok H conf Hconf. bind_ok H pairs Hpairs. apply at_key_ok in Hs, Hp.
    injection H as <-. apply is_ready_spec in Hready.
    repeat (apply Forall_cons in Hready as [?Hr Hready]). apply Forall_app in Hready as [Hcon Hmod].
    apply check_row_ok in Hr, Hr0, Hr1. destruct issues; [|done]. split_and!; [done|by apply negb_true_iff|done|].
    exists config, bindings, pairs. split_and!; try done.
    + by apply (configuration_ok _ _ _ _ Hconf).
    + by exists spec, perms.
    + by apply connections_ok.
    + by apply models_ok.
  - intros (He & Hn & Hi & config & bindings & pairs & Hc & Hb & (filled & Hf) & (spec & perms & Hs & Hp & Hpairs) & Hcon & Hmod).
    rewrite (at_key_some _ _ _ Hs). simpl. rewrite (at_key_some _ _ _ Hp). simpl. rewrite Hi. simpl. rewrite Hc. simpl.
    rewrite Hb. simpl. unfold configuration_check. rewrite Hf. simpl. rewrite Hpairs. simpl. eexists. split; [done|].
    apply is_ready_spec. rewrite He, Hn. repeat constructor. apply Forall_app. split; [by apply connections_ok|by apply models_ok].
Qed.

(** The readiness checks decide exactly whether the agent can run: all of them pass if and
    only if the installation is enabled, its permissions are approved, the version supports
    this device, the configuration is valid, every requested scope of a Google, Twilio, GitHub
    or cloud connection is granted by a connected account, and every local model the
    installation is bound to is installed. *)
Theorem readiness_exact i v :
  (exists checks, readiness i v = Ok checks /\ is_ready checks = true) <-> can_run i v.
Proof. apply readiness_spec. Qed.

(** The failing checks that guard a run are those of [readiness]. *)
Lemma failing_nil checks : failing checks = [] <-> is_ready checks = true.
Proof.
  unfold failing, is_ready. induction checks as [|c cs IH]; simpl; [done|].
  destruct (bool_decide _); simpl; [exact IH|done].
Qed.
End readiness.
