(* ===== verification/Installations.v ===== *)
(** * Installing agents ([control_api/routers/agents.py])

    The owner installs an agent by approving exactly the permissions its version requests,
    moves an installation between versions, approves again when the requested permissions
    differ, and uninstalls it.  The routes are effects inside the idempotent requests of
    [Idempotency].  [start_manual_run] is the route of [routers/runs.py] that runs an
    installation. *)

From S2P Require Import Prelude TimeUtil Json Redaction PyValue JsonText SchemaGuard States Jobs RunModel RunService RunInv.
From S2P Require Import RunOps Platform Capability Worker Reconciler World SystemProps Cron Scheduler Chaining.
From S2P Require Import Idempotency Pagination Manifest Catalog Readiness.
#[local] Open Scope Z_scope.

Record InstallationCreateIn := mkInstallationCreate {
  ic_agent_id : string;
  ic_version : option string;
  ic_config : list (string * Json);
  ic_approved_permissions : list (string * Json);
  ic_model_bindings : list (string * string);
  ic_enabled : bool
}.

Record InstallationPatchIn := mkInstallationPatch {
  ip_version : Z;
  ip_agent_version : option string;
  ip_config : option (list (string * Json));
  ip_approved_permissions : option (list (string * Json));
  ip_model_bindings : option (list (string * string));
  ip_enabled : option bool
}.

(** ** Comparing permissions *)

(** [sorted(d.get(key) or [])] *)
Definition sorted_or (key : string) (d : Json) : Result PlatformError (list Json) :=
  match jget key d with
  | Some v => if truthy v then or_raise (py_iter v ≫= py_sort) else Ok []
  | None => Ok []
  end.

(** [x.get] on a value that is no dict is an [AttributeError]. *)
Definition as_dict (v : Json) : Result PlatformError Json := or_raise (is_dict v).

Definition normalize_permissions (perms : Json) : Result PlatformError Json :=
  connectors ← as_dict (get_dict_or "connectors" perms);
  profiles ← sorted_or "llmProfiles" perms;
  knowledge ← sorted_or "knowledge" perms;
  google ← sorted_or "google" connectors;
  twilio ← sorted_or "twilio" connectors;
  github ← sorted_or "github" connectors;
  cloud ← sorted_or "cloudProviders" perms;
  starts ← sorted_or "startsAgents" perms;
  Ok (JObj [("llmProfiles", JList profiles); ("knowledge", JList knowledge);
            ("connectors", JObj [("google", JList google); ("twilio", JList twilio); ("github", JList github)]);
            ("cloudProviders", JList cloud); ("startsAgents", JList starts);
            ("userInput", JBool (otruthy (jget "userInput" perms)))]%string).

Definition permissions_match (approved requested : Json) : Result PlatformError bool :=
  a ← normalize_permissions approved;
  r ← normalize_permissions requested;
  Ok (py_eq a r).

(** ** The routes *)

Definition owner_audit (user : uuid) (action target_type : string) (target : uuid) (metadata : Json) : PM unit :=
  modify (fun d => d <| db_audit ::= fun l => l ++
    [mkAudit "user" (Some (uuid_str user)) action (Some target_type) (Some (uuid_str target)) "success"
       (redact metadata)] |>).

Section routes.
Context {clk : Clock} {JS : JsonSchema} {MF : ManifestContract} {MC : Machine} {SC : StatusClients}.

Definition import_agent (user : uuid) (manifest : Json) : PM AgentVersion :=
  let! version := upsert_manifest manifest "imported" in
  owner_audit user "catalog.import" "agent_version" (ver_id version)
    (JObj [("agentId", JStr (ver_agent_id version)); ("version", JStr (ver_version version));
           ("digest", JStr (ver_image_digest version))]%string) ;;
  let! entry := gets (fun d => db_catalog d !! ver_agent_id version) in
  match entry with Some _ => ret version | None => raise UNEXPECTED end.

(** [_load_installation]; the row is locked, transactions on it are serialised. *)
Definition load_installation (iid user : uuid) : PM AgentInstallation :=
  let! d := get in
  match db_installations d !! iid with
  | Some i => if (ins_user_id i =? user)%N && negb (bool_decide (is_Some (ins_deleted_at i))) then ret i
              else raise (not_found (uuid_str iid))
  | None => raise (not_found (uuid_str iid))
  end.

Definition requested_permissions (v : AgentVersion) : PM Json :=
  let! spec := item "spec" (ver_manifest v) in item "permissions" spec.

Definition require_compatible (v : AgentVersion) : PM unit :=
  let! issues := lift (compatibility_issues (ver_manifest v)) in
  guard (match issues with [] => true | _ => false end)
    (conflict "INCOMPATIBLE_AGENT" [("issues"%string, JList (map JStr issues))]).

Definition requested_profiles (requested : Json) : PM (list string) :=
  let! profiles := item "llmProfiles" requested in lift (or_raise (strings_of profiles)).

Definition not_approved (requested : Json) : PlatformError :=
  invalid "PERMISSIONS_NOT_APPROVED" [("requested"%string, requested)].

(** [views.installation_out]; the timestamps are left out. *)
Definition installation_out (i : AgentInstallation) : PM Json :=
  let! d := get in
  match db_versions d !! ins_agent_version_id i, db_catalog d !! ins_agent_id i with
  | Some version, Some entry =>
      let! requested := requested_permissions version in
      let! caps := lift (or_raise (capabilities_from_permissions (ins_approved_permissions i) (ins_model_bindings i))) in
      let! checks := lift (readiness i version) in
      ret (JObj [("id", JStr (uuid_str (ins_id i))); ("agentId", JStr (ins_agent_id i)); ("agentName", JStr (ent_name entry));
                 ("agentVersion", JStr (ver_version version)); ("agentVersionId", JStr (uuid_str (ver_id version)));
                 ("config", ins_config i); ("requestedPermissions", requested);
                 ("approvedPermissions", ins_approved_permissions i); ("capabilities", JList (map JStr caps));
                 ("modelBindings", ins_model_bindings i); ("needsReapproval", JBool (ins_needs_reapproval i));
                 ("enabled", JBool (ins_enabled i)); ("version", JNum (ins_version i));
                 ("readiness", JObj [("ready", JBool (is_ready checks)); ("checks", JList (map check_json checks))])]%string)
  | _, _ => raise UNEXPECTED
  end.

Definition put_installation (i : AgentInstallation) : PM unit :=
  modify (fun d => d <| db_installations ::= <[ins_id i := i]> |>).

(** [body.version or entry.current_version] *)
Definition wanted_version (body : InstallationCreateIn) (entry : AgentCatalogEntry) : string :=
  match ic_version body with
  | Some v => if String.eqb v "" then ent_current_version entry else v
  | None => ent_current_version entry
  end.

Definition create_installation (user : uuid) (body : InstallationCreateIn) : PM (Z * option Json) :=
  let! entry := gets (fun d => db_catalog d !! ic_agent_id body) in
  match entry with
  | None => raise (not_found (ic_agent_id body))
  | Some entry =>
      let wanted := wanted_version body entry in
      let! version := gets (find_version (ent_agent_id entry) wanted) in
      match version with
      | None => raise (not_found (ent_agent_id entry +:+ "@" +:+ wanted))
      | Some version =>
          require_compatible version ;;
          let! requested := requested_permissions version in
          let! same := lift (permissions_match (JObj (ic_approved_permissions body)) requested) in
          guard same (not_approved requested) ;;
          let! profiles := requested_profiles requested in
          let! bindings := lift (resolve_model_bindings profiles (ic_model_bindings body)) in
          let! config := lift (validate_config (ver_manifest version) (ic_config body) bindings) in
          let! id := db_uuid7 in
          let i := mkInstallation id user (ent_agent_id entry) (ver_id version) (Some (ver_id version))
                     (JObj config) requested (bindings_json bindings) false (ic_enabled body) 1 None in
          put_installation i ;;
          let! caps := lift (or_raise (capabilities_from_permissions requested (bindings_json bindings))) in
          owner_audit user "agent.installed" "agent_installation" id
            (JObj [("agentId", JStr (ent_agent_id entry)); ("version", JStr (ver_version version));
                   ("digest", JStr (ver_image_digest version)); ("capabilities", JList (map JStr caps))]%string) ;;
          let! out := installation_out i in
          ret (201, Some out)
      end
  end.

(** The part of [update_installation] that moves to another version of the agent. *)
Definition change_version (body : InstallationPatchIn) (i : AgentInstallation) (v : AgentVersion)
    : PM (AgentInstallation * AgentVersion * list (string * Json)) :=
  match ip_agent_version body with
  | None => ret (i, v, [])
  | Some wanted =>
      if String.eqb wanted (ver_version v) then ret (i, v, [])
      else
        let! found := gets (find_version (ins_agent_id i) wanted) in
        match found with
        | None => raise (not_found (ins_agent_id i +:+ "@" +:+ wanted))
        | Some nv =>
            require_compatible nv ;;
            let moved := ("agentVersion", JObj [("from", JStr (ver_version v)); ("to", JStr (ver_version nv))])%string in
            let i := i <| ins_agent_version_id := ver_id nv |> in
            let! requested := requested_permissions nv in
            let! same := lift (permissions_match (ins_approved_permissions i) requested) in
            ret (if same : bool then (i, nv, [moved])
                 else (i <| ins_needs_reapproval := true |>, nv, [moved; ("needsReapproval"%string, JBool true)]))
        end
  end.

(** The part that approves the permissions of the (new) version. *)
Definition approve (body : InstallationPatchIn) (i : AgentInstallation) (v : AgentVersion) (requested : Json)
    : PM (AgentInstallation * list (string * Json)) :=
  match ip_approved_permissions body with
  | None => ret (i, [])
  | Some approved =>
      let! same := lift (permissions_match (JObj approved) requested) in
      guard same (not_approved requested) ;;
      let! caps := lift (or_raise (capabilities_from_permissions requested JNull)) in
      ret (i <| ins_approved_permissions := requested |> <| ins_approved_version_id := Some (ver_id v) |>
             <| ins_needs_reapproval := false |>,
           [("permissionsApproved"%string, JList (map JStr caps))])
  end.

(** The choices of the request, or the stored ones for the profiles still requested. *)
Definition model_choices (body : InstallationPatchIn) (i : AgentInstallation) (profiles : list string)
    : Result PlatformError (list (string * string)) :=
  match ip_model_bindings body with
  | Some choices => Ok choices
  | None => stored ← binding_items i;
            Ok (List.filter (fun kv => existsb (String.eqb kv.1) profiles) stored)
  end.

Definition update_installation (iid user : uuid) (body : InstallationPatchIn) : PM (Z * option Json) :=
  let! i := load_installation iid user in
  guard (ins_version i =? ip_version body)
    (conflict "VERSION_CONFLICT" [("currentVersion"%string, JNum (ins_version i))]) ;;
  let! version := gets (fun d => db_versions d !! ins_agent_version_id i) in
  match version with
  | None => raise UNEXPECTED
  | Some version =>
      let! '(i, version, moved) := change_version body i version in
      let! requested := requested_permissions version in
      let! '(i, approved) := approve body i version requested in
      let! profiles := requested_profiles requested in
      let! choices := lift (model_choices body i profiles) in
      let! bindings := lift (resolve_model_bindings profiles choices) in
      let i := i <| ins_model_bindings := bindings_json bindings |> in
      let! config := lift (match ip_config body with Some c => Ok c | None => config_items i end) in
      let! config := lift (validate_config (ver_manifest version) config bindings) in
      let i := i <| ins_config := JObj config |> in
      let configured := match ip_config body with Some _ => [("config"%string, JBool true)] | None => [] end in
      let toggled := match ip_enabled body with
                     | Some e => if Bool.eqb e (ins_enabled i) then [] else [("enabled"%string, JBool e)]
                     | None => []
                     end in
      let i := i <| ins_enabled ::= fun e => default e (ip_enabled body) |> <| ins_version ::= Z.succ |> in
      put_installation i ;;
      owner_audit user (match approved with [] => "agent.updated" | _ => "permissions.approved" end)
        "agent_installation" (ins_id i) (JObj (moved ++ approved ++ configured ++ toggled)) ;;
      let! out := installation_out i in
      ret (200, Some out)
  end.

(** The states in which a run keeps an installation in use. *)
Definition in_use (s : RunState) : bool :=
  negb (bool_decide (s ∈ FINAL_STATES) || bool_decide (s = FAILED) || bool_decide (s = INTERRUPTED)).

Definition active_run (iid : uuid) (d : DB) : option uuid :=
  run_id <$> List.find (fun r => (run_installation_id r =? iid)%N && in_use (run_state r))
    (map (fun kv => rr_run kv.2) (map_to_list (db_runs d))).

Definition unscheduled (iid : uuid) (now : instant) (s : Schedule) : Schedule :=
  if (sch_installation_id s =? iid)%N && negb (bool_decide (is_Some (sch_deleted_at s)))
  then s <| sch_deleted_at := Some now |> <| sch_enabled := false |> else s.

Definition delete_installation (iid user : uuid) : PM (Z * option Json) :=
  let! i := load_installation iid user in
  let! active := gets (active_run iid) in
  match active with
  | Some rid => raise (conflict "INSTALLATION_IN_USE" [("runId"%string, JStr (uuid_str rid))])
  | None =>
      let! now := db_utcnow in
      put_installation (i <| ins_deleted_at := Some now |> <| ins_enabled := false |>) ;;
      let! removed := gets (fun d => length (List.filter (fun kv =>
        (sch_installation_id kv.2 =? iid)%N && negb (bool_decide (is_Some (sch_deleted_at kv.2))))
        (map_to_list (db_schedules d)))) in
      modify (fun d => d <| db_schedules ::= fmap (unscheduled iid now) |>) ;;
      owner_audit user "agent.uninstalled" "agent_installation" (ins_id i)
        (JObj [("agentId", JStr (ins_agent_id i)); ("schedulesRemoved", JNum (Z.of_nat removed))]%string) ;;
      ret (204, None)
  end.

Definition list_installations (user : uuid) (limit : Z) (cursor : option text)
    : PM (list AgentInstallation * option text) :=
  let! d := get in
  let rows := List.filter (fun i => (ins_user_id i =? user)%N && negb (bool_decide (is_Some (ins_deleted_at i))))
                (map snd (map_to_list (db_installations d))) in
  lift (page_by_id rows ins_id limit cursor).

(** [POST /runs]: the id of the created run. *)
Definition start_manual_run (iid user : uuid) : PM uuid :=
  let! i := load_installation iid user in
  let! version := gets (fun d => db_versions d !! ins_agent_version_id i) in
  match version with
  | None => raise UNEXPECTED
  | Some version =>
      let! spec := item "spec" (ver_manifest version) in
      let! triggers := item "triggers" spec in
      guard (json_in "manual" triggers) (conflict "TRIGGER_NOT_SUPPORTED" []) ;;
      let! checks := lift (readiness i version) in
      guard (is_ready checks) (conflict "INSTALLATION_NOT_READY" [("checks"%string, JList (failing checks))]) ;;
      let! created := create_run i version (mkNewRun "manual" (Some user) None None None None None) in
      owner_audit user "run.created" "run" created.1
        (JObj [("installationId", JStr (uuid_str (ins_id i))); ("trigger", JStr "manual")]%string) ;;
      ret created.1
  end.
End routes.
