(* ===== verification/InstallProps.v ===== *)
(** * What installing an agent guarantees

    Approval: what the owner approves, what the version requests and what a run may do.  The
    invariant of installations over any history of imports, installs, updates and
    uninstalls. *)

From S2P Require Import Prelude TimeUtil Json Redaction PyValue JsonText SchemaGuard States Jobs RunModel RunService RunInv.
From S2P Require Import RunOps Platform Capability Worker Reconciler World SystemProps Cron Scheduler Chaining.
From S2P Require Import Idempotency Pagination Manifest Catalog Readiness Installations.
#[local] Open Scope Z_scope.

(** ** Approval *)

Lemma sorted_or_lists key d l x : sorted_or key d = Ok l -> lists d key x -> JStr x ∈ l.
Proof.
  unfold sorted_or. intros H (l0 & E & Hx). rewrite E in H. destruct l0 as [|y l0]; [set_solver|]. simpl in H.
  apply or_raise_ok, py_sort_perm in H. by rewrite H.
Qed.

Lemma sorted_or_shape key d : is_Some (get_list key d) -> exists ys, sorted_or key d = Ok (map JStr ys).
Proof.
  unfold get_list, sorted_or. intros [xs Hxs]. destruct (jget key d) as [v|]; [|by exists []].
  destruct v as [| | | |l|]; try done. simpl in Hxs.
  assert (l = map JStr xs) as ->.
  { apply mapM_Some in Hxs. induction Hxs as [|v x l xs Hv Hl IH]; simpl; [done|]. destruct v; simplify_eq/=. by f_equal. }
  destruct xs as [|x xs]; [by exists []|]. destruct (py_sort_strings (x :: xs)) as (ys & E & _). exists ys.
  change (py_iter (JList (map JStr (x :: xs))) ≫= py_sort) with (py_sort (map JStr (x :: xs))). by rewrite E.
Qed.

(** The parts of a normalised permission block. *)
Definition normal_block (profiles knowledge google twilio github cloud starts : list Json) (input : bool) : Json :=
  JObj [("llmProfiles", JList profiles); ("knowledge", JList knowledge);
        ("connectors", JObj [("google", JList google); ("twilio", JList twilio); ("github", JList github)]);
        ("cloudProviders", JList cloud); ("startsAgents", JList starts); ("userInput", JBool input)]%string.

Lemma normalize_parts p n :
  normalize_permissions p = Ok n -> exists profiles knowledge google twilio github cloud starts,
    let connectors := get_dict_or "connectors" p in
    n = normal_block profiles knowledge google twilio github cloud starts (otruthy (jget "userInput" p)) /\
    sorted_or "llmProfiles" p = Ok profiles /\ sorted_or "knowledge" p = Ok knowledge /\
    sorted_or "google" connectors = Ok google /\ sorted_or "twilio" connectors = Ok twilio /\
    sorted_or "github" connectors = Ok github /\ sorted_or "cloudProviders" p = Ok cloud /\
    sorted_or "startsAgents" p = Ok starts.
Proof.
  unfold normalize_permissions. intros H. bind_ok H con Hc.
  assert (con = get_dict_or "connectors" p) as -> by (revert Hc; unfold as_dict; by destruct (get_dict_or _ _); intros [= <-]).
  bind_ok H profiles H1. bind_ok H knowledge H2. bind_ok H google H3. bind_ok H twilio H4. bind_ok H github H5.
  bind_ok H cloud H6. bind_ok H starts H7. injection H as <-. by exists profiles, knowledge, google, twilio, github, cloud, starts.
Qed.

(** The one connector that the comparison of permissions leaves out. *)
Definition sip_capability (perms : Json) (c : string) : Prop :=
  exists op, lists (get_dict_or "connectors" perms) "sip" op /\ c = ("sip." +:+ op)%string.

Lemma normalize_grants p n b c :
  normalize_permissions p = Ok n -> grants p b c -> grants n b c \/ sip_capability p c.
Proof.
  intros (l1 & l2 & l3 & l4 & l5 & l6 & l7 & -> & H1 & H2 & H3 & H4 & H5 & H6 & H7)%normalize_parts Hg.
  destruct Hg as [pr m Hp Hm|kb Hk|pr op Hpr Hop|ag Ha|pr Hp|Hu| |].
  - left. eapply grant_llm; [|done]. exists l1. split; [done|by eapply sorted_or_lists].
  - left. apply grant_knowledge. exists l2. split; [done|by eapply sorted_or_lists].
  - repeat (apply elem_of_cons in Hpr as [->|Hpr]); [| | | |by apply not_elem_of_nil in Hpr].
    + left. apply (grant_connector _ _ "google"); [set_solver|]. exists l3. split; [done|by eapply sorted_or_lists].
    + left. apply (grant_connector _ _ "twilio"); [set_solver|]. exists l4. split; [done|by eapply sorted_or_lists].
    + right. by exists op.
    + left. apply (grant_connector _ _ "github"); [set_solver|]. exists l5. split; [done|by eapply sorted_or_lists].
  - left. apply grant_agent. exists l7. split; [done|by eapply sorted_or_lists].
  - left. apply grant_cloud. exists l6. split; [done|by eapply sorted_or_lists].
  - left. apply grant_input. simpl. by rewrite Hu.
  - left. apply grant_events.
  - left. apply grant_idempotency.
Qed.

(** A normal form that lists no less grants no less. *)
Lemma normal_grants_mono l1 l2 l3 l4 l5 l6 l7 u k1 k2 k3 k4 k5 k6 k7 w b c :
  (forall x, JStr x ∈ l1 -> JStr x ∈ k1) -> (forall x, JStr x ∈ l2 -> JStr x ∈ k2) -> (forall x, JStr x ∈ l3 -> JStr x ∈ k3) ->
  (forall x, JStr x ∈ l4 -> JStr x ∈ k4) -> (forall x, JStr x ∈ l5 -> JStr x ∈ k5) -> (forall x, JStr x ∈ l6 -> JStr x ∈ k6) ->
  (forall x, JStr x ∈ l7 -> JStr x ∈ k7) -> (u = true -> w = true) ->
  grants (normal_block l1 l2 l3 l4 l5 l6 l7 u) b c -> grants (normal_block k1 k2 k3 k4 k5 k6 k7 w) b c.
Proof.
  intros E1 E2 E3 E4 E5 E6 E7 E8 Hg. destruct Hg as [pr m Hp Hm|kb Hk|pr op Hpr Hop|ag Ha|pr Hp|Hu| |].
  - destruct Hp as (? & [= <-] & Hx). eapply grant_llm; [|done]. exists k1. by auto.
  - destruct Hk as (? & [= <-] & Hx). apply grant_knowledge. exists k2. by auto.
  - destruct Hop as (? & Hl & Hx).
    repeat (apply elem_of_cons in Hpr as [->|Hpr]); [| | | |by apply not_elem_of_nil in Hpr]; simpl in Hl; try done; injection Hl as <-.
    + apply (grant_connector _ _ "google"); [set_solver|]. exists k3. by auto.
    + apply (grant_connector _ _ "twilio"); [set_solver|]. exists k4. by auto.
    + apply (grant_connector _ _ "github"); [set_solver|]. exists k5. by auto.
  - destruct Ha as (? & [= <-] & Hx). apply grant_agent. exists k7. by auto.
  - destruct Hp as (? & [= <-] & Hx). apply grant_cloud. exists k6. by auto.
  - apply grant_input. by apply E8.
  - apply grant_events.
  - apply grant_idempotency.
Qed.

(** Equal normal forms grant the same. *)
Lemma match_grants a r na nr b c :
  normalize_permissions a = Ok na -> normalize_permissions r = Ok nr -> py_eq na nr = true ->
  grants nr b c <-> grants na b c.
Proof.
  intros (l1 & l2 & l3 & l4 & l5 & l6 & l7 & -> & _)%normalize_parts (k1 & k2 & k3 & k4 & k5 & k6 & k7 & -> & _)%normalize_parts.
  intros He. simpl in He. rewrite !andb_true_iff in He. destruct He as (E1 & E2 & (E3 & E4 & E5 & _) & E6 & E7 & E8 & _).
  assert (L : forall l l', py_eq (JList l) (JList l') = true -> forall x, JStr x ∈ l <-> JStr x ∈ l').
  { intros l l' H x. by apply py_eq_list_elem. }
  apply Z.eqb_eq in E8. assert (U : otruthy (jget "userInput" a) = otruthy (jget "userInput" r)).
  { revert E8. by destruct (otruthy (jget "userInput" a)), (otruthy (jget "userInput" r)). }
  pose proof (L l1 k1 E1). pose proof (L l2 k2 E2). pose proof (L l3 k3 E3). pose proof (L l4 k4 E4).
  pose proof (L l5 k5 E5). pose proof (L l6 k6 E6). pose proof (L l7 k7 E7). clear L E1 E2 E3 E4 E5 E6 E7 E8.
  split; apply normal_grants_mono; naive_solver.
Qed.

Lemma match_parts a r :
  permissions_match a r = Ok true ->
  exists na nr, normalize_permissions a = Ok na /\ normalize_permissions r = Ok nr /\ py_eq na nr = true.
Proof.
  unfold permissions_match. intros H. bind_ok H na Ha. bind_ok H nr Hr. injection H as H. eauto.
Qed.

Lemma approval_grants a r b c :
  permissions_match a r = Ok true -> grants r b c ->
  (exists na, normalize_permissions a = Ok na /\ grants na b c) \/ sip_capability r c.
Proof.
  intros (na & nr & Ha & Hr & He)%match_parts Hg. destruct (normalize_grants _ _ _ _ Hr Hg) as [Hn|Hs]; [|by right].
  left. exists na. split; [done|]. by apply (match_grants a r na nr b c).
Qed.

(** A well-formed permission block matches itself. *)
Lemma match_refl p : permissions_shape p -> permissions_match p p = Ok true.
Proof.
  intros [S1 (o & Ho & S2)].
  assert (Hcon : get_dict_or "connectors" p = JObj o).
  { unfold get_dict_or. rewrite Ho. by destruct o. }
  destruct (sorted_or_shape "llmProfiles" p) as [y1 E1]; [apply S1; set_solver|].
  destruct (sorted_or_shape "knowledge" p) as [y2 E2]; [apply S1; set_solver|].
  destruct (sorted_or_shape "google" (JObj o)) as [y3 E3]; [apply S2; set_solver|].
  destruct (sorted_or_shape "twilio" (JObj o)) as [y4 E4]; [apply S2; set_solver|].
  destruct (sorted_or_shape "github" (JObj o)) as [y5 E5]; [apply S2; set_solver|].
  destruct (sorted_or_shape "cloudProviders" p) as [y6 E6]; [apply S1; set_solver|].
  destruct (sorted_or_shape "startsAgents" p) as [y7 E7]; [apply S1; set_solver|].
  assert (R : forall ys, py_eq (JList (map JStr ys)) (JList (map JStr ys)) = true) by (intros; by apply py_eq_strings).
  unfold permissions_match, normalize_permissions. rewrite Hcon. cbn -[sorted_or py_eq].
  rewrite E1, E2, E3, E4, E5, E6, E7. cbn -[py_eq]. f_equal.
  pose proof (R y1) as R1. pose proof (R y2) as R2. pose proof (R y3) as R3. pose proof (R y4) as R4.
  pose proof (R y5) as R5. pose proof (R y6) as R6. pose proof (R y7) as R7. clear R. cbn in R1, R2, R3, R4, R5, R6, R7 |- *.
  rewrite R1, R2, R3, R4, R5, R6, R7. by destruct (otruthy _).
Qed.

(** ** The table of installations over time *)

Section invariant.
Context {clk : Clock} {JS : JsonSchema} {MF : ManifestContract} {MC : Machine} {SC : StatusClients}.
Implicit Types (d : DB).

(** The permission block of a version. *)
Definition requests (v : AgentVersion) (p : Json) : Prop :=
  exists spec, jget "spec" (ver_manifest v) = Some spec /\ jget "permissions" spec = Some p.

Lemma requests_eq v p q : requests v p -> requests v q -> p = q.
Proof. intros (s & E1 & E2) (s' & E1' & E2'). congruence. Qed.

(** What holds of an installation: it runs a version of its agent; its approved permissions
    are those some version of the agent requested; unless it waits for a new approval they
    match those of its version; its bindings and its configuration are resolved and valid for
    its version. *)
Record installation_ok (d : DB) (i : AgentInstallation) : Prop := mkInstallationOk {
  io_version : exists v, db_versions d !! ins_agent_version_id i = Some v /\ ver_agent_id v = ins_agent_id i /\
    (exists p, requests v p /\
       (ins_needs_reapproval i = false -> permissions_match (ins_approved_permissions i) p = Ok true) /\
       exists ps b config, jget "llmProfiles" p ≫= strings_of = Some ps /\ resolve_model_bindings ps b = Ok b /\
         ins_model_bindings i = bindings_json b /\ ins_config i = JObj config /\
         validate_config (ver_manifest v) config b = Ok config);
  io_approved : exists av w, ins_approved_version_id i = Some av /\ db_versions d !! av = Some w /\
    ver_agent_id w = ins_agent_id i /\ requests w (ins_approved_permissions i);
  io_deleted : is_Some (ins_deleted_at i) -> ins_enabled i = false
}.

Record install_inv (d : DB) : Prop := mkInstallInv {
  ii_catalog : catalog_inv d;
  ii_id : forall iid i, db_installations d !! iid = Some i -> ins_id i = iid;
  ii_ok : forall iid i, db_installations d !! iid = Some i -> installation_ok d i
}.

Lemma installation_ok_kept d d' i : catalog_kept d d' -> installation_ok d i -> installation_ok d' i.
Proof.
  intros [K _] [(v & Hv & Hrest) (av & w & Ha & Hw & Hrest') Hdel]. split; [|by exists av, w; eauto|done].
  exists v. by split; [apply K|].
Qed.

Lemma install_inv_kept d d' :
  catalog_inv d' -> catalog_kept d d' -> db_installations d' = db_installations d -> install_inv d -> install_inv d'.
Proof.
  intros HC HK E [_ I2 I3]. split; [done|by rewrite E|]. rewrite E. intros iid i Hi.
  eapply installation_ok_kept; [done|]. by eapply I3.
Qed.

(** Replacing or adding one installation. *)
Lemma install_inv_put d d' i :
  install_inv d -> db_versions d' = db_versions d -> db_catalog d' = db_catalog d -> (db_fresh d <= db_fresh d')%N ->
  db_installations d' = <[ins_id i := i]> (db_installations d) -> installation_ok d i -> install_inv d'.
Proof.
  intros [I1 I2 I3] Ev Ec Hf Ei Hok. assert (HK : catalog_kept d d') by by apply catalog_kept_same.
  split; [by eapply catalog_inv_same|rewrite Ei|rewrite Ei].
  - intros iid j [[<- <-]|[_ Hj]]%lookup_insert_Some; [done|by apply I2].
  - intros iid j [[<- <-]|[_ Hj]]%lookup_insert_Some; (eapply installation_ok_kept; [exact HK|]); [done|by eapply I3].
Qed.

Lemma version_shape d vid v p : catalog_inv d -> db_versions d !! vid = Some v -> requests v p -> permissions_shape p.
Proof.
  intros HI Hv (spec & E1 & E2). destruct (vo_valid _ _ (ci_version _ HI _ _ Hv)) as (raw & Hraw).
  destruct (requested_shape _ _ Hraw) as (spec' & p' & F1 & F2 & Hs). congruence.
Qed.

Lemma wp_load iid user (Q : AgentInstallation -> DB -> Prop) d :
  (forall i, db_installations d !! iid = Some i -> ins_user_id i = user -> ins_deleted_at i = None -> Q i d) ->
  wp (load_installation iid user) Q d.
Proof.
  intros HQ. unfold load_installation. wp_step. apply wp_get. destruct (db_installations d !! iid) as [i|] eqn:Hi; [|done].
  apply wp_if; intros Hc; [|done]. apply wp_ret. apply andb_true_iff in Hc as [Hu%N.eqb_eq Hn].
  apply HQ; [done|done|]. apply negb_true_iff, bool_decide_eq_false in Hn. by apply eq_None_not_Some.
Qed.

Lemma wp_requested v (Q : Json -> DB -> Prop) d :
  (forall p, requests v p -> Q p d) -> wp (requested_permissions v) Q d.
Proof.
  intros HQ. unfold requested_permissions. wp_step. apply wp_item_some; intros spec Hs. apply wp_item_some; intros p Hp.
  apply HQ. by exists spec.
Qed.

Lemma wp_profiles p (Q : list string -> DB -> Prop) d :
  (forall ps, jget "llmProfiles" p ≫= strings_of = Some ps -> Q ps d) -> wp (requested_profiles p) Q d.
Proof.
  intros HQ. unfold requested_profiles. wp_step. apply wp_item_some; intros l Hl. apply wp_lift; intros ps Hps%or_raise_ok.
  apply HQ. by rewrite Hl.
Qed.

Lemma wp_compatible v (Q : unit -> DB -> Prop) d :
  (compatibility_issues (ver_manifest v) = Ok [] -> Q tt d) -> wp (require_compatible v) Q d.
Proof.
  intros HQ. unfold require_compatible. wp_step. apply wp_lift; intros issues Hi. apply wp_guard; intros Hc.
  destruct issues; [by apply HQ|done].
Qed.

Lemma wp_out i (Q : Json -> DB -> Prop) d : (forall j, Q j d) -> wp (installation_out i) Q d.
Proof.
  intros HQ. unfold installation_out. wp_step. apply wp_get. destruct (db_versions d !! _) as [v|]; [|done].
  destruct (db_catalog d !! _) as [e|]; [|done]. wp_step. apply wp_requested; intros p _.
  wp_step. apply wp_lift; intros caps _. wp_step. apply wp_lift; intros checks _. by apply wp_ret.
Qed.

(** Installing: the owner's block matched what the version requests, which is what is stored. *)
Lemma create_spec user body d :
  install_inv d ->
  wp (create_installation user body) (fun _ d' => install_inv d' /\ db_versions d' = db_versions d /\
    db_schedules d' = db_schedules d /\ db_runs d' = db_runs d /\
    exists i v p, db_installations d' = <[ins_id i := i]> (db_installations d) /\ ins_id i = db_fresh d /\
      ins_user_id i = user /\ ins_agent_id i = ic_agent_id body /\ ins_enabled i = ic_enabled body /\
      ins_needs_reapproval i = false /\ ins_deleted_at i = None /\
      db_versions d !! ins_agent_version_id i = Some v /\ compatibility_issues (ver_manifest v) = Ok [] /\ requests v p /\
      permissions_match (JObj (ic_approved_permissions body)) p = Ok true /\ ins_approved_permissions i = p) d.
Proof.
  intros HI. pose proof (ii_catalog _ HI) as HC. unfold create_installation. wp_step. apply wp_gets.
  destruct (db_catalog d !! ic_agent_id body) as [entry|] eqn:He; [|done]. cbv zeta.
  destruct (ci_entry _ HC _ _ He) as (Hent & _ & _). wp_step. apply wp_gets.
  destruct (find_version _ _ d) as [v|] eqn:Hf; [|done]. apply find_version_some in Hf as (Hag & _ & vid & Hv).
  pose proof (vo_id _ _ (ci_version _ HC _ _ Hv)) as Hvid. subst vid.
  wp_step. apply wp_compatible; intros Hcomp. wp_step. apply wp_requested; intros p Hp. wp_step. apply wp_lift; intros same Hsame.
  wp_step. apply wp_guard; intros ->. wp_step. apply wp_profiles; intros ps Hps. wp_step. apply wp_lift; intros b Hb.
  wp_step. apply wp_lift; intros config Hcfg. wp_step. apply wp_db_uuid7. unfold put_installation, owner_audit.
  set (i := mkInstallation _ _ _ _ _ _ _ _ _ _ _ _). wp_step. apply wp_modify. wp_step. apply wp_lift; intros caps _.
  wp_step. apply wp_modify. wp_step. apply wp_out; intros out. apply wp_ret.
  assert (Hok : installation_ok d i).
  { split; [|by exists (ver_id v), v; subst i; split_and!|by intros []]. exists v. split_and!; [done|done|]. exists p. split_and!; [done| |].
    - intros _. apply match_refl. by eapply version_shape.
    - exists ps, b, config. split_and!; try done; [by eapply resolve_stable|by eapply validate_config_stable]. }
  split; [|split_and!; try done].
  - eapply (install_inv_put d _ i HI); try done. simpl. lia.
  - exists i, v, p. by split_and!.
Qed.

(** Moving to another version keeps the approval, and asks for a new one when the permissions
    differ. *)
Lemma change_version_spec body i v d :
  install_inv d -> db_versions d !! ins_agent_version_id i = Some v -> ver_agent_id v = ins_agent_id i ->
  wp (change_version body i v) (fun r d' => d' = d /\ exists i' v' moved nr, r = (i', v', moved) /\
    i' = i <| ins_agent_version_id := ver_id v' |> <| ins_needs_reapproval := nr |> /\
    db_versions d !! ver_id v' = Some v' /\ ver_agent_id v' = ins_agent_id i /\
    ver_version v' = default (ver_version v) (ip_agent_version body) /\
    (nr = false -> ins_needs_reapproval i = false /\
       (v' = v \/ exists p, requests v' p /\ permissions_match (ins_approved_permissions i) p = Ok true))) d.
Proof.
  intros HI Hv Hag. pose proof (ii_catalog _ HI) as HC. pose proof (vo_id _ _ (ci_version _ HC _ _ Hv)) as Hvid.
  assert (Hstay : forall moved : list (string * Json), exists i' v' moved' nr, (i, v, moved) = (i', v', moved') /\
    i' = i <| ins_agent_version_id := ver_id v' |> <| ins_needs_reapproval := nr |> /\
    db_versions d !! ver_id v' = Some v' /\ ver_agent_id v' = ins_agent_id i /\ ver_version v' = ver_version v /\
    (nr = false -> ins_needs_reapproval i = false /\
       (v' = v \/ exists p, requests v' p /\ permissions_match (ins_approved_permissions i) p = Ok true))).
  { intros moved. exists i, v, moved, (ins_needs_reapproval i). rewrite Hvid. split_and!; try done; [by destruct i|]. by auto. }
  unfold change_version. destruct (ip_agent_version body) as [wanted|] eqn:Hw; [|apply wp_ret; split; [done|apply Hstay]].
  destruct (String.eqb_spec wanted (ver_version v)) as [->|Hne]; [apply wp_ret; split; [done|apply Hstay]|].
  wp_step. apply wp_gets. destruct (find_version (ins_agent_id i) wanted d) as [nv|] eqn:Hf; [|done].
  apply find_version_some in Hf as (Hnag & Hnv & nvid & Hnew). pose proof (vo_id _ _ (ci_version _ HC _ _ Hnew)) as Hnid. subst nvid.
  wp_step. apply wp_compatible; intros _. cbv zeta. wp_step. apply wp_requested; intros p Hp. wp_step. apply wp_lift; intros same Hsame.
  apply wp_ret. split; [done|]. destruct same.
  - eexists _, nv, _, (ins_needs_reapproval i). split_and!; try done. intros Hn. split; [done|]. right. by exists p.
  - eexists _, nv, _, true. by split_and!.
Qed.

Lemma approve_spec body i v p d :
  wp (approve body i v p) (fun r d' => d' = d /\ exists i' changes, r = (i', changes) /\
    match ip_approved_permissions body with
    | None => i' = i
    | Some a => permissions_match (JObj a) p = Ok true /\
        i' = i <| ins_approved_permissions := p |> <| ins_approved_version_id := Some (ver_id v) |>
               <| ins_needs_reapproval := false |>
    end) d.
Proof.
  unfold approve. destruct (ip_approved_permissions body) as [a|]; [|apply wp_ret; split; [done|by exists i, []]].
  wp_step. apply wp_lift; intros same Hs. wp_step. apply wp_guard; intros ->. wp_step. apply wp_lift; intros caps _.
  apply wp_ret. split; [done|]. by eexists _, _.
Qed.

(** What a committed update did to the installation. *)
Definition updated (body : InstallationPatchIn) (i i' : AgentInstallation) (v' : AgentVersion) (p : Json) : Prop :=
  ins_id i' = ins_id i /\ ins_user_id i' = ins_user_id i /\ ins_agent_id i' = ins_agent_id i /\
  ins_deleted_at i' = ins_deleted_at i /\ ins_version i' = ins_version i + 1 /\
  ins_enabled i' = default (ins_enabled i) (ip_enabled body) /\
  match ip_approved_permissions body with
  | Some a => permissions_match (JObj a) p = Ok true /\ ins_approved_permissions i' = p /\
      ins_approved_version_id i' = Some (ins_agent_version_id i') /\ ins_needs_reapproval i' = false
  | None => ins_approved_permissions i' = ins_approved_permissions i /\
      ins_approved_version_id i' = ins_approved_version_id i /\
      (ins_needs_reapproval i' = false -> ins_needs_reapproval i = false /\
         permissions_match (ins_approved_permissions i') p = Ok true)
  end.

Lemma update_installation_spec iid user body d :
  install_inv d ->
  wp (update_installation iid user body) (fun _ d' => install_inv d' /\ db_versions d' = db_versions d /\
    db_schedules d' = db_schedules d /\ db_runs d' = db_runs d /\
    exists i v i' v' p, db_installations d !! iid = Some i /\ ins_user_id i = user /\ ins_deleted_at i = None /\
      ins_version i = ip_version body /\ db_installations d' = <[iid := i']> (db_installations d) /\
      db_versions d !! ins_agent_version_id i = Some v /\ db_versions d !! ins_agent_version_id i' = Some v' /\
      ver_version v' = default (ver_version v) (ip_agent_version body) /\ requests v' p /\ updated body i i' v' p) d.
Proof.
  intros HI. pose proof (ii_catalog _ HI) as HC. unfold update_installation. wp_step. apply wp_load; intros i Hi Huser Hdel.
  pose proof (ii_id _ HI _ _ Hi) as Hid. destruct (ii_ok _ HI _ _ Hi) as [(v & Hv & Hag & p0 & Hp0 & Hm0 & _) Happ _].
  wp_step. apply wp_guard; intros Hver%Z.eqb_eq. wp_step. apply wp_gets. rewrite Hv. wp_step.
  eapply wp_mono; [by apply change_version_spec|]. intros ? ? (-> & i1 & v' & moved & nr & -> & Hi1 & Hv' & Hag' & Hvv & Hnr).
  wp_step. apply wp_requested; intros p Hp. wp_step. eapply wp_mono; [apply approve_spec|].
  intros ? ? (-> & i2 & approved & -> & Hi2). wp_step. apply wp_profiles; intros ps Hps. wp_step. apply wp_lift; intros choices _.
  wp_step. apply wp_lift; intros b Hb. cbv zeta. wp_step. apply wp_lift; intros given _. wp_step. apply wp_lift; intros config Hcfg.
  unfold put_installation, owner_audit. set (i3 := i2 <| ins_model_bindings := _ |> <| ins_config := _ |> <| ins_enabled ::= _ |> <| ins_version ::= _ |>).
  wp_step. apply wp_modify. wp_step. apply wp_modify. wp_step. apply wp_out; intros out. apply wp_ret.
  assert (Hup : updated body i i3 v' p /\ ins_agent_version_id i3 = ver_id v').
  { unfold updated. subst i3. destruct (ip_approved_permissions body) as [a|].
    - destruct Hi2 as [Hmatch ->]. subst i1. by split_and!.
    - subst i2 i1. split_and!; try done. intros Hn. simpl in Hn. destruct (Hnr Hn) as [Hn0 Hcase].
      split; [done|]. simpl. destruct Hcase as [->|(q & Hq & Hmatch)].
      + rewrite (requests_eq _ _ _ Hp Hp0). by apply Hm0.
      + by rewrite (requests_eq _ _ _ Hp Hq). }
  destruct Hup as [Hup Hvid]. pose proof Hup as (U1 & U2 & U3 & U4 & U5 & U6 & U7).
  assert (Hok : installation_ok d i3).
  { split.
    - exists v'. rewrite Hvid, U3. split_and!; try done. exists p. split_and!; [done| |].
      + destruct (ip_approved_permissions body) as [a|].
        * intros _. destruct U7 as (_ & -> & _). apply match_refl. by eapply version_shape.
        * intros Hn. by apply U7.
      + exists ps, b, config. split_and!; try done; [by eapply resolve_stable|by eapply validate_config_stable].
    - rewrite U3. destruct (ip_approved_permissions body) as [a|].
      + destruct U7 as (_ & Ha & Hav & _). exists (ver_id v'), v'. rewrite Hav, Hvid, Ha. by split_and!.
      + destruct U7 as (Ha & Hav & _). by rewrite Ha, Hav.
    - rewrite U4, Hdel. by intros []. }
  split; [|split_and!; try done].
  - eapply (install_inv_put d _ i3 HI); done.
  - exists i, v, i3, v', p. rewrite Hvid. split_and!; try done. simpl. by rewrite <- Hid, <- U1.
Qed.

Lemma delete_installation_spec iid user d :
  install_inv d ->
  wp (delete_installation iid user) (fun _ d' => install_inv d' /\ db_versions d' = db_versions d /\
    db_runs d' = db_runs d /\ active_run iid d = None /\
    exists i now, db_installations d !! iid = Some i /\ ins_user_id i = user /\ ins_deleted_at i = None /\
      db_installations d' = <[iid := i <| ins_deleted_at := Some now |> <| ins_enabled := false |>]> (db_installations d) /\
      db_schedules d' = unscheduled iid now <$> db_schedules d) d.
Proof.
  intros HI. unfold delete_installation. wp_step. apply wp_load; intros i Hi Huser Hdel.
  pose proof (ii_id _ HI _ _ Hi) as Hid. wp_step. apply wp_gets. destruct (active_run iid d) eqn:Ha; [done|].
  wp_step. apply wp_db_utcnow. unfold put_installation, owner_audit. set (i' := i <| ins_deleted_at := _ |> <| ins_enabled := _ |>).
  wp_step. apply wp_modify. wp_step. apply wp_gets. wp_step. apply wp_modify. wp_step. apply wp_modify. apply wp_ret.
  split; [|split_and!; try done].
  - eapply (install_inv_put d _ i' HI); try done. destruct (ii_ok _ HI _ _ Hi) as [H1 H2 H3]. by split.
  - exists i, (wall (db_tick d)). split_and!; try done. simpl. by rewrite Hid.
Qed.

(** Imports, synchronisations, installs, updates and uninstalls, and everything else. *)
Inductive install_step : DB -> DB -> Prop :=
| is_import d user manifest v d' : import_agent user manifest d = Ok (v, d') -> install_step d d'
| is_sync d files loaded d' : sync_directory files d = Ok (loaded, d') -> install_step d d'
| is_create d user body a d' : create_installation user body d = Ok (a, d') -> install_step d d'
| is_update d iid user body a d' : update_installation iid user body d = Ok (a, d') -> install_step d d'
| is_delete d iid user a d' : delete_installation iid user d = Ok (a, d') -> install_step d d'
| is_other d d' : db_versions d' = db_versions d -> db_catalog d' = db_catalog d ->
    db_installations d' = db_installations d -> (db_fresh d <= db_fresh d')%N -> install_step d d'.

Lemma import_spec user manifest d :
  install_inv d -> wp (import_agent user manifest) (fun _ d' => install_inv d' /\ catalog_kept d d' /\
    db_installations d' = db_installations d) d.
Proof.
  intros HI. unfold import_agent. wp_step. eapply wp_mono; [apply upsert_manifest_spec, ii_catalog, HI|].
  intros v d1 (HC & HK & (_ & O2 & _) & _). unfold owner_audit. wp_step. apply wp_modify. wp_step. apply wp_gets.
  destruct (db_catalog _ !! _); [|done]. apply wp_ret.
  split_and!; [|done|done]. eapply install_inv_kept; [|exact HK|done|done]. eapply (catalog_inv_same d1); done.
Qed.

Lemma install_step_ok d d' : install_step d d' -> install_inv d -> install_inv d'.
Proof.
  intros Hs HI. destruct Hs as [d user m v d' H|d files loaded d' H|d user body a d' H|d iid user body a d' H|d iid user a d' H|d d' Ev Ec Ei Hf].
  - by destruct (wp_run _ _ _ _ _ (import_spec user m d HI) H).
  - destruct (wp_run _ _ _ _ _ (sync_spec files d (ii_catalog _ HI)) H) as (HC & HK & (_ & O2 & _)). by eapply install_inv_kept.
  - by destruct (wp_run _ _ _ _ _ (create_spec user body d HI) H).
  - by destruct (wp_run _ _ _ _ _ (update_installation_spec iid user body d HI) H).
  - by destruct (wp_run _ _ _ _ _ (delete_installation_spec iid user d HI) H).
  - eapply install_inv_kept; [|by apply catalog_kept_same|done|done]. eapply catalog_inv_same; try done. apply HI.
Qed.

Lemma install_steps_ok d0 d :
  db_versions d0 = ∅ -> db_catalog d0 = ∅ -> db_installations d0 = ∅ -> rtc install_step d0 d -> install_inv d.
Proof.
  intros Ev Ec Ei Hr. enough (H : install_inv d0) by (clear Ev Ec Ei; induction Hr; eauto using install_step_ok).
  split; [by apply catalog_inv_empty| |]; intros iid i; by rewrite Ei, lookup_empty.
Qed.

(** What an approval lets through: whatever the approved block grants, the version requests
    (in the normal form that was compared), or it is a phone capability. *)
Lemma approved_requested a p b c :
  permissions_match a p = Ok true -> grants a b c ->
  (exists n, normalize_permissions p = Ok n /\ grants n b c) \/ sip_capability a c.
Proof.
  intros (na & nr & Ha & Hr & He)%match_parts Hg. destruct (normalize_grants _ _ _ _ Ha Hg) as [Hn|Hs]; [|by right].
  left. exists nr. split; [done|]. by apply (match_grants a p na nr b c).
Qed.

(** The capabilities a run gets with a permission block and bindings. *)
Definition run_capability (perms bindings : Json) (c : string) : Prop :=
  exists caps, capabilities_from_permissions perms bindings = Some caps /\ c ∈ caps.

Lemma run_capability_grants perms bindings c :
  run_capability perms bindings c -> grants perms (if truthy bindings then bindings else JObj []) c.
Proof. intros (caps & H & Hc). by eapply capabilities_exact. Qed.

(** C37: No installation runs with more than was requested and approved.  In every state reached
    by imports, installs, updates and uninstalls, an installation runs an existing version of
    its agent, its approved permissions are what a version of the agent requested, its
    bindings are resolved for the requested profiles and its configuration is valid for the
    version; and unless it is waiting for a new approval, every capability a run of it gets is
    one that its current version requests, or a phone ([sip]) capability, which the comparison
    leaves out. *)
Theorem approval_covers d0 d iid i :
  db_versions d0 = ∅ -> db_catalog d0 = ∅ -> db_installations d0 = ∅ -> rtc install_step d0 d ->
  db_installations d !! iid = Some i ->
  installation_ok d i /\
  (ins_needs_reapproval i = false -> exists v p n, db_versions d !! ins_agent_version_id i = Some v /\
     requests v p /\ normalize_permissions p = Ok n /\
     forall c, run_capability (ins_approved_permissions i) (ins_model_bindings i) c ->
       grants n (if truthy (ins_model_bindings i) then ins_model_bindings i else JObj []) c \/
       sip_capability (ins_approved_permissions i) c).
Proof.
  intros Ev Ec Ei Hr Hi. pose proof (ii_ok _ (install_steps_ok _ _ Ev Ec Ei Hr) _ _ Hi) as Hok. split; [done|].
  intros Hn. destruct Hok as [(v & Hv & _ & p & Hp & Hm & _) _ _]. specialize (Hm Hn).
  pose proof Hm as (na & n & _ & Hnp & _)%match_parts. exists v, p, n. split_and!; try done.
  intros c Hc%run_capability_grants. destruct (approved_requested _ _ _ _ Hm Hc) as [(n' & Hn' & Hg)|Hs]; [left|by right].
  congruence.
Qed.

(** An update is guarded by the version number and never approves on its own: a committed
    update was based on the stored version, moves to the version asked for, and only when the
    request itself carries a permission block does it change the approved permissions or clear
    a pending re-approval; that block then matched what the new version requests, so every
    capability it confers was in the block, phone capabilities apart. *)
Theorem update_approves_explicitly d0 d iid user body a d' :
  db_versions d0 = ∅ -> db_catalog d0 = ∅ -> db_installations d0 = ∅ -> rtc install_step d0 d ->
  update_installation iid user body d = Ok (a, d') ->
  exists i v i' v' p, db_installations d !! iid = Some i /\ ins_user_id i = user /\ ins_deleted_at i = None /\
    ins_version i = ip_version body /\ db_installations d' = <[iid := i']> (db_installations d) /\
    db_versions d !! ins_agent_version_id i = Some v /\ db_versions d !! ins_agent_version_id i' = Some v' /\
    ver_version v' = default (ver_version v) (ip_agent_version body) /\ requests v' p /\ updated body i i' v' p /\
    (ins_approved_permissions i' <> ins_approved_permissions i \/
       (ins_needs_reapproval i = true /\ ins_needs_reapproval i' = false) ->
     exists block n, ip_approved_permissions body = Some block /\ normalize_permissions (JObj block) = Ok n /\
       forall b c, grants (ins_approved_permissions i') b c -> grants n b c \/ sip_capability p c).
Proof.
  intros Ev Ec Ei Hr Hu. pose proof (install_steps_ok _ _ Ev Ec Ei Hr) as HI.
  destruct (wp_run _ _ _ _ _ (update_installation_spec iid user body d HI) Hu)
    as (_ & _ & _ & _ & i & v & i' & v' & p & H1 & H2 & H3 & H4 & H5 & H6 & H7 & H8 & H9 & H10).
  exists i, v, i', v', p. split_and!; try done. intros Hch. destruct H10 as (_ & _ & _ & _ & _ & _ & U).
  destruct (ip_approved_permissions body) as [block|].
  - destruct U as (Hm & -> & _). pose proof Hm as (n & nr & Hn & _)%match_parts. exists block, n. split_and!; try done.
    intros b c Hg. destruct (approval_grants _ _ _ _ Hm Hg) as [(n' & Hn' & Hc)|Hs]; [left; congruence|by right].
  - destruct U as (Ha & _ & Hnr). destruct Hch as [Hch|[Hy Hn]]; [done|]. destruct (Hnr Hn). congruence.
Qed.

Lemma in_use_spec st : in_use st = false <-> st ∈ [SUCCEEDED; CANCELLED; FAILED; INTERRUPTED].
Proof.
  unfold in_use. rewrite negb_false_iff, !orb_true_iff, !bool_decide_eq_true. unfold FINAL_STATES.
  rewrite !elem_of_cons, elem_of_nil. naive_solver.
Qed.

Lemma active_run_none iid d rid rr :
  active_run iid d = None -> db_runs d !! rid = Some rr -> run_installation_id (rr_run rr) = iid ->
  in_use (run_state (rr_run rr)) = false.
Proof.
  unfold active_run. intros H Hr <-. apply fmap_None in H. eapply find_none in H.
  - by rewrite N.eqb_refl in H.
  - apply in_map_iff. exists (rid, rr). split; [done|]. by apply list_elem_of_In, elem_of_map_to_list.
Qed.

Lemma active_run_some iid d r :
  active_run iid d = Some r -> exists rid rr, db_runs d !! rid = Some rr /\
    run_installation_id (rr_run rr) = iid /\ in_use (run_state (rr_run rr)) = true.
Proof.
  unfold active_run. intros (x & [Hin Hx]%find_some & _)%fmap_Some. apply in_map_iff in Hin as ([rid rr] & <- & Hin).
  apply andb_true_iff in Hx as [Hi%N.eqb_eq Hu]. exists rid, rr. split_and!; try done.
  by apply elem_of_map_to_list, list_elem_of_In.
Qed.

Lemma delete_refused iid user d e :
  delete_installation iid user d = Err e ->
  err_code e = "NOT_FOUND"%string \/ (err_code e = "INSTALLATION_IN_USE"%string /\ is_Some (active_run iid d)).
Proof.
  unfold delete_installation, load_installation, bind, get, gets, ret, raise.
  destruct (db_installations d !! iid) as [i|]; [|intros [= <-]; by left].
  destruct (_ && _); [|intros [= <-]; by left]. destruct (active_run iid d) as [r|]; [|done].
  intros [= <-]. right. split; [done|by eexists].
Qed.

(** Uninstalling is refused while a run of the installation is unfinished; when it commits
    the installation and all its schedules are deleted and disabled in the same transaction,
    so nothing of it fires again, and no run, version or other installation changes. *)
Theorem uninstall_complete d0 d iid user :
  db_versions d0 = ∅ -> db_catalog d0 = ∅ -> db_installations d0 = ∅ -> rtc install_step d0 d ->
  match delete_installation iid user d with
  | Ok (answer, d') =>
      (forall rid rr, db_runs d !! rid = Some rr -> run_installation_id (rr_run rr) = iid ->
         run_state (rr_run rr) ∈ [SUCCEEDED; CANCELLED; FAILED; INTERRUPTED]) /\
      (exists i, db_installations d' !! iid = Some i /\ is_Some (ins_deleted_at i) /\ ins_enabled i = false) /\
      (forall j, j <> iid -> db_installations d' !! j = db_installations d !! j) /\
      (forall sid s, db_schedules d' !! sid = Some s -> sch_installation_id s = iid ->
         is_Some (sch_deleted_at s) /\ (sch_enabled s = false \/ db_schedules d !! sid = Some s)) /\
      (forall sid s, db_schedules d !! sid = Some s -> sch_installation_id s <> iid -> db_schedules d' !! sid = Some s) /\
      db_runs d' = db_runs d /\ db_versions d' = db_versions d
  | Err e => err_code e = "NOT_FOUND"%string \/
      (err_code e = "INSTALLATION_IN_USE"%string /\ exists rid rr, db_runs d !! rid = Some rr /\
         run_installation_id (rr_run rr) = iid /\ run_state (rr_run rr) ∉ [SUCCEEDED; CANCELLED; FAILED; INTERRUPTED])
  end.
Proof.
  intros Ev Ec Ei Hr. pose proof (install_steps_ok _ _ Ev Ec Ei Hr) as HI.
  destruct (delete_installation iid user d) as [[answer d']|e] eqn:H.
  - destruct (wp_run _ _ _ _ _ (delete_installation_spec iid user d HI) H)
      as (_ & HV & HR & Ha & i & now & Hi & _ & _ & HI' & HS). split_and!; try done.
    + intros rid rr Hrr Hiid. apply in_use_spec. by eapply active_run_none.
    + eexists. rewrite HI', lookup_insert_eq. split_and!; [done|by eexists|done].
    + intros j Hj. by rewrite HI', lookup_insert_ne.
    + intros sid s. rewrite HS, lookup_fmap. intros (s0 & Hs0 & ->)%fmap_Some. unfold unscheduled.
      destruct (_ && _) eqn:E; [intros _; simpl; split; [by eexists|by left]|]. intros <-.
      rewrite N.eqb_refl in E. apply negb_false_iff, bool_decide_eq_true in E. split; [done|by right].
    + intros sid s Hs Hne. rewrite HS, lookup_fmap, Hs. simpl. unfold unscheduled.
      by rewrite (proj2 (N.eqb_neq _ _) Hne).
  - destruct (delete_refused _ _ _ _ H) as [?|[He [r Ha]]]; [by left|right]. split; [done|].
    destruct (active_run_some _ _ _ Ha) as (rid & rr & Hrr & Hi & Hu). exists rid, rr. split_and!; try done.
    intros Hin%in_use_spec. congruence.
Qed.

(** A run the owner starts by hand may do what was approved, and nothing else: the route only
    creates one for an installation of the owner that passes every readiness check, the run
    is queued with the approved permissions, bindings and configuration of the installation,
    and each of its capabilities is one that the installed version requests, or a phone
    capability of the approved block. *)
Theorem manual_run_authorized d0 d iid user rid d' :
  db_versions d0 = ∅ -> db_catalog d0 = ∅ -> db_installations d0 = ∅ -> rtc install_step d0 d -> platform_inv d ->
  start_manual_run iid user d = Ok (rid, d') ->
  exists i v p n rr, db_installations d !! iid = Some i /\ ins_user_id i = user /\ ins_deleted_at i = None /\
    db_versions d !! ins_agent_version_id i = Some v /\ can_run i v /\ requests v p /\ normalize_permissions p = Ok n /\
    db_runs d !! rid = None /\ db_runs d' !! rid = Some rr /\ fresh_run rid (rr_run rr) /\
    run_installation_id (rr_run rr) = iid /\ run_config_snapshot (rr_run rr) = ins_config i /\
    forall c, run_capability (run_permissions_snapshot (rr_run rr)) (run_model_bindings (rr_run rr)) c ->
      grants n (if truthy (ins_model_bindings i) then ins_model_bindings i else JObj []) c \/
      sip_capability (ins_approved_permissions i) c.
Proof.
  intros Ev Ec Ei Hr HP Hs. pose proof (install_steps_ok _ _ Ev Ec Ei Hr) as HI.
  refine (wp_run _ (fun rid d' => _) _ _ _ _ Hs). clear Hs rid d'. unfold start_manual_run.
  wp_step. apply wp_load; intros i Hi Huser Hdel. wp_step. apply wp_gets.
  pose proof (ii_id _ HI _ _ Hi) as Hid.
  destruct (ii_ok _ HI _ _ Hi) as [(v & Hv & _ & p & Hp & Hm & _) _ _]. rewrite Hv.
  wp_step. apply wp_item_some; intros spec _. wp_step. apply wp_item_some; intros triggers _. wp_step. apply wp_guard; intros _.
  wp_step. apply wp_lift; intros checks Hc. wp_step. apply wp_guard; intros Hready. wp_step.
  assert (Hcan : can_run i v) by (apply readiness_spec; by exists checks). pose proof Hcan as (_ & Hn & _). specialize (Hm Hn).
  pose proof Hm as (na & n & _ & Hnp & _)%match_parts.
  eapply wp_mono; [by apply create_run_spec|]. intros [rid created] d1 (_ & HC & _). unfold owner_audit. wp_step. apply wp_modify.
  apply wp_ret. unfold created_run in HC. destruct created; [|by destruct HC as (_ & _ & rr & _ & [[? [=]] _])].
  destruct HC as (Hnone & _ & rr & Hrr & Hf & R1 & R2 & R3 & R4 & _). exists i, v, p, n, rr. split_and!; try done.
  - congruence.
  - rewrite R1, R2. intros c Hcap%run_capability_grants.
    destruct (approved_requested _ _ _ _ Hm Hcap) as [(n' & Hn' & Hg)|Hsip]; [left; congruence|by right].
Qed.
End invariant.
