(* ===== verification/SecretStore.v ===== *)
(** * Encrypted provider secrets ([secret_store/__init__.py], [secret_store/db.py])

    Envelope encryption of a secret under a fresh data key that a versioned master key wraps, the
    table of encrypted secrets, and the keyring that grows as keys are rotated.  AES-256-GCM is a
    parameter with its documented laws; randomness is an argument.  Bytes are 8-bit characters. *)

From S2P Require Import Prelude Json Redaction JsonText.
From Stdlib Require Import Ascii.
#[local] Open Scope Z_scope.

Abbreviation bytes := (list ascii) (only parsing).

(** [AESGCM(key).encrypt(nonce, data, aad)] and [decrypt], [None] being [InvalidTag]. *)
Class Aead := {
  aes_encrypt : bytes -> bytes -> bytes -> bytes -> bytes;
  aes_decrypt : bytes -> bytes -> bytes -> bytes -> option bytes
}.

(** Decryption inverts encryption, the tag adds 16 bytes, and a ciphertext is refused under other
    associated data.  A 16-byte tag cannot tell all associated data apart, so the last law is about
    the associated data [Used] in the platform. *)
Class AeadLaws (A : Aead) (Used : bytes -> Prop) := {
  aes_roundtrip : forall k n p aad, aes_decrypt k n (aes_encrypt k n p aad) aad = Some p;
  aes_length : forall k n p aad, length (aes_encrypt k n p aad) = (length p + 16)%nat;
  aes_bound : forall k n p aad aad', Used aad -> Used aad' -> aad <> aad' -> aes_decrypt k n (aes_encrypt k n p aad) aad' = None
}.

Definition FORMAT : Z := 1.
Definition KEY_BYTES : nat := 32.
Definition NONCE_BYTES : nat := 12.
Definition HEADER_SIZE : nat := 5.
Definition WRAPPED_BYTES : nat := KEY_BYTES + 16.
Definition MIN_BLOB : nat := HEADER_SIZE + NONCE_BYTES + WRAPPED_BYTES + NONCE_BYTES + 16.

Definition byte (z : Z) : ascii := ascii_of_N (Z.to_N (z mod 256)).
Definition unbyte (c : ascii) : Z := Z.of_N (N_of_ascii c).

(** [struct.Struct(">BI")] *)
Definition pack_header (format version : Z) : bytes :=
  [byte format; byte (Z.shiftr version 24); byte (Z.shiftr version 16); byte (Z.shiftr version 8); byte version].
Definition unpack_header (blob : bytes) : option (Z * Z) :=
  match blob with
  | f :: a :: b :: c :: d :: _ =>
      Some (unbyte f, Z.shiftl (unbyte a) 24 + Z.shiftl (unbyte b) 16 + Z.shiftl (unbyte c) 8 + unbyte d)
  | _ => None
  end.

(** [SecretStoreError], by its cause, and any other exception. *)
Inductive SecretError := NoContext | EmptyKeyring | BadVersion | BadKey | Truncated | UnknownFormat | NotLoaded | Unauthentic | NotFound | OtherError.

Abbreviation SR := (Result SecretError).

Definition Context_ := list (string * string).

Definition aad_of (header : bytes) (context : Context_) : SR bytes :=
  match context with
  | [] => Err NoContext
  | _ => Ok (header ++ chars (json_dumps "," ":" true (JObj (map (fun kv => (kv.1, JStr kv.2)) context))))
  end.

Record Keyring := mkKeyring { kr_keys : gmap Z bytes; kr_current : Z }.

Definition max_version (keys : gmap Z bytes) : Z := foldr Z.max 0 (map fst (map_to_list keys)).

Fixpoint check_keys (items : list (Z * bytes)) : SR unit :=
  match items with
  | [] => Ok tt
  | (version, key) :: items' =>
      if negb ((1 <=? version) && (version <=? 0xFFFFFFFF)) then Err BadVersion
      else if negb (length key =? KEY_BYTES)%nat then Err BadKey
      else check_keys items'
  end.

(** [Keyring.__init__] *)
Definition make_keyring (keys : gmap Z bytes) : SR Keyring :=
  if bool_decide (keys = ∅) then Err EmptyKeyring
  else _ ← check_keys (map_to_list keys); Ok (mkKeyring keys (max_version keys)).

Section store.
Context {A : Aead}.

(** The random bytes of one encryption. *)
Record Random := mkRandom { rd_data_key : bytes; rd_wrap_nonce : bytes; rd_nonce : bytes }.
Definition random_ok (r : Random) : Prop :=
  length (rd_data_key r) = KEY_BYTES /\ length (rd_wrap_nonce r) = NONCE_BYTES /\ length (rd_nonce r) = NONCE_BYTES.

Definition encrypt (k : Keyring) (r : Random) (plaintext : bytes) (context : Context_) : SR bytes :=
  let header := pack_header FORMAT (kr_current k) in
  aad ← aad_of header context;
  match kr_keys k !! kr_current k with
  | None => Err OtherError
  | Some master =>
      let wrapped := aes_encrypt master (rd_wrap_nonce r) (rd_data_key r) aad in
      let ciphertext := aes_encrypt (rd_data_key r) (rd_nonce r) plaintext aad in
      Ok (header ++ rd_wrap_nonce r ++ wrapped ++ rd_nonce r ++ ciphertext)
  end.

Definition key_version (blob : bytes) : SR Z :=
  if (length blob <? MIN_BLOB)%nat then Err Truncated
  else match unpack_header blob with
       | Some (fmt, version) => if fmt =? FORMAT then Ok version else Err UnknownFormat
       | None => Err OtherError
       end.

Definition valid_key_length (k : bytes) : bool := existsb (Nat.eqb (length k)) [16; 24; 32]%nat.

Definition decrypt (k : Keyring) (blob : bytes) (context : Context_) : SR bytes :=
  version ← key_version blob;
  match kr_keys k !! version with
  | None => Err NotLoaded
  | Some master =>
      let header := take HEADER_SIZE blob in
      let rest := drop HEADER_SIZE blob in
      aad ← aad_of header context;
      let wrap_nonce := take NONCE_BYTES rest in
      let rest := drop NONCE_BYTES rest in
      let wrapped := take WRAPPED_BYTES rest in
      let rest := drop WRAPPED_BYTES rest in
      let nonce := take NONCE_BYTES rest in
      let ciphertext := drop NONCE_BYTES rest in
      match aes_decrypt master wrap_nonce wrapped aad with
      | None => Err Unauthentic
      | Some data_key =>
          if valid_key_length data_key then
            match aes_decrypt data_key nonce ciphertext aad with Some p => Ok p | None => Err Unauthentic end
          else Err OtherError
      end
  end.

(** ** The table *)

Record EncryptedSecret := mkSecret {
  es_id : uuid;
  es_provider : string;
  es_owner_type : string;
  es_owner_id : uuid;
  es_key_version : Z;
  es_ciphertext : bytes
}.

Definition PROVIDERS : list string := ["google"; "twilio"; "openai"; "anthropic"]%string.

Definition context_of (s : EncryptedSecret) : Context_ :=
  [("id", uuid_str (es_id s)); ("provider", es_provider s); ("owner", es_owner_type s +:+ ":" +:+ uuid_str (es_owner_id s))]%string.

Record Secrets := mkSecrets { sd_rows : gmap uuid EncryptedSecret; sd_fresh : uuid }.
#[local] Instance eta_Secrets : Eta Secrets := fun d => mkSecrets (sd_rows d) (sd_fresh d).

Abbreviation SM := (Tx SecretError Secrets).

Definition lift {X} (r : SR X) : SM X := match r with Ok x => ret x | Err e => raise e end.

(** Seal a row: [ciphertext] and [key_version] as [store] and [replace] set them. *)
Definition sealed (k : Keyring) (r : Random) (plaintext : bytes) (s : EncryptedSecret) : SR EncryptedSecret :=
  blob ← encrypt k r plaintext (context_of s);
  Ok (mkSecret (es_id s) (es_provider s) (es_owner_type s) (es_owner_id s) (kr_current k) blob).

(** The column [key_version] is a signed 32-bit integer; the database refuses others. *)
Definition fits_column (version : Z) : bool := version <=? 2147483647.

Definition store (k : Keyring) (r : Random) (provider owner_type : string) (owner_id : uuid) (plaintext : bytes) : SM EncryptedSecret :=
  let! d := get in
  let! s := lift (sealed k r plaintext (mkSecret (sd_fresh d) provider owner_type owner_id 0 [])) in
  guard (fits_column (es_key_version s) && bool_decide (provider ∈ PROVIDERS)
         && negb (existsb (fun kv => String.eqb (es_owner_type kv.2) owner_type && (es_owner_id kv.2 =? owner_id)%N) (map_to_list (sd_rows d))))
    OtherError ;;
  modify (fun d => d <| sd_rows ::= <[es_id s := s]> |> <| sd_fresh ::= N.succ |>) ;;
  ret s.

Definition load (k : Keyring) (id : uuid) (provider : string) (d : Secrets) : SR bytes :=
  match sd_rows d !! id with
  | None => Err NotFound
  | Some s => if String.eqb (es_provider s) provider then decrypt k (es_ciphertext s) (context_of s) else Err NotFound
  end.

Definition replace (k : Keyring) (r : Random) (id : uuid) (plaintext : bytes) : SM unit :=
  let! d := get in
  match sd_rows d !! id with
  | None => raise NotFound
  | Some s =>
      let! s := lift (sealed k r plaintext s) in
      guard (fits_column (es_key_version s)) OtherError ;;
      modify (fun d => d <| sd_rows ::= <[id := s]> |>)
  end.

Definition delete_secret (id : uuid) : SM unit := modify (fun d => d <| sd_rows ::= delete id |>).
End store.

(** ** JSON string literals are a prefix code *)

Definition hex_value (c : ascii) : N :=
  let n := N_of_ascii c in if (n <=? 57)%N then (n - 48)%N else (n - 87)%N.

(** Reads one escaped character. *)
Definition unescape (s : string) : option (ascii * string) :=
  match s with
  | EmptyString => None
  | String c s' =>
      if (N_of_ascii c =? 92)%N then
        match s' with
        | String d rest =>
            let n := N_of_ascii d in
            if (n =? 98)%N then Some (ascii_of_N 8, rest) else if (n =? 116)%N then Some (ascii_of_N 9, rest)
            else if (n =? 110)%N then Some (ascii_of_N 10, rest) else if (n =? 102)%N then Some (ascii_of_N 12, rest)
            else if (n =? 114)%N then Some (ascii_of_N 13, rest)
            else if (n =? 117)%N then
              match rest with
              | String a (String b (String x (String y rest'))) =>
                  Some (ascii_of_N (hex_value x * 16 + hex_value y), rest')
              | _ => None
              end
            else Some (d, rest)
        | EmptyString => None
        end
      else Some (c, s')
  end.

Lemma unescape_escaped c rest : unescape (escaped c +:+ rest)%string = Some (c, rest).
Proof. destruct c as [[] [] [] [] [] [] [] []]; reflexivity. Qed.

Lemma escaped_not_quote c s t : (escaped c +:+ s)%string <> (quote_char +:+ t)%string.
Proof. destruct c as [[] [] [] [] [] [] [] []]; discriminate. Qed.

Lemma append_assoc (a b c : string) : ((a +:+ b) +:+ c = a +:+ b +:+ c)%string.
Proof. induction a as [|x a IH]; [done|]. change (String x ((a +:+ b) +:+ c) = String x (a +:+ b +:+ c))%string. by rewrite IH. Qed.

Lemma empty_append (s : string) : ("" +:+ s = s)%string.
Proof. done. Qed.

Lemma append_cancel (a s t : string) : (a +:+ s = a +:+ t)%string -> s = t.
Proof. induction a as [|c a IH]; [done|]. change (String c (a +:+ s) = String c (a +:+ t) -> s = t)%string. intros [= H]. by apply IH. Qed.

Lemma literal_prefix a b s t :
  (string_literal a +:+ s = string_literal b +:+ t)%string -> a = b /\ s = t.
Proof.
  unfold string_literal. rewrite !append_assoc. intros H%append_cancel. revert b H. induction a as [|c a IH]; intros [|d b]; cbn [string_body]; rewrite ?empty_append, ?append_assoc; intros H.
  - apply append_cancel in H. by subst.
  - symmetry in H. by apply escaped_not_quote in H.
  - by apply escaped_not_quote in H.
  - pose proof (f_equal unescape H) as E. rewrite !unescape_escaped in E. injection E as -> E.
    destruct (IH _ E) as [-> ->]. done.
Qed.

Lemma context_text s :
  json_dumps "," ":" true (JObj (map (fun kv => (kv.1, JStr kv.2)) (context_of s)))
  = ("{" +:+ string_literal "id" +:+ ":" +:+ string_literal (uuid_str (es_id s)) +:+ "," +:+ string_literal "owner" +:+ ":" +:+
     string_literal (es_owner_type s +:+ ":" +:+ uuid_str (es_owner_id s)) +:+ "," +:+ string_literal "provider" +:+ ":" +:+
     string_literal (es_provider s) +:+ "}")%string.
Proof.
  transitivity ("{" +:+ join "," [string_literal "id" +:+ ":" +:+ string_literal (uuid_str (es_id s));
    string_literal "owner" +:+ ":" +:+ string_literal (es_owner_type s +:+ ":" +:+ uuid_str (es_owner_id s));
    string_literal "provider" +:+ ":" +:+ string_literal (es_provider s)] +:+ "}")%string; [reflexivity|].
  cbn [join]. rewrite !append_assoc. reflexivity.
Qed.

(** Rows with the same associated data have the same identity, provider and owner. *)
Lemma context_inj s s' :
  json_dumps "," ":" true (JObj (map (fun kv => (kv.1, JStr kv.2)) (context_of s)))
  = json_dumps "," ":" true (JObj (map (fun kv => (kv.1, JStr kv.2)) (context_of s'))) -> context_of s = context_of s'.
Proof.
  rewrite !context_text. intros H. do 3 apply append_cancel in H. apply literal_prefix in H as [H1 H].
  do 3 apply append_cancel in H. apply literal_prefix in H as [H2 H]. do 3 apply append_cancel in H.
  apply literal_prefix in H as [H3 _]. unfold context_of. by rewrite H1, H2, H3.
Qed.

(** ** Blobs *)

Lemma unbyte_byte z : unbyte (byte z) = z mod 256.
Proof. unfold unbyte, byte. pose proof (Z.mod_pos_bound z 256). rewrite N_ascii_embedding by lia. lia. Qed.

Lemma header_roundtrip v rest : 1 <= v <= 0xFFFFFFFF -> unpack_header (pack_header FORMAT v ++ rest) = Some (FORMAT, v).
Proof.
  intros Hv. simpl. rewrite !unbyte_byte, !Z.shiftr_div_pow2, !Z.shiftl_mul_pow2 by lia. do 2 f_equal.
  change (2 ^ 24) with 16777216. change (2 ^ 16) with 65536. change (2 ^ 8) with 256.
  Z.to_euclidean_division_equations. lia.
Qed.

Lemma length_header f v : length (pack_header f v) = HEADER_SIZE.
Proof. done. Qed.

Definition kr_ok (k : Keyring) : Prop :=
  1 <= kr_current k <= 0xFFFFFFFF /\ is_Some (kr_keys k !! kr_current k).

Lemma max_version_in keys : keys <> ∅ -> (forall v x, keys !! v = Some x -> 1 <= v) -> is_Some (keys !! max_version keys).
Proof.
  intros Hne Hpos. unfold max_version.
  assert (Hl : forall l, Forall (fun v => 1 <= v) l -> l <> [] -> foldr Z.max 0 l ∈ l).
  { induction l as [|v l IH]; [done|]. intros [Hv Hl]%Forall_cons _. simpl. destruct l as [|w l]; [rewrite Z.max_l by (simpl; lia); by left|].
    specialize (IH Hl ltac:(done)). destruct (Z.max_spec v (foldr Z.max 0 (w :: l))) as [[_ ->]|[_ ->]]; [by right|by left]. }
  assert (Hin : foldr Z.max 0 (map fst (map_to_list keys)) ∈ map fst (map_to_list keys)).
  { apply Hl.
    - apply Forall_forall. intros v Hv. apply list_elem_of_fmap in Hv as ([v' x] & -> & Hx). apply elem_of_map_to_list in Hx. by eapply Hpos.
    - intros E. apply map_eq_nil in E. by apply map_to_list_empty_iff in E. }
  apply list_elem_of_fmap in Hin as ([v x] & E & Hx). apply elem_of_map_to_list in Hx. simpl in E. rewrite E. eauto.
Qed.

Lemma check_keys_range items u : check_keys items = Ok u -> forall v x, (v, x) ∈ items -> 1 <= v <= 0xFFFFFFFF.
Proof.
  induction items as [|[v k] items IH]; [by intros _ v x ?%elem_of_nil|]. simpl. destruct (_ && _) eqn:E; [|done]. simpl.
  destruct (_ =? _)%nat; [|done]. simpl. intros H w x [E'|Hin]%elem_of_cons; [simplify_eq; reflect_all; lia|by eapply IH].
Qed.

Lemma make_keyring_ok keys k : make_keyring keys = Ok k -> kr_keys k = keys /\ kr_ok k.
Proof.
  unfold make_keyring. destruct (bool_decide (keys = ∅)) eqn:He; [done|]. apply bool_decide_eq_false in He.
  destruct (check_keys (map_to_list keys)) eqn:Hv; [|done]. intros [= <-].
  assert (Hall : forall v x, keys !! v = Some x -> 1 <= v <= 0xFFFFFFFF).
  { intros v x Hx. eapply check_keys_range; [exact Hv|]. by apply elem_of_map_to_list. }
  split; [done|]. pose proof (max_version_in keys He (fun v x Hx => proj1 (Hall v x Hx))) as [x Hx].
  split; cbn; [by eapply Hall|eauto].
Qed.

Section laws.
Context {A : Aead} {Used : bytes -> Prop} {AL : AeadLaws A Used}.

(** Where the parts of a blob are. *)
Lemma blob_parts (header wn wrapped n ct : bytes) :
  length header = HEADER_SIZE -> length wn = NONCE_BYTES -> length wrapped = WRAPPED_BYTES -> length n = NONCE_BYTES ->
  let blob := header ++ wn ++ wrapped ++ n ++ ct in
  let rest := drop HEADER_SIZE blob in
  take HEADER_SIZE blob = header /\ take NONCE_BYTES rest = wn /\
  take WRAPPED_BYTES (drop NONCE_BYTES rest) = wrapped /\
  take NONCE_BYTES (drop WRAPPED_BYTES (drop NONCE_BYTES rest)) = n /\
  drop NONCE_BYTES (drop WRAPPED_BYTES (drop NONCE_BYTES rest)) = ct.
Proof.
  intros H1 H2 H3 H4. cbv zeta.
  by rewrite (take_app_length' header), (drop_app_length' header), (take_app_length' wn), (drop_app_length' wn),
    (take_app_length' wrapped), (drop_app_length' wrapped), (take_app_length' n), (drop_app_length' n).
Qed.

Definition aad_text (ctx : Context_) : bytes := chars (json_dumps "," ":" true (JObj (map (fun kv => (kv.1, JStr kv.2)) ctx))).

Lemma aad_context header s : aad_of header (context_of s) = Ok (header ++ aad_text (context_of s)).
Proof. reflexivity. Qed.

Lemma decrypt_encrypt k k' r p ctx blob :
  kr_ok k -> random_ok r -> kr_keys k' !! kr_current k = kr_keys k !! kr_current k -> encrypt k r p ctx = Ok blob ->
  key_version blob = Ok (kr_current k) /\ decrypt k' blob ctx = Ok p /\
  forall ctx' aad aad', aad_of (pack_header FORMAT (kr_current k)) ctx = Ok aad ->
    aad_of (pack_header FORMAT (kr_current k)) ctx' = Ok aad' -> Used aad -> Used aad' -> aad <> aad' ->
    decrypt k' blob ctx' = Err Unauthentic.
Proof.
  intros [Hv [master Hm]] (Hd & Hwn & Hn) Hk'. unfold encrypt. rewrite Hm in *. set (header := pack_header FORMAT (kr_current k)).
  destruct (aad_of header ctx) as [aad|] eqn:Ha; [|done]. cbn [mbind result_bind]. intros Hb.
  set (wrapped := aes_encrypt master (rd_wrap_nonce r) (rd_data_key r) aad) in Hb.
  set (ct := aes_encrypt (rd_data_key r) (rd_nonce r) p aad) in Hb.
  assert (E : blob = header ++ rd_wrap_nonce r ++ wrapped ++ rd_nonce r ++ ct) by congruence. rewrite E. clear Hb E.
  assert (Hw : length wrapped = WRAPPED_BYTES) by (unfold wrapped; rewrite aes_length, Hd; done).
  assert (Hver : key_version (header ++ rd_wrap_nonce r ++ wrapped ++ rd_nonce r ++ ct) = Ok (kr_current k)).
  { unfold key_version. rewrite (proj2 (Nat.ltb_ge _ _)); [|].
    - unfold header. by rewrite header_roundtrip.
    - rewrite !length_app, Hwn, Hw, Hn. unfold ct. rewrite aes_length. unfold MIN_BLOB, header. rewrite length_header. lia. }
  destruct (blob_parts header (rd_wrap_nonce r) wrapped (rd_nonce r) ct eq_refl Hwn Hw Hn) as (P1 & P2 & P3 & P4 & P5).
  assert (Hkey : valid_key_length (rd_data_key r) = true) by (unfold valid_key_length; by rewrite Hd).
  split; [exact Hver|]. unfold decrypt. rewrite Hver. cbn [mbind result_bind]. rewrite Hk'. cbv zeta. rewrite P1, P2, P3, P4, P5. split.
  - rewrite Ha. cbn [mbind result_bind]. unfold wrapped. rewrite aes_roundtrip, Hkey. unfold ct. by rewrite aes_roundtrip.
  - intros ctx' aad0 aad' E0 E' Hu Hu' Hne. rewrite E'. cbn [mbind result_bind]. unfold wrapped. rewrite aes_bound; [done| |done|]; congruence.
Qed.

(** The associated data of a row that a key version seals. *)
Definition row_aad (version : Z) (s : EncryptedSecret) : bytes := pack_header FORMAT version ++ aad_text (context_of s).

(** ** Histories *)

(** The table, the master keys the services have loaded, and what was last stored under each id. *)
Record Vault := mkVault { va_db : Secrets; va_keys : gmap Z bytes; va_plain : gmap uuid bytes }.

Definition vault0 (keys : gmap Z bytes) : Vault := mkVault (mkSecrets ∅ 0%N) keys ∅.

(** Secrets are stored, replaced and deleted; rotation adds a master key. *)
Inductive vstep (v : Vault) : Vault -> Prop :=
| vs_store k r provider owner_type owner_id p s d :
    make_keyring (va_keys v) = Ok k -> random_ok r -> store k r provider owner_type owner_id p (va_db v) = Ok (s, d) ->
    vstep v (mkVault d (va_keys v) (<[es_id s := p]> (va_plain v)))
| vs_replace k r id p d :
    make_keyring (va_keys v) = Ok k -> random_ok r -> replace k r id p (va_db v) = Ok (tt, d) ->
    vstep v (mkVault d (va_keys v) (<[id := p]> (va_plain v)))
| vs_delete id d :
    delete_secret id (va_db v) = Ok (tt, d) -> vstep v (mkVault d (va_keys v) (delete id (va_plain v)))
| vs_rotate version key k :
    va_keys v !! version = None -> make_keyring (<[version := key]> (va_keys v)) = Ok k ->
    vstep v (mkVault (va_db v) (<[version := key]> (va_keys v)) (va_plain v)).

Record secret_ok (v : Vault) (id : uuid) (s : EncryptedSecret) : Prop := {
  sk_id : es_id s = id;
  sk_old : (id < sd_fresh (va_db v))%N;
  sk_sealed : exists p k r, va_plain v !! id = Some p /\ kr_ok k /\ kr_keys k ⊆ va_keys v /\ random_ok r /\
    encrypt k r p (context_of s) = Ok (es_ciphertext s) /\ es_key_version s = kr_current k
}.
Definition VInv (v : Vault) : Prop := forall id s, sd_rows (va_db v) !! id = Some s -> secret_ok v id s.

Lemma sealed_ok k r p s s' :
  sealed k r p s = Ok s' -> context_of s' = context_of s /\ es_id s' = es_id s /\ encrypt k r p (context_of s') = Ok (es_ciphertext s') /\
    es_key_version s' = kr_current k.
Proof.
  unfold sealed. destruct (encrypt k r p (context_of s)) as [blob|] eqn:E; [|done]. cbn. intros [= <-]. split; [done|]. done.
Qed.

Lemma secret_other v v' id s :
  secret_ok v id s -> va_plain v' !! id = va_plain v !! id -> va_keys v ⊆ va_keys v' -> (sd_fresh (va_db v) <= sd_fresh (va_db v'))%N ->
  secret_ok v' id s.
Proof.
  intros [H1 H2 (p & k & r & Hp & Hk & Hsub & Hr & He & Hv)] Hplain Hkeys Hf. split; [done|lia|]. exists p, k, r.
  rewrite Hplain. split; [done|]. split; [done|]. split; [by etransitivity|done].
Qed.

Lemma vstep_ok v v' : VInv v -> vstep v v' -> VInv v'.
Proof.
  intros HI Hs. destruct Hs as [k r pr ot oi p s d Hk Hr Hst|k r id p d Hk Hr Hre|id d Hd|version key k Hn Hk].
  - unfold store, bind, get, lift in Hst. destruct (sealed _ _ _ _) as [s0|] eqn:Hse; [|done]. cbn in Hst.
    unfold guard in Hst. destruct (_ && _ && _); [|done]. cbn in Hst. injection Hst as <- <-. apply sealed_ok in Hse as (Hc & Hid & He & Hv).
    cbn in Hid. destruct (make_keyring_ok _ _ Hk) as [Hkk Hok]. intros i x. cbn. intros [[<- <-]|[Hne Hx]]%lookup_insert_Some.
    + split; [done|cbn; rewrite Hid; lia|]. exists p, k, r. cbn [va_plain va_keys]. rewrite lookup_insert_eq, Hkk. split_and!; done || reflexivity.
    + eapply secret_other; [by apply HI|cbn; by rewrite lookup_insert_ne|done|cbn; lia].
  - unfold replace, bind, get, lift in Hre. destruct (sd_rows (va_db v) !! id) as [s|] eqn:Hrow; [|done].
    destruct (sealed _ _ _ _) as [s0|] eqn:Hse; [|done]. cbn in Hre. unfold guard in Hre. destruct (fits_column _); [|done]. cbn in Hre. injection Hre as <-. apply sealed_ok in Hse as (Hc & Hid & He & Hv).
    destruct (make_keyring_ok _ _ Hk) as [Hkk Hok]. intros i x. cbn. intros [[<- <-]|[Hne Hx]]%lookup_insert_Some.
    + destruct (HI _ _ Hrow) as [H1 H2 _]. split; [congruence|done|]. exists p, k, r. cbn [va_plain va_keys]. rewrite lookup_insert_eq, Hkk. split_and!; done || reflexivity.
    + eapply secret_other; [by apply HI|cbn; by rewrite lookup_insert_ne|done|cbn; lia].
  - injection Hd as <-. intros i x. cbn. intros [Hne Hx]%lookup_delete_Some.
    eapply secret_other; [by apply HI|cbn; by rewrite lookup_delete_ne|done|cbn; lia].
  - intros i x Hx. eapply secret_other; [by apply HI|done|cbn; by apply insert_subseteq|cbn; lia].
Qed.

(** C13: A stored secret can be read back, and only as what it was stored for: over any history of
    storing, replacing, deleting and key rotation, the current keyring decrypts every row to the
    last plaintext stored in it, the column [key_version] is the version that sealed it, another
    provider's service is refused, and the ciphertext does not open in a row with another id,
    provider or owner. *)
Theorem secrets_kept keys v k id s :
  rtc vstep (vault0 keys) v -> make_keyring (va_keys v) = Ok k -> sd_rows (va_db v) !! id = Some s ->
  exists p, va_plain v !! id = Some p /\ load k id (es_provider s) (va_db v) = Ok p /\
    (forall other, other <> es_provider s -> load k id other (va_db v) = Err NotFound) /\
    key_version (es_ciphertext s) = Ok (es_key_version s) /\
    forall s', context_of s' <> context_of s -> Used (row_aad (es_key_version s) s) -> Used (row_aad (es_key_version s) s') ->
      decrypt k (es_ciphertext s) (context_of s') = Err Unauthentic.
Proof.
  intros Hs Hk Hrow. assert (HI : VInv v).
  { assert (H0 : VInv (vault0 keys)) by (intros i x Hx; cbn in Hx; done). clear Hk Hrow.
    induction Hs as [|v v1 v2 H _ IH]; [done|]. by apply IH, (vstep_ok v). }
  destruct (make_keyring_ok _ _ Hk) as [Hkk _]. destruct (HI _ _ Hrow) as [Hid _ (p & k0 & r & Hp & Hok & Hsub & Hr & He & Hv)].
  assert (Hkey : kr_keys k !! kr_current k0 = kr_keys k0 !! kr_current k0).
  { rewrite Hkk. destruct Hok as [_ [m Hm]]. rewrite Hm. exact (lookup_weaken _ _ _ _ Hm Hsub). }
  destruct (decrypt_encrypt k0 k r p (context_of s) _ Hok Hr Hkey He) as (Hver & Hdec & Hbad).
  exists p. split; [done|]. unfold load. rewrite Hrow, String.eqb_refl. split; [done|]. split.
  { intros other Hne. apply not_eq_sym, String.eqb_neq in Hne. by rewrite Hne. }
  rewrite Hv. split; [done|]. intros s' Hc Hu Hu'. eapply Hbad; [apply aad_context|apply aad_context|exact Hu|exact Hu'|].
  intros E%app_inv_head%chars_inj. by apply Hc, context_inj, symmetry.
Qed.
End laws.
