(* ===== verification/Inference.v ===== *)
(** * Inference in the model gateway ([model_gateway/inference.py], [credentials.py])

    Who may call which model, the cloud profile that answers, token budgets with the reservations of
    requests in flight, and the usage that is recorded.  The requests of the gateway process run
    concurrently: each code segment between two awaits is one step.  The model manager, the adapters
    and the providers are represented by their answers. *)

From S2P Require Import Prelude TimeUtil Json Redaction PyValue SchemaGuard States Jobs RunModel RunService Platform Capability Manifest SecretStore Pagination.
#[local] Open Scope Z_scope.

Definition CLOUD_PROVIDERS : list string := ["openai"; "anthropic"]%string.
Definition is_cloud (provider : string) : bool := existsb (String.eqb provider) CLOUD_PROVIDERS.

(** ** Cloud profiles and keys *)

Record ProviderProfile := mkProfileRow {
  pf_id : uuid;
  pf_provider : string;
  pf_encrypted_secret_id : option uuid;
  pf_allowed_models : Json;
  pf_budgets : Json;
  pf_enabled : bool;
  pf_status : string;
  pf_created_at : instant
}.

Record CloudProfile := mkCloudProfile {
  cp_provider : string;
  cp_profile_id : option uuid;
  cp_secret_id : option uuid;
  cp_allowed_models : list string;
  cp_budgets : list (string * Json)
}.

Definition from_row (row : ProviderProfile) : CloudProfile :=
  mkCloudProfile (pf_provider row) (Some (pf_id row)) (pf_encrypted_secret_id row)
    (match pf_allowed_models row with
     | JList l => omap (fun m => match m with JStr s => if String.eqb s "" then None else Some s | _ => None end) l
     | _ => []
     end)
    (match pf_budgets row with JObj o => o | _ => [] end).

(** A positive integer; anything else means unset. *)
Definition budget (name : string) (p : CloudProfile) : option Z :=
  match assoc name (cp_budgets p) with Some (JNum z) => if z <=? 0 then None else Some z | _ => None end.

(** [ORDER BY (status = CONNECTED first), created_at DESC, id DESC] *)
Definition preferred (a b : ProviderProfile) : bool :=
  let rank r := if String.eqb (pf_status r) "CONNECTED" then 0 else 1 in
  if rank a =? rank b then
    if pf_created_at a =? pf_created_at b then (pf_id b <=? pf_id a)%N else pf_created_at b <? pf_created_at a
  else rank a <? rank b.

Definition usable (provider : string) (row : ProviderProfile) : bool :=
  String.eqb (pf_provider row) provider && pf_enabled row && negb (String.eqb (pf_status row) "ERROR")
  && bool_decide (is_Some (pf_encrypted_secret_id row)).

(** [SecretStoreCredentials.profile] *)
Definition active_profile (provider : string) (rows : list ProviderProfile) : option CloudProfile :=
  if is_cloud provider then
    from_row <$> foldr (fun row best => match best with Some b => if preferred row b then Some row else Some b | None => Some row end)
                       None (filter (fun row => usable provider row = true) rows)
  else None.

(** The decrypted keys in memory, with their expiry. *)
Definition KeyCache := gmap uuid (text * instant).

Section credentials.
Context {A : Aead} (keyring : Keyring) (cache_time : Z).

(** [SecretStoreCredentials.api_key]: the key and the cache afterwards. *)
Definition api_key (provider : string) (profile : option CloudProfile) (cached : bool) (now : instant) (rows : list ProviderProfile)
    (db : Secrets) (cache : KeyCache) : option text * KeyCache :=
  if is_cloud provider then
    match (match profile with Some p => Some p | None => active_profile provider rows end) with
    | None => (None, cache)
    | Some p =>
        match cp_secret_id p with
        | None => (None, cache)
        | Some sid =>
            if negb (String.eqb (cp_provider p) provider) then (None, cache)
            else
              match cache !! sid with
              | Some (key, expires) =>
                  if cached && (now <? expires) then (Some key, cache)
                  else match load keyring sid provider db with
                       | Ok key => if utf8_valid key then (Some key, if 0 <? cache_time then <[sid := (key, now + cache_time)]> cache else cache)
                                   else (None, delete sid cache)
                       | Err _ => (None, delete sid cache)
                       end
              | None =>
                  match load keyring sid provider db with
                  | Ok key => if utf8_valid key then (Some key, if 0 <? cache_time then <[sid := (key, now + cache_time)]> cache else cache)
                              else (None, delete sid cache)
                  | Err _ => (None, delete sid cache)
                  end
              end
        end
    end
  else (None, cache).
End credentials.

(** ** Callers *)

(** [str(value)], the empty string when it is absent; of a list or a dict only the first character
    is modelled. *)
Definition text_of (v : option Json) : string :=
  match v with
  | None => "" | Some (JStr s) => s | Some JNull => "None" | Some (JBool true) => "True" | Some (JBool false) => "False"
  | Some (JNum z) => pretty z | Some (JList _) => "[" | Some (JObj _) => "{"
  end%string.

Definition or_default (v : option Json) (d : Json) : Json := match v with Some j => if truthy j then j else d | None => d end.

Record Caller := mkCaller {
  ca_holder_type : string;
  ca_holder_id : string;
  ca_capabilities : list string;
  ca_model_bindings : list (string * Json);
  ca_attempt : option Z
}.

Definition ACTIVE_RUN_STATES : list string := ["PREPARING"; "LOADING_MODEL"; "RUNNING"; "WAITING_INPUT"]%string.
Definition run_not_active : PlatformError := mkError "RUN_NOT_ACTIVE" 409 [].

Section callers.
Context {J : Jwt}.

(** [run_caller]: [get_run] answers [None] for a run the control API does not know. *)
Definition run_caller (token : Token) (signing_key : string) (now : instant) (get_run : string -> Result PlatformError (option Json))
    : Result PlatformError Caller :=
  match verify token signing_key now with
  | None => Err (mkError "UNAUTHENTICATED" 401 [])
  | Some claims =>
      run ← get_run (cl_run_id claims);
      match run with
      | None => Err run_not_active
      | Some run =>
          state ← at_key "state" run;
          if negb (match state with JStr s => existsb (String.eqb s) ACTIVE_RUN_STATES | _ => false end) then Err run_not_active
          else
            attempt ← at_key "currentAttempt" run;
            if negb (is_num (cl_attempt claims) (Some attempt)) || negb (is_str (cl_token_id claims) (jget "capabilityTokenId" run))
            then Err run_not_active
            else
              bindings ← match jget "modelBindings" (cl_resources claims) with
                         | None => Ok []
                         | Some v => if truthy v then match v with JObj o => Ok o | _ => Err UNEXPECTED end else Ok []
                         end;
              Ok (mkCaller "run" (cl_run_id claims) (cl_capabilities claims) bindings (Some (cl_attempt claims)))
      end
  end.

Definition chat_caller (session_id : string) : Caller := mkCaller "chat" session_id [] [] None.
Definition voice_caller (call_id : string) : Caller :=
  mkCaller "manual" ("voice:" +:+ unchars (take 64 (chars call_id)))%string [] [] None.

(** The second credential a client presents ([_client_kind]). *)
Inductive ClientKind := ChatClient | VoiceClient | NoClient.
#[export] Instance ClientKind_eq : EqDecision ClientKind.
Proof. solve_decision. Defined.

(** The caller of the route [llm_chat]: a token header, also an empty one, makes it a run. *)
Definition llm_caller (token : option Token) (kind : ClientKind) (body : Json) (signing_key : string) (now : instant)
    (get_run : string -> Result PlatformError (option Json)) : Result PlatformError Caller :=
  match token with
  | Some t => run_caller t signing_key now get_run
  | None =>
      match or_default (jget "holder" body) (JObj []) with
      | JObj o =>
          let id := or_default (assoc "id" o) JNull in
          let named typ := match assoc "type" o with Some (JStr t) => String.eqb t typ | _ => false end && truthy id in
          if bool_decide (kind = VoiceClient) && named "voice"%string then Ok (voice_caller (text_of (Some id)))
          else if bool_decide (kind <> ChatClient) || negb (named "chat"%string) then Err (mkError "UNAUTHENTICATED" 401 [])
          else Ok (chat_caller (text_of (Some id)))
      | _ => Err UNEXPECTED
      end
  end.
End callers.

(** ** Requests *)

Record ChatRequest := mkChatRequest {
  cr_messages : list (string * string);      (* role and content *)
  cr_max_output_tokens : Z;
  cr_temperature : option Json;
  cr_response_schema : option Json;
  cr_tools : list Json
}.

Record InferenceSettings := mkInferenceSettings {
  is_max_output_tokens : Z;
  is_per_run_token_limit : Z;
  is_daily_cloud_token_budget : Z;
  is_openai_models : list (string * string);
  is_anthropic_models : list (string * string);
  is_anthropic_default_model : string
}.

Definition not_null (v : option Json) : option Json := match v with Some JNull => None | _ => v end.
Definition invalid_messages : PlatformError := invalid "INVALID_MESSAGES" [].

Definition message_of (m : Json) : option (string * string) :=
  match jget "role" m, jget "content" m with
  | Some (JStr role), Some (JStr content) =>
      if existsb (String.eqb role) ["system"; "user"; "assistant"]%string then Some (role, content) else None
  | _, _ => None
  end.

(** [body.get("messages") or []] *)
Definition messages_of (body : Json) : Result PlatformError (list (string * string)) :=
  match jget "messages" body with
  | Some (JList ((_ :: _) as l)) => match mapM message_of l with Some ms => Ok ms | None => Err invalid_messages end
  | Some (JNum z) => if z =? 0 then Err invalid_messages else Err UNEXPECTED
  | Some (JBool true) => Err UNEXPECTED
  | _ => Err invalid_messages
  end.

(** [int(text)]: white space around, a sign, digits with single underscores between them. *)
Fixpoint digits_value (after_digit : bool) (acc : Z) (t : text) : option Z :=
  match t with
  | [] => if after_digit then Some acc else None
  | c :: t' =>
      if is_digit c then digits_value true (acc * 10 + (code c - 48)) t'
      else if (code c =? 95) && after_digit then digits_value false acc t'
      else None
  end.
Definition strip (t : text) : text :=
  let lead t := (take_all is_space t).2 in rev (lead (rev (lead t))).
Definition int_text (t : text) : option Z :=
  match strip t with
  | c :: t' =>
      if code c =? 45 then Z.opp <$> digits_value false 0 t'
      else if code c =? 43 then digits_value false 0 t'
      else digits_value false 0 (c :: t')
  | [] => None
  end.
Definition int_value (v : Json) : Result PlatformError Z :=
  match v with
  | JNum z => Ok z
  | JBool b => Ok (if b then 1 else 0)
  | JStr s => or_raise (int_text (chars s))
  | _ => Err UNEXPECTED
  end.

Definition list_value (v : Json) : Result PlatformError (list Json) :=
  match py_iter v with Some l => Ok l | None => Err UNEXPECTED end.

Section requests.
Context (st : InferenceSettings).

Definition chat_request (body : Json) : Result PlatformError ChatRequest :=
  messages ← messages_of body;
  max_tokens ← int_value (or_default (jget "maxOutputTokens" body) (JNum 1000));
  if negb ((1 <=? max_tokens) && (max_tokens <=? is_max_output_tokens st)) then Err (invalid "MAX_OUTPUT_TOKENS" [])
  else
    tools ← list_value (or_default (jget "tools" body) (JList []));
    Ok (mkChatRequest messages max_tokens (not_null (jget "temperature" body)) (not_null (jget "responseSchema" body)) tools).

Definition prompt_tokens (r : ChatRequest) : Z := foldr (fun m n => Z.of_nat (String.length m.2) + n) 0 (cr_messages r) / 4.
Definition estimate (r : ChatRequest) : Z := prompt_tokens r + cr_max_output_tokens r.

(** ** Routing *)

(** [s.split(".", 1)] *)
Fixpoint split_dot (s : string) : string * option string :=
  match s with
  | EmptyString => (EmptyString, None)
  | String c s' =>
      if (Ascii.N_of_ascii c =? 46)%N then (EmptyString, Some s')
      else let '(a, b) := split_dot s' in (String c a, b)
  end.

(** [_cloud_model] *)
Definition cloud_model (provider profile : string) (cloud : option CloudProfile) : Result PlatformError string :=
  let name := default EmptyString (split_dot profile).2 in
  let overrides := if String.eqb provider "openai" then is_openai_models st else is_anthropic_models st in
  let allowed := match cloud with Some c => cp_allowed_models c | None => [] end in
  let model := assoc name overrides in
  let model := match model with
               | Some m => Some m
               | None =>
                   if String.eqb name "default" then
                     match allowed with
                     | m :: _ => Some m
                     | [] => if String.eqb provider "anthropic" then Some (is_anthropic_default_model st) else None
                     end
                   else None
               end in
  let model := match model with Some m => Some m | None => if existsb (String.eqb name) allowed then Some name else None end in
  match model with
  | None => Err (mkError "NEEDS_CONFIGURATION" 409 [("provider", JStr provider); ("profile", JStr profile)]%string)
  | Some m =>
      if bool_decide (allowed <> []) && negb (existsb (String.eqb m) allowed)
      then Err (mkError "PERMISSION_DENIED" 403 [("provider", JStr provider); ("model", JStr m)]%string)
      else Ok m
  end.

Definition is_run (caller : Caller) : bool := String.eqb (ca_holder_type caller) "run".
Definition may (caller : Caller) (cap : string) : bool := existsb (String.eqb cap) (ca_capabilities caller).

(** The variant a family is bound to; a binding that is not a string is not a model. *)
Definition bound_variant (caller : Caller) (profile : string) : Result PlatformError string :=
  match assoc profile DEFAULT_VARIANTS with
  | None => Ok profile
  | Some variant =>
      match or_default (assoc profile (ca_model_bindings caller)) (JStr variant) with
      | JStr v => Ok v
      | _ => Err UNEXPECTED
      end
  end.

(** [_resolve]: the provider and the local model or the cloud model. *)
Definition resolve (caller : Caller) (profile : string) (cloud : option CloudProfile) : Result PlatformError (string * string) :=
  let provider := (split_dot profile).1 in
  if String.eqb provider "local" then
    variant ← bound_variant caller profile;
    if is_run caller && negb (may caller ("llm.profile:" +:+ variant)) then Err (capability_denied ("llm.profile:" +:+ variant))
    else Ok ("local"%string, variant)
  else if is_cloud provider then
    if negb (is_run caller) then Err (permission_denied [])
    else if negb (may caller ("cloud." +:+ provider)) then Err (capability_denied ("cloud." +:+ provider))
    else if negb (may caller ("llm.profile:" +:+ profile)) then Err (capability_denied ("llm.profile:" +:+ profile))
    else model ← cloud_model provider profile cloud; Ok (provider, model)
  else Err (invalid "UNKNOWN_MODEL_PROFILE" []).
End requests.

(** ** Usage and budgets *)

Record LlmUsage := mkUsage {
  us_day : Z;
  us_provider : string;
  us_model : string;
  us_holder_type : string;
  us_holder_id : string;
  us_input_tokens : Z;
  us_output_tokens : Z;
  us_latency_ms : Z;
  us_outcome : string;
  us_request_id : option string
}.

Record ChatResult := mkChatResult {
  rs_text : string;
  rs_finish_reason : string;
  rs_provider : string;
  rs_model : string;
  rs_input_tokens : Z;
  rs_output_tokens : Z;
  rs_latency_ms : Z;
  rs_request_id : option string;
  rs_structured : option Json;
  rs_structured_error : bool;
  rs_refusal_category : option string;
  rs_ignored_parameters : list string
}.

(** The tables, the reservations of the process and the day. *)
Record Ledger := mkLedger {
  ld_usage : list LlmUsage;
  ld_audit : list AuditEvent;
  ld_reserved : gmap (string * string) Z;
  ld_reserved_provider : gmap string Z;
  ld_today : Z
}.
#[export] Instance eta_Ledger : Eta Ledger := fun l =>
  mkLedger (ld_usage l) (ld_audit l) (ld_reserved l) (ld_reserved_provider l) (ld_today l).

Record Prepared := mkPrepared {
  pr_caller : Caller;
  pr_request : ChatRequest;
  pr_profile : string;
  pr_provider : string;
  pr_target : string;
  pr_reserved : Z;
  pr_cloud : option CloudProfile
}.

Definition us_tokens (u : LlmUsage) : Z := us_input_tokens u + us_output_tokens u.
Definition used (p : LlmUsage -> bool) (l : Ledger) : Z := foldr (fun u n => us_tokens u + n) 0 (List.filter p (ld_usage l)).

Definition by_run (id : string) (u : LlmUsage) : bool := String.eqb (us_holder_type u) "run" && String.eqb (us_holder_id u) id.
Definition by_provider (provider : string) (u : LlmUsage) : bool := String.eqb (us_provider u) provider.
Definition on_day (day : Z) (u : LlmUsage) : bool := us_day u =? day.

Definition holder (c : Caller) : string * string := (ca_holder_type c, ca_holder_id c).
Definition reserved_by (l : Ledger) (c : Caller) : Z := default 0 (ld_reserved l !! holder c).
Definition reserved_at (l : Ledger) (provider : string) : Z := default 0 (ld_reserved_provider l !! provider).

Section budgets.
Context (st : InferenceSettings).

(** One query of [_check_budgets], the reservations it adds and the limit it compares with. *)
Record Check := mkCheck {
  ck_used : Ledger -> Z;
  ck_reserved : Ledger -> Z;
  ck_limit : Z;
  ck_error : PlatformError
}.

Definition run_limit_check (p : Prepared) : option Check :=
  let c := pr_caller p in
  if is_run c then
    Some (mkCheck (used (by_run (ca_holder_id c))) (fun l => reserved_by l c) (is_per_run_token_limit st)
            (mkError "RUN_TOKEN_BUDGET_EXCEEDED" 429 []))
  else None.

Definition provider_run_check (p : Prepared) : option Check :=
  let c := pr_caller p in
  match (if is_cloud (pr_provider p) && is_run c then pr_cloud p ≫= budget "perRunTokens" else None) with
  | Some per_run =>
      Some (mkCheck (used (fun u => by_run (ca_holder_id c) u && by_provider (pr_provider p) u)) (fun l => reserved_by l c) per_run
              (mkError "RUN_TOKEN_BUDGET_EXCEEDED" 429 [("provider", JStr (pr_provider p)); ("limit", JStr "perRunTokens")]%string))
  | None => None
  end.

(** The smallest positive daily limit. *)
Definition daily_limit (p : Prepared) : option Z :=
  let limits := List.filter (fun v => 0 <? v)
    (is_daily_cloud_token_budget st :: match pr_cloud p ≫= budget "dailyTokens" with Some v => [v] | None => [] end) in
  match limits with [] => None | v :: vs => Some (foldr Z.min v vs) end.

Definition used_today (provider : string) (l : Ledger) : Z := used (fun u => by_provider provider u && on_day (ld_today l) u) l.

Definition daily_check (p : Prepared) : option Check :=
  match (if is_cloud (pr_provider p) then daily_limit p else None) with
  | Some limit =>
      Some (mkCheck (used_today (pr_provider p)) (fun l => reserved_at l (pr_provider p)) limit
              (mkError "CLOUD_BUDGET_EXCEEDED" 429 [("provider", JStr (pr_provider p)); ("limit", JStr "dailyTokens")]%string))
  | None => None
  end.

(** The [n]-th query, and whether what it returned leaves room. *)
Definition check_at (n : nat) (p : Prepared) : option Check :=
  match n with O => run_limit_check p | 1%nat => provider_run_check p | _ => daily_check p end.
Definition leaves_room (ck : Check) (seen : Z) (l : Ledger) : bool := seen + ck_reserved ck l <=? ck_limit ck.

Definition add_to {K} `{Countable K} (k : K) (n : Z) (m : gmap K Z) : gmap K Z := <[k := default 0 (m !! k) + n]> m.

(** [_reserve]; [_unreserve] is [_reserve] of the negated tokens. *)
Definition reserve (c : Caller) (provider : string) (tokens : Z) (l : Ledger) : Ledger :=
  l <| ld_reserved ::= add_to (holder c) tokens |> <| ld_reserved_provider ::= add_to provider tokens |>.
Definition unreserve (p : Prepared) (l : Ledger) : Ledger := reserve (pr_caller p) (pr_provider p) (- pr_reserved p) l.

(** [prepare] up to the budget checks; [profiles] are the rows the credentials provider reads. *)
Definition prepare (caller : Caller) (body : Json) (profiles : list ProviderProfile) (l : Ledger) : Result PlatformError (Prepared * Ledger) :=
  let profile := text_of (jget "profile" body) in
  request ← chat_request st body;
  let provider := (split_dot profile).1 in
  let cloud := if is_run caller && is_cloud provider then active_profile provider profiles else None in
  routed ← resolve st caller profile cloud;
  let tokens := estimate request in
  Ok (mkPrepared caller request profile routed.1 routed.2 tokens cloud, reserve caller routed.1 tokens l).

(** ** Recording *)

Record Draft := mkDraft { df_result : option ChatResult; df_model : string; df_outcome : string; df_latency : Z }.

Definition record_usage (p : Prepared) (d : Draft) (l : Ledger) : Ledger :=
  let c := pr_caller p in
  let tokens f := match df_result d with Some r => f r | None => 0 end in
  let request_id := df_result d ≫= rs_request_id in
  let l := l <| ld_usage ::= fun us => us ++ [mkUsage (ld_today l) (pr_provider p) (df_model d) (ca_holder_type c) (ca_holder_id c)
                  (tokens rs_input_tokens) (tokens rs_output_tokens) (df_latency d) (df_outcome d) request_id] |> in
  if is_cloud (pr_provider p) then
    l <| ld_audit ::= fun au => au ++ [mkAudit "service" (Some (ca_holder_type c +:+ ":" +:+ ca_holder_id c)) "llm.cloud_call" (Some "provider")
           (Some (pr_provider p)) (if String.eqb (df_outcome d) "ok" then "success" else "failure")
           (redact (JObj [("model", JStr (df_model d)); ("outcome", JStr (df_outcome d)); ("requestId", opt_json JStr request_id)]))]%string |>
  else l.

(** [_finish]: the usage row of an answer, and the error it ends in. *)
Definition finish_draft (r : ChatResult) : Draft :=
  mkDraft (Some r) (rs_model r)
    (if String.eqb (rs_finish_reason r) "refusal" then "refused" else if rs_structured_error r then "invalid_output" else "ok")
    (rs_latency_ms r).
Definition finish_error (p : Prepared) (r : ChatResult) : option PlatformError :=
  if String.eqb (rs_finish_reason r) "refusal" then
    Some (mkError "MODEL_REFUSED" 422 [("category", opt_json JStr (rs_refusal_category r)); ("provider", JStr (pr_provider p))]%string)
  else if rs_structured_error r then Some (mkError "STRUCTURED_OUTPUT_INVALID" 502 [("provider", JStr (pr_provider p))]%string)
  else None.

(** [_record_partial] *)
Definition partial_draft (p : Prepared) (streamed : list string) (outcome : string) (latency : Z) : Draft :=
  mkDraft (Some (mkChatResult "" outcome (pr_provider p) (pr_target p) (prompt_tokens (pr_request p))
                   (Z.max (foldr (fun s n => Z.of_nat (String.length s) + n) 0 streamed / 4) (if bool_decide (streamed = []) then 0 else 1))
                   0 None None false None []))
    (pr_target p) outcome latency.

(** ** The requests of the process *)

Inductive Phase :=
| Checking (n : nat) (seen : option Z)  (* the n-th query of the budget check is made, or answered *)
| Acquiring                         (* the lease and the model, or the key of the profile *)
| Calling
| Recording (d : Draft) (held : bool)  (* the usage row is being written, with or without the reservation *)
| Recorded                          (* it is written, the reservation not yet dropped *)
| Finished (e : option PlatformError).

Record Inflight := mkInflight { rq_prepared : Prepared; rq_stream : bool; rq_phase : Phase; rq_error : option PlatformError }.

Record Service := mkService { sv_ledger : Ledger; sv_requests : list Inflight }.

(** What the adapter's call comes to; a stream has yielded texts before it failed. *)
Inductive Reply :=
| Answered (r : ChatResult)
| ProviderFails (e : PlatformError) (streamed : list string) (latency : Z)
| CallCancelled (streamed : list string) (latency : Z)
| OtherException.

Inductive Event :=
| Arrives (stream : bool) (caller : Caller) (body : Json) (profiles : list ProviderProfile)
| Checks (i : nat)
| Acquires (i : nat) (failure : option PlatformError)
| Breaks (i : nat)                  (* an exception or a cancellation before the call *)
| Replies (i : nat) (r : Reply)
| Records (i : nat)
| RecordFails (i : nat)             (* the usage row cannot be written *)
| Releases (i : nat)
| Midnight (day : Z).

Definition with_phase (q : Inflight) (ph : Phase) : Inflight := mkInflight (rq_prepared q) (rq_stream q) ph (rq_error q).
Definition put (sv : Service) (i : nat) (q : Inflight) (l : Ledger) : Service := mkService l (<[i := q]> (sv_requests sv)).
Definition drops (sv : Service) (i : nat) (q : Inflight) (e : option PlatformError) : Service :=
  put sv i (with_phase q (Finished e)) (unreserve (rq_prepared q) (sv_ledger sv)).

(** A query is made; or its answer is compared with the reservations of that moment. *)
Definition run_check (n : nat) (seen : option Z) (p : Prepared) (l : Ledger) : option PlatformError * Phase :=
  let next := if (n <? 2)%nat then Checking (S n) None else Acquiring in
  match check_at n p, seen with
  | None, _ => (None, next)
  | Some ck, None => (None, Checking n (Some (ck_used ck l)))
  | Some ck, Some u => if leaves_room ck u l then (None, next) else (Some (ck_error ck), next)
  end.

Definition before_call (ph : Phase) : bool := match ph with Checking _ _ | Acquiring => true | _ => false end.

(** The end of [chat] and of [stream]: [chat] drops the reservation before it records an answer. *)
Definition on_answer (sv : Service) (i : nat) (q : Inflight) (r : ChatResult) : Service :=
  let p := rq_prepared q in
  let q' := mkInflight p (rq_stream q) (Recording (finish_draft r) (rq_stream q)) (finish_error p r) in
  put sv i q' (if rq_stream q then sv_ledger sv else unreserve p (sv_ledger sv)).

Definition on_reply (sv : Service) (i : nat) (q : Inflight) (r : Reply) : Service :=
  let p := rq_prepared q in
  match r with
  | Answered r => on_answer sv i q r
  | ProviderFails e streamed latency =>
      let d := if rq_stream q then partial_draft p streamed (err_code e) latency else mkDraft None (pr_target p) (err_code e) latency in
      put sv i (mkInflight p (rq_stream q) (Recording d true) (Some e)) (sv_ledger sv)
  | CallCancelled streamed latency =>
      if rq_stream q then put sv i (mkInflight p true (Recording (partial_draft p streamed "cancelled" latency) true) (Some UNEXPECTED)) (sv_ledger sv)
      else drops sv i q (Some UNEXPECTED)
  | OtherException => drops sv i q (Some UNEXPECTED)
  end.

Definition step (ev : Event) (sv : Service) : option Service :=
  let at_request i (k : Inflight -> option Service) := match sv_requests sv !! i with Some q => k q | None => None end in
  match ev with
  | Arrives stream caller body profiles =>
      match prepare caller body profiles (sv_ledger sv) with
      | Ok (p, l) => Some (mkService l (sv_requests sv ++ [mkInflight p stream (Checking 0 None) None]))
      | Err _ => Some sv
      end
  | Checks i => at_request i (fun q =>
      match rq_phase q with
      | Checking n seen =>
          match run_check n seen (rq_prepared q) (sv_ledger sv) with
          | (None, ph) => Some (put sv i (with_phase q ph) (sv_ledger sv))
          | (Some e, _) => Some (drops sv i q (Some e))
          end
      | _ => None
      end)
  | Acquires i failure => at_request i (fun q =>
      match rq_phase q, failure with
      | Acquiring, None => Some (put sv i (with_phase q Calling) (sv_ledger sv))
      | Acquiring, Some e => Some (drops sv i q (Some e))
      | _, _ => None
      end)
  | Breaks i => at_request i (fun q => if before_call (rq_phase q) then Some (drops sv i q (Some UNEXPECTED)) else None)
  | Replies i r => at_request i (fun q => match rq_phase q with Calling => Some (on_reply sv i q r) | _ => None end)
  | Records i => at_request i (fun q =>
      match rq_phase q with
      | Recording d held => Some (put sv i (with_phase q (if held then Recorded else Finished (rq_error q))) (record_usage (rq_prepared q) d (sv_ledger sv)))
      | _ => None
      end)
  | RecordFails i => at_request i (fun q =>
      match rq_phase q with
      | Recording d true => Some (drops sv i q (Some UNEXPECTED))
      | Recording d false => Some (put sv i (with_phase q (Finished (Some UNEXPECTED))) (sv_ledger sv))
      | _ => None
      end)
  | Releases i => at_request i (fun q => match rq_phase q with Recorded => Some (drops sv i q (rq_error q)) | _ => None end)
  | Midnight day => if ld_today (sv_ledger sv) <? day then Some (mkService (sv_ledger sv <| ld_today := day |>) (sv_requests sv)) else None
  end.
End budgets.

Definition service0 (today : Z) : Service := mkService (mkLedger [] [] ∅ ∅ today) [].
