(* ===== verification/InferenceProps.v ===== *)
(** * Theorems about inference in the model gateway

    Token budgets over concurrent requests, and who is routed where. *)

From S2P Require Import Prelude TimeUtil Json Redaction PyValue SchemaGuard States Jobs RunModel RunService Platform Capability Manifest SecretStore Pagination Inference.
#[local] Open Scope Z_scope.

(** ** Sums over the requests *)

Definition total {A} (f : A -> Z) (l : list A) : Z := foldr (fun x n => f x + n) 0 l.

Lemma tokens_app {A} (f : A -> Z) l l' : total f (l ++ l') = total f l + total f l'.
Proof. induction l as [|x l IH]; simpl; [done|]. fold (total f l). unfold total in *. simpl. rewrite IH. lia. Qed.

Lemma total_one {A} (f : A -> Z) x : total f [x] = f x.
Proof. unfold total. simpl. lia. Qed.

Lemma total_insert {A} (f : A -> Z) l i x y : l !! i = Some x -> total f (<[i := y]> l) = total f l - f x + f y.
Proof.
  revert i. induction l as [|z l IH]; intros [|i]; simpl; try done.
  - intros [= ->]. lia.
  - intros H. specialize (IH _ H). unfold total in *. rewrite IH. lia.
Qed.

Lemma total_mono {A} (f g : A -> Z) l : Forall (fun x => f x <= g x) l -> total f l <= total g l.
Proof. induction 1; simpl; lia. Qed.

Lemma tokens_nonneg {A} (f : A -> Z) l : Forall (fun x => 0 <= f x) l -> 0 <= total f l.
Proof. induction 1; simpl; lia. Qed.

Definition draft_tokens (d : Draft) : Z := match df_result d with Some r => rs_input_tokens r + rs_output_tokens r | None => 0 end.

(** No usage row is of a later day, and none has negative tokens. *)
Definition rows_ok (l : Ledger) : Prop := Forall (fun u => us_day u <= ld_today l /\ 0 <= us_tokens u) (ld_usage l).

Lemma used_app p l us : used p (l <| ld_usage ::= fun old => old ++ us |>) = used p l + total us_tokens (List.filter p us).
Proof. unfold used. cbn. rewrite List.filter_app. apply tokens_app. Qed.

(** The usage row of a request. *)
Definition row_of (p : Prepared) (d : Draft) (l : Ledger) : LlmUsage :=
  let tokens f := match df_result d with Some r => f r | None => 0 end in
  mkUsage (ld_today l) (pr_provider p) (df_model d) (ca_holder_type (pr_caller p)) (ca_holder_id (pr_caller p))
    (tokens rs_input_tokens) (tokens rs_output_tokens) (df_latency d) (df_outcome d) (df_result d ≫= rs_request_id).

Lemma record_usage_fields p d l :
  ld_usage (record_usage p d l) = ld_usage l ++ [row_of p d l] /\ ld_reserved (record_usage p d l) = ld_reserved l /\
  ld_reserved_provider (record_usage p d l) = ld_reserved_provider l /\ ld_today (record_usage p d l) = ld_today l.
Proof. unfold record_usage. cbv zeta. by destruct (is_cloud (pr_provider p)). Qed.

Lemma row_tokens p d l : us_tokens (row_of p d l) = draft_tokens d.
Proof. unfold us_tokens, row_of, draft_tokens. cbn. by destruct (df_result d). Qed.

Lemma used_record p d l f : used f (record_usage p d l) = used f l + if f (row_of p d l) then draft_tokens d else 0.
Proof.
  destruct (record_usage_fields p d l) as (E & _). unfold used. rewrite E, List.filter_app.
  change (total us_tokens (List.filter f (ld_usage l) ++ List.filter f [row_of p d l]) = total us_tokens (List.filter f (ld_usage l)) + if f (row_of p d l) then draft_tokens d else 0).
  rewrite tokens_app. simpl. destruct (f (row_of p d l)); simpl; rewrite ?row_tokens; lia.
Qed.

(** ** One budget *)

#[local] Arguments total : simpl never.

Definition competes (p p' : Prepared) : Prop := holder (pr_caller p) = holder (pr_caller p') \/ pr_provider p = pr_provider p'.

Section budget.
Context (st : InferenceSettings) (k : nat) (sel : Prepared -> bool) (spent resv : Ledger -> Z) (limit : Z).

(** The [k]-th query guards this budget for the requests that [sel] chooses. *)
Record Guards : Prop := {
  gd_check : forall p, sel p = true -> exists ck, check_at st k p = Some ck /\ (forall l, ck_used ck l = spent l) /\
    (forall l, ck_reserved ck l = resv l) /\ ck_limit ck <= limit;
  gd_competes : forall p p', sel p = true -> sel p' = true -> competes p p';
  gd_reserve : forall p t l, resv (reserve (pr_caller p) (pr_provider p) t l) = resv l + (if sel p then t else 0) /\
    spent (reserve (pr_caller p) (pr_provider p) t l) = spent l;
  gd_record : forall p d l, resv (record_usage p d l) = resv l /\ spent (record_usage p d l) = spent l + (if sel p then draft_tokens d else 0);
  gd_day : forall l day, rows_ok l -> ld_today l < day -> resv (l <| ld_today := day |>) = resv l /\ spent (l <| ld_today := day |>) <= spent l
}.
Context (HG : Guards) (Hk : (k <= 2)%nat).

(** The reservation of a request, and what may still be spent for it, once its check is passed. *)
Definition held (q : Inflight) : Z :=
  if sel (rq_prepared q) then match rq_phase q with Recording _ false | Finished _ => 0 | _ => pr_reserved (rq_prepared q) end else 0.
Definition due (q : Inflight) : Z :=
  if sel (rq_prepared q) then
    match rq_phase q with
    | Checking n _ => if (k <? n)%nat then pr_reserved (rq_prepared q) else 0
    | Acquiring | Calling | Recording _ true => pr_reserved (rq_prepared q)
    | Recording d false => draft_tokens d
    | Recorded | Finished _ => 0
    end
  else 0.

Definition request_ok (q : Inflight) : Prop :=
  0 <= pr_reserved (rq_prepared q) /\
  match rq_phase q with
  | Checking n _ => (n <= 2)%nat
  | Recording d h => 0 <= draft_tokens d <= pr_reserved (rq_prepared q)
  | _ => True
  end.

Record BInv (sv : Service) : Prop := {
  bi_rows : rows_ok (sv_ledger sv);
  bi_requests : Forall request_ok (sv_requests sv);
  bi_resv : resv (sv_ledger sv) = total held (sv_requests sv);
  bi_budget : spent (sv_ledger sv) + total due (sv_requests sv) <= limit
}.

Lemma due_nonneg q : request_ok q -> 0 <= due q.
Proof. intros [H1 H2]. unfold due. destruct (sel _); [|done]. destruct (rq_phase q) as [n seen| | |d []| |]; try done; [by destruct (k <? n)%nat|lia]. Qed.

(** One request moves to a phase in which it may not spend more. *)
Lemma request_put_ok sv i q q' l :
  BInv sv -> sv_requests sv !! i = Some q -> request_ok q' -> rows_ok l ->
  resv l = resv (sv_ledger sv) - held q + held q' -> spent l + due q' <= spent (sv_ledger sv) + due q -> BInv (put sv i q' l).
Proof.
  intros [H1 H2 H3 H4] Hq Hok Hl Hr Hs. split; cbn; [done| | |].
  - by apply Forall_insert.
  - rewrite (total_insert _ _ _ q) by done. lia.
  - rewrite (total_insert _ _ _ q) by done. lia.
Qed.

Lemma rows_reserve c p t l : rows_ok l -> rows_ok (reserve c p t l).
Proof. done. Qed.

Lemma rows_record p d l : rows_ok l -> 0 <= draft_tokens d -> rows_ok (record_usage p d l).
Proof.
  intros H Hd. destruct (record_usage_fields p d l) as (E & _ & _ & Et). unfold rows_ok. rewrite E, Et. apply Forall_app. split; [done|].
  apply Forall_singleton. split; [done|]. by rewrite row_tokens.
Qed.

(** A request that holds its reservation gives it back. *)
Lemma drops_ok sv i q e :
  BInv sv -> sv_requests sv !! i = Some q -> held q = (if sel (rq_prepared q) then pr_reserved (rq_prepared q) else 0) -> BInv (drops sv i q e).
Proof.
  intros HI Hq Hh. pose proof (proj1 (Forall_lookup _ _) (bi_requests _ HI) i q Hq) as Hok. pose proof (due_nonneg q Hok).
  destruct (gd_reserve HG (rq_prepared q) (- pr_reserved (rq_prepared q)) (sv_ledger sv)) as [E1 E2].
  apply (request_put_ok sv i q); [done|done|by destruct Hok|by apply rows_reserve, bi_rows| |].
  - unfold unreserve. rewrite E1, Hh. unfold held. cbn. destruct (sel _); lia.
  - unfold unreserve. rewrite E2. unfold due at 1. cbn. destruct (sel _); lia.
Qed.

(** A request moves on and keeps its reservation. *)
Lemma move_ok sv i q ph :
  BInv sv -> sv_requests sv !! i = Some q -> request_ok (with_phase q ph) -> held (with_phase q ph) = held q -> due (with_phase q ph) <= due q ->
  BInv (put sv i (with_phase q ph) (sv_ledger sv)).
Proof. intros HI Hq Hok Hh Hd. apply (request_put_ok sv i q); [done|done|done|apply HI|lia|lia]. Qed.

(** What an orderly history excludes: that the usage a check has read is out of date, or lacks the
    row of a chat whose reservation is gone; and calls that use more than was reserved. *)
Definition tame (ev : Event) (sv sv' : Service) : Prop :=
  match ev with
  | Checks i => forall q n u ck, sv_requests sv !! i = Some q -> rq_phase q = Checking n (Some u) -> check_at st n (rq_prepared q) = Some ck ->
      u = ck_used ck (sv_ledger sv) /\
      forall q' d, q' ∈ sv_requests sv -> rq_phase q' = Recording d false -> ~ competes (rq_prepared q) (rq_prepared q')
  | Replies i _ => forall q' d h, sv_requests sv' !! i = Some q' -> rq_phase q' = Recording d h ->
      0 <= draft_tokens d <= pr_reserved (rq_prepared q')
  | _ => True
  end.

(** The guarding check is passed: everything due is reserved, so it fits. *)
Lemma pass_ok sv i q u ck ph :
  BInv sv -> sv_requests sv !! i = Some q -> rq_phase q = Checking k (Some u) -> sel (rq_prepared q) = true ->
  check_at st k (rq_prepared q) = Some ck -> leaves_room ck u (sv_ledger sv) = true -> tame (Checks i) sv sv ->
  request_ok (with_phase q ph) -> held (with_phase q ph) = held q -> due (with_phase q ph) <= held (with_phase q ph) ->
  BInv (put sv i (with_phase q ph) (sv_ledger sv)).
Proof.
  intros HI Hq Hph Hsel Hck Hroom Ht Hok Hh Hd. destruct (Ht q k u ck Hq Hph Hck) as [-> Hgap].
  destruct (gd_check HG _ Hsel) as (ck' & Hck' & Hu & Hr & Hl). rewrite Hck in Hck'. injection Hck' as <-.
  unfold leaves_room in Hroom. apply Z.leb_le in Hroom. rewrite Hu, Hr in Hroom.
  pose proof HI as [H1 H2 H3 H4]. split; cbn; [done|by apply Forall_insert|by rewrite (total_insert _ _ _ q), Hh by done; lia|].
  assert (Hle : total due (<[i := with_phase q ph]> (sv_requests sv)) <= total held (<[i := with_phase q ph]> (sv_requests sv))).
  { apply total_mono, Forall_insert; [|done]. apply Forall_forall. intros q' Hq'. unfold due, held.
    destruct (sel (rq_prepared q')) eqn:Hs'; [|lia]. rewrite Forall_forall in H2. destruct (H2 q' Hq') as [Hp _].
    destruct (rq_phase q') as [n seen| | |d []| |] eqn:Hp'; try lia; [destruct (k <? n)%nat; lia|].
    exfalso. exact (Hgap q' d Hq' Hp' (gd_competes HG _ _ Hsel Hs')). }
  rewrite (total_insert held _ _ q), Hh in Hle by done. lia.
Qed.

Lemma prepare_reserves caller body profiles l p l' :
  prepare st caller body profiles l = Ok (p, l') -> l' = reserve (pr_caller p) (pr_provider p) (pr_reserved p) l /\ 0 <= pr_reserved p.
Proof.
  unfold prepare. destruct (chat_request st body) as [r|] eqn:Er; [|done]. cbn [mbind result_bind].
  destruct (resolve st caller _ _) as [routed|]; [|done]. cbn [mbind result_bind]. intros [= <- <-]. split; [done|]. cbn.
  unfold chat_request in Er. destruct (messages_of body) as [ms|]; [|done]. cbn [mbind result_bind] in Er.
  destruct (int_value _) as [n|]; [|done]. cbn [mbind result_bind] in Er. destruct (_ && _) eqn:En; [|done]. cbn [negb] in Er.
  destruct (list_value _) as [ts|]; [|done]. cbn [mbind result_bind] in Er. injection Er as <-. reflect_all. unfold estimate, prompt_tokens. cbn.
  assert (0 <= foldr (fun m n => Z.of_nat (String.length m.2) + n) 0 ms) by (induction ms; simpl; lia).
  pose proof (Z.div_pos (foldr (fun m n => Z.of_nat (String.length m.2) + n) 0 ms) 4). lia.
Qed.

Lemma arrives_ok sv stream p l' :
  BInv sv -> l' = reserve (pr_caller p) (pr_provider p) (pr_reserved p) (sv_ledger sv) -> 0 <= pr_reserved p ->
  BInv (mkService l' (sv_requests sv ++ [mkInflight p stream (Checking 0 None) None])).
Proof.
  intros [H1 H2 H3 H4] -> Hp. destruct (gd_reserve HG p (pr_reserved p) (sv_ledger sv)) as [E1 E2]. split; cbn [sv_ledger sv_requests].
  - by apply rows_reserve.
  - apply Forall_app. split; [done|]. apply Forall_singleton. split; cbn; [done|lia].
  - rewrite tokens_app, total_one, E1, H3. unfold held at 3. cbn. lia.
  - rewrite tokens_app, total_one, E2. unfold due at 2. cbn. destruct (sel p); lia.
Qed.

Lemma checks_ok sv i q n seen :
  BInv sv -> sv_requests sv !! i = Some q -> rq_phase q = Checking n seen -> tame (Checks i) sv sv ->
  match run_check st n seen (rq_prepared q) (sv_ledger sv) with
  | (None, ph) => BInv (put sv i (with_phase q ph) (sv_ledger sv))
  | (Some e, _) => BInv (drops sv i q (Some e))
  end.
Proof.
  intros HI Hq Hph Ht. pose proof (proj1 (Forall_lookup _ _) (bi_requests _ HI) i q Hq) as [Hp Hn]. rewrite Hph in Hn.
  set (next := if (n <? 2)%nat then Checking (S n) None else Acquiring).
  assert (Hnext : request_ok (with_phase q next) /\ held (with_phase q next) = held q /\ due (with_phase q next) <= held (with_phase q next) /\
    (n <> k -> due (with_phase q next) <= due q)).
  { unfold next, request_ok, held, due, with_phase. cbn [rq_prepared rq_phase]. rewrite Hph.
    destruct (Nat.ltb_spec n 2); destruct (sel (rq_prepared q)), (Nat.ltb_spec k n), (Nat.ltb_spec k (S n)); lia. }
  destruct Hnext as (N1 & N2 & N3 & N4). unfold run_check. fold next.
  assert (Hskip : (sel (rq_prepared q) = true -> n <> k) -> BInv (put sv i (with_phase q next) (sv_ledger sv))).
  { intros Hs. apply move_ok; [done|done|done|done|]. destruct (sel (rq_prepared q)) eqn:E; [by apply N4, Hs|]. unfold due, with_phase; cbn. by rewrite E. }
  destruct (check_at st n (rq_prepared q)) as [ck|] eqn:Hck.
  - destruct seen as [u|].
    + destruct (leaves_room ck u (sv_ledger sv)) eqn:Hroom; [|apply drops_ok; [done|done|unfold held; rewrite Hph; done]].
      destruct (sel (rq_prepared q)) eqn:Hs; [|apply Hskip; done]. destruct (decide (n = k)) as [->|Hne]; [|by apply Hskip].
      by eapply pass_ok.
    + apply move_ok; [done|done| | |]; unfold request_ok, held, due; cbn; rewrite ?Hph; done.
  - apply Hskip. intros Hs ->. destruct (gd_check HG _ Hs) as (ck & E & _). congruence.
Qed.

Lemma replies_ok sv i q r :
  BInv sv -> sv_requests sv !! i = Some q -> rq_phase q = Calling -> tame (Replies i r) sv (on_reply sv i q r) -> BInv (on_reply sv i q r).
Proof.
  intros HI Hq Hph Ht. pose proof (proj1 (Forall_lookup _ _) (bi_requests _ HI) i q Hq) as [Hp _].
  assert (Hlt : (i < length (sv_requests sv))%nat) by by eapply lookup_lt_Some.
  assert (Hdrop : forall e, BInv (drops sv i q e)) by (intros e; apply drops_ok; [done|done|unfold held; by rewrite Hph]).
  assert (Hkeep : forall b d e, on_reply sv i q r = put sv i (mkInflight (rq_prepared q) b (Recording d true) e) (sv_ledger sv) -> BInv (on_reply sv i q r)).
  { intros b d e E. rewrite E in *. apply (request_put_ok sv i q); [done|done| |apply HI| |].
    - split; [done|]. cbn. eapply (Ht (mkInflight (rq_prepared q) b (Recording d true) e) d true); [cbn; by rewrite list_lookup_insert_eq|done].
    - unfold held. cbn. rewrite Hph. lia.
    - unfold due. cbn. rewrite Hph. lia. }
  destruct r as [r|e streamed latency|streamed latency|]; cbn [on_reply] in *; try by eapply Hkeep.
  - unfold on_answer in *. destruct (rq_stream q) eqn:Hst; [by eapply Hkeep|].
    assert (Hd : 0 <= draft_tokens (finish_draft r) <= pr_reserved (rq_prepared q)).
    { refine (Ht (mkInflight (rq_prepared q) false (Recording (finish_draft r) false) _) _ _ _ _); [cbn; rewrite list_lookup_insert_eq by done; reflexivity|done]. }
    destruct (gd_reserve HG (rq_prepared q) (- pr_reserved (rq_prepared q)) (sv_ledger sv)) as [E1 E2].
    apply (request_put_ok sv i q); [done|done|by split|by apply rows_reserve, HI| |].
    + unfold unreserve. rewrite E1. unfold held. cbn. rewrite Hph. destruct (sel _); lia.
    + unfold unreserve. rewrite E2. unfold due. cbn [rq_prepared rq_phase]. rewrite Hph. destruct (sel _); lia.
  - destruct (rq_stream q); [by eapply Hkeep|apply Hdrop].
  - apply Hdrop.
Qed.

Lemma records_ok sv i q d h :
  BInv sv -> sv_requests sv !! i = Some q -> rq_phase q = Recording d h ->
  BInv (put sv i (with_phase q (if h then Recorded else Finished (rq_error q))) (record_usage (rq_prepared q) d (sv_ledger sv))).
Proof.
  intros HI Hq Hph. pose proof (proj1 (Forall_lookup _ _) (bi_requests _ HI) i q Hq) as [Hp Hd]. rewrite Hph in Hd.
  destruct (gd_record HG (rq_prepared q) d (sv_ledger sv)) as [E1 E2].
  apply (request_put_ok sv i q); [done|done| |apply rows_record; [apply HI|lia]| |].
  - split; [done|]. by destruct h.
  - rewrite E1. unfold held. cbn. rewrite Hph. destruct h; lia.
  - rewrite E2. unfold due. cbn. rewrite Hph. destruct h, (sel _); lia.
Qed.

Lemma step_ok ev sv sv' : step st ev sv = Some sv' -> tame ev sv sv' -> BInv sv -> BInv sv'.
Proof.
  intros Hs Ht HI. destruct ev as [stream caller body profiles|i|i failure|i|i r|i|i|i|day]; cbn [step] in Hs.
  - destruct (prepare st caller body profiles (sv_ledger sv)) as [[p l]|] eqn:E; [|by simplify_eq].
    apply prepare_reserves in E as [El Hp]. injection Hs as <-. by apply arrives_ok.
  - destruct (sv_requests sv !! i) as [q|] eqn:Hq; [|done]. destruct (rq_phase q) as [n seen| | | | |] eqn:Hph; try done.
    pose proof (checks_ok sv i q n seen HI Hq Hph Ht) as H. by destruct (run_check _ _ _ _ _) as [[e|] ph]; simplify_eq.
  - destruct (sv_requests sv !! i) as [q|] eqn:Hq; [|done]. destruct (rq_phase q) eqn:Hph, failure; simplify_eq.
    + apply drops_ok; [done|done|unfold held; by rewrite Hph].
    + pose proof (proj1 (Forall_lookup _ _) (bi_requests _ HI) i q Hq) as [Hp _].
      apply move_ok; [done|done|by split| |]; unfold held, due; cbn; by rewrite Hph.
  - destruct (sv_requests sv !! i) as [q|] eqn:Hq; [|done]. destruct (before_call (rq_phase q)) eqn:Hb; simplify_eq.
    apply drops_ok; [done|done|]. unfold held. by destruct (rq_phase q).
  - destruct (sv_requests sv !! i) as [q|] eqn:Hq; [|done]. destruct (rq_phase q) eqn:Hph; try done. injection Hs as <-. by apply replies_ok.
  - destruct (sv_requests sv !! i) as [q|] eqn:Hq; [|done]. destruct (rq_phase q) as [| | |d h| |] eqn:Hph; try done. injection Hs as <-. by apply records_ok.
  - destruct (sv_requests sv !! i) as [q|] eqn:Hq; [|done]. destruct (rq_phase q) as [| | |d []| |] eqn:Hph; simplify_eq.
    + apply drops_ok; [done|done|unfold held; by rewrite Hph].
    + pose proof (proj1 (Forall_lookup _ _) (bi_requests _ HI) i q Hq) as [Hp Hd]. rewrite Hph in Hd.
      apply move_ok; [done|done|by split| |]; unfold held, due; cbn; rewrite Hph; [done|destruct (sel _); lia].
  - destruct (sv_requests sv !! i) as [q|] eqn:Hq; [|done]. destruct (rq_phase q) eqn:Hph; simplify_eq.
    apply drops_ok; [done|done|unfold held; by rewrite Hph].
  - destruct (_ <? day) eqn:Hd; simplify_eq. apply Z.ltb_lt in Hd. destruct HI as [H1 H2 H3 H4].
    destruct (gd_day HG _ day H1 Hd) as [E1 E2]. split; cbn; [|done|by rewrite E1|lia].
    apply (Forall_impl _ _ _ H1). cbn. intros u [? ?]. split; [lia|done].
Qed.

Definition tame_step (sv sv' : Service) : Prop := exists ev, step st ev sv = Some sv' /\ tame ev sv sv'.

Lemma spent_within today sv : rtc tame_step (service0 today) sv -> resv (sv_ledger (service0 today)) = 0 -> spent (sv_ledger (service0 today)) <= limit ->
  spent (sv_ledger sv) <= limit.
Proof.
  intros Hs Hr0 Hs0. assert (HI : BInv (service0 today)) by (split; cbn; [by apply Forall_nil|by apply Forall_nil|done|unfold total; cbn in *; lia]).
  assert (HI' : BInv sv) by (clear Hr0 Hs0; induction Hs as [|s1 s2 s3 (ev & H & Ht) _ IH]; [done|]; apply IH; by eapply step_ok).
  pose proof (bi_budget _ HI'). assert (0 <= total due (sv_requests sv)); [|lia].
  apply tokens_nonneg. apply (Forall_impl _ _ _ (bi_requests _ HI')). apply due_nonneg.
Qed.
End budget.

(** ** The two budgets of the gateway *)

Lemma lookup_add_to {K} `{Countable K} (k k' : K) n (m : gmap K Z) :
  default 0 (add_to k n m !! k') = default 0 (m !! k') + if decide (k = k') then n else 0.
Proof. unfold add_to. destruct (decide (k = k')) as [->|Hne]; [by rewrite lookup_insert_eq|rewrite lookup_insert_ne by done; lia]. Qed.

Lemma reserve_fields c p t l :
  ld_reserved (reserve c p t l) = add_to (holder c) t (ld_reserved l) /\ ld_reserved_provider (reserve c p t l) = add_to p t (ld_reserved_provider l).
Proof. done. Qed.

Definition of_run (id : string) (p : Prepared) : bool := is_run (pr_caller p) && String.eqb (ca_holder_id (pr_caller p)) id.

Lemma of_run_holder id p : of_run id p = true <-> holder (pr_caller p) = ("run"%string, id).
Proof. unfold of_run, is_run, holder. rewrite andb_true_iff, !String.eqb_eq. split; [by intros [-> ->]|by intros [= -> ->]]. Qed.

Lemma run_guards st id :
  Guards st 0 (of_run id) (used (by_run id)) (fun l => default 0 (ld_reserved l !! ("run"%string, id))) (is_per_run_token_limit st).
Proof.
  split.
  - intros p Hp. pose proof (proj1 (of_run_holder id p) Hp) as Hh. apply andb_true_iff in Hp as [Hr Hid%String.eqb_eq]. cbn [check_at]. unfold run_limit_check. cbv zeta. rewrite Hr.
    eexists. split; [done|]. cbn. rewrite Hid. split; [done|]. unfold reserved_by. rewrite Hh. split; [done|lia].
  - intros p p' H%of_run_holder H'%of_run_holder. left. congruence.
  - intros p t l. split; [|done]. rewrite (proj1 (reserve_fields _ _ _ _)), lookup_add_to. f_equal.
    destruct (decide _) as [E|E]; [apply of_run_holder in E; by rewrite E|]. destruct (of_run id p) eqn:E'; [by apply of_run_holder in E'|done].
  - intros p d l. destruct (record_usage_fields p d l) as (_ & E & _). rewrite E. split; [done|]. by rewrite used_record.
  - intros l day _ _. split; done.
Qed.

Lemma used_none f l : Forall (fun u => f u = false) (ld_usage l) -> used f l = 0.
Proof. unfold used. induction 1 as [|u us E _ IH]; [done|]. cbn. by rewrite E. Qed.

Lemma used_nonneg f l : rows_ok l -> 0 <= used f l.
Proof. unfold rows_ok, used. induction 1 as [|u us [_ E] _ IH]; [done|]. cbn. destruct (f u); cbn; lia. Qed.

Lemma daily_limit_le st p v : 0 < is_daily_cloud_token_budget st -> daily_limit st p = Some v -> v <= is_daily_cloud_token_budget st.
Proof.
  intros Hd. unfold daily_limit. cbv zeta. cbn [List.filter]. rewrite (proj2 (Z.ltb_lt _ _) Hd). intros [= <-].
  destruct (List.filter _ _) as [|x [|y l]] eqn:E; cbn; [lia|lia|].
  assert (H : forall l, foldr Z.min (is_daily_cloud_token_budget st) l <= is_daily_cloud_token_budget st) by (intros l'; induction l'; simpl; lia).
  specialize (H l). lia.
Qed.

Lemma daily_guards st provider :
  is_cloud provider = true -> 0 < is_daily_cloud_token_budget st ->
  Guards st 2 (fun p => String.eqb (pr_provider p) provider) (used_today provider) (fun l => reserved_at l provider) (is_daily_cloud_token_budget st).
Proof.
  intros Hc Hd. split.
  - intros p <-%String.eqb_eq. cbn [check_at]. unfold daily_check. rewrite Hc. destruct (daily_limit st p) as [v|] eqn:E.
    + eexists. split; [done|]. cbn. split; [done|]. split; [done|]. by eapply daily_limit_le.
    + exfalso. unfold daily_limit in E. cbv zeta in E. cbn [List.filter] in E. by rewrite (proj2 (Z.ltb_lt _ _) Hd) in E.
  - intros p p' <-%String.eqb_eq H'%String.eqb_eq. by right.
  - intros p t l. split; [|done]. unfold reserved_at. rewrite (proj2 (reserve_fields _ _ _ _)), lookup_add_to. f_equal.
    destruct (decide _) as [E|E]; [by apply String.eqb_eq in E as ->|by apply String.eqb_neq in E as ->].
  - intros p d l. destruct (record_usage_fields p d l) as (_ & _ & E & Et). unfold reserved_at. rewrite E. split; [done|].
    unfold used_today. rewrite used_record, Et. cbn. unfold by_provider, on_day. cbn. rewrite Z.eqb_refl. by rewrite andb_true_r.
  - intros l day Hrows Hday. split; [done|]. unfold used_today. rewrite used_none; [by apply used_nonneg|].
    apply (Forall_impl _ _ _ Hrows). cbn. intros u [Hu _]. unfold on_day. rewrite (proj2 (Z.eqb_neq _ _)) by lia. apply andb_false_r.
Qed.


(** ** Routing *)

Lemma may_in c cap : may c cap = true -> cap ∈ ca_capabilities c.
Proof. unfold may. intros H. apply existsb_exists in H as (x & Hx & ->%String.eqb_eq). by apply list_elem_of_In. Qed.

Lemma cloud_model_allowed st provider profile cloud model :
  cloud_model st provider profile cloud = Ok model -> forall c, cloud = Some c -> cp_allowed_models c <> [] -> model ∈ cp_allowed_models c.
Proof.
  unfold cloud_model. cbv zeta. intros H c ->. intros Hne. destruct (match assoc _ _ with Some m => Some m | None => _ end) as [m|].
  - destruct (bool_decide _ && _) eqn:E; [done|]. injection H as <-. rewrite bool_decide_eq_true_2 in E by done. cbn in E.
    apply negb_false_iff, existsb_exists in E as (x & Hx & ->%String.eqb_eq). by apply list_elem_of_In.
  - destruct (existsb _ _) eqn:Ex; [|done]. destruct (bool_decide _ && _) eqn:E; [done|]. injection H as <-.
    apply existsb_exists in Ex as (x & Hx & ->%String.eqb_eq). by apply list_elem_of_In.
Qed.

(** What [resolve] gives a caller. *)
Lemma resolve_ok st caller profile cloud provider target :
  resolve st caller profile cloud = Ok (provider, target) ->
  provider = (split_dot profile).1 /\
  (provider = "local"%string /\ (is_run caller = true -> ("llm.profile:" +:+ target)%string ∈ ca_capabilities caller) \/
   is_cloud provider = true /\ is_run caller = true /\ ("cloud." +:+ provider)%string ∈ ca_capabilities caller /\
     ("llm.profile:" +:+ profile)%string ∈ ca_capabilities caller /\
     (forall c, cloud = Some c -> cp_allowed_models c <> [] -> target ∈ cp_allowed_models c)).
Proof.
  unfold resolve. cbv zeta. destruct (String.eqb (split_dot profile).1 "local") eqn:El.
  - apply String.eqb_eq in El. destruct (bound_variant caller profile) as [v|]; [|done]. cbn [mbind result_bind].
    destruct (is_run caller && negb (may caller ("llm.profile:" +:+ v))) eqn:E; [done|]. intros [= <- <-]. rewrite El. split; [done|]. left. split; [done|].
    intros Hr. rewrite Hr in E. cbn in E. apply negb_false_iff in E. by apply may_in.
  - destruct (is_cloud _) eqn:Hc; [|done]. destruct (is_run caller) eqn:Hr; [|done]. cbn [negb].
    destruct (may caller ("cloud." +:+ _)) eqn:E1; [|done]. destruct (may caller ("llm.profile:" +:+ _)) eqn:E2; [|done]. cbn [negb].
    destruct (cloud_model _ _ _ _) as [m|] eqn:Em; [|done]. cbn [mbind result_bind]. intros [= <- <-]. split; [done|]. right. split; [done|]. split; [done|].
    split; [by apply may_in|]. split; [by apply may_in|]. by eapply cloud_model_allowed.
Qed.

Lemma active_profile_usable provider rows c :
  active_profile provider rows = Some c -> exists row, row ∈ rows /\ usable provider row = true /\ c = from_row row.
Proof.
  unfold active_profile. destruct (is_cloud provider); [|done]. intros H. apply fmap_Some in H as (row & H & ->).
  enough (Hin : row ∈ filter (fun row => usable provider row = true) rows) by (apply list_elem_of_filter in Hin as [? ?]; eauto).
  revert row H. induction (filter _ rows) as [|r rs IH]; [done|]. cbn. intros row H. destruct (foldr _ None rs) as [b|] eqn:E.
  - destruct (preferred r b); injection H as <-; [by left|right; by apply IH].
  - injection H as <-. by left.
Qed.

Section runs.
Context {J : Jwt}.

(** What a token proves about its caller. *)
Lemma run_caller_ok token key now get_run caller :
  run_caller token key now get_run = Ok caller ->
  exists claims run state, verify token key now = Some claims /\ get_run (cl_run_id claims) = Ok (Some run) /\
    jget "state" run = Some (JStr state) /\ state ∈ ACTIVE_RUN_STATES /\
    jget "currentAttempt" run = Some (JNum (cl_attempt claims)) /\ jget "capabilityTokenId" run = Some (JStr (cl_token_id claims)) /\
    holder caller = ("run"%string, cl_run_id claims) /\ ca_capabilities caller = cl_capabilities claims.
Proof.
  unfold run_caller, at_key. destruct (verify token key now) as [claims|]; [|done]. destruct (get_run (cl_run_id claims)) as [[run|]|] eqn:Hg; [|done|done]. cbn [mbind result_bind].
  destruct (jget "state" run) as [s|] eqn:Hs; cbn [or_raise mbind result_bind]; [|done].
  destruct s as [| | |s| |]; try done. destruct (existsb (String.eqb s) ACTIVE_RUN_STATES) eqn:Ha; [|done]. cbn [negb].
  destruct (jget "currentAttempt" run) as [n|] eqn:Hn; cbn [or_raise mbind result_bind]; [|done].
  destruct (is_num (cl_attempt claims) (Some n)) eqn:E1; [|done]. destruct (is_str _ _) eqn:E2; [|done]. cbn [negb orb].
  destruct (match jget "modelBindings" _ with Some _ => _ | None => _ end) as [bs|]; [|done]. cbn [mbind result_bind]. intros [= <-].
  exists claims, run, s. unfold is_num in E1. destruct n; try done. apply Z.eqb_eq in E1 as ->.
  unfold is_str in E2. destruct (jget "capabilityTokenId" run) as [[]|]; try done. apply String.eqb_eq in E2 as ->.
  apply existsb_exists in Ha as (x & Hx & ->%String.eqb_eq). split_and!; try done. by apply list_elem_of_In.
Qed.

Lemma llm_caller_ok token kind body key now get_run caller :
  llm_caller token kind body key now get_run = Ok caller ->
  match token with Some t => run_caller t key now get_run = Ok caller | None => kind <> NoClient /\ is_run caller = false end.
Proof.
  unfold llm_caller. destruct token as [t|]; [done|]. destruct (or_default _ _) as [| | | | |o]; try done. cbv zeta.
  destruct (bool_decide (kind = VoiceClient) && _) eqn:Ev; [apply andb_true_iff in Ev as [Ek _]; apply bool_decide_eq_true in Ek as ->; by intros [= <-]|].
  destruct (bool_decide (kind <> ChatClient) || _) eqn:Ec; [done|]. intros [= <-]. split; [|done]. intros ->. apply orb_false_iff in Ec as [Ec _].
  by rewrite bool_decide_eq_true_2 in Ec.
Qed.

(** What [prepare] gives a caller. *)
Lemma prepare_ok st caller body profiles l p l' :
  prepare st caller body profiles l = Ok (p, l') ->
  pr_caller p = caller /\ pr_reserved p = estimate (pr_request p) /\ l' = reserve caller (pr_provider p) (pr_reserved p) l /\
  (pr_provider p = "local"%string /\ (is_run caller = true -> ("llm.profile:" +:+ pr_target p)%string ∈ ca_capabilities caller) \/
   is_cloud (pr_provider p) = true /\ is_run caller = true /\ pr_provider p = (split_dot (pr_profile p)).1 /\
     ("cloud." +:+ pr_provider p)%string ∈ ca_capabilities caller /\ ("llm.profile:" +:+ pr_profile p)%string ∈ ca_capabilities caller /\
     forall c, pr_cloud p = Some c ->
       (exists row, row ∈ profiles /\ usable (pr_provider p) row = true /\ c = from_row row) /\
       (cp_allowed_models c <> [] -> pr_target p ∈ cp_allowed_models c)).
Proof.
  unfold prepare. cbv zeta. destruct (chat_request st body) as [r|]; [|done]. cbn [mbind result_bind]. set (profile := text_of (jget "profile" body)).
  destruct (resolve st caller profile _) as [[provider target]|] eqn:Er; [|done]. cbn [mbind result_bind]. intros [= <- <-].
  cbn [pr_caller pr_provider pr_target pr_profile pr_cloud pr_reserved pr_request fst snd]. do 3 (split; [done|]). apply resolve_ok in Er as [Epr Hr].
  destruct Hr as [?|(Hcl & Hrun & Hc1 & Hc2 & Ha)]; [by left|]. right. do 5 (split; [done|]).
  intros c Ec. rewrite Hrun, <- Epr, Hcl in *. split; [by apply active_profile_usable|by apply Ha].
Qed.

(** A model call is routed as authorized.  A request with a capability token is prepared only for
    the current attempt of an active run that the token was minted for; a local model only with the
    capability for that very variant; a cloud provider only when the profile was asked for, with the
    capabilities of the provider and of the profile, with an enabled connection of that provider, and
    for a model that the connection allows.  A request without one needs the credential of the
    control API or of the voice broker and stays local.  In each case the worst-case tokens are
    reserved for the caller and the provider. *)
Theorem routed_as_authorized st token kind key now get_run caller body profiles l p l' :
  llm_caller token kind body key now get_run = Ok caller -> prepare st caller body profiles l = Ok (p, l') ->
  pr_reserved p = estimate (pr_request p) /\ l' = reserve caller (pr_provider p) (pr_reserved p) l /\
  match token with
  | None => kind <> NoClient /\ pr_provider p = "local"%string
  | Some t =>
      exists claims run state, verify t key now = Some claims /\ get_run (cl_run_id claims) = Ok (Some run) /\
        jget "state" run = Some (JStr state) /\ state ∈ ACTIVE_RUN_STATES /\
        jget "currentAttempt" run = Some (JNum (cl_attempt claims)) /\ jget "capabilityTokenId" run = Some (JStr (cl_token_id claims)) /\
        holder caller = ("run"%string, cl_run_id claims) /\
        (pr_provider p = "local"%string /\ ("llm.profile:" +:+ pr_target p)%string ∈ cl_capabilities claims \/
         is_cloud (pr_provider p) = true /\ pr_provider p = (split_dot (pr_profile p)).1 /\
           ("cloud." +:+ pr_provider p)%string ∈ cl_capabilities claims /\ ("llm.profile:" +:+ pr_profile p)%string ∈ cl_capabilities claims /\
           forall c, pr_cloud p = Some c ->
             (exists row, row ∈ profiles /\ usable (pr_provider p) row = true /\ c = from_row row) /\
             (cp_allowed_models c <> [] -> pr_target p ∈ cp_allowed_models c))
  end.
Proof.
  intros Hc%llm_caller_ok (Hcaller & Hres & Hl & Hr)%prepare_ok. split; [done|]. split; [done|]. destruct token as [t|].
  - destruct (run_caller_ok _ _ _ _ _ Hc) as (claims & run & state & H1 & H2 & H3 & H4 & H5 & H6 & Hh & Hcap). exists claims, run, state.
    do 7 (split; [done|]). rewrite <- Hcap. destruct Hr as [[? Hlocal]|(? & _ & ?)]; [left; split; [done|]; apply Hlocal; unfold is_run; by injection Hh as ->|by right].
  - destruct Hc as [Hk Hrun]. split; [done|]. destruct Hr as [[? _]|(_ & Hrun' & _)]; [done|congruence].
Qed.
End runs.

(** ** Decrypted keys *)

Section keys.
Context {A : Aead} (keyring : Keyring) (cache_time : Z).

(** A request for a key: when it was made and what the tables held then. *)
Record KeyCall := mkKeyCall {
  kc_provider : string; kc_profile : option CloudProfile; kc_cached : bool; kc_now : instant; kc_rows : list ProviderProfile; kc_db : Secrets
}.
Definition ask_key (c : KeyCall) (cache : KeyCache) : option text * KeyCache :=
  api_key keyring cache_time (kc_provider c) (kc_profile c) (kc_cached c) (kc_now c) (kc_rows c) (kc_db c) cache.

(** The calls of a process, latest first, and its cache. *)
Inductive key_calls : list KeyCall -> KeyCache -> Prop :=
| kc_start : key_calls [] ∅
| kc_call calls cache c : key_calls calls cache -> key_calls (c :: calls) (ask_key c cache).2
| kc_forget calls cache sid : key_calls calls cache -> key_calls calls (delete sid cache)
| kc_clear calls cache : key_calls calls cache -> key_calls calls ∅.

Definition cached_from (calls : list KeyCall) (cache : KeyCache) : Prop :=
  forall sid key expires, cache !! sid = Some (key, expires) ->
    exists c, c ∈ calls /\ expires = kc_now c + cache_time /\ load keyring sid (kc_provider c) (kc_db c) = Ok key.

Definition chosen (c : KeyCall) : option CloudProfile := match kc_profile c with Some p => Some p | None => active_profile (kc_provider c) (kc_rows c) end.

(** What one call answers and leaves in the cache. *)
Lemma ask_key_ok calls cache c :
  cached_from calls cache ->
  cached_from (c :: calls) (ask_key c cache).2 /\
  forall key, (ask_key c cache).1 = Some key ->
    exists p sid, chosen c = Some p /\ cp_secret_id p = Some sid /\ cp_provider p = kc_provider c /\ is_cloud (kc_provider c) = true /\
      exists o, o ∈ c :: calls /\ load keyring sid (kc_provider o) (kc_db o) = Ok key /\ (o = c \/ kc_cached c = true /\ kc_now c < kc_now o + cache_time).
Proof.
  intros HC. assert (HC' : cached_from (c :: calls) cache).
  { intros sid key e H. destruct (HC _ _ _ H) as (o & Ho & Ho'). exists o. split; [by right|done]. }
  unfold ask_key, api_key. fold (chosen c). destruct (is_cloud (kc_provider c)) eqn:Hcl; [|done]. destruct (chosen c) as [p|] eqn:Hp; [|done].
  destruct (cp_secret_id p) as [sid|] eqn:Hsid; [|done]. destruct (String.eqb (cp_provider p) (kc_provider c)) eqn:Hpr; [|done]. apply String.eqb_eq in Hpr. cbn [negb].
  assert (Hdel : cached_from (c :: calls) (delete sid cache)) by (intros s k e [_ H]%lookup_delete_Some; by apply HC').
  assert (Hload : let r := match load keyring sid (kc_provider c) (kc_db c) with
      | Ok key => if utf8_valid key then (Some key, if 0 <? cache_time then <[sid := (key, kc_now c + cache_time)]> cache else cache) else (None, delete sid cache)
      | Err _ => (None, delete sid cache) end in
    cached_from (c :: calls) r.2 /\ forall key, r.1 = Some key -> exists p' sid', Some p = Some p' /\ cp_secret_id p' = Some sid' /\ cp_provider p' = kc_provider c /\ true = true /\
      exists o, o ∈ c :: calls /\ load keyring sid' (kc_provider o) (kc_db o) = Ok key /\ (o = c \/ kc_cached c = true /\ kc_now c < kc_now o + cache_time)).
  { cbv zeta. destruct (load keyring sid _ _) as [key|] eqn:Hl; [|done]. destruct (utf8_valid key); [|done]. cbn. split.
    - destruct (0 <? cache_time); [|done]. intros s k e [[<- [= <- <-]]|[_ H]]%lookup_insert_Some; [|by apply HC']. exists c. split; [by left|done].
    - intros k [= <-]. exists p, sid. do 4 (split; [done|]). exists c. split; [by left|]. split; [done|by left]. }
  destruct (cache !! sid) as [[key e]|] eqn:Hhit; [|exact Hload]. destruct (kc_cached c && (kc_now c <? e)) eqn:E; [|exact Hload].
  cbn. split; [done|]. intros k [= <-]. exists p, sid. do 4 (split; [done|]). destruct (HC _ _ _ Hhit) as (o & Ho & -> & Hl).
  apply andb_true_iff in E as [Ecached E%Z.ltb_lt]. exists o. split; [by right|]. split; [done|by right].
Qed.

(** A cloud call uses the key of its connection: a key that the gateway hands out is what the
    secret of the chosen connection decrypted to, for the provider it was asked for, at this request
    or at an earlier one less than the cache time ago, so a key that was replaced or deleted is out of
    use after that time; a request that must not use the cache gets a fresh one. *)
Theorem keys_expire calls cache c key :
  key_calls calls cache -> (ask_key c cache).1 = Some key ->
  exists p sid, chosen c = Some p /\ cp_secret_id p = Some sid /\ cp_provider p = kc_provider c /\ is_cloud (kc_provider c) = true /\
    exists o, o ∈ c :: calls /\ load keyring sid (kc_provider o) (kc_db o) = Ok key /\ (o = c \/ kc_cached c = true /\ kc_now c < kc_now o + cache_time).
Proof.
  intros HK. enough (HC : cached_from calls cache) by (by apply ask_key_ok).
  induction HK as [|calls cache c' _ IH|calls cache sid _ IH|calls cache _ IH]; [done|by apply ask_key_ok| |done].
  intros s k e [_ H]%lookup_delete_Some. by apply IH.
Qed.
End keys.
