(* ===== verification/Auth.v ===== *)
(** * Sign-in and sessions ([control_api/security.py], [deps.py], [routers/auth.py], [admin.py])

    The owner account is created once with a one-time setup code, sessions are rows found by the
    hash of a cookie, unsafe requests need an allowed origin and a CSRF token bound to the session,
    and sign-in attempts are limited per address.  Argon2, SHA-256 and the CSRF HMAC are
    parameters.  A route reads the clock once ([now]); the wall clock does not go back. *)

From S2P Require Import Prelude Json Redaction JsonText SchemaGuard States Jobs RunModel RunService RunInv RunOps Platform A1.
From Stdlib Require Import Ascii.
#[local] Open Scope Z_scope.

(** ** Passwords and tokens *)

(** argon2-cffi: [hash] salts with [n] bytes of randomness, [verify] is false where it raises. *)
Class Argon2 := {
  argon_hash : string -> N -> string;
  argon_verify : string -> string -> bool;
  check_needs_rehash : string -> bool
}.
Class Argon2Laws (A : Argon2) := argon_verify_hash : forall p n, argon_verify (argon_hash p n) p = true.

(** The HMAC of [csrf_token], by the secret key and the message. *)
Class CsrfMac := csrf_mac : string -> string -> string.

Section security.
Context {A : Argon2} {D : Digest} {M : CsrfMac}.

Definition DUMMY_HASH : string := argon_hash "timing-equalizer-not-a-password" 0.
Definition verify_password (password_hash : option string) (password : string) : bool :=
  argon_verify (default DUMMY_HASH password_hash) password && bool_decide (is_Some password_hash).
Definition hash_token (token : string) : string := sha256_hex token.
Definition csrf_token (secret_key token_hash : string) : string := csrf_mac secret_key ("csrf:" +:+ token_hash).
End security.

(** ** Rate limiting *)

(** Hits of a key, oldest first. *)
Abbreviation Hits := (list Z).

Record RateLimiter := mkLimiter { rl_limit : Z; rl_window : Z }.

(** [while hits and now - hits[0] > window: hits.popleft()] *)
Fixpoint pop_old (window now : Z) (hits : Hits) : Hits :=
  match hits with
  | h :: rest => if window <? now - h then pop_old window now rest else hits
  | [] => []
  end.

Definition allow (l : RateLimiter) (now : Z) (hits : Hits) : bool * Hits :=
  let hits := pop_old (rl_window l) now hits in
  if rl_limit l <=? Z.of_nat (length hits) then (false, hits) else (true, hits ++ [now]).

Definition retry_after (l : RateLimiter) (now : Z) (hits : Hits) : Z :=
  match hits with
  | [] => 0
  | h :: _ => Z.max 1 ((rl_window l - (now - h)) ÷ 1000000 + 1)
  end.

(** ** Tables *)

Record User := mkUser {
  us_id : uuid;
  us_username : string;
  us_username_normalized : string;
  us_email : option string;
  us_password_hash : string;
  us_role : string;
  us_disabled_at : option instant
}.
#[export] Instance eta_User : Eta User := fun u =>
  mkUser (us_id u) (us_username u) (us_username_normalized u) (us_email u) (us_password_hash u) (us_role u) (us_disabled_at u).

Record LoginSession := mkLoginSession {
  ls_id : uuid;
  ls_token_hash : string;
  ls_user_id : uuid;
  ls_expires_at : instant;
  ls_idle_expires_at : instant;
  ls_last_seen_at : instant;
  ls_revoked_at : option instant;
  ls_user_agent : text;
  ls_ip_address : option string;
  ls_created_at : instant
}.
#[export] Instance eta_LoginSession : Eta LoginSession := fun r =>
  mkLoginSession (ls_id r) (ls_token_hash r) (ls_user_id r) (ls_expires_at r) (ls_idle_expires_at r) (ls_last_seen_at r)
    (ls_revoked_at r) (ls_user_agent r) (ls_ip_address r) (ls_created_at r).

(** The value of the setting [bootstrap.token]. *)
Record SetupCode := mkSetupCode { sc_hash : string; sc_expires_at : instant }.

Record AuthDB := mkAuthDB {
  ad_users : gmap uuid User;
  ad_sessions : gmap uuid LoginSession;
  ad_setup : option SetupCode;
  ad_fresh : uuid;
  ad_audit : list AuditEvent
}.
#[export] Instance eta_AuthDB : Eta AuthDB := fun d =>
  mkAuthDB (ad_users d) (ad_sessions d) (ad_setup d) (ad_fresh d) (ad_audit d).

Definition auth0 : AuthDB := mkAuthDB ∅ ∅ None 0%N [].

Abbreviation AM := (Tx PlatformError AuthDB).

Record AuthSettings := mkAuthSettings {
  session_idle_seconds : Z;
  session_absolute_seconds : Z;
  auth_rate_limit_per_minute : Z;
  secret_key : string;
  public_origins : list text;
  public_base_url : text;
  cookie_secure : bool
}.

(** ** Requests *)

Record HttpRequest := mkHttpRequest {
  hr_method : string;
  hr_origin : option text;
  hr_referer : text;
  hr_session_cookie : option string;
  hr_csrf_header : string;
  hr_user_agent : text;
  hr_client_ip : option string
}.

Definition UNSAFE_METHODS : list string := ["POST"; "PUT"; "PATCH"; "DELETE"]%string.
Definition is_unsafe (r : HttpRequest) : bool := existsb (String.eqb (hr_method r)) UNSAFE_METHODS.

(** [s.rstrip("/")] *)
Definition rstrip_slash (s : text) : text :=
  rev ((fix drop (s : text) : text := match s with c :: s' => if Ascii.eqb c "/" then drop s' else s | [] => [] end) (rev s)).

(** ["/".join(url.split("/")[:3])] *)
Definition origin_of (url : text) : text := join_text ["/"%char] (take 3 (split_at "/" url)).

Definition allowed_origins (st : AuthSettings) : list text :=
  map rstrip_slash (List.filter (fun o => negb (bool_decide (o = []))) (public_origins st ++ [origin_of (public_base_url st)])).

Definition request_origin (r : HttpRequest) : option text :=
  match hr_origin r with
  | Some o => Some o
  | None => match hr_referer r with [] => None | url => Some (origin_of url) end
  end.

Definition origin_ok (st : AuthSettings) (r : HttpRequest) : bool :=
  match request_origin r with
  | Some o => existsb (fun a => bool_decide (a = rstrip_slash o)) (allowed_origins st)
  | None => false
  end.

Definition ORIGIN_REJECTED : PlatformError := mkError "ORIGIN_REJECTED" 403 [].
Definition SIGN_IN : PlatformError := mkError "UNAUTHENTICATED" 401 [].
Definition SESSION_EXPIRED : PlatformError := mkError "SESSION_EXPIRED" 401 [].
Definition CSRF_FAILED : PlatformError := mkError "CSRF_FAILED" 403 [].

Definition check_origin {S} (st : AuthSettings) (r : HttpRequest) : Tx PlatformError S unit :=
  guard (negb (is_unsafe r) || origin_ok st r) ORIGIN_REJECTED.

(** [header.partition(" ")], without the separator. *)
Fixpoint partition_space (s : text) : text * text :=
  match s with
  | [] => ([], [])
  | c :: s' => if Ascii.eqb c " " then ([], s') else let '(a, b) := partition_space s' in (c :: a, b)
  end.

(** [internal_auth]: the service token of [/internal/v1]. *)
Definition internal_auth {S} (header expected : text) : Tx PlatformError S unit :=
  let '(scheme, value) := partition_space header in
  guard (bool_decide (map lower scheme = chars "bearer") && bool_decide (value = expected)) SIGN_IN.

(** ** Authentication *)

Record AuthContext := mkAuthContext { ac_user : User; ac_session : LoginSession; ac_token_hash : string }.

Definition SESSION_TOUCH_SECONDS : Z := 60.

Definition rows {A} (m : gmap uuid A) : list A := map snd (map_to_list m).

Section auth.
Context {A : Argon2} {D : Digest} {M : CsrfMac} (st : AuthSettings).

(** The join of [current_auth]; [token_hash] is unique. *)
Definition find_session (token_hash : string) (d : AuthDB) : option (LoginSession * User) :=
  s ← List.find (fun s => String.eqb (ls_token_hash s) token_hash) (rows (ad_sessions d));
  u ← ad_users d !! ls_user_id s;
  Some (s, u).

Definition expired (now : instant) (s : LoginSession) (u : User) : bool :=
  bool_decide (is_Some (ls_revoked_at s)) || (ls_expires_at s <=? now) || (ls_idle_expires_at s <=? now)
  || bool_decide (is_Some (us_disabled_at u)).

Definition touch (now : instant) (s : LoginSession) : LoginSession :=
  if seconds SESSION_TOUCH_SECONDS <? now - ls_last_seen_at s then
    s <| ls_last_seen_at := now |>
      <| ls_idle_expires_at := Z.min (ls_expires_at s) (now + seconds (session_idle_seconds st)) |>
  else s.

Definition put_session (s : LoginSession) : AM unit := modify (fun d => d <| ad_sessions ::= <[ls_id s := s]> |>).

Definition current_auth (r : HttpRequest) (now : instant) : AM AuthContext :=
  match hr_session_cookie r with
  | None => raise SIGN_IN
  | Some token =>
      guard (negb (String.eqb token "")) SIGN_IN ;;
      let token_hash := hash_token token in
      let! found := gets (find_session token_hash) in
      match found with
      | None => raise SIGN_IN
      | Some (s, u) =>
          guard (negb (expired now s u)) SESSION_EXPIRED ;;
          (if is_unsafe r then
             check_origin st r ;;
             guard (negb (String.eqb (hr_csrf_header r) "") &&
                    String.eqb (hr_csrf_header r) (csrf_token (secret_key st) token_hash)) CSRF_FAILED
           else ret tt) ;;
          put_session (touch now s) ;;
          ret (mkAuthContext u (touch now s) token_hash)
      end
  end.

Definition require_owner (auth : AuthContext) : AM unit :=
  guard (String.eqb (us_role (ac_user auth)) "owner") (mkError "FORBIDDEN" 403 []).

(** ** Routes *)

Record Cookie := mkCookie { ck_name : string; ck_value : string; ck_max_age : Z; ck_httponly : bool; ck_secure : bool }.

Record SessionOut := mkSessionOut {
  so_user : uuid;
  so_csrf_token : string;
  so_expires_at : instant;
  so_idle_expires_at : instant;
  so_cookies : list Cookie
}.

Definition record_auth (action actor_type outcome : string) (actor target : option uuid) (metadata : Json) : AM unit :=
  modify (fun d => d <| ad_audit ::= fun l => l ++
    [mkAudit actor_type (uuid_str <$> actor) action ((fun _ => "user"%string) <$> target) (uuid_str <$> target) outcome (redact metadata)] |>).

(** [_set_cookies]; samesite is lax and the path is [/]. *)
Definition set_cookies (token csrf : string) (expires now : instant) : list Cookie :=
  let max_age := (expires - now) ÷ 1000000 in
  [mkCookie "cq_session" token max_age true (cookie_secure st); mkCookie "cq_csrf" csrf max_age false (cookie_secure st)].

(** [_start_session]; [token] is the new random token. *)
Definition start_session (r : HttpRequest) (user : User) (token : string) (now : instant) : AM SessionOut :=
  let token_hash := hash_token token in
  let! d := get in
  guard (negb (existsb (fun s => String.eqb (ls_token_hash s) token_hash) (rows (ad_sessions d)))) UNEXPECTED ;;
  let s := mkLoginSession (ad_fresh d) token_hash (us_id user) (now + seconds (session_absolute_seconds st))
             (now + seconds (session_idle_seconds st)) now None (take 256 (hr_user_agent r)) (hr_client_ip r) now in
  modify (fun d => d <| ad_fresh ::= N.succ |>) ;;
  put_session s ;;
  let csrf := csrf_token (secret_key st) token_hash in
  ret (mkSessionOut (us_id user) csrf (ls_expires_at s) (ls_idle_expires_at s) (set_cookies token csrf (ls_expires_at s) now)).

Record BootstrapIn := mkBootstrapIn { bi_token : string; bi_username : string; bi_password : string; bi_email : option string }.

(** [s.strip().lower()] *)
Definition normalized (s : string) : string := unchars (map lower (strip (chars s))).

(** A denial is committed with its audit row. *)
Abbreviation Verdict := (Result PlatformError SessionOut).

Definition setup_valid (d : AuthDB) (token : string) (now : instant) : bool :=
  match ad_setup d with
  | Some c => (now <? sc_expires_at c) && String.eqb (sc_hash c) (hash_token token)
  | None => false
  end.

Definition bootstrap (r : HttpRequest) (body : BootstrapIn) (salt : N) (token : string) (now : instant) : AM Verdict :=
  let! d := get in
  guard (bool_decide (ad_users d = ∅)) (conflict "ALREADY_BOOTSTRAPPED" []) ;;
  if negb (setup_valid d (bi_token body) now) then
    record_auth "auth.bootstrap" "anonymous" "denied" None None (JObj []) ;;
    ret (Err (mkError "INVALID_BOOTSTRAP_TOKEN" 403 []))
  else
    let user := mkUser (ad_fresh d) (bi_username body) (normalized (bi_username body)) (bi_email body)
                  (argon_hash (bi_password body) salt) "owner" None in
    modify (fun d => d <| ad_users ::= <[us_id user := user]> |> <| ad_fresh ::= N.succ |> <| ad_setup := None |>) ;;
    let! out := start_session r user token now in
    record_auth "auth.bootstrap" "user" "success" (Some (us_id user)) (Some (us_id user)) (JObj []) ;;
    ret (Ok out).

Definition user_named (name : string) (d : AuthDB) : option User :=
  List.find (fun u => String.eqb (us_username_normalized u) (normalized name)) (rows (ad_users d)).

Definition login (r : HttpRequest) (username password : string) (salt : N) (token : string) (now : instant) : AM Verdict :=
  let! user := gets (user_named username) in
  let ok := verify_password (us_password_hash <$> user) password in
  let denied :=
    record_auth "auth.login" "anonymous" "denied" None None (JObj [("username"%string, JStr (unchars (take 64 (chars username))))]) ;;
    ret (Err (mkError "INVALID_CREDENTIALS" 401 [])) in
  match user with
  | None => denied
  | Some u =>
      if negb ok || bool_decide (is_Some (us_disabled_at u)) then denied
      else
        let u := if check_needs_rehash (us_password_hash u) then u <| us_password_hash := argon_hash password salt |> else u in
        modify (fun d => d <| ad_users ::= <[us_id u := u]> |>) ;;
        let! out := start_session r u token now in
        record_auth "auth.login" "user" "success" (Some (us_id u)) None (JObj []) ;;
        ret (Ok out)
  end.

Definition logout (r : HttpRequest) (now : instant) : AM unit :=
  let! auth := current_auth r now in
  let! d := get in
  (match ad_sessions d !! ls_id (ac_session auth) with
   | Some s => put_session (s <| ls_revoked_at := Some now |>)
   | None => ret tt
   end) ;;
  record_auth "auth.logout" "user" "success" (Some (us_id (ac_user auth))) None (JObj []).

Definition me (r : HttpRequest) (now : instant) : AM SessionOut :=
  let! auth := current_auth r now in
  ret (mkSessionOut (us_id (ac_user auth)) (csrf_token (secret_key st) (ac_token_hash auth)) (ls_expires_at (ac_session auth))
         (ls_idle_expires_at (ac_session auth)) []).

Definition bootstrap_status (d : AuthDB) : bool := negb (bool_decide (ad_users d = ∅)).

(** [cq-admin bootstrap-token], after its check that there is no user (which may be stale when
    the code is written). *)
Definition issue_setup_code (token : string) (ttl_hours : Z) (now : instant) : AM unit :=
  modify (fun d => d <| ad_setup := Some (mkSetupCode (hash_token token) (now + seconds (ttl_hours * 3600))) |>) ;;
  record_auth "auth.bootstrap_token_issued" "system" "success" None None (JObj []).

(** ** The service *)

Record AuthState := mkAuthState {
  as_db : AuthDB;
  as_hits : gmap string Hits;
  as_now : instant
}.

Definition limiter : RateLimiter := mkLimiter (auth_rate_limit_per_minute st) (seconds 60).
Definition limit_key (bucket : string) (r : HttpRequest) : string := bucket +:+ ":" +:+ default "None"%string (hr_client_ip r).

(** A route behind [origin_guard] and [_limit]; [mono] is the monotonic clock. *)
Definition limited (bucket : string) (r : HttpRequest) (mono : Z) (m : AM Verdict) (s : AuthState) : Verdict * AuthState :=
  if negb (negb (is_unsafe r) || origin_ok st r) then (Err ORIGIN_REJECTED, s)
  else
    let key := limit_key bucket r in
    let '(ok, hits) := allow limiter mono (default [] (as_hits s !! key)) in
    let s := mkAuthState (as_db s) (<[key := hits]> (as_hits s)) (as_now s) in
    if ok then
      match m (as_db s) with
      | Ok (v, d) => (v, mkAuthState d (as_hits s) (as_now s))
      | Err e => (Err e, s)
      end
    else (Err (mkError "RATE_LIMITED" 429 [("retryAfterSeconds"%string, JNum (retry_after limiter mono hits))]), s).

(** One request or command at the instant [now]; [token] stands for fresh randomness. *)
Inductive astep (s : AuthState) : AuthState -> Prop :=
| at_issue token hours now d :
    as_now s <= now -> issue_setup_code token hours now (as_db s) = Ok (tt, d) ->
    astep s (mkAuthState d (as_hits s) now)
| at_bootstrap r body salt token mono now v s' :
    as_now s <= now -> limited "bootstrap" r mono (bootstrap r body salt token now) s = (v, s') ->
    astep s (mkAuthState (as_db s') (as_hits s') now)
| at_login r username password salt token mono now v s' :
    as_now s <= now -> limited "login" r mono (login r username password salt token now) s = (v, s') ->
    astep s (mkAuthState (as_db s') (as_hits s') now)
| at_request r now c d :
    as_now s <= now -> current_auth r now (as_db s) = Ok (c, d) -> astep s (mkAuthState d (as_hits s) now)
| at_logout r now d :
    as_now s <= now -> logout r now (as_db s) = Ok (tt, d) -> astep s (mkAuthState d (as_hits s) now)
| at_restart now : as_now s <= now -> astep s (mkAuthState (as_db s) ∅ now).
End auth.

Definition initial_auth (now : instant) : AuthState := mkAuthState auth0 ∅ now.
