(* ===== verification/AuthProps.v ===== *)
(** * What sign-in guarantees

    The rate limiter against its specification, and the properties of every history of setup,
    sign-in, requests and sign-out. *)

From S2P Require Import Prelude Json Redaction JsonText SchemaGuard States Jobs RunModel RunService RunInv RunOps Platform A1 Auth.
From Stdlib Require Import Ascii Sorting.Sorted.
#[local] Open Scope Z_scope.

(** ** The limiter *)

(** The attempts let through, newest first, after a history of attempts (newest first). *)
Fixpoint limited_run (l : RateLimiter) (h : list Z) : Hits :=
  match h with [] => [] | now :: h' => (allow l now (limited_run l h')).2 end.

(** The specification: an attempt is let through when fewer than [limit] were in the window. *)
Fixpoint admitted (l : RateLimiter) (h : list Z) : list Z :=
  match h with
  | [] => []
  | now :: h' => let a := admitted l h' in
      if rl_limit l <=? Z.of_nat (length (List.filter (fun t => now - t <=? rl_window l) a)) then a else now :: a
  end.

Definition recent (l : RateLimiter) (now : Z) (a : list Z) : list Z := List.filter (fun t => now - t <=? rl_window l) a.

Lemma pop_old_sorted window now hits :
  StronglySorted Z.le hits -> pop_old window now hits = List.filter (fun t => now - t <=? window) hits.
Proof.
  induction 1 as [|h hits Hs IH Hh]; simpl; [done|]. destruct (window <? now - h) eqn:E.
  - assert (E' : now - h <=? window = false) by lia. by rewrite E', IH.
  - assert (E' : now - h <=? window = true) by lia. rewrite E'. f_equal. symmetry. clear IH Hs.
    induction Hh as [|t hits Ht _ IH]; simpl; [done|]. assert (E2 : now - t <=? window = true) by lia. by rewrite E2, IH.
Qed.

Lemma filter_rev {X} (f : X -> bool) l : List.filter f (rev l) = rev (List.filter f l).
Proof.
  induction l as [|x l IH]; simpl; [done|]. rewrite List.filter_app, IH. simpl. destruct (f x); simpl; [done|]. by rewrite app_nil_r.
Qed.

Lemma recent_recent l now now' a : now <= now' -> recent l now' (recent l now a) = recent l now' a.
Proof.
  intros Hle. unfold recent. induction a as [|t a IH]; simpl; [done|]. destruct (now - t <=? rl_window l) eqn:E; simpl; rewrite IH; [done|].
  assert (E' : now' - t <=? rl_window l = false) by lia. by rewrite E'.
Qed.

Lemma admitted_incl l h t : In t (admitted l h) -> In t h.
Proof. induction h as [|now h IH]; simpl; [done|]. destruct (_ <=? _); simpl; intros; [right; auto|naive_solver]. Qed.

Lemma admitted_sorted l h : StronglySorted Z.ge h -> StronglySorted Z.ge (admitted l h).
Proof.
  induction 1 as [|now h Hs IH Hh]; simpl; [constructor|]. destruct (_ <=? _); [done|]. constructor; [done|].
  apply Forall_forall. intros t Ht%list_elem_of_In%admitted_incl. rewrite Forall_forall in Hh. apply Hh. by apply list_elem_of_In.
Qed.

Lemma sorted_rev l : StronglySorted Z.ge l -> StronglySorted Z.le (rev l).
Proof.
  induction 1 as [|x l Hs IH Hx]; simpl; [constructor|]. clear Hs. apply Forall_rev in Hx.
  induction IH as [|y m Hm IH Hy]; simpl; [by repeat constructor|]. apply Forall_cons in Hx as [Hxy Hx].
  constructor; [by apply IH|]. apply Forall_app. split; [done|]. repeat constructor. lia.
Qed.

Lemma filter_sorted (R : Z -> Z -> Prop) f l : StronglySorted R l -> StronglySorted R (List.filter f l).
Proof.
  induction 1 as [|x l Hs IH Hx]; simpl; [constructor|]. destruct (f x); [|done]. constructor; [done|].
  apply Forall_forall. intros t Ht%list_elem_of_In. apply List.filter_In in Ht as [Ht _]. rewrite Forall_forall in Hx.
  apply Hx. by apply list_elem_of_In.
Qed.

(** The deque, once old hits are dropped, holds the recent admitted attempts. *)
Lemma limited_run_spec l h now :
  StronglySorted Z.ge (now :: h) -> pop_old (rl_window l) now (limited_run l h) = rev (recent l now (admitted l h)).
Proof.
  revert now. induction h as [|t h IH]; intros now Hs; [done|].
  apply StronglySorted_inv in Hs as [Hs Hn]. apply Forall_cons in Hn as [Hn _]. specialize (IH t Hs).
  assert (Ha : StronglySorted Z.ge (t :: recent l t (admitted l h))).
  { apply StronglySorted_inv in Hs as [Hs Ht]. constructor; [by apply filter_sorted, admitted_sorted|].
    apply Forall_forall. intros x Hx%list_elem_of_In. apply List.filter_In in Hx as [Hx%admitted_incl _].
    rewrite Forall_forall in Ht. apply Ht. by apply list_elem_of_In. }
  cbn [limited_run admitted]. unfold allow. rewrite IH, length_rev. fold (recent l t (admitted l h)).
  destruct (_ <=? Z.of_nat _); cbn [snd].
  - rewrite pop_old_sorted by (by apply sorted_rev; inversion Ha). rewrite filter_rev.
    fold (recent l now (recent l t (admitted l h))). rewrite recent_recent by lia. done.
  - change (rev (recent l t (admitted l h)) ++ [t]) with (rev (t :: recent l t (admitted l h))).
    rewrite pop_old_sorted by (by apply sorted_rev). rewrite filter_rev. f_equal. simpl.
    fold (recent l now (recent l t (admitted l h))). by rewrite recent_recent by lia.
Qed.

Definition in_window (x w : Z) (t : Z) : bool := (x <=? t) && (t <=? x + w).

Lemma filter_length_mono {X} (f g : X -> bool) l :
  (forall x, f x = true -> g x = true) -> (length (List.filter f l) <= length (List.filter g l))%nat.
Proof.
  intros Hfg. induction l as [|x l IH]; simpl; [done|]. destruct (f x) eqn:E; [rewrite (Hfg x E); simpl; lia|].
  destruct (g x); simpl; lia.
Qed.

(** The limiter lets an attempt through exactly when fewer than [limit] attempts were let
    through in the preceding window, and in no window of that length, wherever it starts, are more
    than [limit] let through. *)
Theorem limiter_exact l now h :
  0 <= rl_limit l -> StronglySorted Z.ge (now :: h) ->
  (allow l now (limited_run l h)).1 = (Z.of_nat (length (recent l now (admitted l h))) <? rl_limit l) /\
  forall x, Z.of_nat (length (List.filter (in_window x (rl_window l)) (admitted l (now :: h)))) <= rl_limit l.
Proof.
  intros Hl Hs. split.
  - unfold allow. rewrite (limited_run_spec l h now Hs), length_rev. destruct (_ <=? Z.of_nat _) eqn:E; simpl; lia.
  - intros x. revert Hs. generalize (now :: h) as k. clear now h. induction k as [|t k IH]; intros Hs; [simpl; lia|].
    pose proof (StronglySorted_inv Hs) as [Hk Ht]. specialize (IH Hk). cbn [admitted]. destruct (_ <=? Z.of_nat _) eqn:E; [done|].
    simpl. destruct (in_window x (rl_window l) t) eqn:Ew; [|done]. simpl.
    pose proof (filter_length_mono (in_window x (rl_window l)) (fun t0 => t - t0 <=? rl_window l) (admitted l k)) as Hsub.
    lapply Hsub; [lia|]. unfold in_window in *. intros y Hy. reflect_all. lia.
Qed.

(** ** Histories *)

Section histories.
Context {A : Argon2} {D : Digest} {M : CsrfMac} (st : AuthSettings).

Record session_ok (d : AuthDB) (now : instant) (i : uuid) (s : LoginSession) : Prop := {
  so_id : ls_id s = i;
  so_old : (i < ad_fresh d)%N;
  so_owner : is_Some (ad_users d !! ls_user_id s);
  so_absolute : ls_expires_at s = ls_created_at s + seconds (session_absolute_seconds st);
  so_seen : ls_created_at s <= ls_last_seen_at s <= now;
  so_idle : ls_idle_expires_at s <= ls_last_seen_at s + seconds (session_idle_seconds st)
}.

Record user_ok (d : AuthDB) (i : uuid) (u : User) : Prop := {
  uo_id : us_id u = i;
  uo_old : (i < ad_fresh d)%N;
  uo_role : us_role u = "owner"%string;
  uo_enabled : us_disabled_at u = None
}.

Record AInv (d : AuthDB) (now : instant) : Prop := {
  ai_user : forall i u, ad_users d !! i = Some u -> user_ok d i u;
  ai_one : forall i j u v, ad_users d !! i = Some u -> ad_users d !! j = Some v -> i = j;
  ai_session : forall i s, ad_sessions d !! i = Some s -> session_ok d now i s;
  ai_hash : forall i j s s', ad_sessions d !! i = Some s -> ad_sessions d !! j = Some s' -> ls_token_hash s = ls_token_hash s' -> i = j
}.

Lemma AInv0 now : AInv auth0 now.
Proof. split; unfold auth0; simpl; intros; set_solver. Qed.

Lemma AInv_later d now now' : now <= now' -> AInv d now -> AInv d now'.
Proof.
  intros Hle []. split; try done. intros i s Hs. destruct (ai_session0 _ _ Hs). split; try done. lia.
Qed.

(** What no request changes of a session, and of a user but for the password. *)
Definition session_fixed (s : LoginSession) := (ls_id s, ls_token_hash s, ls_user_id s, ls_expires_at s, ls_created_at s).
Definition user_fixed (u : User) := (us_id u, us_username u, us_username_normalized u, us_email u, us_role u, us_disabled_at u).

Record evolves (d d' : AuthDB) : Prop := {
  ev_session : forall i s, ad_sessions d !! i = Some s -> exists s', ad_sessions d' !! i = Some s' /\ session_fixed s' = session_fixed s /\
               (is_Some (ls_revoked_at s) -> is_Some (ls_revoked_at s'));
  ev_user : forall i u, ad_users d !! i = Some u -> exists u', ad_users d' !! i = Some u' /\ user_fixed u' = user_fixed u
}.

#[local] Instance evolves_preorder : PreOrder evolves.
Proof.
  split.
  - intros d. split; intros i x H; exists x; auto.
  - intros d1 d2 d3 [S1 U1] [S2 U2]. split.
    + intros i s Hs. destruct (S1 _ _ Hs) as (s1 & H1 & F1 & R1). destruct (S2 _ _ H1) as (s2 & H2 & F2 & R2).
      exists s2. split; [done|]. split; [congruence|auto].
    + intros i u Hu. destruct (U1 _ _ Hu) as (u1 & H1 & F1). destruct (U2 _ _ H1) as (u2 & H2 & F2). exists u2. split; [done|congruence].
Qed.

Lemma find_row {X} (f : X -> bool) (m : gmap uuid X) x : List.find f (rows m) = Some x -> (exists i, m !! i = Some x) /\ f x = true.
Proof.
  intros H. apply find_some in H as [Hin Hf]. split; [|done]. unfold rows in Hin.
  apply in_map_iff in Hin as ([i y] & <- & Hin). exists i. by apply elem_of_map_to_list, list_elem_of_In.
Qed.

Lemma find_row_none {X} (f : X -> bool) (m : gmap uuid X) i x : List.find f (rows m) = None -> m !! i = Some x -> f x = false.
Proof.
  intros H Hm. eapply find_none in H; [done|]. unfold rows. apply in_map_iff. exists (i, x). split; [done|].
  by apply list_elem_of_In, elem_of_map_to_list.
Qed.

Lemma existsb_rows {X} (f : X -> bool) (m : gmap uuid X) i x : existsb f (rows m) = false -> m !! i = Some x -> f x = false.
Proof.
  intros H Hm. destruct (f x) eqn:E; [|done]. assert (existsb f (rows m) = true); [|congruence]. apply existsb_exists. exists x.
  split; [|done]. unfold rows. apply in_map_iff. exists (i, x). split; [done|]. by apply list_elem_of_In, elem_of_map_to_list.
Qed.

(** *** Writes *)

Lemma put_session_ok d now s s0 :
  AInv d now -> ad_sessions d !! ls_id s = Some s0 -> session_fixed s = session_fixed s0 ->
  ls_last_seen_at s0 <= ls_last_seen_at s <= now ->
  ls_idle_expires_at s <= ls_last_seen_at s + seconds (session_idle_seconds st) ->
  (is_Some (ls_revoked_at s0) -> is_Some (ls_revoked_at s)) ->
  let d' := d <| ad_sessions ::= <[ls_id s := s]> |> in AInv d' now /\ evolves d d'.
Proof.
  intros HI H0 Hf Hseen Hidle Hrev d'. assert (Hd : ad_sessions d' = <[ls_id s := s]> (ad_sessions d)) by done.
  assert (Hu : ad_users d' = ad_users d) by done. assert (Hfr : ad_fresh d' = ad_fresh d) by done. clearbody d'. split.
  - destruct HI. split.
    + intros i u. rewrite Hu. intros H. destruct (ai_user0 _ _ H). split; rewrite ?Hfr; done.
    + rewrite Hu. done.
    + intros i x. rewrite Hd. intros [[<- <-]|[_ Hx]]%lookup_insert_Some.
      * destruct (ai_session0 _ _ H0). unfold session_fixed in Hf. injection Hf as E1 E2 E3 E4 E5.
        split; rewrite ?Hfr, ?Hu, ?E3; try done; [congruence|lia].
      * destruct (ai_session0 _ _ Hx). split; rewrite ?Hfr, ?Hu; done.
    + assert (Hold : forall i x, ad_sessions d' !! i = Some x -> exists y, ad_sessions d !! i = Some y /\ ls_token_hash x = ls_token_hash y).
      { intros i x. rewrite Hd. intros [[<- <-]|[_ Hx]]%lookup_insert_Some; [|by exists x]. exists s0. split; [done|].
        by injection Hf. }
      intros i j x y Hx Hy Hh. destruct (Hold _ _ Hx) as (x0 & Hx0 & Ex), (Hold _ _ Hy) as (y0 & Hy0 & Ey).
      eapply ai_hash0; [exact Hx0|exact Hy0|congruence].
  - split; [|intros i u; rewrite Hu; by exists u]. intros i x Hx. rewrite Hd. destruct (decide (i = ls_id s)) as [->|Hne].
    + exists s. rewrite lookup_insert_eq. assert (x = s0) as -> by congruence. auto.
    + exists x. rewrite lookup_insert_ne by done. auto.
Qed.

Lemma audit_ok d now (f : list AuditEvent -> list AuditEvent) : AInv d now -> AInv (d <| ad_audit ::= f |>) now /\ evolves d (d <| ad_audit ::= f |>).
Proof. intros []. split; [split; try done; intros i x Hx; by destruct (ai_session0 _ _ Hx) || destruct (ai_user0 _ _ Hx)|split; eauto]. Qed.

Lemma find_session_some h d s u :
  find_session h d = Some (s, u) -> (exists i, ad_sessions d !! i = Some s) /\ ls_token_hash s = h /\ ad_users d !! ls_user_id s = Some u.
Proof.
  unfold find_session. intros Hf. apply bind_Some in Hf as (s0 & Hf & Hu). apply bind_Some in Hu as (u0 & Hu & [= -> ->]).
  apply find_row in Hf as [Hi Hh%String.eqb_eq]. auto.
Qed.

Lemma find_session_hit d now i s u :
  AInv d now -> ad_sessions d !! i = Some s -> ad_users d !! ls_user_id s = Some u -> find_session (ls_token_hash s) d = Some (s, u).
Proof.
  intros HI Hs Hu. unfold find_session. destruct (List.find _ _) as [s'|] eqn:Hf.
  - apply find_row in Hf as [[j Hj] Hh%String.eqb_eq]. pose proof (ai_hash _ _ HI _ _ _ _ Hj Hs Hh) as ->.
    assert (s' = s) as -> by congruence. simpl. by rewrite Hu.
  - pose proof (find_row_none _ _ _ _ Hf Hs) as Hn. simpl in Hn. by rewrite String.eqb_refl in Hn.
Qed.

Lemma touch_ok d now i s :
  AInv d now -> ad_sessions d !! i = Some s ->
  let s' := touch st now s in
  session_fixed s' = session_fixed s /\ ls_last_seen_at s <= ls_last_seen_at s' <= now /\
  ls_idle_expires_at s' <= ls_last_seen_at s' + seconds (session_idle_seconds st) /\ ls_revoked_at s' = ls_revoked_at s.
Proof.
  intros HI Hs. destruct (ai_session _ _ HI _ _ Hs). cbv zeta. unfold touch. destruct (_ <? _); cbn; split_and!; try done; lia.
Qed.

(** *** Transactions *)

Lemma current_auth_ok r d now :
  AInv d now -> wp (current_auth st r now) (fun c d' => AInv d' now /\ evolves d d' /\ ad_sessions d' !! ls_id (ac_session c) = Some (ac_session c)) d.
Proof.
  intros HI. unfold current_auth. destruct (hr_session_cookie r) as [token|]; [|done]. apply wp_bind, wp_guard. intros _.
  apply wp_bind, wp_gets. destruct (find_session _ d) as [[s u]|] eqn:Hf; [|done]. apply find_session_some in Hf as ([i Hs] & _ & _).
  apply wp_bind, wp_guard. intros _. apply wp_bind. eapply wp_mono with (Q := fun _ d' => d' = d).
  { destruct (is_unsafe r); [|done]. unfold check_origin. wp_steps. }
  intros _ d' ->. apply wp_bind, wp_modify, wp_ret. pose proof (so_id _ _ _ _ (ai_session _ _ HI _ _ Hs)) as Hid.
  destruct (touch_ok _ _ _ _ HI Hs) as (Hfix & Hseen & Hidle & Hrev). assert (Hid' : ls_id (touch st now s) = i).
  { unfold session_fixed in Hfix. injection Hfix as -> _ _ _ _. done. }
  assert (Hs' : ad_sessions d !! ls_id (touch st now s) = Some s) by (by rewrite Hid').
  destruct (put_session_ok d now (touch st now s) s HI Hs' Hfix Hseen Hidle) as [HI' HE]; [by rewrite Hrev|].
  split; [done|]. split; [done|]. apply lookup_insert_eq.
Qed.

Lemma start_session_ok r d now u token :
  AInv d now -> is_Some (ad_users d !! us_id u) ->
  wp (start_session st r u token now) (fun _ d' => AInv d' now /\ evolves d d') d.
Proof.
  intros HI Hu. unfold start_session. apply wp_bind, wp_get, wp_bind, wp_guard. intros Hfree. apply negb_true_iff in Hfree.
  apply wp_bind, wp_modify, wp_bind, wp_modify, wp_ret. cbn [ls_id].
  set (s := mkLoginSession _ _ _ _ _ _ _ _ _ _). match goal with |- AInv ?x now /\ _ => set (d' := x) end.
  assert (Hd : ad_sessions d' = <[ad_fresh d := s]> (ad_sessions d)) by done. assert (Hus : ad_users d' = ad_users d) by done.
  assert (Hfr : ad_fresh d' = N.succ (ad_fresh d)) by done. clearbody d'.
  assert (Hnew : ad_sessions d !! ad_fresh d = None).
  { destruct (ad_sessions d !! ad_fresh d) eqn:E; [|done]. destruct (ai_session _ _ HI _ _ E). lia. }
  split.
  - split.
    + intros i v. rewrite Hus. intros H. destruct (ai_user _ _ HI _ _ H). split; rewrite ?Hfr; try done. lia.
    + rewrite Hus. apply HI.
    + intros i x. rewrite Hd. intros [[<- <-]|[_ Hx]]%lookup_insert_Some.
      * split; rewrite ?Hfr, ?Hus; cbn; try done; lia.
      * destruct (ai_session _ _ HI _ _ Hx). split; rewrite ?Hfr, ?Hus; try done. lia.
    + intros i j x y. rewrite Hd. intros [[<- <-]|[_ Hx]]%lookup_insert_Some [[<- <-]|[_ Hy]]%lookup_insert_Some Hh; [done|..|].
      * pose proof (existsb_rows _ _ _ _ Hfree Hy) as Hn. simpl in Hn, Hh. rewrite <- Hh, String.eqb_refl in Hn. done.
      * pose proof (existsb_rows _ _ _ _ Hfree Hx) as Hn. simpl in Hn, Hh. rewrite Hh, String.eqb_refl in Hn. done.
      * exact (ai_hash _ _ HI _ _ _ _ Hx Hy Hh).
  - split; [|intros i v; rewrite Hus; by exists v]. intros i x Hx. exists x. rewrite Hd, lookup_insert_ne by congruence. done.
Qed.

(** The owner account as [bootstrap] and [login] leave it. *)
Lemma put_user_ok d now u (f : AuthDB -> AuthDB) :
  AInv d now -> (forall j v, ad_users d !! j = Some v -> j = us_id u /\ user_fixed u = user_fixed v) ->
  user_ok (f d) (us_id u) u -> ad_users (f d) = <[us_id u := u]> (ad_users d) -> ad_sessions (f d) = ad_sessions d ->
  (ad_fresh d <= ad_fresh (f d))%N -> AInv (f d) now /\ evolves d (f d).
Proof.
  intros HI Hone Huok Hu Hs Hfr. split.
  - split.
    + intros i v. rewrite Hu. intros [[<- <-]|[_ H]]%lookup_insert_Some; [done|]. destruct (ai_user _ _ HI _ _ H). split; try done. lia.
    + assert (Hall : forall i v, ad_users (f d) !! i = Some v -> i = us_id u).
      { intros i v. rewrite Hu. intros [[<- _]|[_ H]]%lookup_insert_Some; [done|]. by apply (Hone _ _ H). }
      intros i j v w Hi Hj. rewrite (Hall _ _ Hi), (Hall _ _ Hj). done.
    + intros i x. rewrite Hs. intros Hx. destruct (ai_session _ _ HI _ _ Hx). split; try done; [lia|].
      rewrite Hu. destruct (decide (us_id u = ls_user_id x)) as [<-|]; [rewrite lookup_insert_eq; eauto|by rewrite lookup_insert_ne].
    + rewrite Hs. apply HI.
  - split; [intros i x; rewrite Hs; by exists x|]. intros i v Hv. destruct (Hone _ _ Hv) as [-> Hf]. exists u.
    rewrite Hu, lookup_insert_eq. done.
Qed.
Lemma audit_wp {X} (m : AM X) d0 d now f :
  AInv d now -> evolves d0 d ->
  (forall d', AInv d' now -> evolves d0 d' -> wp m (fun _ d' => AInv d' now /\ evolves d0 d') d') ->
  wp (modify (fun d => d <| ad_audit ::= f |>) ;; m) (fun _ d' => AInv d' now /\ evolves d0 d') d.
Proof. intros HI HE Hm. apply wp_bind, wp_modify. destruct (audit_ok d now f HI) as [HI' HE']. apply Hm; [done|by etransitivity]. Qed.

Lemma bootstrap_ok r body salt token d now :
  AInv d now -> wp (bootstrap st r body salt token now) (fun _ d' => AInv d' now /\ evolves d d') d.
Proof.
  intros HI. unfold bootstrap. apply wp_bind, wp_get, wp_bind, wp_guard. intros He%bool_decide_eq_true.
  destruct (negb _).
  - apply audit_wp; [done|done|]. intros d' ? ?. by apply wp_ret.
  - apply wp_bind, wp_modify. cbn [us_id]. set (u := mkUser _ _ _ _ _ _ _).
    match goal with |- wp _ _ ?x => set (d1 := x) end.
    assert (H1 : AInv d1 now /\ evolves d d1).
    { apply (put_user_ok d now u (fun _ => d1)); [done|by rewrite He| |done|done|cbn; lia]. split; cbn; try done. lia. }
    destruct H1 as [HI1 HE1]. apply wp_bind. eapply wp_mono; [apply (start_session_ok r d1 now u token HI1)|].
    { exists u. apply lookup_insert_eq. }
    intros out d2 [HI2 HE2]. apply audit_wp; [done|by etransitivity|]. intros d' ? ?. by apply wp_ret.
Qed.

Lemma login_ok r username password salt token d now :
  AInv d now -> wp (login st r username password salt token now) (fun _ d' => AInv d' now /\ evolves d d') d.
Proof.
  intros HI. unfold login. apply wp_bind, wp_gets. destruct (user_named username d) as [u|] eqn:Hn.
  - destruct (negb _ || _); [apply audit_wp; [done|done|]; intros d' ? ?; by apply wp_ret|].
    apply find_row in Hn as [[i Hi] _]. pose proof (ai_user _ _ HI _ _ Hi) as [Hid Hold Hrole Hen].
    set (u' := if check_needs_rehash _ then _ else u). assert (Hf : user_fixed u' = user_fixed u) by (unfold u'; by destruct (check_needs_rehash _)).
    injection Hf as F1 F2 F3 F4 F5 F6. apply wp_bind, wp_modify. match goal with |- wp _ _ ?x => set (d1 := x) end.
    assert (H1 : AInv d1 now /\ evolves d d1).
    { apply (put_user_ok d now u' (fun _ => d1)); try done.
      - intros j v Hj. pose proof (ai_one _ _ HI _ _ _ _ Hi Hj) as <-. assert (v = u) as -> by congruence. split; [congruence|].
        unfold user_fixed. congruence.
      - split; cbn; congruence || lia. }
    destruct H1 as [HI1 HE1]. apply wp_bind. eapply wp_mono; [apply (start_session_ok r d1 now u' token HI1)|].
    { exists u'. apply lookup_insert_eq. }
    intros out d2 [HI2 HE2]. apply audit_wp; [done|by etransitivity|]. intros d' ? ?. by apply wp_ret.
  - apply audit_wp; [done|done|]. intros d' ? ?. by apply wp_ret.
Qed.

Lemma logout_ok r d now : AInv d now -> wp (logout st r now) (fun _ d' => AInv d' now /\ evolves d d') d.
Proof.
  intros HI. unfold logout. apply wp_bind. eapply wp_mono; [by apply current_auth_ok|]. intros c d1 (HI1 & HE1 & Hs).
  apply wp_bind, wp_get. rewrite Hs. apply wp_bind, wp_modify. set (s := ac_session c) in *. clearbody s.
  destruct (ai_session _ _ HI1 _ _ Hs) as [? ? ? ? Hseen Hidle].
  pose (s1 := s <| ls_revoked_at := Some now |>).
  destruct (put_session_ok d1 now s1 s HI1 Hs eq_refl) as [HI2 HE2]; [exact (conj (Z.le_refl _) (proj2 Hseen))|exact Hidle|intros _; exists now; done|].
  apply wp_modify. destruct (audit_ok _ now (fun l => l ++ [mkAudit "user" (uuid_str <$> Some (us_id (ac_user c))) "auth.logout" None None "success" (redact (JObj []))]) HI2) as [HI3 HE3].
  split; [exact HI3|]. etransitivity; [exact HE1|]. etransitivity; [exact HE2|exact HE3].
Qed.

Lemma limited_ok bucket r mono m s v s' now :
  AInv (as_db s) now -> (forall d, AInv d now -> wp m (fun _ d' => AInv d' now /\ evolves d d') d) ->
  limited st bucket r mono m s = (v, s') -> AInv (as_db s') now /\ evolves (as_db s) (as_db s').
Proof.
  intros HI Hm. unfold limited. destruct (negb _); [by intros [= <- <-]|]. destruct (allow _ _ _) as [[] hits]; [|by intros [= <- <-]].
  specialize (Hm _ HI). unfold wp in Hm. cbn [as_db]. destruct (m (as_db s)) as [[v' d']|e]; by intros [= <- <-].
Qed.

Lemma astep_ok s s' :
  AInv (as_db s) (as_now s) -> astep st s s' -> AInv (as_db s') (as_now s') /\ evolves (as_db s) (as_db s') /\ as_now s <= as_now s'.
Proof.
  intros HI Hs. destruct Hs as [? ? now ? Ht Hd|? ? ? ? ? now ? ? Ht Hd|? ? ? ? ? ? now ? ? Ht Hd|? now ? ? Ht Hd|? now ? Ht Hd|now Ht];
    pose proof (AInv_later _ _ _ Ht HI) as HI'; cbn [as_db as_now].
  - injection Hd as <-. split; [|split; [split; eauto|done]]. destruct HI'. split; try done;
      intros i x Hx; by destruct (ai_session0 _ _ Hx) || destruct (ai_user0 _ _ Hx).
  - destruct (limited_ok _ _ _ _ _ _ _ now HI' (fun d => bootstrap_ok _ _ _ _ d now) Hd). done.
  - destruct (limited_ok _ _ _ _ _ _ _ now HI' (fun d => login_ok _ _ _ _ _ d now) Hd). done.
  - destruct (wp_run _ _ _ _ _ (current_auth_ok _ _ _ HI') Hd) as (? & ? & _). done.
  - destruct (wp_run _ _ _ _ _ (logout_ok _ _ _ HI') Hd). done.
  - done.
Qed.

Lemma asteps_ok s s' :
  AInv (as_db s) (as_now s) -> rtc (astep st) s s' -> AInv (as_db s') (as_now s') /\ evolves (as_db s) (as_db s') /\ as_now s <= as_now s'.
Proof.
  intros HI Hs. induction Hs as [s|s s1 s2 H _ IH]; [by split; [|split; [|lia]]|]. destruct (astep_ok _ _ HI H) as (HI1 & HE1 & Ht1).
  destruct (IH HI1) as (HI2 & HE2 & Ht2). split; [done|]. split; [by etransitivity|lia].
Qed.

Lemma reachable_ok now0 s : rtc (astep st) (initial_auth now0) s -> AInv (as_db s) (as_now s).
Proof. intros Hs. by apply (asteps_ok (initial_auth now0) s (AInv0 now0)) in Hs as (? & _). Qed.

Lemma start_session_setup r u token now d : wp (start_session st r u token now) (fun _ d' => ad_setup d' = ad_setup d) d.
Proof. unfold start_session. apply wp_bind, wp_get, wp_bind, wp_guard. intros _. by apply wp_bind, wp_modify, wp_bind, wp_modify, wp_ret. Qed.

Lemma bootstrap_creates r body salt token now d :
  wp (bootstrap st r body salt token now) (fun _ d' => ad_users d' <> ad_users d ->
    ad_users d = ∅ /\ setup_valid d (bi_token body) now = true /\ ad_setup d' = None) d.
Proof.
  unfold bootstrap. apply wp_bind, wp_get, wp_bind, wp_guard. intros He%bool_decide_eq_true.
  destruct (setup_valid d (bi_token body) now); cbn [negb]; [|by apply wp_bind, wp_modify, wp_ret].
  apply wp_bind, wp_modify, wp_bind. eapply wp_mono; [apply start_session_setup|]. intros out d2 Hd2.
  by apply wp_bind, wp_modify, wp_ret.
Qed.


(** What [current_auth] has checked. *)
Record authenticated (d : AuthDB) (r : HttpRequest) (now : instant) (s : LoginSession) (u : User) : Prop := {
  an_cookie : exists token, hr_session_cookie r = Some token /\ ls_token_hash s = hash_token token;
  an_row : exists i, ad_sessions d !! i = Some s;
  an_user : ad_users d !! ls_user_id s = Some u;
  an_live : ls_revoked_at s = None;
  an_absolute : now < ls_created_at s + seconds (session_absolute_seconds st);
  an_idle : now < ls_last_seen_at s + seconds (session_idle_seconds st);
  an_origin : is_unsafe r = true -> origin_ok st r = true /\ hr_csrf_header r = csrf_token (secret_key st) (ls_token_hash s)
}.

Lemma unsafe_checked r token_hash (d : AuthDB) :
  wp (if is_unsafe r then check_origin st r ;;
        guard (negb (String.eqb (hr_csrf_header r) "") && String.eqb (hr_csrf_header r) (csrf_token (secret_key st) token_hash)) CSRF_FAILED
      else ret tt)
    (fun _ d' => d' = d /\ (is_unsafe r = true -> origin_ok st r = true /\ hr_csrf_header r = csrf_token (secret_key st) token_hash)) d.
Proof.
  unfold check_origin. destruct (is_unsafe r) eqn:Eu; [|by apply wp_ret]. apply wp_bind, wp_guard. rewrite orb_false_l.
  intros Ho. apply wp_guard. intros [_ Hc%String.eqb_eq]%andb_true_iff. done.
Qed.

Lemma current_auth_spec r d now0 now :
  AInv d now0 -> wp (current_auth st r now) (fun c d' =>
    exists s, authenticated d r now s (ac_user c) /\ ac_session c = touch st now s /\ ac_token_hash c = ls_token_hash s) d.
Proof.
  intros HI. unfold current_auth. destruct (hr_session_cookie r) as [token|] eqn:Hc; [|done]. apply wp_bind, wp_guard. intros _.
  apply wp_bind, wp_gets. destruct (find_session _ d) as [[s u]|] eqn:Hf; [|done].
  apply find_session_some in Hf as ([i Hs] & Hh & Hu). apply wp_bind, wp_guard. intros Hx%negb_true_iff.
  apply wp_bind. eapply wp_mono; [apply unsafe_checked|]. intros _ d' [-> Hun].
  apply wp_bind, wp_modify, wp_ret. cbn [ac_user ac_session ac_token_hash]. exists s. split; [|done]. destruct (ai_session _ _ HI _ _ Hs).
  unfold expired in Hx. repeat apply orb_false_iff in Hx as [Hx ?]. reflect_all.
  split; [by exists token|by exists i|done| |lia|lia|by rewrite Hh].
  destruct (ls_revoked_at s); [|done]. exfalso. apply Hx. eauto.
Qed.

(** C15: A request is authenticated only by the cookie of a session that was not signed out, is
    younger than the absolute limit and was seen within the idle limit, and an unsafe one only
    with an allowed origin and the CSRF token of that very session; once signed out, a session
    never authenticates a request again, whatever happens next. *)
Theorem sessions_guarded now0 s r now :
  rtc (astep st) (initial_auth now0) s -> as_now s <= now ->
  (forall c d, current_auth st r now (as_db s) = Ok (c, d) ->
     exists x, authenticated (as_db s) r now x (ac_user c)) /\
  (forall d s' r' now',
     logout st r now (as_db s) = Ok (tt, d) -> rtc (astep st) (mkAuthState d (as_hits s) now) s' ->
     hr_session_cookie r' = hr_session_cookie r -> current_auth st r' now' (as_db s') = Err SESSION_EXPIRED).
Proof.
  intros Hs Ht. pose proof (AInv_later _ _ _ Ht (reachable_ok _ _ Hs)) as HI. split.
  - intros c d Hc. destruct (wp_run _ _ _ _ _ (current_auth_spec r _ _ now HI) Hc) as (x & Hx & _). by exists x.
  - intros d s' r' now' Hl Hs' Hcookie. unfold logout in Hl. unfold bind in Hl at 1.
    destruct (current_auth st r now (as_db s)) as [[c d1]|] eqn:Hc; [|done].
    pose proof (wp_run _ _ _ _ _ (current_auth_ok _ _ _ HI) Hc) as (HI1 & _ & Hrow).
    destruct (wp_run _ _ _ _ _ (current_auth_spec r _ _ now HI) Hc) as (x & Hx & Hsess & Hhash).
    assert (Hd : AInv d now /\ exists y, ad_sessions d !! ls_id (ac_session c) = Some y /\ is_Some (ls_revoked_at y) /\
                 ls_token_hash y = ls_token_hash x).
    { split; [|].
      - assert (Hlo : logout st r now (as_db s) = Ok (tt, d)); [|exact (proj1 (wp_run _ _ _ _ _ (logout_ok _ _ _ HI) Hlo))].
        unfold logout. unfold bind at 1. rewrite Hc. exact Hl.
      - unfold bind, get in Hl. rewrite Hrow in Hl. cbn in Hl. injection Hl as <-. cbn. eexists. split; [apply lookup_insert_eq|].
        cbn. split; [by eexists|]. rewrite Hsess. unfold touch. by destruct (_ <? _). }
    destruct Hd as (HId & y & Hy & Hrev & Hyh). destruct (asteps_ok (mkAuthState d (as_hits s) now) s' HId Hs') as (HI' & HE & _).
    destruct (ev_session _ _ HE _ _ Hy) as (z & Hz & Hzf & Hzr). specialize (Hzr Hrev).
    destruct (an_cookie _ _ _ _ _ Hx) as (token & Htok & Hth). unfold current_auth. rewrite Hcookie, Htok.
    assert (Hne : negb (String.eqb token "") = true).
    { unfold current_auth in Hc. rewrite Htok in Hc. unfold bind, guard in Hc. by destruct (negb (String.eqb token "")). }
    unfold bind, guard, gets, raise. rewrite Hne.
    destruct (so_owner _ _ _ _ (ai_session _ _ HI' _ _ Hz)) as [u Hu].
    assert (Hzh : ls_token_hash z = hash_token token) by (unfold session_fixed in Hzf; injection Hzf; congruence).
    rewrite <- Hzh. cbn [ret]. unfold ret. rewrite (find_session_hit _ _ _ _ _ HI' Hz Hu). unfold expired.
    rewrite bool_decide_true by done. done.
Qed.

(** The session that [start_session] adds. *)
Lemma start_session_row r u token now d :
  wp (start_session st r u token now) (fun out d' =>
    so_user out = us_id u /\ so_csrf_token out = csrf_token (secret_key st) (hash_token token) /\ ad_users d' = ad_users d /\
    exists i x, ad_sessions d' !! i = Some x /\ ls_token_hash x = hash_token token /\ ls_user_id x = us_id u /\ ls_revoked_at x = None /\
      ls_expires_at x = so_expires_at out /\ ls_idle_expires_at x = so_idle_expires_at out) d.
Proof.
  unfold start_session. apply wp_bind, wp_get, wp_bind, wp_guard. intros _. apply wp_bind, wp_modify, wp_bind, wp_modify, wp_ret.
  split; [done|]. split; [done|]. split; [done|]. eexists _, _. split; [apply lookup_insert_eq|done].
Qed.

Lemma login_session r username password salt token now d :
  wp (login st r username password salt token now) (fun v d' =>
    match v with
    | Ok out => exists u, user_named username d = Some u /\ argon_verify (us_password_hash u) password = true /\ us_disabled_at u = None /\
        so_user out = us_id u /\ so_csrf_token out = csrf_token (secret_key st) (hash_token token) /\
        exists i x u', ad_sessions d' !! i = Some x /\ ad_users d' !! us_id u = Some u' /\ us_id u' = us_id u /\ us_disabled_at u' = None /\
          ls_token_hash x = hash_token token /\ ls_user_id x = us_id u /\
          ls_revoked_at x = None /\ ls_expires_at x = so_expires_at out /\ ls_idle_expires_at x = so_idle_expires_at out
    | Err e => e = mkError "INVALID_CREDENTIALS" 401 [] /\ ad_sessions d' = ad_sessions d /\ ad_users d' = ad_users d
    end) d.
Proof.
  unfold login. apply wp_bind, wp_gets. destruct (user_named username d) as [u|] eqn:Hn; [|by apply wp_bind, wp_modify, wp_ret].
  cbn [fmap option_fmap option_map]. unfold verify_password. cbn [default]. rewrite (bool_decide_true (is_Some (Some _))) by eauto.
  rewrite andb_true_r. destruct (argon_verify _ _) eqn:Hv; [|by apply wp_bind, wp_modify, wp_ret].
  destruct (bool_decide (is_Some (us_disabled_at u))) eqn:Hd; [by apply wp_bind, wp_modify, wp_ret|]. cbn [negb orb].
  apply bool_decide_eq_false in Hd. assert (Hen : us_disabled_at u = None) by (destruct (us_disabled_at u); [destruct Hd; eauto|done]).
  set (u' := if check_needs_rehash _ then _ else u). assert (Hf : user_fixed u' = user_fixed u) by (unfold u'; by destruct (check_needs_rehash _)).
  injection Hf as F1 F2 F3 F4 F5 F6. apply wp_bind, wp_modify, wp_bind. eapply wp_mono; [apply start_session_row|].
  intros out d1 (Ho & Hcs & Hu & i & x & Hx & Hh & Hxu & Hr & He & Hi). apply wp_bind, wp_modify, wp_ret. exists u. rewrite F1 in *.
  split; [done|]. split; [done|]. split; [done|]. split; [done|]. split; [done|]. exists i, x, u'. split; [exact Hx|].
  split; [|by rewrite F1, F6]. cbn. rewrite Hu. cbn. rewrite <- F1. apply lookup_insert_eq.
Qed.

(** Signing in works and only with the password: when [login] commits a session, the password
    verifies against the stored hash of the enabled account of that name, and the session's cookie
    authenticates its requests until the absolute or idle limit, unsafe ones with the CSRF token
    that was handed out; otherwise the answer is INVALID_CREDENTIALS and no session or account
    changes. *)
Theorem sign_in_works now0 s r username password salt token now v d :
  rtc (astep st) (initial_auth now0) s -> as_now s <= now -> login st r username password salt token now (as_db s) = Ok (v, d) ->
  match v with
  | Err e => e = mkError "INVALID_CREDENTIALS" 401 [] /\ ad_sessions d = ad_sessions (as_db s) /\ ad_users d = ad_users (as_db s)
  | Ok out =>
      (exists u, user_named username (as_db s) = Some u /\ argon_verify (us_password_hash u) password = true /\ us_disabled_at u = None /\
                 so_user out = us_id u) /\
      forall r' t,
        hr_session_cookie r' = Some token -> token <> ""%string -> t < so_expires_at out -> t < so_idle_expires_at out ->
        (is_unsafe r' = true -> origin_ok st r' = true /\ hr_csrf_header r' = so_csrf_token out /\ so_csrf_token out <> ""%string) ->
        exists c d', current_auth st r' t d = Ok (c, d') /\ us_id (ac_user c) = so_user out
  end.
Proof.
  intros Hs Ht Hl. pose proof (AInv_later _ _ _ Ht (reachable_ok _ _ Hs)) as HI.
  pose proof (wp_run _ _ _ _ _ (login_ok _ _ _ _ _ _ _ HI) Hl) as [HId _].
  pose proof (wp_run _ _ _ _ _ (login_session _ _ _ _ _ _ _) Hl) as Hv. cbv beta in Hv. destruct v as [out|e]; [|exact Hv].
  destruct Hv as (u & Hn & Hpw & Hen & Hou & Hcs & i & x & u' & Hx & Hu' & Hid & Hen' & Hh & Hxu & Hr & He & Hi). split; [by exists u|].
  intros r' t Hc Hne Htx Hti Hun. unfold current_auth. rewrite Hc. unfold bind, guard, gets, raise, ret.
  rewrite (proj2 (String.eqb_neq _ _) Hne). cbn [negb]. rewrite <- Hh.
  rewrite (find_session_hit _ _ _ _ u' HId Hx) by (by rewrite Hxu). unfold expired. rewrite Hr, Hen', He, Hi.
  rewrite !bool_decide_false by (by intros []). rewrite (proj2 (Z.leb_gt _ _) Htx), (proj2 (Z.leb_gt _ _) Hti). cbn [negb orb].
  assert (Hgo : us_id u' = so_user out) by congruence. destruct (is_unsafe r') eqn:Eu; [|eauto].
  destruct (Hun eq_refl) as (Ho & Hcsrf & Hnn). unfold check_origin, guard. rewrite Eu, Ho. cbn [negb orb]. unfold ret.
  rewrite Hcsrf, Hh, (proj2 (String.eqb_neq _ _) Hnn), Hcs, String.eqb_refl. cbn [negb andb]. eauto.
Qed.
End histories.
