(* ===== verification/Telephony.v ===== *)
(** * Telephone calls ([broker/twilio.py], [broker/agent_api.py])

    Fixed-script calls: the check of the agent's text against the owner's template, the TwiML
    the callee hears, the table of calls with the transactions of [TelephonyService], and the
    composition of concurrent create requests, Twilio and its callbacks as a transition system.
    The keyed hash of phone numbers is a parameter; text is 7-bit. *)

From S2P Require Import Prelude Json Redaction SchemaGuard States Jobs RunModel RunService RunInv RunOps Platform.
From S2P Require Import Capability A1.
From Stdlib Require Import Ascii.
#[local] Open Scope Z_scope.

(** ** Scripts *)

Definition MAX_NAME : nat := 40.
Definition name_punctuation (c : ascii) : bool := one_of " '-." c.

Definition pairwise (s : text) : list (ascii * ascii) := zip s (tail s).

(** The place of a period: at the end, or after a one-letter initial. *)
Definition period_ok (name : text) (i : nat) : bool :=
  Nat.eqb i (length name - 1) || Nat.eqb i 1 ||
  match name !! (i - 2)%nat with Some c => name_punctuation c | None => false end.

Definition plain_name (name : text) : bool :=
  (1 <=? length name)%nat && (length name <=? MAX_NAME)%nat &&
  match name with c :: _ => is_letter c | [] => false end &&
  bool_decide (strip name = name) &&
  forallb (fun c => is_letter c || name_punctuation c) name &&
  negb (existsb (fun ab => name_punctuation ab.1 && name_punctuation ab.2
                           && negb (Ascii.eqb ab.1 "." && Ascii.eqb ab.2 " ")) (pairwise name)) &&
  forallb (fun ic => negb (Ascii.eqb ic.2 ".") || period_ok name ic.1) (zip (seq 0 (length name)) name).

(** [s.split(sep)] for a separator of [S n] characters: [skip] characters of a separator are
    still to be passed over. *)
Fixpoint starts (sep s : text) : bool :=
  match sep, s with
  | [], _ => true
  | a :: sep', b :: s' => Ascii.eqb a b && starts sep' s'
  | _ :: _, [] => false
  end.

Fixpoint split_text (sep : text) (skip : nat) (s : text) : list text :=
  match s with
  | [] => [[]]
  | c :: s' =>
      match skip with
      | Datatypes.S k => split_text sep k s'
      | O => if starts sep s then [] :: split_text sep (length sep - 1) s'
             else match split_text sep 0 s' with w :: ws => (c :: w) :: ws | [] => [[c]] end
      end
  end.

Definition NAME : text := chars "{name}".

(** [re.fullmatch(parts[0] + "(?P<name>.+?)" + "(?P=name)".join(parts[1:]), text, re.DOTALL)]:
    the shortest non-empty name with which the parts make up the text. *)
Definition name_at (parts : list text) (t : text) (len : nat) : text :=
  take len (drop (length (default [] (head parts))) t).
Definition fullmatch_name (parts : list text) (t : text) : option text :=
  name_at parts t <$> List.find (fun len => let n := name_at parts t len in
    Nat.eqb (length n) len && bool_decide (t = join_text n parts)) (seq 1 (length t)).

Definition approved_script (template t : text) : bool :=
  let parts := split_text NAME 0 template in
  if Nat.eqb (length parts) 1 then bool_decide (t = template)
  else match fullmatch_name parts t with Some name => plain_name name | None => false end.

(** ** TwiML *)

(** [xml.sax.saxutils.escape] and [quoteattr]. *)
Definition escape_char (c : ascii) : text :=
  if Ascii.eqb c "&" then chars "&amp;" else if Ascii.eqb c ">" then chars "&gt;"
  else if Ascii.eqb c "<" then chars "&lt;" else [c].
Definition escape (s : text) : text := flat_map escape_char s.

Definition attr_char (c : ascii) : text :=
  if code c =? 10 then chars "&#10;" else if code c =? 13 then chars "&#13;"
  else if code c =? 9 then chars "&#9;" else escape_char c.
Definition dquote : ascii := ascii_of_N 34.
Definition quoteattr (s : text) : text :=
  let data := flat_map attr_char s in
  if existsb (Ascii.eqb dquote) data then
    if existsb (Ascii.eqb "'") data then
      [dquote] ++ flat_map (fun c => if Ascii.eqb c dquote then chars "&quot;" else [c]) data ++ [dquote]
    else ["'"%char] ++ data ++ ["'"%char]
  else [dquote] ++ data ++ [dquote].

Definition quoted (s : string) : text := [dquote] ++ chars s ++ [dquote].
Definition XML_HEAD : text := chars "<?xml version=" ++ quoted "1.0" ++ chars " encoding=" ++ quoted "UTF-8" ++ chars "?><Response>".

Definition voice_twiml (disclosure script gather_url : text) (response_seconds : Z) : text :=
  XML_HEAD ++ chars "<Say>" ++ escape disclosure ++ chars "</Say>" ++
  chars "<Gather input=" ++ quoted "speech" ++ chars " method=" ++ quoted "POST" ++ chars " action=" ++ quoteattr gather_url ++
  chars " timeout=" ++ quoted (pretty response_seconds) ++ chars " speechTimeout=" ++ quoted "auto" ++ chars ">" ++
  chars "<Say>" ++ escape script ++ chars "</Say></Gather>" ++
  chars "<Say>No response was received. Goodbye.</Say></Response>".

Definition GATHER_TWIML : text := XML_HEAD ++ chars "<Say>Thank you. Goodbye.</Say><Hangup/></Response>".

(** ** Numbers and identifiers *)

(** [$] also matches before a final newline. *)
Definition at_end (s : text) : bool := match s with [] => true | [c] => code c =? 10 | _ => false end.

(** [E164.match] *)
Definition is_e164 (s : text) : bool :=
  match s with
  | p :: d :: s' =>
      Ascii.eqb p "+" && between 49 57 d &&
      let '(digits, rest) := take_upto 14 is_digit s' in (7 <=? length digits)%nat && at_end rest
  | _ => false
  end.

Definition hex_digit_char (c : ascii) : bool := is_digit c || between 97 102 c || between 65 70 c.
(** [CALL_SID.match] *)
Definition is_call_sid (s : text) : bool :=
  match s with
  | a :: b :: s' =>
      Ascii.eqb a "C" && Ascii.eqb b "A" &&
      let '(digits, rest) := take_upto 32 hex_digit_char s' in Nat.eqb (length digits) 32 && at_end rest
  | _ => false
  end.

(** [s[-4:]] *)
Definition last4 (s : text) : text := drop (length s - 4) s.

(** ** Calls *)

Record TelephonyCall := mkCall {
  tc_id : uuid;
  tc_run_id : uuid;
  tc_idempotency_key : string;
  tc_provider_sid : option text;
  tc_destination_hash : string;
  tc_destination_last4 : text;
  tc_disclosure : text;
  tc_script : text;
  tc_response_seconds : Z;
  tc_state : string;
  tc_transcript : option text;
  tc_duration_seconds : option Z;
  tc_error_code : option string
}.

#[export] Instance eta_Call : Eta TelephonyCall := fun r =>
  mkCall (tc_id r) (tc_run_id r) (tc_idempotency_key r) (tc_provider_sid r) (tc_destination_hash r) (tc_destination_last4 r)
    (tc_disclosure r) (tc_script r) (tc_response_seconds r) (tc_state r) (tc_transcript r) (tc_duration_seconds r)
    (tc_error_code r).

Definition TERMINAL : list string := ["completed"; "busy"; "no-answer"; "failed"; "canceled"]%string.
Definition RANK : list (string * Z) :=
  [("CREATING", 0); ("IN_DOUBT", 0); ("queued", 1); ("initiated", 2); ("ringing", 3); ("in-progress", 4)]%string.
Definition REPORTED : list (string * string) := [("CREATING", "queued"); ("IN_DOUBT", "failed")]%string.

Definition is_terminal (s : string) : bool := existsb (String.eqb s) TERMINAL.

Definition advances_to (current new : string) : bool :=
  if is_terminal current || String.eqb new "" then false
  else if is_terminal new then true
  else default 0 (assoc current RANK) <? default (-1) (assoc new RANK).

(** The contract's [Call]; the timestamps are left out. *)
Definition view (c : TelephonyCall) : Json :=
  JObj [("id", JStr (uuid_str (tc_id c))); ("idempotencyKey", JStr (tc_idempotency_key c));
        ("toMasked", JStr ("***" +:+ unchars (tc_destination_last4 c)));
        ("state", JStr (default (tc_state c) (assoc (tc_state c) REPORTED)));
        ("answered", JBool (existsb (String.eqb (tc_state c)) ["in-progress"; "completed"]
                            || bool_decide (is_Some (tc_transcript c))));
        ("speechCaptured", JBool (bool_decide (is_Some (tc_transcript c))));
        ("transcript", opt_json (fun t => JStr (unchars t)) (tc_transcript c));
        ("durationSeconds", opt_json JNum (tc_duration_seconds c));
        ("errorCode", opt_json JStr (tc_error_code c))]%string.

Definition outcome_unknown (id : uuid) : PlatformError :=
  mkError "OUTCOME_UNKNOWN" 503 [("callId"%string, JStr (uuid_str id))].

Definition needs_connection (provider : string) : PlatformError :=
  mkError "NEEDS_CONNECTION" 409 [("provider"%string, JStr provider)].

Record TelSettings := mkTelSettings {
  provider_mode_live : bool;
  twilio_allowed_numbers : list text;
  twilio_base_url : text
}.

(** The keyword arguments of [create_call]. *)
Record CallArgs := mkCallArgs {
  ca_run_id : uuid;
  ca_key : string;
  ca_to : text;
  ca_disclosure : text;
  ca_script : text;
  ca_response_seconds : Z;
  ca_max_calls : Z
}.

(** [_destination_hash] *)
Class PhoneHash := destination_hash : text -> string.

Record Calls := mkCalls {
  cs_calls : gmap uuid TelephonyCall;
  cs_fresh : uuid
}.

#[export] Instance eta_Calls : Eta Calls := fun r => mkCalls (cs_calls r) (cs_fresh r).

Abbreviation CM := (Tx PlatformError Calls).

Section service.
Context {PH : PhoneHash} (settings : TelSettings).

Definition check_destination (to : text) : Result PlatformError unit :=
  if negb (is_e164 to) then Err (invalid "INVALID_REQUEST" [])
  else if provider_mode_live settings && negb (existsb (fun n => bool_decide (n = to)) (twilio_allowed_numbers settings))
       then Err (permission_denied [("to"%string, JStr (unchars (mask_phone to)))])
  else Ok tt.

Definition by_key (run_id : uuid) (key : string) (d : Calls) : option TelephonyCall :=
  List.find (fun c => (tc_run_id c =? run_id)%N && String.eqb (tc_idempotency_key c) key)
    (map snd (map_to_list (cs_calls d))).

Definition calls_of (run_id : uuid) (d : Calls) : list TelephonyCall :=
  List.filter (fun c => (tc_run_id c =? run_id)%N) (map snd (map_to_list (cs_calls d))).

(** What the first transaction of [create_call] decided: answer with an existing call, or dial
    the new one. *)
Inductive Begun := Existing (answer : Json) | New (id : uuid).

(** Destination, credentials ([connected]: a usable Twilio profile) and the transaction under
    the advisory lock of the run. *)
Definition create_begin (a : CallArgs) (connected : bool) : CM Begun :=
  match check_destination (ca_to a) with
  | Err e => raise e
  | Ok _ =>
      guard connected (needs_connection "twilio") ;;
      let! d := get in
      match by_key (ca_run_id a) (ca_key a) d with
      | Some existing =>
          if String.eqb (tc_state existing) "IN_DOUBT" then raise (outcome_unknown (tc_id existing))
          else ret (Existing (view existing))
      | None =>
          guard (negb (ca_max_calls a <=? Z.of_nat (length (calls_of (ca_run_id a) d))))
            (mkError "CALL_LIMIT_REACHED" 409 []) ;;
          let id := cs_fresh d in
          let call := mkCall id (ca_run_id a) (ca_key a) None (destination_hash (ca_to a)) (last4 (ca_to a))
                        (ca_disclosure a) (ca_script a) (ca_response_seconds a) "CREATING" None None None in
          modify (fun d => d <| cs_calls ::= <[id := call]> |> <| cs_fresh ::= N.succ |>) ;;
          ret (New id)
      end
  end.

Definition load_call (id : uuid) : CM TelephonyCall :=
  let! d := get in
  match cs_calls d !! id with Some c => ret c | None => raise UNEXPECTED end.

Definition put_call (c : TelephonyCall) : CM unit := modify (fun d => d <| cs_calls ::= <[tc_id c := c]> |>).

(** Another call already has the CallSid (the column is unique). *)
Definition sid_taken (id : uuid) (sid : text) (d : Calls) : bool :=
  existsb (fun kv => negb (kv.1 =? id)%N && bool_decide (tc_provider_sid kv.2 = Some sid)) (map_to_list (cs_calls d)).

(** [_created] *)
Definition created (id : uuid) (sid : text) (state : string) : CM Json :=
  let! c := load_call id in
  let! d := get in
  let c := match tc_provider_sid c with None => c <| tc_provider_sid := Some sid |> | Some _ => c end in
  guard (negb (match tc_provider_sid c with Some s => sid_taken id s d | None => false end)) UNEXPECTED ;;
  let c := if advances_to (tc_state c) state then c <| tc_state := state |> else c in
  put_call c ;;
  ret (view c).

(** [_in_doubt] *)
Definition in_doubt (id : uuid) : CM (Result PlatformError Json) :=
  let! c := load_call id in
  let c := match tc_provider_sid c with
           | None => c <| tc_state := "IN_DOUBT"%string |> <| tc_error_code := Some "OUTCOME_UNKNOWN"%string |>
           | Some _ => c
           end in
  put_call c ;;
  ret (if String.eqb (tc_state c) "IN_DOUBT" then Err (outcome_unknown id) else Ok (view c)).

(** [_set(call.id, state="failed", error_code="PROVIDER_REJECTED")] *)
Definition set_rejected (id : uuid) : CM Json :=
  let! c := load_call id in
  let c := c <| tc_state := "failed"%string |> <| tc_error_code := Some "PROVIDER_REJECTED"%string |> in
  put_call c ;;
  ret (view c).

(** What the request to Twilio gave: [HTTPError], or a status with the body's [sid] and
    [status]. *)
Inductive Answer := Lost | Status (code : Z) (sid : text) (state : string).

(** The rest of [create_call]. *)
Definition record_answer (id : uuid) (a : Answer) : CM (Result PlatformError Json) :=
  match a with
  | Lost => in_doubt id
  | Status code sid state =>
      if 500 <=? code then in_doubt id
      else if 400 <=? code then let! v := set_rejected id in ret (Ok v)
      else let! v := created id sid (if String.eqb state "" then "queued"%string else state) in ret (Ok v)
  end.

Definition get_call (run_id id : uuid) : CM Json :=
  let! d := get in
  match cs_calls d !! id with
  | Some c => if (tc_run_id c =? run_id)%N then ret (view c) else raise (not_found (uuid_str id))
  | None => raise (not_found (uuid_str id))
  end.

(** ** Callbacks *)

Definition Params := list (string * text).
Definition param (k : string) (ps : Params) : text := default [] (assoc k ps).

(** The first read of [_callback_call]: whether the call may adopt the CallSid. *)
Definition may_adopt (ps : Params) (c : TelephonyCall) : bool :=
  bool_decide (tc_provider_sid c = None) && existsb (String.eqb (tc_state c)) ["CREATING"; "IN_DOUBT"]%string
  && is_call_sid (param "CallSid" ps)
  && (bool_decide (last4 (param "To" ps) = []) || bool_decide (last4 (param "To" ps) = tc_destination_last4 c)).

(** [_adopt]: the guarded update, rolled back when another call has the CallSid. *)
Definition adopt_sid (id : uuid) (sid : text) : CM unit := modify (fun d =>
  match cs_calls d !! id with
  | Some c =>
      if bool_decide (tc_provider_sid c = None) && negb (sid_taken id sid d)
      then d <| cs_calls ::= <[id := c <| tc_provider_sid := Some sid |> <| tc_state := "queued"%string |>
                                       <| tc_error_code := None |>]> |>
      else d
  | None => d
  end).

(** The final check of [_callback_call]. *)
Definition call_for (id : uuid) (ps : Params) : CM TelephonyCall :=
  let! d := get in
  match cs_calls d !! id with
  | Some c => if bool_decide (tc_provider_sid c = Some (param "CallSid" ps)) && negb (bool_decide (param "CallSid" ps = []))
              then ret c else raise (not_found (uuid_str id))
  | None => raise (not_found (uuid_str id))
  end.

Inductive Callback := Voice | Gather | StatusChange.

Definition CALLBACK_PATH : text := chars "/api/v1/callbacks/twilio".

Definition voice (id : uuid) (c : TelephonyCall) : text :=
  voice_twiml (tc_disclosure c) (tc_script c)
    (twilio_base_url settings ++ CALLBACK_PATH ++ chars "/gather/" ++ chars (uuid_str (tc_id c))) (tc_response_seconds c).

Definition MAX_TRANSCRIPT : nat := 500.

Definition gather (id : uuid) (ps : Params) : CM text :=
  let speech := take MAX_TRANSCRIPT (strip (param "SpeechResult" ps)) in
  let! c := load_call id in
  put_call (match tc_transcript c, speech with None, _ :: _ => c <| tc_transcript := Some speech |> | _, _ => c end) ;;
  ret GATHER_TWIML.

Definition is_digits (s : text) : bool := match s with [] => false | _ => forallb is_digit s end.

Definition status_callback (id : uuid) (ps : Params) : CM text :=
  let new := unchars (param "CallStatus" ps) in
  let! c := load_call id in
  let c := if advances_to (tc_state c) new then
             let c := c <| tc_state := new |> in
             let c := if is_digits (param "CallDuration" ps)
                      then c <| tc_duration_seconds := Some (int_of (param "CallDuration" ps)) |> else c in
             if String.eqb new "failed" then
               c <| tc_error_code := Some (match param "ErrorCode" ps with [] => "CALL_FAILED"%string | e => unchars e end) |>
             else c
           else c in
  put_call c ;;
  ret [].

(** What a callback does once its call is found; the body of the reply. *)
Definition serve_callback (k : Callback) (id : uuid) (ps : Params) (c : TelephonyCall) : CM text :=
  match k with
  | Voice => ret (voice id c)
  | Gather => gather id ps
  | StatusChange => status_callback id ps
  end.
End service.

(** ** The agent's request ([agent_api.create_call]) *)

(** [_bounded] *)
Definition bounded (config : Json) (key : string) (dflt low high : Z) : Z :=
  match default (JNum dflt) (jget key config) with JNum v => Z.max low (Z.min high v) | _ => dflt end.

Definition DISCLOSURE : text := chars "Hello. This is an automated demo call from Crewquarters.".

Record CallIn := mkCallIn {
  ci_to : text;
  ci_disclosure : text;
  ci_text : text;
  ci_timeout_seconds : Z;
  ci_idempotency_key : string
}.

(** The arguments handed to the service, when the route accepts the request. *)
Definition call_request {J : Jwt} (g : Grant) (run_id : uuid) (body : CallIn) : Result PlatformError CallArgs :=
  match require g "twilio.call.fixed_script" false with
  | Err e => Err e
  | Ok _ =>
      match configured g "script" None with
      | Err e => Err e
      | Ok template =>
          if negb (approved_script (chars template) (ci_text body)) then Err (permission_denied [])
          else
            let config := get_dict_or "config" (gr_run g) in
            let args disclosure :=
              mkCallArgs run_id (ci_idempotency_key body) (ci_to body) disclosure (ci_text body)
                (ci_timeout_seconds body) (bounded config "maxCalls" 3 1 10) in
            match jget "disclosure" config with
            | Some (JStr d) =>
                if String.eqb d "" then Ok (args DISCLOSURE)
                else if bool_decide (ci_disclosure body = chars d) then Ok (args (chars d))
                else Err (permission_denied [])
            | _ => Ok (args DISCLOSURE)
            end
      end
  end.

(** What the owner's configuration makes of a call. *)
Definition max_calls (config : Json) : Z := bounded config "maxCalls" 3 1 10.
Definition disclosure_of (config : Json) : text :=
  match jget "disclosure" config with
  | Some (JStr d) => if String.eqb d "" then DISCLOSURE else chars d
  | _ => DISCLOSURE
  end.

(** ** The composition

    [create_call] is a transaction, the request to Twilio and a second transaction; a callback
    reads the call, may adopt the CallSid, reads again and serves.  A [Task] is how far a request
    of either kind has come; [Replied] keeps what a callback answered. *)
Inductive Task :=
| Dialing (id : uuid) (to : text)
| Dialed (id : uuid)
| Answering (id : uuid) (a : Answer)
| Adopting (k : Callback) (id : uuid) (ps : Params)
| Rereading (k : Callback) (id : uuid) (ps : Params)
| Found (k : Callback) (id : uuid) (ps : Params) (c : TelephonyCall)
| Replied (k : Callback) (id : uuid) (r : Result PlatformError text).

(** What Twilio made of a request to call. *)
Inductive Decision := Placed (sid : text) | Refused.

Record Phone := mkPhone {
  ph_calls : Calls;
  ph_tasks : gmap nat Task;
  ph_dials : list (uuid * text);
  ph_twilio : gmap uuid Decision
}.

#[export] Instance eta_Phone : Eta Phone := fun r => mkPhone (ph_calls r) (ph_tasks r) (ph_dials r) (ph_twilio r).

Definition phone0 : Phone := mkPhone (mkCalls ∅ 0%N) ∅ [] ∅.

(** An answer below 400 reports the call that was placed, a 4xx that none was and will be;
    a 5xx or a lost answer says nothing. *)
Definition honest (d : option Decision) (a : Answer) : Prop :=
  match a with
  | Lost => True
  | Status code sid _ =>
      if 500 <=? code then True else if 400 <=? code then d = Some Refused else d = Some (Placed sid)
  end.

(** The end of [_callback_call]. *)
Definition found (k : Callback) (id : uuid) (ps : Params) (d : Calls) : Task :=
  match call_for id ps d with Ok (c, _) => Found k id ps c | Err e => Replied k id (Err e) end.
(** Its beginning. *)
Definition callback_read (k : Callback) (id : uuid) (ps : Params) (d : Calls) : Task :=
  match cs_calls d !! id with
  | Some c => if may_adopt ps c then Adopting k id ps else found k id ps d
  | None => found k id ps d
  end.

Section flow.
Context {PH : PhoneHash} {J : Jwt} (settings : TelSettings) (config_of : uuid -> Json).

(** One step of the broker or of Twilio.  A run's configuration is the one it was started with,
    [config_of run].  Twilio decides once on a request it received, with a CallSid of its own, and
    calls back only about calls it placed; the signature check keeps everybody else out. *)
Inductive pstep (s : Phone) : Phone -> Prop :=
| ps_create t g run body a connected r d :
    ph_tasks s !! t = None -> cl_run_id (gr_claims g) = uuid_str run -> get_dict_or "config" (gr_run g) = config_of run ->
    call_request g run body = Ok a -> create_begin settings a connected (ph_calls s) = Ok (r, d) ->
    pstep s (s <| ph_calls := d |>
               <| ph_tasks ::= match r with New id => <[t := Dialing id (ca_to a)]> | Existing _ => id end |>)
| ps_dial t id to :
    ph_tasks s !! t = Some (Dialing id to) ->
    pstep s (s <| ph_tasks ::= <[t := Dialed id]> |> <| ph_dials ::= fun l => (id, to) :: l |>)
| ps_decide id dec :
    id ∈ (ph_dials s).*1 -> ph_twilio s !! id = None ->
    (forall sid, dec = Placed sid -> is_call_sid sid = true /\ forall i, ph_twilio s !! i <> Some (Placed sid)) ->
    pstep s (s <| ph_twilio ::= <[id := dec]> |>)
| ps_answer t id a :
    ph_tasks s !! t = Some (Dialed id) -> honest (ph_twilio s !! id) a ->
    pstep s (s <| ph_tasks ::= <[t := Answering id a]> |>)
| ps_record t id a r d :
    ph_tasks s !! t = Some (Answering id a) -> record_answer id a (ph_calls s) = Ok (r, d) ->
    pstep s (s <| ph_calls := d |> <| ph_tasks ::= delete t |>)
| ps_callback t k id ps :
    ph_tasks s !! t = None -> ph_twilio s !! id = Some (Placed (param "CallSid" ps)) ->
    param "To" ps = [] \/ (id, param "To" ps) ∈ ph_dials s ->
    pstep s (s <| ph_tasks ::= <[t := callback_read k id ps (ph_calls s)]> |>)
| ps_adopt t k id ps d :
    ph_tasks s !! t = Some (Adopting k id ps) -> adopt_sid id (param "CallSid" ps) (ph_calls s) = Ok (tt, d) ->
    pstep s (s <| ph_calls := d |> <| ph_tasks ::= <[t := Rereading k id ps]> |>)
| ps_reread t k id ps :
    ph_tasks s !! t = Some (Rereading k id ps) ->
    pstep s (s <| ph_tasks ::= <[t := found k id ps (ph_calls s)]> |>)
| ps_serve t k id ps c body d :
    ph_tasks s !! t = Some (Found k id ps c) -> serve_callback settings k id ps c (ph_calls s) = Ok (body, d) ->
    pstep s (s <| ph_calls := d |> <| ph_tasks ::= <[t := Replied k id (Ok body)]> |>)
| ps_crash t :
    pstep s (s <| ph_tasks ::= delete t |>).
End flow.

Example plain_names :
  map (fun s => plain_name (chars s)) ["Ann"; "J. R. Smith"; "O'Neil-Lee"; "Sam Jr."; "Al. Buy now"; "Ann "; "X9"; "A.. B"]%string
  = [true; true; true; true; false; false; false; false].
Proof. vm_compute. reflexivity. Qed.

Example scripts :
  let template := chars "Hi {name}, is this {name}?" in
  map (fun s => approved_script template (chars s))
    ["Hi Ann, is this Ann?"; "Hi Ann, is this Bob?"; "Hi {name}, is this {name}?"; "Hi , is this ?"]%string
  = [true; false; false; false].
Proof. vm_compute. reflexivity. Qed.
