(* ===== verification/TelephonyProps.v ===== *)
(** * What the telephone service guarantees

    The script check as a specification, and the properties of any interleaving of create
    requests, Twilio's decisions and answers, callbacks and crashes of the broker. *)

From S2P Require Import Prelude Json Redaction SchemaGuard States Jobs RunModel RunService RunInv RunOps Platform.
From S2P Require Import Capability A1 Telephony.
From Stdlib Require Import Ascii.
#[local] Open Scope Z_scope.

(** ** Scripts *)

Lemma split_text_cons sep k s : exists w ws, split_text sep k s = w :: ws.
Proof.
  revert k. induction s as [|c s IH]; intros k; simpl; [eauto|]. destruct k as [|k]; [|apply IH].
  destruct (starts sep (c :: s)); [eauto|]. destruct (IH 0%nat) as (w & ws & ->). eauto.
Qed.

Lemma starts_spec sep s : starts sep s = true <-> exists rest, s = sep ++ rest.
Proof.
  revert s. induction sep as [|a sep IH]; intros s; simpl; [split; [by exists s|done]|].
  destruct s as [|b s]; [split; [done|by intros []]|]. rewrite andb_true_iff, IH, Ascii.eqb_eq. split.
  - intros [-> [rest ->]]. by exists rest.
  - intros [rest [= -> ->]]. split; [done|by exists rest].
Qed.

Lemma join_cons n p ps : ps <> [] -> join_text n (p :: ps) = p ++ n ++ join_text n ps.
Proof. by destruct ps. Qed.

(** The parts with the placeholder between them are the template. *)
Lemma split_join sep k s :
  sep <> [] -> (k <= length s)%nat -> join_text sep (split_text sep k s) = drop k s.
Proof.
  intros Hsep. revert k. induction s as [|c s IH]; intros k Hk; [by destruct k; simpl in *; [|lia]|].
  destruct k as [|k]; simpl; [|apply IH; simpl in Hk; lia].
  destruct (starts sep (c :: s)) eqn:Hst.
  - apply starts_spec in Hst as [rest Hrest]. destruct sep as [|a sep]; [done|]. injection Hrest as -> ->.
    destruct (split_text_cons (a :: sep) (length (a :: sep) - 1) (sep ++ rest)) as (w & ws & E).
    rewrite E, join_cons, <- E, IH by (done || (simpl; rewrite ?length_app; lia)). simpl.
    rewrite Nat.sub_0_r, drop_app_length. done.
  - specialize (IH 0%nat (Nat.le_0_l _)). destruct (split_text_cons sep 0 s) as (w & ws & E). rewrite E in *.
    simpl in IH. destruct ws; simpl in *; by f_equal.
Qed.

Fixpoint total_length (parts : list text) : nat :=
  match parts with [] => 0 | p :: ps => length p + total_length ps end.

Lemma join_length n parts : length (join_text n parts) = (total_length parts + (length parts - 1) * length n)%nat.
Proof.
  induction parts as [|p ps IH]; [done|]. destruct ps as [|q ps]; [simpl; lia|].
  rewrite join_cons, !length_app, IH by done. simpl. lia.
Qed.

Lemma name_at_join n p ps : ps <> [] -> name_at (p :: ps) (join_text n (p :: ps)) (length n) = n.
Proof. intros Hps. unfold name_at. rewrite join_cons by done. simpl. by rewrite drop_app_length, take_app_length. Qed.

Lemma fullmatch_spec parts t name :
  (1 < length parts)%nat -> fullmatch_name parts t = Some name <-> name <> [] /\ t = join_text name parts.
Proof.
  intros Hlen. destruct parts as [|p ps]; [simpl in Hlen; lia|].
  assert (Hps : ps <> []) by (intros ->; simpl in Hlen; lia). unfold fullmatch_name. split.
  - intros (len & Hf & ->)%fmap_Some. apply find_some in Hf as [Hin Hc]. apply in_seq in Hin. reflect_all.
    apply Nat.eqb_eq in H. split; [|done]. intros Hn. rewrite Hn in H. simpl in H. lia.
  - intros [Hne Ht]. pose proof (name_at_join name p ps Hps) as Hat. rewrite <- Ht in Hat.
    assert (Hpos : (1 <= length name)%nat) by (destruct name; [done|simpl; lia]).
    assert (Hbound : (length name <= length t)%nat) by (rewrite Ht, join_length; simpl in *; nia).
    destruct (List.find _ _) as [len|] eqn:Hf; simpl.
    + apply find_some in Hf as [_ Hc]. reflect_all. apply Nat.eqb_eq in H.
      assert (len = length name) as ->; [|by rewrite Hat].
      pose proof (join_length (name_at (p :: ps) t len) (p :: ps)) as L1. rewrite <- H0, H in L1.
      pose proof (join_length name (p :: ps)) as L2. rewrite <- Ht in L2. simpl in *. nia.
    + eapply find_none in Hf; [|apply in_seq; split; [exact Hpos|simpl; lia]]. cbv zeta in Hf. rewrite Hat in Hf.
      rewrite Nat.eqb_refl, bool_decide_true in Hf by done. done.
Qed.

(** The check of a call script accepts exactly the owner's words: a text is approved if and
    only if it is the template itself, when the template has no [{name}], or the template with
    every [{name}] replaced by one and the same plain name. *)
Theorem script_approved template t :
  let parts := split_text NAME 0 template in
  join_text NAME parts = template /\
  (approved_script template t = true <->
     (length parts = 1%nat /\ t = template) \/
     ((1 < length parts)%nat /\ exists name, plain_name name = true /\ t = join_text name parts)).
Proof.
  intros parts. split; [unfold parts; by rewrite split_join by (done || lia)|].
  unfold approved_script. fold parts. destruct (split_text_cons NAME 0 template) as (w & ws & E). fold parts in E.
  destruct (Nat.eqb_spec (length parts) 1) as [H1|H1].
  - rewrite bool_decide_eq_true. split; [by left|]. intros [[_ ?]|[H _]]; [done|lia].
  - assert (Hlen : (1 < length parts)%nat) by (rewrite E in *; simpl in *; lia). split.
    + destruct (fullmatch_name parts t) as [name|] eqn:Hf; [|done]. intros Hp. right. split; [done|].
      exists name. split; [done|]. by apply (fullmatch_spec parts t name Hlen).
    + intros [[? _]|(_ & name & Hp & Ht)]; [lia|].
      assert (Hf : fullmatch_name parts t = Some name); [|by rewrite Hf].
      apply fullmatch_spec; [done|]. split; [|done]. by intros ->.
Qed.

(** ** Rows *)

(** The columns that never change. *)
Definition fixed_part (c : TelephonyCall) :=
  (tc_id c, tc_run_id c, tc_idempotency_key c, tc_destination_hash c, tc_destination_last4 c, tc_disclosure c, tc_script c,
   tc_response_seconds c).

Definition rank_of (s : string) : Z := default 0 (assoc s RANK).

(** A state is kept, or a state that is not final gives way to a final one or to one that is
    not earlier. *)
Definition state_forward (old new : string) : Prop :=
  new = old \/ (is_terminal old = false /\ (is_terminal new = true \/ rank_of old <= rank_of new)).

Record forward (c c' : TelephonyCall) : Prop := {
  fw_fixed : fixed_part c' = fixed_part c;
  fw_sid : forall s, tc_provider_sid c = Some s -> tc_provider_sid c' = Some s;
  fw_transcript : forall t, tc_transcript c = Some t -> tc_transcript c' = Some t;
  fw_state : state_forward (tc_state c) (tc_state c')
}.

Lemma state_forward_trans a b c : state_forward a b -> state_forward b c -> state_forward a c.
Proof.
  unfold state_forward. intros [->|[Ha [Hb|Hb]]] [->|[Hb' Hc]]; auto.
  - congruence.
  - right. split; [done|]. destruct Hc; [by left|right; lia].
Qed.

#[export] Instance forward_preorder : PreOrder forward.
Proof.
  split.
  - intros c. split; auto. by left.
  - intros a b c [F1 S1 T1 W1] [F2 S2 T2 W2]. split; [congruence|auto|auto|by eapply state_forward_trans].
Qed.

Lemma rank_nonneg s : 0 <= rank_of s.
Proof. unfold rank_of, RANK, assoc. repeat (case_match; [simpl; lia|]). simpl. lia. Qed.

Lemma advances_forward old new : advances_to old new = true -> state_forward old new.
Proof.
  unfold advances_to. destruct (is_terminal old || String.eqb new "") eqn:E; [done|]. apply orb_false_iff in E as [Ho _].
  destruct (is_terminal new) eqn:Hn; intros H; right; split; auto. right. apply Z.ltb_lt in H.
  unfold rank_of. destruct (assoc new RANK); simpl in *; [lia|]. pose proof (rank_nonneg old). unfold rank_of in *. lia.
Qed.

(** Counting the rows of a run. *)
Definition of_run (run : uuid) (c : TelephonyCall) : bool := (tc_run_id c =? run)%N.

Lemma filter_length_perm {A} (f : A -> bool) l l' :
  l ≡ₚ l' -> length (List.filter f l) = length (List.filter f l').
Proof.
  induction 1 as [|x l l' _ IH|x y l|]; simpl; [done| |by destruct (f x), (f y)|congruence].
  destruct (f x); simpl; by rewrite IH.
Qed.

Lemma calls_of_insert run (m : gmap uuid TelephonyCall) i c f g :
  m !! i = None ->
  length (calls_of run (mkCalls (<[i := c]> m) f)) = ((if of_run run c then 1 else 0) + length (calls_of run (mkCalls m g)))%nat.
Proof.
  intros Hi. unfold calls_of. simpl.
  rewrite (filter_length_perm _ _ (c :: map snd (map_to_list m))).
  - simpl. unfold of_run. by destruct (tc_run_id c =? run)%N.
  - by rewrite (map_to_list_insert m i c Hi).
Qed.

Lemma calls_of_update run (m : gmap uuid TelephonyCall) i c c' f g :
  m !! i = Some c -> tc_run_id c' = tc_run_id c ->
  length (calls_of run (mkCalls (<[i := c']> m) f)) = length (calls_of run (mkCalls m g)).
Proof.
  intros Hi Hr. assert (E : m = <[i := c]> (delete i m)) by (by rewrite insert_delete_id).
  rewrite E at 2. rewrite <- insert_delete_eq. rewrite (calls_of_insert run _ _ _ f g) by apply lookup_delete_eq.
  rewrite (calls_of_insert run _ _ _ g g) by apply lookup_delete_eq. unfold of_run. by rewrite Hr.
Qed.

Lemma by_key_none run key d i c :
  by_key run key d = None -> cs_calls d !! i = Some c -> tc_run_id c = run -> tc_idempotency_key c <> key.
Proof.
  intros H Hc Hr Hk. unfold by_key in H. eapply find_none in H.
  - rewrite Hr, Hk, N.eqb_refl, String.eqb_refl in H. done.
  - apply list_elem_of_In, list_elem_of_fmap. exists (i, c). split; [done|]. by apply elem_of_map_to_list.
Qed.

Lemma by_key_some run key d c :
  by_key run key d = Some c -> (exists i, cs_calls d !! i = Some c) /\ tc_run_id c = run /\ tc_idempotency_key c = key.
Proof.
  unfold by_key. intros H. apply find_some in H as [Hin Hc]. reflect_all. apply N.eqb_eq in H. apply String.eqb_eq in H0.
  apply list_elem_of_In, list_elem_of_fmap in Hin as [[i c'] [E Hm]]. simpl in E. subst c'.
  split; [exists i; by apply elem_of_map_to_list|done].
Qed.

Lemma sid_taken_spec id sid d :
  sid_taken id sid d = true <-> exists i c, cs_calls d !! i = Some c /\ i <> id /\ tc_provider_sid c = Some sid.
Proof.
  unfold sid_taken. rewrite existsb_exists. split.
  - intros [[i c] [Hin H]]. apply list_elem_of_In, elem_of_map_to_list in Hin. reflect_all. simpl in *.
    apply N.eqb_neq in H. eauto.
  - intros (i & c & Hc & Hne & Hs). exists (i, c). split; [by apply list_elem_of_In, elem_of_map_to_list|]. simpl.
    rewrite bool_decide_true by done. apply N.eqb_neq in Hne. by rewrite Hne.
Qed.

(** ** The invariant *)

Definition creates (k : Task) : option uuid :=
  match k with Dialing id _ | Dialed id | Answering id _ => Some id | _ => None end.

Section phone.
Context {PH : PhoneHash} {J : Jwt} (settings : TelSettings) (config_of : uuid -> Json).

(** What a call says is the owner's disclosure and the owner's script. *)
Definition owners_words (c : TelephonyCall) : Prop :=
  tc_disclosure c = disclosure_of (config_of (tc_run_id c)) /\
  exists template, jget "script" (config_of (tc_run_id c)) = Some (JStr template) /\
    approved_script (chars template) (tc_script c) = true.

Definition row (s : Phone) (id : uuid) : option TelephonyCall := cs_calls (ph_calls s) !! id.

Definition has_sid (s : Phone) (id : uuid) (ps : Params) : Prop :=
  exists c, row s id = Some c /\ tc_provider_sid c = Some (param "CallSid" ps).

Definition task_ok (s : Phone) (k : Task) : Prop :=
  match k with
  | Dialing id to => (exists c, row s id = Some c /\ tc_destination_last4 c = last4 to) /\ id ∉ (ph_dials s).*1
  | Dialed id => id ∈ (ph_dials s).*1
  | Answering id a => id ∈ (ph_dials s).*1 /\ honest (ph_twilio s !! id) a
  | Adopting _ id ps => ph_twilio s !! id = Some (Placed (param "CallSid" ps))
  | Rereading _ id ps => has_sid s id ps
  | Found _ id ps c => has_sid s id ps /\ exists c', row s id = Some c' /\ fixed_part c = fixed_part c'
  | Replied _ _ (Err _) => False
  | Replied Voice id (Ok body) => exists c, row s id = Some c /\ body = voice settings id c
  | Replied _ _ (Ok _) => True
  end.

Definition row_ok (s : Phone) (id : uuid) (c : TelephonyCall) : Prop :=
  match tc_provider_sid c with
  | Some sid => ph_twilio s !! id = Some (Placed sid) /\ tc_state c <> "IN_DOUBT"%string
  | None => tc_state c = "CREATING"%string \/ tc_state c = "IN_DOUBT"%string \/
            (tc_state c = "failed"%string /\ ph_twilio s !! id = Some Refused)
  end.

(** While its creator is at work a call is CREATING, until it has a CallSid. *)
Definition creator_ok (c : TelephonyCall) : Prop := tc_provider_sid c = None -> tc_state c = "CREATING"%string.

Record PInv (s : Phone) : Prop := {
  pi_id : forall id c, row s id = Some c -> tc_id c = id /\ (id < cs_fresh (ph_calls s))%N;
  pi_row : forall id c, row s id = Some c -> row_ok s id c;
  pi_words : forall id c, row s id = Some c -> owners_words c;
  pi_key : forall i j c c', row s i = Some c -> row s j = Some c' -> tc_run_id c = tc_run_id c' ->
           tc_idempotency_key c = tc_idempotency_key c' -> i = j;
  pi_limit : forall run, Z.of_nat (length (calls_of run (ph_calls s))) <= max_calls (config_of run);
  pi_dial : forall id to, (id, to) ∈ ph_dials s -> exists c, row s id = Some c /\ tc_destination_last4 c = last4 to;
  pi_once : NoDup (ph_dials s).*1;
  pi_twilio : forall id dec, ph_twilio s !! id = Some dec -> id ∈ (ph_dials s).*1;
  pi_sid : forall id sid, ph_twilio s !! id = Some (Placed sid) -> is_call_sid sid = true;
  pi_sids : forall i j sid, ph_twilio s !! i = Some (Placed sid) -> ph_twilio s !! j = Some (Placed sid) -> i = j;
  pi_tasks : forall t k, ph_tasks s !! t = Some k -> task_ok s k;
  pi_creators : forall t t' k k' id, ph_tasks s !! t = Some k -> ph_tasks s !! t' = Some k' ->
                creates k = Some id -> creates k' = Some id -> t = t';
  pi_creating : forall t k id c, ph_tasks s !! t = Some k -> creates k = Some id -> row s id = Some c -> creator_ok c
}.

Lemma max_calls_pos config : 1 <= max_calls config <= 10.
Proof. unfold max_calls, bounded. destruct (default _ _); lia. Qed.

Lemma PInv0 : PInv phone0.
Proof.
  split; unfold row, phone0; simpl; try (intros; set_solver).
  - intros run. pose proof (max_calls_pos (config_of run)). unfold calls_of. simpl. rewrite map_to_list_empty. simpl. lia.
  - constructor.
Qed.

(** *** Tasks *)

Lemma task_step s t k :
  PInv s -> task_ok s k ->
  (forall id, creates k = Some id -> exists k', ph_tasks s !! t = Some k' /\ creates k' = Some id) ->
  PInv (s <| ph_tasks ::= <[t := k]> |>).
Proof.
  intros [] Hk Hc. split; try done; cbn.
  - intros t' k' [[<- <-]|[_ H]]%lookup_insert_Some; [exact Hk|exact (pi_tasks0 _ _ H)].
  - intros t1 t2 k1 k2 id [[<- <-]|[N1 H1]]%lookup_insert_Some [[<- <-]|[N2 H2]]%lookup_insert_Some C1 C2; try done.
    + destruct (Hc _ C1) as (k' & H' & C'). exact (pi_creators0 _ _ _ _ _ H' H2 C' C2).
    + destruct (Hc _ C2) as (k' & H' & C'). exact (pi_creators0 _ _ _ _ _ H1 H' C1 C').
    + eauto.
  - intros t1 k1 id c [[<- <-]|[N1 H1]]%lookup_insert_Some C1 Hr; [|eauto].
    destruct (Hc _ C1) as (k' & H' & C'). eauto.
Qed.

Lemma task_end s t : PInv s -> PInv (s <| ph_tasks ::= delete t |>).
Proof.
  intros []. split; try done; cbn.
  - intros t' k [_ H]%lookup_delete_Some. exact (pi_tasks0 _ _ H).
  - intros t1 t2 k1 k2 id [_ H1]%lookup_delete_Some [_ H2]%lookup_delete_Some. eauto.
  - intros t1 k1 id c [_ H1]%lookup_delete_Some. eauto.
Qed.

(** *** Rows *)

Definition put (id : uuid) (c : TelephonyCall) (s : Phone) : Phone :=
  s <| ph_calls ::= fun d => d <| cs_calls ::= <[id := c]> |> |>.

Lemma row_put s id c i : row (put id c s) i = if (i =? id)%N then Some c else row s i.
Proof. unfold row, put. cbn. destruct (N.eqb_spec i id) as [->|N]; [apply lookup_insert_eq|by apply lookup_insert_ne]. Qed.

Lemma put_same s id c : row s id = Some c -> ph_calls (put id c s) = ph_calls s.
Proof.
  intros H. change (mkCalls (<[id := c]> (cs_calls (ph_calls s))) (cs_fresh (ph_calls s)) = ph_calls s).
  rewrite insert_id by done. by destruct (ph_calls s).
Qed.

(** Rows move forward: what is known of a row stays known. *)
Definition rows_forward (s s' : Phone) : Prop :=
  forall id c, row s id = Some c -> exists c', row s' id = Some c' /\ forward c c'.

Lemma put_forward s id c c' : row s id = Some c -> forward c c' -> rows_forward s (put id c' s).
Proof.
  intros Hr Hf i ci Hi. rewrite row_put. destruct (N.eqb_spec i id) as [->|N]; [|by exists ci].
  exists c'. split; [done|]. congruence.
Qed.

Lemma has_sid_forward s s' id ps : rows_forward s s' -> has_sid s id ps -> has_sid s' id ps.
Proof. intros F (c & Hr & Hs). destruct (F _ _ Hr) as (c' & Hr' & Hf). exists c'. split; [done|]. by apply Hf. Qed.

Lemma voice_fixed id c c' : fixed_part c = fixed_part c' -> voice settings id c = voice settings id c'.
Proof. unfold fixed_part, voice. intros H. simplify_eq. congruence. Qed.

Lemma task_ok_forward s s' k :
  rows_forward s s' -> ph_dials s' = ph_dials s -> ph_twilio s' = ph_twilio s -> task_ok s k -> task_ok s' k.
Proof.
  intros F D T. destruct k as [id to|id|id a|k id ps|k id ps|k id ps c|k id r]; simpl; rewrite ?D, ?T; try done.
  - intros [(c & Hr & Hl) Hn]. split; [|done]. destruct (F _ _ Hr) as (c' & Hr' & [Hf _ _ _]). exists c'. split; [done|].
    unfold fixed_part in Hf. congruence.
  - apply has_sid_forward, F.
  - intros [Hs (c0 & Hr & Hc)]. split; [by eapply has_sid_forward|]. destruct (F _ _ Hr) as (c' & Hr' & [Hf _ _ _]).
    exists c'. split; [done|congruence].
  - destruct r as [body|]; [|by destruct k]. destruct k; try done. intros (c & Hr & ->).
    destruct (F _ _ Hr) as (c' & Hr' & [Hf _ _ _]). exists c'. split; [done|by apply voice_fixed].
Qed.

Lemma words_forward c c' : forward c c' -> owners_words c -> owners_words c'.
Proof. intros [Hf _ _ _]. injection Hf as E1 E2 E3 E4 E5 E6 E7 E8. unfold owners_words. by rewrite E2, E6, E7. Qed.

Lemma put_step s id c c' :
  PInv s -> row s id = Some c -> forward c c' -> row_ok s id c' ->
  (forall t k, ph_tasks s !! t = Some k -> creates k = Some id -> creator_ok c') ->
  PInv (put id c' s).
Proof.
  intros HI Hr Hf Hok Hcr. pose proof (put_forward s id c c' Hr Hf) as F. destruct HI.
  assert (Hback : forall i ci, row (put id c' s) i = Some ci -> exists c0, row s i = Some c0 /\ forward c0 ci).
  { intros i ci. rewrite row_put. destruct (N.eqb_spec i id) as [->|]; [intros [= <-]; eauto|]. by exists ci. }
  assert (Hfix : forall i ci, row (put id c' s) i = Some ci -> exists c0, row s i = Some c0 /\ fixed_part ci = fixed_part c0).
  { intros i ci Hi. destruct (Hback _ _ Hi) as (c0 & H0 & [? _ _ _]). eauto. }
  split; try done.
  - intros i ci Hi. destruct (Hfix _ _ Hi) as (c0 & H0 & E). injection E as -> _ _ _ _ _ _ _. eauto.
  - intros i ci Hi. rewrite row_put in Hi. destruct (N.eqb_spec i id) as [->|]; [injection Hi as <-; exact Hok|].
    exact (pi_row0 _ _ Hi).
  - intros i ci Hi. destruct (Hback _ _ Hi) as (c0 & H0 & Hf0). exact (words_forward _ _ Hf0 (pi_words0 _ _ H0)).
  - intros i j ci cj Hi Hj. destruct (Hfix _ _ Hi) as (c0 & H0 & E0). destruct (Hfix _ _ Hj) as (c1 & H1 & E1).
    injection E0 as _ -> -> _ _ _ _ _. injection E1 as _ -> -> _ _ _ _ _. eauto.
  - intros run. specialize (pi_limit0 run). destruct s as [[m f] ? ? ?].
    change (Z.of_nat (length (calls_of run (mkCalls (<[id := c']> m) f))) <= max_calls (config_of run)).
    rewrite (calls_of_update run m id c c' f f Hr); [done|]. destruct Hf as [E _ _ _]. by injection E.
  - intros i to Hi. destruct (pi_dial0 _ _ Hi) as (c0 & H0 & L). destruct (F _ _ H0) as (c1 & H1 & [E _ _ _]).
    exists c1. split; [done|]. injection E as _ _ _ _ -> _ _ _. done.
  - intros t k Ht. apply (task_ok_forward s); [done|done|done|exact (pi_tasks0 _ _ Ht)].
  - intros t k i ci Ht Hk Hi. rewrite row_put in Hi. destruct (N.eqb_spec i id) as [->|]; [injection Hi as <-; eauto|].
    exact (pi_creating0 _ _ _ _ Ht Hk Hi).
Qed.

(** *** Transactions *)

(** A transaction that replaces one row by one that is ahead of it. *)
Definition one_row {A} (m : CM A) (s : Phone) (id : uuid) (Q : A -> TelephonyCall -> Prop) : Prop :=
  exists a c c', m (ph_calls s) = Ok (a, ph_calls (put id c' s)) /\ row s id = Some c /\ forward c c' /\ row_ok s id c' /\ Q a c'.

Lemma load_ok s id c : row s id = Some c -> load_call id (ph_calls s) = Ok (c, ph_calls s).
Proof. unfold row, load_call, bind, get. by intros ->. Qed.

Lemma sid_free s id sid : PInv s -> ph_twilio s !! id = Some (Placed sid) -> sid_taken id sid (ph_calls s) = false.
Proof.
  intros HI Ht. destruct (sid_taken id sid (ph_calls s)) eqn:E; [|done].
  apply sid_taken_spec in E as (i & c & Hc & Hne & Hs). pose proof (pi_row _ HI _ _ Hc) as Hok. unfold row_ok in Hok.
  rewrite Hs in Hok. by pose proof (pi_sids _ HI _ _ _ Ht (proj1 Hok)).
Qed.

Lemma forward_state c st : state_forward (tc_state c) st -> forward c (c <| tc_state := st |>).
Proof. intros H. split; auto. Qed.

Lemma advances_not_doubt old : advances_to old "IN_DOUBT" = false.
Proof.
  unfold advances_to. destruct (_ || _); [done|]. change (is_terminal "IN_DOUBT") with false. apply Z.ltb_ge, rank_nonneg.
Qed.

Lemma advance_step c st :
  let c' := if advances_to (tc_state c) st then c <| tc_state := st |> else c in
  forward c c' /\ (tc_state c <> "IN_DOUBT"%string -> tc_state c' <> "IN_DOUBT"%string).
Proof.
  cbv zeta. destruct (advances_to _ _) eqn:E; [|done]. split; [by apply forward_state, advances_forward|].
  simpl. intros _ ->. by rewrite advances_not_doubt in E.
Qed.

(** What [create_call] tells the agent, and how it leaves the call. *)
Definition settled (id : uuid) (a : Answer) (r : Result PlatformError Json) (c : TelephonyCall) : Prop :=
  let unknown := (tc_provider_sid c = None /\ tc_state c = "IN_DOUBT"%string /\ r = Err (outcome_unknown id)) \/
                 (is_Some (tc_provider_sid c) /\ r = Ok (view c)) in
  match a with
  | Lost => unknown
  | Status code sid _ =>
      if 500 <=? code then unknown
      else r = Ok (view c) /\
           if 400 <=? code then tc_provider_sid c = None /\ tc_state c = "failed"%string /\ tc_error_code c = Some "PROVIDER_REJECTED"%string
           else tc_provider_sid c = Some sid
  end.

Section transactions.
Context (s : Phone) (HI : PInv s) (id : uuid) (c : TelephonyCall) (Hr : row s id = Some c).

Lemma created_row sid st :
  ph_twilio s !! id = Some (Placed sid) -> creator_ok c ->
  one_row (created id sid st) s id (fun v c' => v = view c' /\ tc_provider_sid c' = Some sid).
Proof.
  intros Ht Hcr. pose proof (pi_row _ HI _ _ Hr) as Hok. pose proof (proj1 (pi_id _ HI _ _ Hr)) as Hid.
  set (c1 := match tc_provider_sid c with None => c <| tc_provider_sid := Some sid |> | Some _ => c end).
  assert (S1 : tc_provider_sid c1 = Some sid /\ tc_state c1 <> "IN_DOUBT"%string).
  { unfold c1. unfold row_ok in Hok. destruct (tc_provider_sid c) as [s0|] eqn:E.
    - rewrite E. destruct Hok. split; [congruence|done].
    - split; [done|]. cbn. by rewrite (Hcr E). }
  assert (F1 : forward c c1).
  { unfold c1. destruct (tc_provider_sid c) eqn:E; [done|]. split; auto; [intros ? [=]; congruence|by left]. }
  set (c2 := if advances_to (tc_state c1) st then c1 <| tc_state := st |> else c1).
  pose proof (advance_step c1 st) as [F2 D2]. fold c2 in F2, D2.
  assert (S2 : tc_provider_sid c2 = Some sid) by (apply F2, S1).
  assert (I2 : tc_id c2 = id).
  { destruct F2 as [E2 _ _ _], F1 as [E1 _ _ _]. injection E2 as -> _ _ _ _ _ _ _. injection E1 as -> _ _ _ _ _ _ _. done. }
  exists (view c2), c, c2. split.
  - unfold created. unfold bind at 1. rewrite (load_ok s id c Hr). unfold bind, get, guard. fold c1. rewrite (proj1 S1).
    rewrite (sid_free s id sid HI Ht). simpl. fold c2. unfold put_call, modify, ret. rewrite I2. done.
  - split; [done|]. split; [by etransitivity|]. split; [|done]. unfold row_ok. rewrite S2. split; [done|]. apply D2, S1.
Qed.

Lemma in_doubt_row : creator_ok c -> one_row (in_doubt id) s id (settled id Lost).
Proof.
  intros Hcr. pose proof (pi_row _ HI _ _ Hr) as Hok. pose proof (proj1 (pi_id _ HI _ _ Hr)) as Hid.
  unfold one_row, in_doubt. unfold bind at 1. rewrite (load_ok s id c Hr). unfold row_ok in Hok. simpl.
  destruct (tc_provider_sid c) as [sid|] eqn:E.
  - exists (Ok (view c)), c, c. unfold bind, put_call, modify, ret. rewrite Hid. destruct Hok as [Hp Hd].
    apply String.eqb_neq in Hd as Hd'. rewrite Hd'. split; [done|]. split; [done|]. split; [done|]. unfold row_ok. rewrite E.
    split; [done|]. right. eauto.
  - eexists _, c, (c <| tc_state := "IN_DOUBT"%string |> <| tc_error_code := Some "OUTCOME_UNKNOWN"%string |>).
    unfold bind, put_call, modify, ret. cbn. rewrite Hid. split; [done|]. split; [done|]. unfold row_ok. cbn. rewrite E.
    split; [|split; [auto|by left]]. split; cbn; auto. rewrite (Hcr E). right. split; [done|]. right. done.
Qed.

Lemma rejected_row :
  ph_twilio s !! id = Some Refused -> creator_ok c ->
  one_row (set_rejected id) s id (fun v c' => v = view c' /\ tc_provider_sid c' = None /\ tc_state c' = "failed"%string /\
                                    tc_error_code c' = Some "PROVIDER_REJECTED"%string).
Proof.
  intros Ht Hcr. pose proof (pi_row _ HI _ _ Hr) as Hok. pose proof (proj1 (pi_id _ HI _ _ Hr)) as Hid.
  unfold row_ok in Hok. destruct (tc_provider_sid c) as [sid|] eqn:E; [destruct Hok; congruence|].
  eexists _, c, (c <| tc_state := "failed"%string |> <| tc_error_code := Some "PROVIDER_REJECTED"%string |>).
  unfold set_rejected. unfold bind at 1. rewrite (load_ok s id c Hr). unfold bind, put_call, modify, ret. cbn. rewrite Hid.
  split; [done|]. split; [done|]. unfold row_ok. cbn. rewrite E. split; [|auto].
  split; cbn; auto. rewrite (Hcr E). right. split; [done|by left].
Qed.

Lemma record_row a :
  honest (ph_twilio s !! id) a -> creator_ok c -> one_row (record_answer id a) s id (settled id a).
Proof.
  intros Hh Hcr. destruct a as [|code sid st]; simpl in *; [by apply in_doubt_row|].
  destruct (500 <=? code) eqn:E5; [destruct (in_doubt_row Hcr) as (r & c0 & c1 & H & H0 & HF & Ho & Hs)|
    destruct (400 <=? code) eqn:E4;
    [destruct (rejected_row Hh Hcr) as (v & c0 & c1 & H & H0 & HF & Ho & Hv & Hs)|
     destruct (created_row sid (if String.eqb st "" then "queued"%string else st) Hh Hcr) as (v & c0 & c1 & H & H0 & HF & Ho & Hv & Hs)]].
  1: exists r, c0, c1.
  2,3: exists (Ok v), c0, c1; subst v; unfold bind; rewrite H.
  all: unfold settled; by rewrite ?E5, ?E4.
Qed.

Lemma adopt_row sid :
  ph_twilio s !! id = Some (Placed sid) ->
  one_row (adopt_sid id sid) s id (fun _ c' => tc_provider_sid c' = Some sid).
Proof.
  intros Ht. pose proof (pi_row _ HI _ _ Hr) as Hok. unfold row_ok in Hok. unfold one_row, adopt_sid, modify.
  unfold row in Hr. rewrite Hr, (sid_free s id sid HI Ht). destruct (tc_provider_sid c) as [sid0|] eqn:E.
  - destruct Hok as [Hp Hd]. rewrite bool_decide_false by done. exists tt, c, c. split; [|split; [done|]].
    + by rewrite (put_same s id c Hr).
    + split; [done|]. unfold row_ok. rewrite E. split; [done|congruence].
  - rewrite bool_decide_true by done. eexists tt, c, _. split; [reflexivity|]. split; [done|]. unfold row_ok. cbn.
    split; [|done]. split; cbn; auto; [congruence|]. destruct Hok as [->|[->|[_ ?]]]; [right|right|congruence]; (split; [done|by right]).
Qed.

Lemma gather_row sid ps :
  tc_provider_sid c = Some sid -> one_row (gather id ps) s id (fun _ c' => tc_provider_sid c' = Some sid).
Proof.
  intros E. pose proof (pi_row _ HI _ _ Hr) as Hok. pose proof (proj1 (pi_id _ HI _ _ Hr)) as Hid. unfold row_ok in Hok. rewrite E in Hok.
  unfold one_row, gather. unfold bind at 1. rewrite (load_ok s id c Hr).
  cbv zeta. match goal with |- context [put_call ?x] => set (c' := x) end.
  assert (H : forward c c' /\ tc_state c' = tc_state c /\ tc_id c' = id).
  { unfold c'. destruct (tc_transcript c) eqn:ET; [done|]. destruct (take _ _); [done|]. split; [|done].
    split; auto; [cbn; congruence|by left]. }
  destruct H as (F & St & Hid'). unfold bind, put_call, modify, ret. rewrite Hid'. eexists _, c, c'. split; [reflexivity|]. split; [done|].
  split; [done|]. pose proof (fw_sid _ _ F _ E) as E'. split; [|done]. unfold row_ok. by rewrite E', St.
Qed.

Lemma status_row sid ps :
  tc_provider_sid c = Some sid -> one_row (status_callback id ps) s id (fun _ c' => tc_provider_sid c' = Some sid).
Proof.
  intros E. pose proof (pi_row _ HI _ _ Hr) as Hok. pose proof (proj1 (pi_id _ HI _ _ Hr)) as Hid. unfold row_ok in Hok. rewrite E in Hok.
  unfold one_row, status_callback. unfold bind at 1. rewrite (load_ok s id c Hr). cbv zeta.
  set (new := unchars _). pose proof (advance_step c new) as HA. cbv zeta in HA.
  match goal with |- context [put_call ?x] => set (c' := x) end.
  assert (H : forward c c' /\ tc_state c' <> "IN_DOUBT"%string /\ tc_id c' = id).
  { unfold c'. destruct (advances_to _ _); [|by destruct Hok]. destruct HA as [[F1 F2 F3 F4] D].
    specialize (D (proj2 Hok)). destruct (is_digits _), (String.eqb _ _); (split; [by split|done]). }
  destruct H as (F & St & Hid'). unfold bind, put_call, modify, ret. rewrite Hid'. eexists _, c, c'. split; [reflexivity|]. split; [done|].
  split; [done|]. pose proof (fw_sid _ _ F _ E) as E'. split; [|done]. unfold row_ok. rewrite E'. split; [by destruct Hok|done].
Qed.
End transactions.

(** The row after such a transaction. *)
Lemma one_row_step {A} (m : CM A) s id Q a d :
  PInv s -> one_row m s id Q -> m (ph_calls s) = Ok (a, d) ->
  (forall t k c', ph_tasks s !! t = Some k -> creates k = Some id -> Q a c' -> creator_ok c') ->
  let s' := s <| ph_calls := d |> in
  PInv s' /\ rows_forward s s' /\ exists c', row s' id = Some c' /\ Q a c'.
Proof.
  intros HI (a' & c & c' & E & Hr & HF & Hok & HQ) E' Hcr s'. rewrite E in E'. injection E' as -> <-.
  assert (Hs : s' = put id c' s) by done. rewrite Hs. split; [by eapply put_step; eauto|].
  split; [by eapply put_forward|]. exists c'. split; [|done]. by rewrite row_put, N.eqb_refl.
Qed.

(** *** New calls *)

Lemma call_request_spec g run body a :
  call_request g run body = Ok a -> get_dict_or "config" (gr_run g) = config_of run ->
  ca_run_id a = run /\ ca_max_calls a = max_calls (config_of run) /\ ca_disclosure a = disclosure_of (config_of run) /\
  exists template, jget "script" (config_of run) = Some (JStr template) /\ approved_script (chars template) (ca_script a) = true.
Proof.
  intros H Hc. unfold call_request in H. destruct (require _ _ _); [|done].
  destruct (configured _ _ _) as [template|] eqn:Ht; [|done]. destruct (approved_script _ _) eqn:Ha; [|done]. simpl in H.
  rewrite Hc in *. assert (Hj : jget "script" (config_of run) = Some (JStr template)).
  { unfold configured in Ht. rewrite Hc in Ht. destruct (jget _ _) as [[]|]; try done. by destruct (String.eqb _ _); simplify_eq. }
  unfold disclosure_of. destruct (jget "disclosure" _) as [[]|]; simplify_eq; eauto 10.
  destruct (String.eqb s ""); simplify_eq; [eauto 10|]. destruct (bool_decide _); simplify_eq; eauto 10.
Qed.

Definition new_call (a : CallArgs) (id : uuid) : TelephonyCall :=
  mkCall id (ca_run_id a) (ca_key a) None (destination_hash (ca_to a)) (last4 (ca_to a)) (ca_disclosure a) (ca_script a)
    (ca_response_seconds a) "CREATING" None None None.

(** The first transaction changes nothing when the key is known, and otherwise adds a call
    within the limit. *)
Lemma create_begin_spec a connected d r d' :
  create_begin settings a connected d = Ok (r, d') ->
  (d' = d /\ exists c, by_key (ca_run_id a) (ca_key a) d = Some c /\ r = Existing (view c)) \/
  (r = New (cs_fresh d) /\ by_key (ca_run_id a) (ca_key a) d = None /\
   Z.of_nat (length (calls_of (ca_run_id a) d)) < ca_max_calls a /\
   d' = mkCalls (<[cs_fresh d := new_call a (cs_fresh d)]> (cs_calls d)) (N.succ (cs_fresh d))).
Proof.
  unfold create_begin. destruct (check_destination _ _); [|done]. destruct connected; [|done].
  unfold bind, guard, ret, raise, get, modify. destruct (by_key _ _ d) as [c|].
  - destruct (String.eqb _ _); [done|]. intros [= <- <-]. eauto.
  - destruct (_ <=? _) eqn:El; [done|]. intros [= <- <-]. reflect_all. right. auto.
Qed.

Section create.
Context (s : Phone) (HI : PInv s) (t : nat) (a : CallArgs) (Ht : ph_tasks s !! t = None).
Context (Hmax : ca_max_calls a = max_calls (config_of (ca_run_id a))).
Context (Hwords : owners_words (new_call a (cs_fresh (ph_calls s)))).
Context (Hkey : by_key (ca_run_id a) (ca_key a) (ph_calls s) = None).
Context (Hroom : Z.of_nat (length (calls_of (ca_run_id a) (ph_calls s))) < ca_max_calls a).

Definition new_id : uuid := cs_fresh (ph_calls s).
Definition with_new : Phone :=
  s <| ph_calls := mkCalls (<[new_id := new_call a new_id]> (cs_calls (ph_calls s))) (N.succ new_id) |>
    <| ph_tasks ::= <[t := Dialing new_id (ca_to a)]> |>.

Lemma row_new i : row with_new i = if (i =? new_id)%N then Some (new_call a new_id) else row s i.
Proof. unfold row, with_new. cbn. destruct (N.eqb_spec i new_id) as [->|N]; [apply lookup_insert_eq|by apply lookup_insert_ne]. Qed.

Lemma no_row : row s new_id = None.
Proof. destruct (row s new_id) eqn:E; [|done]. destruct (pi_id _ HI _ _ E). unfold new_id in *. lia. Qed.

Lemma new_forward : rows_forward s with_new.
Proof.
  intros i c Hi. rewrite row_new. destruct (N.eqb_spec i new_id) as [->|]; [|by exists c]. by rewrite no_row in Hi.
Qed.

Lemma not_dialled : new_id ∉ (ph_dials s).*1.
Proof.
  intros ([i to] & E & Hin)%list_elem_of_fmap. simpl in E. subst i. destruct (pi_dial _ HI _ _ Hin) as (c & Hc & _).
  by rewrite no_row in Hc.
Qed.

Lemma old_tasks t' k id : ph_tasks s !! t' = Some k -> creates k = Some id -> id <> new_id.
Proof.
  intros Hk Hc ->. pose proof (pi_tasks _ HI _ _ Hk) as Hok. destruct k; simplify_eq/=.
  - destruct Hok as [(c & Hr & _) _]. by rewrite no_row in Hr.
  - exact (not_dialled Hok).
  - exact (not_dialled (proj1 Hok)).
Qed.

Ltac new_row H := rewrite row_new in H; match type of H with context [(?i =? _)%N] =>
  destruct (N.eqb_spec i new_id) as [->|]; [injection H as <-|] end.

Lemma create_step : PInv with_new.
Proof.
  pose proof new_forward as F. pose proof old_tasks as Hold.
  assert (Htk : ph_tasks with_new = <[t := Dialing new_id (ca_to a)]> (ph_tasks s)) by done. split; try (by apply HI).
  - intros i c Hi. new_row Hi; [split; [done|cbn; lia]|]. destruct (pi_id _ HI _ _ Hi). split; [done|]. cbn. unfold new_id. lia.
  - intros i c Hi. new_row Hi; [by left|exact (pi_row _ HI _ _ Hi)].
  - intros i c Hi. new_row Hi; [done|exact (pi_words _ HI _ _ Hi)].
  - intros i j c c' Hi Hj Hrun Hk. rewrite row_new in Hi, Hj.
    destruct (N.eqb_spec i new_id) as [->|], (N.eqb_spec j new_id) as [->|]; simplify_eq; try done.
    + by destruct (by_key_none _ _ _ _ _ Hkey Hj).
    + by destruct (by_key_none _ _ _ _ _ Hkey Hi).
    + by eapply (pi_key _ HI).
  - intros run. pose proof (pi_limit _ HI run) as Hl. pose proof no_row as Hn. unfold row in Hn.
    change (Z.of_nat (length (calls_of run (mkCalls (<[new_id := new_call a new_id]> (cs_calls (ph_calls s))) (N.succ new_id))))
            <= max_calls (config_of run)).
    rewrite (calls_of_insert run _ _ _ _ new_id) by done. unfold of_run. simpl.
    assert (E : calls_of run (mkCalls (cs_calls (ph_calls s)) new_id) = calls_of run (ph_calls s)) by done. rewrite E.
    destruct (N.eqb_spec (ca_run_id a) run) as [<-|]; lia.
  - intros i to Hi. destruct (pi_dial _ HI _ _ Hi) as (c & Hr & Hl). destruct (F _ _ Hr) as (c' & Hr' & [E _ _ _]).
    exists c'. split; [done|]. injection E as _ _ _ _ -> _ _ _. done.
  - intros t' k. rewrite Htk. intros [[<- <-]|[_ Hk]]%lookup_insert_Some.
    + split; [|exact not_dialled]. exists (new_call a new_id). by rewrite row_new, N.eqb_refl.
    + exact (task_ok_forward s with_new k F eq_refl eq_refl (pi_tasks _ HI _ _ Hk)).
  - intros t1 t2 k1 k2 i. rewrite Htk. intros [[<- <-]|[N1 H1]]%lookup_insert_Some [[<- <-]|[N2 H2]]%lookup_insert_Some C1 C2; simplify_eq/=; try done.
    + by destruct (Hold _ _ _ H2 C2).
    + by destruct (Hold _ _ _ H1 C1).
    + by eapply (pi_creators _ HI).
  - intros t1 k1 i c. rewrite Htk. intros [[<- <-]|[N1 H1]]%lookup_insert_Some C1 Hi.
    + simplify_eq/=. rewrite row_new, N.eqb_refl in Hi. by simplify_eq.
    + rewrite row_new in Hi. destruct (N.eqb_spec i new_id) as [->|]; [by simplify_eq|]. by eapply (pi_creating _ HI).
Qed.
End create.

(** *** Twilio *)

Lemma dial_step s t id to :
  PInv s -> ph_tasks s !! t = Some (Dialing id to) ->
  PInv (s <| ph_tasks ::= <[t := Dialed id]> |> <| ph_dials ::= fun l => (id, to) :: l |>).
Proof.
  intros HI Ht. pose proof (pi_tasks _ HI _ _ Ht) as [Hrow Hn].
  split; try (by apply HI); cbn.
  - intros i to' [[= -> ->]|Hi]%elem_of_cons; [exact Hrow|exact (pi_dial _ HI _ _ Hi)].
  - constructor; [done|apply HI].
  - intros i dec Hd. apply elem_of_cons. right. by eapply (pi_twilio _ HI).
  - intros t' k [[<- <-]|[N H]]%lookup_insert_Some; [apply elem_of_cons; by left|].
    pose proof (pi_tasks _ HI _ _ H) as Hok. destruct k; try exact Hok; simpl in *.
    + destruct Hok as [? Hni]. split; [done|]. intros [->|?]%elem_of_cons; [|done].
      by destruct N; eapply (pi_creators _ HI _ _ _ _ _ Ht H).
    + apply elem_of_cons. by right.
    + destruct Hok. split; [apply elem_of_cons; by right|done].
  - intros t1 t2 k1 k2 i [[<- <-]|[N1 H1]]%lookup_insert_Some [[<- <-]|[N2 H2]]%lookup_insert_Some C1 C2; try done.
    + by eapply (pi_creators _ HI _ _ _ _ _ Ht H2).
    + by eapply (pi_creators _ HI _ _ _ _ _ H1 Ht).
    + by eapply (pi_creators _ HI).
  - intros t1 k1 i c [[<- <-]|[N1 H1]]%lookup_insert_Some C1 Hi; [by eapply (pi_creating _ HI _ _ _ _ Ht)|by eapply (pi_creating _ HI)].
Qed.

Lemma decide_step s id dec :
  PInv s -> id ∈ (ph_dials s).*1 -> ph_twilio s !! id = None ->
  (forall sid, dec = Placed sid -> is_call_sid sid = true /\ forall i, ph_twilio s !! i <> Some (Placed sid)) ->
  PInv (s <| ph_twilio ::= <[id := dec]> |>).
Proof.
  intros HI Hd Hn Hsid.
  assert (Hmono : forall i x, ph_twilio s !! i = Some x -> <[id := dec]> (ph_twilio s) !! i = Some x).
  { intros i x Hx. rewrite lookup_insert_ne; [done|]. congruence. }
  split; try (by apply HI); cbn.
  - intros i c Hi. pose proof (pi_row _ HI _ _ Hi) as Hok. unfold row_ok in *. cbn. destruct (tc_provider_sid c); naive_solver.
  - intros i x [[<- <-]|[_ Hx]]%lookup_insert_Some; [done|by eapply (pi_twilio _ HI)].
  - intros i sid [[<- ->]|[_ Hx]]%lookup_insert_Some; [by apply Hsid|by eapply (pi_sid _ HI)].
  - intros i j sid [[<- ->]|[_ Hx]]%lookup_insert_Some [[<- E]|[_ Hy]]%lookup_insert_Some; try done.
    + by destruct (proj2 (Hsid _ eq_refl) j).
    + by destruct (proj2 (Hsid _ E) i).
    + by eapply (pi_sids _ HI).
  - intros t k Hk. pose proof (pi_tasks _ HI _ _ Hk) as Hok. destruct k; try exact Hok; simpl in *; [|by apply Hmono].
    destruct Hok as [Hin Hh]. split; [done|]. unfold honest in *. destruct a; [done|].
    destruct (500 <=? code); [done|]. destruct (400 <=? code); by apply Hmono.
Qed.

(** *** Callbacks *)

Lemma found_ok s k id ps : PInv s -> has_sid s id ps -> task_ok s (found k id ps (ph_calls s)).
Proof.
  intros HI (c & Hr & Hs). unfold found, call_for, bind, get, ret. unfold row in Hr. rewrite Hr, Hs.
  pose proof (pi_row _ HI _ _ Hr) as Hok. unfold row_ok in Hok. rewrite Hs in Hok.
  pose proof (pi_sid _ HI _ _ (proj1 Hok)) as Hcs. rewrite bool_decide_true by done.
  rewrite bool_decide_false by (intros E; by rewrite E in Hcs). simpl. split; [by exists c|]. by exists c.
Qed.

Lemma callback_ok s k id ps :
  PInv s -> ph_twilio s !! id = Some (Placed (param "CallSid" ps)) ->
  param "To" ps = [] \/ (id, param "To" ps) ∈ ph_dials s -> task_ok s (callback_read k id ps (ph_calls s)).
Proof.
  intros HI Ht Hto. pose proof (pi_twilio _ HI _ _ Ht) as ([i to] & E & Hd)%list_elem_of_fmap. simpl in E. subst i.
  destruct (pi_dial _ HI _ _ Hd) as (c & Hr & Hl). unfold callback_read. unfold row in Hr. rewrite Hr.
  destruct (may_adopt ps c) eqn:Hm; [done|]. apply found_ok; [done|]. exists c. split; [done|].
  pose proof (pi_row _ HI _ _ Hr) as Hok. unfold row_ok in Hok. destruct (tc_provider_sid c) as [sid|] eqn:Es; [destruct Hok; congruence|].
  exfalso. unfold may_adopt in Hm. rewrite Es, bool_decide_true, (pi_sid _ HI _ _ Ht) in Hm by done.
  assert (Hst : existsb (String.eqb (tc_state c)) ["CREATING"; "IN_DOUBT"]%string = true).
  { destruct Hok as [->|[->|[_ ?]]]; [done|done|congruence]. }
  rewrite Hst in Hm. destruct Hto as [E|Hin]; [by rewrite E in Hm|].
  destruct (pi_dial _ HI _ _ Hin) as (c' & Hr' & Hl'). unfold row in Hr'. rewrite Hr in Hr'. injection Hr' as <-.
  rewrite (bool_decide_true (last4 (param "To" ps) = tc_destination_last4 c)), orb_true_r in Hm by done. done.
Qed.

Lemma serve_row s k id ps c d body :
  PInv s -> task_ok s (Found k id ps c) -> serve_callback settings k id ps c (ph_calls s) = Ok (body, d) ->
  let s' := s <| ph_calls := d |> in PInv s' /\ rows_forward s s' /\ task_ok s' (Replied k id (Ok body)).
Proof.
  intros HI [(c0 & Hr & Hs) (c1 & Hr1 & Hf)] Hserve. assert (c1 = c0) as -> by congruence.
  assert (Hcr : forall t k c', ph_tasks s !! t = Some k -> creates k = Some id ->
                 tc_provider_sid c' = Some (param "CallSid" ps) -> creator_ok c') by (intros ? ? ? ? ? ? ?; congruence).
  destruct k; simpl in Hserve.
  - injection Hserve as <- <-. cbv zeta. assert (E : s <| ph_calls := ph_calls s |> = s) by (by destruct s). rewrite E.
    split; [done|]. split; [by intros i ci; exists ci|]. exists c0. split; [done|by apply voice_fixed].
  - destruct (one_row_step _ _ _ _ _ _ HI (gather_row s HI id c0 Hr _ ps Hs) Hserve Hcr) as (? & ? & _). done.
  - destruct (one_row_step _ _ _ _ _ _ HI (status_row s HI id c0 Hr _ ps Hs) Hserve Hcr) as (? & ? & _). done.
Qed.

(** *** Every step *)

Lemma same_rows s s' : ph_calls s' = ph_calls s -> rows_forward s s'.
Proof. intros E id c Hr. exists c. unfold row in *. by rewrite E. Qed.

Lemma phone_step_ok s s' : PInv s -> pstep settings config_of s s' -> PInv s' /\ rows_forward s s'.
Proof.
  intros HI Hstep. destruct Hstep.
  - destruct (call_request_spec _ _ _ _ H2 H1) as (Hrun & Hmax & Hdisc & Hscript). subst run.
    apply create_begin_spec in H3 as [(-> & c & _ & ->)|(-> & Hkey & Hroom & ->)].
    + split; [|by apply same_rows]. by destruct s.
    + split; [apply create_step; done || (split; done)|by apply new_forward].
  - split; [by apply dial_step|by apply same_rows].
  - split; [by apply decide_step|by apply same_rows].
  - split; [|by apply same_rows]. apply task_step; [done| |].
    + split; [exact (pi_tasks _ HI _ _ H)|done].
    + intros i [= <-]. eauto.
  - pose proof (pi_tasks _ HI _ _ H) as [([i to] & E & Hd)%list_elem_of_fmap Hh]. simpl in E. subst i.
    destruct (pi_dial _ HI _ _ Hd) as (c & Hr & _).
    destruct (one_row_step (record_answer id a) (s <| ph_tasks ::= delete t |>) id (settled id a) r d) as (? & ? & _);
      [by apply task_end| |done| |done].
    + apply (record_row _ (task_end _ _ HI) _ c Hr); [done|]. by eapply (pi_creating _ HI).
    + cbn. intros t' k c' [Hne Hk]%lookup_delete_Some Hc. destruct Hne. by eapply (pi_creators _ HI).
  - split; [|by apply same_rows]. apply task_step; [done|by apply callback_ok|].
    intros i Hc. unfold callback_read, found in Hc. by repeat case_match.
  - pose proof (pi_tasks _ HI _ _ H) as Hok. simpl in Hok.
    pose proof (pi_twilio _ HI _ _ Hok) as ([i to] & E & Hd)%list_elem_of_fmap. simpl in E. subst i.
    destruct (pi_dial _ HI _ _ Hd) as (c & Hr & _).
    destruct (one_row_step _ _ _ _ _ _ HI (adopt_row s HI id c Hr _ Hok) H0) as (HI' & HF & c' & Hr' & Hs).
    { intros ? ? ? ? ? ? ?. congruence. }
    split; [|done]. apply (task_step (s <| ph_calls := d |>)); [done|by exists c'|done].
  - split; [|by apply same_rows]. apply task_step; [done|by apply found_ok, (pi_tasks _ HI _ _ H)|].
    intros i Hc. unfold found in Hc. by repeat case_match.
  - destruct (serve_row _ _ _ _ _ _ _ HI (pi_tasks _ HI _ _ H) H0) as (HI' & HF & Hok).
    split; [|done]. by apply (task_step (s <| ph_calls := d |>)).
  - split; [by apply task_end|by apply same_rows].
Qed.

Lemma phone_steps_ok s s' : PInv s -> rtc (pstep settings config_of) s s' -> PInv s' /\ rows_forward s s'.
Proof.
  intros HI Hs. induction Hs as [s|s s1 s2 H _ IH]; [split; [done|by apply same_rows]|].
  destruct (phone_step_ok _ _ HI H) as [HI1 F1]. destruct (IH HI1) as [HI2 F2]. split; [done|].
  intros i c Hi. destruct (F1 _ _ Hi) as (c1 & H1 & Hf1). destruct (F2 _ _ H1) as (c2 & H2 & Hf2). exists c2. split; [done|].
  by etransitivity.
Qed.

(** *** Dials *)

Definition dial_key (s : Phone) (d : uuid * text) : option (uuid * string) :=
  (fun c => (tc_run_id c, tc_idempotency_key c)) <$> row s d.1.
Definition dials_of (run : uuid) (s : Phone) : list (uuid * text) :=
  List.filter (fun d => bool_decide (fst <$> dial_key s d = Some run)) (ph_dials s).

Lemma dial_keys_nodup s : PInv s -> NoDup (dial_key s <$> ph_dials s).
Proof.
  intros HI. apply NoDup_fmap_2_strong; [|by eapply NoDup_fmap_1, HI].
  intros [i to] [j to'] Hi Hj. unfold dial_key. simpl. destruct (pi_dial _ HI _ _ Hi) as (c & Hc & _).
  destruct (pi_dial _ HI _ _ Hj) as (c' & Hc' & _). rewrite Hc, Hc'. simpl. intros [= Er Ek].
  assert (i = j) as -> by (by eapply (pi_key _ HI _ _ _ _ Hc Hc')). f_equal.
  apply list_elem_of_lookup in Hi as [m Hm], Hj as [n Hn]. assert (m = n) as ->; [|congruence].
  eapply (NoDup_lookup _ _ _ j (pi_once _ HI)); rewrite list_lookup_fmap; [by rewrite Hm|by rewrite Hn].
Qed.

Lemma dials_within s run : PInv s -> (length (dials_of run s) <= length (calls_of run (ph_calls s)))%nat.
Proof.
  intros HI. rewrite <- (length_map fst (dials_of run s)), <- (length_map tc_id (calls_of run (ph_calls s))).
  apply List.NoDup_incl_length.
  - apply NoDup_ListNoDup. unfold dials_of. pose proof (pi_once _ HI) as Hn. induction (ph_dials s) as [|d l IH]; simpl; [constructor|].
    apply NoDup_cons in Hn as [Hd Hn]. case_match; [|by apply IH]. simpl. constructor; [|by apply IH].
    intros (d' & E & Hin)%list_elem_of_In%in_map_iff. apply List.filter_In in Hin as [Hin _].
    destruct Hd. apply list_elem_of_fmap. exists d'. split; [done|by apply list_elem_of_In].
  - intros i ([i' to] & E & Hin)%in_map_iff. simpl in E. subst i'. apply List.filter_In in Hin as [Hin Hr].
    apply list_elem_of_In in Hin. destruct (pi_dial _ HI _ _ Hin) as (c & Hc & _).
    unfold dial_key in Hr. simpl in Hr. rewrite Hc in Hr. simpl in Hr. reflect_all. injection Hr as Hr.
    apply in_map_iff. exists c. split; [by apply (pi_id _ HI _ _ Hc)|]. apply List.filter_In. split.
    + apply in_map_iff. exists (i, c). split; [done|]. by apply list_elem_of_In, elem_of_map_to_list.
    + by apply N.eqb_eq.
Qed.

Lemma key_found s id c :
  PInv s -> row s id = Some c -> by_key (tc_run_id c) (tc_idempotency_key c) (ph_calls s) = Some c.
Proof.
  intros HI Hr. destruct (by_key _ _ _) as [c'|] eqn:E.
  - apply by_key_some in E as ((i & Hi) & Er & Ek). f_equal.
    assert (i = id) as -> by (by eapply (pi_key _ HI _ _ _ _ Hi Hr)). unfold row in Hr. congruence.
  - by destruct (by_key_none _ _ _ _ _ E Hr eq_refl).
Qed.

(** C7: Over any interleaving of create requests, Twilio's answers, callbacks and crashes, Twilio
    is asked at most once per run and idempotency key, and at most [maxCalls] (one to ten) times
    per run; repeating a request, at any later time, changes nothing and answers with the call, or
    with OUTCOME_UNKNOWN while its outcome is in doubt. *)
Theorem calls_placed_once s :
  rtc (pstep settings config_of) phone0 s ->
  NoDup (dial_key s <$> ph_dials s) /\ (forall d, d ∈ ph_dials s -> is_Some (dial_key s d)) /\
  (forall run, Z.of_nat (length (dials_of run s)) <= max_calls (config_of run) <= 10) /\
  forall s' id c a,
    row s id = Some c -> rtc (pstep settings config_of) s s' ->
    ca_run_id a = tc_run_id c -> ca_key a = tc_idempotency_key c -> check_destination settings (ca_to a) = Ok tt ->
    exists c', row s' id = Some c' /\ forward c c' /\
      create_begin settings a true (ph_calls s') =
        if String.eqb (tc_state c') "IN_DOUBT" then Err (outcome_unknown id) else Ok (Existing (view c'), ph_calls s').
Proof.
  intros Hs. destruct (phone_steps_ok _ _ PInv0 Hs) as [HI _]. split; [by apply dial_keys_nodup|]. split.
  { intros [i to] Hd. destruct (pi_dial _ HI _ _ Hd) as (c & Hc & _). unfold dial_key. simpl. rewrite Hc. eauto. }
  split.
  { intros run. pose proof (dials_within s run HI). pose proof (pi_limit _ HI run). pose proof (max_calls_pos (config_of run)). lia. }
  intros s' id c a Hr Hs' Hrun Hkey Hto. destruct (phone_steps_ok _ _ HI Hs') as [HI' F]. destruct (F _ _ Hr) as (c' & Hr' & Hf).
  exists c'. split; [done|]. split; [done|]. pose proof (key_found _ _ _ HI' Hr') as Hk.
  destruct Hf as [E _ _ _]. injection E as E1 E2 E3 _ _ _ _ _. unfold create_begin. rewrite Hto. unfold bind, guard, get, ret, raise.
  rewrite Hrun, Hkey, <- E2, <- E3, Hk, (proj1 (pi_id _ HI' _ _ Hr')). by destruct (String.eqb _ _).
Qed.

(** A call only moves forward, whatever is late, repeated or lost: its identity, destination
    and words never change, a CallSid and a transcript once recorded stay, a final state is never
    left and no other state is followed by an earlier one. *)
Theorem calls_forward s s' :
  rtc (pstep settings config_of) phone0 s -> rtc (pstep settings config_of) s s' ->
  forall id c, row s id = Some c -> exists c', row s' id = Some c' /\ forward c c'.
Proof. intros Hs Hs'. destruct (phone_steps_ok _ _ PInv0 Hs) as [HI _]. by destruct (phone_steps_ok _ _ HI Hs') as [_ ?]. Qed.

(** C9: When Twilio has answered a create request, the second transaction commits and settles the
    call: a placed call has its CallSid, a rejected one has failed with PROVIDER_REJECTED, and when
    the answer was lost the call is in doubt and the agent is told so, unless a callback has
    already shown that it was placed. *)
Theorem create_settles s t id a :
  rtc (pstep settings config_of) phone0 s -> ph_tasks s !! t = Some (Answering id a) ->
  exists r d c, record_answer id a (ph_calls s) = Ok (r, d) /\ cs_calls d !! id = Some c /\ settled id a r c /\
    forall i, i <> id -> cs_calls d !! i = cs_calls (ph_calls s) !! i.
Proof.
  intros Hs Ht. destruct (phone_steps_ok _ _ PInv0 Hs) as [HI _].
  pose proof (pi_tasks _ HI _ _ Ht) as [([i to] & E & Hd)%list_elem_of_fmap Hh]. simpl in E. subst i.
  destruct (pi_dial _ HI _ _ Hd) as (c & Hr & _). pose proof (pi_creating _ HI _ _ _ _ Ht eq_refl Hr) as Hcr.
  destruct (record_row s HI id c Hr a Hh Hcr) as (r & c0 & c' & Hrec & _ & _ & _ & Hset).
  exists r, (ph_calls (put id c' s)), c'. split; [done|]. pose proof (row_put s id c' id) as Hp. rewrite N.eqb_refl in Hp.
  split; [done|]. split; [done|]. intros i Hne. pose proof (row_put s id c' i) as Hi. apply N.eqb_neq in Hne. by rewrite Hne in Hi.
Qed.

(** *** Replies *)

Definition callback_of (k : Task) : option (Callback * uuid) :=
  match k with
  | Adopting k id _ | Rereading k id _ | Found k id _ _ | Replied k id _ => Some (k, id)
  | _ => None
  end.

(** The reply of a callback: to a voice callback, the owner's words. *)
Definition answered (s : Phone) (t : nat) (k : Callback) (id : uuid) : Prop :=
  exists body, ph_tasks s !! t = Some (Replied k id (Ok body)) /\
    (k = Voice -> exists c, row s id = Some c /\ owners_words c /\
       body = voice_twiml (disclosure_of (config_of (tc_run_id c))) (tc_script c)
                (twilio_base_url settings ++ CALLBACK_PATH ++ chars "/gather/" ++ chars (uuid_str id)) (tc_response_seconds c)).

Abbreviation steps := (rtc (pstep settings config_of)).

Lemma replied_answered s t k id r : PInv s -> ph_tasks s !! t = Some (Replied k id r) -> answered s t k id.
Proof.
  intros HI Ht. pose proof (pi_tasks _ HI _ _ Ht) as Hok. simpl in Hok. destruct r as [body|]; [|by destruct k].
  exists body. split; [done|]. intros ->. destruct Hok as (c & Hr & ->). exists c. split; [done|].
  pose proof (pi_words _ HI _ _ Hr) as [Hd Hw]. split; [done|]. unfold voice. by rewrite Hd, (proj1 (pi_id _ HI _ _ Hr)).
Qed.

Lemma found_answers s t k id ps c :
  PInv s -> ph_tasks s !! t = Some (Found k id ps c) -> exists s', steps s s' /\ answered s' t k id.
Proof.
  intros HI Ht. pose proof (pi_tasks _ HI _ _ Ht) as Hok. pose proof Hok as [(c0 & Hr & Hs) _].
  assert (Hserve : exists body d, serve_callback settings k id ps c (ph_calls s) = Ok (body, d)).
  { destruct k; [by eexists _, _| |].
    - destruct (gather_row s HI id c0 Hr _ ps Hs) as (body & _ & c' & H & _). eauto.
    - destruct (status_row s HI id c0 Hr _ ps Hs) as (body & _ & c' & H & _). eauto. }
  destruct Hserve as (body & d & Hserve). pose proof (ps_serve settings config_of s t k id ps c body d Ht Hserve) as Hstep.
  eexists. split; [by apply rtc_once|]. destruct (phone_step_ok _ _ HI Hstep) as [HI' _]. eapply replied_answered; [done|].
  apply lookup_insert_eq.
Qed.

Lemma sought_answers s t k id ps :
  PInv s -> has_sid s id ps -> ph_tasks s !! t = Some (found k id ps (ph_calls s)) -> exists s', steps s s' /\ answered s' t k id.
Proof.
  intros HI Hs Ht. pose proof (pi_tasks _ HI _ _ Ht) as Hok. unfold found in Ht, Hok.
  destruct (call_for _ _ _) as [[c d]|e]; [by eapply found_answers|by destruct k].
Qed.

Lemma rereading_answers s t k id ps :
  PInv s -> ph_tasks s !! t = Some (Rereading k id ps) -> exists s', steps s s' /\ answered s' t k id.
Proof.
  intros HI Ht. pose proof (pi_tasks _ HI _ _ Ht) as Hok. pose proof (ps_reread settings config_of s t k id ps Ht) as Hstep.
  destruct (phone_step_ok _ _ HI Hstep) as [HI' F]. destruct (sought_answers _ t k id ps HI') as (s' & H & Ha).
  - by eapply has_sid_forward.
  - apply lookup_insert_eq.
  - exists s'. split; [by eapply rtc_l|done].
Qed.

(** C8: Every callback of a call Twilio placed is answered, even when it arrives before the
    broker has recorded Twilio's answer or after that answer was lost: a callback in progress can
    always complete, none is refused, and a voice callback is answered with the owner's disclosure
    followed by a script the owner approved. *)
Theorem callbacks_answered s t task k id :
  steps phone0 s -> ph_tasks s !! t = Some task -> callback_of task = Some (k, id) ->
  exists s', steps s s' /\ answered s' t k id.
Proof.
  intros Hs Ht Hk. destruct (phone_steps_ok _ _ PInv0 Hs) as [HI _]. destruct task as [| | |? ? ps|? ? ps|? ? ps c|]; simplify_eq/=.
  - pose proof (pi_tasks _ HI _ _ Ht) as Hok. simpl in Hok.
    assert (Hd : exists d, adopt_sid id (param "CallSid" ps) (ph_calls s) = Ok (tt, d)) by (by eexists). destruct Hd as [d Hd].
    pose proof (ps_adopt settings config_of s t k id ps d Ht Hd) as Hstep. destruct (phone_step_ok _ _ HI Hstep) as [HI' _].
    destruct (rereading_answers _ t k id ps HI') as (s' & H & Ha); [apply lookup_insert_eq|].
    exists s'. split; [by eapply rtc_l|done].
  - by eapply rereading_answers.
  - by eapply found_answers.
  - exists s. split; [done|by eapply replied_answered].
Qed.
End phone.
