(* ===== verification/CallbackGuard.v ===== *)
(** * Signature check of Twilio's callbacks ([broker/twilio.py])

    [verify_callback], the cache of the credentials it uses, and [_reject], which counts every
    refusal but writes at most one audit row per reason and minute.  HMAC-SHA1 with its base64
    is a parameter; time is the monotonic clock in microseconds. *)

From S2P Require Import Prelude Json Redaction SchemaGuard States Jobs RunModel RunService RunInv RunOps Platform.
From S2P Require Import Capability A1 Telephony.
From Stdlib Require Import Ascii Sorting.Sorted.
#[local] Open Scope Z_scope.

(** [base64.b64encode(hmac.new(auth_token, payload, sha1).digest())]: 27 digits and a pad. *)
Class Hmac := hmac_sha1 : text -> text -> text.

Definition is_b64 (c : ascii) : bool := is_letter c || is_digit c || one_of "+/" c.

(** [len(base64.b64decode(sent, validate=True)) == 20]: digits, then at most two pads, in groups
    of four; [n] digits and [p] pads decode to [3 * (n + p) / 4 - p] bytes. *)
Definition b64_length (s : text) : option Z :=
  let digits := Z.of_nat (length (List.filter is_b64 s)) in
  let pads := Z.of_nat (length s) - digits in
  if forallb is_b64 (take (Z.to_nat digits) s) && forallb (Ascii.eqb "=") (drop (Z.to_nat digits) s)
     && (pads <=? 2) && ((digits + pads) mod 4 =? 0)
  then Some (3 * ((digits + pads) / 4) - pads) else None.

Definition well_formed (sent : text) : bool := match b64_length sent with Some n => n =? 20 | None => false end.

Class HmacLaws (H : Hmac) := hmac_well_formed : forall key payload, well_formed (hmac_sha1 key payload) = true.

Definition REJECTION_AUDIT_SECONDS : Z := seconds 60.
Definition CALLBACK_CREDENTIALS_SECONDS : Z := seconds 60.

Record AuditRow := mkRow { ar_reason : string; ar_at : Z; ar_count : Z }.

(** The part of [TelephonyService] that callbacks use; [gu_audit] has the newest row first,
    [gu_counter] is the metric [callback_rejections]. *)
Record Guard := mkGuard {
  gu_rejections : gmap string (Z * Z);
  gu_creds : option (Z * text);
  gu_audit : list AuditRow;
  gu_counter : Z
}.

#[export] Instance eta_Guard : Eta Guard := fun g => mkGuard (gu_rejections g) (gu_creds g) (gu_audit g) (gu_counter g).

Definition guard0 : Guard := mkGuard ∅ None [] 0.

Section guard.
Context {H : Hmac}.

Definition signature (auth_token url : text) (params : Params) : text :=
  hmac_sha1 auth_token (url ++ flat_map (fun k => chars k ++ param k params) (py_sorted (map fst params))).

Definition SIGNATURE_INVALID : PlatformError := mkError "SIGNATURE_INVALID" 403 [].

Definition last_row (reason : string) (g : Guard) : Z * Z :=
  default (- REJECTION_AUDIT_SECONDS, 0) (gu_rejections g !! reason).

Definition reject (now : Z) (reason : string) (g : Guard) : Guard :=
  let g := g <| gu_counter ::= Z.succ |> in
  let '(last, pending) := last_row reason g in
  let pending := pending + 1 in
  if REJECTION_AUDIT_SECONDS <=? now - last then
    g <| gu_rejections ::= <[reason := (now, 0)]> |> <| gu_audit ::= cons (mkRow reason now pending) |>
  else g <| gu_rejections ::= <[reason := (last, pending)]> |>.

(** [stored] is what [_credentials] reads: the auth token, when Twilio is connected. *)
Definition signing_credentials (now : Z) (stored : option text) (g : Guard) : Result PlatformError text * Guard :=
  let load := match stored with
              | Some token => (Ok token, g <| gu_creds := Some (now + CALLBACK_CREDENTIALS_SECONDS, token) |>)
              | None => (Err (needs_connection "twilio"), g)
              end in
  match gu_creds g with
  | Some (until, token) => if now <? until then (Ok token, g) else load
  | None => load
  end.

Definition verify_callback (settings : TelSettings) (now : Z) (stored : option text) (path_and_query : text) (params : Params)
    (sent : option text) (g : Guard) : Result PlatformError unit * Guard :=
  match sent with
  | None | Some [] => (Err SIGNATURE_INVALID, reject now "missing_signature" g)
  | Some s =>
      if negb (well_formed s) then (Err SIGNATURE_INVALID, reject now "malformed_signature" g)
      else match signing_credentials now stored g with
           | (Err e, g) => (Err e, g)
           | (Ok token, g) =>
               if bool_decide (signature token (twilio_base_url settings ++ path_and_query) params = s) then (Ok tt, g)
               else (Err SIGNATURE_INVALID, reject now "bad_signature" g)
           end
  end.
End guard.

(** ** What the audit log shows *)

Definition rows_of (reason : string) (g : Guard) : list AuditRow :=
  List.filter (fun r => String.eqb (ar_reason r) reason) (gu_audit g).
Definition counted (rows : list AuditRow) : Z := foldr (fun r n => ar_count r + n) 0 rows.

(** Rows, newest first, at least a minute apart. *)
Fixpoint spaced (rows : list AuditRow) : Prop :=
  match rows with
  | r :: (r' :: _) as rest => REJECTION_AUDIT_SECONDS <= ar_at r - ar_at r' /\ spaced rest
  | _ => True
  end.

(** A run of the check: requests with the time they came. *)
Record CallbackRequest := mkRequest {
  rq_now : Z;
  rq_stored : option text;
  rq_path : text;
  rq_params : Params;
  rq_signature : option text
}.

(** What happens to the guard: a callback is checked, or [configure] or [disconnect] drops the
    cached credentials. *)
Inductive GuardEvent := Request (r : CallbackRequest) | CredentialsChanged.

Definition times (h : list GuardEvent) : list Z := omap (fun e => match e with Request r => Some (rq_now r) | _ => None end) h.

Section history.
Context {H : Hmac} (settings : TelSettings).

Definition check_request (r : CallbackRequest) : Guard -> Result PlatformError unit * Guard :=
  verify_callback settings (rq_now r) (rq_stored r) (rq_path r) (rq_params r) (rq_signature r).

(** The guard after a history, newest event first. *)
Fixpoint after (h : list GuardEvent) : Guard :=
  match h with
  | [] => guard0
  | Request r :: h' => (check_request r (after h')).2
  | CredentialsChanged :: h' => after h' <| gu_creds := None |>
  end.

(** The reason for which a request is refused. *)
Definition refusal (r : CallbackRequest) (g : Guard) : option string :=
  match rq_signature r with
  | None | Some [] => Some "missing_signature"%string
  | Some s => if negb (well_formed s) then Some "malformed_signature"%string
              else match signing_credentials (rq_now r) (rq_stored r) g with
                   | (Ok token, _) => if bool_decide (signature token (twilio_base_url settings ++ rq_path r) (rq_params r) = s)
                                      then None else Some "bad_signature"%string
                   | (Err _, _) => None
                   end
  end.

Fixpoint refused (reason : string) (h : list GuardEvent) : Z :=
  match h with
  | [] => 0
  | Request r :: h' => (if bool_decide (refusal r (after h') = Some reason) then 1 else 0) + refused reason h'
  | CredentialsChanged :: h' => refused reason h'
  end.

(** Guards that differ in the cached credentials only. *)
Definition same_log (g g' : Guard) : Prop := gu_rejections g' = gu_rejections g /\ gu_audit g' = gu_audit g.

Lemma credentials_log now stored g : same_log g (signing_credentials now stored g).2.
Proof. unfold signing_credentials. destruct (gu_creds g) as [[until token]|], stored; try case_match; done. Qed.

Lemma check_log r g :
  exists g', same_log g g' /\
    (check_request r g).2 = match refusal r g with Some reason => reject (rq_now r) reason g' | None => g' end.
Proof.
  unfold check_request, verify_callback, refusal. pose proof (credentials_log (rq_now r) (rq_stored r) g) as HL.
  destruct (rq_signature r) as [[|c s]|]; try (by exists g). destruct (well_formed _); [|by exists g]. simpl.
  destruct (signing_credentials _ _ g) as [[token|e] g']; [|by exists g']. exists g'. by destruct (bool_decide _).
Qed.

(** The log of one reason: [n] refusals up to the instant [now]. *)
Definition log_ok (reason : string) (n now : Z) (g : Guard) : Prop :=
  let '(last, pending) := last_row reason g in
  counted (rows_of reason g) + pending = n /\ spaced (rows_of reason g) /\
  match rows_of reason g with
  | [] => last = - REJECTION_AUDIT_SECONDS /\ pending = 0
  | r :: _ => last = ar_at r /\ ar_at r <= now /\ 0 <= pending
  end.

Lemma log_ok_same reason n now now' g g' : same_log g g' -> now <= now' -> log_ok reason n now g -> log_ok reason n now' g'.
Proof.
  intros [E1 E2] Ht. unfold log_ok, last_row, rows_of. rewrite E1, E2. destruct (default _ _). intros (? & ? & Hl).
  split; [done|]. split; [done|]. case_match; [done|]. destruct Hl as (? & ? & ?). auto with lia.
Qed.

Lemma reject_other reason reason' now g : reason <> reason' ->
  rows_of reason (reject now reason' g) = rows_of reason g /\ last_row reason (reject now reason' g) = last_row reason g.
Proof.
  intros Hne. unfold reject. destruct (last_row reason' _) as [last pending]. unfold rows_of, last_row.
  case_match; cbn; rewrite lookup_insert_ne by done; [|done]. apply not_eq_sym, String.eqb_neq in Hne. by rewrite Hne.
Qed.

Lemma reject_log reason n now g : 0 <= now -> log_ok reason n now g -> log_ok reason (n + 1) now (reject now reason g).
Proof.
  intros H0. unfold log_ok, reject. change (last_row reason (g <| gu_counter ::= Z.succ |>)) with (last_row reason g).
  destruct (last_row reason g) as [last pending] eqn:El. intros (Hc & Hs & Hl).
  destruct (REJECTION_AUDIT_SECONDS <=? now - last) eqn:E; unfold last_row, rows_of, counted in *; cbn in *; rewrite lookup_insert_eq; cbn.
  - rewrite String.eqb_refl. cbn. reflect_all. split; [lia|]. split; [|lia].
    destruct (List.filter _ (gu_audit g)) as [|r rows]; [done|]. destruct Hl as (-> & Hr & Hp). by split.
  - reflect_all. split; [lia|]. split; [done|]. destruct (List.filter _ (gu_audit g)) as [|r rows]; [|lia].
    destruct Hl as [-> ->]. unfold REJECTION_AUDIT_SECONDS in *. lia.
Qed.

Lemma after_log reason now h :
  StronglySorted Z.ge (now :: times h) -> Forall (Z.le 0) (now :: times h) -> log_ok reason (refused reason h) now (after h).
Proof.
  revert now. induction h as [|[r|] h IH]; intros now Hs H0.
  - unfold log_ok, last_row, rows_of. cbn. done.
  - cbn in Hs, H0. apply StronglySorted_inv in Hs as [Hs Hn]. apply Forall_cons in H0 as [_ H0].
    specialize (IH _ Hs H0). apply Forall_cons in Hn as [Hn _], H0 as [H0 _]. cbn [after refused].
    destruct (check_log r (after h)) as (g' & Hsame & ->). eapply (log_ok_same _ _ (rq_now r) now _ _ (conj eq_refl eq_refl)); [lia|].
    pose proof (log_ok_same _ _ _ _ _ _ Hsame (Z.le_refl _) IH) as IH'.
    destruct (refusal r (after h)) as [reason'|]; [|done]. destruct (decide (reason' = reason)) as [->|Hne].
    + rewrite bool_decide_true, Z.add_comm by done. by apply reject_log.
    + rewrite bool_decide_false by congruence. unfold log_ok in *.
      by destruct (reject_other reason reason' (rq_now r) g' (not_eq_sym Hne)) as [-> ->].
  - by eapply log_ok_same; [|apply Z.le_refl|apply (IH now)].
Qed.

Lemma credentials_cache now stored g :
  let g' := (signing_credentials now stored g).2 in
  gu_creds g' = gu_creds g \/ exists t, stored = Some t /\ gu_creds g' = Some (now + CALLBACK_CREDENTIALS_SECONDS, t).
Proof.
  unfold signing_credentials. destruct (gu_creds g) as [[u tk]|] eqn:E.
  - destruct (_ <? u); [by left|]. destruct stored; [right; eauto|by left].
  - destruct stored; [right; eauto|by left].
Qed.

Lemma reject_creds now reason g : gu_creds (reject now reason g) = gu_creds g.
Proof. unfold reject. by destruct (last_row _ _), (_ <=? _). Qed.

(** Cached credentials were read at most a minute before they expire. *)
Lemma cached_creds h until token :
  gu_creds (after h) = Some (until, token) ->
  exists r, Request r ∈ h /\ rq_stored r = Some token /\ until = rq_now r + CALLBACK_CREDENTIALS_SECONDS.
Proof.
  induction h as [|[r|] h IH]; [done| |done]. cbn [after].
  assert (Hc : gu_creds (check_request r (after h)).2 = gu_creds (after h) \/
               exists t, rq_stored r = Some t /\ gu_creds (check_request r (after h)).2 = Some (rq_now r + CALLBACK_CREDENTIALS_SECONDS, t)).
  { unfold check_request, verify_callback. pose proof (credentials_cache (rq_now r) (rq_stored r) (after h)) as HC.
    destruct (rq_signature r) as [[|c s]|]; simpl; rewrite ?reject_creds; [by left| |by left].
    destruct (well_formed _); simpl; rewrite ?reject_creds; [|by left].
    destruct (signing_credentials _ _ _) as [[tk|e] g']; [|exact HC]. by destruct (bool_decide _); simpl; rewrite ?reject_creds. }
  intros HE. destruct Hc as [Hc|(t & Hst & Hc)]; rewrite Hc in HE.
  - destruct (IH HE) as (r' & Hin & ?). exists r'. split; [by right|done].
  - injection HE as <- <-. exists r. split; [by left|done].
Qed.

(** C10: A callback is accepted exactly when it carries the signature of its public URL and
    parameters under the auth token that is stored now or was stored less than a minute ago.  Of
    every reason for refusal, the audit log has rows at least a minute apart whose counts, with
    those still pending, add up to the number of refusals. *)
Theorem callbacks_guarded `{!HmacLaws H} h r :
  StronglySorted Z.ge (times (Request r :: h)) -> Forall (Z.le 0) (times (Request r :: h)) ->
  let g := after h in
  ((check_request r g).1 = Ok tt <->
     exists token, (signing_credentials (rq_now r) (rq_stored r) g).1 = Ok token /\
       rq_signature r = Some (signature token (twilio_base_url settings ++ rq_path r) (rq_params r))) /\
  (forall token, (signing_credentials (rq_now r) (rq_stored r) g).1 = Ok token ->
     rq_stored r = Some token \/
     exists r', Request r' ∈ h /\ rq_stored r' = Some token /\ rq_now r < rq_now r' + CALLBACK_CREDENTIALS_SECONDS) /\
  (forall reason, spaced (rows_of reason g) /\ counted (rows_of reason g) + (last_row reason g).2 = refused reason h).
Proof.
  intros Hs H0 g. split; [|split].
  - unfold check_request, verify_callback. destruct (signing_credentials _ _ g) as [[token|e] g'] eqn:Ec.
    + cbn [fst]. assert (HT : forall t, (exists token0, Ok (E := PlatformError) token = Ok token0 /\ t = Some (signature token0 (twilio_base_url settings ++ rq_path r) (rq_params r)))
                  <-> t = Some (signature token (twilio_base_url settings ++ rq_path r) (rq_params r))) by (intros t; split; [by intros (? & [= <-] & ?)|eauto]).
      rewrite HT. pose proof (hmac_well_formed token ((twilio_base_url settings ++ rq_path r) ++ flat_map (fun k => chars k ++ param k (rq_params r)) (py_sorted (map fst (rq_params r))))) as Hw.
      fold (signature token (twilio_base_url settings ++ rq_path r) (rq_params r)) in Hw.
      destruct (rq_signature r) as [[|c s]|]; [split; [done|]|..|done].
      * intros [= E]. by rewrite <- E in Hw.
      * destruct (well_formed (c :: s)) eqn:Ew; simpl; [|split; [done|intros [= E]; congruence]].
        case_bool_decide; simpl; split; congruence.
    + split; [|by intros (? & ? & _)]. destruct (rq_signature r) as [[|c s]|]; try done. by destruct (negb _).
  - intros token Ht. unfold signing_credentials in Ht. destruct (gu_creds g) as [[until tk]|] eqn:Ec.
    + destruct (_ <? until) eqn:El; [|by left; destruct (rq_stored r); simplify_eq/=]. simpl in Ht. injection Ht as <-. reflect_all. right.
      destruct (cached_creds _ _ _ Ec) as (r' & Hin & Hst & ->). eauto.
    + left. by destruct (rq_stored r); simplify_eq/=.
  - intros reason. pose proof (after_log reason (rq_now r) h Hs H0) as HL. unfold log_ok in HL. fold g in HL.
    destruct (last_row reason g). simpl. destruct HL as (? & ? & _). done.
Qed.
End history.
