(* ===== verification/BrokerApi.v ===== *)
(** * The agent API of the broker ([broker/agent_api.py])

    Every route an agent can call: the token check, the constraints on the body, the capability,
    the resource the owner configured, and the call it makes on a service behind the broker.  A
    route is a function from the grant to that call ([Downstream]) or the error.  What the
    services answer is passed on; of the replies only the owner check of [poll_input] is here. *)

From S2P Require Import Prelude Json Redaction SchemaGuard States Jobs RunModel RunService RunInv RunOps Platform.
From S2P Require Import Capability A1 Telephony TelephonyProps.
From Stdlib Require Import Ascii.
#[local] Open Scope Z_scope.

(** ** Patterns of the request models *)

Definition key_char (c : ascii) : bool := is_letter c || is_digit c || one_of "_.:-" c.
Definition slen (s : string) : Z := Z.of_nat (String.length s).
Definition len_in (lo hi : Z) (s : string) : bool := (lo <=? slen s) && (slen s <=? hi).
Definition in_range (lo hi n : Z) : bool := (lo <=? n) && (n <=? hi).

(** [KEY_PATTERN] *)
Definition is_key (s : string) : bool := len_in 1 200 s && forallb key_char (chars s).
(** [CLAIM_TOKEN_PATTERN] *)
Definition is_claim_token (s : string) : bool :=
  len_in 8 128 s && forallb (fun c => is_letter c || is_digit c || one_of "_-" c) (chars s).
(** [^[a-z][a-z0-9-]{1,62}$] *)
Definition is_agent_id (s : string) : bool :=
  match chars s with
  | c :: rest => is_lower c && in_range 1 62 (Z.of_nat (length rest)) && forallb (fun c => is_lower c || is_digit c || one_of "-" c) rest
  | [] => false
  end.
Definition is_message_id (s : string) : bool :=
  len_in 1 64 s && forallb (fun c => is_letter c || is_digit c || one_of "_-" c) (chars s).
Definition repo_char (c : ascii) : bool := is_letter c || is_digit c || one_of "_.-" c.
(** [REPO_PATTERN] *)
Definition is_repo (s : string) : bool :=
  match split_at "/" (chars s) with
  | [owner; name] => in_range 1 100 (Z.of_nat (length owner)) && in_range 1 100 (Z.of_nat (length name))
                     && forallb repo_char owner && forallb repo_char name
  | _ => false
  end.
Definition is_commit (s : string) : bool :=
  len_in 7 64 s && forallb (fun c => is_digit c || between 97 102 c) (chars s).

(** ** Requests *)

Record AgentEvent := mkEvent { ae_client_event_id : string; ae_type : string; ae_occurred_at : string; ae_payload : Json }.
Record AskIn := mkAskIn { as_key : string; as_title : string; as_prompt : string; as_schema : Json; as_timeout : Z; as_preview : option Json }.
Record ChatIn := mkChatIn {
  ch_profile : string; ch_messages : list (string * string); ch_temperature : option Json; ch_max_output : option Z;
  ch_schema : option Json; ch_tools : list Json; ch_key : option string
}.
Record SearchIn := mkSearchIn { se_kb : string; se_query : string; se_top_k : Z; se_max_context : option Z; se_filters : Json }.
Record ReviewComment := mkComment { rc_path : string; rc_line : Z; rc_body : string }.
Record ReviewIn := mkReviewIn { rv_repo : string; rv_commit : string; rv_body : string; rv_comments : list ReviewComment }.

(** The routes, with their parameters. *)
Inductive AgentRequest :=
| AHandshake (protocol agent_id : string)
| AHeartbeat
| AEvents (events : list AgentEvent)
| AResult (status : string) (result error : option Json)
| AAsk (body : AskIn)
| APollInput (request_id : uuid) (wait : Z)
| AClaim (key : string) (token : option string)
| AComplete (key : string) (result : Json)
| AChat (body : ChatIn) (stream : bool)
| ASearch (body : SearchIn)
| ADocuments (kb pattern : string) (limit : Z)
| AStart (agent_id start_key : string) (input : option Json)
| AGmailList (q : string) (page : option string) (max_results : Z) (labels : list string)
| AGmailGet (message_id : string)
| AListPulls (repo : string) (limit : Z)
| AListFiles (repo : string) (number : Z)
| AListReviews (repo : string) (number : Z)
| ACreateReview (number : Z) (body : ReviewIn)
| ASheetsGet (sheet range : string)
| ASheetsUpdate (sheet range : string) (values : list (list Json))
| ASheetsAppend (sheet range : string) (values : list (list Json))
| ACreateCall (body : CallIn)
| AGetCall (call_id : uuid).

(** The calls a route makes. *)
Inductive Downstream :=
| Control (method path : string) (body : Json)
| GatewayChat (payload : Json)
| KnowledgeQuery (method path : string) (body : Json)
| GmailList (q : string) (page : option string) (max_results : Z) (labels : list string)
| GmailGet (message_id : string)
| ListPulls (repo : string) (limit : Z)
| ListFiles (repo : string) (number : Z)
| ListReviews (repo : string) (number : Z)
| CreateReview (repo : string) (number : Z) (body : ReviewIn)
| SheetsRead (sheet range : string)
| SheetsUpdate (sheet range : string) (values : list (list Json))
| SheetsAppend (sheet range : string) (values : list (list Json))
| PlaceCall (a : CallArgs)
| ReadCall (run : string) (call_id : uuid).

Definition cell_ok (v : Json) : bool := match v with JList _ | JObj _ => false | _ => true end.
Definition values_ok (values : list (list Json)) : bool :=
  in_range 1 1000 (Z.of_nat (length values)) && forallb (forallb cell_ok) values.
Definition range_ok (r : string) : bool := len_in 1 200 r.
Definition opt_in (lo hi : Z) (o : option Z) : bool := match o with Some n => in_range lo hi n | None => true end.

Definition one_of_words (ws : list string) (s : string) : bool := existsb (String.eqb s) ws.

(** The constraints of the request models and parameters; lists of the wrong type, unknown keys
    and the like do not reach the typed request. *)
Definition body_ok (r : AgentRequest) : bool :=
  match r with
  | AEvents es => (Z.of_nat (length es) <=? 200) &&
      forallb (fun e => len_in 1 64 (ae_client_event_id e) &&
                        one_of_words ["run.log"; "run.progress"; "run.metric"; "run.artifact"]%string (ae_type e)) es
  | AResult status _ _ => one_of_words ["succeeded"; "failed"]%string status
  | AAsk b => len_in 1 128 (as_key b) && forallb key_char (chars (as_key b))
  | APollInput _ wait => in_range 0 30 wait
  | AClaim key _ | AComplete key _ => is_key key
  | AChat b _ =>
      negb (String.eqb (ch_profile b) "") && (1 <=? Z.of_nat (length (ch_messages b))) &&
      forallb (fun m => one_of_words ["system"; "user"; "assistant"]%string m.1) (ch_messages b) &&
      match ch_temperature b with Some (JNum t) => in_range 0 2 t | Some _ => false | None => true end &&
      match ch_max_output b with Some n => 1 <=? n | None => true end && match ch_tools b with [] => true | _ => false end
  | ASearch b => len_in 1 2000 (se_query b) && in_range 1 50 (se_top_k b) &&
                 match se_max_context b with Some n => 1 <=? n | None => true end
  | ADocuments kb pattern limit => (slen kb <=? 64) && len_in 1 200 pattern && in_range 1 200 limit
  | AStart agent key _ => is_agent_id agent && is_key key
  | AGmailList q page n labels => (slen q <=? 500) && match page with Some p => slen p <=? 200 | None => true end &&
                                  in_range 1 500 n && (Z.of_nat (length labels) <=? 20)
  | AGmailGet id => is_message_id id
  | AListPulls repo limit => is_repo repo && in_range 1 50 limit
  | AListFiles repo n | AListReviews repo n => (1 <=? n) && is_repo repo
  | ACreateReview n b =>
      (1 <=? n) && is_repo (rv_repo b) && is_commit (rv_commit b) && (slen (rv_body b) <=? 20000) &&
      (Z.of_nat (length (rv_comments b)) <=? 50) &&
      forallb (fun c => len_in 1 500 (rc_path c) && (1 <=? rc_line c) && len_in 1 5000 (rc_body c)) (rv_comments b)
  | ASheetsGet _ range => range_ok range
  | ASheetsUpdate _ range values | ASheetsAppend _ range values => range_ok range && values_ok values
  | ACreateCall b => in_range 1 500 (Z.of_nat (length (ci_disclosure b))) && in_range 1 1500 (Z.of_nat (length (ci_text b))) &&
                     in_range 1 60 (ci_timeout_seconds b) && is_key (ci_idempotency_key b)
  | AHandshake _ _ | AHeartbeat | AGetCall _ => true
  end.

(** ** Routes *)

Section routes.
Context {J : Jwt}.

Abbreviation RM := (Result PlatformError).

Definition attempt_body (g : Grant) (fields : list (string * Json)) : Json :=
  JObj (("attempt"%string, JNum (cl_attempt (gr_claims g))) :: fields).

Definition run_path (g : Grant) (suffix : string) : string := "/runs/" +:+ cl_run_id (gr_claims g) +:+ "/" +:+ suffix.

(** [profile.split(".", 1)[0]] *)
Definition profile_provider (profile : string) : string := unchars (default [] (head (split_at "." (chars profile)))).
Definition CLOUD : list string := ["openai"; "anthropic"]%string.

Definition require_llm (g : Grant) (profile : string) : RM unit :=
  let provider := profile_provider profile in
  _ ← (if one_of_words CLOUD provider then require g ("cloud." +:+ provider) false else Ok tt);
  let granted := List.find (String.prefix "llm.profile:") (py_sorted (gr_capabilities g)) in
  require g (default "llm.profile:<variant>"%string granted) false.

(** [_within] *)
Definition within (g : Grant) (key requested : string) : RM unit :=
  conf ← configured g key None;
  match parse (chars conf) with
  | None => Err (mkError "NEEDS_CONFIGURATION" 409 [("key"%string, JStr key)])
  | Some allowed =>
      match parse (chars requested) with
      | None => Err (invalid "INVALID_REQUEST" [])
      | Some area => if contains allowed area then Ok tt else Err (permission_denied [("key"%string, JStr key)])
      end
  end.

Definition event_json (e : AgentEvent) : Json :=
  JObj [("clientEventId", JStr (ae_client_event_id e)); ("type", JStr (ae_type e)); ("occurredAt", JStr (ae_occurred_at e));
        ("payload", ae_payload e)]%string.

(** [_chat_request]'s payload: [model_dump(by_alias=True, exclude_none=True)] and the mode. *)
Definition chat_payload (b : ChatIn) (stream : bool) : Json :=
  let opt {A} (k : string) (f : A -> Json) (o : option A) := match o with Some v => [(k, f v)] | None => [] end in
  JObj ([("profile"%string, JStr (ch_profile b));
         ("messages"%string, JList (map (fun m => JObj [("role", JStr m.1); ("content", JStr m.2)]%string) (ch_messages b)))]
        ++ opt "temperature"%string (fun v => v) (ch_temperature b) ++ opt "maxOutputTokens"%string JNum (ch_max_output b)
        ++ opt "responseSchema"%string (fun v => v) (ch_schema b) ++ [("tools"%string, JList (ch_tools b))]
        ++ opt "idempotencyKey"%string JStr (ch_key b) ++ [("stream"%string, JBool stream)]).

Definition search_body (b : SearchIn) : Json :=
  JObj ([("query", JStr (se_query b)); ("topK", JNum (se_top_k b)); ("filters", se_filters b)]%string
        ++ match se_max_context b with
           | Some n => [("maxContextTokens"%string, JNum (Z.max 100 (Z.min 20000 n)))]
           | None => []
           end).

Definition oj (o : option Json) : Json := default JNull o.

Definition PROTOCOL : string := "v1alpha1".

Definition agent_handshake (g : Grant) (protocol : string) : RM Downstream :=
  if String.eqb protocol PROTOCOL then Ok (Control "POST" (run_path g "handshake") (attempt_body g []))
  else Err (mkError "PROTOCOL_UNSUPPORTED" 409 [("supported"%string, JList [JStr PROTOCOL])]).

Definition agent_heartbeat (g : Grant) : RM Downstream := Ok (Control "POST" (run_path g "heartbeat") (attempt_body g [])).

Definition agent_events (g : Grant) (es : list AgentEvent) : RM Downstream :=
  _ ← require g "events.write" true;
  Ok (Control "POST" (run_path g "event-batches") (attempt_body g [("events"%string, JList (map event_json es))])).

Definition agent_result (g : Grant) (status : string) (result error : option Json) : RM Downstream :=
  Ok (Control "POST" (run_path g "result")
        (attempt_body g [("status", JStr status); ("result", oj result); ("error", oj error)]%string)).

Definition agent_ask (g : Grant) (b : AskIn) : RM Downstream :=
  _ ← require g "user_input" false;
  Ok (Control "POST" (run_path g "input-requests")
        (attempt_body g [("key", JStr (as_key b)); ("title", JStr (as_title b)); ("prompt", JStr (as_prompt b));
                         ("schema", as_schema b); ("timeoutSeconds", JNum (as_timeout b)); ("preview", oj (as_preview b))]%string)).

Definition poll_input (g : Grant) (id : uuid) (wait : Z) : RM Downstream :=
  _ ← require g "user_input" false;
  Ok (Control "GET" ("/input-requests/" +:+ uuid_str id) (JObj [("wait"%string, JNum wait)])).

Definition agent_claim (g : Grant) (key : string) (token : option string) : RM Downstream :=
  _ ← require g "idempotency" true;
  match token with
  | Some t => if is_claim_token t
              then Ok (Control "POST" (run_path g ("actions/" +:+ key +:+ "/claim")) (attempt_body g [("claimToken"%string, JStr t)]))
              else Err (mkError "INVALID_REQUEST" 422 [])
  | None => Ok (Control "POST" (run_path g ("actions/" +:+ key +:+ "/claim")) (attempt_body g []))
  end.

Definition agent_complete (g : Grant) (key : string) (result : Json) : RM Downstream :=
  _ ← require g "idempotency" true;
  Ok (Control "POST" (run_path g ("actions/" +:+ key +:+ "/complete")) (attempt_body g [("result"%string, result)])).

(** [llm_chat] and [llm_chat_stream] *)
Definition llm_chat (g : Grant) (b : ChatIn) (stream : bool) : RM Downstream :=
  _ ← require_llm g (ch_profile b); Ok (GatewayChat (chat_payload b stream)).

Definition knowledge_search (g : Grant) (b : SearchIn) : RM Downstream :=
  _ ← require g "knowledge.search:config" false;
  kb ← configured g "knowledgeBaseId" (Some (se_kb b));
  Ok (KnowledgeQuery "POST" ("/knowledge-bases/" +:+ kb +:+ "/query") (search_body b)).

Definition knowledge_documents (g : Grant) (kb : string) : RM Downstream :=
  _ ← require g "knowledge.search:config" false;
  kb ← configured g "knowledgeBaseId" (Some kb);
  Ok (KnowledgeQuery "GET" ("/knowledge-bases/" +:+ kb +:+ "/documents") JNull).

Definition agents_start (g : Grant) (agent key : string) (input : option Json) : RM Downstream :=
  _ ← require g ("agents.start:" +:+ agent) false;
  Ok (Control "POST" (run_path g "agent-runs")
        (attempt_body g [("agentId", JStr agent); ("startKey", JStr key); ("input", oj input)]%string)).

Definition gmail_list (g : Grant) (q : string) (page : option string) (n : Z) (labels : list string) : RM Downstream :=
  _ ← require g "google.gmail.readonly" false; Ok (GmailList q page n labels).
Definition gmail_get (g : Grant) (id : string) : RM Downstream :=
  _ ← require g "google.gmail.readonly" false; Ok (GmailGet id).

Definition github_list_pulls (g : Grant) (repo : string) (limit : Z) : RM Downstream :=
  _ ← require g "github.pull_requests.read" false; repo ← configured g "repo" (Some repo); Ok (ListPulls repo limit).
Definition github_list_files (g : Grant) (repo : string) (n : Z) : RM Downstream :=
  _ ← require g "github.pull_requests.read" false; repo ← configured g "repo" (Some repo); Ok (ListFiles repo n).
Definition github_list_reviews (g : Grant) (repo : string) (n : Z) : RM Downstream :=
  _ ← require g "github.pull_requests.read" false; repo ← configured g "repo" (Some repo); Ok (ListReviews repo n).
Definition github_create_review (g : Grant) (n : Z) (b : ReviewIn) : RM Downstream :=
  _ ← require g "github.pull_requests.write" false;
  repo ← configured g "repo" (Some (rv_repo b)); Ok (CreateReview repo n b).

Definition sheets_get (g : Grant) (sheet range : string) : RM Downstream :=
  _ ← require g "google.spreadsheets" false;
  sheet ← configured g "spreadsheetId" (Some sheet); _ ← within g "inputRange" range; Ok (SheetsRead sheet range).
Definition sheets_update (g : Grant) (sheet range : string) (values : list (list Json)) : RM Downstream :=
  _ ← require g "google.spreadsheets" false;
  sheet ← configured g "spreadsheetId" (Some sheet); _ ← within g "resultRange" range; Ok (SheetsUpdate sheet range values).
Definition sheets_append (g : Grant) (sheet range : string) (values : list (list Json)) : RM Downstream :=
  _ ← require g "google.spreadsheets" false;
  sheet ← configured g "spreadsheetId" (Some sheet); _ ← within g "resultRange" range; Ok (SheetsAppend sheet range values).

Definition agent_create_call (run : uuid) (g : Grant) (b : CallIn) : RM Downstream := a ← call_request g run b; Ok (PlaceCall a).
Definition agent_get_call (g : Grant) (id : uuid) : RM Downstream :=
  _ ← require g "twilio.call.fixed_script" false; Ok (ReadCall (cl_run_id (gr_claims g)) id).

(** The router; [run] is [grant.run_id]. *)
Definition route (run : uuid) (g : Grant) (r : AgentRequest) : RM Downstream :=
  match r with
  | AHandshake protocol _ => agent_handshake g protocol
  | AHeartbeat => agent_heartbeat g
  | AEvents es => agent_events g es
  | AResult status result error => agent_result g status result error
  | AAsk b => agent_ask g b
  | APollInput id wait => poll_input g id wait
  | AClaim key token => agent_claim g key token
  | AComplete key result => agent_complete g key result
  | AChat b stream => llm_chat g b stream
  | ASearch b => knowledge_search g b
  | ADocuments kb _ _ => knowledge_documents g kb
  | AStart agent key input => agents_start g agent key input
  | AGmailList q page n labels => gmail_list g q page n labels
  | AGmailGet id => gmail_get g id
  | AListPulls repo limit => github_list_pulls g repo limit
  | AListFiles repo n => github_list_files g repo n
  | AListReviews repo n => github_list_reviews g repo n
  | ACreateReview n b => github_create_review g n b
  | ASheetsGet sheet range => sheets_get g sheet range
  | ASheetsUpdate sheet range values => sheets_update g sheet range values
  | ASheetsAppend sheet range values => sheets_append g sheet range values
  | ACreateCall b => agent_create_call run g b
  | AGetCall id => agent_get_call g id
  end.

(** [heartbeat] and [result] depend on [finished_run_grant], every other route on [agent_grant]. *)
Definition allows_finished (r : AgentRequest) : bool := match r with AHeartbeat | AResult _ _ _ => true | _ => false end.

(** A request with its bearer token. *)
Definition serve (signing_key : string) (now : instant) (get_run : string -> Result PlatformError Json) (run : uuid) (token : Token)
    (r : AgentRequest) : RM Downstream :=
  g ← authorize token signing_key now get_run (allows_finished r);
  if body_ok r then route run g r else Err (mkError "INVALID_REQUEST" 422 []).

(** [poll_input]'s reply. *)
Definition poll_reply (g : Grant) (found : Json) : RM Json :=
  if is_str (cl_run_id (gr_claims g)) (jget "runId" found) then Ok found else Err (mkError "NOT_FOUND" 404 []).
End routes.

(** ** Confinement *)

Section confinement.
Context {J : Jwt} {JL : JwtLaws J}.

Section run.
Context (rid : uuid) (run : AgentRun) (g : Grant).

Definition may (cap : string) : Prop := cap ∈ gr_capabilities g /\ run_cancel_requested_at run = None.
Definition owner_chose (key value : string) : Prop := jget key (run_config_snapshot run) = Some (JStr value).

(** Every cell of the range is in the range the owner configured, on the same tab. *)
Definition inside (key range : string) : Prop :=
  exists conf a b, owner_chose key conf /\ parse (chars conf) = Some a /\ parse (chars range) = Some b /\
    casefold (tab a) = casefold (tab b) /\ forall c r, in_area b c r -> in_area a c r.

(** What the owner has to have allowed for a call behind the broker. *)
Definition confined (x : Downstream) : Prop :=
  match x with
  | Control _ path body =>
      (exists suffix, path = ("/runs/" +:+ uuid_str rid +:+ "/" +:+ suffix)%string /\
         jget "attempt" body = Some (JNum (run_current_attempt run)) /\
         (suffix = "agent-runs"%string -> exists agent, jget "agentId" body = Some (JStr agent) /\ may ("agents.start:" +:+ agent))) \/
      (exists id, path = ("/input-requests/" +:+ uuid_str id)%string /\ may "user_input")
  | GatewayChat payload =>
      (exists cap, String.prefix "llm.profile:" cap = true /\ may cap) /\
      forall profile, jget "profile" payload = Some (JStr profile) -> profile_provider profile ∈ CLOUD ->
        may ("cloud." +:+ profile_provider profile)
  | KnowledgeQuery _ path _ =>
      may "knowledge.search:config" /\ exists kb rest, owner_chose "knowledgeBaseId" kb /\ path = ("/knowledge-bases/" +:+ kb +:+ rest)%string
  | GmailList _ _ _ _ | GmailGet _ => may "google.gmail.readonly"
  | ListPulls repo _ | ListFiles repo _ | ListReviews repo _ => may "github.pull_requests.read" /\ owner_chose "repo" repo
  | CreateReview repo _ _ => may "github.pull_requests.write" /\ owner_chose "repo" repo
  | SheetsRead sheet range => may "google.spreadsheets" /\ owner_chose "spreadsheetId" sheet /\ inside "inputRange" range
  | SheetsUpdate sheet range _ | SheetsAppend sheet range _ =>
      may "google.spreadsheets" /\ owner_chose "spreadsheetId" sheet /\ inside "resultRange" range
  | PlaceCall a =>
      may "twilio.call.fixed_script" /\ ca_run_id a = rid /\ ca_disclosure a = disclosure_of (run_config_snapshot run) /\
      exists template, owner_chose "script" template /\ approved_script (chars template) (ca_script a) = true
  | ReadCall r _ => may "twilio.call.fixed_script" /\ r = uuid_str rid
  end.
End run.

Section granted.
Context (rid : uuid) (rr : RunRows) (ver : AgentVersion) (g : Grant) (Hview : gr_run g = internal_run_view rr ver).
Context (Hsub : uuid_str rid = cl_run_id (gr_claims g)) (Hatt : run_current_attempt (rr_run rr) = cl_attempt (gr_claims g)).

Lemma jget_nil k : jget k (JObj []) = None.
Proof. done. Qed.

Lemma config_jget key v :
  jget key (get_dict_or "config" (gr_run g)) = v -> jget key (run_config_snapshot (rr_run rr)) = v \/ v = None.
Proof.
  rewrite Hview. unfold get_dict_or. cbn [jget internal_run_view assoc]. simpl.
  destruct (truthy _); [by left|]. rewrite jget_nil. by right.
Qed.

Lemma require_ok cap baseline u : require g cap baseline = Ok u ->
  cap ∈ gr_capabilities g /\ (baseline = false -> run_cancel_requested_at (rr_run rr) = None).
Proof.
  unfold require. destruct (bool_decide (cap ∈ _)) eqn:Hc; [|done]. apply bool_decide_eq_true in Hc. simpl.
  rewrite Hview. simpl. destruct baseline; [done|]. simpl. destruct (bool_decide (is_Some _)) eqn:E; [done|].
  intros _. split; [done|]. intros _. apply bool_decide_eq_false in E. destruct (run_cancel_requested_at _); [|done]. by destruct E.
Qed.

Lemma require_may cap u : require g cap false = Ok u -> may (rr_run rr) g cap.
Proof. intros H. destruct (require_ok _ _ _ H). by split; [|auto]. Qed.

Lemma configured_ok key req v : configured g key req = Ok v -> owner_chose (rr_run rr) key v.
Proof.
  unfold configured. destruct (jget key _) as [[| | |s| |]|] eqn:E; try done. apply config_jget in E as [E|?]; [|done].
  unfold owner_chose. rewrite E. destruct (String.eqb s ""); [done|]. destruct req; [|congruence].
  destruct (String.eqb _ s); congruence.
Qed.

Lemma within_ok key range u : within g key range = Ok u -> inside (rr_run rr) key range.
Proof.
  unfold within. destruct (configured g key None) as [conf|] eqn:E; [|done]. simpl. apply configured_ok in E.
  destruct (parse (chars conf)) as [a|] eqn:Ha; [|done]. destruct (parse (chars range)) as [b|] eqn:Hb; [|done].
  destruct (contains a b) eqn:Hc; [|done]. intros _. exists conf, a, b. by apply (contains_cells _ _ a b Ha Hb) in Hc as [? ?].
Qed.

Lemma require_llm_ok profile u : require_llm g profile = Ok u ->
  (exists cap, String.prefix "llm.profile:" cap = true /\ may (rr_run rr) g cap) /\
  (profile_provider profile ∈ CLOUD -> may (rr_run rr) g ("cloud." +:+ profile_provider profile)).
Proof.
  unfold require_llm. intros H. split; cycle 1.
  { intros Hp. assert (Hw : one_of_words CLOUD (profile_provider profile) = true).
    { apply existsb_exists. exists (profile_provider profile). split; [by apply list_elem_of_In|apply String.eqb_refl]. }
    rewrite Hw in H. destruct (require g ("cloud." +:+ profile_provider profile) false) as [v|] eqn:E; [|done]. by apply require_may in E. }
  assert (Hr : exists u, require g (default "llm.profile:<variant>"%string
                 (List.find (String.prefix "llm.profile:") (py_sorted (gr_capabilities g)))) false = Ok u).
  { destruct (if one_of_words _ _ then _ else _) in H; [|done]. simpl in H. eauto. }
  destruct Hr as [u' Hr]. apply require_may in Hr. eexists. split; [|exact Hr].
  destruct (List.find _ _) as [c|] eqn:E; [|done]. apply find_some in E as [_ E]. exact E.
Qed.

Lemma disclosure_config : disclosure_of (get_dict_or "config" (gr_run g)) = disclosure_of (run_config_snapshot (rr_run rr)).
Proof.
  unfold disclosure_of. rewrite Hview. unfold get_dict_or. cbn [internal_run_view jget assoc]. simpl.
  destruct (truthy (run_config_snapshot _)) eqn:E; [done|]. by destruct (run_config_snapshot _) as [| | | | |[|]].
Qed.

Lemma call_request_ok body a :
  call_request g rid body = Ok a -> confined rid (rr_run rr) g (PlaceCall a).
Proof.
  intros H. pose proof (call_request_spec (fun _ => get_dict_or "config" (gr_run g)) g rid body a H eq_refl) as (Hrun & _ & Hd & t & Ht & Ha).
  rewrite disclosure_config in Hd. apply config_jget in Ht as [Ht|?]; [|done].
  split; [|split; [done|split; [done|by exists t]]].
  unfold call_request in H. destruct (require _ _ _) as [u|] eqn:Hr; [|done]. by eapply require_may.
Qed.

Lemma run_path_confined suffix fields :
  suffix <> "agent-runs"%string -> confined rid (rr_run rr) g (Control "POST" (run_path g suffix) (attempt_body g fields)).
Proof. intros Hne. left. exists suffix. unfold run_path. rewrite Hsub, Hatt. done. Qed.

Lemma key_path_ne key rest : ("actions/" +:+ key +:+ rest)%string <> "agent-runs"%string.
Proof. done. Qed.

Lemma route_confined r x : route rid g r = Ok x -> confined rid (rr_run rr) g x.
Proof.
  destruct r; cbn [route]; unfold agent_handshake, agent_heartbeat, agent_events, agent_result, agent_ask, poll_input, agent_claim,
    agent_complete, llm_chat, knowledge_search, knowledge_documents, agents_start, gmail_list, gmail_get, github_list_pulls,
    github_list_files, github_list_reviews, github_create_review, sheets_get, sheets_update, sheets_append, agent_create_call,
    agent_get_call; simpl; intros H;
    repeat match type of H with
    | context [require g ?c ?b] => let E := fresh "Hreq" in destruct (require g c b) eqn:E; simpl in H; [|done]
    | context [require_llm g ?p] => let E := fresh "Hreq" in destruct (require_llm g p) eqn:E; simpl in H; [|done]
    | context [configured g ?k ?q] => let E := fresh "Hconf" in destruct (configured g k q) eqn:E; simpl in H; [|done]
    | context [within g ?k ?q] => let E := fresh "Hin" in destruct (within g k q) eqn:E; simpl in H; [|done]
    | context [call_request g rid ?b] => let E := fresh "Hcall" in destruct (call_request g rid b) eqn:E; simpl in H; [|done]
    | (if ?b then _ else _) = Ok _ => destruct b; [|done]
    | match ?o with Some _ => _ | None => _ end = Ok _ => destruct o
    end; injection H as <-;
    try (by apply run_path_confined); try (by apply call_request_ok in Hcall);
    repeat match goal with
    | E : require g _ false = Ok _ |- _ => apply require_may in E
    | E : require_llm g _ = Ok _ |- _ => apply require_llm_ok in E
    | E : configured g _ _ = Ok _ |- _ => apply configured_ok in E
    | E : within g _ _ = Ok _ |- _ => apply within_ok in E
    end; try done.
  all: try (split; [done|]; eauto).
  - right. eauto.
  - destruct Hreq as [Hl Hc]. split; [done|]. intros p [= <-]. exact Hc.
  - left. exists "agent-runs"%string. unfold run_path. rewrite Hsub, Hatt. split; [done|]. split; [done|]. eauto.
Qed.
End granted.

End confinement.
