(* ===== verification/Google.v ===== *)
(** * The Google connector of the broker ([broker/google.py])

    Consent with its single-use states and browser bindings, the one connection with its encrypted
    refresh token, access tokens that live in memory and are refreshed by one request at a time, and
    the Gmail and Sheets requests.  The tasks of the process are interleaved at their awaits; Google
    and the browser are represented by what they send.  A body that is not a JSON object is the empty
    object, as [_json] reads it, and of [expires_in] as text only integers are read. *)

From S2P Require Import Prelude Json Redaction PyValue JsonText Platform Capability Telephony BrokerApi SecretStore Pagination Inference.
From Stdlib Require Import Ascii.
#[local] Open Scope Z_scope.

Definition SCOPES : list (string * string) :=
  [("gmail.readonly", "https://www.googleapis.com/auth/gmail.readonly");
   ("spreadsheets", "https://www.googleapis.com/auth/spreadsheets")]%string.
Definition AUTH_URL : string := "https://accounts.google.com/o/oauth2/v2/auth".
Definition GMAIL_URL : string := "https://gmail.googleapis.com/gmail/v1/users/me".
Definition SHEETS_URL : string := "https://sheets.googleapis.com/v4/spreadsheets".
Definition STATE_TTL_SECONDS : Z := 600.
Definition EXPIRY_MARGIN_SECONDS : Z := 60.
Definition RECONNECT : string := "Google access expired or was revoked. Reconnect Google in Connections.".

(** [_Pending] *)
Record Pending := mkPending {
  pn_user : uuid;
  pn_verifier : string;
  pn_binding : string;
  pn_expires : instant
}.

Record OAuthConnection := mkConnection {
  gc_user : uuid;
  gc_subject : option string;
  gc_scopes : list string;
  gc_secret : option uuid;
  gc_status : string;
  gc_detail : option string;
  gc_checked : option instant
}.
#[export] Instance eta_OAuthConnection : Eta OAuthConnection := fun c =>
  mkConnection (gc_user c) (gc_subject c) (gc_scopes c) (gc_secret c) (gc_status c) (gc_detail c) (gc_checked c).

Abbreviation Connections := (gmap uuid OAuthConnection) (only parsing).
Abbreviation AccessCache := (gmap uuid (string * instant)) (only parsing).

(** The connector: its memory, the monotonic clock, and the tables. *)
Record Connector := mkConnector {
  cn_pending : gmap string Pending;
  cn_access : AccessCache;
  cn_locks : gset uuid;            (* the refresh locks that are held *)
  cn_now : instant;
  cn_connections : Connections;
  cn_secrets : Secrets;
  cn_audit : list AuditEvent
}.
#[export] Instance eta_Connector : Eta Connector := fun g =>
  mkConnector (cn_pending g) (cn_access g) (cn_locks g) (cn_now g) (cn_connections g) (cn_secrets g) (cn_audit g).

Record GoogleSettings := mkGoogleSettings { gs_fake : bool; gs_client_id : string; gs_redirect_uri : string }.

(** ** What Google answers *)

Abbreviation Body := (list (string * Json)) (only parsing).
Inductive HttpReply := Unreachable | Response (status : Z) (body : Body).

Definition provider_unavailable : PlatformError := mkError "PROVIDER_UNAVAILABLE" 503 [].
Definition provider_error (status : Z) : PlatformError :=
  if status =? 429 then mkError "RATE_LIMITED" 429 [] else mkError "PROVIDER_ERROR" 502 [("providerStatus", JNum status)]%string.

Inductive TokenOutcome := Granted (token : Body) | InvalidGrant | TokenError (e : PlatformError).

(** [_token_request], after the request *)
Definition token_outcome (r : HttpReply) : TokenOutcome :=
  match r with
  | Unreachable => TokenError provider_unavailable
  | Response status body =>
      if (status =? 400) && match assoc "error" body with Some (JStr e) => String.eqb e "invalid_grant" | _ => false end then InvalidGrant
      else if 400 <=? status then TokenError (provider_error status)
      else Granted body
  end.

Inductive ApiOutcome := Answer (body : Body) | Expired | ApiError (e : PlatformError).

(** [_api], after the request; [name] is the end of the URL. *)
Definition api_outcome (name : string) (r : HttpReply) : ApiOutcome :=
  match r with
  | Unreachable => ApiError provider_unavailable
  | Response status body =>
      if status =? 401 then Expired
      else if status =? 404 then ApiError (not_found name)
      else if status =? 403 then ApiError (permission_denied [])
      else if 400 <=? status then ApiError (provider_error status)
      else Answer body
  end.

Definition access_value (token : Body) (code : string) (status : Z) : Result PlatformError string :=
  match assoc "access_token" token with
  | Some (JStr a) => if String.eqb a "" then Err (mkError code status []) else Ok a
  | _ => Err (mkError code status [])
  end.

(** [float(token.get("expires_in", 0))] in microseconds; [None] raises. *)
Definition expires_in (token : Body) : option Z :=
  seconds <$> match assoc "expires_in" token with
              | None => Some 0
              | Some (JNum z) => Some z
              | Some (JBool b) => Some (if b then 1 else 0)
              | Some (JStr s) => int_text (chars s)
              | Some _ => None
              end.

(** [text.split()] *)
Fixpoint words (t : text) : list text :=
  match t with
  | [] => []
  | c :: t' =>
      if is_space c then words t'
      else match t' with
           | [] => [[c]]
           | d :: _ => if is_space d then [c] :: words t' else match words t' with w :: ws => (c :: w) :: ws | [] => [[c]] end
           end
  end.

(** The names of the scopes of a token, sorted. *)
Definition granted_scopes (token : Body) : list string :=
  let ws := match assoc "scope" token with Some (JStr s) => words (chars s) | _ => [] end in
  map fst (List.filter (fun nu => existsb (fun w => bool_decide (w = chars nu.2)) ws) SCOPES).

(** ** The requests *)

(** [quote(text, safe="")] *)
Definition hex_upper (n : N) : ascii := ascii_of_N (if (n <? 10)%N then 48 + n else 55 + n).
Definition unreserved (c : ascii) : bool := is_letter c || is_digit c || one_of "_.-~" c.
Fixpoint quote (t : text) : text :=
  match t with
  | [] => []
  | c :: t' =>
      if unreserved c then c :: quote t'
      else "%"%char :: hex_upper (N_of_ascii c / 16) :: hex_upper (N_of_ascii c mod 16) :: quote t'
  end.
Definition quoted (s : string) : string := unchars (quote (chars s)).

Record Request := mkRequest {
  hr_scope : string;
  hr_method : string;
  hr_url : string;
  hr_params : list (string * Json);
  hr_json : option Json
}.

Definition values_url (sheet range : string) : string := SHEETS_URL +:+ "/" +:+ quoted sheet +:+ "/values/" +:+ quoted range.
Definition rows_json (values : list (list Json)) : Json := JObj [("values", JList (map JList values))]%string.

(** [gmail_list], [gmail_get], [sheets_read], [sheets_append] and [sheets_update]: the request each makes. *)
Definition google_request (op : Downstream) : option Request :=
  match op with
  | GmailList q page n labels =>
      Some (mkRequest "gmail.readonly" "GET" (GMAIL_URL +:+ "/messages")
        (("q", JStr q) :: ("maxResults", JNum n)
         :: match page with Some p => if String.eqb p "" then [] else [("pageToken", JStr p)] | None => [] end
         ++ match labels with [] => [] | _ => [("labelIds", JList (map JStr labels))] end)%string None)
  | GmailGet id => Some (mkRequest "gmail.readonly" "GET" (GMAIL_URL +:+ "/messages/" +:+ quoted id) [("format", JStr "full")]%string None)
  | SheetsRead sheet range => Some (mkRequest "spreadsheets" "GET" (values_url sheet range) [] None)
  | SheetsAppend sheet range values =>
      Some (mkRequest "spreadsheets" "POST" (values_url sheet range +:+ ":append")
        [("valueInputOption", JStr "RAW"); ("insertDataOption", JStr "INSERT_ROWS")]%string (Some (rows_json values)))
  | SheetsUpdate sheet range values =>
      Some (mkRequest "spreadsheets" "PUT" (values_url sheet range) [("valueInputOption", JStr "RAW")]%string (Some (rows_json values)))
  | _ => None
  end.

Definition get_or_null (k : string) (o : Body) : Json := default JNull (assoc k o).

(** [int(data.get(k) or 0)] and [data.get(k) or []], iterated *)
Definition int_or_zero (v : option Json) : Result PlatformError Z := int_value (or_default v (JNum 0)).
Definition message_ref (m : Json) : Result PlatformError Json :=
  match m with
  | JObj o => Ok (JObj [("id", get_or_null "id" o); ("threadId", get_or_null "threadId" o)])%string
  | _ => Err UNEXPECTED
  end.

(** What the operation returns of the body. *)
Definition reply_body (op : Downstream) (data : Body) : Result PlatformError Json :=
  match op with
  | GmailList _ _ _ _ =>
      items ← list_value (or_default (assoc "messages" data) (JList []));
      messages ← mapM (M := Result PlatformError) message_ref items;
      size ← int_or_zero (assoc "resultSizeEstimate" data);
      Ok (JObj (("messages", JList messages) :: ("resultSizeEstimate", JNum size)
                :: match assoc "nextPageToken" data with Some t => if truthy t then [("nextPageToken", t)] else [] | None => [] end)%string)
  | SheetsRead _ _ => Ok (JObj [("range", get_or_null "range" data); ("values", or_default (assoc "values" data) (JList []))])%string
  | SheetsAppend _ _ _ =>
      match or_default (assoc "updates" data) (JObj []) with
      | JObj u => Ok (JObj [("updatedRange", get_or_null "updatedRange" u); ("updatedRows", get_or_null "updatedRows" u)])%string
      | _ => Err UNEXPECTED
      end
  | SheetsUpdate _ _ _ => Ok (JObj [("updatedRange", get_or_null "updatedRange" data); ("updatedRows", get_or_null "updatedRows" data)])%string
  | _ => Ok (JObj data)
  end.

(** ** Connecting *)

Section google.
Context {A : Aead} {D : Digest} (st : GoogleSettings) (challenge : string -> string) (keyring : Keyring).

Definition in_capabilities (caps : list string) (c : string) : bool := existsb (String.eqb c) caps.

(** [start]; the three draws are random.  The answer is the address to open and the binding; in fake
    mode the address is the callback itself. *)
Definition start (user : uuid) (caps : list string) (state verifier binding : string) (g : Connector)
    : Result PlatformError ((string * list (string * string) * string) * Connector) :=
  if bool_decide (caps = []) || negb (forallb (fun c => bool_decide (is_Some (assoc c SCOPES))) caps) then Err (invalid "INVALID_SCOPE" [])
  else if String.eqb (gs_client_id st) "" then Err (mkError "NOT_CONFIGURED" 409 [])
  else
    let now := cn_now g in
    let live := filter (fun kp => now < pn_expires kp.2) (cn_pending g) in
    let p := mkPending user verifier (sha256_hex binding) (now + seconds STATE_TTL_SECONDS) in
    let g := g <| cn_pending := <[sha256_hex state := p]> live |> in
    let asked := List.filter (fun nu => in_capabilities caps nu.1) SCOPES in
    if gs_fake st then
      Ok ((gs_redirect_uri st, [("state", state); ("code", "fake-code:" +:+ join "," (map fst asked))]%string, binding), g)
    else
      Ok ((AUTH_URL,
           [("client_id", gs_client_id st); ("redirect_uri", gs_redirect_uri st); ("response_type", "code");
            ("scope", join " " (map snd asked)); ("access_type", "offline"); ("include_granted_scopes", "true");
            ("prompt", "consent"); ("state", state); ("code_challenge", challenge verifier); ("code_challenge_method", "S256")]%string,
           binding), g).

Definition state_invalid : PlatformError := mkError "OAUTH_STATE_INVALID" 400 [].

(** [callback] up to the exchange of the code: the state is consumed even on failure. *)
Definition callback_begin (state : string) (code error binding : option string) (g : Connector)
    : Result PlatformError (Pending * string) * Connector :=
  let key := sha256_hex state in
  let g' := g <| cn_pending ::= delete key |> in
  (match cn_pending g !! key with
   | None => Err state_invalid
   | Some p =>
       if pn_expires p <=? cn_now g then Err state_invalid
       else
         match binding with
         | None => Err state_invalid
         | Some b =>
             if negb (String.eqb (sha256_hex b) (pn_binding p)) then Err state_invalid
             else
               let given := match error with Some e => negb (String.eqb e "") | None => false end in
               match code with
               | Some c => if given || String.eqb c "" then Err (mkError "OAUTH_DENIED" 400 []) else Ok (p, c)
               | None => Err (mkError "OAUTH_DENIED" 400 [])
               end
         end
   end, g').

(** What an exchange granted. *)
Record Grants := mkGrants {
  gr_scopes : list string;
  gr_refresh : string;
  gr_access : string;
  gr_expires : option Z
}.

(** [callback] after the exchange *)
Definition exchanged (r : HttpReply) : Result PlatformError Grants :=
  match token_outcome r with
  | TokenError e => Err e
  | InvalidGrant => Err (mkError "OAUTH_CODE_INVALID" 400 [])
  | Granted token =>
      match granted_scopes token, assoc "refresh_token" token with
      | (_ :: _) as granted, Some (JStr refresh) =>
          access ← access_value token "OAUTH_TOKEN_INVALID" 400;
          Ok (mkGrants granted refresh access (expires_in token))
      | _, _ => Err (mkError "OAUTH_SCOPE_MISSING" 400 [])
      end
  end.

Definition wants_profile (t : Grants) : bool := existsb (String.eqb "gmail.readonly") (gr_scopes t).

(** The account, which must be text to fit its column. *)
Definition subject_of (r : HttpReply) : Result PlatformError (option string) :=
  match api_outcome "profile" r with
  | Answer body =>
      match assoc "emailAddress" body with
      | None | Some JNull => Ok None
      | Some (JStr s) => Ok (Some s)
      | Some _ => Err UNEXPECTED
      end
  | Expired => Err (mkError "OAUTH_TOKEN_INVALID" 400 [])
  | ApiError e => Err e
  end.

(** [_connection] *)
Definition connection (g : Connector) : option (uuid * OAuthConnection) := head (map_to_list (cn_connections g)).

Definition without_secret (sid : uuid) (d : Secrets) : Secrets := match delete_secret sid d with Ok (_, d') => d' | Err _ => d end.

(** [_delete] *)
Definition delete_connection (id : uuid) (c : OAuthConnection) (g : Connector) : Connector :=
  g <| cn_access ::= delete id |> <| cn_connections ::= delete id |>
    <| cn_secrets ::= fun d => match gc_secret c with Some sid => without_secret sid d | None => d end |>.

Definition audited (action actor_type : string) (actor : string) (id : uuid) (outcome : string) (metadata : Json) (g : Connector) : Connector :=
  g <| cn_audit ::= fun l => l ++
    [mkAudit actor_type (Some actor) action (Some "oauth_connection"%string) (Some (uuid_str id)) outcome (redact metadata)] |>.

(** The transaction that connects; the access tokens of replaced connections are dropped even when it
    fails.  Its access token is remembered after the commit, where [float] can still raise. *)
Definition forget_access (g : Connector) : Connector := g <| cn_access ::= filter (fun ia => cn_connections g !! ia.1 = None) |>.
Definition connect (p : Pending) (t : Grants) (subject : option string) (id : uuid) (r : Random) (utc : instant) (g : Connector)
    : Result PlatformError Connector :=
  let g := foldr (fun ic g => delete_connection ic.1 ic.2 g) g (map_to_list (cn_connections g)) in
  match store keyring r "google" "oauth_connection" id (chars (gr_refresh t)) (cn_secrets g) with
  | Err _ => Err UNEXPECTED
  | Ok (s, secrets) =>
      let c := mkConnection (pn_user p) subject (gr_scopes t) (Some (es_id s)) "CONNECTED" None (Some utc) in
      Ok (audited "connection.google.connected" "user" (uuid_str (pn_user p)) id "success" (JObj [("scopes", JList (map JStr (gr_scopes t)))]%string)
            (g <| cn_secrets := secrets |> <| cn_connections ::= <[id := c]> |>))
  end.
Definition remember (id : uuid) (access : string) (expires : option Z) (g : Connector) : option Connector :=
  match expires with
  | Some n => Some (g <| cn_access ::= <[id := (access, cn_now g + n)]> |>)
  | None => None
  end.

(** ** Access tokens *)

(** [_cached] *)
Definition cached (id : uuid) (stale : option string) (g : Connector) : option string :=
  match cn_access g !! id with
  | Some (token, expires) =>
      if negb (bool_decide (Some token = stale)) && (cn_now g <? expires - seconds EXPIRY_MARGIN_SECONDS) then Some token else None
  | None => None
  end.

(** What an access token is for: the first request of a call, its repetition after Google refused
    the stale token, or a test of the connection. *)
Inductive Use := First (op : Downstream) | Again (op : Downstream) (stale : string) | Testing.
Definition stale_of (u : Use) : option string := match u with Again _ t => Some t | _ => None end.
Definition is_again (u : Use) : bool := match u with Again _ _ => true | _ => false end.

(** [status] *)
Definition status_view (g : Connector) : Json :=
  match connection g with
  | None => JObj [("status", JStr "NOT_CONNECTED"); ("grantedCapabilities", JList []); ("lastCheckedAt", JNull)]%string
  | Some (_, c) =>
      JObj [("status", JStr (gc_status c));
            ("grantedCapabilities", JList (if String.eqb (gc_status c) "CONNECTED" then map JStr (gc_scopes c) else []));
            ("lastCheckedAt", opt_json JNum (gc_checked c)); ("account", opt_json JStr (gc_subject c)); ("detail", opt_json JStr (gc_detail c))]%string
  end.

(** A task of the process, at an await: an exchange, the profile and the commit of a consent; the
    refresh lock, the refresh token, the refresh, and what follows it; the request of a call; the
    revocation and the deletion. *)
Inductive Flow :=
| Exchanging (p : Pending) (key : string)
| Profiling (p : Pending) (key : string) (t : Grants)
| Committing (p : Pending) (key : string) (t : Grants) (subject : option string)
| Waiting (u : Use) (id : uuid) (scopes : list string)
| Loading (u : Use) (id : uuid) (scopes : list string)
| Refreshing (u : Use) (id : uuid) (scopes : list string)
| Dropping (id : uuid)
| Saving (u : Use) (id : uuid) (scopes : list string) (access : string)
| Requesting (op : Downstream) (again : bool) (token : string) (id : uuid)
| Revoking (user id : uuid)
| Deleting (user id : uuid)
| Done (r : Result PlatformError Json).

Definition holds_lock (f : Flow) : option uuid :=
  match f with Loading _ id _ | Refreshing _ id _ | Dropping id | Saving _ id _ _ => Some id | _ => None end.
Definition waits_for (f : Flow) : option uuid := match f with Waiting _ id _ => Some id | _ => None end.
Definition is_done (f : Flow) : bool := match f with Done _ => true | _ => false end.
Definition needs_google : PlatformError := needs_connection "google".

(** [_call] and [test] with a token; the scopes are only checked for the first one. *)
Definition with_token (u : Use) (id : uuid) (scopes : list string) (token : string) (g : Connector) : Flow :=
  match u with
  | First op =>
      match google_request op with
      | None => Done (Err UNEXPECTED)
      | Some r => if existsb (String.eqb (hr_scope r)) scopes then Requesting op false token id else Done (Err needs_google)
      end
  | Again op _ => Requesting op true token id
  | Testing => Done (Ok (status_view g))
  end.

(** [_access_token] up to the lock *)
Definition ask_token (u : Use) (g : Connector) : Flow :=
  match connection g with
  | Some (id, c) =>
      if bool_decide (gc_secret c = None) || negb (String.eqb (gc_status c) "CONNECTED") then Done (Err needs_google)
      else match cached id (stale_of u) g with
           | Some token => with_token u id (gc_scopes c) token g
           | None => Waiting u id (gc_scopes c)
           end
  | None => Done (Err needs_google)
  end.

(** [_refresh], reading the refresh token *)
Definition load_refresh (id : uuid) (g : Connector) : Result PlatformError string :=
  match cn_connections g !! id with
  | Some c =>
      match gc_secret c with
      | Some sid => match load keyring sid "google" (cn_secrets g) with Ok b => Ok (unchars b) | Err _ => Err needs_google end
      | None => Err needs_google
      end
  | None => Err needs_google
  end.

Definition update_connection (id : uuid) (f : OAuthConnection -> OAuthConnection) (g : Connector) : Connector := g <| cn_connections ::= alter f id |>.

(** ** The process *)

Record Exchange := mkExchange { ex_key : string; ex_at : instant; ex_binding : string; ex_code : string; ex_verifier : string }.
Record Made := mkMade { md_key : string; md_user : uuid; md_grants : Grants }.
Inductive Sent :=
| SentApi (task : nat) (op : Downstream) (again : bool) (token : string) (id : uuid)
| SentRefresh (task : nat) (again : bool) (refresh : string) (id : uuid).

(** The connector, its tasks, and what happened: the consents begun, the codes exchanged, the
    connections made, the access tokens Google issued and the requests sent to it. *)
Record World := mkWorld {
  w_cn : Connector;
  w_tasks : list Flow;
  w_begun : gmap string (instant * Pending);
  w_exchanges : list Exchange;
  w_made : gmap uuid Made;
  w_issued : list (uuid * string);
  w_sent : list Sent
}.
#[export] Instance eta_World : Eta World := fun w =>
  mkWorld (w_cn w) (w_tasks w) (w_begun w) (w_exchanges w) (w_made w) (w_issued w) (w_sent w).

Definition world0 (now : instant) (d : Secrets) : World := mkWorld (mkConnector ∅ ∅ ∅ now ∅ d []) [] ∅ [] ∅ [] [].

Inductive Event :=
| Starts (user : uuid) (caps : list string) (state verifier binding : string)
| Returns (state : string) (code error binding : option string)
| Asks (op : Downstream)
| Tests
| Disconnects (user : uuid)
| TokenReplies (i : nat) (r : HttpReply)
| ApiReplies (i : nat) (r : HttpReply)
| Commits (i : nat) (id : uuid) (r : Random) (utc : instant)
| Locks (i : nat)
| Loads (i : nat)
| Saves (i : nat) (utc : instant)
| Drops (i : nat)
| Revoked (i : nat)
| Deletes (i : nat)
| Dies (i : nat)
| Passes (n : Z)
| Elsewhere (d : Secrets).

Definition set_task (i : nat) (f : Flow) (w : World) : World := w <| w_tasks ::= <[i := f]> |>.
Definition unlock (id : uuid) (g : Connector) : Connector := g <| cn_locks ::= fun l => l ∖ {[id]} |>.
Definition last_segment (url : string) : string := unchars (List.last (split_at "/"%char (chars url)) []).

(** A task goes on as [f]; a request it makes is sent. *)
Definition goes (i : nat) (f : Flow) (w : World) : World :=
  let w := set_task i f w in
  match f with
  | Requesting op again token id => w <| w_sent ::= fun l => l ++ [SentApi i op again token id] |>
  | _ => w
  end.
Definition spawn (f : Flow) (w : World) : World := goes (length (w_tasks w)) f (w <| w_tasks ::= fun l => l ++ [f] |>).

(** The code of a task after the answer of the token endpoint. *)
Definition on_token (i : nat) (f : Flow) (r : HttpReply) (w : World) : option World :=
  let g := w_cn w in
  match f with
  | Exchanging p key =>
      Some match exchanged r with
           | Err e => set_task i (Done (Err e)) w
           | Ok t => set_task i (if wants_profile t then Profiling p key t else Committing p key t None) w
           end
  | Refreshing u id scopes =>
      Some match token_outcome r with
           | TokenError e => set_task i (Done (Err e)) (w <| w_cn := unlock id g |>)
           | InvalidGrant => set_task i (Dropping id) (w <| w_cn := g <| cn_access ::= delete id |> |>)
           | Granted token =>
               match access_value token "PROVIDER_ERROR" 502 with
               | Err e => set_task i (Done (Err e)) (w <| w_cn := unlock id g |>)
               | Ok access =>
                   match remember id access (expires_in token) g with
                   | None => set_task i (Done (Err UNEXPECTED)) (w <| w_cn := unlock id g |>)
                   | Some g' => set_task i (Saving u id scopes access) (w <| w_cn := g' |> <| w_issued ::= cons (id, access) |>)
                   end
               end
           end
  | _ => None
  end.

(** Answers of the Gmail and Sheets APIs. *)
Definition on_api (i : nat) (f : Flow) (r : HttpReply) (w : World) : option World :=
  match f with
  | Profiling p key t =>
      Some match subject_of r with
           | Err e => set_task i (Done (Err e)) w
           | Ok s => set_task i (Committing p key t s) w
           end
  | Requesting op again token id =>
      let name := match google_request op with Some q => last_segment (hr_url q) | None => EmptyString end in
      Some match api_outcome name r with
           | Answer body => set_task i (Done (reply_body op body)) w
           | ApiError e => set_task i (Done (Err e)) w
           | Expired => if again then set_task i (Done (Err (provider_error 401))) w else goes i (ask_token (Again op token) (w_cn w)) w
           end
  | _ => None
  end.

(** The commit of a consent. *)
Definition on_commit (i : nat) (p : Pending) (key : string) (t : Grants) (subject : option string) (id : uuid) (r : Random) (utc : instant) (w : World) : World :=
  match connect p t subject id r utc (w_cn w) with
  | Err e => set_task i (Done (Err e)) (w <| w_cn ::= forget_access |>)
  | Ok g =>
      let w := w <| w_made ::= <[id := mkMade key (pn_user p) t]> |> in
      match remember id (gr_access t) (gr_expires t) g with
      | Some g' => set_task i (Done (Ok (JStr (uuid_str id)))) (w <| w_cn := g' |> <| w_issued ::= cons (id, gr_access t) |>)
      | None => set_task i (Done (Err UNEXPECTED)) (w <| w_cn := g |>)
      end
  end.

Definition on_lock (i : nat) (u : Use) (id : uuid) (scopes : list string) (w : World) : World :=
  match cached id (stale_of u) (w_cn w) with
  | Some token => goes i (with_token u id scopes token (w_cn w)) w
  | None => set_task i (Loading u id scopes) (w <| w_cn ::= fun g => g <| cn_locks ::= fun l => {[id]} ∪ l |> |>)
  end.
Definition on_load (i : nat) (u : Use) (id : uuid) (scopes : list string) (w : World) : World :=
  match load_refresh id (w_cn w) with
  | Ok refresh => set_task i (Refreshing u id scopes) w <| w_sent ::= fun l => l ++ [SentRefresh i (is_again u) refresh id] |>
  | Err e => set_task i (Done (Err e)) (w <| w_cn ::= unlock id |>)
  end.
(** After a refresh: [last_checked_at], and back to the call. *)
Definition on_save (i : nat) (u : Use) (id : uuid) (scopes : list string) (access : string) (utc : instant) (w : World) : World :=
  let w := w <| w_cn ::= fun g => unlock id (update_connection id (fun c => c <| gc_checked := Some utc |>) g) |> in
  goes i (with_token u id scopes access (w_cn w)) w.
(** After [invalid_grant] *)
Definition on_drop (i : nat) (id : uuid) (w : World) : World :=
  let g := w_cn w in
  let g := match cn_connections g !! id with
           | Some _ => audited "connection.google.expired" "service" "capability-broker" id "failure" (JObj [])
                         (update_connection id (fun c => c <| gc_status := "NEEDS_ATTENTION"%string |> <| gc_detail := Some RECONNECT |>) g)
           | None => g
           end in
  set_task i (Done (Err needs_google)) (w <| w_cn := unlock id g |>).

(** [disconnect]: its first transaction, and its last. *)
Definition disconnect_begin (user : uuid) (g : Connector) : Flow :=
  match connection g with
  | None => Done (Ok JNull)
  | Some (id, _) => match load_refresh id g with Ok _ => Revoking user id | Err _ => Deleting user id end
  end.
Definition disconnect_end (user id : uuid) (g : Connector) : Connector :=
  match cn_connections g !! id with
  | None => g
  | Some c => audited "connection.google.disconnected" "user" (uuid_str user) id "success" (JObj []) (delete_connection id c g)
  end.

Definition is_google_secret (s : EncryptedSecret) : bool := String.eqb (es_owner_type s) "oauth_connection".
Definition google_secrets (d : Secrets) : gmap uuid EncryptedSecret := filter (fun ks => is_google_secret ks.2 = true) (sd_rows d).

#[export] Instance EncryptedSecret_eq : EqDecision EncryptedSecret.
Proof. solve_decision. Defined.

Definition gstep (ev : Event) (w : World) : option World :=
  let g := w_cn w in
  let task i (k : Flow -> option World) := match w_tasks w !! i with Some f => k f | None => None end in
  match ev with
  | Starts user caps state verifier binding =>
      if bool_decide (w_begun w !! sha256_hex state = None) then
        match start user caps state verifier binding g with
        | Err _ => Some w
        | Ok (_, g') => Some (w <| w_cn := g' |> <| w_begun ::= <[sha256_hex state := (cn_now g, mkPending user verifier (sha256_hex binding) (cn_now g + seconds STATE_TTL_SECONDS))]> |>)
        end
      else None
  | Returns state code error binding =>
      let '(r, g') := callback_begin state code error binding g in
      let w := w <| w_cn := g' |> in
      match r with
      | Err e => Some (spawn (Done (Err e)) w)
      | Ok (p, c) =>
          Some (spawn (Exchanging p (sha256_hex state))
                  (w <| w_exchanges ::= cons (mkExchange (sha256_hex state) (cn_now g) (default EmptyString binding) c (pn_verifier p)) |>))
      end
  | Asks op => Some (spawn (ask_token (First op) g) w)
  | Tests =>
      match connection g with
      | None => Some (spawn (Done (Err needs_google)) w)
      | Some (id, _) => let g := g <| cn_access ::= delete id |> in Some (spawn (ask_token Testing g) (w <| w_cn := g |>))
      end
  | Disconnects user => Some (spawn (disconnect_begin user g) w)
  | TokenReplies i r => task i (fun f => on_token i f r w)
  | ApiReplies i r => task i (fun f => on_api i f r w)
  | Commits i id r utc => task i (fun f =>
      match f with
      | Committing p key t subject => if bool_decide (w_made w !! id = None) then Some (on_commit i p key t subject id r utc w) else None
      | _ => None
      end)
  | Locks i => task i (fun f =>
      match f with
      | Waiting u id scopes => if bool_decide (id ∈ cn_locks g) then None else Some (on_lock i u id scopes w)
      | _ => None
      end)
  | Loads i => task i (fun f => match f with Loading u id scopes => Some (on_load i u id scopes w) | _ => None end)
  | Saves i utc => task i (fun f => match f with Saving u id scopes access => Some (on_save i u id scopes access utc w) | _ => None end)
  | Drops i => task i (fun f => match f with Dropping id => Some (on_drop i id w) | _ => None end)
  | Revoked i => task i (fun f => match f with Revoking user id => Some (set_task i (Deleting user id) w) | _ => None end)
  | Deletes i => task i (fun f =>
      match f with Deleting user id => Some (set_task i (Done (Ok JNull)) (w <| w_cn := disconnect_end user id g |>)) | _ => None end)
  | Dies i => task i (fun f =>
      if is_done f then None else
      Some (set_task i (Done (Err UNEXPECTED)) (match holds_lock f with Some id => w <| w_cn := unlock id g |> | None => w end)))
  | Passes n => if 0 <=? n then Some (w <| w_cn := g <| cn_now := cn_now g + n |> |>) else None
  | Elsewhere d =>
      if bool_decide (google_secrets d = google_secrets (cn_secrets g)) && bool_decide (sd_fresh (cn_secrets g) <= sd_fresh d)%N
      then Some (w <| w_cn := g <| cn_secrets := d |> |>) else None
  end.
End google.
