(* ===== verification/GoogleProps.v ===== *)
(** * Theorems of the Google connector

    The invariants of [Google]: consents and the connections they make, the one connection with its
    secret, where access tokens come from, the refresh locks, and the requests a task may still
    send; and the theorems that follow from them. *)

From S2P Require Import Prelude Json Redaction PyValue JsonText Platform Capability Telephony BrokerApi SecretStore Pagination Inference Google.
From Stdlib Require Import Ascii.
#[local] Open Scope Z_scope.

(** ** One task moves *)

Definition moved (i : nat) (f : Flow) (ts ts' : list Flow) : Prop :=
  forall j f', ts' !! j = Some f' <-> j = i /\ f' = f \/ j <> i /\ ts !! j = Some f'.

Lemma moved_set i f0 f ts : ts !! i = Some f0 -> moved i f ts (<[i := f]> ts).
Proof.
  intros Hi j f'. pose proof (lookup_lt_Some _ _ _ Hi). destruct (decide (j = i)) as [->|Hne].
  - rewrite list_lookup_insert_eq by done. naive_solver.
  - rewrite list_lookup_insert_ne by done. naive_solver.
Qed.

Lemma moved_spawn f ts : moved (length ts) f ts (<[length ts := f]> (ts ++ [f])).
Proof.
  intros j f'. rewrite insert_app_r_alt, Nat.sub_diag by done. cbn. rewrite lookup_app_Some. split.
  - intros [Hj|[Hj E]]; [apply lookup_lt_Some in Hj as Hl; right; split; [lia|done]|].
    apply list_lookup_singleton_Some in E as [E <-]. left. split; [lia|done].
  - intros [[-> ->]|[Hne Hj]]; [right; split; [done|]; by rewrite Nat.sub_diag|by left].
Qed.

Lemma moved_at i f ts ts' : moved i f ts ts' -> ts' !! i = Some f.
Proof. intros Hm. apply Hm. by left. Qed.

(** What [goes] and [spawn] leave. *)
Lemma goes_cn i f w : w_cn (goes i f w) = w_cn w. Proof. by destruct f. Qed.
Lemma goes_tasks i f w : w_tasks (goes i f w) = <[i := f]> (w_tasks w). Proof. by destruct f. Qed.
Lemma goes_begun i f w : w_begun (goes i f w) = w_begun w. Proof. by destruct f. Qed.
Lemma goes_exchanges i f w : w_exchanges (goes i f w) = w_exchanges w. Proof. by destruct f. Qed.
Lemma goes_made i f w : w_made (goes i f w) = w_made w. Proof. by destruct f. Qed.
Lemma goes_issued i f w : w_issued (goes i f w) = w_issued w. Proof. by destruct f. Qed.

Definition sends (i : nat) (f : Flow) : list Sent := match f with Requesting op again token id => [SentApi i op again token id] | _ => [] end.
Lemma goes_sent i f w : w_sent (goes i f w) = w_sent w ++ sends i f.
Proof. destruct f; cbn; by rewrite ?app_nil_r. Qed.

#[local] Hint Rewrite goes_cn goes_tasks goes_begun goes_exchanges goes_made goes_issued goes_sent : goes.

Ltac look := unfold spawn in *; autorewrite with goes in *; cbn [w_cn w_tasks w_begun w_exchanges w_made w_issued w_sent set_task update spawn] in *.

Section props.
Context {A : Aead} {D : Digest} (st : GoogleSettings) (challenge : string -> string) (keyring : Keyring).

Ltac cases H :=
  unfold gstep, on_token, on_api, on_commit, on_lock, on_load, on_save, on_drop in H; cbv zeta in H; repeat case_match; simplify_eq.

(** ** Consents *)

Definition consent_of (f : Flow) : option (Pending * string) :=
  match f with Exchanging p key | Profiling p key _ | Committing p key _ _ => Some (p, key) | _ => None end.

Definition consented (begun : gmap string (instant * Pending)) (e : Exchange) : Prop :=
  exists t p, begun !! ex_key e = Some (t, p) /\ pn_expires p = t + seconds STATE_TTL_SECONDS /\ t <= ex_at e < pn_expires p /\
    sha256_hex (ex_binding e) = pn_binding p /\ ex_verifier e = pn_verifier p.

Record Consents (now : instant) (pending : gmap string Pending) (begun : gmap string (instant * Pending)) (exs : list Exchange)
    (made : gmap uuid Made) (ts : list Flow) : Prop := {
  cs_pending : forall k p, pending !! k = Some p -> k ∉ map ex_key exs /\ exists t, begun !! k = Some (t, p);
  cs_begun : forall k t p, begun !! k = Some (t, p) -> t <= now /\ pn_expires p = t + seconds STATE_TTL_SECONDS;
  cs_exchanges : forall e, e ∈ exs -> consented begun e;
  cs_once : NoDup (map ex_key exs);
  cs_tasks : forall i f p k, ts !! i = Some f -> consent_of f = Some (p, k) ->
    k ∈ map ex_key exs /\ (exists t, begun !! k = Some (t, p)) /\ forall id m, made !! id = Some m -> md_key m <> k;
  cs_apart : forall i j f f' p p' k, ts !! i = Some f -> ts !! j = Some f' -> consent_of f = Some (p, k) -> consent_of f' = Some (p', k) -> i = j;
  cs_made : forall id m, made !! id = Some m -> md_key m ∈ map ex_key exs /\ exists t p, begun !! md_key m = Some (t, p) /\ md_user m = pn_user p;
  cs_each : forall id id' m m', made !! id = Some m -> made !! id' = Some m' -> md_key m = md_key m' -> id = id'
}.

Definition ConsentInv (w : World) : Prop :=
  Consents (cn_now (w_cn w)) (cn_pending (w_cn w)) (w_begun w) (w_exchanges w) (w_made w) (w_tasks w).

(** A task that takes no consent, or keeps its own. *)
Lemma consents_move now now' pending pending' begun exs made i f ts ts' :
  Consents now pending begun exs made ts -> moved i f ts ts' -> now <= now' -> pending' ⊆ pending ->
  (consent_of f = None \/ exists f0, ts !! i = Some f0 /\ consent_of f0 = consent_of f) -> Consents now' pending' begun exs made ts'.
Proof.
  intros [H1 H2 H3 H4 H5 H6 H7 H8] Hm Hn Hp Hf. split; [| |done|done| | |done|done].
  - intros k p Hk. apply H1. by eapply lookup_weaken.
  - intros k t p Hk. destruct (H2 _ _ _ Hk). split; [lia|done].
  - intros j f' p k [[-> ->]|[_ Hj]]%Hm Hc; [|by eapply H5]. destruct Hf as [Hf|(f0 & Hi & Hf)]; [by rewrite Hf in Hc|]. eapply H5; [done|congruence].
  - intros j j' g g' p p' k [[-> ->]|[Hj Hg]]%Hm [[-> ->]|[Hj' Hg']]%Hm Hc Hc'; [done| | |by eapply H6];
      (destruct Hf as [Hf|(f0 & Hi & Hf)]; [congruence|rewrite <- Hf in *; by eapply H6]).
Qed.

Lemma consents_same now now' pending pending' begun exs made ts :
  Consents now pending begun exs made ts -> now <= now' -> pending' ⊆ pending -> Consents now' pending' begun exs made ts.
Proof.
  intros [H1 H2 H3 H4 H5 H6 H7 H8] Hn Hp. split; try done; [intros k p Hk; apply H1; by eapply lookup_weaken|].
  intros k t p Hk; destruct (H2 _ _ _ Hk); split; [lia|done].
Qed.

Lemma consents_start now pending begun exs made ts k p :
  Consents now pending begun exs made ts -> begun !! k = None -> pn_expires p = now + seconds STATE_TTL_SECONDS ->
  Consents now (<[k := p]> (filter (fun kp => now < pn_expires kp.2) pending)) (<[k := (now, p)]> begun) exs made ts.
Proof.
  intros [H1 H2 H3 H4 H5 H6 H7 H8] Hk He.
  assert (Hnew : k ∉ map ex_key exs).
  { intros (e & -> & He')%list_elem_of_fmap. destruct (H3 _ He') as (t & q & Hq & _). congruence. }
  assert (Hb : forall k' x, begun !! k' = Some x -> <[k := (now, p)]> begun !! k' = Some x).
  { intros k' x Hx. rewrite lookup_insert_ne; [done|]. intros ->. congruence. }
  split; [| | |done| |done| |done].
  - intros k' p' [[<- <-]|[Hne [Hp _]%map_lookup_filter_Some]]%lookup_insert_Some.
    + split; [done|]. exists now. by rewrite lookup_insert_eq.
    + destruct (H1 _ _ Hp) as [Hx [t Ht]]. split; [done|]. eauto.
  - intros k' t p' [[<- [= <- <-]]|[Hne Hx]]%lookup_insert_Some; [split; [lia|done]|by eapply H2].
  - intros e Hin. destruct (H3 _ Hin) as (t & q & Hq & Hr). exists t, q. eauto.
  - intros i f q k' Hi Hc. destruct (H5 _ _ _ _ Hi Hc) as (Hx & [t Ht] & Hm). split; [done|]. split; [eauto|done].
  - intros id m Hm. destruct (H7 _ _ Hm) as (Hx & t & q & Hq & Hu). split; [done|]. exists t, q. eauto.
Qed.

(** A code is exchanged. *)
Lemma consents_exchange now pending begun exs made i ts ts' p k code binding :
  Consents now pending begun exs made ts -> moved i (Exchanging p k) ts ts' -> pending !! k = Some p -> now < pn_expires p ->
  sha256_hex binding = pn_binding p ->
  Consents now (delete k pending) begun (mkExchange k now binding code (pn_verifier p) :: exs) made ts'.
Proof.
  intros [H1 H2 H3 H4 H5 H6 H7 H8] Hm Hk Hn Hb. destruct (H1 _ _ Hk) as [Hnew [t Ht]]. destruct (H2 _ _ _ Ht) as [Hle He].
  assert (Hfresh : forall j f p', ts !! j = Some f -> consent_of f = Some (p', k) -> False) by (intros j f p' Hj Hc; destruct (H5 _ _ _ _ Hj Hc); done).
  split; [|done| | | | | |done].
  - intros k' p' [Hne Hp]%lookup_delete_Some. destruct (H1 _ _ Hp). split; [|done]. cbn. set_solver.
  - intros e [->|He']%elem_of_cons; [|by apply H3]. exists t, p. cbn. done.
  - cbn. by constructor.
  - intros j f q k' [[-> ->]|[_ Hj]]%Hm Hc.
    + injection Hc as <- <-. split; [by left|]. split; [eauto|]. intros id m Hid E. destruct (H7 _ _ Hid) as [Hin _]. by rewrite E in Hin.
    + destruct (H5 _ _ _ _ Hj Hc) as (? & ? & ?). split; [by right|done].
  - intros j j' f f' q q' k' [[-> ->]|[Hj Hf]]%Hm [[-> ->]|[Hj' Hf']]%Hm Hc Hc'; [done| | |by eapply H6].
    + injection Hc as <- <-. by destruct (Hfresh _ _ _ Hf' Hc').
    + injection Hc' as <- <-. by destruct (Hfresh _ _ _ Hf Hc).
  - intros id m Hid. destruct (H7 _ _ Hid) as [Hx Hr]. split; [by right|done].
Qed.

(** A connection is made. *)
Lemma consents_commit now pending begun exs made i r ts ts' f0 p k t id :
  Consents now pending begun exs made ts -> moved i (Done r) ts ts' -> ts !! i = Some f0 -> consent_of f0 = Some (p, k) -> made !! id = None ->
  Consents now pending begun exs (<[id := mkMade k (pn_user p) t]> made) ts'.
Proof.
  intros HC Hm Hi Hc Hid. destruct (consents_move _ now _ pending _ _ _ _ _ _ _ HC Hm (Z.le_refl _) (reflexivity _) (or_introl eq_refl)) as [H1 H2 H3 H4 H5 H6 H7 H8].
  destruct (cs_tasks _ _ _ _ _ _ HC _ _ _ _ Hi Hc) as (Hx & [u Hu] & Hother). split; try done.
  - intros j f q k' Hj Hc'. destruct (H5 _ _ _ _ Hj Hc') as (? & ? & Hne). split; [done|]. split; [done|].
    intros id' m [[<- <-]|[_ Hm']]%lookup_insert_Some; [|exact (Hne _ _ Hm')]. cbn. intros E. rewrite <- E in Hc'. apply Hm in Hj as [[-> ->]|[Hji Hj]]; [done|].
    apply Hji. exact (cs_apart _ _ _ _ _ _ HC _ _ _ _ _ _ _ Hj Hi Hc' Hc).
  - intros id' m [[<- <-]|[_ Hm']]%lookup_insert_Some; [|exact (H7 _ _ Hm')]. cbn. split; [done|]. by exists u, p.
  - intros a b m m' [[<- <-]|[Ha Hma]]%lookup_insert_Some [[<- <-]|[Hb Hmb]]%lookup_insert_Some E; [done| | |by eapply H8]; cbn in E.
    + by destruct (Hother _ _ Hmb (eq_sym E)).
    + by destruct (Hother _ _ Hma E).
Qed.

Lemma google_callback_ok state code error binding g r g' :
  callback_begin state code error binding g = (r, g') ->
  g' = g <| cn_pending ::= delete (sha256_hex state) |> /\ forall p c, r = Ok (p, c) -> cn_pending g !! sha256_hex state = Some p /\ cn_now g < pn_expires p /\
    exists b, binding = Some b /\ sha256_hex b = pn_binding p.
Proof.
  unfold callback_begin. intros [= <- <-]. split; [done|]. intros p c H. repeat case_match; try done; simplify_eq; reflect_all;
    (split; [done|]; split; [lia|]; eexists; split; [done|]; by apply String.eqb_eq).
Qed.

Lemma start_shape user caps state verifier binding g out g' : start st challenge user caps state verifier binding g = Ok (out, g') ->
  cn_pending g' = <[sha256_hex state := mkPending user verifier (sha256_hex binding) (cn_now g + seconds STATE_TTL_SECONDS)]>
                    (filter (fun kp => cn_now g < pn_expires kp.2) (cn_pending g)) /\ cn_now g' = cn_now g /\
  cn_connections g' = cn_connections g /\ cn_secrets g' = cn_secrets g /\ cn_access g' = cn_access g /\ cn_locks g' = cn_locks g.
Proof. unfold start. repeat case_match; try done; by intros [= _ <-]. Qed.

Lemma connect_shape p t s id r utc g g' : connect keyring p t s id r utc g = Ok g' ->
  cn_pending g' = cn_pending g /\ cn_locks g' = cn_locks g /\ cn_now g' = cn_now g.
Proof.
  unfold connect. set (g0 := foldr _ _ _). assert (H0 : cn_pending g0 = cn_pending g /\ cn_locks g0 = cn_locks g /\ cn_now g0 = cn_now g).
  { unfold g0. induction (map_to_list _) as [|[x c] l IH]; [done|]. cbn. exact IH. }
  destruct (store _ _ _ _ _ _ _) as [[x d]|]; [|done]. intros [= <-]. exact H0.
Qed.

Lemma with_token_consent u id scopes tok g : consent_of (with_token u id scopes tok g) = None.
Proof. unfold with_token. by repeat case_match. Qed.
Lemma ask_token_consent u g : consent_of (ask_token u g) = None.
Proof. unfold ask_token. repeat case_match; try done. apply with_token_consent. Qed.
Lemma disconnect_consent user g : consent_of (disconnect_begin keyring user g) = None.
Proof. unfold disconnect_begin. by repeat case_match. Qed.

Lemma disconnect_shape user id g :
  cn_pending (disconnect_end user id g) = cn_pending g /\ cn_locks (disconnect_end user id g) = cn_locks g /\ cn_now (disconnect_end user id g) = cn_now g.
Proof. unfold disconnect_end. by destruct (cn_connections g !! id). Qed.

Lemma remember_shape id access expires g g' : remember id access expires g = Some g' ->
  cn_pending g' = cn_pending g /\ cn_locks g' = cn_locks g /\ cn_now g' = cn_now g.
Proof. unfold remember. destruct expires; [|done]. by intros [= <-]. Qed.

Ltac shapes :=
  repeat match goal with
  | H : connect _ _ _ _ _ _ _ _ = Ok ?g |- _ => apply connect_shape in H as (? & ? & ?)
  | H : remember _ _ _ _ = Some ?g |- _ => apply remember_shape in H as (? & ? & ?)
  | |- context [disconnect_end ?u ?i ?g] =>
      let H := fresh in pose proof (disconnect_shape u i g) as H; destruct H as (? & ? & ?); generalize dependent (disconnect_end u i g); intros
  end.

Ltac same_shape := repeat match goal with E : cn_pending _ = _ |- _ => rewrite E; clear E | E : cn_now _ = _ |- _ => rewrite E; clear E end.

Lemma consent_step ev w w' : ConsentInv w -> gstep st challenge keyring ev w = Some w' -> ConsentInv w'.
Proof.
  unfold ConsentInv. intros HC H. destruct ev; cases H; look.
  all: try exact HC.
  all: try (eapply consents_move; [exact HC|first [apply moved_spawn|eapply moved_set; eassumption]|shapes; cbn; lia
             |shapes; cbn; same_shape; reflexivity
             |left; first [reflexivity|apply with_token_consent|apply ask_token_consent|apply disconnect_consent]]).
  all: try (eapply consents_move; [exact HC|eapply moved_set; eassumption|shapes; cbn; lia|shapes; cbn; same_shape; reflexivity|right; eexists; split; [eassumption|reflexivity]]).
  - reflect_all. destruct (start_shape _ _ _ _ _ _ _ _ H1) as (Hp & Hn & _). rewrite Hp, Hn. by apply consents_start.
  - apply google_callback_ok in H0 as [-> Hok]. destruct (Hok _ _ eq_refl) as (Hk & Hn & b & -> & Hb). cbn.
    eapply consents_exchange; [exact HC|apply moved_spawn|done|done|done].
  - apply google_callback_ok in H0 as [-> _]. eapply consents_move; [exact HC|apply moved_spawn|cbn; lia|cbn; apply delete_subseteq|by left].
  - shapes. same_shape. reflect_all. eapply consents_commit; [exact HC|by eapply moved_set|done|done|done].
  - shapes. same_shape. reflect_all. eapply consents_commit; [exact HC|by eapply moved_set|done|done|done].
  - reflect_all. eapply consents_same; [exact HC|cbn; lia|done].
Qed.

(** ** The refresh locks *)

Record Locked (locks : gset uuid) (ts : list Flow) : Prop := {
  lk_held : forall i f id, ts !! i = Some f -> holds_lock f = Some id -> id ∈ locks;
  lk_one : forall i j f f' id, ts !! i = Some f -> ts !! j = Some f' -> holds_lock f = Some id -> holds_lock f' = Some id -> i = j;
  lk_owner : forall id, id ∈ locks -> exists i f, ts !! i = Some f /\ holds_lock f = Some id
}.
Definition LockInv (w : World) : Prop := Locked (cn_locks (w_cn w)) (w_tasks w).

(** What the moved task held before. *)
Definition held (ts : list Flow) (i : nat) : option uuid := ts !! i ≫= holds_lock.

Lemma locked_move locks i f ts ts' : Locked locks ts -> moved i f ts ts' -> holds_lock f = held ts i -> Locked locks ts'.
Proof.
  intros [H1 H2 H3] Hm Hf. unfold held in Hf. split.
  - intros j f' id [[-> ->]|[_ Hj]]%Hm Hh; [|by eapply H1]. destruct (ts !! i) as [f0|] eqn:E; cbn in Hf; [|congruence]. eapply H1; [exact E|congruence].
  - intros j j' g g' id [[-> ->]|[Hj Hg]]%Hm [[-> ->]|[Hj' Hg']]%Hm Hc Hc'; [done| | |by eapply H2];
      (destruct (ts !! i) as [f0|] eqn:E; cbn in Hf; [|congruence]; rewrite Hf in *; by eapply H2).
  - intros id (j & g & Hj & Hg)%H3. destruct (decide (j = i)) as [->|Hne].
    + rewrite Hj in Hf. cbn in Hf. exists i, f. split; [by eapply moved_at|congruence].
    + exists j, g. split; [|done]. apply Hm. by right.
Qed.

Lemma locked_acquire locks i f id ts ts' :
  Locked locks ts -> moved i f ts ts' -> held ts i = None -> holds_lock f = Some id -> id ∉ locks -> Locked ({[id]} ∪ locks) ts'.
Proof.
  intros [H1 H2 H3] Hm Hold Hf Hid. split.
  - intros j f' id' [[-> ->]|[_ Hj]]%Hm Hh; [set_solver|]. apply elem_of_union_r. by eapply H1.
  - intros j j' g g' id' [[-> ->]|[Hj Hg]]%Hm [[-> ->]|[Hj' Hg']]%Hm Hc Hc'; [done| | |by eapply H2];
      (destruct Hid; simplify_eq; by eapply H1).
  - intros id' [->%elem_of_singleton|(j & g & Hj & Hg)%H3]%elem_of_union; [exists i, f; split; [by eapply moved_at|done]|].
    destruct (decide (j = i)) as [->|Hne]; [unfold held in Hold; rewrite Hj in Hold; cbn in Hold; congruence|].
    exists j, g. split; [|done]. apply Hm. by right.
Qed.

Lemma locked_release locks i f id ts ts' :
  Locked locks ts -> moved i f ts ts' -> held ts i = Some id -> holds_lock f = None -> Locked (locks ∖ {[id]}) ts'.
Proof.
  intros [H1 H2 H3] Hm Hold Hf. unfold held in Hold. destruct (ts !! i) as [f0|] eqn:E; [|done]. cbn in Hold. split.
  - intros j f' id' [[-> ->]|[Hj Hg]]%Hm Hh; [congruence|]. apply elem_of_difference. split; [by eapply H1|].
    intros ->%elem_of_singleton. by destruct Hj, (H2 _ _ _ _ _ Hg E Hh Hold).
  - intros j j' g g' id' [[-> ->]|[Hj Hg]]%Hm [[-> ->]|[Hj' Hg']]%Hm Hc Hc'; [done|congruence|congruence|by eapply H2].
  - intros id' [(j & g & Hj & Hg)%H3 Hne]%elem_of_difference. exists j, g. split; [|done]. apply Hm. right. split; [|done].
    intros ->. set_solver.
Qed.

Lemma with_token_lock u id scopes tok g : holds_lock (with_token u id scopes tok g) = None.
Proof. unfold with_token. by repeat case_match. Qed.
Lemma ask_token_lock u g : holds_lock (ask_token u g) = None.
Proof. unfold ask_token. repeat case_match; try done. apply with_token_lock. Qed.
Lemma disconnect_lock user g : holds_lock (disconnect_begin keyring user g) = None.
Proof. unfold disconnect_begin. by repeat case_match. Qed.
Lemma held_spawn ts : held ts (length ts) = None.
Proof. unfold held. by rewrite lookup_ge_None_2. Qed.
Lemma held_at ts i f : ts !! i = Some f -> held ts i = holds_lock f.
Proof. unfold held. by intros ->. Qed.

Lemma lock_step ev w w' : LockInv w -> gstep st challenge keyring ev w = Some w' -> LockInv w'.
Proof.
  unfold LockInv. intros HL H. destruct ev; cases H; look; try exact HL.
  all: shapes; cbn; repeat match goal with E : cn_locks _ = _ |- _ => rewrite E; clear E end; try exact HL.
  all: try (eapply locked_move; [exact HL|first [apply moved_spawn|by eapply moved_set]|
     first [rewrite held_spawn|erewrite held_at by eassumption]; first [reflexivity|apply with_token_lock|apply ask_token_lock|apply disconnect_lock|done]]).
  all: try (eapply locked_release; [exact HL|by eapply moved_set|erewrite held_at by eassumption; first [reflexivity|eassumption]|first [reflexivity|apply with_token_lock]]).
  - by apply start_shape in H1 as (_ & _ & _ & _ & _ & ->).
  - apply google_callback_ok in H0 as [-> _]. cbn. eapply locked_move; [exact HL|apply moved_spawn|by rewrite held_spawn].
  - apply google_callback_ok in H0 as [-> _]. cbn. eapply locked_move; [exact HL|apply moved_spawn|by rewrite held_spawn].
  - reflect_all. eapply locked_acquire; [exact HL|by eapply moved_set|by erewrite held_at by eassumption|done|done].
Qed.

(** ** The connection and its secret *)

Record conn_ok (secrets : Secrets) (made : gmap uuid Made) (id : uuid) (c : OAuthConnection) (sid : uuid) (s : EncryptedSecret) (m : Made) : Prop := {
  co_made : made !! id = Some m;
  co_user : gc_user c = md_user m;
  co_scopes : gc_scopes c = gr_scopes (md_grants m);
  co_secret : gc_secret c = Some sid;
  co_row : google_secrets secrets !! sid = Some s;
  co_owner : es_owner_id s = id;
  co_opens : load keyring sid "google" secrets = Ok (chars (gr_refresh (md_grants m)))
}.

Record Kept (conns : gmap uuid OAuthConnection) (secrets : Secrets) (made : gmap uuid Made) : Prop := {
  kp_one : forall id id' c c', conns !! id = Some c -> conns !! id' = Some c' -> id = id';
  kp_conn : forall id c, conns !! id = Some c -> exists sid s m, conn_ok secrets made id c sid s m;
  kp_secret : forall sid s, google_secrets secrets !! sid = Some s ->
    (sid < sd_fresh secrets)%N /\ exists c, conns !! es_owner_id s = Some c /\ gc_secret c = Some sid
}.
Definition KeptInv (w : World) : Prop := Kept (cn_connections (w_cn w)) (cn_secrets (w_cn w)) (w_made w).

Lemma google_row sid s d : google_secrets d !! sid = Some s <-> sd_rows d !! sid = Some s /\ is_google_secret s = true.
Proof. unfold google_secrets. by rewrite map_lookup_filter_Some. Qed.

Lemma load_row d d' sid p : sd_rows d' !! sid = sd_rows d !! sid -> load keyring sid p d' = load keyring sid p d.
Proof. unfold load. by intros ->. Qed.

Lemma without_rows sid d : sd_rows (without_secret sid d) = delete sid (sd_rows d) /\ sd_fresh (without_secret sid d) = sd_fresh d.
Proof. done. Qed.

(** Both tables lose the connection. *)
Lemma kept_delete conns secrets made id c sid :
  Kept conns secrets made -> conns !! id = Some c -> gc_secret c = Some sid ->
  delete id conns = ∅ /\ google_secrets (without_secret sid secrets) = ∅.
Proof.
  intros [H1 H2 H3] Hc Hs. split.
  - apply map_empty. intros j. destruct (delete id conns !! j) as [x|] eqn:E; [|done]. apply lookup_delete_Some in E as [Hne Hj].
    by destruct Hne, (H1 _ _ _ _ Hc Hj).
  - apply map_empty. intros j. destruct (google_secrets _ !! j) as [s|] eqn:E; [|done]. apply google_row in E as [E Hg].
    rewrite (proj1 (without_rows _ _)) in E. apply lookup_delete_Some in E as [Hne E].
    destruct (H3 j s) as (_ & c' & Hc' & Hs'); [by apply google_row|]. destruct (H1 _ _ _ _ Hc Hc'). simplify_eq.
Qed.

Lemma kept_empty secrets made : google_secrets secrets = ∅ -> Kept ∅ secrets made.
Proof. intros H. split; [done|done|]. intros sid s. by rewrite H, lookup_empty. Qed.

(** Changing columns that say nothing of the account. *)
Lemma kept_alter conns secrets made id f :
  (forall c, gc_user (f c) = gc_user c /\ gc_scopes (f c) = gc_scopes c /\ gc_secret (f c) = gc_secret c) ->
  Kept conns secrets made -> Kept (alter f id conns) secrets made.
Proof.
  intros Hf [H1 H2 H3].
  assert (Hb : forall j x, alter f id conns !! j = Some x -> exists c, conns !! j = Some c /\ gc_user x = gc_user c /\ gc_scopes x = gc_scopes c /\ gc_secret x = gc_secret c).
  { intros j x [(-> & c & Hc & ->)|[_ Hx]]%lookup_alter_Some; [exists c; by destruct (Hf c) as (? & ? & ?)|by exists x]. }
  split.
  - intros i j c c' (d & Hd & _)%Hb (d' & Hd' & _)%Hb. by eapply H1.
  - intros i x (c & Hc & E1 & E2 & E3)%Hb. destruct (H2 _ _ Hc) as (sid & s & m & [K1 K2 K3 K4 K5 K6 K7]). exists sid, s, m. split; congruence.
  - intros sid s Hs. destruct (H3 _ _ Hs) as (Hl & c & Hc & Hsec). split; [done|].
    destruct (decide (id = es_owner_id s)) as [->|Hne].
    + exists (f c). rewrite lookup_alter_eq, Hc. split; [done|]. by destruct (Hf c) as (_ & _ & ->).
    + exists c. by rewrite lookup_alter_ne.
Qed.

Lemma kept_elsewhere conns secrets secrets' made :
  google_secrets secrets' = google_secrets secrets -> (sd_fresh secrets <= sd_fresh secrets')%N -> Kept conns secrets made -> Kept conns secrets' made.
Proof.
  intros Hg Hf [H1 H2 H3]. split; [done| |].
  - intros id c Hc. destruct (H2 _ _ Hc) as (sid & s & m & [K1 K2 K3 K4 K5 K6 K7]). exists sid, s, m. split; try done; [by rewrite Hg|].
    rewrite <- K7. apply load_row. pose proof K5 as K5'. rewrite <- Hg in K5'. apply google_row in K5 as [-> _]. by apply google_row in K5' as [-> _].
  - intros sid s. rewrite Hg. intros Hs. destruct (H3 _ _ Hs) as [Hl ?]. split; [lia|done].
Qed.

(** ** Tokens and requests *)

Definition sent_key (e : Sent) : nat * (bool * bool) :=
  match e with SentApi i _ again _ _ => (i, (true, again)) | SentRefresh i again _ _ => (i, (false, again)) end.

(** What a task may still send: requests to the APIs and refreshes, before and after a refused token. *)
Definition later (u : Use) : list (bool * bool) :=
  match u with First _ => [(true, false); (false, true); (true, true)] | Again _ _ => [(true, true)] | Testing => [] end.
Definition may_send (f : Flow) : list (bool * bool) :=
  match f with
  | Waiting u _ _ | Loading u _ _ => (false, is_again u) :: later u
  | Refreshing u _ _ | Saving u _ _ _ => later u
  | Requesting _ false _ _ => [(false, true); (true, true)]
  | _ => []
  end.

Definition use_ok (sent : list Sent) (i : nat) (u : Use) : Prop :=
  match u with Again op _ => exists tok id, SentApi i op false tok id ∈ sent | _ => True end.
Definition scopes_ok (made : gmap uuid Made) (id : uuid) (scopes : list string) : Prop :=
  exists m, made !! id = Some m /\ scopes = gr_scopes (md_grants m).
Definition flow_ok (made : gmap uuid Made) (issued : list (uuid * string)) (sent : list Sent) (i : nat) (f : Flow) : Prop :=
  match f with
  | Waiting u id sc | Loading u id sc | Refreshing u id sc => use_ok sent i u /\ scopes_ok made id sc
  | Saving u id sc a => use_ok sent i u /\ scopes_ok made id sc /\ (id, a) ∈ issued
  | Requesting op _ _ _ => exists tok id, SentApi i op false tok id ∈ sent
  | _ => True
  end.
Definition sent_ok (made : gmap uuid Made) (issued : list (uuid * string)) (sent : list Sent) (e : Sent) : Prop :=
  match e with
  | SentApi i op again tok id =>
      (id, tok) ∈ issued /\
      if again then exists tok' id', SentApi i op false tok' id' ∈ sent
      else exists m q, made !! id = Some m /\ google_request op = Some q /\ hr_scope q ∈ gr_scopes (md_grants m)
  | SentRefresh _ _ refresh id => exists m, made !! id = Some m /\ refresh = gr_refresh (md_grants m)
  end.

Record Asked (access : gmap uuid (string * instant)) (issued : list (uuid * string)) (made : gmap uuid Made) (sent : list Sent) (ts : list Flow) : Prop := {
  as_access : forall id tok e, access !! id = Some (tok, e) -> (id, tok) ∈ issued;
  as_issued : forall id tok, (id, tok) ∈ issued -> is_Some (made !! id);
  as_flows : forall i f, ts !! i = Some f -> flow_ok made issued sent i f;
  as_sent : forall e, e ∈ sent -> sent_ok made issued sent e;
  as_keys : NoDup (map sent_key sent);
  as_budget : forall i f k, ts !! i = Some f -> k ∈ may_send f -> (i, k) ∉ map sent_key sent;
  as_bound : forall i k, (i, k) ∈ map sent_key sent -> (i < length ts)%nat
}.
Definition AskedInv (w : World) : Prop := Asked (cn_access (w_cn w)) (w_issued w) (w_made w) (w_sent w) (w_tasks w).

Lemma flow_ok_mono made made' issued issued' sent sent' i f :
  made ⊆ made' -> (forall x, x ∈ issued -> x ∈ issued') -> (forall x, x ∈ sent -> x ∈ sent') -> flow_ok made issued sent i f -> flow_ok made' issued' sent' i f.
Proof.
  intros Hm Hi Hs. assert (Hu : forall u, use_ok sent i u -> use_ok sent' i u) by (intros [] ?; naive_solver).
  assert (Hc : forall id sc, scopes_ok made id sc -> scopes_ok made' id sc) by (intros id sc (m & ? & ?); exists m; split; [by eapply lookup_weaken|done]).
  destruct f; cbn; naive_solver.
Qed.
Lemma sent_ok_mono made made' issued issued' sent sent' e :
  made ⊆ made' -> (forall x, x ∈ issued -> x ∈ issued') -> (forall x, x ∈ sent -> x ∈ sent') -> sent_ok made issued sent e -> sent_ok made' issued' sent' e.
Proof.
  intros Hm Hi Hs. destruct e as [i op [] tok id|i again r id]; cbn.
  - intros [? (t & j & ?)]. eauto 6.
  - intros [? (m & q & ? & ?)]. split; [auto|]. exists m, q. split; [by eapply lookup_weaken|done].
  - intros (m & ? & ?). exists m. split; [by eapply lookup_weaken|done].
Qed.

(** What the moved task could send before. *)
Definition free (ts : list Flow) (i : nat) (k : bool * bool) : Prop :=
  match ts !! i with Some f => k ∈ may_send f | None => i = length ts end.

Lemma free_unsent access issued made sent ts i k : Asked access issued made sent ts -> free ts i k -> (i, k) ∉ map sent_key sent.
Proof.
  intros HA Hf. unfold free in Hf. destruct (ts !! i) as [f|] eqn:E; [by eapply as_budget|]. subst i.
  intros Hin. apply (as_bound _ _ _ _ _ HA) in Hin. lia.
Qed.

Lemma moved_length i f ts ts' : moved i f ts ts' -> (length ts <= length ts')%nat.
Proof.
  intros Hm. destruct (Nat.le_gt_cases (length ts) (length ts')) as [?|Hlt]; [done|].
  destruct (lookup_lt_is_Some_2 ts (length ts') Hlt) as [g Hg]. destruct (decide (length ts' = i)) as [E|Hne].
  - pose proof (moved_at _ _ _ _ Hm) as Hi. apply lookup_lt_Some in Hi. lia.
  - assert (Hj : ts' !! length ts' = Some g) by (apply Hm; by right). apply lookup_lt_Some in Hj. lia.
Qed.

(** A task moves, having sent nothing or one request. *)
Lemma asked_move access access' issued issued' made made' sent new i f ts ts' :
  Asked access issued made sent ts -> moved i f ts ts' ->
  (forall id tok e, access' !! id = Some (tok, e) -> (id, tok) ∈ issued') -> (forall x, x ∈ issued -> x ∈ issued') ->
  (forall id tok, (id, tok) ∈ issued' -> is_Some (made' !! id)) -> made ⊆ made' ->
  flow_ok made' issued' (sent ++ new) i f -> (forall e, e ∈ new -> sent_ok made' issued' (sent ++ new) e) ->
  (new = [] \/ exists e k, new = [e] /\ sent_key e = (i, k) /\ free ts i k /\ k ∉ may_send f) ->
  (forall k, k ∈ may_send f -> free ts i k) -> Asked access' issued' made' (sent ++ new) ts'.
Proof.
  intros HA Hm Hacc Hiss Hmd Hsub Hf Hnew Hone Hk. pose proof HA as [H1 H2 H3 H4 H5 H6 H7].
  assert (Hs : forall x, x ∈ sent -> x ∈ sent ++ new) by (intros x Hx; apply elem_of_app; by left).
  pose proof (moved_at _ _ _ _ Hm) as Hat. pose proof (lookup_lt_Some _ _ _ Hat) as Hlen. pose proof (moved_length _ _ _ _ Hm) as Hlen'.
  split; [done|done| | | | |].
  - intros j g [[-> ->]|[_ Hj]]%Hm; [done|]. eapply flow_ok_mono; [exact Hsub|exact Hiss|exact Hs|by apply H3].
  - intros e [He|He]%elem_of_app; [|by apply Hnew]. eapply sent_ok_mono; [exact Hsub|exact Hiss|exact Hs|by apply H4].
  - rewrite map_app. apply NoDup_app. split; [done|]. destruct Hone as [->|(e & k & -> & Hek & Hfree & _)]; cbn; [split; [set_solver|by constructor]|].
    split; [|apply NoDup_singleton]. intros x Hx ->%list_elem_of_singleton. rewrite Hek in Hx. by eapply free_unsent.
  - intros j g k Hj Hg. rewrite map_app. intros [Hin|Hin]%elem_of_app.
    + apply Hm in Hj as [[-> ->]|[_ Hj]]; [|by eapply H6]. by eapply free_unsent; [exact HA|apply Hk|].
    + destruct Hone as [->|(e & k' & -> & Hek & _ & Hno)]; [by apply elem_of_nil in Hin|]. cbn in Hin. apply list_elem_of_singleton in Hin. rewrite Hek in Hin.
      injection Hin as -> ->. apply Hm in Hj as [[_ ->]|[Hne _]]; [by destruct Hno|done].
  - intros j k. rewrite map_app. intros [Hin|Hin]%elem_of_app; [apply H7 in Hin; lia|].
    destruct Hone as [->|(e & k' & -> & Hek & _)]; [by apply elem_of_nil in Hin|]. cbn in Hin. apply list_elem_of_singleton in Hin. rewrite Hek in Hin. by injection Hin as -> ->.
Qed.

Lemma asked_quiet access access' issued issued' made made' sent i f ts ts' :
  Asked access issued made sent ts -> moved i f ts ts' ->
  (forall id tok e, access' !! id = Some (tok, e) -> (id, tok) ∈ issued') -> (forall x, x ∈ issued -> x ∈ issued') ->
  (forall id tok, (id, tok) ∈ issued' -> is_Some (made' !! id)) -> made ⊆ made' ->
  flow_ok made' issued' sent i f -> (forall k, k ∈ may_send f -> free ts i k) -> Asked access' issued' made' sent ts'.
Proof.
  intros HA Hm H1 H2 H3 H4 H5 H6. rewrite <- (app_nil_r sent).
  eapply (asked_move _ _ _ _ _ _ _ []); [exact HA|exact Hm|done|done|done|done|by rewrite app_nil_r|set_solver|by left|done].
Qed.

(** A task that has a token, and one that asks for it. *)
Record sends_ok (made : gmap uuid Made) (issued : list (uuid * string)) (sent : list Sent) (i : nat) (f : Flow) (budget : list (bool * bool)) : Prop := {
  so_flow : flow_ok made issued (sent ++ sends i f) i f;
  so_sent : forall e, e ∈ sends i f -> sent_ok made issued (sent ++ sends i f) e;
  so_one : sends i f = [] \/ exists e k, sends i f = [e] /\ sent_key e = (i, k) /\ k ∈ budget /\ k ∉ may_send f;
  so_budget : forall k, k ∈ may_send f -> k ∈ budget
}.

Lemma sends_done made issued sent i r budget : sends_ok made issued sent i (Done r) budget.
Proof. split; cbn; [done|set_solver|by left|set_solver]. Qed.

Lemma with_token_sends made issued sent i u id sc tok g :
  use_ok sent i u -> scopes_ok made id sc -> (id, tok) ∈ issued -> sends_ok made issued sent i (with_token u id sc tok g) (later u).
Proof.
  intros Hu (m & Hm & ->) Hi. unfold with_token. destruct u as [op|op stale|]; [| |apply sends_done].
  - destruct (google_request op) as [q|] eqn:Hq; [|apply sends_done]. destruct (existsb _ _) eqn:E; [|apply sends_done].
    assert (Hin : hr_scope q ∈ gr_scopes (md_grants m)) by (apply existsb_exists in E as (x & Hx & ->%String.eqb_eq); by apply list_elem_of_In).
    split; cbn.
    + exists tok, id. set_solver.
    + intros e ->%list_elem_of_singleton. cbn. split; [done|]. by exists m, q.
    + right. eexists _, _. split; [reflexivity|]. split; [reflexivity|]. split; [set_solver|]. intros [|[|[]%elem_of_nil]%elem_of_cons]%elem_of_cons; done.
    + set_solver.
  - destruct Hu as (t & j & Hs). split; cbn.
    + exists t, j. set_solver.
    + intros e ->%list_elem_of_singleton. cbn. split; [done|]. exists t, j. set_solver.
    + right. eexists _, _. split; [reflexivity|]. split; [reflexivity|]. split; [set_solver|]. apply not_elem_of_nil.
    + set_solver.
Qed.

Lemma connection_in g id c : connection g = Some (id, c) -> cn_connections g !! id = Some c.
Proof.
  unfold connection. intros H. apply elem_of_map_to_list. destruct (map_to_list _) as [|x l]; [done|]. injection H as ->. by left.
Qed.

Lemma cached_in id stale g tok : cached id stale g = Some tok -> exists e, cn_access g !! id = Some (tok, e).
Proof. unfold cached. destruct (cn_access g !! id) as [[t e]|]; [|done]. destruct (_ && _); [|done]. intros [= <-]. by exists e. Qed.

Lemma ask_token_sends made issued sent ts i u g :
  Kept (cn_connections g) (cn_secrets g) made -> Asked (cn_access g) issued made sent ts -> use_ok sent i u ->
  sends_ok made issued sent i (ask_token u g) ((false, is_again u) :: later u).
Proof.
  intros HK HA Hu. unfold ask_token. destruct (connection g) as [[id c]|] eqn:Hc; [|apply sends_done]. apply connection_in in Hc.
  destruct (_ || _); [apply sends_done|]. destruct (kp_conn _ _ _ HK _ _ Hc) as (sid & s & m & Hco).
  assert (Hsc : scopes_ok made id (gc_scopes c)) by (exists m; split; apply Hco).
  destruct (cached _ _ _) as [tok|] eqn:Ht.
  - apply cached_in in Ht as [e He]. apply (as_access _ _ _ _ _ HA) in He.
    destruct (with_token_sends made issued sent i u id (gc_scopes c) tok g Hu Hsc He) as [K1 K2 K3 K4]. split; [done|done| |intros k Hk; right; by apply K4].
    destruct K3 as [?|(e' & k & ? & ? & ? & ?)]; [by left|]. right. exists e', k. split_and!; try done. by right.
  - split; cbn; [by rewrite app_nil_r|by intros e ?%elem_of_nil|by left|done].
Qed.

Lemma asked_sends access access' issued issued' made sent i f ts ts' budget :
  Asked access issued made sent ts -> moved i f ts ts' -> sends_ok made issued' sent i f budget -> (forall k, k ∈ budget -> free ts i k) ->
  (forall id tok e, access' !! id = Some (tok, e) -> (id, tok) ∈ issued') -> (forall x, x ∈ issued -> x ∈ issued') ->
  (forall id tok, (id, tok) ∈ issued' -> is_Some (made !! id)) ->
  Asked access' issued' made (sent ++ sends i f) ts'.
Proof.
  intros HA Hm [K1 K2 K3 K4] Hb H1 H2 H3. eapply asked_move; [exact HA|exact Hm|done|done|done|reflexivity|done|done| |by intros k Hk; apply Hb, K4].
  destruct K3 as [?|(e & k & ? & ? & ? & ?)]; [by left|]. right. exists e, k. split_and!; try done. by apply Hb.
Qed.

(** ** Steps of a task *)

Definition rest (u : Use) : nat := match u with First _ => 6 | Again _ _ => 1 | Testing => 0 end.
(** The steps a task has left at most. *)
Definition steps_left (f : Flow) : nat :=
  match f with
  | Exchanging _ _ => 3 | Profiling _ _ _ => 2 | Committing _ _ _ _ => 1
  | Waiting u _ _ => rest u + 4 | Loading u _ _ => rest u + 3 | Refreshing u _ _ => rest u + 2 | Saving u _ _ _ => rest u + 1
  | Dropping _ => 1
  | Requesting _ again _ _ => if again then 1 else 6
  | Revoking _ _ => 2 | Deleting _ _ => 1
  | Done _ => 0
  end.

Lemma steps_positive f : is_done f = false -> (0 < steps_left f)%nat.
Proof. destruct f; cbn; try case_match; first [lia|done]. Qed.
Lemma with_token_steps u id sc tok g : (steps_left (with_token u id sc tok g) <= rest u)%nat.
Proof. unfold with_token. repeat case_match; cbn; lia. Qed.
Lemma ask_token_steps u g : (steps_left (ask_token u g) <= rest u + 4)%nat.
Proof.
  unfold ask_token. repeat case_match; cbn; try lia.
  match goal with |- context [with_token ?u ?i ?s ?t ?g] => pose proof (with_token_steps u i s t g) end. lia.
Qed.

(** A step moves at most one task, which then has fewer steps left. *)
Lemma step_moves ev w w' : gstep st challenge keyring ev w = Some w' ->
  forall i f, w_tasks w !! i = Some f -> exists f', w_tasks w' !! i = Some f' /\ (f' = f \/ (steps_left f' < steps_left f)%nat).
Proof.
  intros H.
  assert (Hsame : forall i f, w_tasks w !! i = Some f -> exists f', w_tasks w !! i = Some f' /\ (f' = f \/ (steps_left f' < steps_left f)%nat)) by eauto.
  assert (Hspawn : forall f0 i f, w_tasks w !! i = Some f -> exists f', <[length (w_tasks w) := f0]> (w_tasks w ++ [f0]) !! i = Some f' /\ (f' = f \/ (steps_left f' < steps_left f)%nat)).
  { intros f0 i f Hi. exists f. split; [|by left]. apply (moved_spawn f0 (w_tasks w)). right. split; [|done]. apply lookup_lt_Some in Hi. lia. }
  assert (Hset : forall j f0 f1, w_tasks w !! j = Some f0 -> (steps_left f1 < steps_left f0)%nat ->
            forall i f, w_tasks w !! i = Some f -> exists f', <[j := f1]> (w_tasks w) !! i = Some f' /\ (f' = f \/ (steps_left f' < steps_left f)%nat)).
  { intros j f0 f1 Hj Hlt i f Hi. destruct (decide (i = j)) as [->|Hne].
    - exists f1. rewrite list_lookup_insert_eq by by eapply lookup_lt_Some. split; [done|]. right. congruence.
    - exists f. rewrite list_lookup_insert_ne by done. split; [done|by left]. }
  destruct ev; cases H; look; try exact Hsame; try exact (Hspawn _); eapply Hset; try eassumption; cbn;
    repeat match goal with
    | |- context [steps_left (with_token ?u ?i ?s ?t ?g)] => pose proof (with_token_steps u i s t g); generalize dependent (with_token u i s t g); intros
    | |- context [steps_left (ask_token ?u ?g)] => pose proof (ask_token_steps u g); generalize dependent (ask_token u g); intros
    end; cbn in *; try lia.
  all: try (case_match; lia).
  all: by apply steps_positive.
Qed.

Section laws.
Context {Used : list ascii -> Prop} {AL : AeadLaws A Used} (Hkeyring : kr_ok keyring).

Lemma stored_opens r id p d s d' :
  random_ok r -> store keyring r "google" "oauth_connection" id p d = Ok (s, d') ->
  es_id s = sd_fresh d /\ sd_rows d' = <[sd_fresh d := s]> (sd_rows d) /\ sd_fresh d' = N.succ (sd_fresh d) /\
  is_google_secret s = true /\ es_owner_id s = id /\ load keyring (sd_fresh d) "google" d' = Ok p.
Proof.
  intros Hr. unfold store, bind, get, lift. destruct (sealed _ _ _ _) as [s0|] eqn:Hs; [|done]. cbn. unfold guard. destruct (_ && _ && _); [|done].
  cbn. intros [= <- <-]. pose proof Hs as Hs'. unfold sealed in Hs. destruct (encrypt _ _ _ _) as [blob|] eqn:Hb in Hs; [|done]. cbn in Hs. injection Hs as <-.
  cbn. split_and!; [done..|]. unfold load. cbn. rewrite lookup_insert_eq. cbn.
  apply sealed_ok in Hs' as (_ & _ & He & _). by destruct (decrypt_encrypt keyring keyring r p _ _ Hkeyring Hr eq_refl He) as (_ & ? & _).
Qed.

Lemma kept_connect p t subject id r utc g g' made key :
  Kept (cn_connections g) (cn_secrets g) made -> random_ok r -> made !! id = None -> connect keyring p t subject id r utc g = Ok g' ->
  Kept (cn_connections g') (cn_secrets g') (<[id := mkMade key (pn_user p) t]> made).
Proof.
  intros HK Hr Hid. unfold connect. set (g0 := foldr _ _ _).
  assert (H0 : cn_connections g0 = ∅ /\ google_secrets (cn_secrets g0) = ∅).
  { unfold g0. destruct (map_to_list (cn_connections g)) as [|[i c] l] eqn:El.
    - apply map_to_list_empty_iff in El. cbn. split; [done|]. apply map_empty. intros j. destruct (google_secrets _ !! j) as [s|] eqn:E; [|done].
      destruct (kp_secret _ _ _ HK _ _ E) as (_ & c & Hc & _). by rewrite El in Hc.
    - assert (Hi : cn_connections g !! i = Some c) by (apply elem_of_map_to_list; rewrite El; left).
      assert (l = []) as ->.
      { destruct l as [|[j c'] l]; [done|]. assert (Hj : cn_connections g !! j = Some c') by (apply elem_of_map_to_list; rewrite El; right; left).
        pose proof (kp_one _ _ _ HK _ _ _ _ Hi Hj) as <-. pose proof (NoDup_fst_map_to_list (cn_connections g)) as Hn. rewrite El in Hn. cbn in Hn.
        apply NoDup_cons in Hn as [Hn _]. destruct Hn. by left. }
      destruct (kp_conn _ _ _ HK _ _ Hi) as (sid & s & m & [K1 K2 K3 K4 K5 K6 K7]). cbn. rewrite K4. by eapply kept_delete. }
  destruct H0 as [H0 H0']. destruct (store _ _ _ _ _ _ _) as [[s d]|] eqn:Hs; [|done]. intros [= <-]. cbn. rewrite H0.
  destruct (stored_opens _ _ _ _ _ _ Hr Hs) as (E1 & E2 & E3 & E4 & E5 & E6). rewrite E1.
  assert (Hg : google_secrets d = {[sd_fresh (cn_secrets g0) := s]}).
  { unfold google_secrets in *. rewrite E2, map_filter_insert_True by done. by rewrite H0'. }
  split.
  - intros i j c c' [[<- _]|[_ ?]]%lookup_insert_Some [[<- _]|[_ ?]]%lookup_insert_Some; done.
  - intros i c [[<- <-]|[_ ?]]%lookup_insert_Some; [|done]. exists (sd_fresh (cn_secrets g0)), s, (mkMade key (pn_user p) t).
    split; [apply lookup_insert_eq|done|done|done|rewrite Hg; apply lookup_singleton_eq|done|done].
  - intros sid x. rewrite Hg. intros [<- <-]%lookup_singleton_Some. split; [rewrite E3; lia|]. rewrite E5, lookup_insert_eq. by eexists.
Qed.

Definition sound (ev : Event) : Prop := forall i id r utc, ev = Commits i id r utc -> random_ok r.

Lemma kept_made conns secrets made id m : Kept conns secrets made -> made !! id = None -> Kept conns secrets (<[id := m]> made).
Proof.
  intros [H1 H2 H3] Hid. split; [done| |done]. intros j c Hc. destruct (H2 _ _ Hc) as (sid & s & m' & [K1 K2 K3 K4 K5 K6 K7]).
  exists sid, s, m'. split; try done. rewrite lookup_insert_ne; [done|]. intros ->. congruence.
Qed.

Lemma kept_disconnect user id g made :
  Kept (cn_connections g) (cn_secrets g) made -> Kept (cn_connections (disconnect_end user id g)) (cn_secrets (disconnect_end user id g)) made.
Proof.
  intros HK. unfold disconnect_end. destruct (cn_connections g !! id) as [c|] eqn:Hc; [|done].
  destruct (kp_conn _ _ _ HK _ _ Hc) as (sid & s & m & [K1 K2 K3 K4 K5 K6 K7]). cbn. rewrite K4.
  destruct (kept_delete _ _ _ _ _ _ HK Hc K4) as [-> E]. by apply kept_empty.
Qed.

Lemma remember_kept id access expires g g' : remember id access expires g = Some g' ->
  cn_connections g' = cn_connections g /\ cn_secrets g' = cn_secrets g.
Proof. unfold remember. destruct expires; [|done]. by intros [= <-]. Qed.

Lemma kept_step ev w w' : KeptInv w -> sound ev -> gstep st challenge keyring ev w = Some w' -> KeptInv w'.
Proof.
  unfold KeptInv. intros HK Hok H. destruct ev; cases H; look; try exact HK.
  - by apply start_shape in H1 as (_ & _ & -> & -> & _).
  - by apply google_callback_ok in H0 as [-> _].
  - by apply google_callback_ok in H0 as [-> _].
  - match goal with H : remember _ _ _ _ = Some _ |- _ => apply remember_kept in H as [-> ->] end. exact HK.
  - match goal with H : remember _ _ _ _ = Some _ |- _ => apply remember_kept in H as [-> ->] end. reflect_all. eapply kept_connect; [exact HK|by eapply Hok|done|done].
  - reflect_all. eapply kept_connect; [exact HK|by eapply Hok|done|done].
  - cbn. by apply kept_alter.
  - cbn. by apply kept_alter.
  - by apply kept_disconnect.
  - reflect_all. cbn. by eapply kept_elsewhere.
Qed.

(** A task that stops. *)
Lemma asked_stops access access' issued made sent i f ts ts' :
  Asked access issued made sent ts -> moved i f ts ts' -> access' ⊆ access -> flow_ok made issued sent i f -> may_send f = [] ->
  Asked access' issued made sent ts'.
Proof.
  intros HA Hm Hacc Hf Hk. eapply asked_quiet; [exact HA|exact Hm| |done|apply HA|reflexivity|done|rewrite Hk; by intros k ?%elem_of_nil].
  intros id tok e He. eapply (as_access _ _ _ _ _ HA), lookup_weaken; [exact He|done].
Qed.
Lemma asked_shrink access access' issued made sent ts : Asked access issued made sent ts -> access' ⊆ access -> Asked access' issued made sent ts.
Proof. intros [H1 H2 H3 H4 H5 H6 H7] Hs. split; try done. intros id tok e He. eapply H1, lookup_weaken; [exact He|done]. Qed.

Lemma disconnect_quiet user g i : sends i (disconnect_begin keyring user g) = [] /\ may_send (disconnect_begin keyring user g) = [] /\
  forall made issued sent, flow_ok made issued sent i (disconnect_begin keyring user g).
Proof. unfold disconnect_begin. by repeat case_match. Qed.

Lemma disconnect_access user id g : cn_access (disconnect_end user id g) ⊆ cn_access g.
Proof. unfold disconnect_end. destruct (cn_connections g !! id); [apply delete_subseteq|done]. Qed.

Lemma connect_access p t subject id r utc g g' : connect keyring p t subject id r utc g = Ok g' -> cn_access g' ⊆ cn_access g.
Proof.
  unfold connect. set (g0 := foldr _ _ _). assert (H0 : cn_access g0 ⊆ cn_access g).
  { unfold g0. induction (map_to_list _) as [|[x c] l IH]; [done|]. cbn. etransitivity; [apply delete_subseteq|exact IH]. }
  destruct (store _ _ _ _ _ _ _) as [[x d]|]; [|done]. by intros [= <-].
Qed.

Lemma free_at ts i f k : ts !! i = Some f -> k ∈ may_send f -> free ts i k.
Proof. unfold free. by intros ->. Qed.
Lemma free_spawn ts k : free ts (length ts) k.
Proof. unfold free. by rewrite lookup_ge_None_2. Qed.

(** An access token is remembered. *)
Lemma asked_saves access issued made sent i u id sc a e ts ts' f0 :
  Asked access issued made sent ts -> moved i (Saving u id sc a) ts ts' -> ts !! i = Some f0 -> f0 = Refreshing u id sc ->
  Asked (<[id := (a, e)]> access) ((id, a) :: issued) made sent ts'.
Proof.
  intros HA Hm Hi ->. destruct (as_flows _ _ _ _ _ HA _ _ Hi) as [Hu (m & Hmd & Hsc)].
  eapply asked_quiet; [exact HA|exact Hm| |by right| |reflexivity| |].
  - intros j tok x [[<- [= <- <-]]|[_ Hx]]%lookup_insert_Some; [by left|]. right. by eapply as_access.
  - intros j tok [[= -> ->]|Hx]%elem_of_cons; [by rewrite Hmd|by eapply as_issued].
  - cbn. split; [done|]. split; [by exists m|by left].
  - intros k Hk. eapply free_at; [exact Hi|exact Hk].
Qed.

(** A connection is made, and its first access token may be remembered. *)
Lemma asked_commits access access' issued issued' made sent i r id m ts ts' :
  Asked access issued made sent ts -> moved i (Done r) ts ts' -> made !! id = None ->
  (forall j tok e, access' !! j = Some (tok, e) -> (j, tok) ∈ issued') -> (forall x, x ∈ issued -> x ∈ issued') ->
  (forall j tok, (j, tok) ∈ issued' -> j = id \/ (j, tok) ∈ issued) ->
  Asked access' issued' (<[id := m]> made) sent ts'.
Proof.
  intros HA Hm Hid H1 H2 H3. eapply asked_quiet; [exact HA|exact Hm|done|done| |by apply insert_subseteq|done|by intros k ?%elem_of_nil].
  intros j tok [->|Hj]%H3; [rewrite lookup_insert_eq; by eexists|]. destruct (as_issued _ _ _ _ _ HA _ _ Hj) as [x Hx].
  rewrite lookup_insert_ne; [by exists x|]. intros ->. congruence.
Qed.

Lemma load_refresh_made g made id r : Kept (cn_connections g) (cn_secrets g) made -> load_refresh keyring id g = Ok r ->
  exists m, made !! id = Some m /\ r = gr_refresh (md_grants m).
Proof.
  intros HK. unfold load_refresh. destruct (cn_connections g !! id) as [c|] eqn:Hc; [|done].
  destruct (kp_conn _ _ _ HK _ _ Hc) as (sid & s & m & [K1 K2 K3 K4 K5 K6 K7]). rewrite K4, K7. intros [= <-]. exists m.
  split; [done|]. unfold unchars, chars. apply String.string_of_list_ascii_of_string.
Qed.

Lemma asked_refreshes access issued made sent i u id sc r ts ts' :
  Asked access issued made sent ts -> moved i (Refreshing u id sc) ts ts' -> ts !! i = Some (Loading u id sc) ->
  (exists m, made !! id = Some m /\ r = gr_refresh (md_grants m)) ->
  Asked access issued made (sent ++ [SentRefresh i (is_again u) r id]) ts'.
Proof.
  intros HA Hm Hi Hr. destruct (as_flows _ _ _ _ _ HA _ _ Hi) as [Hu Hsc].
  eapply asked_move; [exact HA|exact Hm|apply HA|done|apply HA|reflexivity| | | |].
  - cbn. split; [|done]. destruct u; try done. destruct Hu as (t & j & ?). exists t, j. set_solver.
  - by intros e ->%list_elem_of_singleton.
  - right. eexists _, (false, is_again u). split; [done|]. split; [done|]. split; [eapply free_at; [exact Hi|by left]|].
    destruct u; cbn; rewrite ?not_elem_of_cons; split_and?; try done; apply not_elem_of_nil.
  - intros k Hk. eapply free_at; [exact Hi|by right].
Qed.

Lemma asked_asks g issued made sent i u ts ts' :
  Kept (cn_connections g) (cn_secrets g) made -> Asked (cn_access g) issued made sent ts -> moved i (ask_token u g) ts ts' -> use_ok sent i u ->
  (forall k, k ∈ (false, is_again u) :: later u -> free ts i k) ->
  Asked (cn_access g) issued made (sent ++ sends i (ask_token u g)) ts'.
Proof.
  intros HK HA Hm Hu Hk. eapply asked_sends; [exact HA|exact Hm|by eapply ask_token_sends|exact Hk|apply HA|done|apply HA].
Qed.

Lemma asked_step ev w w' : KeptInv w -> AskedInv w -> gstep st challenge keyring ev w = Some w' -> AskedInv w'.
Proof.
  unfold KeptInv, AskedInv. intros HK HA H. destruct ev; cases H; look; try exact HA.
  all: try (eapply asked_stops; [exact HA|by eapply moved_set|first [reflexivity|apply delete_subseteq|apply disconnect_access|apply map_filter_subseteq]|done|done]).
  all: try (cbn [sends]; rewrite app_nil_r; eapply asked_stops; [exact HA|apply moved_spawn|reflexivity|done|done]).
  all: try match goal with H : callback_begin _ _ _ _ _ = _ |- _ => apply google_callback_ok in H as [-> _]; cbn [sends]; rewrite app_nil_r; by eapply asked_stops; [exact HA|apply moved_spawn|reflexivity| |] end.
  all: try match goal with Hi : w_tasks _ !! _ = Some (Requesting _ _ _ _) |- _ =>
      pose proof (as_flows _ _ _ _ _ HA _ _ Hi) as Hu; eapply asked_asks; [done|exact HA|by eapply moved_set|exact Hu|];
      intros k Hk; eapply free_at; [exact Hi|exact Hk] end.
  - apply start_shape in H1 as (_ & _ & _ & _ & -> & _). exact HA.
  - eapply asked_asks; [exact HK|exact HA|apply moved_spawn|done|intros; apply free_spawn].
  - eapply (asked_asks (w_cn w <| cn_access ::= delete n |>)); [exact HK| |apply moved_spawn|done|intros; apply free_spawn].
    eapply asked_shrink; [exact HA|apply delete_subseteq].
  - destruct (disconnect_quiet user (w_cn w) (length (w_tasks w))) as (-> & Hk & Hf). rewrite app_nil_r.
    eapply asked_stops; [exact HA|apply moved_spawn|reflexivity|apply Hf|done].
  - unfold remember in *. case_match; [|done]. simplify_eq. cbn. eapply asked_saves; [exact HA|by eapply moved_set|eassumption|done].
  - match goal with H : connect _ _ _ _ _ _ _ _ = _ |- _ => apply connect_access in H as Hsub end.
    unfold remember in *. case_match; [|done]. simplify_eq. reflect_all. cbn. eapply asked_commits; [exact HA|by eapply moved_set|done| |by right|].
    + intros j tok e [[<- [= <- <-]]|[_ Hx]]%lookup_insert_Some; [by left|]. right. eapply (as_access _ _ _ _ _ HA), lookup_weaken; [exact Hx|done].
    + intros j tok [[= -> ->]|?]%elem_of_cons; [by left|by right].
  - match goal with H : connect _ _ _ _ _ _ _ _ = _ |- _ => apply connect_access in H as Hsub end.
    reflect_all. eapply asked_commits; [exact HA|by eapply moved_set|done| |done|by right].
    intros j tok e Hx. eapply (as_access _ _ _ _ _ HA), lookup_weaken; [exact Hx|done].
  - match goal with H : cached _ _ _ = Some _ |- _ => apply cached_in in H as [e He] end. apply (as_access _ _ _ _ _ HA) in He.
    match goal with Hi : w_tasks _ !! i = Some _ |- _ => destruct (as_flows _ _ _ _ _ HA _ _ Hi) as [Hu Hsc];
      eapply asked_sends; [exact HA|by eapply moved_set|by apply with_token_sends|intros k Hk; eapply free_at; [exact Hi|by right]|apply HA|done|apply HA] end.
  - match goal with Hi : w_tasks _ !! i = Some _ |- _ => pose proof (as_flows _ _ _ _ _ HA _ _ Hi) as Hf;
      eapply asked_quiet; [exact HA|by eapply moved_set|apply HA|done|apply HA|reflexivity|exact Hf|intros k Hk; eapply free_at; [exact Hi|exact Hk]] end.
  - eapply asked_refreshes; [exact HA|by eapply moved_set|done|by eapply load_refresh_made].
  - match goal with Hi : w_tasks _ !! i = Some _ |- _ => destruct (as_flows _ _ _ _ _ HA _ _ Hi) as (Hu & Hsc & Hin);
      eapply asked_sends; [exact HA|by eapply moved_set|by apply with_token_sends|intros k Hk; eapply free_at; [exact Hi|exact Hk]|apply HA|done|apply HA] end.
Qed.

(** ** Histories *)

Definition lives (w w' : World) : Prop := exists ev, sound ev /\ gstep st challenge keyring ev w = Some w'.

Record GInv (w : World) : Prop := { gi_consents : ConsentInv w; gi_locks : LockInv w; gi_kept : KeptInv w; gi_asked : AskedInv w }.

Lemma google_world0_ok now d : google_secrets d = ∅ -> GInv (world0 now d).
Proof.
  intros Hd. split.
  - split; cbn; try done; [by intros e ?%elem_of_nil|constructor].
  - split; cbn; try done.
  - by apply kept_empty.
  - split; cbn; try done; [by intros ? ? ?%elem_of_nil|by intros e ?%elem_of_nil|constructor|by intros ? ? ?%elem_of_nil].
Qed.

Lemma google_lives_ok now d w : google_secrets d = ∅ -> rtc lives (world0 now d) w -> GInv w.
Proof.
  intros Hd Hr. assert (H0 := google_world0_ok now d Hd). induction Hr as [|w w1 w2 (ev & Hs & Hev) _ IH]; [done|]. apply IH.
  destruct H0 as [H1 H2 H3 H4]. split; [by eapply consent_step|by eapply lock_step|by eapply kept_step|by eapply asked_step].
Qed.

(** C17: Consent is bound to who began it.  Over any interleaving of consents, calls, refreshes and
    disconnections: a code is exchanged at most once per state, only while the state that the owner's
    browser was given is less than ten minutes old, with the binding of that very browser and with
    the PKCE verifier of that start; and a connection belongs to the user who began such a consent,
    with no two connections ever made from one. *)
Theorem consents_bound now d w :
  google_secrets d = ∅ -> rtc lives (world0 now d) w ->
  NoDup (map ex_key (w_exchanges w)) /\
  (forall e, e ∈ w_exchanges w -> exists t p, w_begun w !! ex_key e = Some (t, p) /\ t <= ex_at e < t + seconds STATE_TTL_SECONDS /\
     sha256_hex (ex_binding e) = pn_binding p /\ ex_verifier e = pn_verifier p) /\
  (forall id c, cn_connections (w_cn w) !! id = Some c -> exists m e t p, w_made w !! id = Some m /\ e ∈ w_exchanges w /\ ex_key e = md_key m /\
     w_begun w !! ex_key e = Some (t, p) /\ gc_user c = pn_user p /\ gc_scopes c = gr_scopes (md_grants m)) /\
  (forall id id' m m', w_made w !! id = Some m -> w_made w !! id' = Some m' -> md_key m = md_key m' -> id = id').
Proof.
  intros Hd Hr. destruct (google_lives_ok _ _ _ Hd Hr) as [HC _ HK _]. split; [apply HC|]. split; [|split; [|apply HC]].
  - intros e (t & p & Hb & He & Hat & Hbind & Hver)%(cs_exchanges _ _ _ _ _ _ HC). exists t, p. rewrite He in Hat. done.
  - intros id c Hc. destruct (kp_conn _ _ _ HK _ _ Hc) as (sid & s & m & [K1 K2 K3 K4 K5 K6 K7]).
    destruct (cs_made _ _ _ _ _ _ HC _ _ K1) as ((e & Ee & He)%list_elem_of_fmap & t & p & Hb & Hu). exists m, e, t, p. split_and!; congruence.
Qed.

(** C18: Google is asked only with what it granted.  A Gmail or Sheets request carries an access token
    that Google issued for the connection it is made on; the first request of a call is made only when
    the consent of that connection includes the scope of the operation, and its repetition only after
    that one was refused.  A refresh carries the very refresh token of the consent, through the secret
    store.  No call makes more than two requests or two refreshes, and never two refreshes of one
    connection are under way. *)
Theorem google_asked_as_granted now d w :
  google_secrets d = ∅ -> rtc lives (world0 now d) w ->
  (forall e, e ∈ w_sent w -> sent_ok (w_made w) (w_issued w) (w_sent w) e) /\
  (forall id tok, (id, tok) ∈ w_issued w -> is_Some (w_made w !! id)) /\
  NoDup (map sent_key (w_sent w)) /\
  (forall i j u u' id sc sc', w_tasks w !! i = Some (Refreshing u id sc) -> w_tasks w !! j = Some (Refreshing u' id sc') -> i = j).
Proof.
  intros Hd Hr. destruct (google_lives_ok _ _ _ Hd Hr) as [_ HL _ HA]. split; [apply HA|]. split; [apply HA|]. split; [apply HA|].
  intros i j u u' id sc sc' Hi Hj. by eapply (lk_one _ _ HL).
Qed.


Definition draw0 : Random := mkRandom (repeat "0"%char 32) (repeat "0"%char 12) (repeat "0"%char 12).

Lemma differs (ts : list Flow) i f f' : ts !! i = Some f -> (steps_left f' < steps_left f)%nat -> <[i := f']> ts !! i <> Some f.
Proof. intros Hi Hlt. rewrite list_lookup_insert_eq by by eapply lookup_lt_Some. intros [= ->]. lia. Qed.

(** A task that is not done and does not wait for a lock has a step. *)
Lemma has_step w i f : w_tasks w !! i = Some f -> is_done f = false -> (forall id, waits_for f = Some id -> id ∉ cn_locks (w_cn w)) ->
  exists ev w', sound ev /\ ev <> Dies i /\ gstep st challenge keyring ev w = Some w' /\ w_tasks w' !! i <> Some f.
Proof.
  intros Hi Hd Hw.
  pose (ev := match f with
              | Exchanging _ _ | Refreshing _ _ _ => TokenReplies i Unreachable
              | Profiling _ _ _ | Requesting _ _ _ _ => ApiReplies i Unreachable
              | Committing _ _ _ _ => Commits i (fresh (dom (w_made w))) draw0 0
              | Waiting _ _ _ => Locks i | Loading _ _ _ => Loads i | Dropping _ => Drops i
              | Saving _ _ _ _ => Saves i 0 | Revoking _ _ => Revoked i | Deleting _ _ => Deletes i | Done _ => Dies i
              end).
  assert (Hs : sound ev).
  { intros j id r utc E. destruct f; try discriminate. injection E as _ _ <- _. split_and!; apply repeat_length. }
  assert (Hf : w_made w !! fresh (dom (w_made w)) = None) by (apply not_elem_of_dom, is_fresh).
  exists ev. destruct f; cbn in Hd; try discriminate; unfold ev, gstep; cbv zeta; rewrite Hi; unfold on_token, on_api, on_commit, on_lock, on_load, on_save, on_drop; cbv zeta.
  all: rewrite ?(bool_decide_eq_true_2 _ Hf), ?(bool_decide_eq_false_2 _ (Hw _ eq_refl)).
  all: eexists; (split; [exact Hs|]); (split; [discriminate|]); (split; [reflexivity|]).
  all: repeat case_match; look; apply differs; try done; cbn; try lia.
  all: try match goal with |- context [with_token ?u ?i ?s ?t ?g] => pose proof (with_token_steps u i s t g); lia end.
  all: case_match; lia.
Qed.

(** Calls of the connector come to an end: a call has at most ten steps of its own (lock, refresh
    token, refresh, its recording and the request, twice), a step of another task leaves it where it
    is, and a task that is not done has a step to take unless it waits for a refresh lock, whose
    holder then has one. *)
Theorem google_calls_settle now d w op :
  google_secrets d = ∅ -> rtc lives (world0 now d) w ->
  (steps_left (ask_token (First op) (w_cn w)) <= 10)%nat /\
  (forall ev w' i f, gstep st challenge keyring ev w = Some w' -> w_tasks w !! i = Some f ->
     exists f', w_tasks w' !! i = Some f' /\ (f' = f \/ (steps_left f' < steps_left f)%nat)) /\
  (forall i f, w_tasks w !! i = Some f -> is_done f = false ->
     exists j f0 ev w', w_tasks w !! j = Some f0 /\ (j = i \/ exists id, waits_for f = Some id /\ holds_lock f0 = Some id) /\
       sound ev /\ ev <> Dies j /\ gstep st challenge keyring ev w = Some w' /\ w_tasks w' !! j <> Some f0).
Proof.
  intros Hd Hr. destruct (google_lives_ok _ _ _ Hd Hr) as [_ HL _ _]. split; [apply (ask_token_steps (First op))|]. split.
  { intros ev w' i f H Hi. by eapply step_moves. }
  intros i f Hi Hf. assert (Hdec : (exists id, waits_for f = Some id /\ id ∈ cn_locks (w_cn w)) \/ ~ exists id, waits_for f = Some id /\ id ∈ cn_locks (w_cn w)).
  { destruct (waits_for f) as [id|]; [|right; naive_solver]. destruct (decide (id ∈ cn_locks (w_cn w))); [left; eauto|right; naive_solver]. }
  destruct Hdec as [(id & Hw & Hin)|Hno].
  - destruct (lk_owner _ _ HL _ Hin) as (j & f0 & Hj & Hh).
    destruct (has_step w j f0) as (ev & w' & H1 & H2 & H3 & H4); [done|by destruct f0|intros x Hx; by destruct f0|].
    exists j, f0, ev, w'. split_and!; try done. right. eauto.
  - destruct (has_step w i f) as (ev & w' & H1 & H2 & H3 & H4); [done|done|intros id Hw Hin; apply Hno; eauto|].
    exists i, f, ev, w'. split_and!; try done. by left.
Qed.
End laws.
End props.
