(* ===== verification/Profiles.v ===== *)
(** * Provider accounts ([broker/connections.py], the credentials of [broker/twilio.py], the key test of [model_gateway/main.py])

    API keys and the Twilio account as rows with their secrets: storing and deleting them, the tests
    of a key or an account, the limited test call, and the statuses the owner sees.  Tests run
    concurrently with everything else and are interleaved at their awaits.  The stored credentials of
    Twilio are the JSON text that is encrypted; reading it back is left to the JSON library. *)

From S2P Require Import Prelude Json Redaction PyValue JsonText Platform Capability Telephony SecretStore Pagination Inference.
From Stdlib Require Import Ascii.
#[local] Open Scope Z_scope.

Record ProfileRow := mkProfile {
  pw_row : ProviderProfile;
  pw_owner : uuid;
  pw_name : string;
  pw_settings : list (string * Json);
  pw_checked : option instant
}.
Definition pw_id (r : ProfileRow) : uuid := pf_id (pw_row r).
Definition pw_provider (r : ProfileRow) : string := pf_provider (pw_row r).

#[export] Instance eta_ProfileRow : Eta ProfileRow := fun r => mkProfile (pw_row r) (pw_owner r) (pw_name r) (pw_settings r) (pw_checked r).
#[export] Instance eta_ProviderProfile : Eta ProviderProfile := fun r =>
  mkProfileRow (pf_id r) (pf_provider r) (pf_encrypted_secret_id r) (pf_allowed_models r) (pf_budgets r) (pf_enabled r) (pf_status r) (pf_created_at r).

(** The table in order of creation, the secrets, the audit log, the keys in the gateway's memory, and
    when the last test call was placed. *)
Record Accounts := mkAccounts {
  ac_rows : list ProfileRow;
  ac_secrets : Secrets;
  ac_audit : list AuditEvent;
  ac_cache : KeyCache;
  ac_last_test_call : instant
}.
#[export] Instance eta_Accounts : Eta Accounts := fun a => mkAccounts (ac_rows a) (ac_secrets a) (ac_audit a) (ac_cache a) (ac_last_test_call a).

Definition TEST_CALL_INTERVAL_SECONDS : Z := 60.
Definition accounts0 (d : Secrets) : Accounts := mkAccounts [] d [] ∅ (- seconds TEST_CALL_INTERVAL_SECONDS).

Definition find_row (id : uuid) (a : Accounts) : option ProfileRow := List.find (fun r => (pw_id r =? id)%N) (ac_rows a).
Definition update_row (id : uuid) (f : ProfileRow -> ProfileRow) (a : Accounts) : Accounts :=
  a <| ac_rows ::= map (fun r => if (pw_id r =? id)%N then f r else r) |>.
Definition audited (actor_type actor action : string) (id : uuid) (outcome : string) (metadata : Json) (a : Accounts) : Accounts :=
  a <| ac_audit ::= fun l => l ++ [mkAudit actor_type (Some actor) action (Some "provider_profile"%string) (Some (uuid_str id)) outcome (redact metadata)] |>.

Definition without_secret (sid : option uuid) (a : Accounts) : Accounts :=
  match sid with
  | Some sid => a <| ac_secrets ::= fun d => match delete_secret sid d with Ok (_, d') => d' | Err _ => d end |>
  | None => a
  end.
Definition remove_row (r : ProfileRow) (a : Accounts) : Accounts :=
  without_secret (pf_encrypted_secret_id (pw_row r)) (a <| ac_rows ::= List.filter (fun x => negb (pw_id x =? pw_id r)%N) |>).

(** ** API keys *)

Record ProviderProfileIn := mkProfileIn {
  pi_user_id : uuid;
  pi_provider : string;
  pi_display_name : string;
  pi_api_key : string;
  pi_allowed_models : list string;
  pi_budgets : list (string * Json);
  pi_enabled : bool
}.
Definition length_in (lo hi : Z) (s : string) : bool := (lo <=? Z.of_nat (String.length s)) && (Z.of_nat (String.length s) <=? hi).
Definition profile_in_ok (b : ProviderProfileIn) : bool :=
  is_cloud (pi_provider b) && length_in 1 100 (pi_display_name b) && length_in 8 512 (pi_api_key b) && utf8_valid (chars (pi_api_key b))
  && (Z.of_nat (length (pi_allowed_models b)) <=? 50).

Section accounts.
Context {A : Aead} (keyring : Keyring).

Definition same_name (b : ProviderProfileIn) (r : ProfileRow) : bool :=
  (pw_owner r =? pi_user_id b)%N && String.eqb (pw_provider r) (pi_provider b) && String.eqb (pw_name r) (pi_display_name b).

(** The row a secret is stored for, in the transaction that creates it. *)
Definition add_row (row : ProviderProfile) (owner : uuid) (name : string) (settings : list (string * Json)) (r : Random) (plaintext : text) (a : Accounts)
    : Result PlatformError Accounts :=
  match store keyring r (pf_provider row) "provider_profile" (pf_id row) plaintext (ac_secrets a) with
  | Err _ => Err UNEXPECTED
  | Ok (s, d) =>
      Ok (a <| ac_secrets := d |> <| ac_rows ::= fun l => l ++ [mkProfile (row <| pf_encrypted_secret_id := Some (es_id s) |>) owner name settings None] |>)
  end.

Definition create_profile (b : ProviderProfileIn) (id : uuid) (r : Random) (now : instant) (a : Accounts) : Result PlatformError Accounts :=
  if existsb (same_name b) (ac_rows a) then Err (conflict "DUPLICATE_PROVIDER_PROFILE" [])
  else
    a' ← add_row (mkProfileRow id (pi_provider b) None (JList (map JStr (pi_allowed_models b))) (JObj (pi_budgets b)) (pi_enabled b) "UNTESTED" now)
           (pi_user_id b) (pi_display_name b) [] r (chars (pi_api_key b)) a;
    Ok (audited "user" (uuid_str (pi_user_id b)) ("connection." +:+ pi_provider b +:+ ".saved") id "success" (JObj []) a').

Definition delete_profile (id user : uuid) (a : Accounts) : Result PlatformError Accounts :=
  match find_row id a with
  | Some r =>
      if is_cloud (pw_provider r) then
        Ok (audited "user" (uuid_str user) ("connection." +:+ pw_provider r +:+ ".deleted") id "success" (JObj []) (remove_row r a))
      else Err (not_found (uuid_str id))
  | None => Err (not_found (uuid_str id))
  end.

(** [list_connections], the part of one cloud provider *)
Record ConnectionStatus := mkStatus { sx_status : string; sx_granted : list string; sx_checked : option instant; sx_untested : bool }.
Definition max_checked (l : list ProfileRow) : option instant :=
  foldr (fun r m => match pw_checked r, m with Some t, Some u => Some (Z.max t u) | Some t, None => Some t | None, _ => m end) None l.
Definition provider_status (provider : string) (a : Accounts) : ConnectionStatus :=
  let mine := List.filter (fun r => String.eqb (pw_provider r) provider) (ac_rows a) in
  let usable := List.filter (fun r => pf_enabled (pw_row r) && negb (String.eqb (pf_status (pw_row r)) "ERROR")) mine in
  mkStatus
    (match usable, mine with
     | _ :: _, _ => "CONNECTED"
     | [], [] => "NOT_CONNECTED"
     | [], _ => if existsb (fun r => pf_enabled (pw_row r)) mine then "NEEDS_ATTENTION" else "DISABLED"
     end)
    (match usable with [] => [] | _ => ["cloud." +:+ provider] end)
    (max_checked mine)
    (match usable with [] => false | _ => forallb (fun r => String.eqb (pf_status (pw_row r)) "UNTESTED") usable end).

(** ** The test of a key by the gateway *)

(** What the adapter's [verify] comes to: accepted, or an error with the status of the provider. *)
Inductive Verdict := Accepted | Rejected (provider_status : option Z).

Record KeyTest := mkKeyTest { kt_id : uuid; kt_profile : CloudProfile; kt_previous : string }.

Definition key_test_begin (id : uuid) (a : Accounts) : Result PlatformError KeyTest :=
  match find_row id a with
  | Some r => if is_cloud (pw_provider r) then Ok (mkKeyTest id (from_row (pw_row r)) (pf_status (pw_row r))) else Err (not_found (uuid_str id))
  | None => Err (not_found (uuid_str id))
  end.

(** The status and whether it is definite; [None]: no key could be read. *)
Definition judged (v : option Verdict) : string * bool :=
  match v with
  | None => ("ERROR"%string, true)
  | Some Accepted => ("CONNECTED"%string, false)
  | Some (Rejected st) => ("ERROR"%string, match st with Some n => (n =? 401) || (n =? 403) | None => false end)
  end.

Definition forget (sid : option uuid) (a : Accounts) : Accounts := match sid with Some sid => a <| ac_cache ::= delete sid |> | None => a <| ac_cache := ∅ |> end.

Definition key_test_end (t : KeyTest) (v : option Verdict) (checked : instant) (a : Accounts) : Result PlatformError (string * Accounts) :=
  let a := forget (cp_secret_id (kt_profile t)) a in
  let '(status, definite) := judged v in
  let transient := String.eqb status "ERROR" && negb definite && String.eqb (kt_previous t) "CONNECTED" in
  let stored := if transient then kt_previous t else status in
  match find_row (kt_id t) a with
  | None => Err (not_found (uuid_str (kt_id t)))
  | Some _ =>
      Ok (status,
          audited "service" "model-gateway" ("connection." +:+ cp_provider (kt_profile t) +:+ ".tested") (kt_id t)
            (if String.eqb status "CONNECTED" then "success" else "failure") (JObj [("status", JStr status)]%string)
            (update_row (kt_id t) (fun r => r <| pw_row ::= fun p => p <| pf_status := stored |> |> <| pw_checked := Some checked |>) a))
  end.

(** ** The Twilio account *)

(** [ACCOUNT_SID.match] *)
Definition is_account_sid (s : text) : bool :=
  match s with
  | a :: c :: s' =>
      Ascii.eqb a "A" && Ascii.eqb c "C" && let '(digits, rest) := take_upto 32 hex_digit_char s' in Nat.eqb (length digits) 32 && at_end rest
  | _ => false
  end.
Definition last4 (s : string) : string := unchars (drop (String.length s - 4) (chars s)).

(** [_profile] *)
Definition twilio_profile (a : Accounts) : option ProfileRow := List.find (fun r => String.eqb (pw_provider r) "twilio") (ac_rows a).

Definition twilio_text (sid token from : string) : text :=
  chars (json_dumps ", " ": " false (JObj [("accountSid", JStr sid); ("authToken", JStr token); ("fromNumber", JStr from)]%string)).

(** [configure], up to the test *)
Definition configure (user : uuid) (sid token from : string) (id : uuid) (r : Random) (now : instant) (a : Accounts) : Result PlatformError Accounts :=
  if negb (is_account_sid (chars sid)) || negb (is_e164 (chars from)) || negb (length_in 16 128 token) then Err (invalid "INVALID_INPUT" [])
  else
    let settings := [("accountSidSuffix", JStr (last4 sid)); ("fromLast4", JStr (last4 from))]%string in
    let saved id a := audited "user" (uuid_str user) "connection.twilio.saved" id "success" (JObj []) a in
    match twilio_profile a with
    | None =>
        a' ← add_row (mkProfileRow id "twilio" None (JList []) (JObj []) true "UNTESTED" now) user "Twilio" settings r (twilio_text sid token from) a;
        Ok (saved id a')
    | Some p =>
        match pf_encrypted_secret_id (pw_row p) with
        | None => Err UNEXPECTED
        | Some secret =>
            match replace keyring r secret (twilio_text sid token from) (ac_secrets a) with
            | Err _ => Err UNEXPECTED
            | Ok (_, d) =>
                Ok (saved (pw_id p) (update_row (pw_id p) (fun x => x <| pw_settings := settings |> <| pw_row ::= fun y => y <| pf_status := "UNTESTED"%string |> |>)
                                       (a <| ac_secrets := d |>)))
            end
        end
    end.

(** [_credentials]: the text that [json.loads] reads. *)
Definition credentials (a : Accounts) : Result PlatformError text :=
  match twilio_profile a with
  | Some p =>
      match pf_encrypted_secret_id (pw_row p) with
      | Some sid =>
          if pf_enabled (pw_row p) then match load keyring sid "twilio" (ac_secrets a) with Ok raw => Ok raw | Err _ => Err (needs_connection "twilio") end
          else Err (needs_connection "twilio")
      | None => Err (needs_connection "twilio")
      end
  | None => Err (needs_connection "twilio")
  end.

Definition twilio_checked (ok : bool) (now : instant) (a : Accounts) : Result PlatformError (uuid * Accounts) :=
  match twilio_profile a with
  | None => Err UNEXPECTED
  | Some p =>
      Ok (pw_id p, update_row (pw_id p) (fun r => r <| pw_row ::= fun y => y <| pf_status := if ok then "CONNECTED"%string else "ERROR"%string |> |>
                                                      <| pw_checked := Some now |>) a)
  end.

Definition disconnect_twilio (user : uuid) (a : Accounts) : Accounts :=
  match twilio_profile a with
  | None => a
  | Some p => audited "user" (uuid_str user) "connection.twilio.disconnected" (pw_id p) "success" (JObj []) (remove_row p a)
  end.

Definition twilio_status (a : Accounts) : ConnectionStatus :=
  match twilio_profile a with
  | None => mkStatus "NOT_CONNECTED" [] None false
  | Some p =>
      let status := if negb (pf_enabled (pw_row p)) then "DISABLED"%string
                    else if String.eqb (pf_status (pw_row p)) "CONNECTED" then "CONNECTED"%string else "NEEDS_ATTENTION"%string in
      mkStatus status (if String.eqb status "CONNECTED" then ["call.fixed_script"%string] else []) (pw_checked p) false
  end.

(** [test_call] up to the credentials: the destination and the interval. *)
Definition test_call_begin (allowed : text -> bool) (to : text) (now : instant) (a : Accounts) : Result PlatformError unit :=
  if negb (is_e164 to) then Err (invalid "INVALID_REQUEST" [])
  else if negb (allowed to) then Err (permission_denied [("to", JStr (unchars (mask_phone to)))]%string)
  else if now - ac_last_test_call a <? seconds TEST_CALL_INTERVAL_SECONDS then
    Err (mkError "RATE_LIMITED" 429 [("retryAfterSeconds", JNum TEST_CALL_INTERVAL_SECONDS)]%string)
  else Ok tt.
Definition test_call_end (user : uuid) (to : text) (status : Z) (now : instant) (a : Accounts) : Result PlatformError Accounts :=
  '(id, a') ← twilio_checked (status <? 300) now a;
  Ok (audited "user" (uuid_str user) "connection.twilio.test_call" id (if status <? 300 then "success" else "failure")
        (JObj [("to", JStr (unchars (mask_phone to))); ("providerStatus", JNum status)]%string) a').

(** ** The process *)

(** A task at an await: the test of a key, of the Twilio account, and a test call, whose interval was
    checked at the given time. *)
Inductive Task :=
| KeyReading (t : KeyTest)
| KeyVerifying (t : KeyTest)
| KeyEnding (t : KeyTest) (v : option Verdict)
| TwilioReading
| TwilioVerifying
| TwilioEnding (ok : bool)
| CallReading (user : uuid) (to : text) (checked : instant)
| CallDialing (user : uuid) (to : text)
| CallEnding (user : uuid) (to : text) (status : Z)
| Over.

(** The accounts, the tasks, the clock, the last secret text stored for each account, and when test
    calls were placed. *)
Record World := mkWorld {
  w_ac : Accounts;
  w_tasks : list Task;
  w_now : instant;
  w_keys : gmap uuid text;
  w_dialed : list instant
}.
#[export] Instance eta_World : Eta World := fun w => mkWorld (w_ac w) (w_tasks w) (w_now w) (w_keys w) (w_dialed w).
Definition world0 (d : Secrets) : World := mkWorld (accounts0 d) [] 0 ∅ [].

Inductive Event :=
| Creates (b : ProviderProfileIn) (id : uuid) (r : Random)
| Removes (id user : uuid)
| TestsKey (id : uuid)
| Configures (user : uuid) (sid token from : string) (id : uuid) (r : Random)
| TestsTwilio
| Disconnects (user : uuid)
| Calls (user : uuid) (to : text)
| Asks (provider : string)                    (* the gateway needs a key for a call *)
| Reads (i : nat)
| Judges (i : nat) (v : Verdict)
| Ends (i : nat)
| Answers (i : nat) (status : option Z)       (* Twilio's, [None] when it is unreachable *)
| Passes (n : Z)
| Elsewhere (d : Secrets).

Definition profile_secrets (d : Secrets) : gmap uuid EncryptedSecret :=
  filter (fun ks => String.eqb (es_owner_type ks.2) "provider_profile" = true) (sd_rows d).
#[export] Instance EncryptedSecret_eq : EqDecision EncryptedSecret.
Proof. solve_decision. Defined.

Section process.
Context (cache_time : Z) (allowed : text -> bool).

Definition spawn (t : Task) (w : World) : World := w <| w_tasks ::= fun l => l ++ [t] |>.
Definition set_task (i : nat) (t : Task) (w : World) : World := w <| w_tasks ::= <[i := t]> |>.
Definition with_accounts (r : Result PlatformError Accounts) (w : World) : World := match r with Ok a => w <| w_ac := a |> | Err _ => w end.

(** The reads of the tests: the key without the cache, the credentials. *)
Definition on_read (i : nat) (t : Task) (w : World) : option World :=
  let a := w_ac w in
  match t with
  | KeyReading kt =>
      let p := kt_profile kt in
      let '(key, cache) := api_key keyring cache_time (cp_provider p) (Some p) false (w_now w) [] (ac_secrets a) (ac_cache a) in
      let w := w <| w_ac := a <| ac_cache := cache |> |> in
      Some (set_task i (match key with Some (_ :: _) => KeyVerifying kt | _ => KeyEnding kt None end) w)
  | TwilioReading => Some (set_task i (match credentials a with Ok _ => TwilioVerifying | Err _ => Over end) w)
  | CallReading user to checked =>
      Some match credentials a with
           | Ok _ => set_task i (CallDialing user to) (w <| w_ac := a <| ac_last_test_call := checked |> |> <| w_dialed ::= cons (w_now w) |>)
           | Err _ => set_task i Over w
           end
  | _ => None
  end.

Definition on_end (i : nat) (t : Task) (w : World) : option World :=
  let a := w_ac w in
  match t with
  | KeyEnding kt v => Some (set_task i Over (match key_test_end kt v (w_now w) a with Ok (_, a') => w <| w_ac := a' |> | Err _ => w <| w_ac := forget (cp_secret_id (kt_profile kt)) a |> end))
  | TwilioEnding ok => Some (set_task i Over (match twilio_checked ok (w_now w) a with Ok (_, a') => w <| w_ac := a' |> | Err _ => w end))
  | CallEnding user to status => Some (set_task i Over (with_accounts (test_call_end user to status (w_now w) a) w))
  | _ => None
  end.

Definition step (ev : Event) (w : World) : option World :=
  let a := w_ac w in
  let task i (k : Task -> option World) := match w_tasks w !! i with Some t => k t | None => None end in
  match ev with
  | Creates b id r =>
      if profile_in_ok b && bool_decide (w_keys w !! id = None) then
        Some match create_profile b id r (w_now w) a with
             | Ok a' => w <| w_ac := a' |> <| w_keys ::= <[id := chars (pi_api_key b)]> |>
             | Err _ => w
             end
      else None
  | Removes id user => Some (with_accounts (delete_profile id user a) w)
  | TestsKey id => Some match key_test_begin id a with Ok t => spawn (KeyReading t) w | Err _ => w end
  | Configures user sid token from id r =>
      if bool_decide (w_keys w !! id = None) then
        Some match configure user sid token from id r (w_now w) a with
             | Ok a' =>
                 let saved := match twilio_profile a with Some p => pw_id p | None => id end in
                 spawn TwilioReading (w <| w_ac := a' |> <| w_keys ::= <[saved := twilio_text sid token from]> |>)
             | Err _ => w
             end
      else None
  | TestsTwilio => Some (spawn TwilioReading w)
  | Disconnects user => Some (w <| w_ac := disconnect_twilio user a |>)
  | Calls user to => Some match test_call_begin allowed to (w_now w) a with Ok _ => spawn (CallReading user to (w_now w)) w | Err _ => w end
  | Asks provider =>
      let '(_, cache) := api_key keyring cache_time provider None true (w_now w) (map pw_row (ac_rows a)) (ac_secrets a) (ac_cache a) in
      Some (w <| w_ac := a <| ac_cache := cache |> |>)
  | Reads i => task i (fun t => on_read i t w)
  | Judges i v => task i (fun t => match t with KeyVerifying kt => Some (set_task i (KeyEnding kt (Some v)) w) | _ => None end)
  | Ends i => task i (fun t => on_end i t w)
  | Answers i status => task i (fun t =>
      match t with
      | TwilioVerifying => Some (set_task i (TwilioEnding (bool_decide (status = Some 200))) w)
      | CallDialing user to => Some (set_task i (match status with Some n => CallEnding user to n | None => Over end) w)
      | _ => None
      end)
  | Passes n => if 0 <=? n then Some (w <| w_now ::= Z.add n |>) else None
  | Elsewhere d =>
      if bool_decide (profile_secrets d = profile_secrets (ac_secrets a)) && bool_decide (sd_fresh (ac_secrets a) <= sd_fresh d)%N
      then Some (w <| w_ac := a <| ac_secrets := d |> |>) else None
  end.
End process.
End accounts.
