(* ===== verification/ProfilesProps.v ===== *)
(** * Theorems of the provider accounts

    Every account keeps its own secret through all histories, the gateway reads the key that was saved,
    and what the owner sees as connected is what the gateway uses. *)

From S2P Require Import Prelude Json Redaction PyValue JsonText Platform Capability Telephony SecretStore Pagination Inference Profiles.
From Stdlib Require Import Ascii.
#[local] Open Scope Z_scope.

Section props.
Context {A : Aead} {Used : list ascii -> Prop} {AL : AeadLaws A Used} (keyring : Keyring) (Hkeyring : kr_ok keyring).

Definition name_of (r : ProfileRow) : uuid * string * string := (pw_owner r, pw_provider r, pw_name r).

Record row_ok (secrets : Secrets) (keys : gmap uuid text) (r : ProfileRow) (sid : uuid) (s : EncryptedSecret) (key : text) : Prop := {
  ro_secret : pf_encrypted_secret_id (pw_row r) = Some sid;
  ro_row : profile_secrets secrets !! sid = Some s;
  ro_owner : es_owner_id s = pw_id r;
  ro_key : keys !! pw_id r = Some key;
  ro_loads : load keyring sid (pw_provider r) secrets = Ok key;
  ro_utf8 : is_cloud (pw_provider r) = true -> utf8_valid key = true /\ key <> [];
  ro_known : pw_provider r <> "twilio"%string -> is_cloud (pw_provider r) = true
}.

Record Rows (rows : list ProfileRow) (secrets : Secrets) (keys : gmap uuid text) : Prop := {
  rw_ids : NoDup (map pw_id rows);
  rw_names : NoDup (map name_of rows);
  rw_rows : forall r, r ∈ rows -> exists sid s key, row_ok secrets keys r sid s key;
  rw_secrets : forall sid s, profile_secrets secrets !! sid = Some s ->
    (sid < sd_fresh secrets)%N /\ exists r, r ∈ rows /\ pw_id r = es_owner_id s /\ pf_encrypted_secret_id (pw_row r) = Some sid
}.
Definition Inv (w : World) : Prop := Rows (ac_rows (w_ac w)) (ac_secrets (w_ac w)) (w_keys w).

Lemma row_unique rows x y : NoDup (map pw_id rows) -> x ∈ rows -> y ∈ rows -> pw_id x = pw_id y -> x = y.
Proof.
  induction rows as [|r rows IH]; [by intros _ ?%elem_of_nil|]. cbn. intros [Hr Hn]%NoDup_cons [->|Hx]%elem_of_cons [->|Hy]%elem_of_cons E; [done| | |by apply IH];
    destruct Hr; apply list_elem_of_fmap; eauto.
Qed.

Lemma profile_row sid s d : profile_secrets d !! sid = Some s <-> sd_rows d !! sid = Some s /\ String.eqb (es_owner_type s) "provider_profile" = true.
Proof. unfold profile_secrets. by rewrite map_lookup_filter_Some. Qed.

Lemma load_same d d' sid p : sd_rows d' !! sid = sd_rows d !! sid -> load keyring sid p d' = load keyring sid p d.
Proof. unfold load. by intros ->. Qed.

Lemma row_ok_mono d d' keys keys' r sid s key :
  row_ok d keys r sid s key -> sd_rows d' !! sid = sd_rows d !! sid -> keys' !! pw_id r = keys !! pw_id r -> row_ok d' keys' r sid s key.
Proof.
  intros [H1 H2 H3 H4 H5 H6 H7] Hd Hk. split; try done; [|congruence|by rewrite (load_same d)].
  apply profile_row. apply profile_row in H2 as [H2 Ht]. split; [congruence|done].
Qed.

(** The secret a new row is given. *)
Lemma stored_loads r provider id p d s d' :
  random_ok r -> store keyring r provider "provider_profile" id p d = Ok (s, d') ->
  es_id s = sd_fresh d /\ sd_rows d' = <[sd_fresh d := s]> (sd_rows d) /\ sd_fresh d' = N.succ (sd_fresh d) /\
  String.eqb (es_owner_type s) "provider_profile" = true /\ es_owner_id s = id /\ load keyring (sd_fresh d) provider d' = Ok p.
Proof.
  intros Hr. unfold store, bind, get, lift. destruct (sealed _ _ _ _) as [s0|] eqn:Hs; [|done]. cbn. unfold guard. destruct (_ && _ && _); [|done].
  cbn. intros [= <- <-]. pose proof Hs as Hs'. unfold sealed in Hs. destruct (encrypt _ _ _ _) as [blob|] eqn:Hb in Hs; [|done]. cbn in Hs. injection Hs as <-.
  cbn. split_and!; [done..|]. unfold load. cbn. rewrite lookup_insert_eq. cbn. rewrite String.eqb_refl.
  apply sealed_ok in Hs' as (_ & _ & He & _). by destruct (decrypt_encrypt keyring keyring r p _ _ Hkeyring Hr eq_refl He) as (_ & ? & _).
Qed.

Lemma replaced_loads r sid p d s d' :
  random_ok r -> sd_rows d !! sid = Some s -> replace keyring r sid p d = Ok (tt, d') ->
  exists s', sd_rows d' = <[sid := s']> (sd_rows d) /\ sd_fresh d' = sd_fresh d /\ es_owner_type s' = es_owner_type s /\
    es_owner_id s' = es_owner_id s /\ load keyring sid (es_provider s) d' = Ok p.
Proof.
  intros Hr Hs. unfold replace, bind, get, lift. rewrite Hs. destruct (sealed _ _ _ _) as [s0|] eqn:E; [|done]. cbn. unfold guard. destruct (fits_column _); [|done].
  cbn. intros [= <-]. exists s0. pose proof E as E'. unfold sealed in E. destruct (encrypt _ _ _ _) as [blob|] eqn:Hb in E; [|done]. cbn in E. injection E as <-.
  split_and!; try done. unfold load. cbn. rewrite lookup_insert_eq. cbn. rewrite String.eqb_refl.
  apply sealed_ok in E' as (_ & _ & He & _). by destruct (decrypt_encrypt keyring keyring r p _ _ Hkeyring Hr eq_refl He) as (_ & ? & _).
Qed.

Lemma load_provider sid p d key s : load keyring sid p d = Ok key -> sd_rows d !! sid = Some s -> es_provider s = p.
Proof. unfold load. intros H Hs. rewrite Hs in H. destruct (String.eqb _ _) eqn:E; [|done]. by apply String.eqb_eq. Qed.

Lemma rows_add rows d keys row owner name settings r p d' s :
  Rows rows d keys -> random_ok r -> keys !! pf_id row = None -> (owner, pf_provider row, name) ∉ map name_of rows ->
  (is_cloud (pf_provider row) = true -> utf8_valid p = true /\ p <> []) -> (pf_provider row <> "twilio"%string -> is_cloud (pf_provider row) = true) ->
  store keyring r (pf_provider row) "provider_profile" (pf_id row) p d = Ok (s, d') ->
  Rows (rows ++ [mkProfile (row <| pf_encrypted_secret_id := Some (es_id s) |>) owner name settings None]) d' (<[pf_id row := p]> keys).
Proof.
  intros [H1 H2 H3 H4] Hr Hk Hn Hu Hkn Hs. destruct (stored_loads _ _ _ _ _ _ _ Hr Hs) as (E1 & E2 & E3 & E4 & E5 & E6). rewrite E1.
  assert (Hid : pf_id row ∉ map pw_id rows).
  { intros (x & Ex & Hx)%list_elem_of_fmap. destruct (H3 _ Hx) as (sid & s' & key & [_ _ _ Hkey _ _ _]). congruence. }
  split.
  - rewrite map_app. apply NoDup_app. split; [done|]. split; [|apply NoDup_singleton]. intros x Hx ->%list_elem_of_singleton. done.
  - rewrite map_app. apply NoDup_app. split; [done|]. split; [|apply NoDup_singleton]. intros x Hx ->%list_elem_of_singleton. done.
  - intros x [Hx| ->%list_elem_of_singleton]%elem_of_app.
    + destruct (H3 _ Hx) as (sid & s' & key & Hok). exists sid, s', key. eapply row_ok_mono; [exact Hok| |].
      * rewrite E2, lookup_insert_ne; [done|]. intros <-. destruct Hok as [_ Hrow _ _ _ _ _]. destruct (H4 _ _ Hrow). lia.
      * rewrite lookup_insert_ne; [done|]. intros E. apply Hid. rewrite E. apply list_elem_of_fmap. by exists x.
    + exists (sd_fresh d), s, p. split; cbn; try done; [|by rewrite lookup_insert_eq]. apply profile_row. by rewrite E2, lookup_insert_eq.
  - intros sid x [Hx Ht]%profile_row. rewrite E2 in Hx. apply lookup_insert_Some in Hx as [[<- <-]|[Hne Hx]].
    + split; [rewrite E3; lia|]. eexists. split; [apply elem_of_app; right; by left|]. done.
    + destruct (H4 sid x) as (Hlt & y & Hy & ?); [by apply profile_row|]. split; [rewrite E3; lia|]. exists y. split; [apply elem_of_app; by left|done].
Qed.

Lemma rows_remove rows d keys r sid :
  Rows rows d keys -> r ∈ rows -> pf_encrypted_secret_id (pw_row r) = Some sid ->
  Rows (List.filter (fun x => negb (pw_id x =? pw_id r)%N) rows) (match delete_secret sid d with Ok (_, d') => d' | Err _ => d end) keys.
Proof.
  intros [H1 H2 H3 H4] Hr Hsid. cbn.
  assert (Hf : forall x, x ∈ List.filter (fun x => negb (pw_id x =? pw_id r)%N) rows <-> x ∈ rows /\ pw_id x <> pw_id r).
  { intros x. rewrite list_elem_of_In, filter_In, <- list_elem_of_In, negb_true_iff, N.eqb_neq. done. }
  assert (Hsub : forall B (f : ProfileRow -> B), NoDup (map f rows) -> NoDup (map f (List.filter (fun x => negb (pw_id x =? pw_id r)%N) rows))).
  { intros B f. clear. induction rows as [|x l IH]; [done|]. cbn. intros [Hx Hl]%NoDup_cons. destruct (negb _); [|by apply IH]. cbn. apply NoDup_cons. split; [|by apply IH].
    intros (y & Ey & Hy)%list_elem_of_fmap. apply Hx. apply list_elem_of_fmap. exists y. split; [done|]. apply list_elem_of_In. apply list_elem_of_In in Hy. by apply filter_In in Hy as [? _]. }
  destruct (H3 _ Hr) as (sid0 & s0 & key0 & [K1 K2 K3 K4 K5 K6 K7]). rewrite Hsid in K1. injection K1 as <-.
  split; [by apply Hsub|by apply Hsub| |].
  - intros x [Hx Hne]%Hf. destruct (H3 _ Hx) as (i & s & key & Hok). exists i, s, key. eapply row_ok_mono; [exact Hok| |done].
    cbn. rewrite lookup_delete_ne; [done|]. intros <-. destruct Hok as [_ Hrow Ho _ _ _ _]. congruence.
  - intros i s [Hi Ht]%profile_row. cbn in Hi. apply lookup_delete_Some in Hi as [Hne Hi].
    destruct (H4 i s) as (Hlt & x & Hx & Ho & Hsec); [by apply profile_row|]. split; [done|]. exists x. split; [|done]. apply Hf. split; [done|].
    intros E. apply Hne. rewrite (row_unique _ _ _ H1 Hx Hr E) in Hsec. congruence.
Qed.

Lemma rows_update rows d keys id f :
  (forall r, pw_id (f r) = pw_id r /\ pw_provider (f r) = pw_provider r /\ pf_encrypted_secret_id (pw_row (f r)) = pf_encrypted_secret_id (pw_row r) /\
     pw_owner (f r) = pw_owner r /\ pw_name (f r) = pw_name r) ->
  Rows rows d keys -> Rows (map (fun r => if (pw_id r =? id)%N then f r else r) rows) d keys.
Proof.
  intros Hf [H1 H2 H3 H4]. set (g := fun r => if (pw_id r =? id)%N then f r else r).
  assert (Hg : forall r, pw_id (g r) = pw_id r /\ pw_provider (g r) = pw_provider r /\ pf_encrypted_secret_id (pw_row (g r)) = pf_encrypted_secret_id (pw_row r) /\ name_of (g r) = name_of r).
  { intros r. unfold g. destruct (_ =? _)%N; [|done]. destruct (Hf r) as (E1 & E2 & E3 & E4 & E5). unfold name_of. by rewrite E1, E2, E3, E4, E5. }
  assert (Hid : map pw_id (map g rows) = map pw_id rows) by (rewrite map_map; apply map_ext; intros r; apply Hg).
  assert (Hname : map name_of (map g rows) = map name_of rows) by (rewrite map_map; apply map_ext; intros r; apply Hg).
  split; [by rewrite Hid|by rewrite Hname| |].
  - intros x (r & -> & Hr)%list_elem_of_fmap. destruct (H3 _ Hr) as (sid & s & key & [K1 K2 K3 K4 K5 K6 K7]). destruct (Hg r) as (E1 & E2 & E3 & _).
    exists sid, s, key. split; rewrite ?E1, ?E2, ?E3; done.
  - intros sid s Hs. destruct (H4 _ _ Hs) as (Hlt & r & Hr & Ho & Hsec). split; [done|]. exists (g r). destruct (Hg r) as (E1 & _ & E3 & _).
    split; [|by rewrite E1, E3]. apply list_elem_of_fmap. by exists r.
Qed.

Lemma rows_elsewhere rows d d' keys :
  profile_secrets d' = profile_secrets d -> (sd_fresh d <= sd_fresh d')%N -> Rows rows d keys -> Rows rows d' keys.
Proof.
  intros Hp Hf [H1 H2 H3 H4]. split; try done.
  - intros r Hr. destruct (H3 _ Hr) as (sid & s & key & Hok). exists sid, s, key. eapply row_ok_mono; [exact Hok| |done].
    destruct Hok as [_ Hrow _ _ _ _ _]. pose proof Hrow as Hrow'. rewrite <- Hp in Hrow'. apply profile_row in Hrow as [-> _]. by apply profile_row in Hrow' as [-> _].
  - intros sid s. rewrite Hp. intros Hs. destruct (H4 _ _ Hs) as [? ?]. split; [lia|done].
Qed.

(** The Twilio credentials are replaced. *)
Lemma rows_replace rows d keys r sid rnd p d' :
  Rows rows d keys -> r ∈ rows -> pf_encrypted_secret_id (pw_row r) = Some sid -> random_ok rnd -> pw_provider r = "twilio"%string ->
  replace keyring rnd sid p d = Ok (tt, d') -> Rows rows d' (<[pw_id r := p]> keys).
Proof.
  intros [H1 H2 H3 H4] Hr Hsid Hrnd Htw Hrep. destruct (H3 _ Hr) as (sid0 & s0 & key0 & [K1 K2 K3 K4 K5 K6 K7]). rewrite Hsid in K1. injection K1 as <-.
  pose proof K2 as Hrow. apply profile_row in Hrow as [Hrow Ht]. destruct (replaced_loads _ _ _ _ _ _ Hrnd Hrow Hrep) as (s' & E1 & E2 & E3 & E4 & E5).
  rewrite (load_provider _ _ _ _ _ K5 Hrow) in E5. split; try done.
  - intros x Hx. destruct (decide (pw_id x = pw_id r)) as [E|Hne].
    + rewrite (row_unique _ _ _ H1 Hx Hr E).
      exists sid, s', p. split; try done; [|congruence|by rewrite lookup_insert_eq|by rewrite Htw].
      apply profile_row. rewrite E1, lookup_insert_eq, E3. done.
    + destruct (H3 _ Hx) as (i & s & key & Hok). exists i, s, key. eapply row_ok_mono; [exact Hok| |by rewrite lookup_insert_ne].
      rewrite E1, lookup_insert_ne; [done|]. intros <-. destruct Hok as [_ Hi Ho _ _ _ _]. congruence.
  - intros i s [Hi Hti]%profile_row. rewrite E1 in Hi. rewrite E2. apply lookup_insert_Some in Hi as [[<- <-]|[_ Hi]].
    + rewrite E4. by apply H4.
    + apply H4. by apply profile_row.
Qed.

(** ** Histories *)

Context (cache_time : Z) (allowed : text -> bool).

Definition sound (ev : Event) : Prop :=
  match ev with Creates _ _ r | Configures _ _ _ _ _ r => random_ok r | _ => True end.

Lemma find_row_in id a r : find_row id a = Some r -> r ∈ ac_rows a /\ pw_id r = id.
Proof. intros [H E]%find_some. split; [by apply list_elem_of_In|by apply N.eqb_eq]. Qed.
Lemma twilio_in a r : twilio_profile a = Some r -> r ∈ ac_rows a /\ pw_provider r = "twilio"%string.
Proof. intros [H E]%find_some. split; [by apply list_elem_of_In|by apply String.eqb_eq]. Qed.

Lemma remove_rows r a keys :
  Rows (ac_rows a) (ac_secrets a) keys -> r ∈ ac_rows a -> Rows (ac_rows (remove_row r a)) (ac_secrets (remove_row r a)) keys.
Proof.
  intros HR Hr. destruct (rw_rows _ _ _ HR _ Hr) as (sid & s & key & Hok). pose proof (ro_secret _ _ _ _ _ _ Hok) as Hs.
  pose proof (rows_remove _ _ _ _ _ HR Hr Hs) as H. unfold remove_row, without_secret. by rewrite Hs.
Qed.

Lemma profile_created b id r now a a' keys :
  Rows (ac_rows a) (ac_secrets a) keys -> random_ok r -> profile_in_ok b = true -> keys !! id = None -> create_profile keyring b id r now a = Ok a' ->
  Rows (ac_rows a') (ac_secrets a') (<[id := chars (pi_api_key b)]> keys).
Proof.
  intros HR Hr Hb Hk. unfold create_profile. destruct (existsb _ _) eqn:Hex; [done|]. unfold add_row.
  destruct (store _ _ _ _ _ _ _) as [[s d]|] eqn:Hs; [|done]. cbn. intros [= <-]. cbn.
  unfold profile_in_ok in Hb. reflect_all.
  eapply (rows_add _ _ _ (mkProfileRow id (pi_provider b) None _ _ _ _ _)); [exact HR|exact Hr|exact Hk| | |done|exact Hs].
  - intros (x & Ex & Hx)%list_elem_of_fmap. injection Ex as E1 E2 E3. apply not_true_iff_false in Hex. apply Hex, existsb_exists.
    exists x. split; [by apply list_elem_of_In|]. unfold same_name. cbn in *. by rewrite <- E1, <- E2, <- E3, N.eqb_refl, !String.eqb_refl.
  - intros _. split; [done|]. destruct (pi_api_key b); [|done]. unfold length_in in *. cbn in *. reflect_all. lia.
Qed.

Lemma configure_ok user sid token from id r now a a' keys :
  Rows (ac_rows a) (ac_secrets a) keys -> random_ok r -> keys !! id = None -> configure keyring user sid token from id r now a = Ok a' ->
  Rows (ac_rows a') (ac_secrets a') (<[match twilio_profile a with Some p => pw_id p | None => id end := twilio_text sid token from]> keys).
Proof.
  intros HR Hr Hk. unfold configure. destruct (_ || _); [done|]. destruct (twilio_profile a) as [p|] eqn:Hp.
  - apply twilio_in in Hp as [Hp Htw]. destruct (pf_encrypted_secret_id (pw_row p)) as [secret|] eqn:Hs; [|done].
    destruct (replace _ _ _ _ _) as [[[] d]|] eqn:Hrep; [|done]. intros [= <-]. cbn.
    apply rows_update; [done|]. by eapply rows_replace.
  - unfold add_row. destruct (store _ _ _ _ _ _ _) as [[s d]|] eqn:Hs; [|done]. cbn. intros [= <-]. cbn.
    eapply (rows_add _ _ _ (mkProfileRow id "twilio" None _ _ _ _ _)); [exact HR|exact Hr|exact Hk| |done|done|exact Hs].
    intros (x & Ex & Hx)%list_elem_of_fmap. injection Ex as E1 E2 E3. apply list_elem_of_In in Hx.
    pose proof (find_none _ _ Hp _ Hx) as Hn. cbn in Hn. rewrite <- E2 in Hn. done.
Qed.

Lemma key_test_rows t v checked a st a' keys :
  Rows (ac_rows a) (ac_secrets a) keys -> key_test_end t v checked a = Ok (st, a') -> Rows (ac_rows a') (ac_secrets a') keys.
Proof.
  intros HR. unfold key_test_end. destruct (judged v) as [status definite]. destruct (find_row _ _); [|done]. intros [= <- <-].
  unfold forget. destruct (cp_secret_id _); cbn; by apply rows_update.
Qed.
Lemma twilio_checked_rows ok now a id a' keys :
  Rows (ac_rows a) (ac_secrets a) keys -> twilio_checked ok now a = Ok (id, a') -> Rows (ac_rows a') (ac_secrets a') keys.
Proof. intros HR. unfold twilio_checked. destruct (twilio_profile a); [|done]. intros [= <- <-]. cbn. by apply rows_update. Qed.

Lemma accounts_step_ok ev w w' : Inv w -> sound ev -> step keyring cache_time allowed ev w = Some w' -> Inv w'.
Proof.
  unfold Inv. intros HI Hok H. destruct ev; cbn [step] in H; unfold on_read, on_end, with_accounts in H; cbv zeta in H.
  - destruct (profile_in_ok b && _) eqn:E; [|done]. reflect_all. injection H as <-. destruct (create_profile _ _ _ _ _ _) eqn:Hc; [|done]. cbn. by eapply profile_created.
  - injection H as <-. unfold delete_profile. destruct (find_row id (w_ac w)) as [r|] eqn:Hf; [|done]. destruct (is_cloud _); [|done]. cbn.
    apply remove_rows; [done|by eapply find_row_in].
  - injection H as <-. by destruct (key_test_begin _ _).
  - destruct (bool_decide _) eqn:E; [|done]. reflect_all. injection H as <-. destruct (configure _ _ _ _ _ _ _ _ _) eqn:Hc; [|done]. by eapply configure_ok.
  - by injection H as <-.
  - injection H as <-. cbn. unfold disconnect_twilio. destruct (twilio_profile _) as [p|] eqn:Hp; [|done]. cbn. apply remove_rows; [done|by eapply twilio_in].
  - injection H as <-. by destruct (test_call_begin _ _ _ _).
  - destruct (api_key _ _ _ _ _ _ _ _ _). by injection H as <-.
  - destruct (w_tasks w !! i) as [t|]; [|done]. destruct t; try done.
    + destruct (api_key _ _ _ _ _ _ _ _ _). by injection H as <-.
    + by injection H as <-.
    + injection H as <-. by destruct (credentials _ _).
  - destruct (w_tasks w !! i) as [t|]; [|done]. destruct t; try done. by injection H as <-.
  - destruct (w_tasks w !! i) as [t|]; [|done]. destruct t as [| |kt v| | |ok| | |user to st|]; try done; injection H as <-.
    + destruct (key_test_end _ _ _ _) as [[st a']|] eqn:E; [by eapply key_test_rows|]. unfold forget. by destruct (cp_secret_id _).
    + destruct (twilio_checked _ _ _) as [[st a']|] eqn:E; [by eapply twilio_checked_rows|done].
    + unfold test_call_end. destruct (twilio_checked _ _ _) as [[id a']|] eqn:E; [|done]. cbn. by eapply twilio_checked_rows.
  - destruct (w_tasks w !! i) as [t|]; [|done]. destruct t; try done; by injection H as <-.
  - destruct (_ <=? _); [|done]. by injection H as <-.
  - destruct (_ && _) eqn:E; [|done]. reflect_all. injection H as <-. cbn. by eapply rows_elsewhere.
Qed.

Definition lives (w w' : World) : Prop := exists ev, sound ev /\ step keyring cache_time allowed ev w = Some w'.

Lemma accounts_world0_ok d : profile_secrets d = ∅ -> Inv (world0 d).
Proof.
  intros Hd. split; cbn; [constructor|constructor|by intros r ?%elem_of_nil|]. intros sid s. by rewrite Hd, lookup_empty.
Qed.
Lemma accounts_lives_ok d w : profile_secrets d = ∅ -> rtc lives (world0 d) w -> Inv w.
Proof.
  intros Hd Hr. assert (H0 := accounts_world0_ok d Hd). induction Hr as [|w w1 w2 (ev & Hs & Hev) _ IH]; [done|]. apply IH. by eapply accounts_step_ok.
Qed.


Lemma best_some (l : list ProviderProfile) : l <> [] ->
  is_Some (foldr (fun row best => match best with Some b => if preferred row b then Some row else Some b | None => Some row end) None l).
Proof. destruct l as [|x l]; [done|]. intros _. cbn. destruct (foldr _ None l); [|by eexists]. destruct (preferred x p); by eexists. Qed.

(** The accounts of a provider, and those the gateway may use. *)
Definition mine (provider : string) (a : Accounts) : list ProfileRow :=
  List.filter (fun r => String.eqb (pw_provider r) provider) (ac_rows a).
Definition working (rows : list ProfileRow) : list ProfileRow :=
  List.filter (fun r => pf_enabled (pw_row r) && negb (String.eqb (pf_status (pw_row r)) "ERROR")) rows.

Lemma mine_spec provider a r : r ∈ mine provider a <-> r ∈ ac_rows a /\ pw_provider r = provider.
Proof. unfold mine. by rewrite list_elem_of_In, filter_In, <- list_elem_of_In, String.eqb_eq. Qed.
Lemma working_spec rows r : r ∈ working rows <-> r ∈ rows /\ pf_enabled (pw_row r) = true /\ pf_status (pw_row r) <> "ERROR"%string.
Proof. unfold working. rewrite list_elem_of_In, filter_In, <- list_elem_of_In, andb_true_iff, negb_true_iff, String.eqb_neq. tauto. Qed.

(** The accounts the status page counts as working are those the gateway's selection keeps. *)
Lemma working_usable rows secrets keys provider r :
  Rows rows secrets keys -> r ∈ rows ->
  (usable provider (pw_row r) = true <->
   pw_provider r = provider /\ pf_enabled (pw_row r) = true /\ pf_status (pw_row r) <> "ERROR"%string).
Proof.
  intros HR Hr. destruct (rw_rows _ _ _ HR _ Hr) as (sid & s & key & Hok). unfold usable.
  rewrite (ro_secret _ _ _ _ _ _ Hok), bool_decide_eq_true_2 by by eexists. fold (pw_provider r).
  rewrite !andb_true_iff, negb_true_iff, String.eqb_eq, String.eqb_neq. tauto.
Qed.

Lemma working_active provider a keys :
  Rows (ac_rows a) (ac_secrets a) keys -> is_cloud provider = true ->
  (working (mine provider a) <> [] <-> is_Some (active_profile provider (map pw_row (ac_rows a)))).
Proof.
  intros HR Hc. unfold active_profile. rewrite Hc, fmap_is_Some.
  set (kept := filter (fun row => usable provider row = true) (map pw_row (ac_rows a))).
  assert (Hkept : forall x, x ∈ kept <-> exists r, x = pw_row r /\ r ∈ working (mine provider a)).
  { intros x. unfold kept. rewrite list_elem_of_filter, list_elem_of_fmap. split.
    - intros [Hu (r & -> & Hr)]. exists r. split; [done|]. apply (working_usable _ _ _ provider r HR Hr) in Hu.
      apply working_spec. rewrite mine_spec. tauto.
    - intros (r & -> & [[Hr Hp]%mine_spec Hw]%working_spec). split; [|by exists r]. by apply (working_usable _ _ _ provider r HR Hr). }
  split.
  - intros Hne. apply best_some. intros E. destruct (working (mine provider a)) as [|r l]; [done|].
    apply (not_elem_of_nil (pw_row r)). rewrite <- E. apply Hkept. exists r. split; [done|left].
  - intros Hs E. destruct kept as [|x l]; [by destruct Hs|]. destruct (proj1 (Hkept x) ltac:(left)) as (r & _ & Hr).
    rewrite E in Hr. by apply elem_of_nil in Hr.
Qed.

Lemma none_enabled rows : existsb (fun r => pf_enabled (pw_row r)) rows = false <-> forall r, r ∈ rows -> pf_enabled (pw_row r) = false.
Proof.
  rewrite <- not_true_iff_false, existsb_exists. split.
  - intros Hn r Hr. apply not_true_iff_false. intros He. apply Hn. exists r. by rewrite <- list_elem_of_In.
  - intros H (r & Hr%list_elem_of_In & He). by rewrite (H r Hr) in He.
Qed.

Lemma provider_status_cases provider a :
  sx_status (provider_status provider a) =
    match working (mine provider a), mine provider a with
    | _ :: _, _ => "CONNECTED" | [], [] => "NOT_CONNECTED"
    | [], l => if existsb (fun r => pf_enabled (pw_row r)) l then "NEEDS_ATTENTION" else "DISABLED"
    end%string /\
  (sx_granted (provider_status provider a) <> [] <-> working (mine provider a) <> []).
Proof.
  unfold provider_status. cbn [sx_status sx_granted]. fold (mine provider a). fold (working (mine provider a)).
  destruct (working (mine provider a)); [|by split]. destruct (mine provider a); [by split|]. split; [|done]. by destruct (existsb _ _).
Qed.

(** C21: What the owner is shown is what model calls meet: a cloud provider is reported CONNECTED, and its
    capability granted, exactly when the gateway finds an account to call it with; it is NOT_CONNECTED
    exactly when there is no account, and DISABLED exactly when there are accounts and none is enabled. *)
Theorem reported_as_routed d w provider :
  profile_secrets d = ∅ -> rtc lives (world0 d) w -> is_cloud provider = true ->
  let st := provider_status provider (w_ac w) in
  let own r := r ∈ ac_rows (w_ac w) /\ pw_provider r = provider in
  (sx_status st = "CONNECTED"%string <-> is_Some (active_profile provider (map pw_row (ac_rows (w_ac w))))) /\
  (sx_granted st <> [] <-> sx_status st = "CONNECTED"%string) /\
  (sx_status st = "NOT_CONNECTED"%string <-> forall r, ~ own r) /\
  (sx_status st = "DISABLED"%string <-> (exists r, own r) /\ forall r, own r -> pf_enabled (pw_row r) = false).
Proof.
  intros Hd Hr Hc. pose proof (accounts_lives_ok _ _ Hd Hr) as HR. cbv zeta. destruct (provider_status_cases provider (w_ac w)) as [-> ->].
  rewrite <- (working_active _ _ _ HR Hc). setoid_rewrite <- mine_spec.
  pose proof (working_spec (mine provider (w_ac w))) as Hw. destruct (working (mine provider (w_ac w))) as [|u l].
  - destruct (mine provider (w_ac w)) as [|m l]; [split_and!; try done|].
    + split; [intros _ r ?%elem_of_nil; done|done].
    + split; [done|]. by intros [[r ?%elem_of_nil] _].
    + assert (Hm : m ∈ m :: l) by left. pose proof (none_enabled (m :: l)) as Hex.
      destruct (existsb _ _); split_and!; try done; (split; [|by intros H; destruct (H m)]) || split; try done.
      * intros [_ H]. by apply Hex in H.
      * intros _. split; [by exists m|by apply Hex].
  - destruct (proj1 (Hw u) ltac:(left)) as (Hu & He & _). split_and!; try done.
    + split; [done|]. intros H. by destruct (H u).
    + split; [done|]. intros [_ H]. by rewrite H in He.
Qed.
End props.
