(* ===== verification/Transport.v ===== *)
(** * The agent's side of a broker call ([python_sdk/errors.py], [python_sdk/_transport.py])

    The typed exceptions an agent sees, and the loop that sends one broker request with its two
    retry policies.  What the network does is the list of tries it is given; durations are in
    microseconds, and the clock, the jitter and the sleeping are the client's own injected
    functions.  The text of a [Retry-After] header is given as the float it parses to. *)

From S2P Require Import Prelude Json Redaction PyValue.
#[local] Open Scope Z_scope.

(** ** Errors *)

Inductive ErrorClass :=
| C_PlatformError | C_PermissionDenied | C_NeedsConnection | C_ModelUnavailable | C_RateLimited
| C_InvalidInput | C_ProviderError | C_OutcomeUnknown.
#[export] Instance ErrorClass_eq : EqDecision ErrorClass.
Proof. solve_decision. Defined.

Definition class_code (c : ErrorClass) : string :=
  match c with
  | C_PlatformError => "PLATFORM_ERROR"
  | C_PermissionDenied => "CAPABILITY_DENIED"
  | C_NeedsConnection => "NEEDS_CONNECTION"
  | C_ModelUnavailable => "MODEL_UNAVAILABLE"
  | C_RateLimited => "RATE_LIMITED"
  | C_InvalidInput => "INVALID_REQUEST"
  | C_ProviderError => "PROVIDER_ERROR"
  | C_OutcomeUnknown => "OUTCOME_UNKNOWN"
  end.
Definition class_retryable (c : ErrorClass) : bool :=
  match c with C_ModelUnavailable | C_RateLimited | C_ProviderError => true | _ => false end.

(** An instance: attributes that the constructor was not given are those of the class. *)
Record SdkError := mkSdkError {
  er_class : ErrorClass;
  er_message : string;
  er_code : string;
  er_request_id : string;
  er_retryable : bool;
  er_details : list (string * Json)
}.
Definition sdk_error (c : ErrorClass) (message : string) (code : option string) (request_id : string) (retryable : option bool)
    (details : option (list (string * Json))) : SdkError :=
  mkSdkError c message (default (class_code c) code) request_id (default (class_retryable c) retryable) (default [] details).

Definition CODE_CLASSES : list (string * ErrorClass) :=
  [("CAPABILITY_DENIED", C_PermissionDenied); ("PERMISSION_DENIED", C_PermissionDenied);
   ("NEEDS_CONNECTION", C_NeedsConnection); ("MODEL_UNAVAILABLE", C_ModelUnavailable); ("RATE_LIMITED", C_RateLimited);
   ("INVALID_REQUEST", C_InvalidInput); ("INVALID_INPUT_SCHEMA", C_InvalidInput);
   ("INPUT_WAIT_BUDGET_EXCEEDED", C_InvalidInput); ("UNSUPPORTED_FEATURE", C_InvalidInput);
   ("PROVIDER_ERROR", C_ProviderError); ("PROVIDER_UNAVAILABLE", C_ProviderError); ("TIMEOUT", C_ProviderError)]%string.

Definition status_class (status : Z) : ErrorClass :=
  if status =? 403 then C_PermissionDenied
  else if status =? 422 then C_InvalidInput
  else if status =? 429 then C_RateLimited
  else if (status =? 502) || (status =? 503) || (status =? 504) then C_ProviderError
  else C_PlatformError.

(** What a call raises: [Cancelled] is not a [PlatformError]. *)
Inductive Raised := Cancelled (message request_id : string) | Platform (e : SdkError).
Definition raised_code (r : Raised) : string := match r with Cancelled _ _ => "RUN_CANCELLED" | Platform e => er_code e end.

Definition error_part (body : option Json) : Json :=
  match body with Some b => match jget "error" b with Some (JObj o) => JObj o | _ => JObj [] end | None => JObj [] end.

Definition error_from_response (status : Z) (body : option Json) (request_id : string) : Raised :=
  let error := error_part body in
  let code := match jget "code" error with Some (JStr s) => Some s | _ => None end in
  let message := match jget "message" error with Some (JStr s) => s | _ => ("broker returned HTTP " +:+ pretty status)%string end in
  let details := match jget "details" error with Some (JObj o) => Some o | _ => None end in
  if bool_decide (code = Some "RUN_CANCELLED"%string) then Cancelled message request_id
  else
    let cls := match code with Some c => if String.eqb c "" then None else assoc c CODE_CLASSES | None => None end in
    let cls := default (status_class status) cls in
    let code := match code with
                | Some c => c
                | None => if bool_decide (cls = C_PlatformError) then ("HTTP_" +:+ pretty status)%string else class_code cls
                end in
    Platform (sdk_error cls message (Some code) request_id None details).

(** ** One try *)

Inductive FloatValue := Finite (z : Z) | PosInf | NegInf | NaN.
Inductive RetryHeader := NoHeader | NotAFloat | HeaderFloat (f : FloatValue).
Inductive Delay := After (d : Z) | Forever.

(** [max(0.0, float(value))]: a NaN compares false. *)
Definition retry_after (h : RetryHeader) : option Delay :=
  match h with
  | NoHeader | NotAFloat => None
  | HeaderFloat (Finite z) => Some (After (Z.max 0 z))
  | HeaderFloat PosInf => Some Forever
  | HeaderFloat NegInf | HeaderFloat NaN => Some (After 0)
  end.

Inductive Body := NoContent | NotJson | IsJson (j : Json).
Definition safe_json (b : Body) : option Json := match b with IsJson j => Some j | _ => None end.

(** [httpx]: the request was never sent, the connection broke, another transport error (a
    timeout), or a response. *)
Inductive Outcome :=
| NotSent (exc : string)
| ConnectionLost (exc : string)
| OtherTransport (exc : string)
| Response (status : Z) (body : Body) (header : RetryHeader).

(** A try: its request id, what came of it, and what the clock and the jitter read after it. *)
Record Try := mkTry {
  ty_request_id : string;
  ty_outcome : Outcome;
  ty_clock : Z;
  ty_clock_again : Z;
  ty_jitter : Z
}.

Record BrokerClient := mkBrokerClient { bc_max_attempts : Z; bc_outage_budget : Z }.
Definition broker_client (max_attempts budget : Z) : BrokerClient := mkBrokerClient (Z.max 1 max_attempts) budget.

Definition DEFAULT_OUTAGE_BUDGET : Z := seconds 25.
Definition OUTAGE_BACKOFF_CAP : Z := seconds 4.
Definition RETRYABLE_STATUSES : list Z := [429; 502; 503; 504].
Definition PLATFORM_UNAVAILABLE_CODES : list string := ["UPSTREAM_ERROR"; "BROKER_UNAVAILABLE"]%string.

Definition outage_budget (heartbeat_interval : Z) : Z := Z.min (seconds 120) (Z.max (seconds 5) (heartbeat_interval * 5 / 2)).

(** [min(cap, 0.5 * 2 ** (n - 1)) + jitter]; an exponent of 1024 does not fit a float. *)
Definition half_doubling (cap n jitter : Z) : option Z :=
  if 1024 <? n then None else Some (Z.min cap (500000 * 2 ^ (n - 1)) + jitter).
Definition backoff (attempt jitter : Z) : option Z := half_doubling (seconds 8) attempt jitter.

Definition platform_unavailable (status : Z) (body : option Json) : bool :=
  ((status =? 502) || (status =? 503)) &&
  match jget "code" (error_part body) with
  | Some (JStr code) => bool_decide (code ∈ PLATFORM_UNAVAILABLE_CODES)
  | _ => true
  end.

(** ** The retry loop *)

Record Retry := mkRetry { re_attempt : Z; re_outages : Z; re_outage_began : option Z; re_slept : Z }.
Definition retry0 : Retry := mkRetry 0 0 None 0.

Inductive Answer :=
| Returned (j : option Json)
| Raises (r : Raised)
| BadBody                    (* ValueError of response.json() *)
| FloatOverflow              (* OverflowError of 0.5 * 2 ** n *)
| NeverWakes.                (* asyncio.sleep(inf) *)

Inductive Next := Again (delay : Z) (r : Retry) | Stop (a : Answer).

(** [outage_retry]: [unavailable] is what the caller raises when the budget is spent. *)
Definition outage_retry (c : BrokerClient) (t : Try) (after : option Delay) (r : Retry) (unavailable : Answer) : Next :=
  let began := default (ty_clock t) (re_outage_began r) in
  let remaining := bc_outage_budget c - Z.max (ty_clock_again t - began) (re_slept r) in
  if remaining <=? 0 then Stop unavailable
  else
    let outages := re_outages r + 1 in
    let delay := match after with
                 | Some (After d) => Some (Z.min d remaining)
                 | Some Forever => Some remaining
                 | None => (fun d => Z.min d remaining) <$> half_doubling OUTAGE_BACKOFF_CAP outages (ty_jitter t)
                 end in
    match delay with
    | None => Stop FloatOverflow
    | Some d => Again d (mkRetry (re_attempt r) outages (Some began) (re_slept r + d))
    end.

(** Sleep before the next counted attempt. *)
Definition attempt_retry (after : option Delay) (attempt jitter : Z) (r : Retry) : Next :=
  let r' := mkRetry attempt (re_outages r) (re_outage_began r) (re_slept r) in
  let own := match backoff attempt jitter with Some d => Again d r' | None => Stop FloatOverflow end in
  match after with
  | Some (After d) => if d =? 0 then own else Again d r'
  | Some Forever => Stop NeverWakes
  | None => own
  end.

Definition broker_unavailable (message : string) (request_id : string) : Answer :=
  Raises (Platform (sdk_error C_PlatformError message (Some "BROKER_UNAVAILABLE"%string) request_id (Some true) None)).
Definition outcome_unknown (message : string) (request_id : string) : Answer :=
  Raises (Platform (sdk_error C_OutcomeUnknown message None request_id None None)).

(** The body of the [while] loop. *)
Definition try_step (c : BrokerClient) (operation : string) (idempotent : bool) (r : Retry) (t : Try) : Next :=
  let id := ty_request_id t in
  match ty_outcome t with
  | NotSent exc =>
      outage_retry c t None r (broker_unavailable ("broker unreachable during " +:+ operation +:+ ": " +:+ exc)%string id)
  | ConnectionLost exc =>
      if negb idempotent then Stop (outcome_unknown (operation +:+ " may or may not have been applied: " +:+ exc)%string id)
      else outage_retry c t None r (broker_unavailable ("broker connection failed during " +:+ operation +:+ ": " +:+ exc)%string id)
  | OtherTransport exc =>
      if negb idempotent then Stop (outcome_unknown (operation +:+ " may or may not have been applied: " +:+ exc)%string id)
      else
        let attempt := re_attempt r + 1 in
        if attempt <? bc_max_attempts c then attempt_retry None attempt (ty_jitter t) r
        else Stop (broker_unavailable ("broker connection failed during " +:+ operation +:+ ": " +:+ exc)%string id)
  | Response status body header =>
      if status <? 400 then
        Stop (match body with NoContent => Returned None | NotJson => BadBody | IsJson j => Returned (Some j) end)
      else
        let error := error_from_response status (safe_json body) id in
        if idempotent && platform_unavailable status (safe_json body) then
          outage_retry c t (retry_after header) r (Raises error)
        else
          let retry_status := bool_decide (status ∈ RETRYABLE_STATUSES) && negb (String.eqb (raised_code error) "MODEL_UNAVAILABLE") in
          let attempt := re_attempt r + 1 in
          if idempotent && retry_status && (attempt <? bc_max_attempts c) then attempt_retry (retry_after header) attempt (ty_jitter t) r
          else if negb idempotent && (status =? 504) then
            Stop (outcome_unknown (operation +:+ " timed out upstream; it may or may not have been applied")%string id)
          else Stop (Raises error)
  end.

(** The loop over what the network does: the tries that were retried, each with the sleep after
    it, then the last try and the answer; [None] while it still waits for the network. *)
Fixpoint request_from (c : BrokerClient) (operation : string) (idempotent : bool) (r : Retry) (tries : list Try)
    : option (list (Try * Z) * Try * Answer) :=
  match tries with
  | [] => None
  | t :: rest =>
      match try_step c operation idempotent r t with
      | Stop a => Some ([], t, a)
      | Again d r' =>
          match request_from c operation idempotent r' rest with
          | Some (retried, last, a) => Some ((t, d) :: retried, last, a)
          | None => None
          end
      end
  end.

Definition request (c : BrokerClient) (operation : string) (idempotent : bool) (tries : list Try) :=
  request_from c operation idempotent retry0 tries.

(** ** An effect is sent once *)

Definition not_sent (t : Try) : Prop := exists exc, ty_outcome t = NotSent exc.

(** The request was sent and no answer says what became of it. *)
Definition unsettled (t : Try) : Prop :=
  match ty_outcome t with
  | ConnectionLost _ | OtherTransport _ => True
  | Response status _ _ => status = 504
  | NotSent _ => False
  end.

Definition is_outcome_unknown (a : Answer) : Prop :=
  match a with Raises (Platform e) => er_class e = C_OutcomeUnknown | _ => False end.

(** The broker's own answers are never [OutcomeUnknown]. *)
Lemma broker_settles status body id : ~ is_outcome_unknown (Raises (error_from_response status body id)).
Proof.
  unfold error_from_response. cbv zeta. destruct (bool_decide _); [by intros []|]. cbn [is_outcome_unknown er_class sdk_error].
  assert (Hst : status_class status <> C_OutcomeUnknown) by (unfold status_class; by repeat case_match).
  assert (Hco : forall c cls, assoc c CODE_CLASSES = Some cls -> cls <> C_OutcomeUnknown).
  { intros c cls H%assoc_elem. unfold CODE_CLASSES in H. set_solver. }
  destruct (jget "code" _) as [[]|]; try done. destruct (String.eqb _ _); [done|].
  destruct (assoc _ _) eqn:E; [|done]. by apply Hco in E.
Qed.

Lemma outage_stop c t after r u a : outage_retry c t after r u = Stop a -> a = u \/ a = FloatOverflow.
Proof. unfold outage_retry. cbv zeta. repeat case_match; intros; simplify_eq; auto. Qed.

(** What the loop does with one try of an operation that is not idempotent. *)
Lemma effect_step c op r t :
  match try_step c op false r t with
  | Again _ _ => not_sent t
  | Stop a => (is_outcome_unknown a <-> unsettled t) /\
      (forall j, a = Returned j -> exists status b h, ty_outcome t = Response status b h /\ status < 400)
  end.
Proof.
  unfold try_step, unsettled, not_sent. destruct (ty_outcome t) as [exc|exc|exc|status body header] eqn:Ho; cbn [negb].
  - destruct (outage_retry _ _ _ _ _) as [d r'|a] eqn:E; [eauto|]. apply outage_stop in E as [-> | ->]; (split; [done|by intros]).
  - by split.
  - by split.
  - destruct (status <? 400) eqn:Hs; reflect_all.
    { split; [destruct body; simpl; split; [done|lia|done|lia|done|lia]|]. eauto. }
    cbn [andb]. destruct (status =? 504) eqn:E; reflect_all; (split; [|done]).
    + done.
    + split; [intros H; by apply broker_settles in H|done].
Qed.


(** ** The retries are bounded *)

Section bounded.
Context (c : BrokerClient) (op : string) (idempotent : bool) (delta : Z).
Context (Hdelta : 0 < delta <= 500000) (Hbudget : 0 < bc_outage_budget c).

(** A delay the broker asks for is at least [delta]. *)
Definition header_ok (h : RetryHeader) : Prop :=
  match h with NoHeader | NotAFloat => True | HeaderFloat (Finite z) => delta <= z | HeaderFloat _ => False end.
Definition try_ok (t : Try) : Prop :=
  0 <= ty_jitter t /\ ty_clock t <= ty_clock_again t /\ match ty_outcome t with Response _ _ h => header_ok h | _ => True end.

(** Sleeping takes the time it is asked for. *)
Fixpoint paced (r : Retry) (tries : list Try) : Prop :=
  match tries with
  | t :: (t' :: _) as rest =>
      match try_step c op idempotent r t with
      | Again d r' => ty_clock_again t + d <= ty_clock t' /\ paced r' rest
      | Stop _ => True
      end
  | _ => True
  end.

Definition elapsed (r : Retry) (now : Z) : Z := match re_outage_began r with Some b => now - b | None => 0 end.

(** Outage retries that are left after [e] microseconds of an outage. *)
Definition left_after (e : Z) : Z := Z.max 0 ((bc_outage_budget c - e + delta - 1) / delta).

Lemma left_step e e' : e < bc_outage_budget c -> Z.min (e + delta) (bc_outage_budget c) <= e' -> left_after e' + 1 <= left_after e.
Proof.
  intros He Hmin. unfold left_after.
  assert (H1 : 1 <= (bc_outage_budget c - e + delta - 1) / delta) by (apply Z.div_le_lower_bound; lia).
  destruct (Z.min_spec (e + delta) (bc_outage_budget c)) as [[_ E]|[_ E]]; rewrite E in Hmin.
  - assert (H2 : (bc_outage_budget c - e' + delta - 1) / delta <= (bc_outage_budget c - e + delta - 1 + (-1) * delta) / delta) by (apply Z.div_le_mono; lia).
    rewrite Z.div_add in H2 by lia. lia.
  - assert (H2 : (bc_outage_budget c - e' + delta - 1) / delta <= (delta - 1) / delta) by (apply Z.div_le_mono; lia).
    rewrite (Z.div_small (delta - 1)) in H2 by lia. lia.
Qed.

Lemma left_mono e e' : e <= e' -> left_after e' <= left_after e.
Proof. intros H. unfold left_after. assert ((bc_outage_budget c - e' + delta - 1) / delta <= (bc_outage_budget c - e + delta - 1) / delta) by (apply Z.div_le_mono; lia). lia. Qed.

(** The loop's state before a try made at [now]. *)
Record retry_ok (r : Retry) (now : Z) : Prop := {
  ro_attempt : 0 <= re_attempt r < bc_max_attempts c;
  ro_outages : 0 <= re_outages r /\ re_outages r + left_after (elapsed r now) <= left_after 0;
  ro_elapsed : 0 <= re_slept r <= elapsed r now
}.

Definition tries_left (r : Retry) (now : Z) : Z := bc_max_attempts c - re_attempt r + left_after (elapsed r now).

Definition settled (a : Answer) : Prop := match a with Returned _ | Raises _ | BadBody => True | _ => False end.

Lemma doubling cap n j : delta <= cap -> 1 <= n <= 1024 -> 0 <= j -> exists d, half_doubling cap n j = Some d /\ delta <= d.
Proof.
  intros Hc Hn Hj. unfold half_doubling. rewrite (proj2 (Z.ltb_ge _ _)) by lia. eexists. split; [done|].
  assert (1 <= 2 ^ (n - 1)) by (apply (Z.pow_le_mono_r 2 0 (n - 1)); lia). nia.
Qed.

Lemma retry_after_ok h d : header_ok h -> retry_after h = Some d -> exists z, d = After z /\ delta <= z.
Proof. destruct h as [| |[z| | |]]; simpl; try done. intros Hz [= <-]. eexists. split; [done|]. lia. Qed.

Definition shrinks (r : Retry) (t : Try) (n : Next) : Prop :=
  match n with
  | Stop a => settled a
  | Again d r' => 0 <= d /\ forall now', ty_clock_again t + d <= now' -> retry_ok r' now' /\ tries_left r' now' + 1 <= tries_left r (ty_clock t)
  end.

Lemma outage_shrinks t h r u :
  try_ok t -> header_ok h -> left_after 0 <= 1024 -> retry_ok r (ty_clock t) -> settled u -> shrinks r t (outage_retry c t (retry_after h) r u).
Proof.
  intros (Hj & Hc & _) Hh Hmax [Ha [Ho Hl] He] Hu. unfold outage_retry. cbv zeta.
  set (b := default (ty_clock t) (re_outage_began r)).
  assert (Hb : elapsed r (ty_clock t) = ty_clock t - b) by (unfold elapsed, b; destruct (re_outage_began r); simpl; lia).
  rewrite Z.max_l by lia. destruct (_ <=? 0) eqn:Hr; reflect_all; [done|].
  assert (Hn : left_after (ty_clock t - b + delta) + 1 <= left_after (ty_clock t - b)) by (apply left_step; lia).
  assert (Hnn : 0 <= left_after (ty_clock t - b + delta)) by (unfold left_after; lia).
  rewrite Hb in *. destruct (match retry_after h with Some _ => _ | None => _ end) as [d|] eqn:Ed.
  - assert (Hd : Z.min delta (bc_outage_budget c - (ty_clock_again t - b)) <= d).
    { destruct (retry_after h) as [d'|] eqn:Er.
      - destruct (retry_after_ok _ _ Hh Er) as (z & -> & Hz). injection Ed as <-. lia.
      - destruct (doubling OUTAGE_BACKOFF_CAP (re_outages r + 1) (ty_jitter t)) as (x & Hx & Hxd); [unfold OUTAGE_BACKOFF_CAP, seconds; lia|lia|lia|].
        rewrite Hx in Ed. injection Ed as <-. lia. }
    split; [lia|]. intros now' Hnow. unfold tries_left. cbn. rewrite Hb.
    assert (Hs : left_after (now' - b) + 1 <= left_after (ty_clock t - b)) by (apply left_step; lia).
    assert (Hda : d <= bc_outage_budget c - (ty_clock_again t - b)).
    { destruct (retry_after h) as [[|]|]; [injection Ed; lia|injection Ed; lia|]. destruct (half_doubling _ _ _); [injection Ed; lia|done]. }
    split; [|lia]. split; cbn; lia.
  - exfalso. destruct (retry_after h) as [[|]|] eqn:Er; [done|done|].
    destruct (doubling OUTAGE_BACKOFF_CAP (re_outages r + 1) (ty_jitter t)) as (x & Hx & _); [unfold OUTAGE_BACKOFF_CAP, seconds; lia|lia|lia|].
    by rewrite Hx in Ed.
Qed.

Lemma attempt_shrinks t h r :
  try_ok t -> header_ok h -> bc_max_attempts c <= 1024 -> retry_ok r (ty_clock t) -> re_attempt r + 1 < bc_max_attempts c ->
  shrinks r t (attempt_retry (retry_after h) (re_attempt r + 1) (ty_jitter t) r).
Proof.
  intros (Hj & Hc & _) Hh Hmax [Ha [Ho Hl] He] Hlt. unfold attempt_retry. cbv zeta.
  destruct (doubling (seconds 8) (re_attempt r + 1) (ty_jitter t)) as (x & Hx & Hxd); [unfold seconds; lia|lia|lia|].
  unfold backoff. rewrite Hx.
  assert (Hgo : forall d, 0 <= d -> shrinks r t (Again d (mkRetry (re_attempt r + 1) (re_outages r) (re_outage_began r) (re_slept r)))).
  { intros d Hd. split; [done|]. intros now' Hnow. unfold tries_left, elapsed in *. cbn.
    pose proof (left_mono (match re_outage_began r with Some b => ty_clock t - b | None => 0 end)
      (match re_outage_began r with Some b => now' - b | None => 0 end)) as Hm.
    assert (Hmm : match re_outage_began r with Some b => ty_clock t - b | None => 0 end <= match re_outage_began r with Some b => now' - b | None => 0 end)
      by (destruct (re_outage_began r); lia).
    specialize (Hm Hmm). split; [|lia]. split; unfold elapsed; cbn; lia. }
  destruct (retry_after h) as [d|] eqn:Er; [|apply Hgo; lia].
  destruct (retry_after_ok _ _ Hh Er) as (z & -> & Hz). destruct (z =? 0) eqn:E; reflect_all; apply Hgo; lia.
Qed.

Lemma step_shrinks r t :
  try_ok t -> left_after 0 <= 1024 -> bc_max_attempts c <= 1024 -> retry_ok r (ty_clock t) -> shrinks r t (try_step c op idempotent r t).
Proof.
  intros Ht Hl Hm Hr. pose proof Ht as (_ & _ & Hh). unfold try_step. cbv zeta.
  destruct (ty_outcome t) as [exc|exc|exc|status body header].
  - by apply (outage_shrinks t NoHeader).
  - destruct idempotent; [|done]. by apply (outage_shrinks t NoHeader).
  - destruct idempotent; [|done]. cbn [negb]. destruct (_ <? _) eqn:E; [|done]. reflect_all. by apply (attempt_shrinks t NoHeader).
  - destruct (status <? 400); [by destruct body|]. destruct (idempotent && platform_unavailable _ _); [by apply outage_shrinks|].
    destruct (idempotent && _ && _) eqn:E; [reflect_all; by apply attempt_shrinks|]. by destruct (negb idempotent && _).
Qed.

Lemma request_from_bounded r t rest :
  Forall try_ok (t :: rest) -> left_after 0 <= 1024 -> bc_max_attempts c <= 1024 -> retry_ok r (ty_clock t) -> paced r (t :: rest) ->
  tries_left r (ty_clock t) <= Z.of_nat (length (t :: rest)) ->
  exists retried last a, request_from c op idempotent r (t :: rest) = Some (retried, last, a) /\ settled a.
Proof.
  revert r t. induction rest as [|t' rest IH]; intros r t [Ht Hall]%Forall_cons Hl Hm Hr Hp Hlen; cbn [request_from];
    pose proof (step_shrinks r t Ht Hl Hm Hr) as Hs; cbn [paced] in Hp; destruct (try_step c op idempotent r t) as [d r'|a]; eauto.
  - exfalso. destruct Hs as [_ Hs]. destruct (Hs (ty_clock_again t + d)) as [[Ha _ _] Hlt]; [lia|].
    unfold tries_left in Hlt at 1. pose proof (Z.le_max_l 0 ((bc_outage_budget c - elapsed r' (ty_clock_again t + d) + delta - 1) / delta)).
    unfold left_after in Hlt at 1. simpl in Hlen. lia.
  - destruct Hp as [Hp1 Hp]. destruct Hs as [_ Hs]. destruct (Hs _ Hp1) as [Hr' Hlt].
    destruct (IH r' t' Hall Hl Hm Hr' Hp) as (rt & l & a & E & Ha); [simpl in *; lia|]. cbn [request_from] in E. rewrite E. eauto.
Qed.
End bounded.

(** A broker call ends: whatever the network does, a client with budget [B] and [m] attempts is
    done after [m + ceil(B/delta)] tries, where [delta], at most half a second, is the shortest delay
    the broker asks for in a [Retry-After] header, and it ends with a value or an error of the SDK. *)
Theorem request_bounded c op idempotent delta tries :
  0 < delta <= 500000 -> 0 < bc_outage_budget c -> 1 <= bc_max_attempts c <= 1024 -> left_after c delta 0 <= 1024 ->
  Forall (try_ok delta) tries -> paced c op idempotent retry0 tries ->
  bc_max_attempts c + left_after c delta 0 <= Z.of_nat (length tries) ->
  exists retried last a, request c op idempotent tries = Some (retried, last, a) /\ settled a.
Proof.
  intros Hd Hb Hm Hl Hall Hp Hlen. destruct tries as [|t rest].
  - simpl in Hlen. unfold left_after in Hlen. lia.
  - apply (request_from_bounded c op idempotent delta); auto; [lia| |unfold tries_left; cbn in *; lia].
    split; cbn; lia.
Qed.
