(* ===== verification/Once.v ===== *)
(** * Effects that happen once ([python_sdk/idempotency.py])

    The SDK's [once] on top of the platform's action records: calls of [once] for one key, over all
    attempts of a run, with claims that are resent, delayed or lost, agents that die at any point,
    and everything else that happens to the run in between. *)

From S2P Require Import Prelude TimeUtil Json Redaction SchemaGuard States Jobs RunModel RunService RunInv.
From S2P Require Import RunOps Platform Capability Worker Reconciler World Actions.
#[local] Open Scope Z_scope.

(** What [once] does with the record its claim returned. *)
Inductive OnceNext := Return (stored : option Json) | RaiseOutcomeUnknown | RunFn.
Definition once_next (resume_in_progress : bool) (record : ActionReply) : OnceNext :=
  if bool_decide (rp_status record = act_completed) then Return (rp_result record)
  else if bool_decide (rp_status record = act_in_doubt) && negb resume_in_progress then RaiseOutcomeUnknown
  else RunFn.

(** A call in progress: the claim is being sent; [fn] is running; [fn] returned and [complete] is
    being sent; the call returned a value; it raised, or its process died. *)
Inductive CallState :=
| Claiming
| Running
| Completing (v : Json)
| Returned (v : option Json)
| Raised.

Record OnceCall := mkOnceCall {
  oc_attempt : Z;
  oc_token : string;          (* the X-Claim-Token of all resends of this claim *)
  oc_resume : bool;
  oc_state : CallState;
  oc_value : option Json;     (* what fn returned *)
  oc_replies : list ActionReply  (* answers to its claim on their way *)
}.
#[export] Instance eta_OnceCall : Eta OnceCall := fun c =>
  mkOnceCall (oc_attempt c) (oc_token c) (oc_resume c) (oc_state c) (oc_value c) (oc_replies c).

(** The platform, the calls made so far, and the calls that ran [fn], latest first. *)
Record OnceWorld := mkOnceWorld { ow_session : Session; ow_calls : list OnceCall; ow_runs : list nat }.

Section once.
Context {clk : Clock} {JS : JsonSchema} {J : Jwt} (st : Settings) (key : string).

Definition with_call (w : OnceWorld) (i : nat) (c : OnceCall) : OnceWorld :=
  mkOnceWorld (ow_session w) (<[i := c]> (ow_calls w)) (ow_runs w).
Definition with_session (w : OnceWorld) (s : Session) : OnceWorld := mkOnceWorld s (ow_calls w) (ow_runs w).

(** The call acts on a record. *)
Definition on_record (w : OnceWorld) (i : nat) (c : OnceCall) (record : ActionReply) : OnceWorld :=
  match once_next (oc_resume c) record with
  | Return v => with_call w i (c <| oc_state := Returned v |>)
  | RaiseOutcomeUnknown => with_call w i (c <| oc_state := Raised |>)
  | RunFn => let w' := with_call w i (c <| oc_state := Running |>) in mkOnceWorld (ow_session w') (ow_calls w') (i :: ow_runs w')
  end.

Inductive once_step (w : OnceWorld) : OnceWorld -> Prop :=
| os_call n tok resume :        (* once() is called; the token is random *)
    (forall c, c ∈ ow_calls w -> oc_token c <> tok) ->
    once_step w (mkOnceWorld (ow_session w) (ow_calls w ++ [mkOnceCall n tok resume Claiming None []]) (ow_runs w))
| os_claim i c r s' :           (* a copy of the claim reaches the platform, now or later *)
    ow_calls w !! i = Some c -> claim_action (oc_attempt c) key (Some (oc_token c)) (ow_session w) = Ok (r, s') ->
    once_step w (with_call (with_session w s') i (c <| oc_replies ::= cons r |>))
| os_record i c r :             (* an answer arrives while the call waits for it *)
    ow_calls w !! i = Some c -> oc_state c = Claiming -> r ∈ oc_replies c -> once_step w (on_record w i c r)
| os_fn i c v :                 (* fn returns *)
    ow_calls w !! i = Some c -> oc_state c = Running ->
    once_step w (with_call w i (c <| oc_state := Completing v |> <| oc_value := Some v |>))
| os_complete i c v r s' :      (* a copy of the completion reaches the platform *)
    ow_calls w !! i = Some c -> oc_value c = Some v -> complete_action (oc_attempt c) key v (ow_session w) = Ok (r, s') ->
    once_step w (with_session w s')
| os_return i c v :             (* and its answer the call *)
    ow_calls w !! i = Some c -> oc_state c = Completing v -> once_step w (with_call w i (c <| oc_state := Returned (Some v) |>))
| os_die i c :                  (* the call raises, or the agent dies *)
    ow_calls w !! i = Some c -> (forall v, oc_state c <> Returned v) -> once_step w (with_call w i (c <| oc_state := Raised |>))
| os_other A (m : RM A) a s' :
    bystander st key m -> m (ow_session w) = Ok (a, s') -> once_step w (with_session w s')
| os_elsewhere s' : se_rows s' = se_rows (ow_session w) -> once_step w (with_session w s').

(** ** The invariant *)

Definition told (c : OnceCall) (r : ActionReply) : Told := mkTold (oc_attempt c) (Some (oc_token c)) (rp_status r) (rp_result r).

Record call_ok (log : list Told) (runs : list nat) (i : nat) (c : OnceCall) : Prop := {
  co_replies : forall r, r ∈ oc_replies c -> told c r ∈ log;
  co_ran : i ∈ runs -> oc_state c <> Claiming /\
    (oc_resume c = false -> exists t, t ∈ log /\ told_token t = Some (oc_token c) /\ told_status t = act_claimed);
  co_value : is_Some (oc_value c) -> i ∈ runs;
  co_state : match oc_state c with
             | Claiming | Raised => True
             | Running => i ∈ runs /\ oc_value c = None
             | Completing v => oc_value c = Some v
             | Returned x => (exists v, x = Some v /\ oc_value c = Some v) \/
                 exists t, t ∈ log /\ told_status t = act_completed /\ told_result t = x
             end
}.

(** What some run of [fn] returned, as the platform stores it. *)
Definition produced (calls : list OnceCall) (x : option Json) : Prop :=
  exists i c v, calls !! i = Some c /\ oc_value c = Some v /\ x = Some (redact v).

Record OInv (s0 : Session) (w : OnceWorld) (log : list Told) : Prop := {
  oi_life : life st key s0 log (ow_session w);
  oi_tokens : NoDup (oc_token <$> ow_calls w);
  oi_calls : forall i c, ow_calls w !! i = Some c -> call_ok log (ow_runs w) i c;
  oi_runs : NoDup (ow_runs w) /\ forall i, i ∈ ow_runs w -> is_Some (ow_calls w !! i);
  oi_told : forall t, t ∈ log -> told_status t = act_completed -> produced (ow_calls w) (told_result t);
  oi_row : forall a, action_at key (ow_session w) = Some a -> act_state a = act_completed -> produced (ow_calls w) (act_result a)
}.

Lemma call_ok_mono log log' runs i c : call_ok log runs i c -> (forall t, t ∈ log -> t ∈ log') -> call_ok log' runs i c.
Proof.
  intros [H1 H2 H3 H4] Hsub. split; [auto| |done|].
  - intros Hi. destruct (H2 Hi) as [Hc Ht]. split; [done|]. intros Hr. destruct (Ht Hr) as (t & ? & ?). eauto.
  - destruct (oc_state c); try done. destruct H4 as [?|(t & ? & ?)]; [by left|right; eauto].
Qed.

(** A call changes and keeps its token and its value. *)
Lemma produced_update calls i c c' x :
  calls !! i = Some c -> (is_Some (oc_value c) -> oc_value c' = oc_value c) -> produced calls x -> produced (<[i := c']> calls) x.
Proof.
  intros Hc Hv (j & d & v & Hj & Hd & ->). destruct (decide (j = i)) as [->|Hne].
  - simplify_eq. exists i, c', v. rewrite list_lookup_insert_eq by by eapply lookup_lt_Some. rewrite Hv by eauto. done.
  - exists j, d, v. by rewrite list_lookup_insert_ne.
Qed.

Lemma tokens_update (calls : list OnceCall) i c c' :
  calls !! i = Some c -> oc_token c' = oc_token c -> oc_token <$> <[i := c']> calls = oc_token <$> calls.
Proof.
  intros Hc Ht. rewrite list_fmap_insert. apply list_insert_id. rewrite list_lookup_fmap, Hc. simpl. by rewrite Ht.
Qed.

(** One call moves; the platform and the log stay. *)
Lemma move_call s0 w log i c c' runs' :
  OInv s0 w log -> ow_calls w !! i = Some c -> oc_token c' = oc_token c -> (is_Some (oc_value c) -> oc_value c' = oc_value c) ->
  (runs' = ow_runs w \/ runs' = i :: ow_runs w /\ i ∉ ow_runs w) -> call_ok log runs' i c' ->
  OInv s0 (mkOnceWorld (ow_session w) (<[i := c']> (ow_calls w)) runs') log.
Proof.
  intros [H1 H2 H3 [H4 H4'] H5 H6] Hc Ht Hv Hr Hok. assert (Hlt : (i < length (ow_calls w))%nat) by by eapply lookup_lt_Some.
  split; cbn [ow_session ow_calls ow_runs]; [done|by rewrite (tokens_update _ _ c)| | |intros t Hl Hs; eapply produced_update; eauto|intros a Ha Hs; eapply produced_update; eauto].
  - intros j d. destruct (decide (j = i)) as [->|Hne]; [rewrite list_lookup_insert_eq by done; by intros [= <-]|].
    rewrite list_lookup_insert_ne by done. intros Hd. destruct (H3 _ _ Hd) as [K1 K2 K3 K4].
    assert (Hin : j ∈ runs' <-> j ∈ ow_runs w) by (destruct Hr as [->|[-> _]]; [done|set_solver]).
    split; [done|by rewrite Hin|by rewrite Hin|]. destruct (oc_state d); try done. by rewrite Hin.
  - split; [destruct Hr as [->|[-> Hn]]; [done|by constructor]|]. intros j Hj.
    destruct (decide (j = i)) as [->|Hne]; [by rewrite list_lookup_insert_eq|]. rewrite list_lookup_insert_ne by done.
    apply H4'. destruct Hr as [->|[-> _]]; [done|set_solver].
Qed.

(** The platform moves on, having told nothing or one thing. *)
Lemma move_session s0 w log log' s' :
  OInv s0 w log -> life st key s0 log' s' -> (forall t, t ∈ log -> t ∈ log') ->
  (forall t, t ∈ log' -> t ∈ log \/ (told_status t = act_completed -> produced (ow_calls w) (told_result t))) ->
  (forall a, action_at key s' = Some a -> act_state a = act_completed -> produced (ow_calls w) (act_result a)) ->
  OInv s0 (with_session w s') log'.
Proof.
  intros [H1 H2 H3 H4 H5 H6] HL Hsub Hnew Hrow. split; cbn; [done|done| |done| |done].
  - intros i c Hc. by eapply call_ok_mono; [apply H3|].
  - intros t Ht Hs. destruct (Hnew t Ht) as [?|?]; eauto.
Qed.

Lemma complete_stores n v s r s' :
  complete_action n key v s = Ok (r, s') -> exists a a', action_at key s = Some a /\ action_at key s' = Some a' /\
    act_result a' = rp_result r /\ (act_state a = act_completed /\ act_result a = rp_result r \/ rp_result r = Some (redact v)).
Proof.
  unfold complete_action, require_attempt, bind, the_run, get_action, gets, guard, put_action, modify, ret, utcnow.
  destruct (n =? _); [|done]. change (rr_actions (se_rows s) !! key) with (action_at key s).
  destruct (action_at key s) as [a|] eqn:Ha; [|done].
  destruct (bool_decide (act_state a = act_completed)) eqn:Hst; intros [= <- <-].
  - apply bool_decide_eq_true in Hst. exists a, a. split_and!; try done. by left.
  - eexists a, _. split; [done|]. split; [apply lookup_insert_eq|]. split; [done|]. by right.
Qed.

Lemma os_claim_ok s0 w log i c r s' :
  OInv s0 w log -> ow_calls w !! i = Some c -> claim_action (oc_attempt c) key (Some (oc_token c)) (ow_session w) = Ok (r, s') ->
  OInv s0 (with_call (with_session w s') i (c <| oc_replies ::= cons r |>)) (log ++ [told c r]).
Proof.
  intros HI Hc Hcl. pose proof (claim_reply _ _ _ _ _ _ Hcl) as Hr.
  assert (HP : (rp_status r = act_completed -> produced (ow_calls w) (rp_result r)) /\
    forall a, action_at key s' = Some a -> act_state a = act_completed -> produced (ow_calls w) (act_result a)).
  { destruct (action_at key (ow_session w)) as [a|] eqn:Ha.
    - destruct (act_state a) eqn:Hs.
      + destruct Hr as [(-> & -> & _)|(-> & a' & -> & Ha')]; (split; [done|]); intros; simplify_eq; congruence.
      + destruct Hr as (-> & a' & -> & Ha'). split; [done|]. intros; simplify_eq; congruence.
      + destruct Hr as (_ & -> & ->). pose proof (oi_row _ _ _ HI a Ha Hs). split; [done|]. by intros ? [= <-].
    - destruct Hr as (-> & ->). split; [done|]. by intros ? [= <-]. }
  destruct HP as [HP1 HP2].
  assert (HI' : OInv s0 (with_session w s') (log ++ [told c r])).
  { apply (move_session _ _ log); [done|exact (life_claim st key s0 log _ _ _ _ _ (oi_life _ _ _ HI) Hcl)|set_solver| |done].
    intros t [?| ->%list_elem_of_singleton]%elem_of_app; [by left|by right]. }
  pose proof (oi_calls _ _ _ HI' i c Hc) as [K1 K2 K3 K4].
  unfold with_call. refine (move_call _ _ _ i c _ _ HI' Hc _ _ (or_introl eq_refl) _); [done|done|].
  split; [|done|done|done]. intros r' [->|Hr']%elem_of_cons; [|by apply K1]. apply elem_of_app. right. by left.
Qed.

Lemma on_record_ok s0 w log i c r :
  OInv s0 w log -> ow_calls w !! i = Some c -> oc_state c = Claiming -> r ∈ oc_replies c -> OInv s0 (on_record w i c r) log.
Proof.
  intros HI Hc Hst Hr. pose proof (oi_calls _ _ _ HI i c Hc) as [K1 K2 K3 K4].
  assert (Hni : i ∉ ow_runs w) by (intros Hi; by destruct (K2 Hi)).
  assert (Hnv : oc_value c = None) by (destruct (oc_value c); [exfalso; by apply Hni, K3|done]).
  unfold on_record, once_next. destruct (bool_decide (rp_status r = act_completed)) eqn:E1; [|destruct (bool_decide (rp_status r = act_in_doubt) && negb (oc_resume c)) eqn:E2].
  - apply bool_decide_eq_true in E1. refine (move_call _ _ _ i c _ _ HI Hc _ _ (or_introl eq_refl) _); [done|done|].
    split; cbn; [done|done|done|]. right. exists (told c r). split; [by apply K1|done].
  - refine (move_call _ _ _ i c _ _ HI Hc _ _ (or_introl eq_refl) _); [done|done|]. by split.
  - cbv zeta. refine (move_call _ _ _ i c _ _ HI Hc _ _ (or_intror (conj eq_refl Hni)) _); [done|done|].
    split; cbn; [done| |by rewrite Hnv|split; [by left|done]]. intros _. split; [done|]. intros Hres. exists (told c r). split; [by apply K1|]. split; [done|].
    rewrite Hres in E2. apply bool_decide_eq_false in E1. cbn. clear - E1 E2. by destruct (rp_status r).
Qed.

Lemma os_complete_ok s0 w log i c v r s' :
  OInv s0 w log -> ow_calls w !! i = Some c -> oc_value c = Some v -> complete_action (oc_attempt c) key v (ow_session w) = Ok (r, s') ->
  OInv s0 (with_session w s') (log ++ [mkTold (oc_attempt c) None (rp_status r) (rp_result r)]).
Proof.
  intros HI Hc Hv Hco. destruct (complete_stores _ _ _ _ _ Hco) as (a & a' & Ha & Ha' & Hres & Hst).
  assert (HP : produced (ow_calls w) (rp_result r)).
  { destruct Hst as [[Hst <-]|E]; [by apply (oi_row _ _ _ HI)|]. exists i, c, v. done. }
  apply (move_session _ _ log); [done|exact (life_complete st key s0 log _ _ _ _ _ (oi_life _ _ _ HI) Hco)|set_solver| |].
  - intros t [?| ->%list_elem_of_singleton]%elem_of_app; [by left|by right].
  - intros x Hx _. simplify_eq. by rewrite Hres.
Qed.

Lemma once_step_ok s0 w log w' : OInv s0 w log -> once_step w w' -> exists log', OInv s0 w' log'.
Proof.
  intros HI Hs. destruct Hs as [n tok resume Hfresh|i c r s' Hc Hcl|i c r Hc Hst Hr|i c v Hc Hst|i c v r s' Hc Hv Hco|i c v Hc Hst|i c Hc Hst|A m a s' Hb Hm|s' Hs'].
  - exists log. destruct HI as [H1 H2 H3 [H4 H4'] H5 H6].
    assert (Hpr : forall x, produced (ow_calls w) x -> produced (ow_calls w ++ [mkOnceCall n tok resume Claiming None []]) x).
    { intros x (i & c & v & Hc & Hv). exists i, c, v. split; [by apply lookup_app_l_Some|done]. }
    split; cbn; [done| | |split; [done|]; intros i Hi; destruct (H4' i Hi) as [c Hc]; exists c; by apply lookup_app_l_Some|auto|auto].
    + rewrite fmap_app. apply NoDup_app. split; [done|]. split; [|by apply NoDup_singleton].
      intros t Ht ->%list_elem_of_singleton. apply list_elem_of_fmap in Ht as (c & E & Hin). exact (Hfresh c Hin (eq_sym E)).
    + intros i c [Hi|[Hge Hi]]%lookup_app_Some; [by apply H3|]. apply list_lookup_singleton_Some in Hi as [Hi <-].
      assert (Hn : i ∉ ow_runs w) by (intros Hin; apply H4' in Hin as [c' Hc']; apply lookup_lt_Some in Hc'; lia).
      split; cbn; [by intros r ?%elem_of_nil|done|by intros []|done].
  - eexists. by eapply os_claim_ok.
  - exists log. by apply on_record_ok.
  - exists log. pose proof (oi_calls _ _ _ HI i c Hc) as [K1 K2 K3 K4]. rewrite Hst in K4. destruct K4 as [Hi Hn].
    refine (move_call _ _ _ i c _ _ HI Hc _ _ (or_introl eq_refl) _); [done|rewrite Hn; by intros []|].
    split; cbn; [done| |done|done]. intros _. split; [done|]. by apply K2.
  - eexists. by eapply os_complete_ok.
  - exists log. pose proof (oi_calls _ _ _ HI i c Hc) as [K1 K2 K3 K4]. rewrite Hst in K4.
    refine (move_call _ _ _ i c _ _ HI Hc _ _ (or_introl eq_refl) _); [done|done|].
    split; cbn; [done| |done|left; eauto]. intros Hi. split; [done|]. by apply K2.
  - exists log. pose proof (oi_calls _ _ _ HI i c Hc) as [K1 K2 K3 K4].
    refine (move_call _ _ _ i c _ _ HI Hc _ _ (or_introl eq_refl) _); [done|done|].
    split; cbn; [done| |done|done]. intros Hi. split; [done|]. by apply K2.
  - exists log. pose proof (wp_run _ _ _ _ _ (bystander_quiet st key m Hb (ow_session w)) Hm) as Hq. simpl in Hq.
    apply (move_session _ _ log); [done|exact (life_other st key s0 log _ _ _ _ _ (oi_life _ _ _ HI) Hb Hm)|done|by left|].
    rewrite Hq. apply (oi_row _ _ _ HI).
  - exists log. apply (move_session _ _ log); [done|exact (life_elsewhere st key s0 log _ _ (oi_life _ _ _ HI) Hs')|done|by left|].
    unfold action_at. rewrite Hs'. apply (oi_row _ _ _ HI).
Qed.

Definition once0 (s0 : Session) : OnceWorld := mkOnceWorld s0 [] [].

Lemma once_history s0 w : action_at key s0 = None -> rtc once_step (once0 s0) w -> exists log, OInv s0 w log.
Proof.
  intros H0 Hs. assert (HI : exists log, OInv s0 (once0 s0) log).
  { exists []. split; cbn; [constructor|constructor|done|split; [constructor|by intros i ?%elem_of_nil]|by intros t ?%elem_of_nil|congruence]. }
  induction Hs as [|w1 w2 w3 H _ IH]; [done|]. destruct HI as [log HI]. apply IH. by eapply once_step_ok.
Qed.

(** Two calls that were told [claimed] are one. *)
Lemma claimed_token s0 w log t t' :
  action_at key s0 = None -> OInv s0 w log -> t ∈ log -> t' ∈ log -> told_status t = act_claimed -> told_status t' = act_claimed ->
  told_token t = told_token t'.
Proof.
  intros H0 HI Ht Ht' Hs Hs'. destruct (life_consistent _ _ _ _ _ H0 (oi_life _ _ _ HI)) as (_ & HC & _).
  apply list_elem_of_lookup in Ht as [i Hi]. apply list_elem_of_lookup in Ht' as [j Hj].
  destruct (Nat.lt_trichotomy i j) as [Hlt|[->|Hlt]]; [|congruence|].
  - destruct (HC i j _ _ Hlt Hi Hj) as [H _]. symmetry. by apply H.
  - destruct (HC j i _ _ Hlt Hj Hi) as [H _]. by apply H.
Qed.

End once.
