(* ===== verification/Events.v ===== *)
(** * The agent's event buffer ([python_sdk/events.py])

    [EventsClient]: events are appended to a bounded buffer and delivered in batches by a flush that
    holds a lock while it waits for the broker.  Each code segment between two awaits is one
    function; the steps interleave them with events that are added meanwhile.  Events are named by
    their [clientEventId]; their payloads are not modelled. *)

From S2P Require Import Prelude.

Section client.
Context (max_batch max_buffer : nat).

(** The flush that holds the lock: it waits for the answer to a batch, or resends the events of a
    rejected batch one by one and waits for the answer to the first of [todo]. *)
Inductive Flush :=
| Posting (batch : list N)
| Salvaging (batch todo : list N).

Record EventsClient := mkEvents {
  ev_buffer : list N;
  ev_dropped : nat;
  ev_flush : option Flush
}.

(** [_add], up to the flush it may start *)
Definition add_event (e : N) (c : EventsClient) : EventsClient :=
  let buffer := ev_buffer c ++ [e] in
  let overflow := (length buffer - max_buffer)%nat in
  mkEvents (drop overflow buffer) (ev_dropped c + overflow) (ev_flush c).

(** [flush]: the head of the loop *)
Definition next_batch (c : EventsClient) : EventsClient :=
  match ev_buffer c with
  | [] => mkEvents [] (ev_dropped c) None
  | _ => mkEvents (ev_buffer c) (ev_dropped c) (Some (Posting (take max_batch (ev_buffer c))))
  end.

(** The broker's answer to one post: accepted, an error that is retryable, or another error. *)
Inductive PostReply := Accepted | Unavailable | Refused.

(** The tail of the loop, [del self._buffer[: len(batch)]], then its head again. *)
Definition batch_done (batch : list N) (c : EventsClient) : EventsClient :=
  next_batch (mkEvents (drop (length batch) (ev_buffer c)) (ev_dropped c) (ev_flush c)).

(** The exception leaves [flush] and releases the lock. *)
Definition flush_raises (c : EventsClient) : EventsClient := mkEvents (ev_buffer c) (ev_dropped c) None.

Definition salvage_next (batch todo : list N) (c : EventsClient) : EventsClient :=
  match todo with
  | [] => batch_done batch c
  | _ => mkEvents (ev_buffer c) (ev_dropped c) (Some (Salvaging batch todo))
  end.

(** What the flush does with an answer, and the events it then counts as rejected. *)
Definition on_reply (r : PostReply) (c : EventsClient) : EventsClient * list N :=
  match ev_flush c with
  | None => (c, [])
  | Some (Posting batch) =>
      match r with
      | Accepted => (batch_done batch c, [])
      | Unavailable => (flush_raises c, [])
      | Refused => if (length batch =? 1)%nat then (batch_done batch c, batch) else (salvage_next batch batch c, [])
      end
  | Some (Salvaging batch todo) =>
      match r with
      | Accepted => (salvage_next batch (drop 1 todo) c, [])
      | Unavailable => (flush_raises c, [])
      | Refused => (salvage_next batch (drop 1 todo) c, take 1 todo)
      end
  end.

(** ** Histories *)

(** With what was added, what the broker was given and accepted, what it rejected, and what
    overflowed. *)
Record Ledger := mkLedger {
  lg_client : EventsClient;
  lg_added : list N;
  lg_sent : list N;
  lg_rejected : list N;
  lg_overflowed : list N
}.

Definition in_flight (c : EventsClient) : list N :=
  match ev_flush c with Some (Posting b) => b | Some (Salvaging _ todo) => take 1 todo | None => [] end.

Definition add_to (e : N) (l : Ledger) : Ledger :=
  let buffer := ev_buffer (lg_client l) ++ [e] in
  mkLedger (add_event e (lg_client l)) (lg_added l ++ [e]) (lg_sent l) (lg_rejected l)
    (lg_overflowed l ++ take (length buffer - max_buffer) buffer).

Inductive ev_step (l : Ledger) : Ledger -> Prop :=
| es_add e : ev_step l (add_to e l)
| es_flush :                      (* a flush gets the lock *)
    ev_flush (lg_client l) = None ->
    ev_step l (mkLedger (next_batch (lg_client l)) (lg_added l) (lg_sent l) (lg_rejected l) (lg_overflowed l))
| es_reply r :
    ev_step l (mkLedger (on_reply r (lg_client l)).1 (lg_added l)
      (lg_sent l ++ match r with Accepted => in_flight (lg_client l) | _ => [] end)
      (lg_rejected l ++ (on_reply r (lg_client l)).2) (lg_overflowed l))
| es_cancel :                     (* the periodic task is cancelled *)
    ev_step l (mkLedger (flush_raises (lg_client l)) (lg_added l) (lg_sent l) (lg_rejected l) (lg_overflowed l)).

Definition ledger0 : Ledger := mkLedger (mkEvents [] 0 None) [] [] [] [].

(** An event is never added to a full buffer while a flush waits for the broker. *)
Definition roomy (l l' : Ledger) : Prop :=
  ev_step l l' /\ (forall e, l' = add_to e l -> is_Some (ev_flush (lg_client l)) -> (length (ev_buffer (lg_client l)) < max_buffer)%nat).

(** Where the flush is in the buffer, and that it has dealt with the events before. *)
Definition flush_ok (l : Ledger) : Prop :=
  match ev_flush (lg_client l) with
  | None => True
  | Some (Posting b) => exists rest, ev_buffer (lg_client l) = b ++ rest
  | Some (Salvaging b todo) => exists before rest, b = before ++ todo /\ ev_buffer (lg_client l) = b ++ rest /\
      forall e, e ∈ before -> e ∈ lg_sent l ++ lg_rejected l
  end.

Record EvInv (l : Ledger) : Prop := {
  ei_flush : flush_ok l;
  ei_bound : (length (ev_buffer (lg_client l)) <= max_buffer)%nat;
  ei_dropped : ev_dropped (lg_client l) = length (lg_overflowed l);
  ei_kept : forall e, e ∈ lg_added l -> e ∈ ev_buffer (lg_client l) ++ lg_sent l ++ lg_rejected l ++ lg_overflowed l
}.

Lemma flush_ok_next c added sent rejected over :
  flush_ok (mkLedger (next_batch c) added sent rejected over).
Proof.
  unfold flush_ok, next_batch. destruct (ev_buffer c) eqn:E; cbn; [done|]. rewrite <- E. exists (drop max_batch (ev_buffer c)). by rewrite take_drop.
Qed.

Lemma next_batch_buffer c : ev_buffer (next_batch c) = ev_buffer c /\ ev_dropped (next_batch c) = ev_dropped c.
Proof. unfold next_batch. destruct (ev_buffer c) eqn:E; cbn; by rewrite ?E. Qed.

(** Deleting a batch whose events the broker has dealt with. *)
Lemma batch_done_ok l b rest sent' rejected' :
  EvInv l -> ev_buffer (lg_client l) = b ++ rest -> (forall e, e ∈ b -> e ∈ sent' ++ rejected') ->
  (forall e, e ∈ lg_sent l -> e ∈ sent') -> (forall e, e ∈ lg_rejected l -> e ∈ rejected') ->
  EvInv (mkLedger (batch_done b (lg_client l)) (lg_added l) sent' rejected' (lg_overflowed l)).
Proof.
  intros [H1 H2 H3 H4] Hb Hdone Hs Hr. unfold batch_done.
  destruct (next_batch_buffer (mkEvents (drop (length b) (ev_buffer (lg_client l))) (ev_dropped (lg_client l)) (ev_flush (lg_client l)))) as [E1 E2].
  split; cbn; [apply flush_ok_next| | |]; rewrite ?E1, ?E2; cbn.
  - rewrite length_drop. lia.
  - done.
  - rewrite Hb, drop_app_length. intros e He. specialize (H4 e He). rewrite Hb in H4. specialize (Hdone e).
    rewrite !elem_of_app in *. naive_solver.
Qed.

Lemma salvage_ok l b before todo rest sent' rejected' :
  EvInv l -> ev_buffer (lg_client l) = b ++ rest -> b = before ++ todo -> (forall e, e ∈ before -> e ∈ sent' ++ rejected') ->
  (forall e, e ∈ lg_sent l -> e ∈ sent') -> (forall e, e ∈ lg_rejected l -> e ∈ rejected') ->
  EvInv (mkLedger (salvage_next b todo (lg_client l)) (lg_added l) sent' rejected' (lg_overflowed l)).
Proof.
  intros HI Hb Ht Hdone Hs Hr. destruct todo as [|t todo].
  - eapply batch_done_ok; eauto. rewrite Ht, app_nil_r. done.
  - pose proof HI as [H1 H2 H3 H4]. split; cbn; [unfold flush_ok; cbn; eauto|done|done|].
    intros e He. specialize (H4 e He). rewrite !elem_of_app in *. naive_solver.
Qed.

(** Neither the buffer nor the ledger changes. *)
Lemma idle_ok l c' : EvInv l -> c' = flush_raises (lg_client l) \/ c' = next_batch (lg_client l) \/ c' = lg_client l ->
  EvInv (mkLedger c' (lg_added l) (lg_sent l) (lg_rejected l) (lg_overflowed l)).
Proof.
  intros [H1 H2 H3 H4] Hc. assert (E : ev_buffer c' = ev_buffer (lg_client l) /\ ev_dropped c' = ev_dropped (lg_client l)).
  { destruct Hc as [->|[->| ->]]; [done|apply next_batch_buffer|done]. }
  destruct E as [E1 E2]. split; cbn [lg_client lg_added lg_sent lg_rejected lg_overflowed]; rewrite ?E1, ?E2; try done.
  destruct Hc as [->|[->| ->]]; [done|apply flush_ok_next|exact H1].
Qed.

Lemma on_reply_ok l r :
  EvInv l -> EvInv (mkLedger (on_reply r (lg_client l)).1 (lg_added l)
      (lg_sent l ++ match r with Accepted => in_flight (lg_client l) | _ => [] end)
      (lg_rejected l ++ (on_reply r (lg_client l)).2) (lg_overflowed l)).
Proof.
  intros HI. pose proof (ei_flush _ HI) as HF. unfold flush_ok in HF. unfold on_reply, in_flight.
  destruct (ev_flush (lg_client l)) as [[b|b todo]|] eqn:Hf.
  - destruct HF as [rest Hb]. destruct r; cbn [fst snd].
    + apply (batch_done_ok l b rest); set_solver.
    + rewrite !app_nil_r. apply idle_ok; auto.
    + destruct (length b =? 1)%nat; cbn [fst snd]; [apply (batch_done_ok l b rest); set_solver|apply (salvage_ok l b [] b rest); set_solver].
  - destruct HF as (before & rest & Hb & Hbuf & Hdone). destruct r; cbn [fst snd].
    + apply (salvage_ok l b (before ++ take 1 todo) (drop 1 todo) rest); [done|done|by rewrite <- app_assoc, take_drop|set_solver|set_solver|set_solver].
    + rewrite !app_nil_r. apply idle_ok; auto.
    + apply (salvage_ok l b (before ++ take 1 todo) (drop 1 todo) rest); [done|done|by rewrite <- app_assoc, take_drop|set_solver|set_solver|set_solver].
  - cbn [fst snd]. replace (lg_sent l ++ match r with Accepted => [] | _ => [] end) with (lg_sent l) by (destruct r; by rewrite app_nil_r).
    rewrite app_nil_r. apply idle_ok; auto.
Qed.

Lemma add_ok l e :
  EvInv l -> (is_Some (ev_flush (lg_client l)) -> (length (ev_buffer (lg_client l)) < max_buffer)%nat) -> EvInv (add_to e l).
Proof.
  intros [H1 H2 H3 H4] Hroom. unfold add_to, add_event. cbv zeta. split; cbn [lg_client lg_added lg_sent lg_rejected lg_overflowed ev_buffer ev_dropped].
  - unfold flush_ok in *. cbn. destruct (ev_flush (lg_client l)) as [f|] eqn:Hf; [|done].
    specialize (Hroom ltac:(eauto)). rewrite length_app. cbn. replace (_ + 1 - max_buffer)%nat with 0%nat by lia. cbn [drop].
    destruct f as [b|b todo]; [destruct H1 as [rest ->]; exists (rest ++ [e]); by rewrite app_assoc|].
    destruct H1 as (before & rest & Hb & -> & Hd). exists before, (rest ++ [e]). split; [done|]. split; [by rewrite app_assoc|done].
  - rewrite length_drop, !length_app. cbn. lia.
  - rewrite (length_app (lg_overflowed l)), length_take, H3. lia.
  - intros x Hx. set (n := (length (ev_buffer (lg_client l) ++ [e]) - max_buffer)%nat).
    assert (Hbuf : forall x, x ∈ ev_buffer (lg_client l) ++ [e] -> x ∈ take n (ev_buffer (lg_client l) ++ [e]) \/ x ∈ drop n (ev_buffer (lg_client l) ++ [e])).
    { intros y Hy. rewrite <- elem_of_app. by rewrite take_drop. }
    specialize (Hbuf x). specialize (H4 x). rewrite !elem_of_app in *. naive_solver.
Qed.

(** No event disappears: as long as the buffer is not overrun while a flush waits for the broker,
    every event that was added is in the buffer, was accepted by the broker, was rejected by it, or
    is one of those that overflowed, of which the client keeps the exact count; and the buffer is
    never longer than its limit. *)
Theorem events_accounted l :
  rtc roomy ledger0 l ->
  (forall e, e ∈ lg_added l -> e ∈ ev_buffer (lg_client l) ++ lg_sent l ++ lg_rejected l ++ lg_overflowed l) /\
  ev_dropped (lg_client l) = length (lg_overflowed l) /\ (length (ev_buffer (lg_client l)) <= max_buffer)%nat.
Proof.
  intros Hs. enough (HI : EvInv l) by (destruct HI; done).
  assert (H0 : EvInv ledger0) by (split; cbn; [done|lia|done|by intros e ?%elem_of_nil]).
  induction Hs as [|l1 l2 l3 [H Hroom] _ IH]; [done|]. apply IH. clear IH.
  destruct H as [e|Hn|r|]; [by apply add_ok, (Hroom e)|by apply idle_ok; auto|by apply on_reply_ok|by apply idle_ok; auto].
Qed.

(** ** Draining *)

(** The flush while the broker accepts everything. *)
Definition drain (n : nat) (c : EventsClient) : EventsClient := Nat.iter n (fun c => (on_reply Accepted c).1) (next_batch c).

Lemma drain_empties n c : (1 <= max_batch)%nat -> (length (ev_buffer c) <= n)%nat -> drain n c = mkEvents [] (ev_dropped c) None.
Proof.
  intros Hb. revert c. induction n as [|n IH]; intros c Hn.
  - unfold drain. cbn. unfold next_batch. destruct (ev_buffer c); [done|simpl in Hn; lia].
  - unfold drain in *. rewrite Nat.iter_succ_r. destruct (ev_buffer c) as [|e rest] eqn:E.
    + unfold next_batch at 1. rewrite E. cbn [on_reply ev_flush fst]. exact (IH (mkEvents [] (ev_dropped c) None) ltac:(simpl; lia)).
    + unfold next_batch at 1. rewrite E. cbn [on_reply ev_flush fst ev_buffer]. unfold batch_done. cbn [ev_buffer ev_dropped ev_flush].
      rewrite IH; [done|]. cbn [ev_buffer]. rewrite length_drop, length_take. simpl in *. lia.
Qed.
End client.
