(* ===== verification/Downloads.v ===== *)
(** * Installing model files ([runtime_daemon/downloads.py])

    [ModelStore] for one model id: the staging and the installed directories by revision, the state
    file, and the download thread, whose code between two interactions with the network or the disk
    is one step; the daemon can crash between any two steps.  The manifest is kept apart from the
    files of the model.  The [json] and [urllib] layers are represented by what they return, and
    [cancel_install] waits for the thread as long as it takes. *)

From S2P Require Import Prelude Json Redaction.
From Stdlib Require Import Ascii.
#[local] Open Scope Z_scope.

Abbreviation bytes := (list ascii) (only parsing).

(** ** Plans *)

(** Where a file comes from: a path in the catalog, or the network. *)
Inductive Origin := FromCatalog (source : string) | FromHub.

Record FileItem := mkFileItem { fi_path : string; fi_size : Z; fi_sha256 : option string; fi_origin : Origin }.

(** One entry of the tree listing of the hub. *)
Record HubEntry := mkHubEntry { he_type : string; he_path : string; he_size : Z; he_lfs : option (Z * string) }.

(** [fnmatch]: a star, a question mark, sets in brackets, other characters. *)
Fixpoint set_members (p : text) : option (list (ascii * ascii) * text) :=
  match p with
  | [] => None
  | c :: p' =>
      if code c =? 93 then Some ([], p')
      else match p' with
           | d :: e :: p'' =>
               if (code d =? 45) && negb (code e =? 93) then (fun r => ((c, e) :: r.1, r.2)) <$> set_members p''
               else (fun r => ((c, c) :: r.1, r.2)) <$> set_members p'
           | _ => (fun r => ((c, c) :: r.1, r.2)) <$> set_members p'
           end
  end.
(** A bracket right after the opening one is a member. *)
Definition set_of (p : text) : option (list (ascii * ascii) * text) :=
  match p with
  | c :: p' => if code c =? 93 then (fun r => ((c, c) :: r.1, r.2)) <$> set_members p' else set_members p
  | [] => None
  end.
Definition in_set (s : list (ascii * ascii)) (c : ascii) : bool := existsb (fun r => (code r.1 <=? code c) && (code c <=? code r.2)) s.

Fixpoint fnmatch_fuel (n : nat) (name p : text) : bool :=
  match n with
  | O => false
  | S n =>
      match p with
      | [] => bool_decide (name = [])
      | c :: p' =>
          if code c =? 42 then
            fnmatch_fuel n name p' || match name with [] => false | _ :: name' => fnmatch_fuel n name' p end
          else match name with
               | [] => false
               | x :: name' =>
                   if code c =? 63 then fnmatch_fuel n name' p'
                   else if code c =? 91 then
                     let '(negated, body) := match p' with d :: p'' => if code d =? 33 then (true, p'') else (false, p') | [] => (false, []) end in
                     match set_of body with
                     | Some (s, rest) => negb (Bool.eqb (in_set s x) negated) && fnmatch_fuel n name' rest
                     | None => bool_decide (x = c) && fnmatch_fuel n name' p'
                     end
                   else bool_decide (x = c) && fnmatch_fuel n name' p'
               end
      end
  end.
Definition fnmatch (name pattern : string) : bool :=
  let n := chars name in let p := chars pattern in fnmatch_fuel (S (length n + length p)) n p.

(** [".." in Path(path).parts or path.startswith("/")] *)
Definition unsafe_path (path : string) : bool :=
  existsb (fun part => bool_decide (part = chars "..")) (split_at "/"%char (chars path)) || match chars path with c :: _ => code c =? 47 | [] => false end.

(** [_hf_files] on the entries of the listing *)
Fixpoint hub_files (patterns : list string) (entries : list HubEntry) : Result string (list FileItem) :=
  match entries with
  | [] => Ok []
  | e :: es =>
      if negb (String.eqb (he_type e) "file") || negb (existsb (fnmatch (he_path e)) patterns) then hub_files patterns es
      else if unsafe_path (he_path e) then Err "UNSAFE_PATH"%string
      else
        rest ← hub_files patterns es;
        Ok (mkFileItem (he_path e) (match he_lfs e with Some (size, _) => size | None => he_size e end) (snd <$> he_lfs e) FromHub :: rest)
  end.
Definition hf_files (revision : string) (patterns : list string) (entries : list HubEntry) : Result string (list FileItem) :=
  if negb (String.length revision =? 40)%nat then Err "UNPINNED_REVISION"%string
  else
    files ← hub_files (match patterns with [] => ["*"%string] | _ => patterns end) entries;
    match files with [] => Err "EMPTY_MODEL"%string | _ => Ok files end.

(** ** The store *)

Abbreviation Files := (gmap string bytes) (only parsing).
Record Dir := mkDir { dr_files : Files; dr_manifest : option (list FileItem) }.
#[export] Instance eta_Dir : Eta Dir := fun d => mkDir (dr_files d) (dr_manifest d).
Definition empty_dir : Dir := mkDir ∅ None.

Inductive StoreState := NOT_INSTALLED | DOWNLOADING | INSTALLED | DOWNLOAD_ERROR | DELETING.
#[export] Instance StoreState_eq : EqDecision StoreState.
Proof. solve_decision. Defined.

(** The state file; a key that is absent is [None]. *)
Record StateFile := mkStateFile {
  sf_revision : string;
  sf_state : option StoreState;
  sf_bytes_done : option Z;
  sf_bytes_total : option Z;
  sf_current_file : option string;
  sf_error : option string
}.
#[export] Instance eta_StateFile : Eta StateFile := fun s =>
  mkStateFile (sf_revision s) (sf_state s) (sf_bytes_done s) (sf_bytes_total s) (sf_current_file s) (sf_error s).

(** The download thread: planning, at the head of the loop, waiting for a response, reading it,
    verifying a file, and the three steps that install. *)
Inductive Work :=
| Planning
| Fetching (files rest : list FileItem) (done : Z)
| Requesting (files rest : list FileItem) (item : FileItem) (done have : Z)
| Reading (files rest : list FileItem) (item : FileItem) (done : Z)
| Verifying (files rest : list FileItem) (item : FileItem) (done : Z)
| Sealed (files : list FileItem)
| Cleared (files : list FileItem)
| Renamed (files : list FileItem).

Record Thread := mkThread { th_revision : string; th_cancel : bool; th_work : Work }.

Record Store := mkStore {
  so_staging : gmap string Dir;
  so_installed : gmap string Dir;
  so_state : option StateFile;
  so_thread : option Thread
}.
#[export] Instance eta_Store : Eta Store := fun s => mkStore (so_staging s) (so_installed s) (so_state s) (so_thread s).

Definition store0 : Store := mkStore ∅ ∅ None None.

Definition is_installed (rev : string) (s : Store) : bool :=
  bool_decide (is_Some (so_installed s !! rev ≫= dr_manifest)).

(** The view [state] returns. *)
Record View := mkView { vw_state : StoreState; vw_bytes_done : Z; vw_bytes_total : option Z; vw_error : option string }.

Definition state (rev : string) (s : Store) : View :=
  let data := match so_state s with Some f => if String.eqb (sf_revision f) rev then Some f else None | None => None end in
  let installed := is_installed rev s in
  let recorded := data ≫= sf_state in
  let st := if installed && negb (bool_decide (recorded = Some DELETING)) then INSTALLED
            else if negb installed && (bool_decide (recorded = None) || bool_decide (recorded = Some INSTALLED)) then NOT_INSTALLED
            else default NOT_INSTALLED recorded in
  let interrupted := bool_decide (st = DOWNLOADING) && negb (bool_decide (is_Some (so_thread s))) in
  mkView (if interrupted then DOWNLOAD_ERROR else st) (default 0 (data ≫= sf_bytes_done)) (data ≫= sf_bytes_total)
    (if interrupted then Some "INTERRUPTED"%string else data ≫= sf_error).

(** [_write_state] *)
Definition write_state (rev : string) (f : StateFile -> StateFile) (s : Store) : Store :=
  let blank := mkStateFile rev None None None None None in
  let current := match so_state s with Some c => if String.eqb (sf_revision c) rev then c else blank | None => blank end in
  s <| so_state := Some (f current) |>.

Definition set_work (w : Work) (s : Store) : Store :=
  s <| so_thread ::= fmap (fun t => mkThread (th_revision t) (th_cancel t) w) |>.

(** The thread ends with an error. *)
Definition fails (rev code : string) (s : Store) : Store :=
  write_state rev (fun f => f <| sf_state := Some DOWNLOAD_ERROR |> <| sf_error := Some code |>) s <| so_thread := None |>.

Definition staged (rev : string) (s : Store) : Dir := default empty_dir (so_staging s !! rev).
Definition put_staged (rev : string) (d : Dir) (s : Store) : Store := s <| so_staging ::= <[rev := d]> |>.
Definition put_file (rev path : string) (c : bytes) (s : Store) : Store :=
  put_staged rev (staged rev s <| dr_files ::= <[path := c]> |>) s.
Definition unlink (rev path : string) (s : Store) : Store := put_staged rev (staged rev s <| dr_files ::= delete path |>) s.

Definition len (c : bytes) : Z := Z.of_nat (length c).
Definition size_of (path : string) (d : Dir) : Z := match dr_files d !! path with Some c => len c | None => 0 end.

(** ** Operations *)

Definition start_install (rev : string) (s : Store) : Store :=
  if bool_decide (vw_state (state rev s) = INSTALLED) || bool_decide (is_Some (so_thread s)) then s
  else write_state rev (fun f => f <| sf_state := Some DOWNLOADING |> <| sf_error := None |>) s <| so_thread := Some (mkThread rev false Planning) |>.

(** [cancel_install]: sets the flag; once the thread has ended, clears the staging directory. *)
Definition cancel_install (s : Store) : Store := s <| so_thread ::= fmap (fun t => mkThread (th_revision t) true (th_work t)) |>.
Definition clear_staging (rev : string) (s : Store) : Store :=
  write_state rev (fun f => f <| sf_state := Some NOT_INSTALLED |> <| sf_bytes_done := Some 0 |> <| sf_error := None |>)
    (s <| so_staging ::= delete rev |>).

Definition delete_begin (rev : string) (s : Store) : Result string Store :=
  if bool_decide (is_Some (so_thread s)) then Err "MODEL_BUSY"%string
  else Ok (write_state rev (fun f => f <| sf_state := Some DELETING |>) s).
Definition delete_end (rev : string) (s : Store) : Store :=
  write_state rev (fun f => f <| sf_state := Some NOT_INSTALLED |> <| sf_bytes_done := Some 0 |> <| sf_bytes_total := None |> <| sf_error := None |>)
    (s <| so_installed := ∅ |> <| so_staging ::= delete rev |>).

Section worker.
Context (sha256 : bytes -> string) (disk_reserve : Z).

(** A file of the catalog: outside of it, missing, or its content. *)
Inductive CatalogFile := Outside | Missing | Content (c : bytes).

Definition present (files : list FileItem) (d : Dir) : Z :=
  foldr (fun f n => Z.min (size_of (fi_path f) d) (fi_size f) + n) 0 files.
Definition total_size (files : list FileItem) : Z := foldr (fun f n => fi_size f + n) 0 files.

(** What the thread meets. *)
Inductive WorkEvent :=
| Planned (plan : Result string (list FileItem)) (free : Z)
| Next (catalog : string -> CatalogFile)
| Responds (status : Z)
| Chunk (c : bytes)                  (* the empty chunk ends the response *)
| Breaks                             (* any other exception of the network or the disk *)
| Goes.                              (* a step that only uses the disk *)

(** The size and, where it is known, the digest of a file. *)
Definition verified (item : FileItem) (c : bytes) : bool :=
  (len c =? fi_size item) && match fi_sha256 item with Some h => String.eqb h "" || String.eqb (sha256 c) h | None => true end.

Definition verify_file (rev : string) (files rest : list FileItem) (item : FileItem) (done : Z) (s : Store) : Store :=
  match dr_files (staged rev s) !! fi_path item with
  | None => fails rev "DOWNLOAD_FAILED" s
  | Some c =>
      if verified item c then
        let done := match fi_origin item with FromCatalog _ => done + fi_size item | FromHub => done end in
        set_work (Fetching files rest done) (write_state rev (fun f => f <| sf_bytes_done := Some done |>) s)
      else fails rev "CHECKSUM_MISMATCH" (unlink rev (fi_path item) s)
  end.

(** The head of the loop over the files. *)
Definition next_file (rev : string) (cancelled : bool) (catalog : string -> CatalogFile) (files rest : list FileItem) (done : Z) (s : Store) : Store :=
  match rest with
  | [] => set_work (Sealed files) (put_staged rev (staged rev s <| dr_manifest := Some files |>) s)
  | item :: rest =>
      if cancelled then fails rev "CANCELLED" s
      else
        let s := write_state rev (fun f => f <| sf_current_file := Some (fi_path item) |>) s in
        match fi_origin item with
        | FromCatalog source =>
            match catalog source with
            | Outside => fails rev "UNSAFE_PATH" s
            | Missing => fails rev "DOWNLOAD_FAILED" s
            | Content c =>
                let done := match dr_files (staged rev s) !! fi_path item with Some old => done - Z.min (len old) (fi_size item) | None => done end in
                set_work (Verifying files rest item done) (put_file rev (fi_path item) c s)
            end
        | FromHub =>
            let have := size_of (fi_path item) (staged rev s) in
            if have <? fi_size item then set_work (Requesting files rest item done have) s
            else set_work (Verifying files rest item done) s
        end
  end.

Definition work_step (ev : WorkEvent) (s : Store) : option Store :=
  match so_thread s with
  | None => None
  | Some t =>
      let rev := th_revision t in
      match th_work t, ev with
      | _, Breaks => Some (fails rev "DOWNLOAD_FAILED" s)
      | Planning, Planned (Err code) _ => Some (fails rev code s)
      | Planning, Planned (Ok files) free =>
          let d := staged rev s in
          let s := put_staged rev d s in
          if free <? total_size files - present files d + disk_reserve then Some (fails rev "INSUFFICIENT_DISK" s)
          else Some (set_work (Fetching files files (present files d))
                      (write_state rev (fun f => f <| sf_state := Some DOWNLOADING |> <| sf_bytes_total := Some (total_size files) |>
                                                   <| sf_bytes_done := Some (present files d) |>) s))
      | Fetching files rest done, Next catalog => Some (next_file rev (th_cancel t) catalog files rest done s)
      | Requesting files rest item done have, Responds status =>
          if bool_decide (have <> 0) && (status =? 206) then Some (set_work (Reading files rest item done) s)
          else Some (set_work (Reading files rest item (done - have)) (put_file rev (fi_path item) [] s))
      | Reading files rest item done, Chunk c =>
          if th_cancel t then Some (fails rev "CANCELLED" s)
          else match c with
               | [] => Some (set_work (Verifying files rest item done) s)
               | _ =>
                   let old := default [] (dr_files (staged rev s) !! fi_path item) in
                   let done := done + len c in
                   Some (set_work (Reading files rest item done)
                          (write_state rev (fun f => f <| sf_bytes_done := Some done |>) (put_file rev (fi_path item) (old ++ c) s)))
               end
      | Verifying files rest item done, Goes => Some (verify_file rev files rest item done s)
      | Sealed files, Goes => Some (set_work (Cleared files) (s <| so_installed ::= delete rev |>))
      | Cleared files, Goes =>
          Some (set_work (Renamed files) (s <| so_installed ::= <[rev := staged rev s]> |> <| so_staging ::= delete rev |>))
      | Renamed files, Goes =>
          Some (write_state rev (fun f => f <| sf_state := Some INSTALLED |> <| sf_bytes_done := Some (total_size files) |>
                                            <| sf_current_file := None |> <| sf_error := None |>) s <| so_thread := None |>)
      | _, _ => None
      end
  end.

(** ** Histories *)

Inductive store_step (s : Store) : Store -> Prop :=
| ss_start rev : store_step s (start_install rev s)
| ss_cancel : store_step s (cancel_install s)
| ss_clear rev : so_thread s = None -> store_step s (clear_staging rev s)
| ss_delete rev s' : delete_begin rev s = Ok s' -> store_step s (delete_end rev s')
| ss_work ev s' : work_step ev s = Some s' ->
    (forall files free, ev = Planned (Ok files) free -> NoDup (map fi_path files)) -> store_step s s'
| ss_crash : store_step s (s <| so_thread := None |>).   (* the daemon restarts *)

(** The daemon stops in the middle of a deletion: only what [kept] leaves is still there. *)
Definition half_deleted (rev : string) (kept : string -> Files -> Files) (s : Store) : Result string Store :=
  s' ← delete_begin rev s;
  Ok (s' <| so_installed ::= map_imap (fun r d => Some (mkDir (kept r (dr_files d)) (dr_manifest d))) |>).

(** ** What is installed was verified *)

Definition all_ok (items : list FileItem) (d : Dir) : Prop :=
  forall item, item ∈ items -> exists c, dr_files d !! fi_path item = Some c /\ verified item c = true.
Definition dir_ok (d : Dir) : Prop := forall files, dr_manifest d = Some files -> all_ok files d.

(** The files before the current one are staged and verified. *)
Definition behind (files before after : list FileItem) (d : Dir) : Prop :=
  NoDup (map fi_path files) /\ files = before ++ after /\ all_ok before d.
Definition work_ok (d : Dir) (w : Work) : Prop :=
  match w with
  | Planning | Renamed _ => True
  | Fetching files rest _ => exists before, behind files before rest d
  | Requesting files rest item _ _ | Reading files rest item _ | Verifying files rest item _ => exists before, behind files before (item :: rest) d
  | Sealed files | Cleared files => dr_manifest d = Some files /\ all_ok files d
  end.

Record SInv (s : Store) : Prop := {
  si_installed : forall rev d, so_installed s !! rev = Some d -> dir_ok d;
  si_work : forall t, so_thread s = Some t -> work_ok (staged (th_revision t) s) (th_work t)
}.

Lemma all_ok_app items items' d : all_ok (items ++ items') d <-> all_ok items d /\ all_ok items' d.
Proof. unfold all_ok. setoid_rewrite elem_of_app. naive_solver. Qed.

(** Writing the current file leaves those before it alone. *)
Lemma behind_write files before item rest d c :
  behind files before (item :: rest) d -> behind files before (item :: rest) (d <| dr_files ::= <[fi_path item := c]> |>).
Proof.
  intros (Hnd & -> & Hok). split; [done|]. split; [done|]. intros x Hx. destruct (Hok x Hx) as (c' & Hc & Hv). exists c'. split; [|done].
  cbn. rewrite lookup_insert_ne; [done|]. intros E. rewrite map_app, NoDup_app in Hnd. destruct Hnd as (_ & Hdis & _).
  apply (Hdis (fi_path x)); [by apply list_elem_of_fmap_2|]. rewrite <- E. cbn. by left.
Qed.

Lemma behind_next files before item rest d c :
  behind files before (item :: rest) d -> dr_files d !! fi_path item = Some c -> verified item c = true -> behind files (before ++ [item]) rest d.
Proof.
  intros (Hnd & -> & Hok) Hc Hv. split; [done|]. split; [by rewrite <- app_assoc|]. apply all_ok_app. split; [done|].
  intros x ->%list_elem_of_singleton. eauto.
Qed.

Lemma staged_put rev d s : staged rev (put_staged rev d s) = d.
Proof. unfold staged, put_staged. cbn. by rewrite lookup_insert_eq. Qed.

(** The thread ends. *)
Lemma fails_ok rev code s : SInv s -> SInv (fails rev code s).
Proof. intros [H1 H2]. split; [exact H1|done]. Qed.

(** The thread goes on, and nothing that is installed changes. *)
Lemma goes_ok s s' t w :
  SInv s -> so_thread s = Some t -> so_installed s' = so_installed s -> so_thread s' = so_thread s ->
  work_ok (staged (th_revision t) s') w -> SInv (set_work w s').
Proof.
  intros [H1 H2] Ht Hi Ht' Hw. split; [intros r d Hd; apply (H1 r d); by rewrite <- Hi|]. intros t' E. unfold set_work in E. cbn in E. rewrite Ht', Ht in E. cbn in E.
  injection E as <-. exact Hw.
Qed.

Lemma verify_ok t files rest item done s :
  SInv s -> so_thread s = Some t -> th_work t = Verifying files rest item done -> SInv (verify_file (th_revision t) files rest item done s).
Proof.
  intros HI Ht Hw. pose proof (si_work _ HI t Ht) as Hok. rewrite Hw in Hok. destruct Hok as [before Hb]. unfold verify_file.
  destruct (dr_files _ !! _) as [c|] eqn:Hc; [|by apply fails_ok]. destruct (verified item c) eqn:Hv.
  - eapply goes_ok; [exact HI|exact Ht|done|done|]. exists (before ++ [item]). by eapply behind_next.
  - apply fails_ok. split; [apply HI|]. intros t' E. cbn in E. rewrite Ht in E. injection E as <-. rewrite Hw. exists before.
    unfold unlink. rewrite staged_put. destruct Hb as (Hnd & -> & Hok). split; [done|]. split; [done|]. intros x Hx. destruct (Hok x Hx) as (c' & Hc' & Hv'). exists c'. split; [|done].
    cbn. rewrite lookup_delete_ne; [done|]. intros E. rewrite map_app, NoDup_app in Hnd. destruct Hnd as (_ & Hdis & _).
    apply (Hdis (fi_path x)); [by apply list_elem_of_fmap_2|]. rewrite <- E. cbn. by left.
Qed.

Lemma next_ok t cancelled catalog files rest done s :
  SInv s -> so_thread s = Some t -> th_work t = Fetching files rest done -> SInv (next_file (th_revision t) cancelled catalog files rest done s).
Proof.
  intros HI Ht Hw. pose proof (si_work _ HI t Ht) as Hok. rewrite Hw in Hok. destruct Hok as [before Hb]. unfold next_file.
  destruct rest as [|item rest].
  - eapply goes_ok; [exact HI|exact Ht|done|done|]. rewrite staged_put. destruct Hb as (_ & -> & Hok). rewrite app_nil_r. by split.
  - destruct cancelled; [by apply fails_ok|]. cbv zeta.
    set (s1 := write_state (th_revision t) _ s). assert (HI1 : SInv s1) by (destruct HI; by split).
    destruct (fi_origin item) as [source|].
    + destruct (catalog source) as [| |c]; [by apply fails_ok|by apply fails_ok|]. eapply goes_ok; [exact HI1|exact Ht|done|done|].
      exists before. unfold put_file. rewrite staged_put. by apply behind_write.
    + destruct (_ <? _); (eapply goes_ok; [exact HI1|exact Ht|done|done|]); by exists before.
Qed.

Lemma work_step_ok ev s s' :
  SInv s -> work_step ev s = Some s' -> (forall files free, ev = Planned (Ok files) free -> NoDup (map fi_path files)) -> SInv s'.
Proof.
  intros HI Hs Hnd. unfold work_step in Hs. destruct (so_thread s) as [t|] eqn:Ht; [|done]. pose proof (si_work _ HI t Ht) as Hok. cbv zeta in Hs.
  assert (Hfail : forall code, SInv (fails (th_revision t) code s)) by (intros code; by apply fails_ok).
  destruct (th_work t) as [|files rest done|files rest item done have|files rest item done|files rest item done|files|files|files] eqn:Hw, ev as [plan free|catalog|status|c| |]; cbn in Hs; try discriminate Hs; try (injection Hs as <-; exact (Hfail _)).
  - destruct plan as [files|code]; [|injection Hs as <-; exact (Hfail _)]. destruct (_ <? _); injection Hs as <-.
    + split; [exact (si_installed _ HI)|done].
    + eapply goes_ok; [exact HI|exact Ht|done|done|]. exists []. split; [by eapply Hnd|]. split; [done|]. by intros x ?%elem_of_nil.
  - injection Hs as <-. by apply next_ok.
  - destruct (bool_decide _ && _); injection Hs as <-; (eapply goes_ok; [exact HI|exact Ht|done|done|]); destruct Hok as [before Hb]; exists before; [done|].
    unfold put_file. rewrite staged_put. by apply behind_write.
  - destruct (th_cancel t); [injection Hs as <-; exact (Hfail _)|]. destruct c as [|x c]; injection Hs as <-; (eapply goes_ok; [exact HI|exact Ht|done|done|]).
    + exact Hok.
    + destruct Hok as [before Hb]. exists before. change (staged (th_revision t) (write_state ?r ?f ?s)) with (staged (th_revision t) s).
      unfold put_file. rewrite staged_put. by apply behind_write.
  - injection Hs as <-. by apply verify_ok.
  - injection Hs as <-. split; [|intros t' E; cbn in E; rewrite Ht in E; injection E as <-; exact Hok].
    intros r d Hd. cbn in Hd. apply lookup_delete_Some in Hd as [_ Hd]. by eapply (si_installed _ HI).
  - injection Hs as <-. split; [|intros t' E; cbn in E; rewrite Ht in E; by injection E as <-].
    intros r d Hd. cbn in Hd. apply lookup_insert_Some in Hd as [[_ <-]|[_ Hd]]; [|by eapply (si_installed _ HI)].
    intros files' E. destruct Hok as [E' Hall]. rewrite E' in E. by injection E as <-.
  - injection Hs as <-. split; [exact (si_installed _ HI)|done].
Qed.

Lemma store_step_ok s s' : SInv s -> store_step s s' -> SInv s'.
Proof.
  intros HI Hs. pose proof HI as [H1 H2]. destruct Hs as [rev| |rev Hn|rev s' Hd|ev s' Hw Hnd|].
  - unfold start_install. destruct (_ || _); [done|]. split; [exact H1|]. intros t E. by injection E as <-.
  - split; [exact H1|]. intros t E. cbn in E. apply fmap_Some in E as (t' & Ht & ->). exact (H2 t' Ht).
  - split; [exact H1|]. intros t E. cbn in E. congruence.
  - unfold delete_begin in Hd. destruct (bool_decide _) eqn:Hb; [done|]. injection Hd as <-. split; [intros r d E; cbn in E; by rewrite lookup_empty in E|].
    intros t E. cbn in E. apply bool_decide_eq_false in Hb. rewrite E in Hb. exfalso. apply Hb. eauto.
  - by eapply work_step_ok.
  - split; [exact H1|done].
Qed.


(** ** Downloads resume and complete *)

Section complete.
Context (published : string -> bytes) (rev : string).

(** A plan of files that the hub serves, and staged files that are beginnings of them. *)
Definition hub_plan (files : list FileItem) : Prop :=
  NoDup (map fi_path files) /\
  forall item, item ∈ files -> fi_origin item = FromHub /\ 0 < fi_size item /\ verified item (published (fi_path item)) = true.
Definition resumable (files : list FileItem) (d : Dir) : Prop :=
  forall item c, item ∈ files -> dr_files d !! fi_path item = Some c -> c `prefix_of` published (fi_path item).

Definition play (evs : list WorkEvent) (s : Store) : option Store := fold_left (fun o ev => o ≫= work_step ev) evs (Some s).

Lemma play_app evs evs' s s' : play evs s = Some s' -> play (evs ++ evs') s = play evs' s'.
Proof. unfold play. intros H. by rewrite fold_left_app, H. Qed.

(** What the hub sends for a file of which [have] bytes are staged. *)
Definition delivery (item : FileItem) (d : Dir) : list WorkEvent :=
  let have := size_of (fi_path item) d in
  Next (fun _ => Missing) ::
  (if have <? fi_size item then [Responds 206; Chunk (drop (Z.to_nat have) (published (fi_path item))); Chunk []] else []) ++ [Goes].

(** The thread is at [w], with [d] staged and [inst] installed. *)
Definition at_work (w : Work) (d : Dir) (inst : gmap string Dir) (s : Store) : Prop :=
  so_thread s = Some (mkThread rev false w) /\ staged rev s = d /\ so_installed s = inst.

(** One step, of the thread and of what it has written. *)
Definition steps_to (ev : WorkEvent) (s : Store) (w : Work) (d : Dir) (inst : gmap string Dir) : Prop :=
  exists s', work_step ev s = Some s' /\ at_work w d inst s'.

Lemma at_set_work w w' d inst s : at_work w d inst s -> at_work w' d inst (set_work w' s).
Proof. intros (Ht & Hd & Hi). split; [cbn; by rewrite Ht|done]. Qed.
Lemma at_write_state w d inst f s : at_work w d inst s -> at_work w d inst (write_state rev f s).
Proof. done. Qed.
Lemma at_put_staged w d d' inst s : at_work w d inst s -> at_work w d' inst (put_staged rev d' s).
Proof. intros (Ht & Hd & Hi). split; [done|]. split; [apply staged_put|done]. Qed.
Lemma at_put_file w d inst path c s : at_work w d inst s -> at_work w (d <| dr_files ::= <[path := c]> |>) inst (put_file rev path c s).
Proof. intros (Ht & Hd & Hi). split; [done|]. split; [unfold put_file; by rewrite staged_put, Hd|done]. Qed.
#[local] Hint Resolve at_set_work at_write_state at_put_staged at_put_file : core.

Ltac one_step H := destruct H as (Ht & Hd & Hi); unfold steps_to, work_step; rewrite Ht; cbn [th_revision th_work th_cancel].

Lemma next_hub cat files item rest done d inst s :
  at_work (Fetching files (item :: rest) done) d inst s -> fi_origin item = FromHub ->
  steps_to (Next cat) s
    (if size_of (fi_path item) d <? fi_size item then Requesting files rest item done (size_of (fi_path item) d) else Verifying files rest item done) d inst.
Proof.
  intros H Ho. pose proof H as H0. one_step H. unfold next_file. cbv zeta. rewrite Ho. change (staged rev (write_state rev ?f s)) with (staged rev s). rewrite Hd.
  destruct (_ <? _); (eexists; split; [reflexivity|]); eapply at_set_work, at_write_state, H0.
Qed.

Lemma responds files item rest done have d inst s :
  at_work (Requesting files rest item done have) d inst s ->
  exists done', steps_to (Responds 206) s (Reading files rest item done')
    (if bool_decide (have = 0) then d <| dr_files ::= <[fi_path item := []]> |> else d) inst.
Proof.
  intros H. pose proof H as H0. one_step H. destruct (decide (have = 0)) as [Hh|Hh].
  - rewrite (bool_decide_eq_false_2 (have <> 0)), (bool_decide_eq_true_2 (have = 0)) by auto. cbn [andb].
    eexists. eexists. split; [reflexivity|]. eapply at_set_work, at_put_file, H0.
  - rewrite (bool_decide_eq_true_2 (have <> 0)), (bool_decide_eq_false_2 (have = 0)) by done. cbn [andb Z.eqb Pos.eqb].
    eexists. eexists. split; [reflexivity|]. eapply at_set_work, H0.
Qed.

Lemma chunk files item rest done x c d inst s :
  at_work (Reading files rest item done) d inst s ->
  exists done', steps_to (Chunk (x :: c)) s (Reading files rest item done')
    (d <| dr_files ::= <[fi_path item := default [] (dr_files d !! fi_path item) ++ x :: c]> |>) inst.
Proof.
  intros H. pose proof H as H0. one_step H. cbv zeta. rewrite Hd. eexists. eexists. split; [reflexivity|]. eapply at_set_work, at_write_state, at_put_file, H0.
Qed.

Lemma end_of_response files item rest done d inst s :
  at_work (Reading files rest item done) d inst s -> steps_to (Chunk []) s (Verifying files rest item done) d inst.
Proof. intros H. pose proof H as H0. one_step H. eexists. split; [reflexivity|]. eapply at_set_work, H0. Qed.

Lemma verifies files item rest done c d inst s :
  at_work (Verifying files rest item done) d inst s -> dr_files d !! fi_path item = Some c -> verified item c = true ->
  exists done', steps_to Goes s (Fetching files rest done') d inst.
Proof.
  intros H Hc Hv. pose proof H as H0. one_step H. unfold verify_file. rewrite Hd, Hc, Hv. eexists. eexists. split; [reflexivity|].
  eapply at_set_work, at_write_state, H0.
Qed.

Lemma play_cons ev evs s w d inst (P : Store -> Prop) :
  steps_to ev s w d inst -> (forall s1, at_work w d inst s1 -> exists s', play evs s1 = Some s' /\ P s') -> exists s', play (ev :: evs) s = Some s' /\ P s'.
Proof. intros (s1 & H1 & Hat) Hk. destruct (Hk s1 Hat) as (s' & Hp & HP). exists s'. split; [|done]. unfold play in *. cbn. by rewrite H1. Qed.

Lemma verified_len item c : verified item c = true -> len c = fi_size item.
Proof. unfold verified. intros [H _]%andb_true_iff. by apply Z.eqb_eq. Qed.

(** The staged file with what the hub sends after it. *)
Lemma resumed item d :
  fi_size item = len (published (fi_path item)) -> (forall c, dr_files d !! fi_path item = Some c -> c `prefix_of` published (fi_path item)) ->
  let have := size_of (fi_path item) d in
  default [] (dr_files d !! fi_path item) ++ drop (Z.to_nat have) (published (fi_path item)) = published (fi_path item) /\
  (have < fi_size item -> exists x r, drop (Z.to_nat have) (published (fi_path item)) = x :: r) /\
  (0 < fi_size item -> fi_size item <= have -> dr_files d !! fi_path item = Some (published (fi_path item))).
Proof.
  intros Hs Hp. unfold size_of, len in *. destruct (dr_files d !! fi_path item) as [c|]; cbv zeta; cbn [default from_option id].
  - destruct (Hp c eq_refl) as [k Hk]. rewrite Nat2Z.id, Hk, drop_app_length. split; [done|]. rewrite Hk, length_app in Hs. split.
    + intros Hlt. destruct k as [|x k]; [simpl in Hs; lia|eauto].
    + intros _ Hle. destruct k; [by rewrite app_nil_r|simpl in Hs; lia].
  - split; [done|]. split; [|lia]. intros Hlt. destruct (published (fi_path item)) as [|x k]; [simpl in Hs; lia|simpl; eauto].
Qed.

Definition store_file (item : FileItem) (d : Dir) : Dir := d <| dr_files ::= <[fi_path item := published (fi_path item)]> |>.

(** One file is fetched, from where an earlier attempt stopped. *)
Lemma fetch_one files item rest done d inst s :
  at_work (Fetching files (item :: rest) done) d inst s -> fi_origin item = FromHub -> 0 < fi_size item ->
  verified item (published (fi_path item)) = true -> (forall c, dr_files d !! fi_path item = Some c -> c `prefix_of` published (fi_path item)) ->
  exists s', play (delivery item d) s = Some s' /\ exists done', at_work (Fetching files rest done') (store_file item d) inst s'.
Proof.
  intros Hat Ho Hsz Hv Hpre. pose proof (verified_len _ _ Hv) as Hlen. destruct (resumed item d (eq_sym Hlen) Hpre) as (R1 & R2 & R3).
  unfold delivery. cbv zeta in *. set (have := size_of (fi_path item) d) in *. eapply play_cons; [by apply next_hub|]. fold have.
  destruct (have <? fi_size item) eqn:Hh; reflect_all; intros s1 Hat1.
  - destruct (R2 Hh) as (x & r & Hx). rewrite Hx in *. cbn [app]. destruct (responds _ _ _ _ _ _ _ _ Hat1) as [done1 H1].
    eapply play_cons; [exact H1|]. intros s2 Hat2. destruct (chunk _ _ _ _ x r _ _ _ Hat2) as [done2 H2]. eapply play_cons; [exact H2|].
    assert (E : (if bool_decide (have = 0) then d <| dr_files ::= <[fi_path item := []]> |> else d)
        <| dr_files ::= <[fi_path item := default [] (dr_files (if bool_decide (have = 0) then d <| dr_files ::= <[fi_path item := []]> |> else d) !! fi_path item) ++ x :: r]> |>
        = store_file item d).
    { unfold store_file. case_bool_decide as H0; [|by rewrite R1]. unfold have, size_of, len in H0.
      assert (En : default [] (dr_files d !! fi_path item) = []) by (destruct (dr_files d !! fi_path item) as [[|]|]; try done; simpl in H0; lia).
      rewrite En in R1. destruct d as [fs m]. cbv [update dr_files dr_manifest]. rewrite lookup_insert_eq. cbn [default from_option id app].
      f_equal. rewrite insert_insert_eq. by rewrite <- R1. }
    rewrite E. intros s3 Hat3. eapply play_cons; [by apply end_of_response|]. intros s4 Hat4.
    destruct (verifies _ _ _ _ (published (fi_path item)) _ _ _ Hat4) as [done3 H4]; [apply lookup_insert_eq|done|].
    eapply play_cons; [exact H4|]. intros s5 Hat5. exists s5. split; [done|]. by exists done3.
  - cbn [app]. specialize (R3 Hsz Hh). destruct (verifies _ _ _ _ _ _ _ _ Hat1 R3 Hv) as [done1 H1]. eapply play_cons; [exact H1|].
    intros s2 Hat2. exists s2. split; [done|]. exists done1. replace (store_file item d) with d; [done|].
    unfold store_file. destruct d as [fs m]. cbv [update dr_files dr_manifest]. f_equal. symmetry. by apply insert_id.
Qed.

Definition fetched (items : list FileItem) (d : Dir) : Prop := forall item, item ∈ items -> dr_files d !! fi_path item = Some (published (fi_path item)).

Lemma fetch_all files rest done d inst s :
  at_work (Fetching files rest done) d inst s -> hub_plan rest -> resumable rest d ->
  exists evs s', play evs s = Some s' /\ exists done' d', at_work (Fetching files [] done') d' inst s' /\ fetched rest d' /\
    forall path, path ∉ map fi_path rest -> dr_files d' !! path = dr_files d !! path.
Proof.
  revert done d s. induction rest as [|item rest IH]; intros done d s Hat [Hnd Hhub] Hpre.
  - exists [], s. split; [done|]. exists done, d. split; [done|]. split; [by intros x ?%elem_of_nil|done].
  - apply NoDup_cons in Hnd as [Hni Hnd]. destruct (Hhub item ltac:(by left)) as (Ho & Hsz & Hv).
    destruct (fetch_one files item rest done d inst s Hat Ho Hsz Hv) as (s1 & Hp1 & done1 & Hat1); [intros c Hc; by apply (Hpre item c); [left|]|].
    assert (Hother : forall path, path <> fi_path item -> dr_files (store_file item d) !! path = dr_files d !! path) by (intros path Hne; exact (lookup_insert_ne _ _ _ _ (not_eq_sym Hne))).
    destruct (IH done1 (store_file item d) s1 Hat1) as (evs & s2 & Hp2 & done2 & d2 & Hat2 & Hf & Hrest).
    + split; [done|]. intros x Hx. apply Hhub. by right.
    + intros x c Hx Hc. rewrite Hother in Hc; [by apply (Hpre x c); [right|]|]. intros E. apply Hni. rewrite <- E. by apply (list_elem_of_fmap_2 fi_path).
    + exists (delivery item d ++ evs), s2. split; [by rewrite (play_app _ _ _ _ Hp1)|]. exists done2, d2. split; [done|]. split.
      * intros x [->|Hx]%elem_of_cons; [|by apply Hf]. rewrite Hrest by done. exact (lookup_insert_eq _ _ _).
      * intros path [Hne Hnr]%not_elem_of_cons. by rewrite Hrest, Hother.
Qed.

Lemma seals cat files done d inst s :
  at_work (Fetching files [] done) d inst s -> steps_to (Next cat) s (Sealed files) (mkDir (dr_files d) (Some files)) inst.
Proof. intros H. pose proof H as H0. one_step H. unfold next_file. rewrite Hd. eexists. split; [reflexivity|]. eapply at_set_work, at_put_staged, H0. Qed.

Lemma clears files d inst s : at_work (Sealed files) d inst s -> steps_to Goes s (Cleared files) d (delete rev inst).
Proof. intros H. one_step H. eexists. split; [reflexivity|]. split; [cbn; by rewrite Ht|]. split; [exact Hd|]. cbn. by rewrite Hi. Qed.

Lemma renames files d inst s : at_work (Cleared files) d inst s -> steps_to Goes s (Renamed files) empty_dir (<[rev := d]> inst).
Proof.
  intros H. one_step H. eexists. split; [reflexivity|]. split; [cbn; by rewrite Ht|]. split; [|cbn; by rewrite Hd, Hi].
  unfold staged. cbn. by rewrite lookup_delete_eq.
Qed.

(** The thread reports and ends. *)
Lemma reports files d inst s :
  at_work (Renamed files) d inst s -> exists s', work_step Goes s = Some s' /\ so_thread s' = None /\ so_installed s' = inst /\
    exists f, so_state s' = Some f /\ sf_revision f = rev /\ sf_state f = Some INSTALLED /\ sf_bytes_done f = Some (total_size files).
Proof.
  intros H. one_step H. eexists. split; [reflexivity|]. split; [done|]. split; [exact Hi|]. eexists. split; [reflexivity|].
  destruct (so_state s) as [c|]; [destruct (String.eqb_spec (sf_revision c) rev); [subst; done|done]|done].
Qed.

(** Sealing, replacing the old revision and reporting. *)
Lemma installs files done d inst s :
  at_work (Fetching files [] done) d inst s ->
  exists s', play [Next (fun _ => Missing); Goes; Goes; Goes] s = Some s' /\ (so_thread s' = None /\
    so_installed s' !! rev = Some (mkDir (dr_files d) (Some files)) /\
    exists f, so_state s' = Some f /\ sf_revision f = rev /\ sf_state f = Some INSTALLED /\ sf_bytes_done f = Some (total_size files)).
Proof.
  intros Hat. eapply play_cons; [by eapply seals|]. intros s1 H1. eapply play_cons; [by apply clears|]. intros s2 H2.
  eapply play_cons; [by apply renames|]. intros s3 H3. destruct (reports _ _ _ _ H3) as (s4 & Hs & Ht & Hi & Hf).
  exists s4. split; [unfold play; cbn; by rewrite Hs|]. split; [done|]. rewrite Hi, lookup_insert_eq. done.
Qed.

End complete.
End worker.
