(* ===== verification/Regex.v ===== *)
(** * Regular expressions

    The anchored patterns of the services ([re.compile(r"^...$")] without groups that are read)
    as expressions over character classes, matched by derivatives, with the language they
    denote.  [lang] is the specification, [matches] the executable matcher. *)

From S2P Require Import Prelude Redaction.
From Stdlib Require Import Ascii.
#[local] Open Scope nat_scope.

Inductive re :=
| Nothing
| Empty
| Chr (p : ascii -> bool)
| Cat (a b : re)
| Alt (a b : re)
| Star (a : re).

Inductive lang : re -> text -> Prop :=
| lang_empty : lang Empty []
| lang_chr p c : p c = true -> lang (Chr p) [c]
| lang_cat a b s t : lang a s -> lang b t -> lang (Cat a b) (s ++ t)
| lang_alt_l a b s : lang a s -> lang (Alt a b) s
| lang_alt_r a b s : lang b s -> lang (Alt a b) s
| lang_star_nil a : lang (Star a) []
| lang_star_app a s t : lang a s -> lang (Star a) t -> lang (Star a) (s ++ t).

(** ** Abbreviations of the pattern syntax *)

Definition opt (r : re) : re := Alt Empty r.
Definition plus (r : re) : re := Cat r (Star r).
Fixpoint word (s : text) : re :=
  match s with [] => Empty | c :: s' => Cat (Chr (Ascii.eqb c)) (word s') end.
Fixpoint times (n : nat) (r : re) : re := match n with O => Empty | S n' => Cat r (times n' r) end.
Fixpoint upto (n : nat) (r : re) : re := match n with O => Empty | S n' => opt (Cat r (upto n' r)) end.

(** ** The matcher *)

Fixpoint nullable (r : re) : bool :=
  match r with
  | Empty | Star _ => true
  | Cat a b => nullable a && nullable b
  | Alt a b => nullable a || nullable b
  | _ => false
  end.

Definition cat (a b : re) : re :=
  match a, b with
  | Nothing, _ | _, Nothing => Nothing
  | Empty, r | r, Empty => r
  | _, _ => Cat a b
  end.
Definition alt (a b : re) : re :=
  match a, b with Nothing, r | r, Nothing => r | _, _ => Alt a b end.

Fixpoint deriv (c : ascii) (r : re) : re :=
  match r with
  | Nothing | Empty => Nothing
  | Chr p => if p c then Empty else Nothing
  | Cat a b => if nullable a then alt (cat (deriv c a) b) (deriv c b) else cat (deriv c a) b
  | Alt a b => alt (deriv c a) (deriv c b)
  | Star a => cat (deriv c a) (Star a)
  end.

Fixpoint matches (r : re) (s : text) : bool :=
  match s with [] => nullable r | c :: s' => matches (deriv c r) s' end.

(** [re.match] with a pattern anchored by [^] and [$]: Python's [$] also matches before a
    newline that ends the string. *)
Definition anchored (r : re) (s : text) : bool :=
  matches r s || (bool_decide (last s = Some "010"%char) && matches r (removelast s)).

(** ** The matcher decides the language *)

Lemma lang_nothing s : ~ lang Nothing s.
Proof. inversion 1. Qed.
Lemma lang_empty_iff s : lang Empty s <-> s = [].
Proof. split; [by inversion 1|intros ->; constructor]. Qed.
Lemma lang_cat_iff a b s : lang (Cat a b) s <-> exists s1 s2, s = s1 ++ s2 /\ lang a s1 /\ lang b s2.
Proof. split; [inversion 1; subst; eauto|intros (s1 & s2 & -> & ? & ?); by constructor]. Qed.
Lemma lang_alt_iff a b s : lang (Alt a b) s <-> lang a s \/ lang b s.
Proof. split; [inversion 1; subst; auto|intros [?|?]; [by apply lang_alt_l|by apply lang_alt_r]]. Qed.

Lemma cat_lang a b s : lang (cat a b) s <-> lang (Cat a b) s.
Proof.
  assert (Hl : lang (Cat Empty b) s <-> lang b s).
  { rewrite lang_cat_iff. split; [intros (s1 & s2 & -> & H & ?); by apply lang_empty_iff in H as ->|].
    intros. exists [], s. split_and!; [done|constructor|done]. }
  assert (Hr : lang (Cat a Empty) s <-> lang a s).
  { rewrite lang_cat_iff. split; [intros (s1 & s2 & -> & ? & H); apply lang_empty_iff in H as ->; by rewrite app_nil_r|].
    intros. exists s, []. rewrite app_nil_r. split_and!; [done|done|constructor]. }
  assert (Hn : lang (Cat Nothing b) s <-> lang Nothing s).
  { rewrite lang_cat_iff. split; [intros (s1 & s2 & _ & H & _)|intros H]; exfalso; by eapply lang_nothing. }
  assert (Hn' : lang (Cat a Nothing) s <-> lang Nothing s).
  { rewrite lang_cat_iff. split; [intros (s1 & s2 & _ & _ & H)|intros H]; exfalso; by eapply lang_nothing. }
  destruct a, b; cbn [cat]; (done || by rewrite ?Hn, ?Hn', ?Hl, ?Hr).
Qed.

Lemma alt_lang a b s : lang (alt a b) s <-> lang (Alt a b) s.
Proof.
  rewrite lang_alt_iff. pose proof (lang_nothing s).
  destruct a, b; cbn [alt]; rewrite ?lang_alt_iff; naive_solver.
Qed.

Lemma nullable_lang r : nullable r = true <-> lang r [].
Proof.
  induction r as [| |p|a IHa b IHb|a IHa b IHb|a IHa]; simpl.
  - split; [done|]. by intros ?%lang_nothing.
  - split; [intros; constructor|done].
  - split; [done|]. by inversion 1.
  - rewrite andb_true_iff, lang_cat_iff, IHa, IHb. split.
    + intros [? ?]. by exists [], [].
    + intros (s1 & s2 & E & ? & ?). symmetry in E. by apply app_eq_nil in E as [-> ->].
  - by rewrite orb_true_iff, lang_alt_iff, IHa, IHb.
  - split; [intros; constructor|done].
Qed.

Lemma star_cons a c s : lang (Star a) (c :: s) -> exists s1 s2, s = s1 ++ s2 /\ lang a (c :: s1) /\ lang (Star a) s2.
Proof.
  remember (Star a) as r eqn:Er. remember (c :: s) as w eqn:Ew. intros H. revert s Ew.
  induction H as [| | | | | |a' s1 t H1 _ H2 IH]; intros s0 Ew; try done. injection Er as ->.
  destruct s1 as [|c' s1]; [by apply IH|]. injection Ew as -> <-. by exists s1, t.
Qed.

Lemma deriv_lang c r s : lang (deriv c r) s <-> lang r (c :: s).
Proof.
  revert s. induction r as [| |p|a IHa b IHb|a IHa b IHb|a IHa]; intros s; cbn [deriv].
  - split; intros H; exfalso; by eapply lang_nothing.
  - split; intros H; exfalso; [by eapply lang_nothing|by inversion H].
  - destruct (p c) eqn:Hp; [rewrite lang_empty_iff|].
    + split; [intros ->; by constructor|by inversion 1].
    + split; [intros H; exfalso; by eapply lang_nothing|inversion 1; congruence].
  - assert (Hc : lang (cat (deriv c a) b) s <-> exists s1 s2, s = s1 ++ s2 /\ lang a (c :: s1) /\ lang b s2).
    { rewrite cat_lang, lang_cat_iff. setoid_rewrite IHa. done. }
    rewrite (lang_cat_iff a b). destruct (nullable a) eqn:Hn.
    + rewrite alt_lang, lang_alt_iff, Hc, IHb. apply nullable_lang in Hn. split.
      * intros [(s1 & s2 & -> & ? & ?)|?]; [by exists (c :: s1), s2|by exists [], (c :: s)].
      * intros ([|c' s1] & s2 & E & ? & ?); [right; by simpl in E; subst|]. injection E as <- ->. left. by exists s1, s2.
    + rewrite Hc. split.
      * intros (s1 & s2 & -> & ? & ?). by exists (c :: s1), s2.
      * intros ([|c' s1] & s2 & E & Ha & ?); [apply nullable_lang in Ha; congruence|]. injection E as <- ->. by exists s1, s2.
  - by rewrite alt_lang, !lang_alt_iff, IHa, IHb.
  - rewrite cat_lang, lang_cat_iff. setoid_rewrite IHa. split; [|apply star_cons].
    intros (s1 & s2 & -> & ? & ?). by apply (lang_star_app a (c :: s1)).
Qed.

Theorem matches_lang r s : matches r s = true <-> lang r s.
Proof. revert r. induction s as [|c s IH]; intros r; simpl; [apply nullable_lang|]. rewrite IH. apply deriv_lang. Qed.

Lemma lang_word w s : lang (word w) s <-> s = w.
Proof.
  revert s. induction w as [|c w IH]; intros s; cbn [word]; [apply lang_empty_iff|]. rewrite lang_cat_iff. split.
  - intros (s1 & s2 & -> & H & ->%IH). inversion H as [|p c' E| | | | |]; subst. apply Ascii.eqb_eq in E as <-. done.
  - intros ->. exists [c], w. split_and!; [done|constructor; apply Ascii.eqb_refl|by apply IH].
Qed.

Lemma lang_times n p s : lang (times n (Chr p)) s -> length s = n /\ Forall (fun c => p c = true) s.
Proof.
  revert s. induction n as [|n IH]; intros s; cbn [times]; [by intros ->%lang_empty_iff|].
  rewrite lang_cat_iff. intros (s1 & s2 & -> & H & [IH1 IH2]%IH). inversion H; subst. simpl. split; [lia|by constructor].
Qed.
