(* ===== verification/Specs.v ===== *)
(** * Run specs and container configs ([runtime_daemon/specs.py])

    The daemon builds the Docker config of an agent container from a validated run spec.  The
    body of a request is given by what its conversions yield ([int(...)], [uuid.UUID(...)],
    [float(...)], [list(...)]): [None] where the key is missing or the conversion raises. *)

From S2P Require Import Prelude Json Redaction JsonText Regex.
From Stdlib Require Import Ascii QArith Qround.
#[local] Open Scope Z_scope.

(** ** Image references *)

Definition a_z : re := Chr is_lower.
Definition alnum (c : ascii) : bool := is_lower c || is_digit c.
Definition tag_head (c : ascii) : bool := is_letter c || is_digit c || one_of "_" c.
Definition tag_char (c : ascii) : bool := tag_head c || one_of ".-" c.
Definition hex_char (c : ascii) : bool := between 97 102 c || is_digit c.

(** [[a-z0-9]+([._-][a-z0-9]+)*] *)
Definition path_part : re := Cat (plus (Chr alnum)) (Star (Cat (Chr (one_of "._-")) (plus (Chr alnum)))).

Definition image_name : re :=
  Cat path_part
    (Cat (opt (Cat (word (chars ":")) (plus (Chr is_digit))))
       (Cat (Star (Cat (word (chars "/")) path_part))
          (opt (Cat (word (chars ":")) (Cat (Chr tag_head) (upto 127 (Chr tag_char))))))).

Definition IMMUTABLE_IMAGE : re := Cat image_name (Cat (word (chars "@sha256:")) (times 64 (Chr hex_char))).

(** A refused request: [SpecError.code]. *)
Definition require_immutable_image (image : option string) : Result string string :=
  match image with
  | Some s => if anchored IMMUTABLE_IMAGE (chars s) then Ok s else Err "MUTABLE_IMAGE"%string
  | None => Err "MUTABLE_IMAGE"%string
  end.

Definition ALLOWED_ENV : list string :=
  ["PLATFORM_BROKER_URL"; "PLATFORM_RUN_TOKEN"; "PLATFORM_RUN_ID"; "PLATFORM_ATTEMPT"]%string.
Definition CONFIG_MOUNT : string := "/run/crewquarters/config.json".

(** The settings the specs depend on. *)
Record DaemonConfig := mkDaemonConfig {
  cfg_agent_network : string;
  cfg_agent_user : string;
  cfg_max_agent_cpu : Q;
  cfg_max_agent_memory_mb : Z;
  cfg_max_agent_pids : Z
}.

(** ** Requests *)

Record SpecBody := mkSpecBody {
  sb_run_id : option uuid;
  sb_attempt : option Z;
  sb_has_image : bool;                        (* the key is there *)
  sb_image : option string;                   (* ... and holds a string *)
  sb_has_entrypoint : bool;
  sb_entrypoint : option (list Json);
  sb_architectures : option (list Json);
  sb_cpu : option Q;
  sb_memory_mb : option Z;
  sb_pids : option Z;                         (* 256 where the key is missing *)
  sb_env : option (list (string * string));
  sb_config : option (list (string * Json))
}.

Record DaemonSpec := mkDaemonSpec {
  ds_run_id : uuid;
  ds_attempt : Z;
  ds_image : string;
  ds_entrypoint : list Json;
  ds_architectures : list Json;
  ds_cpu : Q;
  ds_memory_mb : Z;
  ds_pids : Z;
  ds_env : list (string * string);
  ds_config : list (string * Json)
}.

Definition container_name (s : DaemonSpec) : string :=
  ("cq-run-" +:+ uuid_str (ds_run_id s) +:+ "-" +:+ pretty (ds_attempt s))%string.

Definition INVALID_RUN_SPEC : string := "INVALID_RUN_SPEC".
Definition RESOURCE_LIMIT : string := "RESOURCE_LIMIT".

Definition needed {A B} (x : option A) (k : A -> Result string B) : Result string B :=
  match x with Some a => k a | None => Err INVALID_RUN_SPEC end.

(** The conversions, in the order the constructor call evaluates them. *)
Definition read_spec (b : SpecBody) : Result string DaemonSpec :=
  needed (sb_run_id b) (fun run_id =>
  needed (sb_attempt b) (fun attempt =>
  if negb (sb_has_entrypoint b && sb_has_image b) then Err INVALID_RUN_SPEC else
  match require_immutable_image (sb_image b) with
  | Err e => Err e
  | Ok image =>
      needed (sb_entrypoint b) (fun entrypoint =>
      needed (sb_architectures b) (fun architectures =>
      needed (sb_cpu b) (fun cpu =>
      needed (sb_memory_mb b) (fun memory_mb =>
      needed (sb_pids b) (fun pids =>
      needed (sb_env b) (fun env =>
      needed (sb_config b) (fun config =>
        Ok (mkDaemonSpec run_id attempt image entrypoint architectures cpu memory_mb pids env config))))))))
  end)).

(** [isinstance(a, str) and 0 < len(a) <= 256] *)
Definition argument (a : Json) : bool :=
  match a with
  | JStr s => (0 <? Z.of_nat (String.length s)) && (Z.of_nat (String.length s) <=? 256)
  | _ => false
  end.

Definition Qlt_bool (a b : Q) : bool := negb (Qle_bool b a).

Definition check_spec (s : DaemonSpec) (cfg : DaemonConfig) : Result string DaemonSpec :=
  if ds_attempt s <? 1 then Err INVALID_RUN_SPEC
  else if bool_decide (length (ds_entrypoint s) = 0%nat) || negb (forallb argument (ds_entrypoint s)) then Err INVALID_RUN_SPEC
  else if 16 <? Z.of_nat (length (ds_entrypoint s)) then Err INVALID_RUN_SPEC
  else if negb (Qlt_bool 0 (ds_cpu s) && Qle_bool (ds_cpu s) (cfg_max_agent_cpu cfg)) then Err RESOURCE_LIMIT
  else if negb ((64 <=? ds_memory_mb s) && (ds_memory_mb s <=? cfg_max_agent_memory_mb cfg)) then Err RESOURCE_LIMIT
  else if negb ((16 <=? ds_pids s) && (ds_pids s <=? cfg_max_agent_pids cfg)) then Err RESOURCE_LIMIT
  else if existsb (fun kv => negb (existsb (String.eqb kv.1) ALLOWED_ENV)) (ds_env s) then Err "ENV_NOT_ALLOWED"%string
  else if 256 * 1024 <? json_dumps_length (JObj (ds_config s)) then Err INVALID_RUN_SPEC
  else Ok s.

Definition parse_spec (b : SpecBody) (cfg : DaemonConfig) : Result string DaemonSpec :=
  match read_spec b with Ok s => check_spec s cfg | Err e => Err e end.

(** ** Container configs *)

Definition strings (l : list string) : Json := JList (map JStr l).

Definition env_entries (s : DaemonSpec) : list string :=
  map (fun kv => (kv.1 +:+ "=" +:+ kv.2)%string) (sort_items (ds_env s)) ++ ["PLATFORM_CONFIG_FILE=" +:+ CONFIG_MOUNT]%string.

Definition agent_container_config (s : DaemonSpec) (cfg : DaemonConfig) (config_path : string) : Json :=
  let memory := ds_memory_mb s * 1024 * 1024 in
  JObj [
    ("Image", JStr (ds_image s));
    ("Entrypoint", JList (take 1 (ds_entrypoint s)));
    ("Cmd", JList (drop 1 (ds_entrypoint s)));
    ("Env", strings (env_entries s));
    ("User", JStr (cfg_agent_user cfg));
    ("WorkingDir", JStr "/tmp");
    ("Labels", JObj [
      ("io.crewquarters.kind", JStr "run");
      ("io.crewquarters.run-id", JStr (uuid_str (ds_run_id s)));
      ("io.crewquarters.attempt", JStr (pretty (ds_attempt s)))]);
    ("HostConfig", JObj [
      ("ReadonlyRootfs", JBool true);
      ("Tmpfs", JObj [("/tmp", JStr "rw,noexec,nosuid,nodev,size=67108864")]);
      ("CapDrop", strings ["ALL"]);
      ("SecurityOpt", strings ["no-new-privileges:true"]);
      ("Privileged", JBool false);
      ("PidsLimit", JNum (ds_pids s));
      ("NanoCpus", JNum (Qfloor (ds_cpu s * inject_Z 1000000000)));
      ("Memory", JNum memory);
      ("MemorySwap", JNum memory);
      ("NetworkMode", JStr (cfg_agent_network cfg));
      ("Binds", strings [config_path +:+ ":" +:+ CONFIG_MOUNT +:+ ":ro"]);
      ("IpcMode", JStr "private");
      ("Init", JBool true);
      ("RestartPolicy", JObj [("Name", JStr "no")]);
      ("LogConfig", JObj [("Type", JStr "json-file");
                          ("Config", JObj [("max-size", JStr "10m"); ("max-file", JStr "2")])])])]%string.

(** ** What the daemon accepts is contained *)

(** A reference pinned by digest; Python's [$] lets one newline follow. *)
Definition pinned (image : text) : Prop :=
  exists name digest rest, image = name ++ chars "@sha256:" ++ digest ++ rest /\ name <> [] /\
    length digest = 64%nat /\ Forall (fun c => hex_char c = true) digest /\ (rest = [] \/ rest = ["010"%char]).

Lemma path_part_nonempty s : lang path_part s -> s <> [].
Proof.
  unfold path_part, plus. intros (s1 & s2 & -> & (t1 & t2 & -> & H & _)%lang_cat_iff & _)%lang_cat_iff. by inversion H.
Qed.

Lemma immutable_pinned s : lang IMMUTABLE_IMAGE s ->
  exists name digest, s = name ++ chars "@sha256:" ++ digest /\ name <> [] /\ length digest = 64%nat /\
    Forall (fun c => hex_char c = true) digest.
Proof.
  unfold IMMUTABLE_IMAGE. intros (s1 & s2 & -> & Hn & H)%lang_cat_iff.
  apply lang_cat_iff in H as (t1 & t2 & -> & ->%lang_word & [H1 H2]%lang_times).
  exists s1, t2. split_and!; [done| |done|done].
  unfold image_name in Hn. apply lang_cat_iff in Hn as (u1 & u2 & -> & Hp & _). apply path_part_nonempty in Hp. by destruct u1.
Qed.

Lemma require_immutable_pinned image s : require_immutable_image image = Ok s -> pinned (chars s).
Proof.
  unfold require_immutable_image. destruct image as [x|]; [|done]. destruct (anchored _ _) eqn:Ha; [|done]. intros [= <-].
  unfold anchored in Ha. apply orb_true_iff in Ha as [H|H].
  - apply matches_lang, immutable_pinned in H as (n & dg & E & ? & ? & ?). exists n, dg, [].
    rewrite app_nil_r. split_and!; try done. by left.
  - apply andb_true_iff in H as [Hl H]. apply bool_decide_eq_true, last_Some in Hl as [t Ht]. rewrite Ht in *.
    rewrite removelast_last in H. apply matches_lang, immutable_pinned in H as (n & dg & -> & ? & ? & ?).
    exists n, dg, ["010"%char]. rewrite <- !app_assoc. split_and!; try done. by right.
Qed.

Definition host (k : string) (c : Json) : option Json := match jget "HostConfig" c with Some h => jget k h | None => None end.

Lemma sort_items_elem {A} (o : list (string * A)) x : x ∈ sort_items o <-> x ∈ o.
Proof.
  unfold sort_items. induction o as [|y o IH]; [done|]. cbn [foldr].
  assert (Hi : forall l, x ∈ insert_item y l <-> x = y \/ x ∈ l).
  { intros l. induction l as [|z l IHl]; cbn [insert_item]; [set_solver|]. case_match; set_solver. }
  rewrite Hi, IH. set_solver.
Qed.

Lemma check_spec_ok s cfg s' :
  check_spec s cfg = Ok s' ->
  s' = s /\ 1 <= ds_attempt s /\ (0 < length (ds_entrypoint s) <= 16)%nat /\ forallb argument (ds_entrypoint s) = true /\
  (0 < ds_cpu s <= cfg_max_agent_cpu cfg)%Q /\ 64 <= ds_memory_mb s <= cfg_max_agent_memory_mb cfg /\
  16 <= ds_pids s <= cfg_max_agent_pids cfg /\ Forall (fun kv => kv.1 ∈ ALLOWED_ENV) (ds_env s).
Proof.
  unfold check_spec. repeat (case_match; [done|]). intros [= <-]. reflect_all.
  repeat match goal with
  | H : negb _ = false |- _ => apply negb_false_iff in H
  | H : _ && _ = true |- _ => apply andb_true_iff in H as [? ?]
  | H : _ || _ = false |- _ => apply orb_false_iff in H as [? ?]
  end. reflect_all. split_and!; try done; try lia.
  - match goal with H : Qlt_bool _ _ = true |- _ => unfold Qlt_bool in H; apply negb_true_iff in H end.
    apply Qnot_le_lt. rewrite <- Qle_bool_iff. congruence.
  - by apply Qle_bool_iff.
  - apply Forall_forall. intros kv Hkv. destruct (existsb (String.eqb kv.1) ALLOWED_ENV) eqn:E.
    + apply existsb_exists in E as (k & Hk & ->%String.eqb_eq). by apply list_elem_of_In.
    + exfalso. match goal with H : existsb _ (ds_env s) = false |- _ => apply not_true_iff_false in H; apply H end.
      apply existsb_exists. exists kv. split; [by apply list_elem_of_In|]. by rewrite E.
Qed.

Lemma read_spec_image b s : read_spec b = Ok s -> pinned (chars (ds_image s)).
Proof.
  unfold read_spec, needed. repeat (case_match; try done). intros [= <-]. by eapply require_immutable_pinned.
Qed.

(** Whatever a caller asks for, the container the daemon builds from an accepted request is
    contained: the image is pinned by digest, the root file system is read-only, all
    capabilities are dropped, nothing is privileged and privileges cannot be gained, the only
    mount is the read-only config file, the network is the agents' network, memory (swap
    included), processes and processor time stay within the configured maxima, and only the
    platform's four variables and the path of the config file are in the environment. *)
Theorem container_contained b cfg config_path s :
  parse_spec b cfg = Ok s ->
  let c := agent_container_config s cfg config_path in
  (exists image, jget "Image" c = Some (JStr image) /\ pinned (chars image)) /\
  host "ReadonlyRootfs" c = Some (JBool true) /\ host "Privileged" c = Some (JBool false) /\
  host "CapDrop" c = Some (strings ["ALL"]%string) /\
  host "SecurityOpt" c = Some (strings ["no-new-privileges:true"]%string) /\
  host "Binds" c = Some (strings [config_path +:+ ":" +:+ CONFIG_MOUNT +:+ ":ro"]%string) /\
  host "NetworkMode" c = Some (JStr (cfg_agent_network cfg)) /\ jget "User" c = Some (JStr (cfg_agent_user cfg)) /\
  (exists m, host "Memory" c = Some (JNum m) /\ host "MemorySwap" c = Some (JNum m) /\
     64 * 1024 * 1024 <= m <= cfg_max_agent_memory_mb cfg * 1024 * 1024) /\
  (exists n, host "PidsLimit" c = Some (JNum n) /\ 16 <= n <= cfg_max_agent_pids cfg) /\
  (exists n, host "NanoCpus" c = Some (JNum n) /\ 0 <= n <= Qfloor (cfg_max_agent_cpu cfg * inject_Z 1000000000)) /\
  (exists env, jget "Env" c = Some (strings env) /\ forall e, e ∈ env ->
     exists k v, e = (k +:+ "=" +:+ v)%string /\ (k ∈ ALLOWED_ENV \/ k = "PLATFORM_CONFIG_FILE"%string)).
Proof.
  unfold parse_spec. destruct (read_spec b) as [s0|] eqn:Hr; [|done]. intros Hc. apply read_spec_image in Hr as Hi.
  apply check_spec_ok in Hc as (-> & H1 & H2 & H3 & [H4 H4'] & H5 & H6 & H7).
  split_and!; try done.
  - by exists (ds_image s0).
  - eexists. split_and!; [done|done|lia|lia].
  - eexists. split; [done|lia].
  - eexists. split; [done|]. split.
    + change 0 with (Qfloor 0). apply Qfloor_resp_le. apply Qmult_le_0_compat; [by apply Qlt_le_weak|]. by vm_compute.
    + apply Qfloor_resp_le. apply Qmult_le_compat_r; [done|]. by vm_compute.
  - eexists. split; [done|]. intros e [He|He]%elem_of_app.
    + apply list_elem_of_fmap in He as ([k v] & -> & Hkv). rewrite sort_items_elem in Hkv.
      exists k, v. split; [done|]. left. rewrite Forall_forall in H7. exact (H7 (k, v) Hkv).
    + apply list_elem_of_singleton in He as ->. exists "PLATFORM_CONFIG_FILE"%string, CONFIG_MOUNT. split; [done|by right].
Qed.
