(* ===== verification/Engine.v ===== *)
(** * The container engine of the runtime daemon ([runtime_daemon/engine.py], [docker_api.py], [server.py], the profiles of [specs.py])

    Agent runs and model servers as Docker containers.  The requests of the daemon are threads,
    interleaved at every call of Docker and every access to the disk, under the lock for starting
    runs and one lock per model.  Docker is represented by its containers and images and by the
    documented effect of each call; any call may also fail, with or without its effect.  The body of a
    start request is given by what its conversions yield, as in [Specs]. *)

From S2P Require Import Prelude Json Redaction PyValue JsonText Platform A1 Manifest Inference Downloads Regex Specs.
From Stdlib Require Import Ascii.
#[local] Open Scope Z_scope.

Definition LABEL_KIND : string := "io.crewquarters.kind".
Definition GC_AFTER_SECONDS : Z := 600.

(** ** Docker *)

(** [State.Status] *)
Inductive CStatus := CREATED | RUNNING | PAUSED | RESTARTING | EXITED | DEAD | REMOVING.
#[export] Instance CStatus_eq : EqDecision CStatus.
Proof. solve_decision. Defined.

Record Container := mkContainer {
  ct_id : N;
  ct_config : Json;
  ct_status : CStatus;
  ct_exit : Z;
  ct_oom : bool;
  ct_started : option instant;
  ct_finished : option instant
}.
#[export] Instance eta_Container : Eta Container := fun c =>
  mkContainer (ct_id c) (ct_config c) (ct_status c) (ct_exit c) (ct_oom c) (ct_started c) (ct_finished c).

Record Docker := mkDocker { dk_containers : gmap string Container; dk_images : gset string; dk_next : N }.
#[export] Instance eta_Docker : Eta Docker := fun d => mkDocker (dk_containers d) (dk_images d) (dk_next d).

Definition label (k : string) (config : Json) : option Json := jget "Labels" config ≫= jget k.
Definition has_kind (kind : string) (config : Json) : bool := match label LABEL_KIND config with Some (JStr s) => String.eqb s kind | _ => false end.
Definition image_of (config : Json) : string := match jget "Image" config with Some (JStr s) => s | _ => EmptyString end.
Definition memory_of (config : Json) : option Z :=
  match jget "HostConfig" config ≫= jget "Memory" with Some (JNum n) => if 0 <? n then Some n else None | _ => None end.

(** The calls of [DockerClient] that the engine makes. *)
Inductive Call :=
| InspectContainer (name : string)
| ListContainers (kind : string)
| CreateContainer (name : string) (config : Json)
| StartContainer (name : string)
| StopContainer (name : string) (grace : Z)
| RemoveContainer (name : string)
| InspectImage (image : string)
| PullImage (image : string).

Inductive Reply := RUnit | RContainer (c : option Container) | RList (l : list (string * CStatus)) | RImage (present : bool).

Definition put_container (name : string) (c : Container) (d : Docker) : Docker := d <| dk_containers ::= <[name := c]> |>.
Definition stopped (exit : Z) (oom : bool) (now : instant) (c : Container) : Container :=
  c <| ct_status := EXITED |> <| ct_exit := exit |> <| ct_oom := oom |> <| ct_finished := Some now |>.

(** What a call that succeeds answers and does; [None] where Docker must refuse.  [exit] is the
    exit code of a process that is stopped. *)
Definition effect (now : instant) (exit : Z) (c : Call) (d : Docker) : option (Reply * Docker) :=
  match c with
  | InspectContainer name => Some (RContainer (dk_containers d !! name), d)
  | ListContainers kind =>
      Some (RList (map (fun nc => (nc.1, ct_status nc.2)) (List.filter (fun nc => has_kind kind (ct_config nc.2)) (map_to_list (dk_containers d)))), d)
  | CreateContainer name config =>
      match dk_containers d !! name with
      | Some _ => None
      | None =>
          if bool_decide (image_of config ∈ dk_images d) then
            Some (RUnit, put_container name (mkContainer (dk_next d) config CREATED 0 false None None) d <| dk_next ::= N.succ |>)
          else None
      end
  | StartContainer name =>
      match dk_containers d !! name with
      | Some c =>
          match ct_status c with
          | CREATED | EXITED => Some (RUnit, put_container name (c <| ct_status := RUNNING |> <| ct_started := Some now |>) d)
          | RUNNING | RESTARTING => Some (RUnit, d)
          | _ => None
          end
      | None => None
      end
  | StopContainer name _ =>
      match dk_containers d !! name with
      | Some c =>
          match ct_status c with
          | RUNNING | PAUSED | RESTARTING => Some (RUnit, put_container name (stopped exit false now c) d)
          | _ => Some (RUnit, d)
          end
      | None => Some (RUnit, d)
      end
  | RemoveContainer name =>
      match dk_containers d !! name with
      | Some c => if bool_decide (ct_status c = REMOVING) then Some (RUnit, d) else Some (RUnit, d <| dk_containers ::= delete name |>)
      | None => Some (RUnit, d)
      end
  | InspectImage image => Some (RImage (bool_decide (image ∈ dk_images d)), d)
  | PullImage image => Some (RUnit, d <| dk_images ::= fun s => {[image]} ∪ s |>)
  end.

(** [_demux]: the multiplexed log stream, frames of a stream number, a length and text. *)
Definition be32 (b3 b2 b1 b0 : ascii) : N := (((N_of_ascii b3 * 256 + N_of_ascii b2) * 256 + N_of_ascii b1) * 256 + N_of_ascii b0)%N.
Definition stream_name (c : ascii) : string := if (N_of_ascii c =? 2)%N then "stderr" else "stdout".

(** [str.splitlines] *)
Definition line_break (c : ascii) : bool := between 10 13 c || between 28 30 c.
Fixpoint splitlines (t : text) : list text :=
  match t with
  | [] => []
  | c :: t' =>
      if line_break c then
        [] :: match t' with
              | d :: t'' => if Ascii.eqb c "013" && Ascii.eqb d "010" then splitlines t'' else splitlines t'
              | [] => []
              end
      else match splitlines t' with l :: ls => (c :: l) :: ls | [] => [[c]] end
  end.

Fixpoint demux_from (fuel : nat) (raw : text) : list (string * text) :=
  match fuel, raw with
  | S fuel', stream :: _ :: _ :: _ :: b3 :: b2 :: b1 :: b0 :: rest =>
      let size := N.to_nat (N.min (be32 b3 b2 b1 b0) (N.of_nat (length rest))) in
      map (fun l => (stream_name stream, l)) (splitlines (take size rest)) ++ demux_from fuel' (drop size rest)
  | _, _ => []
  end.
Definition demux (raw : text) : list (string * text) := demux_from (length raw) raw.

(** ** Model profiles *)

Record ModelProfile := mkModelProfile {
  mp_id : string;
  mp_source : list (string * Json);
  mp_launch : list (string * Json);
  mp_args : list string
}.

(** Two to four parts with dots between them. *)
Definition id_part : re := Cat (Chr is_lower) (Star (Chr (fun c => is_lower c || is_digit c || one_of "-" c))).
Definition PROFILE_ID : re :=
  let more := Cat (word (chars ".")) id_part in Cat id_part (Cat more (upto 2 more)).

Definition str_or (v : option Json) (d : string) : string := match v with Some (JStr s) => s | _ => d end.

(** [ModelProfile.load]; [UNEXPECTED] stands for an exception that is not a [SpecError]. *)
Definition load_profile (stem : string) (data : list (string * Json)) : Result string ModelProfile :=
  let ident := str_or (assoc "id" data) "" in
  if negb (anchored PROFILE_ID (chars ident)) || negb (String.eqb stem ident) then Err "INVALID_PROFILE"%string
  else
    match assoc "launch" data with
    | Some (JObj launch) =>
        match assoc "image" launch with
        | None => Err "UNEXPECTED"%string
        | Some image =>
            match require_immutable_image (match image with JStr s => Some s | _ => None end) with
            | Err e => Err e
            | Ok _ =>
                match assoc "args" launch with
                | Some (JList l) =>
                    match mapM (fun a => match a with JStr s => Some s | _ => None end) l with
                    | Some args =>
                        match assoc "backend" data, assoc "source" data, or_default (assoc "memory" data) (JObj []) with
                        | Some _, Some (JObj source), JObj _ => Ok (mkModelProfile ident source launch args)
                        | _, _, _ => Err "UNEXPECTED"%string
                        end
                    | None => Err "INVALID_PROFILE"%string
                    end
                | _ => Err "INVALID_PROFILE"%string
                end
            end
        end
    | _ => Err "UNEXPECTED"%string
    end.

Definition model_name (p : ModelProfile) : string :=
  "cq-model-" +:+ unchars (map (fun c => if Ascii.eqb c "." then "-"%char else c) (chars (mp_id p))).
(** [str(self.source.get("revision") or "bundled")] *)
Definition revision_of (p : ModelProfile) : string := str_or (Some (or_default (assoc "revision" (mp_source p)) (JStr "bundled"))) "bundled".
Definition model_image (p : ModelProfile) : string := str_or (assoc "image" (mp_launch p)) "".
Definition model_port (p : ModelProfile) : Result PlatformError Z := match assoc "port" (mp_launch p) with Some v => int_value v | None => Ok 8000 end.

(** [arg.format] with the values: doubled braces and plain fields; [None] raises. *)
Fixpoint format_arg (fuel : nat) (values : list (string * string)) (t : text) : option text :=
  match fuel, t with
  | _, [] => Some []
  | S fuel', c :: t' =>
      if Ascii.eqb c "{" then
        match t' with
        | d :: t'' =>
            if Ascii.eqb d "{" then cons c <$> format_arg fuel' values t''
            else match partition_at "}"%char t' with
                 | (name, Some rest) => v ← assoc (unchars name) values; app (chars v) <$> format_arg fuel' values rest
                 | (_, None) => None
                 end
        | [] => None
        end
      else if Ascii.eqb c "}" then
        match t' with d :: t'' => if Ascii.eqb d "}" then cons c <$> format_arg fuel' values t'' else None | [] => None end
      else cons c <$> format_arg fuel' values t'
  | O, _ => None
  end.

Definition given (k : string) (p : ModelProfile) : bool := match assoc k (mp_launch p) with Some v => truthy v | None => false end.
(** [str(v)]; of lists and dicts it is not modelled. *)
Definition str_value (v : Json) : Result PlatformError string :=
  match v with
  | JStr s => Ok s
  | JNum n => Ok (pretty n)
  | JBool b => Ok (if b then "True" else "False")%string
  | JNull => Ok "None"%string
  | _ => Err UNEXPECTED
  end.
Definition env_entry (kv : string * Json) : Result PlatformError string := v ← str_value kv.2; Ok (kv.1 +:+ "=" +:+ v)%string.

Definition model_container_config (network : string) (p : ModelProfile) (model_path : string) : Result PlatformError Json :=
  port ← model_port p;
  let mount := "/models/" +:+ mp_id p in
  let values := [("model_path", mount); ("served_model_name", mp_id p); ("port", pretty port)]%string in
  args ← or_raise (mapM (fun a => format_arg (length (chars a)) values (chars a)) (mp_args p));
  shm ← (if given "shmSizeBytes" p then n ← int_value (default JNull (assoc "shmSizeBytes" (mp_launch p))); Ok [("ShmSize"%string, JNum n)] else Ok []);
  env ← match or_default (assoc "env" (mp_launch p)) (JObj []) with
        | JObj o => mapM (M := Result PlatformError) env_entry (sort_items o)
        | _ => Err UNEXPECTED
        end;
  user ← (if given "user" p then u ← str_value (default JNull (assoc "user" (mp_launch p))); Ok [("User"%string, JStr u)] else Ok []);
  let args := map unchars args in
  let host := [
      ("Binds", strings [model_path +:+ ":" +:+ mount +:+ ":ro"]);
      ("NetworkMode", JStr network);
      ("CapDrop", strings ["ALL"]);
      ("SecurityOpt", strings ["no-new-privileges:true"]);
      ("Privileged", JBool false);
      ("RestartPolicy", JObj [("Name", JStr "no")]);
      ("LogConfig", JObj [("Type", JStr "json-file"); ("Config", JObj [("max-size", JStr "20m"); ("max-file", JStr "2")])]);
      ("Init", JBool true)]%string
    ++ (if given "gpu" p then
          [("DeviceRequests", JList [JObj [("Driver", JStr "nvidia"); ("Count", JNum (-1)); ("Capabilities", JList [strings ["gpu"]])]])]%string else [])
    ++ (if given "ipcHost" p then [("IpcMode", JStr "host")]%string else []) ++ shm in
  Ok (JObj ([("Image", JStr (model_image p));
             ("Entrypoint", strings (take 1 args));
             ("Cmd", strings (drop 1 args));
             ("Env", strings env);
             ("Labels", JObj [(LABEL_KIND, JStr "model"); ("io.crewquarters.model-id", JStr (mp_id p))]);
             ("ExposedPorts", JObj [(pretty port +:+ "/tcp", JObj [])]);
             ("HostConfig", JObj host)]%string ++ user)).

(** ** References of runs *)

Definition hex_or_digit : re := Chr hex_char.
Definition RUN_REF : re :=
  let dash r := Cat (word (chars "-")) r in
  Cat (word (chars "cq-run-")) (Cat (times 8 hex_or_digit) (Cat (dash (times 4 hex_or_digit)) (Cat (dash (times 4 hex_or_digit))
    (Cat (dash (times 4 hex_or_digit)) (Cat (dash (times 12 hex_or_digit)) (dash (Cat (Chr (between 49 57)) (upto 5 (Chr is_digit))))))))).
Definition check_ref (ref : string) : bool := anchored RUN_REF (chars ref).

(** The directory of a reference: [^cq-run-(.+)-(\d+)$], split at the last dash. *)
Definition ref_parts (ref : string) : option (string * string) :=
  let t := chars ref in
  if bool_decide (take 7 t = chars "cq-run-") then
    match rev (split_at "-"%char (drop 7 t)) with
    | n :: (_ :: _) as parts =>
        let run := join_text (chars "-") (rev parts) in
        if bool_decide (run <> []) && bool_decide (n <> []) && forallb is_digit n then Some (unchars run, unchars n) else None
    | _ => None
    end
  else None.
Definition dir_of (s : DaemonSpec) : string * string := (uuid_str (ds_run_id s), pretty (ds_attempt s)).

(** [run_status] of an inspected container *)
Record RunStatus := mkRunStatus {
  rs_state : string;
  rs_exit_code : option Z;
  rs_oom_killed : bool;
  rs_started_at : option instant;
  rs_finished_at : option instant;
  rs_memory_limit : option Z
}.
Definition mapped (st : CStatus) : string :=
  match st with CREATED => "starting" | RUNNING | RESTARTING | PAUSED => "running" | EXITED | DEAD | REMOVING => "exited" end%string.
Definition run_status (c : Container) : RunStatus :=
  let state := mapped (ct_status c) in
  let exited := String.eqb state "exited" in
  mkRunStatus state (if exited then Some (ct_exit c) else None) (ct_oom c) (ct_started c) (if exited then ct_finished c else None)
    (memory_of (ct_config c)).

(** [run_logs]: the bounded tail *)
Definition log_tail (limit tail : Z) : Z := Z.max 1 (Z.min tail limit).
Definition log_lines (tail : Z) (lines : list (string * text)) : list (string * text) * bool :=
  (map (fun l => (l.1, take 4000 l.2)) lines, tail <=? Z.of_nat (length lines)).

(** ** Threads *)

(** What an image is pulled for, and what follows the removal of a run: the answer to a cancel, or
    the rest of a collection. *)
Inductive PullFor := ForRun (s : DaemonSpec) | ForModel (p : ModelProfile) | ForCaller.
Inductive Then := Answering (exit : option Z) | Collecting (now : instant) (older : Z) (rest removed : list string).

Inductive Answer :=
| Started (name : string) (created : bool)
| Cancelled (ref state : string) (exit : option Z)
| Collected (removed : list string)
| Serving (id : string) (state : option CStatus)
| Stopped (removed : bool)
| FilesDeleted
| Present (image : string) (pulled : bool).

(** A thread before its next call of Docker, access to the disk, or lock. *)
Inductive Flow :=
| StartWaits (s : DaemonSpec)
| StartInspects (s : DaemonSpec)
| StartRestarts (name : string)
| ImageInspects (k : PullFor) (image : string)
| PullInspects (k : PullFor) (image : string)
| Pulls (k : PullFor) (image : string)
| PullChecks (k : PullFor) (image : string)
| MakesDir (s : DaemonSpec)
| Writes (s : DaemonSpec)
| Creates (s : DaemonSpec)
| Starts (s : DaemonSpec)
| CancelInspects (ref : string) (grace : Z)
| CancelStops (ref : string) (grace : Z)
| CancelReads (ref : string)
| Removing (ref : string) (k : Then)
| Clearing (ref : string) (k : Then)
| Pruning (ref : string) (k : Then)
| GcLists (now : instant) (older : Z)
| GcInspects (name : string) (now : instant) (older : Z) (rest removed : list string)
| ModelWaits (p : ModelProfile)
| ModelInspects (p : ModelProfile)
| ModelReplaces (p : ModelProfile)
| ModelCreates (p : ModelProfile)
| ModelStarts (p : ModelProfile)
| ModelReads (p : ModelProfile)
| StopWaits (p : ModelProfile) (grace : Z)
| StopInspects (p : ModelProfile) (grace : Z)
| StopStops (p : ModelProfile) (grace : Z)
| StopRemoves (p : ModelProfile)
| StopVerifies (p : ModelProfile)
| DeleteInspects (p : ModelProfile)
| DeleteBegins (p : ModelProfile)
| DeleteEnds (p : ModelProfile)
| Done (r : Result string Answer).

(** Why a container was removed. *)
Inductive Cause := ByCancel | ByGc (older : Z) | ByModel | ByOthers.
Record Removal := mkRemoval { rm_name : string; rm_container : Container; rm_cause : Cause; rm_at : instant }.
Record Creation := mkCreation { cr_name : string; cr_id : N; cr_task : nat }.

(** Docker, the directories of runs with their config files, the stores of the models, the locks and
    the threads that hold them, and what was created and removed. *)
Record World := mkWorld {
  w_docker : Docker;
  w_dirs : gmap (string * string) (option Json);
  w_parents : gset string;
  w_stores : gmap string Store;
  w_start_lock : option nat;
  w_model_locks : gmap string nat;
  w_tasks : list Flow;
  w_now : instant;
  w_created : list Creation;
  w_removed : list Removal
}.
#[export] Instance eta_World : Eta World := fun w =>
  mkWorld (w_docker w) (w_dirs w) (w_parents w) (w_stores w) (w_start_lock w) (w_model_locks w) (w_tasks w) (w_now w) (w_created w) (w_removed w).
Definition world0 : World := mkWorld (mkDocker ∅ ∅ 0) ∅ ∅ ∅ None ∅ [] 0 [] [].

Definition set_task (i : nat) (f : Flow) (w : World) : World := w <| w_tasks ::= <[i := f]> |>.
Definition release (i : nat) (w : World) : World :=
  w <| w_start_lock ::= fun l => if bool_decide (l = Some i) then None else l |> <| w_model_locks ::= filter (fun kv => kv.2 <> i) |>.
Definition ends (i : nat) (r : Result string Answer) (w : World) : World := release i (set_task i (Done r) w).
Definition store_of (p : ModelProfile) (w : World) : Store := default store0 (w_stores w !! mp_id p).

Section engine.
Context (cfg : DaemonConfig) (runs_dir models_dir model_network arch : string) (profiles : gmap string ModelProfile).

Definition config_path (s : DaemonSpec) : string := runs_dir +:+ "/" +:+ (dir_of s).1 +:+ "/" +:+ (dir_of s).2 +:+ "/config.json".
Definition install_path (p : ModelProfile) : string := models_dir +:+ "/" +:+ mp_id p +:+ "/" +:+ revision_of p.
Definition run_config (s : DaemonSpec) : Json := agent_container_config s cfg (config_path s).
Definition model_config (p : ModelProfile) : Result PlatformError Json := model_container_config model_network p (install_path p).

(** The loop of [gc] *)
Definition gc_next (now : instant) (older : Z) (rest removed : list string) : Flow :=
  match rest with
  | [] => Done (Ok (Collected (rev removed)))
  | n :: rest => GcInspects n now older rest removed
  end.
Definition then_ (ref : string) (k : Then) : Flow :=
  match k with
  | Answering exit => Done (Ok (Cancelled ref "exited" exit))
  | Collecting now older rest removed => gc_next now older rest removed
  end.
Definition pulled (k : PullFor) (image : string) (fresh : bool) : Flow :=
  match k with ForRun s => MakesDir s | ForModel p => ModelWaits p | ForCaller => Done (Ok (Present image fresh)) end.

(** The call of Docker a thread makes next; the config of a model may fail to build. *)
Definition call_of (f : Flow) : option Call :=
  match f with
  | StartInspects s => Some (InspectContainer (container_name s))
  | StartRestarts name => Some (StartContainer name)
  | ImageInspects _ image | PullInspects _ image | PullChecks _ image => Some (InspectImage image)
  | Pulls _ image => Some (PullImage image)
  | Creates s => Some (CreateContainer (container_name s) (run_config s))
  | Starts s => Some (StartContainer (container_name s))
  | CancelInspects ref _ | CancelReads ref => Some (InspectContainer ref)
  | CancelStops ref grace => Some (StopContainer ref grace)
  | Removing ref _ => Some (RemoveContainer ref)
  | GcLists _ _ => Some (ListContainers "run")
  | GcInspects name _ _ _ _ => Some (InspectContainer name)
  | ModelInspects p | ModelReads p | StopInspects p _ | StopVerifies p | DeleteInspects p => Some (InspectContainer (model_name p))
  | ModelReplaces p | StopRemoves p => Some (RemoveContainer (model_name p))
  | ModelCreates p => match model_config p with Ok config => Some (CreateContainer (model_name p) config) | Err _ => None end
  | ModelStarts p => Some (StartContainer (model_name p))
  | StopStops p grace => Some (StopContainer (model_name p) grace)
  | _ => None
  end.

(** What the thread does with the answer. *)
Definition next (f : Flow) (r : Reply) : Flow :=
  match f, r with
  | StartInspects s, RContainer (Some c) =>
      if bool_decide (ct_status c = CREATED) then StartRestarts (container_name s) else Done (Ok (Started (container_name s) false))
  | StartInspects s, RContainer None => ImageInspects (ForRun s) (ds_image s)
  | StartRestarts name, _ => Done (Ok (Started name false))
  | ImageInspects k image, RImage true => pulled k image false
  | ImageInspects k image, RImage false => PullInspects k image
  | PullInspects k image, RImage true => pulled k image false
  | PullInspects k image, RImage false => Pulls k image
  | Pulls k image, _ => PullChecks k image
  | PullChecks k image, _ => pulled k image true
  | Creates s, _ => Starts s
  | Starts s, _ => Done (Ok (Started (container_name s) true))
  | CancelInspects ref grace, RContainer (Some _) => CancelStops ref grace
  | CancelInspects ref _, RContainer None => Done (Ok (Cancelled ref "missing" None))
  | CancelStops ref _, _ => CancelReads ref
  | CancelReads ref, RContainer c => Removing ref (Answering (c ≫= fun c => rs_exit_code (run_status c)))
  | Removing ref k, _ => Clearing ref k
  | GcLists now older, RList l =>
      gc_next now older (map fst (List.filter (fun ns => bool_decide (ns.2 = EXITED \/ ns.2 = DEAD)) l)) []
  | GcInspects name now older rest removed, RContainer c =>
      match c ≫= ct_finished with
      | Some ts => if seconds older <? now - ts then Removing name (Collecting now older rest (name :: removed)) else gc_next now older rest removed
      | None => gc_next now older rest removed
      end
  | ModelInspects p, RContainer (Some c) =>
      if bool_decide (ct_status c = EXITED \/ ct_status c = DEAD \/ ct_status c = CREATED) then ModelReplaces p else ModelReads p
  | ModelInspects p, RContainer None => ModelCreates p
  | ModelReplaces p, _ => ModelCreates p
  | ModelCreates p, _ => ModelStarts p
  | ModelStarts p, _ => ModelReads p
  | ModelReads p, RContainer c => Done (Ok (Serving (mp_id p) (ct_status <$> c)))
  | StopInspects p grace, RContainer (Some _) => StopStops p grace
  | StopInspects p _, RContainer None => StopVerifies p
  | StopStops p _, _ => StopRemoves p
  | StopRemoves p, _ => StopVerifies p
  | StopVerifies p, RContainer c => Done (Ok (Stopped (bool_decide (c = None))))
  | DeleteInspects p, RContainer (Some _) => Done (Err "MODEL_RESIDENT"%string)
  | DeleteInspects p, RContainer None => DeleteBegins p
  | _, _ => Done (Err "INTERNAL"%string)
  end.

Definition holds_start (f : Flow) : bool :=
  match f with
  | StartInspects _ | StartRestarts _ | MakesDir _ | Writes _ | Creates _ | Starts _ => true
  | ImageInspects (ForRun _) _ | PullInspects (ForRun _) _ | Pulls (ForRun _) _ | PullChecks (ForRun _) _ => true
  | _ => false
  end.
Definition holds_model (f : Flow) : option string :=
  match f with
  | ModelInspects p | ModelReplaces p | ModelCreates p | ModelStarts p | StopInspects p _ | StopStops p _ | StopRemoves p | StopVerifies p => Some (mp_id p)
  | _ => None
  end.
Definition holds (f : Flow) : bool := holds_start f || bool_decide (is_Some (holds_model f)).

(** The thread goes on; where it leaves the [with] block of its lock, the lock is released. *)
Definition goes (i : nat) (f f' : Flow) (w : World) : World :=
  let w := set_task i f' w in if holds f && negb (holds f') then release i w else w.

Definition cause_of (f : Flow) : Cause :=
  match f with Removing _ (Answering _) => ByCancel | Removing _ (Collecting _ older _ _) => ByGc older | _ => ByModel end.

(** The state of Docker after a call, and the record of what it created or removed. *)
Definition applied (i : nat) (f : Flow) (c : Call) (d : Docker) (w : World) : World :=
  let w' := w <| w_docker := d |> in
  match c with
  | CreateContainer name _ => w' <| w_created ::= cons (mkCreation name (dk_next (w_docker w)) i) |>
  | RemoveContainer name =>
      match dk_containers (w_docker w) !! name, dk_containers d !! name with
      | Some x, None => w' <| w_removed ::= cons (mkRemoval name x (cause_of f) (w_now w)) |>
      | _, _ => w'
      end
  | _ => w'
  end.

(** A step without Docker: taking a lock, the disk, the files of a model. *)
Definition local (i : nat) (f : Flow) (w : World) : option World :=
  match f with
  | StartWaits s => if bool_decide (w_start_lock w = None) then Some (set_task i (StartInspects s) (w <| w_start_lock := Some i |>)) else None
  | MakesDir s =>
      Some (set_task i (Writes s) (w <| w_dirs ::= fun m => match m !! dir_of s with Some _ => m | None => <[dir_of s := None]> m end |>
                                     <| w_parents ::= fun ps => {[(dir_of s).1]} ∪ ps |>))
  | Writes s =>
      match w_dirs w !! dir_of s with
      | Some _ => Some (set_task i (Creates s) (w <| w_dirs ::= <[dir_of s := Some (JObj (ds_config s))]> |>))
      | None => Some (ends i (Err "INTERNAL"%string) w)
      end
  | Clearing ref k =>
      Some (set_task i (Pruning ref k) (match ref_parts ref with Some key => w <| w_dirs ::= delete key |> | None => w end))
  | Pruning ref k =>
      Some (set_task i (then_ ref k)
              (match ref_parts ref with
               | Some key => if bool_decide (map_Forall (fun k' (_ : option Json) => k'.1 <> key.1) (w_dirs w)) then w <| w_parents ::= fun ps => ps ∖ {[key.1]} |> else w
               | None => w
               end))
  | ModelWaits p => if bool_decide (w_model_locks w !! mp_id p = None) then Some (set_task i (ModelInspects p) (w <| w_model_locks ::= <[mp_id p := i]> |>)) else None
  | StopWaits p grace => if bool_decide (w_model_locks w !! mp_id p = None) then Some (set_task i (StopInspects p grace) (w <| w_model_locks ::= <[mp_id p := i]> |>)) else None
  | ModelCreates p => Some (ends i (Err "INVALID_REQUEST"%string) w)
  | DeleteBegins p =>
      match delete_begin (revision_of p) (store_of p w) with
      | Ok st => Some (set_task i (DeleteEnds p) (w <| w_stores ::= <[mp_id p := st]> |>))
      | Err e => Some (ends i (Err e) w)
      end
  | DeleteEnds p => Some (ends i (Ok FilesDeleted) (w <| w_stores ::= <[mp_id p := delete_end (revision_of p) (store_of p w)]> |>))
  | _ => None
  end.

(** How a call or an access ends: it works (a process that is stopped with the given code), or it
    fails, with or without its effect. *)
Inductive Outcome := Works (exit : Z) | Fails (effective : bool).

Definition is_done (f : Flow) : bool := match f with Done _ => true | _ => false end.
Definition waits (f : Flow) : bool := match f with StartWaits _ | ModelWaits _ | StopWaits _ _ | Done _ => true | _ => false end.

Definition does (i : nat) (f : Flow) (o : Outcome) (w : World) : option World :=
  match call_of f, o with
  | Some c, Works exit =>
      match effect (w_now w) exit c (w_docker w) with
      | Some (r, d) => Some (goes i f (next f r) (applied i f c d w))
      | None => None
      end
  | Some c, Fails effective =>
      Some (ends i (Err "DOCKER_ERROR"%string)
              (if effective then match effect (w_now w) 137 c (w_docker w) with Some (_, d) => applied i f c d w | None => w end else w))
  | None, Works _ => local i f w
  | None, Fails _ => if waits f then None else Some (ends i (Err "INTERNAL"%string) w)
  end.

(** ** Requests *)

Inductive Request :=
| StartRun (b : SpecBody)
| CancelRun (ref : string) (grace : Z)
| Collect (older : Z)
| StartModel (id : string)
| StopModel (id : string) (grace : Z)
| DeleteModel (id : string)
| PrepareModel (id : string)
| Pull (image : string).

Definition with_profile (id : string) (k : ModelProfile -> Flow) : Flow :=
  match profiles !! id with Some p => k p | None => Done (Err "NOT_FOUND"%string) end.
Definition pull (k : PullFor) (image : string) : Flow :=
  match require_immutable_image (Some image) with Ok _ => PullInspects k image | Err e => Done (Err e) end.

(** The thread of a request, up to its first call. *)
Definition arrives (r : Request) (w : World) : Flow :=
  match r with
  | StartRun b =>
      match parse_spec b cfg with
      | Err e => Done (Err e)
      | Ok s =>
          if bool_decide (ds_architectures s <> []) && negb (existsb (fun a => match a with JStr x => String.eqb x arch | _ => false end) (ds_architectures s))
          then Done (Err "ARCH_UNSUPPORTED"%string) else StartWaits s
      end
  | CancelRun ref grace => if check_ref ref then CancelInspects ref (Z.max 0 (Z.min grace 120)) else Done (Err "INVALID_RUNTIME_REF"%string)
  | Collect older => GcLists (w_now w) older
  | StartModel id => with_profile id (fun p =>
      if bool_decide (vw_state (Downloads.state (revision_of p) (store_of p w)) = INSTALLED) then ImageInspects (ForModel p) (model_image p)
      else Done (Err "MODEL_NOT_INSTALLED"%string))
  | StopModel id grace => with_profile id (fun p => StopWaits p grace)
  | DeleteModel id => with_profile id DeleteInspects
  | PrepareModel id => with_profile id (fun p => pull ForCaller (model_image p))
  | Pull image => pull ForCaller image
  end.

(** Requests, steps of threads, and what happens by itself: processes end, containers are paused, die
    or are removed by others, images are removed, model files are downloaded, the daemon restarts. *)
Inductive Event :=
| Arrives (r : Request)
| Does (i : nat) (o : Outcome)
| Exits (name : string) (code : Z) (oom : bool)
| Turns (name : string) (status : CStatus)
| Vanishes (name : string)
| Prunes (image : string)
| Downloads_ (id : string) (s : Store)
| Restarts
| Passes (n : Z).

(** Changes of a container that nobody asked for; a process that ended is not started again. *)
Definition may_turn (a b : CStatus) : bool :=
  match a, b with
  | RUNNING, PAUSED | PAUSED, RUNNING | _, DEAD | _, REMOVING => true
  | _, _ => false
  end.
Definition active (st : CStatus) : bool := match st with RUNNING | PAUSED | RESTARTING => true | _ => false end.

Definition step (ev : Event) (w : World) : option World :=
  let d := w_docker w in
  match ev with
  | Arrives r => Some (w <| w_tasks ::= fun l => l ++ [arrives r w] |>)
  | Does i o => match w_tasks w !! i with Some f => does i f o w | None => None end
  | Exits name code oom =>
      match dk_containers d !! name with
      | Some c => if active (ct_status c) then Some (w <| w_docker := put_container name (stopped code oom (w_now w) c) d |>) else None
      | None => None
      end
  | Turns name st =>
      match dk_containers d !! name with
      | Some c =>
          if may_turn (ct_status c) st
          then Some (w <| w_docker := put_container name (c <| ct_status := st |> <| ct_finished ::= fun t => if active (ct_status c) && negb (active st) then Some (w_now w) else t |>) d |>)
          else None
      | None => None
      end
  | Vanishes name =>
      match dk_containers d !! name with
      | Some c => Some (w <| w_docker := d <| dk_containers ::= delete name |> |> <| w_removed ::= cons (mkRemoval name c ByOthers (w_now w)) |>)
      | None => None
      end
  | Prunes image => Some (w <| w_docker := d <| dk_images ::= fun l => l ∖ {[image]} |> |>)
  | Downloads_ id s => Some (w <| w_stores ::= <[id := s]> |>)
  | Restarts => Some (w <| w_tasks ::= map (fun f => match f with Done _ => f | _ => Done (Err "INTERNAL"%string) end) |> <| w_start_lock := None |> <| w_model_locks := ∅ |>)
  | Passes n => if 0 <=? n then Some (w <| w_now ::= Z.add n |>) else None
  end.
End engine.

(** ** Networks *)

Record Network := mkNetwork { nw_internal : bool; nw_mode : option string }.

(** [ensure_networks], one network: what the first inspection shows, the statuses of the creations (201
    where they succeed), what the last inspection shows; the result is how the host is isolated. *)
Definition ensure_network (isolate : bool) (found : option Network) (first second : Z) (after : option Network) : Result string string :=
  let check := match after with
               | Some n => if nw_internal n then Ok (if bool_decide (nw_mode n = Some "isolated"%string) then "isolated" else "firewall-required")%string
                           else Err "NETWORK_NOT_INTERNAL"%string
               | None => Err "NETWORK_NOT_INTERNAL"%string
               end in
  match found with
  | Some _ => check
  | None =>
      if (first =? 201) || (first =? 409) then check
      else if isolate && ((first =? 400) || (first =? 500)) then if second =? 201 then check else Err "DOCKER_ERROR"%string
      else Err "DOCKER_ERROR"%string
  end.

(** ** The server ([server.py])

    A body is given by what [json.loads] reads ([None] raises), a query by the first value of [tail];
    [str] of a body's [image] that is not text is no image reference. *)

Definition MAX_BODY : Z := 1024 * 1024.

Record HttpRequest := mkHttpRequest {
  hq_authorization : text;
  hq_content_length : text;          (* empty where the header is missing *)
  hq_method : string;
  hq_path : text;
  hq_tail : option text;
  hq_empty : bool;
  hq_body : option Json
}.

(** What a route calls. *)
Inductive Op :=
| OpHealth | OpCapacity
| OpPull (image : string)
| OpStartRun (body : list (string * Json))
| OpRunStatus (ref : string)
| OpRunLogs (ref : string) (tail : Z)
| OpCancelRun (ref : string) (grace : Z)
| OpModelState (id : string) | OpInstall (id : string) | OpCancelInstall (id : string) (clear : bool) | OpDeleteFiles (id : string)
| OpPrepare (id : string) | OpStartModel (id : string) | OpStopModel (id : string) (grace : Z).

(** The answer of the server itself, with the connection closed or not, or the call with the status of
    its success. *)
Inductive Routed := Refuse (status : Z) (code : string) (close : bool) | Invoke (status : Z) (op : Op).

Definition status_for (code : string) : Z :=
  default 422 (assoc code [("NOT_FOUND", 404); ("INVALID_RUNTIME_REF", 404); ("MODEL_NOT_INSTALLED", 409); ("MODEL_RESIDENT", 409);
                           ("MODEL_BUSY", 409); ("ARCH_UNSUPPORTED", 409); ("NETWORK_NOT_INTERNAL", 500)]%string).

(** [_json_body] *)
Definition json_body (r : HttpRequest) : Result string (list (string * Json)) :=
  if hq_empty r then Ok []
  else match hq_body r with
       | None => Err "INVALID_REQUEST"%string
       | Some (JObj o) => Ok o
       | Some _ => Err "INVALID_BODY"%string
       end.
Definition int_or (v : option Json) (d : Z) : Result string Z :=
  match int_value (default (JNum d) v) with Ok n => Ok n | Err _ => Err "INVALID_REQUEST"%string end.

(** [ROUTES]: the path by its segments *)
Definition route (method : string) (segments : list text) (tail : option text) (body : list (string * Json)) : option (Z * Result string Op) :=
  let seg (s : text) (x : string) := bool_decide (s = chars x) in
  let post := String.eqb method "POST" in
  let get := String.eqb method "GET" in
  match segments with
  | e :: i :: v :: rest =>
      if negb (bool_decide (e = []) && seg i "internal" && seg v "v1") then None
      else
        match rest with
        | [h] => if get && seg h "health" then Some (200, Ok OpHealth) else if post && seg h "runs" then Some (201, Ok (OpStartRun body)) else None
        | [a; b] =>
            if get && seg a "host" && seg b "capacity" then Some (200, Ok OpCapacity)
            else if post && seg a "images" && seg b "pull" then Some (200, Ok (OpPull (str_or (assoc "image" body) "")))
            else if bool_decide (b = []) then None
            else if get && seg a "runs" then Some (200, Ok (OpRunStatus (unchars b)))
            else if get && seg a "models" then Some (200, Ok (OpModelState (unchars b)))
            else None
        | [a; b; c] =>
            if bool_decide (b = []) then None
            else if post && seg a "models" && seg c "prepare" then Some (200, Ok (OpPrepare (unchars b)))
            else if get && seg a "runs" && seg c "logs" then
              Some (200, match int_text (default (chars "200") tail) with Some n => Ok (OpRunLogs (unchars b) n) | None => Err "INVALID_REQUEST"%string end)
            else if post && seg a "runs" && seg c "cancel" then Some (200, n ← int_or (assoc "graceSeconds" body) 10; Ok (OpCancelRun (unchars b) n))
            else if post && seg a "models" && seg c "install" then Some (202, Ok (OpInstall (unchars b)))
            else if String.eqb method "DELETE" && seg a "models" && seg c "files" then Some (200, Ok (OpDeleteFiles (unchars b)))
            else if post && seg a "models" && seg c "start" then Some (200, Ok (OpStartModel (unchars b)))
            else if post && seg a "models" && seg c "stop" then Some (200, n ← int_or (assoc "graceSeconds" body) 30; Ok (OpStopModel (unchars b) n))
            else None
        | [a; b; c; d] =>
            if negb (bool_decide (b = [])) && post && seg a "models" && seg c "install" && seg d "cancel"
            then Some (200, Ok (OpCancelInstall (unchars b) (truthy (default (JBool false) (assoc "clear" body))))) else None
        | _ => None
        end
  | _ => None
  end.

(** [_dispatch] up to the call of the engine *)
Definition dispatch (token : text) (r : HttpRequest) : Routed :=
  let '(scheme, value) := partition_at " "%char (hq_authorization r) in
  if negb (bool_decide (map lower scheme = chars "bearer")) || negb (bool_decide (default [] value = token)) then Refuse 401 "UNAUTHENTICATED" true
  else
    let declared := match hq_content_length r with [] => chars "0" | t => t end in
    if negb (forallb is_digit declared) then Refuse 400 "INVALID_LENGTH" true
    else if MAX_BODY <? default 0 (int_text declared) then Refuse 413 "PAYLOAD_TOO_LARGE" true
    else
      let segments := split_at "/"%char (hq_path r) in
      match route (hq_method r) segments (hq_tail r) [] with
      | None => Refuse 404 "NOT_FOUND" false
      | Some _ =>
          match json_body r with
          | Err code => Refuse 422 code false
          | Ok body =>
              match route (hq_method r) segments (hq_tail r) body with
              | Some (status, Ok op) => Invoke status op
              | Some (_, Err code) => Refuse 422 code false
              | None => Refuse 404 "NOT_FOUND" false
              end
          end
      end.
