(* ===== verification/EngineProps.v ===== *)
(** * Theorems of the container engine

    Every container is the one a validated request or a profile describes; an attempt of a run has
    one container, whatever is repeated or lost; the collector takes what ended long ago; threads and
    locks settle. *)

From S2P Require Import Prelude Json Redaction PyValue JsonText Platform A1 Manifest Inference Downloads Regex Specs Engine.
From Stdlib Require Import Ascii.
#[local] Open Scope Z_scope.

Section props.
Context (cfg : DaemonConfig) (runs_dir models_dir model_network arch : string) (profiles : gmap string ModelProfile).
#[local] Abbreviation step := (step cfg runs_dir models_dir model_network arch profiles).
#[local] Abbreviation does := (does cfg runs_dir models_dir model_network).
#[local] Abbreviation call_of := (call_of cfg runs_dir models_dir model_network).
#[local] Abbreviation run_config := (run_config cfg runs_dir).
#[local] Abbreviation model_config := (model_config models_dir model_network).
#[local] Abbreviation arrives := (arrives cfg arch profiles).

(** ** What a step does to the containers *)

Definition over (c : Container) : Prop := ct_status c = EXITED \/ ct_status c = DEAD \/ ct_status c = REMOVING.
Definition unstarted (c : Container) : Prop := ct_status c = CREATED \/ ct_status c = DEAD \/ ct_status c = REMOVING.

(** A change of a container that does not start it. *)
Record changes (c c' : Container) : Prop := {
  ch_id : ct_id c' = ct_id c;
  ch_config : ct_config c' = ct_config c;
  ch_created : ct_status c' <> CREATED;
  ch_over : over c -> over c' /\ ct_finished c' = ct_finished c;
  ch_unstarted : unstarted c -> unstarted c'
}.

Abbreviation cts w := (dk_containers (w_docker w)).

(** The thread that moves. *)
Definition actor (ev : Event) : option nat := match ev with Does i _ => Some i | _ => None end.

Inductive hstep (ev : Event) (w w' : World) : Prop :=
| h_same : cts w' = cts w -> dk_next (w_docker w') = dk_next (w_docker w) -> w_created w' = w_created w -> w_removed w' = w_removed w -> hstep ev w w'
| h_create i f name config :
    actor ev = Some i -> w_tasks w !! i = Some f -> call_of f = Some (CreateContainer name config) -> cts w !! name = None ->
    cts w' = <[name := mkContainer (dk_next (w_docker w)) config CREATED 0 false None None]> (cts w) ->
    dk_next (w_docker w') = N.succ (dk_next (w_docker w)) -> w_created w' = mkCreation name (dk_next (w_docker w)) i :: w_created w ->
    w_removed w' = w_removed w -> hstep ev w w'
| h_remove name c cause :
    cts w !! name = Some c -> ct_status c <> REMOVING \/ cause = ByOthers ->
    (cause = ByOthers \/ exists i f, w_tasks w !! i = Some f /\ call_of f = Some (RemoveContainer name) /\ cause = cause_of f) ->
    cts w' = delete name (cts w) -> dk_next (w_docker w') = dk_next (w_docker w) -> w_created w' = w_created w ->
    w_removed w' = mkRemoval name c cause (w_now w) :: w_removed w -> hstep ev w w'
| h_start i f name c :
    actor ev = Some i -> w_tasks w !! i = Some f -> call_of f = Some (StartContainer name) -> cts w !! name = Some c -> ct_status c = CREATED \/ ct_status c = EXITED ->
    cts w' = <[name := c <| ct_status := RUNNING |> <| ct_started := Some (w_now w) |>]> (cts w) ->
    dk_next (w_docker w') = dk_next (w_docker w) -> w_created w' = w_created w -> w_removed w' = w_removed w -> hstep ev w w'
| h_change name c c' :
    cts w !! name = Some c -> changes c c' -> cts w' = <[name := c']> (cts w) ->
    dk_next (w_docker w') = dk_next (w_docker w) -> w_created w' = w_created w -> w_removed w' = w_removed w -> hstep ev w w'.

(** The parts of a step that do not touch Docker's state or its record. *)
Definition keeps (w w' : World) : Prop := w_docker w' = w_docker w /\ w_created w' = w_created w /\ w_removed w' = w_removed w.
Lemma keeps_set i f w : keeps w (set_task i f w). Proof. done. Qed.
Lemma keeps_release i w : keeps w (release i w). Proof. done. Qed.
Lemma keeps_ends i r w : keeps w (ends i r w). Proof. done. Qed.
Lemma keeps_goes i f f' w : keeps w (goes i f f' w). Proof. unfold goes. by destruct (_ && _). Qed.

Lemma hstep_keeps ev w w1 w' : keeps w1 w' -> hstep ev w w1 -> hstep ev w w'.
Proof. intros (E1 & E2 & E3) []; [eapply h_same|eapply h_create|eapply h_remove|eapply h_start|eapply h_change]; rewrite ?E1, ?E2, ?E3; eauto. Qed.

Lemma stopped_changes exit oom now c : active (ct_status c) = true -> changes c (stopped exit oom now c).
Proof. intros Ha. split; cbn; try done; unfold over, unstarted; cbn; destruct (ct_status c); try done; naive_solver. Qed.

Lemma applied_hstep ev i f c exit r d w :
  actor ev = Some i ->   w_tasks w !! i = Some f -> call_of f = Some c -> effect (w_now w) exit c (w_docker w) = Some (r, d) -> hstep ev w (applied i f c d w).
Proof.
  intros Hev Hi Hc He. destruct c; cbn [effect] in He; unfold applied.
  - injection He as <- <-. by apply h_same.
  - injection He as <- <-. by apply h_same.
  - destruct (cts w !! name) eqn:Hn; [done|]. case_match; [|done]. injection He as <- <-. by eapply h_create.
  - destruct (cts w !! name) as [x|] eqn:Hn; [|done].
    destruct (ct_status x) eqn:Hs; try done; injection He as <- <-; try (by apply h_same); eapply h_start; eauto.
  - destruct (cts w !! name) as [x|] eqn:Hn; [|injection He as <- <-; by apply h_same].
    destruct (ct_status x) eqn:Hs; injection He as <- <-; try (by apply h_same); (eapply h_change; [exact Hn|apply stopped_changes; by rewrite Hs|done..]).
  - destruct (cts w !! name) as [x|] eqn:Hn.
    + case_bool_decide as Hs; injection He as <- <-; [rewrite Hn; by apply h_same|]. cbn. rewrite lookup_delete_eq.
      eapply h_remove; [exact Hn|by left|right; eauto|done..].
    + injection He as <- <-. by apply h_same.
  - injection He as <- <-. by apply h_same.
  - injection He as <- <-. by apply h_same.
Qed.

Lemma does_hstep i f o w w' : w_tasks w !! i = Some f -> does i f o w = Some w' -> hstep (Does i o) w w'.
Proof.
  intros Hi. unfold Engine.does. destruct (call_of f) as [c|] eqn:Hc, o as [exit|e].
  - destruct (effect _ _ _ _) as [[r d]|] eqn:He; [|done]. intros [= <-]. eapply hstep_keeps; [apply keeps_goes|by eapply applied_hstep].
  - intros [= <-]. eapply hstep_keeps; [apply keeps_ends|]. destruct e; [|by apply h_same].
    destruct (effect _ _ _ _) as [[r d]|] eqn:He; [by eapply applied_hstep|by apply h_same].
  - intros H. apply h_same; destruct f; cbn [local] in H; repeat case_match; simplify_eq; done.
  - destruct (waits f); [done|]. intros [= <-]. by apply h_same.
Qed.

Lemma turn_changes st now c : may_turn (ct_status c) st = true ->
  changes c (c <| ct_status := st |> <| ct_finished ::= fun t => if active (ct_status c) && negb (active st) then Some now else t |>).
Proof. intros Ht. split; cbn; try done; unfold over, unstarted; cbn; destruct (ct_status c), st; cbn in *; try done; naive_solver. Qed.

Lemma step_hstep ev w w' : step ev w = Some w' -> hstep ev w w'.
Proof.
  destruct ev; cbn [Engine.step]; intros H.
  - injection H as <-. by apply h_same.
  - destruct (w_tasks w !! i) eqn:Hi; [|done]. by eapply does_hstep.
  - destruct (cts w !! name) as [c|] eqn:Hn; [|done]. destruct (active _) eqn:Ha; [|done]. injection H as <-.
    eapply h_change; [exact Hn|by apply stopped_changes|done..].
  - destruct (cts w !! name) as [c|] eqn:Hn; [|done]. destruct (may_turn _ _) eqn:Ha; [|done]. injection H as <-.
    eapply h_change; [exact Hn|by eapply turn_changes|done..].
  - destruct (cts w !! name) as [c|] eqn:Hn; [|done]. injection H as <-. eapply h_remove; [exact Hn|by right|by left|done..].
  - injection H as <-. by apply h_same.
  - injection H as <-. by apply h_same.
  - injection H as <-. by apply h_same.
  - destruct (_ <=? _); [|done]. injection H as <-. by apply h_same.
Qed.

(** ** What a step does to the threads *)

Inductive lnext : Flow -> Flow -> Prop :=
| l_start s : lnext (StartWaits s) (StartInspects s)
| l_dir s : lnext (MakesDir s) (Writes s)
| l_write s : lnext (Writes s) (Creates s)
| l_clear ref k : lnext (Clearing ref k) (Pruning ref k)
| l_prune ref k : lnext (Pruning ref k) (then_ ref k)
| l_model p : lnext (ModelWaits p) (ModelInspects p)
| l_stop p g : lnext (StopWaits p g) (StopInspects p g)
| l_delete p : lnext (DeleteBegins p) (DeleteEnds p)
| l_deleted p : lnext (DeleteEnds p) (Done (Ok FilesDeleted)).

Inductive tnext (w w' : World) (f : Flow) : Flow -> Prop :=
| t_works c exit r : call_of f = Some c -> effect (w_now w) exit c (w_docker w) = Some (r, w_docker w') -> tnext w w' f (next f r)
| t_fails e : is_done f = false -> tnext w w' f (Done (Err e))
| t_local f' : call_of f = None -> w_docker w' = w_docker w -> lnext f f' -> tnext w w' f f'.

Lemma tasks_goes i f f' w : w_tasks (goes i f f' w) = <[i := f']> (w_tasks w).
Proof. unfold goes. by destruct (_ && _). Qed.
Lemma tasks_applied i f c d w : w_tasks (applied i f c d w) = w_tasks w.
Proof. unfold applied. destruct c; try done. by repeat case_match. Qed.
Lemma docker_applied i f c d w : w_docker (applied i f c d w) = d.
Proof. unfold applied. destruct c; try done. by repeat case_match. Qed.
Lemma docker_goes i f f' w : w_docker (goes i f f' w) = w_docker w.
Proof. unfold goes. by destruct (_ && _). Qed.

Lemma does_tnext i f o w w' : does i f o w = Some w' -> exists f', w_tasks w' = <[i := f']> (w_tasks w) /\ tnext w w' f f'.
Proof.
  unfold Engine.does. destruct (call_of f) as [c|] eqn:Hc, o as [exit|e].
  - destruct (effect _ _ _ _) as [[r d]|] eqn:He; [|done]. intros [= <-]. exists (next f r). rewrite tasks_goes, tasks_applied. split; [done|].
    eapply t_works; [exact Hc|]. by rewrite docker_goes, docker_applied.
  - intros [= <-]. exists (Done (Err "DOCKER_ERROR"%string)). split; [|apply t_fails; by destruct f].
    unfold ends. cbn. destruct e; [|done]. destruct (effect _ _ _ _) as [[r d]|]; [by rewrite tasks_applied|done].
  - intros H. destruct f; cbn [local] in H; try discriminate; repeat case_match; try discriminate; injection H as <-;
      (eexists; split; [reflexivity|]; first [by apply t_fails|by apply t_local; [done|done|constructor]]).
  - destruct (waits f) eqn:Hw; [done|]. intros [= <-]. eexists. split; [reflexivity|]. apply t_fails. by destruct f.
Qed.

(** The threads after a step: one of them moves, one arrives, all are lost, or none changes. *)
Definition lost (f : Flow) : Flow := match f with Done _ => f | _ => Done (Err "INTERNAL"%string) end.
Inductive tstep (ev : Event) (w w' : World) : Prop :=
| ts_same : actor ev = None -> w_tasks w' = w_tasks w -> tstep ev w w'
| ts_arrives r : actor ev = None -> w_tasks w' = w_tasks w ++ [arrives r w] -> w_docker w' = w_docker w -> tstep ev w w'
| ts_moves i f f' : actor ev = Some i -> w_tasks w !! i = Some f -> w_tasks w' = <[i := f']> (w_tasks w) -> tnext w w' f f' -> tstep ev w w'
| ts_lost : actor ev = None -> w_tasks w' = map lost (w_tasks w) -> w_docker w' = w_docker w -> tstep ev w w'.

Lemma step_tstep ev w w' : step ev w = Some w' -> tstep ev w w'.
Proof.
  destruct ev; cbn [Engine.step]; intros H.
  2: { destruct (w_tasks w !! i) as [f|] eqn:Hi; [|done]. destruct (does_tnext _ _ _ _ _ H) as (f' & ? & ?). by eapply ts_moves. }
  all: repeat case_match; try discriminate; injection H as <-; try (by apply ts_same).
  - by eapply ts_arrives.
  - apply ts_lost; [done| |done]. cbn. apply map_ext. by intros [].
Qed.

(** A thread after a step was there before, moved, arrived or was lost. *)
Lemma tstep_lookup ev w w' i f' :
  tstep ev w w' -> w_tasks w' !! i = Some f' ->
  (w_tasks w !! i = Some f' /\ actor ev <> Some i) \/ (exists f, actor ev = Some i /\ w_tasks w !! i = Some f /\ tnext w w' f f') \/ (exists r, f' = arrives r w /\ w_tasks w !! i = None) \/
  (exists e, f' = Done (Err e) /\ is_Some (w_tasks w !! i)).
Proof.
  intros [Ha E|r Ha E _|j f g Ha Hj E Ht|Ha E _]; rewrite Ha, E.
  - by left.
  - rewrite lookup_app_Some. intros [?|[Hl H]]; [by left|]. right; right; left. destruct (i - length (w_tasks w))%nat eqn:Ei; [|done]. injection H as <-.
    exists r. split; [done|]. by apply lookup_ge_None.
  - intros [(<- & <- & _)|[? ?]]%list_lookup_insert_Some; [right; left; eauto|left; split; [done|congruence]].
  - intros (f & -> & Hf)%list_lookup_fmap_Some_1. destruct f; cbn; first [by left|right; right; right; eexists; split; [reflexivity|by eexists]].
Qed.

(** ** Every container is one that was asked for *)

Definition accepted (s : DaemonSpec) : Prop := exists b, parse_spec b cfg = Ok s.
Definition known (p : ModelProfile) : Prop := exists id, profiles !! id = Some p.
Definition run_name (n : string) : Prop := exists s, accepted s /\ n = container_name s.
Definition as_specified (name : string) (config : Json) : Prop :=
  (exists s, accepted s /\ name = container_name s /\ config = run_config s) \/
  (exists p, known p /\ name = model_name p /\ model_config p = Ok config).

Definition pull_ok (k : PullFor) : Prop := match k with ForRun s => accepted s | ForModel p => known p | ForCaller => True end.
Definition then_ok (ref : string) (k : Then) : Prop := match k with Answering _ => True | Collecting _ _ rest _ => Forall run_name (ref :: rest) end.
Definition flow_ok (f : Flow) : Prop :=
  match f with
  | StartWaits s | StartInspects s | MakesDir s | Writes s | Creates s | Starts s => accepted s
  | StartRestarts n => run_name n
  | ImageInspects k _ | PullInspects k _ | Pulls k _ | PullChecks k _ => pull_ok k
  | Removing ref k | Clearing ref k | Pruning ref k => then_ok ref k
  | GcInspects n _ _ rest _ => Forall run_name (n :: rest)
  | ModelWaits p | ModelInspects p | ModelReplaces p | ModelCreates p | ModelStarts p | ModelReads p
  | StopWaits p _ | StopInspects p _ | StopStops p _ | StopRemoves p | StopVerifies p
  | DeleteInspects p | DeleteBegins p | DeleteEnds p => known p
  | CancelInspects _ _ | CancelStops _ _ | CancelReads _ | GcLists _ _ | Done _ => True
  end.

Record Specified (w : World) : Prop := {
  sp_containers : forall n c, cts w !! n = Some c -> as_specified n (ct_config c);
  sp_tasks : forall i f, w_tasks w !! i = Some f -> flow_ok f
}.

Lemma bind_ok {E A B} (m : Result E A) (k : A -> Result E B) b : (x ← m; k x) = Ok b -> exists a, m = Ok a /\ k a = Ok b.
Proof. destruct m as [a|]; [|done]. by exists a. Qed.

Lemma model_not_run p config : model_config p = Ok config -> has_kind "run" config = false.
Proof.
  unfold Engine.model_config, model_container_config. intros (port & _ & H)%bind_ok. cbv zeta in H.
  apply bind_ok in H as (args & _ & (shm & _ & (env & _ & (user & _ & [= <-])%bind_ok)%bind_ok)%bind_ok). done.
Qed.

Lemma gc_next_ok now older rest removed : Forall run_name rest -> flow_ok (gc_next now older rest removed).
Proof. by destruct rest. Qed.

Lemma listed_runs w r d now exit :
  Specified w -> effect now exit (ListContainers "run") (w_docker w) = Some (r, d) ->
  exists l, r = RList l /\ Forall (fun ns => run_name ns.1 /\ exists c, cts w !! ns.1 = Some c /\ ct_status c = ns.2) l.
Proof.
  intros HS [= <- <-]. eexists. split; [reflexivity|]. apply Forall_forall. intros ns (x & -> & Hx)%list_elem_of_fmap. cbn.
  apply list_elem_of_In, filter_In in Hx as [Hx Hk]. apply list_elem_of_In in Hx. destruct x as [n c]. apply elem_of_map_to_list in Hx. cbn in *.
  split; [|by exists c]. destruct (sp_containers _ HS _ _ Hx) as [(s & Hs & -> & _)|(p & _ & _ & Hp)]; [by exists s|].
  apply model_not_run in Hp. congruence.
Qed.

Lemma next_flow_ok w f c exit r d : Specified w -> flow_ok f -> call_of f = Some c -> effect (w_now w) exit c (w_docker w) = Some (r, d) -> flow_ok (next f r).
Proof.
  intros HS Hf Hc He. destruct f; cbn [Engine.call_of] in Hc; try discriminate.
  all: try (injection Hc as <-).
  all: try (destruct (listed_runs _ _ _ _ _ HS He) as (l & -> & Hl); cbn [next]; apply gc_next_ok, Forall_map;
    apply Forall_forall; intros x [Hx _]%list_elem_of_In%filter_In; apply list_elem_of_In in Hx; rewrite Forall_forall in Hl; by apply Hl).
  all: try (cbn [effect] in He; injection He as <- <-).
  all: cbn [flow_ok] in Hf; cbn [next]; repeat case_match; cbn; try done; try (destruct k; done); try (by exists s);
    try (apply gc_next_ok; by apply Forall_cons in Hf as [_ ?]); try apply Forall_cons; try done.
Qed.

Lemma lnext_ok f f' : flow_ok f -> lnext f f' -> flow_ok f'.
Proof.
  intros Hf Hn. revert Hf. destruct Hn; try done. destruct k; [done|]. intros [_ ?]%Forall_cons. by apply gc_next_ok.
Qed.

Lemma arrives_flow_ok r w : flow_ok (arrives r w).
Proof.
  destruct r; cbn; unfold with_profile, pull.
  - destruct (parse_spec b cfg) eqn:E; [|done]. case_match; [done|]. by exists b.
  - by case_match.
  - done.
  - destruct (profiles !! id) eqn:E; [|done]. case_match; [|done]. by exists id.
  - destruct (profiles !! id) eqn:E; [|done]. by exists id.
  - destruct (profiles !! id) eqn:E; [|done]. by exists id.
  - destruct (profiles !! id) eqn:E; [|done]. by case_match.
  - by case_match.
Qed.

Lemma specified_step ev w w' : step ev w = Some w' -> Specified w -> Specified w'.
Proof.
  intros H HS. pose proof (step_hstep _ _ _ H) as Hh. pose proof (step_tstep _ _ _ H) as Ht. split.
  - intros n c. destruct Hh as [E|i f name config _ Hi Hc Hn E|name x cause Hx _ _ E|i f name x _ Hi Hc Hx _ E|name x x' Hx Hch E]; rewrite E.
    + apply HS.
    + intros [[<- <-]|[_ ?]]%lookup_insert_Some; [|by apply HS]. pose proof (sp_tasks _ HS _ _ Hi) as Hok. cbn.
      destruct f; cbn [Engine.call_of] in Hc; try discriminate.
      * injection Hc as <- <-. left. eauto.
      * destruct (model_config p) eqn:Hp; [|done]. injection Hc as <- <-. right. eauto.
    + intros [_ ?]%lookup_delete_Some. by apply HS.
    + intros [[<- <-]|[_ ?]]%lookup_insert_Some; [exact (sp_containers _ HS _ _ Hx)|by apply HS].
    + intros [[<- <-]|[_ ?]]%lookup_insert_Some; [|by apply HS]. rewrite (ch_config _ _ Hch). by apply HS.
  - intros i f' Hi. destruct (tstep_lookup _ _ _ _ _ Ht Hi) as [[? _]|[(f & _ & Hf & Hn)|[(r & -> & _)|(e & -> & _)]]]; [by eapply sp_tasks| | |done].
    + pose proof (sp_tasks _ HS _ _ Hf) as Hok. destruct Hn; [by eapply next_flow_ok|done|by eapply lnext_ok].
    + apply arrives_flow_ok.
Qed.

(** ** The record of containers *)

Definition removed (w : World) (n : string) : Prop := exists r, r ∈ w_removed w /\ rm_name r = n.

Record History (w : World) : Prop := {
  hi_ids : NoDup (map cr_id (w_created w));
  hi_current : forall n c, cts w !! n = Some c -> (ct_id c < dk_next (w_docker w))%N /\ exists t, mkCreation n (ct_id c) t ∈ w_created w;
  hi_created : forall e, e ∈ w_created w -> (cr_id e < dk_next (w_docker w))%N /\
    ((exists c, cts w !! cr_name e = Some c /\ ct_id c = cr_id e) \/ removed w (cr_name e));
  hi_removed : forall r, r ∈ w_removed w -> (ct_id (rm_container r) < dk_next (w_docker w))%N /\
    forall n c, cts w !! n = Some c -> ct_id c <> ct_id (rm_container r)
}.

Lemma removed_mono ev w w' n : hstep ev w w' -> removed w n -> removed w' n.
Proof. intros H (r & Hr & <-). exists r. split; [|done]. destruct H as [_ _ _ E|? ? ? ? _ _ _ _ _ _ _ E|? ? ? _ _ _ _ _ _ E|? ? ? ? _ _ _ _ _ _ _ _ E|? ? ? _ _ _ _ _ E]; rewrite E; set_solver. Qed.

(** An id is created once. *)
Lemma created_same w n m id t t' :
  NoDup (map cr_id (w_created w)) -> mkCreation n id t ∈ w_created w -> mkCreation m id t' ∈ w_created w -> n = m /\ t = t'.
Proof.
  induction (w_created w) as [|e l IH]; [by intros _ ?%elem_of_nil|]. cbn. intros [He Hl]%NoDup_cons [E|H1]%elem_of_cons [E'|H2]%elem_of_cons.
  - by simplify_eq.
  - subst e. destruct He. apply list_elem_of_fmap. by exists (mkCreation m id t').
  - subst e. destruct He. apply list_elem_of_fmap. by exists (mkCreation n id t).
  - by apply IH.
Qed.

(** Containers whose content changes keep their record. *)
Lemma history_update w w' n x x' :
  cts w !! n = Some x -> ct_id x' = ct_id x -> cts w' = <[n := x']> (cts w) -> dk_next (w_docker w') = dk_next (w_docker w) ->
  w_created w' = w_created w -> w_removed w' = w_removed w -> History w -> History w'.
Proof.
  intros Hx Hid E1 E2 E3 E4 [H1 H2 H3 H4]. split; unfold removed; rewrite ?E1, ?E2, ?E3, ?E4; [done| | |].
  - intros m c [[<- <-]|[_ Hc]]%lookup_insert_Some; [rewrite Hid|]; by apply H2.
  - intros e He. destruct (H3 _ He) as [Hlt [(c & Hc & Hi)|Hr]]; (split; [done|]); [left|by right].
    destruct (decide (cr_name e = n)) as [E|Hne]; [|exists c; by rewrite lookup_insert_ne].
    rewrite E in Hc |- *. exists x'. rewrite lookup_insert_eq. split; [done|]. congruence.
  - intros r Hr. destruct (H4 _ Hr) as [Hlt Hn]. split; [done|]. intros m c [[<- <-]|[_ Hc]]%lookup_insert_Some; [rewrite Hid|]; by eapply Hn.
Qed.

Lemma history_step ev w w' : hstep ev w w' -> History w -> History w'.
Proof.
  intros Hh HH. destruct Hh as [E1 E2 E3 E4|i f n config _ Hi Hc Hn E1 E2 E3 E4|n x cause Hx _ _ E1 E2 E3 E4|i f n x _ Hi Hc Hx _ E1 E2 E3 E4|n x x' Hx Hch E1 E2 E3 E4].
  - destruct HH. split; unfold removed; by rewrite ?E1, ?E2, ?E3, ?E4.
  - destruct HH as [H1 H2 H3 H4]. split; unfold removed; rewrite ?E1, ?E2, ?E3, ?E4.
    + cbn. apply NoDup_cons. split; [|done]. intros (e & Ee & He)%list_elem_of_fmap. destruct (H3 _ He). lia.
    + intros m c [[<- <-]|[_ Hm]]%lookup_insert_Some; cbn; [split; [lia|exists i; left]|]. destruct (H2 _ _ Hm) as [? (t & ?)]. split; [lia|exists t; by right].
    + intros e [->|He]%elem_of_cons; cbn; [split; [lia|left; eexists; by rewrite lookup_insert_eq]|].
      destruct (H3 _ He) as [Hlt [(c & Hm & ?)|?]]; (split; [lia|]); [left; exists c|by right]. rewrite lookup_insert_ne; [done|congruence].
    + intros r Hr. destruct (H4 _ Hr) as [Hlt Hm]. split; [lia|]. intros m c [[<- <-]|[_ Hl]]%lookup_insert_Some; cbn; [lia|by eapply Hm].
  - destruct HH as [H1 H2 H3 H4]. split; unfold removed; rewrite ?E1, ?E2, ?E3, ?E4; [done| | |].
    + intros m c [_ Hm]%lookup_delete_Some. by apply H2.
    + intros e He. destruct (H3 _ He) as [Hlt [(c & Hm & Hi)|(r & Hr & ?)]]; (split; [done|]); [|right; exists r; split; [by right|done]].
      destruct (decide (cr_name e = n)) as [->|Hne]; [right; eexists; split; [left|done]|left; exists c; by rewrite lookup_delete_ne].
    + intros r [->|Hr]%elem_of_cons; cbn.
      * split; [by apply (H2 n x)|]. intros m c [Hne Hm]%lookup_delete_Some Hid. destruct (H2 _ _ Hm) as [_ (t & Ht)], (H2 _ _ Hx) as [_ (t' & Ht')].
        rewrite Hid in Ht. apply Hne. by destruct (created_same _ _ _ _ _ _ H1 Ht Ht').
      * destruct (H4 _ Hr) as [Hlt Hm]. split; [done|]. intros m c [_ Hl]%lookup_delete_Some. by eapply Hm.
  - eapply (history_update _ _ _ x); [exact Hx| |exact E1|exact E2|exact E3|exact E4|exact HH]. done.
  - eapply (history_update _ _ _ x x'); try done. by apply Hch.
Qed.

(** ** Locks *)

Record Locked (l : option nat) (m : gmap string nat) (tasks : list Flow) : Prop := {
  lk_start : forall i, l = Some i <-> exists f, tasks !! i = Some f /\ holds_start f = true;
  lk_model : forall id i, m !! id = Some i <-> exists f, tasks !! i = Some f /\ holds_model f = Some id
}.
Definition locks_ok (w : World) : Prop := Locked (w_start_lock w) (w_model_locks w) (w_tasks w).

Definition same_locks (f f' : Flow) : Prop := holds_start f' = holds_start f /\ holds_model f' = holds_model f.
Definition free (f : Flow) : Prop := holds_start f = false /\ holds_model f = None.

Lemma holds_free f : holds f = false <-> free f.
Proof.
  unfold holds, free. rewrite orb_false_iff. destruct (holds_model f); [|rewrite bool_decide_eq_false_2 by (by intros [? ?]); naive_solver].
  rewrite bool_decide_eq_true_2 by by eexists. naive_solver.
Qed.

Lemma lookup_moved (tasks : list Flow) i f f' j g :
  tasks !! i = Some f -> <[i := f']> tasks !! j = Some g <-> (j = i /\ g = f') \/ (j <> i /\ tasks !! j = Some g).
Proof.
  intros Hi. rewrite list_lookup_insert_Some. apply lookup_lt_Some in Hi. naive_solver.
Qed.

Lemma locked_same l m tasks i f f' : tasks !! i = Some f -> same_locks f f' -> Locked l m tasks -> Locked l m (<[i := f']> tasks).
Proof.
  intros Hi [E1 E2] [H1 H2]. split.
  - intros j. rewrite H1. setoid_rewrite (lookup_moved _ _ _ _ _ _ Hi). split.
    + intros (g & Hg & Hh). destruct (decide (j = i)) as [->|]; [|eauto]. exists f'. split; [by left|]. congruence.
    + intros (g & [[-> ->]|[? ?]] & Hh); [|eauto]. exists f. split; [done|]. congruence.
  - intros id j. rewrite H2. setoid_rewrite (lookup_moved _ _ _ _ _ _ Hi). split.
    + intros (g & Hg & Hh). destruct (decide (j = i)) as [->|]; [|eauto]. exists f'. split; [by left|]. congruence.
    + intros (g & [[-> ->]|[? ?]] & Hh); [|eauto]. exists f. split; [done|]. congruence.
Qed.

Lemma lock_released l m tasks i f f' :
  tasks !! i = Some f -> free f' -> Locked l m tasks ->
  Locked (if bool_decide (l = Some i) then None else l) (filter (fun kv => kv.2 <> i) m) (<[i := f']> tasks).
Proof.
  intros Hi [E1 E2] [H1 H2]. split.
  - intros j. setoid_rewrite (lookup_moved _ _ _ _ _ _ Hi). case_bool_decide as Hl.
    + split; [done|]. intros (g & [[-> ->]|[Hne Hg]] & Hh); [congruence|]. assert (l = Some j) by (apply H1; eauto). congruence.
    + rewrite H1. split; [intros (g & Hg & Hh)|intros (g & [[-> ->]|[? ?]] & Hh); [congruence|eauto]].
      exists g. split; [|done]. right. split; [|done]. intros ->. apply Hl, H1. eauto.
  - intros id j. rewrite map_lookup_filter_Some, H2. cbn. setoid_rewrite (lookup_moved _ _ _ _ _ _ Hi). split.
    + intros [(g & Hg & Hh) Hne]. exists g. eauto.
    + intros (g & [[-> ->]|[? ?]] & Hh); [congruence|]. eauto.
Qed.

Lemma locked_take_start m tasks i f f' :
  tasks !! i = Some f -> free f -> holds_start f' = true -> holds_model f' = None -> Locked None m tasks -> Locked (Some i) m (<[i := f']> tasks).
Proof.
  intros Hi [E1 E2] E3 E4 [H1 H2]. split.
  - intros j. setoid_rewrite (lookup_moved _ _ _ _ _ _ Hi). split; [intros [= ->]; eauto|].
    intros (g & [[-> ->]|[? Hg]] & Hh); [done|]. assert (None = Some j) by (apply H1; eauto). done.
  - intros id j. rewrite H2. setoid_rewrite (lookup_moved _ _ _ _ _ _ Hi). split.
    + intros (g & Hg & Hh). exists g. split; [|done]. right. split; [|done]. intros ->. congruence.
    + intros (g & [[-> ->]|[? ?]] & Hh); [congruence|eauto].
Qed.

Lemma locked_take_model l m tasks i f f' id :
  tasks !! i = Some f -> free f -> holds_start f' = false -> holds_model f' = Some id -> m !! id = None -> Locked l m tasks -> Locked l (<[id := i]> m) (<[i := f']> tasks).
Proof.
  intros Hi [E1 E2] E3 E4 Hm [H1 H2]. split.
  - intros j. rewrite H1. setoid_rewrite (lookup_moved _ _ _ _ _ _ Hi). split.
    + intros (g & Hg & Hh). exists g. split; [|done]. right. split; [|done]. intros ->. congruence.
    + intros (g & [[-> ->]|[? ?]] & Hh); [congruence|eauto].
  - intros id' j. setoid_rewrite (lookup_moved _ _ _ _ _ _ Hi). rewrite lookup_insert_Some. split.
    + intros [[<- <-]|[Hne Hj]]; [eauto|]. apply H2 in Hj as (g & Hg & Hh). exists g. split; [|done]. right. split; [|done]. intros ->. congruence.
    + intros (g & [[-> ->]|[Hj Hg]] & Hh); [left; split; congruence|]. right. split; [|apply H2; eauto].
      intros ->. assert (m !! id' = Some j) by (apply H2; eauto). congruence.
Qed.

Lemma next_locks f c r : call_of f = Some c -> holds (next f r) = true -> same_locks f (next f r).
Proof.
  intros Hc. destruct f; cbn [Engine.call_of] in Hc; try discriminate; cbn [next].
  all: destruct r; try done; repeat case_match; try done; unfold gc_next, pulled; repeat case_match; done.
Qed.

Lemma locked_goes i f f' w :
  w_tasks w !! i = Some f -> (holds f' = true -> same_locks f f') -> locks_ok w -> locks_ok (goes i f f' w).
Proof.
  intros Hi Hs HL. unfold goes, locks_ok. destruct (holds f') eqn:E'.
  - rewrite andb_false_r. by eapply locked_same; [| apply Hs|].
  - apply holds_free in E'. rewrite andb_true_r. destruct (holds f) eqn:E; [by eapply lock_released|].
    apply holds_free in E. eapply locked_same; [done| |done]. destruct E, E'. split; congruence.
Qed.

Lemma locks_step ev w w' : step ev w = Some w' -> locks_ok w -> locks_ok w'.
Proof.
  intros H HL. destruct ev; cbn [Engine.step] in H.
  - injection H as <-. destruct HL as [H1 H2].
    assert (Hfree : free (arrives r w)). { unfold free. destruct r; cbn; unfold with_profile, pull; repeat case_match; done. } destruct Hfree as [F1 F2].
    assert (Hl : forall i f, (w_tasks w ++ [arrives r w]) !! i = Some f <-> w_tasks w !! i = Some f \/ i = length (w_tasks w) /\ f = arrives r w).
    { intros i f. rewrite lookup_app_Some. split; [|intros [?|[-> ->]]; [by left|right; by rewrite Nat.sub_diag]].
      intros [?|[Hle Hx]]; [by left|]. destruct (i - length (w_tasks w))%nat eqn:Ei; [|done]. injection Hx as <-. right. split; [lia|done]. }
    split; cbn; [intros i; rewrite H1|intros id i; rewrite H2]; setoid_rewrite Hl; (split; [intros (f & ? & ?); eauto|]);
      intros (f & [?|[-> ->]] & ?); eauto; congruence.
  - destruct (w_tasks w !! i) as [f|] eqn:Hi; [|done]. unfold Engine.does in H. destruct (call_of f) as [c|] eqn:Hc, o as [exit|e].
    + destruct (effect _ _ _ _) as [[r d]|]; [|done]. injection H as <-. apply locked_goes; [by rewrite tasks_applied|by eapply next_locks|].
      unfold locks_ok, applied. destruct c; try done. by repeat case_match.
    + injection H as <-. unfold ends. assert (HL' : locks_ok (if e then match effect (w_now w) 137 c (w_docker w) with Some (_, d) => applied i f c d w | None => w end else w)).
      { destruct e; [|done]. destruct (effect _ _ _ _) as [[r d]|]; [|done]. unfold locks_ok, applied. destruct c; try done. by repeat case_match. }
      unfold locks_ok. cbn. eapply lock_released; [|done|exact HL']. destruct e; [|done]. destruct (effect _ _ _ _) as [[r d]|]; [by rewrite tasks_applied|done].
    + destruct f; cbn [local] in H; try discriminate; repeat case_match; try discriminate; injection H as <-.
      all: try (by eapply lock_released); try (by eapply locked_same).
      all: reflect_all; unfold locks_ok in *; cbn.
      * match goal with H : w_start_lock w = None |- _ => rewrite H in HL end. by eapply locked_take_start.
      * eapply locked_same; [done| |done]. unfold then_, gc_next. split; by repeat case_match.
      * eapply locked_same; [done| |done]. unfold then_, gc_next. split; by repeat case_match.
      * eapply locked_same; [done| |done]. unfold then_, gc_next. split; by repeat case_match.
      * by eapply locked_take_model.
      * by eapply locked_take_model.
    + destruct (waits f); [done|]. injection H as <-. by eapply lock_released.
  - repeat case_match; try discriminate; by injection H as <-.
  - repeat case_match; try discriminate; by injection H as <-.
  - repeat case_match; try discriminate; by injection H as <-.
  - by injection H as <-.
  - by injection H as <-.
  - injection H as <-. split; cbn; [intros i; split; [done|]|intros id i; split; [by rewrite lookup_empty|]];
      intros (f & (g & -> & _)%list_lookup_fmap_Some_1 & Hh); by destruct g.
  - repeat case_match; try discriminate; by injection H as <-.
Qed.

(** ** Answers *)

Definition starts_name (f : Flow) : option string :=
  match f with StartRestarts n => Some n | Starts s => Some (container_name s) | _ => None end.
Definition created_after (f : Flow) : bool := match f with Starts _ | ModelStarts _ | ModelReads _ | Done _ => true | _ => false end.

Record Answered (w : World) : Prop := {
  an_starting : forall i f n c, w_tasks w !! i = Some f -> starts_name f = Some n -> cts w !! n = Some c -> unstarted c;
  an_started : forall i n cr, w_tasks w !! i = Some (Done (Ok (Started n cr))) ->
    removed w n \/ exists c, cts w !! n = Some c /\ ct_status c <> CREATED;
  an_created : forall i n, w_tasks w !! i = Some (Done (Ok (Started n true))) -> exists id, mkCreation n id i ∈ w_created w;
  an_starts : forall i s, w_tasks w !! i = Some (Starts s) -> exists id, mkCreation (container_name s) id i ∈ w_created w;
  an_after : forall e, e ∈ w_created w -> exists f, w_tasks w !! cr_task e = Some f /\ created_after f = true;
  an_tasks : NoDup (map cr_task (w_created w))
}.

Lemma run_not_model s p : container_name s <> model_name p.
Proof. unfold container_name, model_name. cbn. discriminate. Qed.

Lemma starts_call f n : starts_name f = Some n -> call_of f = Some (StartContainer n) /\ holds_start f = true.
Proof. destruct f; cbn; try done; by intros [= ->]. Qed.
Lemma start_calls f n : call_of f = Some (StartContainer n) -> starts_name f = Some n \/ exists p, f = ModelStarts p /\ n = model_name p.
Proof.
  destruct f; cbn; try done; try (intros [= <-]; by eauto); try (intros [= <-]; by left).
  by destruct (model_config p).
Qed.
Lemma starts_run f n : flow_ok f -> starts_name f = Some n -> run_name n.
Proof. destruct f; cbn; try done; intros Hf [= <-]; [done|by eexists]. Qed.

(** The container of a start that works was not started before. *)
Lemma start_fresh w i f n c :
  Answered w -> Specified w -> w_tasks w !! i = Some f -> call_of f = Some (StartContainer n) -> run_name n -> cts w !! n = Some c ->
  ct_status c = CREATED \/ ct_status c = EXITED -> starts_name f = Some n /\ ct_status c = CREATED.
Proof.
  intros HA HS Hi Hc (s & _ & ->) Hn Hs. destruct (start_calls _ _ Hc) as [E|(p & _ & E)]; [|by apply run_not_model in E].
  split; [done|]. destruct Hs as [?|Hs]; [done|]. destruct (an_starting _ HA _ _ _ _ Hi E Hn) as [?|[?|?]]; congruence.
Qed.

(** A run container that ended does not come back, but may be replaced after a removal. *)
Lemma over_kept ev w w' n c :
  hstep ev w w' -> Answered w -> Specified w -> run_name n -> cts w !! n = Some c -> over c ->
  removed w' n \/ exists c', cts w' !! n = Some c' /\ over c' /\ ct_finished c' = ct_finished c.
Proof.
  intros Hh HA HS Hr Hn Ho. destruct Hh as [E1 _ _ _|i f m config _ Hi Hc Hm E1 _ _ _|m x cause Hx _ _ E1 _ _ E4|i f m x _ Hi Hc Hx Hs E1 _ _ _|m x x' Hx Hch E1 _ _ _].
  - right. exists c. by rewrite E1.
  - right. exists c. rewrite E1, lookup_insert_ne by congruence. done.
  - destruct (decide (m = n)) as [->|]; [left|right; exists c; by rewrite E1, lookup_delete_ne]. eexists. rewrite E4. split; [left|done].
  - right. destruct (decide (m = n)) as [->|]; [|exists c; by rewrite E1, lookup_insert_ne].
    destruct (start_fresh _ _ _ _ _ HA HS Hi Hc Hr Hx Hs) as [_ Hcr]. assert (x = c) as -> by congruence. unfold over in Ho. rewrite Hcr in Ho. naive_solver.
  - right. destruct (decide (m = n)) as [->|]; [|exists c; by rewrite E1, lookup_insert_ne]. assert (x = c) as -> by congruence.
    exists x'. rewrite E1, lookup_insert_eq. split; [done|]. by apply (ch_over _ _ Hch).
Qed.

Lemma tstep_forward ev w w' i f :
  tstep ev w w' -> w_tasks w !! i = Some f ->
  exists f', w_tasks w' !! i = Some f' /\ (f' = f \/ (actor ev = Some i /\ tnext w w' f f') \/ f' = lost f).
Proof.
  intros [_ E|r _ E _|j g g' Ha Hj E Ht|_ E _] Hi; rewrite E.
  - eauto.
  - exists f. rewrite lookup_app_l; [by eauto|]. by eapply lookup_lt_Some.
  - destruct (decide (j = i)) as [->|]; [exists g'; rewrite list_lookup_insert_eq by (by eapply lookup_lt_Some); naive_solver|].
    exists f. rewrite list_lookup_insert_ne; eauto.
  - exists (lost f). split; [|by right; right]. change (map lost (w_tasks w)) with (lost <$> w_tasks w). by rewrite list_lookup_fmap, Hi.
Qed.

Lemma created_mono ev w w' e : hstep ev w w' -> e ∈ w_created w -> e ∈ w_created w'.
Proof. intros [_ _ E|? ? ? ? _ _ _ _ _ _ E|? ? ? _ _ _ _ _ E|? ? ? ? _ _ _ _ _ _ _ E|? ? ? _ _ _ _ E] He; rewrite E; set_solver. Qed.

Lemma create_call f n config : call_of f = Some (CreateContainer n config) -> created_after f = false /\ forall r, created_after (next f r) = true.
Proof. destruct f; cbn [Engine.call_of]; try done; intros _; split; try done; intros []; done. Qed.

(** A step of [Creates] that works is in the record. *)
Lemma creates_recorded ev w w' i s exit r :
  hstep ev w w' -> actor ev = Some i -> w_tasks w !! i = Some (Creates s) ->
  effect (w_now w) exit (CreateContainer (container_name s) (run_config s)) (w_docker w) = Some (r, w_docker w') ->
  exists id c, mkCreation (container_name s) id i ∈ w_created w' /\ cts w' !! container_name s = Some c /\ ct_status c = CREATED.
Proof.
  intros Hh Ha Hi He. cbn [effect] in He. destruct (cts w !! container_name s); [done|]. case_match; [|done]. injection He as _ He.
  assert (Hn : dk_next (w_docker w') = N.succ (dk_next (w_docker w))) by by rewrite <- He.
  destruct Hh as [_ E|j f n config Hj Hf Hc _ E1 _ E3 _|? ? ? _ _ _ _ E|? ? ? ? _ _ _ _ _ _ E|? ? ? _ _ _ E]; try lia.
  assert (j = i) as -> by congruence. rewrite Hi in Hf. injection Hf as <-. cbn in Hc. injection Hc as <- <-.
  eexists _, _. rewrite E1, E3, lookup_insert_eq. split; [left|done].
Qed.

Lemma started_kept ev w w' n :
  hstep ev w w' -> (removed w n \/ exists c, cts w !! n = Some c /\ ct_status c <> CREATED) -> removed w' n \/ exists c, cts w' !! n = Some c /\ ct_status c <> CREATED.
Proof.
  intros Hh [Hr|(c & Hn & Hs)]; [left; by eapply removed_mono|].
  destruct Hh as [E1 _ _ _|i f m config _ Hi Hc Hm E1 _ _ _|m x cause Hx _ _ E1 _ _ E4|i f m x _ Hi Hc Hx _ E1 _ _ _|m x x' Hx Hch E1 _ _ _].
  - right. exists c. by rewrite E1.
  - right. exists c. rewrite E1, lookup_insert_ne by congruence. done.
  - destruct (decide (m = n)) as [->|]; [left|right; exists c; by rewrite E1, lookup_delete_ne]. eexists. rewrite E4. split; [left|done].
  - right. destruct (decide (m = n)) as [->|]; [|exists c; by rewrite E1, lookup_insert_ne]. eexists. rewrite E1, lookup_insert_eq. done.
  - right. destruct (decide (m = n)) as [->|]; [|exists c; by rewrite E1, lookup_insert_ne]. exists x'. rewrite E1, lookup_insert_eq.
    split; [done|]. apply Hch.
Qed.

Lemma start_works w exit n r d : effect (w_now w) exit (StartContainer n) (w_docker w) = Some (r, d) -> exists c, dk_containers d !! n = Some c /\ ct_status c <> CREATED.
Proof.
  cbn [effect]. destruct (cts w !! n) as [c|] eqn:Hn; [|done]. destruct (ct_status c) eqn:Hs; try done; intros [= <- <-]; cbn.
  all: first [by eexists; rewrite lookup_insert_eq|exists c; split; [done|]; congruence].
Qed.

(** Where a thread that starts a container, or answers with one, comes from. *)
Lemma next_starts f r n : starts_name (next f r) = Some n ->
  (exists s c, f = StartInspects s /\ r = RContainer (Some c) /\ ct_status c = CREATED /\ n = container_name s) \/ (exists s, f = Creates s /\ n = container_name s).
Proof.
  destruct f; cbn [next]; try done; destruct r; try done; unfold pulled, gc_next; repeat case_match; try done; reflect_all; intros [= <-];
    first [by right; eauto|left; by eauto 10].
Qed.
Lemma next_started f r n cr : next f r = Done (Ok (Started n cr)) ->
  (exists s c, f = StartInspects s /\ r = RContainer (Some c) /\ ct_status c <> CREATED /\ n = container_name s /\ cr = false) \/
  (call_of f = Some (StartContainer n) /\ (cr = true -> exists s, f = Starts s /\ n = container_name s)).
Proof.
  destruct f; cbn [next]; try done; destruct r; try done; unfold pulled, gc_next; repeat case_match; try done; reflect_all; intros [= <- <-];
    first [left; by eauto 10|right; split; [done|]; naive_solver].
Qed.

Lemma arrives_quiet r w : starts_name (arrives r w) = None /\ forall n cr, arrives r w <> Done (Ok (Started n cr)).
Proof. destruct r; cbn; unfold with_profile, pull; repeat case_match; done. Qed.
Lemma lnext_quiet f f' : lnext f f' -> starts_name f' = None /\ forall n cr, f' <> Done (Ok (Started n cr)).
Proof. intros []; try done. unfold then_, gc_next. by repeat case_match. Qed.

Lemma starting_step ev w w' i f' n c :
  step ev w = Some w' -> Answered w -> Specified w -> locks_ok w ->
  w_tasks w' !! i = Some f' -> starts_name f' = Some n -> cts w' !! n = Some c -> unstarted c.
Proof.
  intros H HA HS HL Hi' Hn Hc. pose proof (step_hstep _ _ _ H) as Hh.
  destruct (tstep_lookup _ _ _ _ _ (step_tstep _ _ _ H) Hi') as [[Hi Hna]|[(f & Ha & Hi & Ht)|[(r & -> & _)|(e & -> & _)]]].
  - pose proof (starts_run _ _ (sp_tasks _ HS _ _ Hi) Hn) as Hr.
    destruct Hh as [E1|j g m config _ Hj Hg Hm E1|m x cause Hx _ _ E1|j g m x Ha Hj Hg Hx Hs E1|m x x' Hx Hch E1]; rewrite E1 in Hc.
    + by eapply an_starting.
    + apply lookup_insert_Some in Hc as [[_ <-]|[_ Hc]]; [by left|by eapply an_starting].
    + apply lookup_delete_Some in Hc as [_ Hc]. by eapply an_starting.
    + apply lookup_insert_Some in Hc as [[-> _]|[_ Hc]]; [|by eapply an_starting]. exfalso.
      destruct (start_fresh _ _ _ _ _ HA HS Hj Hg Hr Hx Hs) as [Hgn _]. apply starts_call in Hgn as [_ Hgh]. apply starts_call in Hn as [_ Hfh].
      assert (w_start_lock w = Some i) by (apply HL; eauto). assert (w_start_lock w = Some j) by (apply HL; eauto). congruence.
    + apply lookup_insert_Some in Hc as [[-> <-]|[_ Hc]]; [|by eapply an_starting]. apply (ch_unstarted _ _ Hch). by eapply an_starting.
  - destruct Ht as [k exit r Hk He|e _|f' Hk Hd Hl]; [|done|apply lnext_quiet in Hl as [E _]; congruence].
    destruct (next_starts _ _ _ Hn) as [(s & x & -> & -> & Hx & ->)|(s & -> & ->)]; cbn in Hk; injection Hk as <-.
    + cbn [effect] in He. injection He as E1 E2. rewrite <- E2, E1 in Hc. injection Hc as ->. by left.
    + destruct (creates_recorded _ _ _ _ _ _ _ Hh Ha Hi He) as (id & x & _ & Hx & Hs). assert (x = c) as -> by congruence. by left.
  - destruct (arrives_quiet r w) as [E _]. congruence.
  - done.
Qed.

Lemma started_step ev w w' i n cr :
  step ev w = Some w' -> Answered w -> w_tasks w' !! i = Some (Done (Ok (Started n cr))) ->
  (removed w' n \/ exists c, cts w' !! n = Some c /\ ct_status c <> CREATED) /\ (cr = true -> exists id, mkCreation n id i ∈ w_created w').
Proof.
  intros H HA Hi'. pose proof (step_hstep _ _ _ H) as Hh.
  destruct (tstep_lookup _ _ _ _ _ (step_tstep _ _ _ H) Hi') as [[Hi _]|[(f & Ha & Hi & Ht)|[(r & E & _)|(e & ? & _)]]]; [| | |done].
  - split; [eapply started_kept; [done|by eapply an_started]|]. intros ->. destruct (an_created _ HA _ _ Hi) as (id & He). exists id. by eapply created_mono.
  - remember (Done (Ok (Started n cr))) as f' eqn:Ef. destruct Ht as [k exit r Hk He|e _|f' Hk Hd Hl]; [|done|apply lnext_quiet in Hl as [_ E]; by destruct (E n cr)].
    destruct (next_started _ _ _ _ Ef) as [(s & c & -> & -> & Hc & -> & ->)|[Hc Hcr]].
    + cbn in Hk. injection Hk as <-. cbn [effect] in He. injection He as E1 E2. split; [|done]. right. exists c. by rewrite <- E2.
    + rewrite Hc in Hk. injection Hk as <-. split; [right; by eapply start_works|]. intros (s & -> & ->)%Hcr.
      destruct (an_starts _ HA _ _ Hi) as (id & Hid). exists id. by eapply created_mono.
  - destruct (arrives_quiet r w) as [_ E']. by destruct (E' n cr).
Qed.

Lemma starts_step ev w w' i s :
  step ev w = Some w' -> Answered w -> w_tasks w' !! i = Some (Starts s) -> exists id, mkCreation (container_name s) id i ∈ w_created w'.
Proof.
  intros H HA Hi'. pose proof (step_hstep _ _ _ H) as Hh.
  destruct (tstep_lookup _ _ _ _ _ (step_tstep _ _ _ H) Hi') as [[Hi _]|[(f & Ha & Hi & Ht)|[(r & E & _)|(e & ? & _)]]]; [| | |done].
  - destruct (an_starts _ HA _ _ Hi) as (id & He). exists id. by eapply created_mono.
  - remember (Starts s) as f' eqn:Ef. destruct Ht as [k exit r Hk He|e _|f' Hk Hd Hl]; [|done|apply lnext_quiet in Hl as [E _]; by subst].
    destruct (next_starts f r (container_name s)) as [(s' & c & -> & -> & _ & _)|(s' & -> & _)]; [by rewrite Ef|cbn in Ef; by case_match|].
    injection Ef as ->. cbn in Hk. injection Hk as <-. destruct (creates_recorded _ _ _ _ _ _ _ Hh Ha Hi He) as (id & _ & ? & _). by exists id.
  - destruct (arrives_quiet r w) as [E' _]. by rewrite <- E in E'.
Qed.

Lemma after_next f f' w w' : created_after f = true -> tnext w w' f f' -> created_after f' = true.
Proof.
  intros Hf Ht. destruct Ht as [k exit r Hk He|e _|f' Hk Hd Hl]; [|done|by destruct Hl].
  destruct f; try done; by destruct r.
Qed.

Lemma after_step ev w w' :
  step ev w = Some w' -> Answered w ->
  (forall e, e ∈ w_created w' -> exists f, w_tasks w' !! cr_task e = Some f /\ created_after f = true) /\ NoDup (map cr_task (w_created w')).
Proof.
  intros H HA. pose proof (step_hstep _ _ _ H) as Hh. pose proof (step_tstep _ _ _ H) as Ht.
  assert (Hold : forall e, e ∈ w_created w -> exists f, w_tasks w' !! cr_task e = Some f /\ created_after f = true).
  { intros e (f & Hf & Hc)%(an_after _ HA). destruct (tstep_forward _ _ _ _ _ Ht Hf) as (f' & Hf' & [->|[[_ Hn]| ->]]); [eauto|exists f'; split; [done|by eapply after_next]|].
    eexists. split; [exact Hf'|]. by destruct f. }
  destruct Hh as [_ _ E|i f n config Ha Hi Hc _ _ _ E|? ? ? _ _ _ _ _ E|? ? ? ? _ _ _ _ _ _ _ E|? ? ? _ _ _ _ E]; rewrite E; try (split; [exact Hold|apply HA]).
  destruct (create_call _ _ _ Hc) as [Hb Hn]. split.
  - intros e [->|He]%elem_of_cons; [|by apply Hold]. cbn. destruct (tstep_forward _ _ _ _ _ Ht Hi) as (f' & Hf' & [->|[[_ Hx]| ->]]).
    + exfalso. destruct Ht as [Ha' _|r Ha' _ _|j g g' Ha' Hj E' Hx|Ha' _ _]; [congruence|congruence| |congruence].
      assert (j = i) as -> by congruence. rewrite Hi in Hj. injection Hj as <-. rewrite E', list_lookup_insert_eq in Hf' by by eapply lookup_lt_Some.
      injection Hf' as ->. inversion Hx as [k exit r Hk He Ef|e Hd Ef|g Hk Hd Hl Ef]; [|by subst|congruence].
      pose proof (Hn r) as Hnr. rewrite Ef in Hnr. congruence.
    + exists f'. split; [done|]. destruct Hx as [k exit r Hk He|e _|f' Hk Hd Hl]; [apply Hn|done|by destruct Hl].
    + eexists. split; [exact Hf'|]. by destruct f.
  - cbn. apply NoDup_cons. split; [|apply HA]. intros (e & -> & He)%list_elem_of_fmap. destruct (an_after _ HA _ He) as (g & Hg & Hga). congruence.
Qed.

Lemma answered_step ev w w' : step ev w = Some w' -> Answered w -> Specified w -> locks_ok w -> Answered w'.
Proof.
  intros H HA HS HL. destruct (after_step _ _ _ H HA). split; [| | | |done|done].
  - intros i f n c. by eapply starting_step.
  - intros i n cr Hi. by destruct (started_step _ _ _ _ _ _ H HA Hi).
  - intros i n Hi. destruct (started_step _ _ _ _ _ _ H HA Hi) as [_ He]. by apply He.
  - intros i s. by eapply starts_step.
Qed.

(** ** Collection *)

Definition listed (w : World) (n : string) : Prop := removed w n \/ exists c, cts w !! n = Some c /\ over c.
Definition aged (w : World) (now : instant) (older : Z) (n : string) : Prop :=
  removed w n \/ exists c t, cts w !! n = Some c /\ over c /\ ct_finished c = Some t /\ seconds older < now - t.
Definition gc_ok (w : World) (f : Flow) : Prop :=
  match f with
  | GcLists now _ => now <= w_now w
  | GcInspects n now older rest _ => now <= w_now w /\ Forall (listed w) (n :: rest)
  | Removing n (Collecting now older rest _) => now <= w_now w /\ aged w now older n /\ Forall (listed w) rest
  | Clearing n (Collecting now older rest _) | Pruning n (Collecting now older rest _) => now <= w_now w /\ Forall (listed w) rest
  | _ => True
  end.
(** The container had ended, long enough ago, or the name had been used before. *)
Definition collected_ok (w : World) (older : Z) (r : Removal) : Prop :=
  ((ct_status (rm_container r) = EXITED \/ ct_status (rm_container r) = DEAD) /\
   exists t, ct_finished (rm_container r) = Some t /\ seconds older < rm_at r - t) \/
  (exists r', r' ∈ w_removed w /\ rm_name r' = rm_name r /\ ct_id (rm_container r') <> ct_id (rm_container r)).

Record Collects (w : World) : Prop := {
  gc_tasks : forall i f, w_tasks w !! i = Some f -> gc_ok w f;
  gc_removals : forall r older, r ∈ w_removed w -> rm_cause r = ByGc older -> collected_ok w older r
}.

Record Inv (w : World) : Prop := {
  inv_specified : Specified w;
  inv_history : History w;
  inv_locks : locks_ok w;
  inv_answered : Answered w;
  inv_collects : Collects w
}.

Lemma step_time ev w w' : step ev w = Some w' -> w_now w <= w_now w'.
Proof.
  destruct ev; cbn [Engine.step]; intros H.
  2: { destruct (w_tasks w !! i) as [f|]; [|done]. unfold Engine.does in H. destruct (call_of f) as [c|], o as [exit|e].
    - destruct (effect _ _ _ _) as [[r d]|]; [|done]. injection H as <-. unfold goes, applied. destruct c; repeat case_match; cbn; lia.
    - injection H as <-. unfold ends, release, applied. cbn. destruct e; [|lia]. destruct (effect _ _ _ _) as [[r d]|]; [|lia]. destruct c; repeat case_match; cbn; lia.
    - destruct f; cbn [local] in H; try discriminate; repeat case_match; try discriminate; injection H as <-; cbn; lia.
    - destruct (waits f); [done|]. injection H as <-. cbn. lia. }
  all: repeat case_match; try discriminate; injection H as <-; cbn; try lia.
Qed.

Section collecting.
Context (ev : Event) (w w' : World) (Hstep : step ev w = Some w') (HA : Answered w) (HS : Specified w).

Lemma listed_kept n : run_name n -> listed w n -> listed w' n.
Proof.
  intros Hr [H|(c & Hc & Ho)]; [left; eapply removed_mono; [by eapply step_hstep|done]|].
  destruct (over_kept _ _ _ _ _ (step_hstep _ _ _ Hstep) HA HS Hr Hc Ho) as [?|(c' & ? & ? & _)]; [by left|right; eauto].
Qed.
Lemma listed_all l : Forall run_name l -> Forall (listed w) l -> Forall (listed w') l.
Proof. rewrite !Forall_forall. intros Hr Hl n Hn. apply listed_kept; auto. Qed.
Lemma aged_kept now older n : run_name n -> aged w now older n -> aged w' now older n.
Proof.
  intros Hr [H|(c & t & Hc & Ho & Hf & Ht)]; [left; eapply removed_mono; [by eapply step_hstep|done]|].
  destruct (over_kept _ _ _ _ _ (step_hstep _ _ _ Hstep) HA HS Hr Hc Ho) as [?|(c' & ? & ? & E)]; [by left|right]. exists c', t. rewrite E. done.
Qed.

Lemma gc_kept f : flow_ok f -> gc_ok w f -> gc_ok w' f.
Proof.
  pose proof (step_time _ _ _ Hstep). destruct f; cbn; try done; try (destruct k; try done).
  - intros [Hn Hr]%Forall_cons (? & ? & ?). split_and!; [lia|by apply aged_kept|by apply listed_all].
  - intros [_ Hr]%Forall_cons [? ?]. split; [lia|by apply listed_all].
  - intros [_ Hr]%Forall_cons [? ?]. split; [lia|by apply listed_all].
  - intros _ ?. lia.
  - intros Hr [? ?]. split; [lia|by apply listed_all].
Qed.

Lemma gc_next_kept now older rest l : Forall run_name rest -> now <= w_now w -> Forall (listed w) rest -> gc_ok w' (gc_next now older rest l).
Proof.
  intros Hr Hn Hl. pose proof (step_time _ _ _ Hstep). apply (listed_all _ Hr) in Hl. destruct rest; cbn; [done|]. split; [lia|done].
Qed.

Lemma gc_call f c exit r :
  flow_ok f -> gc_ok w f -> call_of f = Some c -> effect (w_now w) exit c (w_docker w) = Some (r, w_docker w') -> gc_ok w' (next f r).
Proof.
  intros Hf Hg Hc He. pose proof (step_time _ _ _ Hstep). destruct f; cbn [Engine.call_of] in Hc; try discriminate.
  all: try (destruct r; cbn [next]; unfold pulled; repeat case_match; done).
  - injection Hc as <-. destruct k as [|now older rest l]; [done|]. destruct Hg as (? & _ & ?). cbn. split; [lia|].
    apply listed_all; [by apply Forall_cons in Hf as [_ ?]|done].
  - injection Hc as <-. destruct (listed_runs _ _ _ _ _ HS He) as (l & -> & Hl). cbn [next].
    assert (Hx : Forall (fun n => run_name n /\ listed w n) (map fst (List.filter (fun ns => bool_decide (ns.2 = EXITED \/ ns.2 = DEAD)) l))).
    { apply Forall_map, Forall_forall. intros [n st] [Hx Hst]%list_elem_of_In%filter_In. rewrite Forall_forall in Hl. apply list_elem_of_In in Hx.
      destruct (Hl _ Hx) as (Hr & x & Hn & Hs). split; [done|]. right. exists x. split; [done|]. cbn in *. apply bool_decide_eq_true in Hst. unfold over. rewrite Hs. tauto. }
    apply gc_next_kept; [eapply Forall_impl; [exact Hx|naive_solver]|done|eapply Forall_impl; [exact Hx|naive_solver]].
  - injection Hc as <-. cbn [effect] in He. injection He as <- Hd. destruct Hg as [Hn [Hl Hrest]%Forall_cons]. apply Forall_cons in Hf as [Hr Hrr].
    cbn [next]. destruct (cts w !! name ≫= ct_finished) as [ts|] eqn:Hts; [|by apply gc_next_kept]. case_match eqn:Hold; [|by apply gc_next_kept].
    cbn. split_and!; [lia| |by apply listed_all]. apply aged_kept; [done|]. destruct Hl as [?|(x & Hx & Ho)]; [by left|right]. exists x, ts. rewrite Hx in Hts. cbn in Hts.
    split_and!; [done..|]. by apply Z.ltb_lt.
Qed.

Lemma gc_local f f' : flow_ok f -> gc_ok w f -> lnext f f' -> gc_ok w' f'.
Proof.
  intros Hf Hg Hl. pose proof (step_time _ _ _ Hstep). revert Hf Hg. destruct Hl; cbn; try done; destruct k; cbn; try done.
  - intros [_ Hr]%Forall_cons [? ?]. split; [lia|by apply listed_all].
  - intros [_ Hr]%Forall_cons [? ?]. by apply gc_next_kept.
Qed.
End collecting.

Lemma collected_mono ev w w' older r : hstep ev w w' -> collected_ok w older r -> collected_ok w' older r.
Proof.
  intros Hh [?|(r' & Hr & ? & ?)]; [by left|right]. exists r'. split; [|done].
  destruct Hh as [_ _ _ E|? ? ? ? _ _ _ _ _ _ _ E|? ? ? _ _ _ _ _ _ E|? ? ? ? _ _ _ _ _ _ _ _ E|? ? ? _ _ _ _ _ E]; rewrite E; set_solver.
Qed.

Lemma collects_step ev w w' : step ev w = Some w' -> Inv w -> Collects w'.
Proof.
  intros H [HS HH HL HA HC]. pose proof (step_hstep _ _ _ H) as Hh. split.
  - intros i f' Hi. destruct (tstep_lookup _ _ _ _ _ (step_tstep _ _ _ H) Hi) as [[Hf _]|[(f & _ & Hf & Ht)|[(r & -> & _)|(e & -> & _)]]]; [| | |done].
    + eapply gc_kept; [done..|by eapply sp_tasks|by eapply gc_tasks].
    + pose proof (sp_tasks _ HS _ _ Hf) as Hok. pose proof (gc_tasks _ HC _ _ Hf) as Hg.
      destruct Ht as [c exit r Hc He|e _|f' _ _ Hl]; [by eapply gc_call|done|by eapply gc_local].
    + pose proof (step_time _ _ _ H). destruct r; cbn; unfold with_profile, pull; repeat case_match; try done.
  - intros r older Hr Hcause. assert (Hold : r ∈ w_removed w -> collected_ok w' older r) by (intros ?; eapply collected_mono; [done|by eapply gc_removals]).
    destruct Hh as [_ _ _ E|? ? ? ? _ _ _ _ _ _ _ E|n c cause Hn Hst Hby _ _ _ E|? ? ? ? _ _ _ _ _ _ _ _ E|? ? ? _ _ _ _ _ E]; rewrite E in Hr; try (by apply Hold).
    apply elem_of_cons in Hr as [->|Hr]; [|by apply Hold]. cbn in Hcause. subst cause.
    destruct Hby as [?|(i & f & Hf & Hc & Hx)]; [done|]. destruct f; cbn in Hx; try done. destruct k as [|now ? rest l]; [done|]. injection Hx as ->.
    cbn in Hc. injection Hc as ->. destruct (gc_tasks _ HC _ _ Hf) as (Hnow & [(r' & Hr' & En)|(c' & t & Hc' & Ho & Ht & Hlt)] & _).
    + right. exists r'. rewrite E. cbn. split_and!; [by right|done|]. intros Eid. by apply (proj2 (hi_removed _ HH _ Hr') n c Hn).
    + left. cbn. assert (c' = c) as -> by congruence. destruct Hst as [Hst|?]; [|done]. split; [unfold over in Ho; tauto|]. exists t. split; [done|]. lia.
Qed.

(** ** Histories *)

Definition lives (w w' : World) : Prop := exists ev, step ev w = Some w'.

Lemma engine_reaches w : rtc lives world0 w -> Inv w.
Proof.
  assert (H0 : Inv world0).
  { split.
    - split; [intros n c; cbn; by rewrite lookup_empty|done].
    - split; cbn; [constructor|intros n c; by rewrite lookup_empty|by intros e ?%elem_of_nil|by intros r ?%elem_of_nil].
    - split; cbn; [intros i; split; [done|by intros (f & ? & _)]|intros id i; rewrite lookup_empty; split; [done|by intros (f & ? & _)]].
    - split; cbn; try done; [by intros e ?%elem_of_nil|constructor].
    - split; [done|by intros r older ?%elem_of_nil]. }
  intros Hr. induction Hr as [|w w1 w2 [ev Hev] _ IH]; [done|]. apply IH. pose proof H0 as [HS HH HL HA HC].
  split; [by eapply specified_step|eapply history_step; [by eapply step_hstep|done]|by eapply locks_step|by eapply answered_step|by eapply collects_step].
Qed.

(** *** Containment *)

Definition locked_down (config : Json) (network : string) : Prop :=
  (exists image, jget "Image" config = Some (JStr image) /\ pinned (chars image)) /\
  host "Privileged" config = Some (JBool false) /\ host "CapDrop" config = Some (strings ["ALL"]%string) /\
  host "SecurityOpt" config = Some (strings ["no-new-privileges:true"]%string) /\
  host "NetworkMode" config = Some (JStr network) /\
  exists source mount, host "Binds" config = Some (strings [source +:+ ":" +:+ mount +:+ ":ro"]%string).

Lemma loaded_image stem data p : load_profile stem data = Ok p -> pinned (chars (model_image p)).
Proof.
  unfold load_profile. cbv zeta. destruct (_ || _); [done|]. destruct (assoc "launch" data) as [[| | | | |launch]|]; try done.
  destruct (assoc "image" launch) as [image|] eqn:Hi; [|done]. destruct (require_immutable_image _) as [x|] eqn:Hr; [|done].
  repeat (case_match; try done). intros [= <-]. unfold model_image. cbn. rewrite Hi.
  pose proof Hr as Hp. apply require_immutable_pinned in Hp. destruct image; try done. cbn. unfold require_immutable_image in Hr. case_match; [|done]. by injection Hr as ->.
Qed.

Lemma model_locked_down p config : pinned (chars (model_image p)) -> model_config p = Ok config -> locked_down config model_network.
Proof.
  unfold Engine.model_config, model_container_config. intros Hp (port & _ & H)%bind_ok. cbv zeta in H.
  apply bind_ok in H as (args & _ & (shm & _ & (env & _ & (user & _ & [= <-])%bind_ok)%bind_ok)%bind_ok).
  unfold locked_down, host. split_and!; try reflexivity; [by exists (model_image p)|]. eexists _, _. reflexivity.
Qed.

(** C29: Whatever requests, failures and restarts came before, every container the daemon has made
    is the one of a validated run spec or of a profile of the catalog: pinned by digest, without
    privileges, on the internal network of its kind and with one read-only mount. *)
Theorem containers_contained w n c :
  (forall id p, profiles !! id = Some p -> exists stem data, load_profile stem data = Ok p) ->
  rtc lives world0 w -> cts w !! n = Some c ->
  (exists b s, parse_spec b cfg = Ok s /\ n = container_name s /\ ct_config c = run_config s /\ locked_down (ct_config c) (cfg_agent_network cfg)) \/
  (exists id p, profiles !! id = Some p /\ n = model_name p /\ model_config p = Ok (ct_config c) /\ locked_down (ct_config c) model_network).
Proof.
  intros Hprof Hr Hn. destruct (sp_containers _ (inv_specified _ (engine_reaches _ Hr)) _ _ Hn) as [(s & (b & Hb) & -> & E)|(p & (id & Hid) & -> & E)].
  - left. exists b, s. split_and!; try done. rewrite E. destruct (container_contained b cfg (config_path runs_dir s) s Hb) as (? & ? & ? & ? & ? & ? & ? & _).
    split_and!; try done. eexists _, _. eassumption.
  - right. exists id, p. split_and!; try done. destruct (Hprof _ _ Hid) as (stem & data & Hl). eapply model_locked_down; [by eapply loaded_image|done].
Qed.

(** *** One container *)

(** C30: Starting an attempt is idempotent: whatever requests are repeated, lost or interrupted, unless
    the container was removed, a start that was answered has a container that was started, at most one
    container was ever created for the attempt, and only one answer says so. *)
Theorem one_container_per_attempt w n :
  rtc lives world0 w -> ~ removed w n ->
  (forall i created, w_tasks w !! i = Some (Done (Ok (Started n created))) -> exists c, cts w !! n = Some c /\ ct_status c <> CREATED) /\
  (forall e e', e ∈ w_created w -> e' ∈ w_created w -> cr_name e = n -> cr_name e' = n -> e = e') /\
  (forall i j, w_tasks w !! i = Some (Done (Ok (Started n true))) -> w_tasks w !! j = Some (Done (Ok (Started n true))) -> i = j).
Proof.
  intros Hr Hnr. destruct (engine_reaches _ Hr) as [_ HH _ HA _].
  assert (Hone : forall e e', e ∈ w_created w -> e' ∈ w_created w -> cr_name e = n -> cr_name e' = n -> e = e').
  { intros [n1 id1 t1] [n2 id2 t2] He He' ? ?. cbn in *. subst n1 n2.
    destruct (hi_created _ HH _ He) as [_ [(c & Hc & E)|?]]; [|done]. destruct (hi_created _ HH _ He') as [_ [(c' & Hc' & E')|?]]; [|done].
    cbn in *. assert (id1 = id2) as -> by congruence. by destruct (created_same _ _ _ _ _ _ (hi_ids _ HH) He He') as [_ ->]. }
  split_and!; [|exact Hone|].
  - intros i cr Hi. by destruct (an_started _ HA _ _ _ Hi).
  - intros i j Hi Hj. destruct (an_created _ HA _ _ Hi) as (id & He), (an_created _ HA _ _ Hj) as (id' & He'). by assert (mkCreation n id i = mkCreation n id' j) as [= _ ->] by by apply Hone.
Qed.

(** *** Collection *)

(** C31: The collector removes a container only after it ended, and more than the given time after,
    unless its name had been used, and freed, before: the first container of an attempt is never
    removed while it runs nor before its exit could be read. *)
Theorem gc_spares_live w r older :
  rtc lives world0 w -> r ∈ w_removed w -> rm_cause r = ByGc older ->
  ((ct_status (rm_container r) = EXITED \/ ct_status (rm_container r) = DEAD) /\
   exists t, ct_finished (rm_container r) = Some t /\ seconds older < rm_at r - t) \/
  (exists r', r' ∈ w_removed w /\ rm_name r' = rm_name r /\ ct_id (rm_container r') <> ct_id (rm_container r)).
Proof. intros Hr Hin Hc. exact (gc_removals _ (inv_collects _ (engine_reaches _ Hr)) _ _ Hin Hc). Qed.

(** *** Settling *)

(** The steps a thread has left; how many a collection has is known once it has listed. *)
Definition then_rank (k : Then) : nat := match k with Answering _ => 0 | Collecting _ _ rest _ => 5 * length rest end.
Definition rank (f : Flow) : nat * nat :=
  match f with
  | GcLists _ _ => (1, 0)
  | StartWaits _ => (0, 12) | StartInspects _ => (0, 11)
  | ImageInspects _ _ => (0, 10) | PullInspects _ _ => (0, 9) | Pulls _ _ => (0, 8) | PullChecks _ _ => (0, 7)
  | MakesDir _ => (0, 6) | Writes _ => (0, 5) | Creates _ => (0, 4) | Starts _ | StartRestarts _ => (0, 3)
  | CancelInspects _ _ => (0, 7) | CancelStops _ _ => (0, 6) | CancelReads _ => (0, 5)
  | Removing _ k => (0, 4 + then_rank k) | Clearing _ k => (0, 3 + then_rank k) | Pruning _ k => (0, 2 + then_rank k)
  | GcInspects _ _ _ rest _ => (0, 5 + 5 * length rest)
  | ModelWaits _ => (0, 6) | ModelInspects _ => (0, 5) | ModelReplaces _ => (0, 4) | ModelCreates _ => (0, 3) | ModelStarts _ => (0, 2) | ModelReads _ => (0, 1)
  | StopWaits _ _ => (0, 6) | StopInspects _ _ => (0, 5) | StopStops _ _ => (0, 4) | StopRemoves _ => (0, 3) | StopVerifies _ => (0, 2)
  | DeleteInspects _ => (0, 3) | DeleteBegins _ => (0, 2) | DeleteEnds _ => (0, 1)
  | Done _ => (0, 0)
  end%nat.
Definition before (f' f : Flow) : Prop := ((rank f').1 < (rank f).1)%nat \/ (rank f').1 = (rank f).1 /\ ((rank f').2 < (rank f).2)%nat.

Lemma before_wf : well_founded before.
Proof.
  assert (H : forall a b f, rank f = (a, b) -> Acc before f); [|intros f; destruct (rank f) eqn:E; by eapply H].
  intros a. induction a as [a IHa] using lt_wf_ind. intros b. induction b as [b IHb] using lt_wf_ind. intros f E.
  constructor. intros g. unfold before. rewrite E. cbn. destruct (rank g) as [a' b'] eqn:Eg. cbn. intros [?|[-> ?]]; [by eapply IHa|by eapply IHb].
Qed.

Lemma gc_next_rank now older rest l : rank (gc_next now older rest l) = (0, 5 * length rest)%nat.
Proof. destruct rest; cbn; [done|]. f_equal. lia. Qed.

Lemma tnext_before w w' f f' : is_done f = false -> tnext w w' f f' -> before f' f.
Proof.
  intros Hd Ht. unfold before. destruct Ht as [c exit r Hc He|e _|f' _ _ Hl].
  - destruct f; cbn [Engine.call_of] in Hc; try discriminate; destruct r; cbn [next]; unfold pulled; repeat case_match; rewrite ?gc_next_rank; cbn; lia.
  - destruct f; try done; cbn; lia.
  - revert Hd. destruct Hl; cbn; try lia. destruct k; cbn [then_ then_rank]; rewrite ?gc_next_rank; cbn; lia.
Qed.

Lemma done_stays w w' r f' : ~ tnext w w' (Done r) f'.
Proof. intros Ht. inversion Ht as [c exit r' Hc|e Hd|g _ _ Hl]; [done|done|by inversion Hl]. Qed.

Definition wants (f g : Flow) : bool :=
  match f with
  | StartWaits _ => holds_start g
  | ModelWaits p | StopWaits p _ => bool_decide (holds_model g = Some (mp_id p))
  | _ => false
  end.

Lemma can_move w i f : w_tasks w !! i = Some f -> waits f = false -> exists w', step (Does i (Fails false)) w = Some w' /\ w_tasks w' !! i <> Some f.
Proof.
  intros Hi Hw. cbn. rewrite Hi. unfold Engine.does. destruct (call_of f); [|rewrite Hw]; eexists; (split; [reflexivity|]);
    cbn; rewrite list_lookup_insert_eq by (by eapply lookup_lt_Some); intros [= <-]; done.
Qed.
Lemma holder_moves g : holds g = true -> waits g = false.
Proof. by destruct g. Qed.
Lemma holds_intro g : holds_start g = true \/ is_Some (holds_model g) -> holds g = true.
Proof. unfold holds. rewrite orb_true_iff, bool_decide_eq_true. done. Qed.

(** Every request comes to an end: its thread goes on only towards its end, in a well-founded
    order, and where it is not done it can move, or it waits for a lock whose holder can.  No lock
    outlives the thread that took it. *)
Theorem daemon_settles w :
  rtc lives world0 w ->
  well_founded before /\
  (forall ev w' i f, step ev w = Some w' -> w_tasks w !! i = Some f -> exists f', w_tasks w' !! i = Some f' /\ (f' = f \/ before f' f)) /\
  (forall i f, w_tasks w !! i = Some f -> is_done f = false ->
     exists j g o w', w_tasks w !! j = Some g /\ (j = i \/ wants f g = true) /\ step (Does j o) w = Some w' /\ w_tasks w' !! j <> Some g).
Proof.
  intros Hr. pose proof (inv_locks _ (engine_reaches _ Hr)) as HL. split; [apply before_wf|]. split.
  - intros ev w' i f H Hi. destruct (tstep_forward _ _ _ _ _ (step_tstep _ _ _ H) Hi) as (f' & Hf' & Hc). exists f'. split; [done|].
    destruct Hc as [->|[[_ Ht]| ->]]; [by left| |].
    + destruct (is_done f) eqn:Hd; [|right; by eapply tnext_before]. destruct f; try done. by apply done_stays in Ht.
    + destruct f; cbn; try (by left); right; unfold before; cbn; lia.
  - intros i f Hi Hd.
    assert (Hmove : forall j g, w_tasks w !! j = Some g -> waits g = false -> (j = i \/ wants f g = true) ->
      exists j g o w', w_tasks w !! j = Some g /\ (j = i \/ wants f g = true) /\ step (Does j o) w = Some w' /\ w_tasks w' !! j <> Some g).
    { intros j g Hj Hg Hw. destruct (can_move _ _ _ Hj Hg) as (w' & ? & ?). by exists j, g, (Fails false), w'. }
    assert (Htake : forall w', step (Does i (Works 0)) w = Some w' -> w_tasks w' !! i <> Some f ->
      exists j g o w', w_tasks w !! j = Some g /\ (j = i \/ wants f g = true) /\ step (Does j o) w = Some w' /\ w_tasks w' !! j <> Some g).
    { intros w' ? ?. exists i, f, (Works 0), w'. eauto. }
    destruct (waits f) eqn:Hw; [|by eapply Hmove; eauto]. destruct f; try done.
    + destruct (w_start_lock w) as [j|] eqn:El.
      * apply HL in El as (g & Hg & Hh). eapply Hmove; [exact Hg|apply holder_moves, holds_intro; by left|by right].
      * eapply Htake; [cbn; rewrite Hi; cbn; by rewrite El|]. cbn. by rewrite list_lookup_insert_eq by by eapply lookup_lt_Some.
    + destruct (w_model_locks w !! mp_id p) as [j|] eqn:El.
      * apply HL in El as (g & Hg & Hh). eapply Hmove; [exact Hg|apply holder_moves, holds_intro; right; by eexists|right; cbn; by apply bool_decide_eq_true].
      * eapply Htake; [cbn; rewrite Hi; cbn; by rewrite El|]. cbn. by rewrite list_lookup_insert_eq by by eapply lookup_lt_Some.
    + destruct (w_model_locks w !! mp_id p) as [j|] eqn:El.
      * apply HL in El as (g & Hg & Hh). eapply Hmove; [exact Hg|apply holder_moves, holds_intro; right; by eexists|right; cbn; by apply bool_decide_eq_true].
      * eapply Htake; [cbn; rewrite Hi; cbn; by rewrite El|]. cbn. by rewrite list_lookup_insert_eq by by eapply lookup_lt_Some.
Qed.
End props.

(** ** Directories *)

Lemma split_at_nonempty c a : split_at c a <> [].
Proof. destruct a; [done|]. cbn. by repeat case_match. Qed.
Lemma split_at_cut c a b : split_at c (a ++ c :: b) = split_at c a ++ split_at c b.
Proof.
  induction a as [|x a IH]; cbn [app split_at].
  - rewrite Ascii.eqb_refl. destruct (split_at c b) eqn:E; [by apply split_at_nonempty in E|done].
  - rewrite IH. destruct (split_at c a) as [|w ws] eqn:E; [by apply split_at_nonempty in E|]. cbn. by destruct (Ascii.eqb x c).
Qed.
Lemma split_at_none c b : forallb (fun x => negb (Ascii.eqb x c)) b = true -> split_at c b = [b].
Proof. induction b as [|x b IH]; [done|]. cbn. intros [Hx Hb]%andb_true_iff. rewrite IH by done. by apply negb_true_iff in Hx as ->. Qed.
Lemma join_split c a : join_text [c] (split_at c a) = a.
Proof.
  induction a as [|x a IH]; [done|]. cbn [split_at]. destruct (split_at c a) as [|w ws] eqn:E; [by apply split_at_nonempty in E|].
  destruct (Ascii.eqb_spec x c) as [->|]; [|destruct ws; cbn in *; by subst].
  change (join_text [c] ([] :: w :: ws)) with (c :: join_text [c] (w :: ws)). by rewrite IH.
Qed.

Lemma pretty_char_digit x : (x < 10)%N -> is_digit (pretty_N_char x) = true.
Proof. intros Hx. assert (x = 0 \/ x = 1 \/ x = 2 \/ x = 3 \/ x = 4 \/ x = 5 \/ x = 6 \/ x = 7 \/ x = 8 \/ x = 9)%N as Hc by lia. by destruct_or!; subst. Qed.
Lemma pretty_go_digits x s : forallb is_digit (chars s) = true -> forallb is_digit (chars (pretty_N_go x s)) = true.
Proof.
  revert s. induction x as [x IH] using (well_founded_induction N.lt_wf_0). intros s Hs.
  destruct (decide (x = 0)%N) as [->|Hx]; [by rewrite pretty_N_go_0|]. rewrite pretty_N_go_step by lia. apply IH; [apply N.div_lt; lia|].
  change (is_digit (pretty_N_char (x mod 10)) && forallb is_digit (chars s) = true). rewrite Hs, pretty_char_digit; [done|]. apply N.mod_lt. lia.
Qed.
Lemma pretty_go_nonempty x s : chars s <> [] -> chars (pretty_N_go x s) <> [].
Proof.
  revert s. induction x as [x IH] using (well_founded_induction N.lt_wf_0). intros s Hs.
  destruct (decide (x = 0)%N) as [->|Hx]; [by rewrite pretty_N_go_0|]. rewrite pretty_N_go_step by lia. apply IH; [apply N.div_lt; lia|done].
Qed.
Lemma pretty_digits z : 1 <= z -> forallb is_digit (chars (pretty z)) = true /\ chars (pretty z) <> [].
Proof.
  intros Hz. destruct z as [|p|p]; try lia. change (pretty (Z.pos p)) with (pretty (N.pos p)). unfold pretty, pretty_N. rewrite decide_False by done.
  split; [by apply pretty_go_digits|]. rewrite pretty_N_go_step by lia. apply pretty_go_nonempty. done.
Qed.

(** A reference is cleaned up in the directory its run was started in. *)
Lemma ref_parts_run s : 1 <= ds_attempt s -> ref_parts (container_name s) = Some (dir_of s).
Proof.
  intros Hs. destruct (pretty_digits _ Hs) as [Hd Hne]. unfold ref_parts, container_name, dir_of.
  assert (E : chars ("cq-run-" +:+ uuid_str (ds_run_id s) +:+ "-" +:+ pretty (ds_attempt s)) =
              chars "cq-run-" ++ chars (uuid_str (ds_run_id s)) ++ "-"%char :: chars (pretty (ds_attempt s))) by by rewrite !chars_app.
  rewrite E. rewrite bool_decide_eq_true_2 by done. cbv zeta. rewrite (drop_app_length' (chars "cq-run-")) by done.
  rewrite split_at_cut, (split_at_none _ (chars (pretty _))), rev_app_distr.
  2: { apply forallb_forall. rewrite forallb_forall in Hd. intros c Hc%Hd. destruct (Ascii.eqb_spec c "-"); [by subst|done]. }
  cbn [rev app]. destruct (rev (split_at "-" (chars (uuid_str (ds_run_id s))))) as [|w ws] eqn:Er.
  - apply (f_equal (@rev _)) in Er. rewrite rev_involutive in Er. by apply split_at_nonempty in Er.
  - rewrite <- Er, rev_involutive. change (chars "-") with ["-"%char]. rewrite join_split. rewrite Hd, !bool_decide_eq_true_2; [|done|by unfold uuid_str]. cbn [andb]. unfold unchars, chars. by rewrite !String.string_of_list_ascii_of_string.
Qed.

(** ** Logs *)

(** A line as Docker multiplexes it: the stream, three zeros, the length in four bytes, the text. *)
Definition byte_of (n : N) : ascii := ascii_of_N (n mod 256).
Definition size_bytes (n : N) : text := [byte_of (n / 2 ^ 24); byte_of (n / 2 ^ 16); byte_of (n / 2 ^ 8); byte_of n].
Definition log_frame (l : string * text) : text :=
  ascii_of_N (if String.eqb l.1 "stderr" then 2 else 1) :: "000"%char :: "000"%char :: "000"%char
    :: size_bytes (N.of_nat (S (length l.2))) ++ l.2 ++ ["010"%char].
Definition log_line (l : string * text) : Prop :=
  (l.1 = "stdout" \/ l.1 = "stderr")%string /\ Forall (fun c => line_break c = false) l.2 /\ (N.of_nat (S (length l.2)) < 2 ^ 32)%N.

Lemma be32_size n : (n < 2 ^ 32)%N -> be32 (byte_of (n / 2 ^ 24)) (byte_of (n / 2 ^ 16)) (byte_of (n / 2 ^ 8)) (byte_of n) = n.
Proof.
  intros Hn. unfold be32, byte_of. rewrite !N_ascii_embedding by (apply N.mod_lt; lia).
  change (2 ^ 24)%N with 16777216%N. change (2 ^ 16)%N with 65536%N. change (2 ^ 8)%N with 256%N. change (2 ^ 32)%N with 4294967296%N in Hn.
  zify. Z.to_euclidean_division_equations. lia.
Qed.

Lemma splitlines_line t : Forall (fun c => line_break c = false) t -> splitlines (t ++ ["010"%char]) = [t].
Proof. induction t as [|c t IH]; [done|]. intros [Hc Ht]%Forall_cons. cbn [app splitlines]. by rewrite Hc, IH. Qed.

Lemma demux_one fuel l rest : log_line l -> demux_from (S fuel) (log_frame l ++ rest) = l :: demux_from fuel rest.
Proof.
  destruct l as [name t]. intros (Hname & Ht & Hlen). cbn [fst snd] in *.
  assert (E : log_frame (name, t) ++ rest = ascii_of_N (if String.eqb name "stderr" then 2 else 1) :: "000"%char :: "000"%char :: "000"%char
    :: byte_of (N.of_nat (S (length t)) / 2 ^ 24) :: byte_of (N.of_nat (S (length t)) / 2 ^ 16) :: byte_of (N.of_nat (S (length t)) / 2 ^ 8)
    :: byte_of (N.of_nat (S (length t))) :: (t ++ ["010"%char]) ++ rest) by done.
  rewrite E. cbn [demux_from]. rewrite be32_size by done.
  replace (N.to_nat _) with (length (t ++ ["010"%char])) by (rewrite !length_app; cbn [length]; lia).
  rewrite take_app_length, drop_app_length, splitlines_line by done. cbn [map app]. do 2 f_equal. by destruct Hname as [-> | ->].
Qed.

(** The log stream of a container is read back line by line, as it was written. *)
Theorem demux_frames ls : Forall log_line ls -> demux (concat (map log_frame ls)) = ls.
Proof.
  unfold demux. assert (Hf : (length ls <= length (concat (map log_frame ls)))%nat).
  { induction ls as [|l ls IH]; [done|]. cbn [map concat]. rewrite length_app. cbn [length log_frame]. lia. }
  revert Hf. generalize (length (concat (map log_frame ls))) as fuel. induction ls as [|l ls IH]; intros fuel Hf Hl; [by destruct fuel|].
  apply Forall_cons in Hl as [Hl Hls]. destruct fuel as [|fuel]; [cbn in Hf; lia|]. cbn [map concat]. rewrite demux_one by done. f_equal. apply IH; [cbn in Hf; lia|done].
Qed.

(** ** The server and the networks *)

(** Containers are only started on networks that have no route out. *)
Lemma networks_internal isolate found first second after mode :
  ensure_network isolate found first second after = Ok mode -> exists n, after = Some n /\ nw_internal n = true.
Proof. unfold ensure_network. repeat case_match; try done; intros _; eauto. Qed.

(** A request reaches the engine only with the service token and a body of bounded length. *)
Lemma dispatch_guarded token r status op :
  (16 <= length token)%nat -> dispatch token r = Invoke status op ->
  exists scheme, partition_at " "%char (hq_authorization r) = (scheme, Some token) /\ map lower scheme = chars "bearer" /\
    default 0 (int_text (match hq_content_length r with [] => chars "0" | t => t end)) <= MAX_BODY.
Proof.
  intros Hlen. unfold dispatch. destruct (partition_at _ _) as [scheme value]. destruct (negb _ || negb _) eqn:E; [done|].
  apply orb_false_iff in E as [E1%negb_false_iff E2%negb_false_iff]. reflect_all. destruct (negb _); [done|]. destruct (_ <? _) eqn:Hm; [done|].
  intros _. exists scheme. apply Z.ltb_ge in Hm. destruct value as [v|]; cbn in *; subst; [done|cbn in Hlen; lia].
Qed.
