(* ===== verification/Backup.v ===== *)
(** * Backups ([shared/backup.py], [control_api/restore.py], [control_api/backups.py])

    Archives of the database and its documents: what [create_backup] puts into one and the steps in
    which it appears in the backup directory, the listing and its retention, the owner's download,
    the verification of an archive that may come from anywhere, and the restore.  File contents are
    values of a type [B] with the codecs that Python's [json] and [tarfile] modules, [hashlib] and
    the PostgreSQL client tools provide; file modes other than "readable by other users", ownership
    and the text of messages are left out. *)

From stdpp Require Import sorting.
From S2P Require Import Prelude TimeUtil Json Redaction PyValue JsonText SecretStore A1 Pagination Regex.
From Stdlib Require Import Ascii.
#[local] Open Scope Z_scope.

(** [BackupError] by its code, and any other exception by its class. *)
Inductive Failure := BackupError (code : string) | Raised (exception : string).
Abbreviation BR := (Result Failure).

(** ** Names *)

Definition PREFIX : string := "crewquarters-backup-".
Definition SUFFIX : string := ".tar.gz".
Definition SIDECAR : string := ".manifest.json".
Definition MANIFEST : string := "manifest.json".
Definition PART_DATABASE : string := "database.dump".
Definition PART_DOCUMENTS : string := "documents.tar".
Definition PART_MASTER_KEY : string := "master.key".
Definition PARTS : list string := [PART_DATABASE; PART_DOCUMENTS; PART_MASTER_KEY].
Definition FORMAT_VERSION : Z := 1.
Definition DOCUMENTS_SKIP : list string := [".staging"; ".restore-new"; ".restore-old"]%string.

Definition label_start (c : ascii) : bool := is_lower c || is_digit c.
Definition label_char (c : ascii) : bool := label_start c || Ascii.eqb c "-".
Definition LABEL_RE : re := Cat (Chr label_start) (upto 39 (Chr label_char)).
Definition NAME_RE : re :=
  Cat (word (chars PREFIX)) (Cat (times 8 (Chr is_digit)) (Cat (word (chars "T")) (Cat (times 6 (Chr is_digit))
    (Cat (word (chars "Z")) (opt (Cat (word (chars "-")) LABEL_RE)))))).

Definition is_name (name : string) : bool := anchored NAME_RE (chars name).

(** [now.astimezone(UTC).strftime("%Y%m%dT%H%M%SZ")] *)
Definition stamp (now : instant) : string :=
  let sec := now / 1000000 in
  let '(y, m, d) := civil (sec / 86400) in
  let s := sec mod 86400 in
  (padded 4 y +:+ padded 2 m +:+ padded 2 d +:+ "T" +:+
   padded 2 (s / 3600) +:+ padded 2 (s / 60 mod 60) +:+ padded 2 (s mod 60) +:+ "Z")%string.

Definition backup_name (now : instant) (label : option string) : BR string :=
  match label with
  | Some l => if anchored LABEL_RE (chars l) then Ok (PREFIX +:+ stamp now +:+ "-" +:+ l)%string else Err (BackupError "INVALID_LABEL")
  | None => Ok (PREFIX +:+ stamp now)%string
  end.

Definition archive_file (name : string) : string := (name +:+ SUFFIX)%string.
Definition archive_path (name : string) : BR string :=
  if is_name name then Ok (archive_file name) else Err (BackupError "INVALID_BACKUP_ID").
Definition sidecar_path (name : string) : string := (name +:+ SIDECAR)%string.

(** [entry.name.endswith(suffix)] and [entry.name[: -len(suffix)]] *)
Definition without_suffix (suffix name : string) : option string :=
  let n := chars name in
  let k := (length n - length (chars suffix))%nat in
  if bool_decide (drop k n = chars suffix) then Some (unchars (take k n)) else None.

(** ** Files

    A member of a tar file: regular, or anything else (a directory, a link, a device). *)
Inductive Kind := Regular | Special.
#[export] Instance Kind_eq_dec : EqDecision Kind.
Proof. solve_decision. Defined.
Record Member (B : Type) := mkMember { mb_name : string; mb_kind : Kind; mb_data : B }.
Arguments mkMember {B}. Arguments mb_name {B}. Arguments mb_kind {B}. Arguments mb_data {B}.

(** What iterating over a tar file gives: members, then its end, or an error of [tarfile] or of a
    compressed stream that stops early. *)
Inductive TarEnd := Complete | TarError | EOFError.
Inductive TarRead (B : Type) := NotTar | Members (ms : list (Member B)) (stop : TarEnd).
Arguments NotTar {B}. Arguments Members {B}.

(** The tables a backup and a restore look at; [db_rest] is every other one. *)
Record ConnectionRow := mkConn { cn_provider : string; cn_secret : option uuid; cn_status : string; cn_detail : option string }.
Record ProviderRow := mkProf { pf_provider : string; pf_secret : option uuid; pf_status : string }.
Record Restored := mkRestored {
  rs_created_at : Json; rs_platform : Json; rs_from : option Json; rs_to : string; rs_documents : Z; rs_key : bool; rs_unreadable : Z
}.
Record Database (R : Type) := mkDatabase {
  db_alembic : option (list string);      (** [alembic_version], [None] without the table *)
  db_documents : option (list string);    (** the [path] column of [documents] *)
  db_secrets : list EncryptedSecret;
  db_connections : list ConnectionRow;
  db_profiles : list ProviderRow;
  db_models : list (string * string);     (** [model_id] and [state] of the installations *)
  db_restores : list Restored;            (** the audit rows [system.backup_restored] *)
  db_rest : R
}.
Arguments mkDatabase {R}. Arguments db_alembic {R}. Arguments db_documents {R}. Arguments db_secrets {R}.
Arguments db_connections {R}. Arguments db_profiles {R}. Arguments db_models {R}. Arguments db_restores {R}. Arguments db_rest {R}.
#[export] Instance eta_Database R : Eta (Database R) := fun d =>
  mkDatabase (db_alembic d) (db_documents d) (db_secrets d) (db_connections d) (db_profiles d) (db_models d) (db_restores d) (db_rest d).

Class Codecs (B R : Type) := {
  size : B -> Z;                          (** [stat().st_size] *)
  sha256 : B -> string;                   (** [sha256_file] *)
  dumps : Json -> B;                      (** [json.dumps(data, indent=2, sort_keys=True).encode()] *)
  loads : B -> option Json;               (** [None] is a [ValueError] *)
  read_text : B -> option string;         (** [Path.read_text] *)
  write_tar : list (Member B) -> B;       (** [tarfile.open(mode="w")], a regular file each *)
  read_tar : B -> TarRead B;
  write_tgz : list (Member B) -> B;
  read_tgz : B -> TarRead B;
  pg_dump : Database R -> B;
  pg_restore : B -> option (Database R);  (** [None]: the tool fails *)
  empty_database : Database R             (** after [DROP SCHEMA] and [CREATE SCHEMA] *)
}.

(** [json.loads] gives back what [json.dumps] wrote, in key order. *)
Fixpoint sorted_keys (v : Json) : Json :=
  match v with
  | JList l => JList (map sorted_keys l)
  | JObj o => JObj (sort_items (map (fun kv => (kv.1, sorted_keys kv.2)) o))
  | _ => v
  end.

Class CodecLaws {B R : Type} (C : Codecs B R) := {
  loads_dumps : forall j, loads (dumps j) = Some (sorted_keys j);
  read_write_tar : forall ms, Forall (fun m => mb_kind m = Regular) ms -> read_tar (write_tar ms) = Members ms Complete;
  read_write_tgz : forall ms, Forall (fun m => mb_kind m = Regular) ms -> read_tgz (write_tgz ms) = Members ms Complete;
  restore_dump : forall d, pg_restore (pg_dump d) = Some d
}.

(** ** Python's conversions *)

(** [int(s)]: blanks around, a sign, digits with single underscores between them. *)
Fixpoint digits_of (acc : option Z) (s : text) : option Z :=
  match s with
  | [] => acc
  | c :: s' =>
      if is_digit c then digits_of (Some (10 * default 0 acc + (code c - 48))) s'
      else if Ascii.eqb c "_" then
        match acc, s' with Some _, d :: _ => if is_digit d then digits_of acc s' else None | _, _ => None end
      else None
  end.
Definition int_literal (s : text) : option Z :=
  match strip s with
  | c :: s' => if Ascii.eqb c "-" then Z.opp <$> digits_of None s'
               else if Ascii.eqb c "+" then digits_of None s' else digits_of None (c :: s')
  | [] => None
  end.
Definition py_int (v : Json) : option Z :=
  match v with JNum z => Some z | JBool b => Some (Z.b2z b) | JStr s => int_literal (chars s) | _ => None end.

(** A key of [dict(v)] as [str] writes it; [None] is a value that cannot be a key. *)
Definition key_str (v : Json) : option string :=
  match v with
  | JStr s => Some s
  | JNum z => Some (pretty z)
  | JBool b => Some (if b then "True" else "False")%string
  | JNull => Some "None"%string
  | _ => None
  end.
Definition py_pair (v : Json) : option (string * Json) :=
  l ← py_iter v; match l with [k; x] => k' ← key_str k; Some (k', x) | _ => None end.
(** [dict(v)]; [None] is a [TypeError] or a [ValueError]. *)
Definition py_dict (v : Json) : option (list (string * Json)) :=
  match v with
  | JObj o => Some o
  | _ => l ← py_iter v; fold_left (fun acc x => o ← acc; kv ← py_pair x; Some (dict_set kv.1 kv.2 o)) l (Some [])
  end.

(** ** The manifest

    [createdAt], [platformVersion] and [postgresVersion] are kept as the JSON values that [str] renders. *)
Record Manifest := mkManifest {
  mf_created_at : Json;
  mf_platform_version : Json;
  mf_migration_head : option Json;
  mf_postgres_version : Json;
  mf_parts : list (string * list (string * Json));
  mf_documents : list (string * Z);
  mf_includes_master_key : bool;
  mf_format_version : Z;
  mf_label : option Json;
  mf_extra : list (string * Json)
}.

Definition or_null (v : option Json) : Json := default JNull v.

Definition to_json (m : Manifest) : list (string * Json) :=
  foldl (fun o kv => dict_set kv.1 kv.2 o)
    [("formatVersion", JNum (mf_format_version m)); ("createdAt", mf_created_at m); ("platformVersion", mf_platform_version m);
     ("migrationHead", or_null (mf_migration_head m)); ("postgresVersion", mf_postgres_version m); ("label", or_null (mf_label m));
     ("includesMasterKey", JBool (mf_includes_master_key m));
     ("documents", JObj (map (fun kv => (kv.1, JNum kv.2)) (mf_documents m)));
     ("parts", JObj (map (fun kv => (kv.1, JObj kv.2)) (mf_parts m)))]%string
    (mf_extra m).

Definition known_fields : list string :=
  ["formatVersion"; "createdAt"; "platformVersion"; "migrationHead"; "postgresVersion"; "label"; "includesMasterKey"; "documents"; "parts"]%string.

(** A value that [dict.get] gives as [None]. *)
Definition non_null (v : option Json) : option Json := match v with Some JNull => None | _ => v end.

Definition from_json (data : Json) : BR Manifest :=
  let built : option Manifest :=
    match data with
    | JObj o =>
        format ← assoc "formatVersion"%string o ≫= py_int;
        created ← assoc "createdAt"%string o;
        platform ← assoc "platformVersion"%string o;
        key ← assoc "includesMasterKey"%string o;
        documents ← py_dict (match assoc "documents"%string o with Some d => if truthy d then d else JObj [] | None => JObj [] end);
        counts ← mapM (fun kv => n ← py_int kv.2; Some (kv.1, n)) documents;
        listed ← assoc "parts"%string o ≫= py_dict;
        parts ← mapM (fun kv => p ← py_dict kv.2; Some (kv.1, p)) listed;
        Some (mkManifest created platform (non_null (assoc "migrationHead"%string o)) (default (JStr "") (assoc "postgresVersion"%string o))
          parts counts (truthy key) format (non_null (assoc "label"%string o))
          (List.filter (fun kv => negb (bool_decide (kv.1 ∈ known_fields))) o))
    | _ => None
    end in
  match built with Some m => Ok m | None => Err (BackupError "INVALID_MANIFEST") end.

(** ** Paths and the document store

    Files of the document store by their path below [documents_dir]; it holds no symbolic links. *)
Definition components (path : string) : list string :=
  List.filter (fun c => negb (bool_decide (c = "" \/ c = "."))%string) (map unchars (split_at "/" (chars path))).
Definition normal_path (path : list string) : list string :=
  rev (fold_left (fun up c => if String.eqb c ".." then tl up else c :: up) path []).
Definition is_absolute (path : string) : bool := String.prefix "/" path.
(** [root / relative] resolved, as a path below [root]; [None] is outside. *)
Fixpoint below (root path : list string) : option (list string) :=
  match root, path with
  | [], _ => Some path
  | r :: root', p :: path' => if String.eqb r p then below root' path' else None
  | _, [] => None
  end.
Definition inside_root (root : list string) (relative : string) : option (list string) :=
  if is_absolute relative then None else below root (normal_path (root ++ components relative)).

Section backup.
Context {B R : Type} {C : Codecs B R} (documents_dir : list string).

Abbreviation Documents := (gmap (list string) B).

(** ** Creating *)

Definition path_le (a b : string) : Prop := String.leb a b = true.
#[export] Instance path_le_dec : RelDecision path_le.
Proof. intros a b. unfold path_le. apply _. Defined.

Definition snapshot_facts (d : Database R) : option string * list string :=
  (db_alembic d ≫= head, default [] (merge_sort path_le <$> db_documents d)).

Record DocStats := mkStats { dt_count : Z; dt_missing : Z; dt_bytes : Z }.

(** [found p] is the file that is at [p] when the loop comes to it. *)
Fixpoint tar_documents (found : list string -> option B) (paths : list string) : list (Member B) * DocStats :=
  match paths with
  | [] => ([], mkStats 0 0 0)
  | relative :: paths' =>
      let '(ms, st) := tar_documents found paths' in
      match inside_root documents_dir relative with
      | None => (ms, mkStats (dt_count st) (dt_missing st + 1) (dt_bytes st))
      | Some p =>
          match found p with
          | None => (ms, mkStats (dt_count st) (dt_missing st + 1) (dt_bytes st))
          | Some data => (mkMember relative Regular data :: ms, mkStats (dt_count st + 1) (dt_missing st) (dt_bytes st + size data))
          end
      end
  end.

(** What one run of [create_backup] saw: its arguments, the exported snapshot, the server, the
    documents and the master key it was told to include. *)
Record Taken := mkTaken {
  tk_name : string;
  tk_label : option string;
  tk_now : instant;
  tk_platform : string;
  tk_postgres : string;
  tk_database : Database R;
  tk_found : list string -> option B;
  tk_key : option B
}.

Definition part (data : B) : list (string * Json) := [("sha256", JStr (sha256 data)); ("bytes", JNum (size data))]%string.

(** [now.astimezone(UTC).isoformat().replace("+00:00", "Z")] *)
Definition created_at (now : instant) : string :=
  let s := chars (isoformat now) in unchars (take (length s - 6) s ++ chars "Z").

Definition taken_documents (t : Taken) : list (Member B) * DocStats :=
  tar_documents (tk_found t) (snapshot_facts (tk_database t)).2.

(** The files of the scratch directory that go into the archive, in their order. *)
Definition taken_parts (t : Taken) : list (string * B) :=
  [(PART_DATABASE, pg_dump (tk_database t)); (PART_DOCUMENTS, write_tar (taken_documents t).1)]
  ++ match tk_key t with Some k => [(PART_MASTER_KEY, k)] | None => [] end.

Definition taken_manifest (t : Taken) : Manifest :=
  let st := (taken_documents t).2 in
  mkManifest (JStr (created_at (tk_now t))) (JStr (tk_platform t)) (JStr <$> (snapshot_facts (tk_database t)).1) (JStr (tk_postgres t))
    (map (fun p => (p.1, part p.2)) (taken_parts t))
    [("count", dt_count st); ("missing", dt_missing st); ("bytes", dt_bytes st)]%string
    (bool_decide (is_Some (tk_key t))) FORMAT_VERSION (JStr <$> tk_label t) [].

Definition taken_members (t : Taken) : list (Member B) :=
  mkMember MANIFEST Regular (dumps (JObj (to_json (taken_manifest t))))
  :: map (fun p => mkMember p.1 Regular p.2) (taken_parts t).

Definition taken_archive (t : Taken) : B := write_tgz (taken_members t).

Definition taken_sidecar (t : Taken) : B :=
  dumps (JObj (dict_set "archive"%string
    (JObj [("sha256", JStr (sha256 (taken_archive t))); ("bytes", JNum (size (taken_archive t)))]%string) (to_json (taken_manifest t)))).

(** *** The backup directory *)

Inductive DirEntry := File (data : B) (mtime : instant) | Folder (mtime : instant).
Abbreviation Dir := (gmap string DirEntry).

(** The name and the checks before any work is done. *)
Definition begin_backup (now : instant) (label name : option string) (d : Dir) : BR string :=
  name ← match name with
         | Some n => if String.eqb n "" then backup_name now label else Ok n
         | None => backup_name now label
         end;
  final ← archive_path name;
  if bool_decide (is_Some (d !! final)) then Err (BackupError "BACKUP_EXISTS") else Ok name.

(** [_write_private_json] in its two steps ([None]: the temporary file is gone), and the rename of the archive. *)
Definition sidecar_tmp (name : string) : string := (sidecar_path name +:+ ".tmp")%string.
Definition write_sidecar_tmp (t : Taken) (now : instant) (d : Dir) : Dir := <[sidecar_tmp (tk_name t) := File (taken_sidecar t) now]> d.
Definition replace_sidecar (t : Taken) (d : Dir) : option Dir :=
  e ← d !! sidecar_tmp (tk_name t); Some (<[sidecar_path (tk_name t) := e]> (delete (sidecar_tmp (tk_name t)) d)).
Definition replace_archive (t : Taken) (now : instant) (d : Dir) : Dir := <[archive_file (tk_name t) := File (taken_archive t) now]> d.

(** ** Listing and retention *)

Record BackupFile := mkFile { bf_name : string; bf_size : Z; bf_modified : instant; bf_manifest : option Json }.

Definition read_sidecar (d : Dir) (name : string) : option Json :=
  match d !! sidecar_path name with Some (File data _) => loads data | _ => None end.

Definition backup_of (d : Dir) (entry : string * DirEntry) : option BackupFile :=
  name ← without_suffix SUFFIX entry.1;
  if negb (is_name name) then None
  else match entry.2 with
       | Folder _ => None
       | File data mtime => Some (mkFile name (size data) mtime (read_sidecar d name))
       end.

Definition newer (a b : BackupFile) : Prop := key_le (fun f => chars (bf_name f)) b a.
#[export] Instance newer_dec : RelDecision newer.
Proof. intros a b. unfold newer. apply _. Defined.

Definition list_backups (d : Dir) : list BackupFile := merge_sort newer (omap (backup_of d) (map_to_list d)).

Fixpoint unlink_all (old : list BackupFile) (d : Dir) : Dir * BR (list string) :=
  match old with
  | [] => (d, Ok [])
  | b :: old' =>
      let d1 := delete (archive_file (bf_name b)) d in
      match d1 !! sidecar_path (bf_name b) with
      | Some (Folder _) => (d1, Err (Raised "IsADirectoryError"))
      | _ =>
          let '(d2, r) := unlink_all old' (delete (sidecar_path (bf_name b)) d1) in
          (d2, names ← r; Ok (bf_name b :: names))
      end
  end.
Definition prune (keep : Z) (d : Dir) : Dir * BR (list string) :=
  unlink_all (drop (Z.to_nat (Z.max keep 1)) (list_backups d)) d.

Definition clean_stale_work (now : instant) (older_than_seconds : Z) (d : Dir) : Dir :=
  let cutoff := now - seconds older_than_seconds in
  filter (fun kv => negb (String.prefix ".tmp-" kv.1 && match kv.2 with Folder mtime => mtime <? cutoff | File _ _ => false end) = true) d.

(** [tar.getmember(name)]: the last member of that name, after all were read. *)
Definition getmember (name : string) (ms : list (Member B)) : option (Member B) :=
  List.find (fun m => String.eqb (mb_name m) name) (rev ms).

Definition MANIFEST_LIMIT : Z := 1024 * 1024.

Definition read_manifest (d : Dir) (name : string) : BR Json :=
  match read_sidecar d name with
  | Some data => Ok data
  | None =>
      let unreadable := Err (BackupError "INVALID_ARCHIVE") in
      path ← archive_path name;
      match d !! path with
      | Some (File data _) =>
          match read_tgz data with
          | NotTar | Members _ TarError => unreadable
          | Members _ EOFError => Err (Raised "EOFError")
          | Members ms Complete =>
              match getmember MANIFEST ms with
              | Some m =>
                  if bool_decide (mb_kind m = Special) || (MANIFEST_LIMIT <? size (mb_data m)) then unreadable
                  else match loads (mb_data m) with Some j => Ok j | None => unreadable end
              | None => unreadable
              end
          end
      | _ => unreadable
      end
  end.

(** The owner's download ([routers/system.py]); errors by their code. *)
Definition download_backup (d : Dir) (backup_id : string) : Result string B :=
  if negb (is_name backup_id) then Err "NOT_FOUND"%string
  else match d !! archive_file backup_id with
       | Some (File data _) =>
           match read_manifest d backup_id with
           | Err (BackupError _) => Err "BACKUP_UNREADABLE"%string
           | Err (Raised _) => Err "INTERNAL"%string
           | Ok (JObj o) => if otruthy (assoc "includesMasterKey"%string o) then Err "BACKUP_CONTAINS_MASTER_KEY"%string else Ok data
           | Ok _ => Err "INTERNAL"%string
           end
       | _ => Err "NOT_FOUND"%string
       end.

(** The outcome of the audit row [system.backup_downloaded] that the request leaves. *)
Definition download_audit (d : Dir) (backup_id : string) : option string :=
  match download_backup d backup_id with
  | Ok _ => Some "success"%string
  | Err code => if String.eqb code "BACKUP_CONTAINS_MASTER_KEY" then Some "denied"%string else None
  end.

(** ** Verification *)

Record VerifiedBackup := mkVerified { vb_manifest : Manifest; vb_files : gmap string B }.
Definition vb_database (v : VerifiedBackup) : option B := vb_files v !! PART_DATABASE.
Definition vb_documents (v : VerifiedBackup) : option B := vb_files v !! PART_DOCUMENTS.
Definition vb_master_key (v : VerifiedBackup) : option B :=
  if mf_includes_master_key (vb_manifest v) then vb_files v !! PART_MASTER_KEY else None.

(** The loop over the members: the manifest, and the parts written to the working directory. *)
Fixpoint extract (ms : list (Member B)) (stop : TarEnd) (seen : list string) (manifest : option Manifest) (work : gmap string B)
    : BR (option Manifest * gmap string B) :=
  match ms with
  | [] => match stop with
          | Complete => Ok (manifest, work)
          | TarError => Err (Raised "ReadError")
          | EOFError => Err (Raised "EOFError")
          end
  | m :: ms' =>
      if bool_decide (mb_name m ∈ seen) || negb (bool_decide (mb_name m ∈ MANIFEST :: PARTS)) then Err (BackupError "INVALID_ARCHIVE")
      else if negb (bool_decide (mb_kind m = Regular)) then Err (BackupError "INVALID_ARCHIVE")
      else if String.eqb (mb_name m) MANIFEST then
        if MANIFEST_LIMIT <? size (mb_data m) then Err (BackupError "INVALID_MANIFEST")
        else match loads (mb_data m) with
             | None => Err (Raised "JSONDecodeError")
             | Some j => man ← from_json j; extract ms' stop (mb_name m :: seen) (Some man) work
             end
      else extract ms' stop (mb_name m :: seen) manifest (<[mb_name m := mb_data m]> work)
  end.

Fixpoint check_parts (parts : list (string * list (string * Json))) (work : gmap string B) : BR unit :=
  match parts with
  | [] => Ok tt
  | (name, expected) :: parts' =>
      match work !! name with
      | None => Err (BackupError "CHECKSUM_MISMATCH")
      | Some data =>
          match assoc "bytes"%string expected with
          | None => Err (Raised "KeyError")
          | Some v =>
              match py_int v with
              | None => Err (Raised "ValueError")
              | Some n =>
                  if negb (size data =? n) then Err (BackupError "CHECKSUM_MISMATCH")
                  else match assoc "sha256"%string expected with
                       | None => Err (Raised "KeyError")
                       | Some h => if py_eq (JStr (sha256 data)) h then check_parts parts' work else Err (BackupError "CHECKSUM_MISMATCH")
                       end
              end
          end
      end
  end.

Definition verify_archive (archive : B) : BR VerifiedBackup :=
  match read_tgz archive with
  | NotTar => Err (BackupError "INVALID_ARCHIVE")
  | Members ms stop =>
      found ← extract ms stop [] None ∅;
      match found.1 with
      | None => Err (BackupError "INVALID_ARCHIVE")
      | Some manifest =>
          let names := map fst (mf_parts manifest) in
          let required := [PART_DATABASE; PART_DOCUMENTS] ++ if mf_includes_master_key manifest then [PART_MASTER_KEY] else [] in
          if negb (mf_format_version manifest =? FORMAT_VERSION) then Err (BackupError "UNSUPPORTED_FORMAT")
          else if negb (forallb (fun p => bool_decide (p ∈ names)) required && forallb (fun p => bool_decide (p ∈ PARTS)) names)
          then Err (BackupError "INVALID_MANIFEST")
          else _ ← check_parts (mf_parts manifest) found.2; Ok (mkVerified manifest found.2)
      end
  end.

(** ** Restoring documents *)

Definition top (p : list string) : string := default ""%string (head p).
Definition under (names : list string) (store : Documents) : Documents := filter (fun kv => top kv.1 ∈ names) store.
Definition outside_of (names : list string) (store : Documents) : Documents := filter (fun kv => top kv.1 ∉ names) store.

(** One member extracted with the filter [data]: leading slashes are dropped, a path that leaves the
    destination is refused, and a file cannot be where a directory is. *)
Definition extract_member (m : Member B) (new : Documents) : BR Documents :=
  let destination := documents_dir ++ [".restore-new"%string] in
  match below destination (normal_path (destination ++ components (mb_name m))) with
  | None => Err (Raised "OutsideDestinationError")
  | Some [] => Err (Raised "IsADirectoryError")
  | Some p =>
      if existsb (fun q => negb (bool_decide (q = p)) && (bool_decide (is_Some (below q p)) || bool_decide (is_Some (below p q))))
           (map fst (map_to_list new))
      then Err (Raised "NotADirectoryError") else Ok (<[p := mb_data m]> new)
  end.

Fixpoint extractall (ms : list (Member B)) (new : Documents) : Documents * BR unit :=
  match ms with
  | [] => (new, Ok tt)
  | m :: ms' => match extract_member m new with Ok new' => extractall ms' new' | Err e => (new, Err e) end
  end.

Definition scratch (name : string) (s : Documents) : Documents := kmap (cons name) s.

(** The document store afterwards and the number of files, or the exception.  An archive with an entry
    named like the scratch directories, or with [.staging] while uploads are in flight, cannot be moved
    in; the store is then given as it is before the first entry is. *)
Definition restore_documents (documents : B) (store : Documents) : Documents * BR Z :=
  let kept := outside_of [".restore-new"; ".restore-old"]%string store in
  match read_tar documents with
  | NotTar | Members _ TarError | Members _ EOFError => (kept, Err (Raised "ReadError"))
  | Members ms Complete =>
      let ms := List.filter (fun m => bool_decide (mb_kind m = Regular)) ms in
      match extractall ms ∅ with
      | (new, Err e) => (kept ∪ scratch ".restore-new" new, Err e)
      | (new, Ok _) =>
          let staging := under [".staging"%string] kept in
          let blocked := [".restore-new"; ".restore-old"]%string ++ if bool_decide (staging = ∅) then [] else [".staging"%string] in
          if bool_decide (under blocked new = ∅) then (staging ∪ new, Ok (Z.of_nat (length ms)))
          else (staging ∪ scratch ".restore-new" new ∪ scratch ".restore-old" (outside_of [".staging"%string] kept), Err (Raised "OSError"))
      end
  end.

(** ** The device master key *)

(** [str.splitlines] on 7-bit text. *)
Fixpoint text_lines (line : text) (s : text) : list text :=
  match s with
  | [] => match line with [] => [] | _ => [rev line] end
  | c :: s' =>
      if Ascii.eqb c "013" then
        rev line :: match s' with
                    | d :: s'' => if Ascii.eqb d "010" then text_lines [] s'' else text_lines [] s'
                    | [] => []
                    end
      else if between 10 12 c || between 28 30 c then rev line :: text_lines [] s'
      else text_lines (c :: line) s'
  end.

(** [bytes.fromhex]: pairs of digits, blanks between pairs. *)
Definition hex_nibble (c : ascii) : option Z :=
  if is_digit c then Some (code c - 48) else if between 97 102 (lower c) then Some (code (lower c) - 87) else None.
Fixpoint fromhex (s : text) : option (list ascii) :=
  match s with
  | [] => Some []
  | c :: s' =>
      if between 9 13 c || Ascii.eqb c " " then fromhex s'
      else match s' with
           | d :: s'' => hi ← hex_nibble c; lo ← hex_nibble d; cons (byte (16 * hi + lo)) <$> fromhex s''
           | [] => None
           end
  end.

(** [line.split(":", 1)] where there is a colon. *)
Fixpoint cut_colon (s : text) : option (text * text) :=
  match s with
  | [] => None
  | c :: s' => if Ascii.eqb c ":" then Some ([], s') else '(a, b) ← cut_colon s'; Some (c :: a, b)
  end.

Fixpoint read_keys (lines : list text) (keys : gmap Z (list ascii)) : SR (gmap Z (list ascii)) :=
  match lines with
  | [] => Ok keys
  | raw :: lines' =>
      let line := strip raw in
      if bool_decide (line = []) || bool_decide (head line = Some "#"%char) then read_keys lines' keys
      else match ('(v, k) ← cut_colon line; version ← int_literal v; key ← fromhex (strip k); Some (version, key)) with
           | None => Err BadKey
           | Some (version, key) =>
               if bool_decide (is_Some (keys !! version)) then Err BadVersion else read_keys lines' (<[version := key]> keys)
           end
  end.

(** The key file: its text, and whether other users may read or write it. *)
Record KeyFile := mkKeyFile { kf_data : B; kf_others : bool }.

(** [Keyring.from_file]; text that cannot be decoded is no [SecretStoreError]. *)
Definition from_file (f : KeyFile) : Result Failure (SR Keyring) :=
  if kf_others f then Ok (Err BadKey)
  else match read_text (kf_data f) with
       | None => Err (Raised "UnicodeDecodeError")
       | Some s => Ok (keys ← read_keys (text_lines [] (chars s)) ∅; make_keyring keys)
       end.

Definition load_keyring (path : option KeyFile) : BR (option Keyring) :=
  match path with
  | None => Ok None
  | Some f => r ← from_file f; Ok (match r with Ok k => Some k | Err _ => None end)
  end.

(** ** Checking stored secrets *)

Context {A : Aead}.

Definition RECONNECT_DETAIL : string :=
  "Restored from a backup that was encrypted with a different device master key. Reconnect this account in Connections.".

Definition secret_context (row : EncryptedSecret) : Context_ :=
  [("id", uuid_str (es_id row)); ("provider", es_provider row); ("owner", es_owner_type row +:+ ":" +:+ uuid_str (es_owner_id row))]%string.

Record SecretCheck := mkCheck { sk_checked : Z; sk_unreadable : Z; sk_key_available : bool; sk_needs_attention : list string }.

(** The ids of the secrets that the keyring does not open. *)
Fixpoint unreadable (keyring : option Keyring) (rows : list EncryptedSecret) : BR (list uuid) :=
  match rows with
  | [] => Ok []
  | row :: rows' =>
      let bad : BR bool :=
        match keyring with
        | None => Ok true
        | Some k => match decrypt k (es_ciphertext row) (secret_context row) with
                    | Ok _ => Ok false
                    | Err OtherError => Err (Raised "ValueError")
                    | Err _ => Ok true
                    end
        end in
      b ← bad; ids ← unreadable keyring rows'; Ok (if (b : bool) then es_id row :: ids else ids)
  end.

Definition names_one (bad : list uuid) (secret : option uuid) : bool :=
  match secret with Some id => bool_decide (id ∈ bad) | None => false end.
Definition mark_connection (bad : list uuid) (c : ConnectionRow) : ConnectionRow :=
  if names_one bad (cn_secret c) then mkConn (cn_provider c) (cn_secret c) "NEEDS_ATTENTION" (Some RECONNECT_DETAIL) else c.
Definition mark_profile (bad : list uuid) (p : ProviderRow) : ProviderRow :=
  if names_one bad (pf_secret p) then mkProf (pf_provider p) (pf_secret p) "ERROR" else p.

(** [sorted] of a set of names. *)
Definition sorted_names (l : list string) : list string := merge_sort path_le (remove_dups l).

Definition check_secrets (keyring : option Keyring) (d : Database R) : BR (SecretCheck * Database R) :=
  bad ← unreadable keyring (db_secrets d);
  let check := mkCheck (Z.of_nat (length (db_secrets d))) (Z.of_nat (length bad)) (bool_decide (is_Some keyring)) in
  match bad with
  | [] => Ok (check [], d)
  | _ =>
      let google := List.filter (fun c => names_one bad (cn_secret c)) (db_connections d) in
      let profiles := List.filter (fun p => names_one bad (pf_secret p)) (db_profiles d) in
      Ok (check (sorted_names (map cn_provider google ++ map pf_provider profiles)),
          d <| db_connections ::= map (mark_connection bad) |> <| db_profiles ::= map (mark_profile bad) |>)
  end.

(** ** Restoring *)

(** The installed version: its migrations, the newest one, and [alembic upgrade head] ([None]: it fails). *)
Record Release := mkRelease { rl_known : list string; rl_head : string; rl_upgrade : Database R -> option (Database R) }.

Definition check_compatible (manifest : Manifest) (release : Release) : BR string :=
  match mf_migration_head manifest with
  | None => Ok (rl_head release)
  | Some (JStr h) => if bool_decide (h ∈ rl_known release) then Ok (rl_head release) else Err (BackupError "BACKUP_TOO_NEW")
  | Some (JList _) | Some (JObj _) => Err (Raised "TypeError")
  | Some _ => Err (BackupError "BACKUP_TOO_NEW")
  end.

(** [--master-key-file], [--restore-master-key] and [--force]; a new file is readable by others unless
    the umask says otherwise. *)
Record RestoreArgs := mkArgs { ra_key_file : bool; ra_restore_key : bool; ra_force : bool; ra_umask_private : bool }.

Record Device := mkDevice { dv_database : Database R; dv_documents : Documents; dv_key : option KeyFile; dv_sessions : Z }.
#[export] Instance eta_Device : Eta Device := fun d => mkDevice (dv_database d) (dv_documents d) (dv_key d) (dv_sessions d).

Record RestoreReport := mkReport {
  rr_manifest : Manifest; rr_head : string; rr_documents : Z; rr_key_restored : bool; rr_secrets : SecretCheck; rr_models : list string
}.

(** The part before anything is changed. *)
Definition admission (args : RestoreArgs) (release : Release) (archive : B) (dev : Device) : BR (VerifiedBackup * string) :=
  if negb (ra_force args) && (0 <? dv_sessions dev) then Err (BackupError "STACK_RUNNING")
  else
    verified ← verify_archive archive;
    newest ← check_compatible (vb_manifest verified) release;
    if ra_restore_key args then
      match vb_master_key verified with
      | None => Err (BackupError "BACKUP_HAS_NO_MASTER_KEY")
      | Some _ => if ra_key_file args then Ok (verified, newest) else Err (BackupError "MASTER_KEY_PATH_REQUIRED")
      end
    else Ok (verified, newest).

Definition installed_models (d : Database R) : list string :=
  merge_sort path_le (map fst (List.filter (fun m => String.eqb m.2 "INSTALLED") (db_models d))).

(** The key file rewritten in place: an existing file keeps its mode. *)
Definition write_key (args : RestoreArgs) (key : B) (old : option KeyFile) : KeyFile :=
  mkKeyFile key (match old with Some f => kf_others f | None => negb (ra_umask_private args) end).

Definition restore (args : RestoreArgs) (release : Release) (archive : B) (dev : Device) : Device * BR RestoreReport :=
  match admission args release archive dev with
  | Err e => (dev, Err e)
  | Ok (verified, newest) =>
      match vb_database verified ≫= pg_restore with
      | None => (dev <| dv_database := empty_database |>, Err (BackupError "PG_RESTORE_FAILED"))
      | Some database =>
          let dev := dev <| dv_database := database |> in
          match vb_documents verified with
          | None => (dev, Err (Raised "FileNotFoundError"))
          | Some documents =>
              let '(store, count) := restore_documents documents (dv_documents dev) in
              let dev := dev <| dv_documents := store |> in
              match count with
              | Err e => (dev, Err e)
              | Ok restored =>
                  match rl_upgrade release database with
                  | None => (dev, Err (Raised "CommandError"))
                  | Some database =>
                      let dev := dev <| dv_database := database |> in
                      let key := if ra_restore_key args then vb_master_key verified else None in
                      let dev := match key with Some k => dev <| dv_key ::= fun old => Some (write_key args k old) |> | None => dev end in
                      match (keyring ← load_keyring (if ra_key_file args then dv_key dev else None); check_secrets keyring database) with
                      | Err e => (dev, Err e)
                      | Ok (secrets, database) =>
                          let m := vb_manifest verified in
                          let row := mkRestored (mf_created_at m) (mf_platform_version m) (mf_migration_head m) newest restored
                                       (bool_decide (is_Some key)) (sk_unreadable secrets) in
                          (dev <| dv_database := database <| db_restores ::= fun l => l ++ [row] |> |>,
                           Ok (mkReport m newest restored (bool_decide (is_Some key)) secrets (installed_models database)))
                      end
                  end
              end
          end
      end
  end.

(** ** One creation from start to end, and the job of the owner API

    [work] is the name that [mkdtemp] gives. *)
Definition named (n : string) (t : Taken) : Taken :=
  mkTaken n (tk_label t) (tk_now t) (tk_platform t) (tk_postgres t) (tk_database t) (tk_found t) (tk_key t).

Definition create_backup (name : option string) (t : Taken) (work : string) (at_ : instant) (d : Dir) : BR (Taken * Dir) :=
  n ← begin_backup (tk_now t) (tk_label t) name d;
  let t := named n t in
  match replace_sidecar t (write_sidecar_tmp t at_ (<[work := Folder at_]> d)) with
  | None => Err (Raised "FileNotFoundError")
  | Some d => Ok (t, delete work (replace_archive t at_ d))
  end.

(** [new_backup_name]: a label of six hexadecimal digits, [secrets.token_hex(3)]. *)
Definition new_backup_name (now : instant) (token : string) : BR string := backup_name now (Some token).

(** [BackupWorker._execute]: the directory ([None] without [CQ_BACKUP_DIR]), and the job completed with the
    names that were pruned or failed with an error code.  It passes no label and no key. *)
Definition keyless (t : Taken) : Taken := mkTaken (tk_name t) None (tk_now t) (tk_platform t) (tk_postgres t) (tk_database t) (tk_found t) None.
Definition failure_code (e : Failure) : string := match e with BackupError code => code | Raised _ => "BACKUP_FAILED" end.
Definition job_name (payload_name : option string) (now : instant) (token : string) : BR string :=
  match payload_name with
  | Some n => if String.eqb n "" then new_backup_name now token else Ok n
  | None => new_backup_name now token
  end.
Definition execute_job (payload_name : option string) (token : string) (retention : Z) (t : Taken) (work : string) (at_ : instant) (dir : option Dir)
    : option Dir * Result string (list string) :=
  match dir with
  | None => (None, Err "BACKUPS_NOT_CONFIGURED"%string)
  | Some d =>
      match (name ← job_name payload_name (tk_now t) token; create_backup (Some name) (keyless t) work at_ d) with
      | Err e => (Some d, Err (failure_code e))
      | Ok (_, d) => match prune retention d with (d, Ok removed) => (Some d, Ok removed) | (d, Err e) => (Some d, Err (failure_code e)) end
      end
  end.

(** ** Creations in flight

    The backup directory with the runs of [create_backup] that are under way, of any process, and the
    archives that were completed, newest first. *)
Inductive CreationPhase := Working | Packed (t : Taken) | SidecarWritten (t : Taken) | SidecarInPlace (t : Taken).
Record BackupRun := mkRun { cr_name : string; cr_work : string; cr_phase : CreationPhase }.
Record World := mkWorld { wd_dir : Dir; wd_creations : gmap N BackupRun; wd_made : list Taken }.
#[export] Instance eta_World : Eta World := fun w => mkWorld (wd_dir w) (wd_creations w) (wd_made w).

Definition in_phase (c : BackupRun) (p : CreationPhase) : BackupRun := mkRun (cr_name c) (cr_work c) p.
Definition is_work (name : string) : bool := String.prefix ".tmp-" name.

(** [exclusive]: no two creations of the same name are in flight. *)
Inductive step (exclusive : bool) : World -> World -> Prop :=
| st_begin w i now label name n work at_ :
    wd_creations w !! i = None -> begin_backup now label name (wd_dir w) = Ok n ->
    is_work work = true -> wd_dir w !! work = None ->
    (exclusive = true -> map_Forall (fun _ c => cr_name c <> n) (wd_creations w)) ->
    step exclusive w (w <| wd_dir ::= <[work := Folder at_]> |> <| wd_creations ::= <[i := mkRun n work Working]> |>)
| st_pack w i c t :
    wd_creations w !! i = Some c -> cr_phase c = Working -> tk_name t = cr_name c ->
    step exclusive w (w <| wd_creations ::= <[i := in_phase c (Packed t)]> |>)
| st_sidecar w i c t now :
    wd_creations w !! i = Some c -> cr_phase c = Packed t ->
    step exclusive w (w <| wd_dir ::= write_sidecar_tmp t now |> <| wd_creations ::= <[i := in_phase c (SidecarWritten t)]> |>)
| st_replace w i c t d :
    wd_creations w !! i = Some c -> cr_phase c = SidecarWritten t -> replace_sidecar t (wd_dir w) = Some d ->
    step exclusive w (w <| wd_dir := d |> <| wd_creations ::= <[i := in_phase c (SidecarInPlace t)]> |>)
| st_finish w i c t now :
    wd_creations w !! i = Some c -> cr_phase c = SidecarInPlace t ->
    step exclusive w (w <| wd_dir ::= fun d => delete (cr_work c) (replace_archive t now d) |>
                        <| wd_creations ::= delete i |> <| wd_made ::= cons t |>)
| st_fails w i c :
    wd_creations w !! i = Some c ->
    step exclusive w (w <| wd_dir ::= delete (cr_work c) |> <| wd_creations ::= delete i |>)
| st_dies w i c :
    wd_creations w !! i = Some c -> step exclusive w (w <| wd_creations ::= delete i |>)
| st_prune w name : is_name name = true -> step exclusive w (w <| wd_dir ::= delete (archive_file name) |>)
| st_prune_sidecar w name : is_name name = true -> step exclusive w (w <| wd_dir ::= delete (sidecar_path name) |>)
| st_clean w now age : step exclusive w (w <| wd_dir ::= clean_stale_work now age |>).

End backup.
