(* ===== verification/BackupProps.v ===== *)
(** * Backups: what every archive of the directory restores to, and who may read it *)

From stdpp Require Import sorting.
From S2P Require Import Prelude TimeUtil Json Redaction PyValue JsonText SecretStore A1 Pagination Regex Backup.
From Stdlib Require Import Ascii.
#[local] Open Scope Z_scope.

(** ** File names *)

Lemma append_inj_l a b s : (a +:+ s = b +:+ s)%string -> a = b.
Proof. intros H. apply (f_equal chars) in H. rewrite !chars_app in H. apply chars_inj. by eapply app_inv_tail. Qed.

Lemma without_suffix_iff suffix f name : without_suffix suffix f = Some name <-> f = (name +:+ suffix)%string.
Proof.
  unfold without_suffix. set (k := (length (chars f) - length (chars suffix))%nat). case_bool_decide as E.
  - split.
    + intros [= <-]. apply chars_inj. rewrite chars_app, chars_unchars, <- E. symmetry. apply take_drop.
    + intros ->. f_equal. apply chars_inj. rewrite chars_unchars.
      assert (k = length (chars name)) as -> by (subst k; rewrite chars_app, length_app; lia).
      by rewrite chars_app, take_app_length.
  - split; [done|]. intros ->. destruct E.
    assert (k = length (chars name)) as -> by (subst k; rewrite chars_app, length_app; lia). by rewrite chars_app, drop_app_length.
Qed.

(** The three files of a backup differ, also from those of other backups. *)
Lemma endings_differ a b x y :
  last (chars x) <> last (chars y) -> chars x <> [] -> chars y <> [] -> (a +:+ x <> b +:+ y)%string.
Proof.
  intros Hl Hx Hy E. apply (f_equal chars) in E. rewrite !chars_app in E. apply (f_equal last) in E.
  rewrite !last_app in E. destruct (last (chars x)) eqn:E1; [|by apply last_None in E1].
  destruct (last (chars y)) eqn:E2; [|by apply last_None in E2]. congruence.
Qed.
Lemma archive_not_sidecar a b : archive_file a <> sidecar_path b.
Proof. by apply endings_differ. Qed.
Lemma archive_not_tmp a b : archive_file a <> sidecar_tmp b.
Proof. by apply endings_differ. Qed.
Lemma sidecar_not_tmp a b : sidecar_path a <> sidecar_tmp b.
Proof. by apply endings_differ. Qed.

Lemma name_starts n : is_name n = true -> exists s, n = String "c" s.
Proof.
  assert (Hm : forall s, matches NAME_RE s = true -> exists s', s = "c"%char :: s').
  { intros [|c s]; [done|]. intros H. exists s. f_equal. destruct (Ascii.eqb_spec "c" c) as [->|Hne]; [done|]. exfalso.
    assert (Hd : deriv c NAME_RE = Nothing).
    { unfold NAME_RE, PREFIX. cbn [chars String.list_ascii_of_string word deriv nullable].
      destruct (Ascii.eqb_spec "c" c); [congruence|]. reflexivity. }
    cbn [matches] in H. rewrite Hd in H. clear -H. induction s; [done|]. by apply IHs. }
  unfold is_name, anchored. intros [H|[_ H]%andb_true_iff]%orb_true_iff; apply Hm in H as [s' E].
  - exists (unchars s'). apply chars_inj. by rewrite E; cbn; rewrite chars_unchars.
  - destruct n as [|c n]; [done|]. exists n. destruct (chars n) as [|x l] eqn:En; cbn [chars String.list_ascii_of_string] in E;
      change (String.list_ascii_of_string n) with (chars n) in E; rewrite En in E; simpl in E; congruence.
Qed.

Lemma sidecar_tmp_app n : sidecar_tmp n = (n +:+ (SIDECAR +:+ ".tmp"))%string.
Proof. apply chars_inj. unfold sidecar_tmp, sidecar_path. by rewrite !chars_app, <- app_assoc. Qed.

Lemma work_differs w n x : is_work w = true -> is_name n = true -> w <> (n +:+ x)%string.
Proof. intros Hw [s ->]%name_starts ->. done. Qed.

Section listing.
Context {B R : Type} {C : Codecs B R}.
Abbreviation Dir := (gmap string (DirEntry (B := B))).

(** ** The listing *)

Lemma backup_of_Some (d : Dir) f e b :
  backup_of d (f, e) = Some b <->
  exists data mtime, f = archive_file (bf_name b) /\ is_name (bf_name b) = true /\ e = File data mtime /\
    b = mkFile (bf_name b) (size data) mtime (read_sidecar d (bf_name b)).
Proof.
  unfold backup_of. cbn [fst snd]. split.
  - destruct (without_suffix SUFFIX f) as [name|] eqn:E; [|done]. apply without_suffix_iff in E as ->. cbn [mbind option_bind].
    destruct (is_name name) eqn:Hn; [|done]. destruct e as [data mtime|]; [|done]. intros [= <-]. by exists data, mtime.
  - intros (data & mtime & -> & Hn & -> & E). rewrite (proj2 (without_suffix_iff SUFFIX (archive_file (bf_name b)) (bf_name b)) eq_refl).
    cbn [mbind option_bind]. rewrite Hn. simpl. by rewrite <- E.
Qed.

Lemma listed_iff (d : Dir) b :
  b ∈ list_backups d <->
  exists data mtime, is_name (bf_name b) = true /\ d !! archive_file (bf_name b) = Some (File data mtime) /\
    b = mkFile (bf_name b) (size data) mtime (read_sidecar d (bf_name b)).
Proof.
  unfold list_backups. rewrite (merge_sort_Permutation newer), list_elem_of_omap. split.
  - intros ([f e] & Hin & Hb). apply elem_of_map_to_list in Hin. apply backup_of_Some in Hb as (data & mtime & -> & Hn & -> & E). by exists data, mtime.
  - intros (data & mtime & Hn & Hd & E). exists (archive_file (bf_name b), File data mtime).
    split; [by apply elem_of_map_to_list|]. apply backup_of_Some. by exists data, mtime.
Qed.

Lemma listed_name_inj (d : Dir) b b' : b ∈ list_backups d -> b' ∈ list_backups d -> bf_name b = bf_name b' -> b = b'.
Proof.
  intros (x & m & _ & Hd & E)%listed_iff (x' & m' & _ & Hd' & E')%listed_iff Hn. rewrite Hn in Hd, E.
  rewrite Hd in Hd'. injection Hd' as <- <-. congruence.
Qed.

Lemma listed_nodup (d : Dir) : NoDup (list_backups d).
Proof.
  unfold list_backups. rewrite (merge_sort_Permutation newer).
  pose proof (NoDup_fst_map_to_list d) as Hnd. revert Hnd. induction (map_to_list d) as [|[f e] l IH]; simpl; [intros; constructor|].
  intros [Hf Hnd]%NoDup_cons. specialize (IH Hnd). destruct (backup_of d (f, e)) as [b|] eqn:Eb; [|done]. apply NoDup_cons. split; [|done].
  intros ([f' e'] & Hin & Hb)%list_elem_of_omap. apply backup_of_Some in Eb as (? & ? & -> & _). apply backup_of_Some in Hb as (? & ? & -> & _).
  apply Hf. apply list_elem_of_fmap. by exists (archive_file (bf_name b), e').
Qed.

#[local] Instance newer_total : Total (newer).
Proof. intros a b. unfold newer. destruct (total (key_le (fun f => chars (bf_name f))) a b); auto. Qed.
#[local] Instance newer_trans : Transitive (newer).
Proof. intros a b c. unfold newer. intros H1 H2. by etrans. Qed.

Lemma listed_sorted (d : Dir) : StronglySorted newer (list_backups d).
Proof. apply (StronglySorted_merge_sort newer). Qed.

Lemma newer_both (a b : BackupFile) : newer a b -> newer b a -> bf_name a = bf_name b.
Proof. unfold newer, key_le. intros H1 H2. apply chars_inj. by apply text_ltb_total. Qed.

(** ** Retention *)

Lemma unlink_all_ok (old : list BackupFile) (d : Dir) :
  (forall b m, b ∈ old -> d !! sidecar_path (bf_name b) <> Some (Folder m)) ->
  exists d', unlink_all old d = (d', Ok (map bf_name old)) /\
    forall f, d' !! f = if bool_decide (Exists (fun b => f = archive_file (bf_name b) \/ f = sidecar_path (bf_name b)) old) then None else d !! f.
Proof.
  revert d. induction old as [|b old IH]; intros d Hf; [by exists d|].
  set (d1 := delete (sidecar_path (bf_name b)) (delete (archive_file (bf_name b)) d)).
  destruct (IH d1) as (d' & E & Hd').
  { intros b' m Hb' H. apply lookup_delete_Some in H as [_ [_ H]%lookup_delete_Some]. by apply (Hf b' m); [right|]. }
  exists d'. split.
  - cbn [unlink_all]. fold d1. rewrite E. cbn [fst snd].
    destruct (delete (archive_file (bf_name b)) d !! sidecar_path (bf_name b)) as [[]|] eqn:Es; [done| |done].
    apply lookup_delete_Some in Es as [_ Es]. exfalso. eapply Hf; [by left|done].
  - intros f. rewrite Hd'. destruct (decide (f = archive_file (bf_name b) \/ f = sidecar_path (bf_name b))) as [Hb|Hb].
    + rewrite (bool_decide_true (Exists _ (b :: old))) by by left. case_bool_decide; [done|]. subst d1. destruct Hb as [-> | ->]; simplify_map_eq; [|done].
      rewrite lookup_delete_ne by apply not_eq_sym, archive_not_sidecar. by simplify_map_eq.
    + subst d1. rewrite !lookup_delete_ne by naive_solver. erewrite bool_decide_ext; [done|]. rewrite Exists_cons. naive_solver.
Qed.

(** C27: [prune] deletes the archives that are not among the newest [max(keep, 1)] with their sidecars
    and nothing else: what it leaves is listed exactly as before, and it reports what it removed. *)
Theorem prune_keeps_newest keep (d : Dir) :
  (forall b m, b ∈ list_backups d -> d !! sidecar_path (bf_name b) <> Some (Folder m)) ->
  let kept := take (Z.to_nat (Z.max keep 1)) (list_backups d) in
  let gone := drop (Z.to_nat (Z.max keep 1)) (list_backups d) in
  exists d', prune keep d = (d', Ok (map bf_name gone)) /\ list_backups d' = kept /\
    (forall b b', b ∈ kept -> b' ∈ gone -> text_ltb (chars (bf_name b')) (chars (bf_name b)) = true) /\
    forall f, d' !! f = d !! f \/ d' !! f = None /\ exists b, b ∈ gone /\ (f = archive_file (bf_name b) \/ f = sidecar_path (bf_name b)).
Proof.
  intros Hf kept gone. pose proof (listed_nodup d) as Hnd. pose proof (listed_sorted d) as Hs.
  assert (Hsplit : list_backups d = kept ++ gone) by (symmetry; apply take_drop).
  rewrite Hsplit in Hnd, Hs. apply NoDup_app in Hnd as (Hndk & Hdis & _).
  destruct (unlink_all_ok gone d) as (d' & E & Hd'). { intros b m Hb. apply Hf. rewrite Hsplit. set_solver. }
  assert (Hin : forall b, b ∈ list_backups d <-> b ∈ kept \/ b ∈ gone) by (intros; rewrite Hsplit; set_solver).
  assert (Hname : forall b b', b ∈ kept -> b' ∈ gone -> bf_name b <> bf_name b').
  { intros b b' Hb Hb' En. apply (Hdis b Hb). rewrite (listed_name_inj d b b'); [done| | |done]; apply Hin; auto. }
  assert (Hstay : forall b, b ∈ kept -> d' !! archive_file (bf_name b) = d !! archive_file (bf_name b) /\ d' !! sidecar_path (bf_name b) = d !! sidecar_path (bf_name b)).
  { intros b Hb. rewrite !Hd'. split; rewrite bool_decide_false; try done; intros (b' & Hb' & [Ef|Ef])%Exists_exists;
      first [by apply archive_not_sidecar in Ef|symmetry in Ef; by apply archive_not_sidecar in Ef|apply append_inj_l in Ef; by eapply Hname]. }
  assert (Hlisted : forall b, b ∈ kept -> b ∈ list_backups d').
  { intros b Hb. destruct (Hstay b Hb) as [Ha Hsc]. assert (b ∈ list_backups d) as (x & m & Hn & Hx & Eb)%listed_iff by (apply Hin; auto).
    apply listed_iff. exists x, m. rewrite Ha. unfold read_sidecar. rewrite Hsc. done. }
  exists d'. split_and!; [exact E| | |].
  - apply (StronglySorted_unique_strong newer).
    + intros b b' Hb Hb' H1 H2. apply (listed_name_inj d'); [done| |by apply newer_both].
      by apply Hlisted.
    + apply listed_sorted.
    + by eapply StronglySorted_app_1_l.
    + apply NoDup_Permutation; [apply listed_nodup|done|]. intros b. split.
      * intros (x & m & Hn & Hx & Eb)%listed_iff. rewrite Hd' in Hx. case_bool_decide as Hgone; [done|].
        assert (Hsc : d' !! sidecar_path (bf_name b) = d !! sidecar_path (bf_name b)).
        { rewrite Hd', bool_decide_false; [done|]. rewrite Exists_exists in *. intros (b' & Hb' & [Ef|Ef]); [symmetry in Ef; by apply archive_not_sidecar in Ef|].
          apply append_inj_l in Ef. apply Hgone. exists b'. rewrite Ef. auto. }
        assert (b ∈ list_backups d) as [Hk|Hg]%Hin; [|done|].
        -- apply listed_iff. exists x, m. unfold read_sidecar in *. by rewrite <- Hsc.
        -- destruct Hgone. apply Exists_exists. eauto.
      * apply Hlisted.
  - intros b b' Hb Hb'. assert (Hnw : newer b b'). { by eapply StronglySorted_app_1_elem_of. }
    destruct (text_ltb (chars (bf_name b')) (chars (bf_name b))) eqn:El; [done|]. exfalso. eapply (Hname b b'); [done|done|].
    by apply newer_both.
  - intros f. rewrite Hd'. case_bool_decide as He; [right|by left]. split; [done|]. by apply Exists_exists in He.
Qed.

End listing.

Section secrets.
Context {R : Type} {A : Aead}.

(** ** Stored secrets *)


(** A secret of the database that the keyring does not open. *)
Definition sealed_off (keyring : option Keyring) (d : Database R) (id : uuid) : Prop :=
  exists row, row ∈ db_secrets d /\ es_id row = id /\
    forall k p, keyring = Some k -> decrypt k (es_ciphertext row) (context_of row) <> Ok p.

Definition never_breaks (keyring : option Keyring) (d : Database R) : Prop :=
  forall k row, keyring = Some k -> row ∈ db_secrets d -> decrypt k (es_ciphertext row) (context_of row) <> Err OtherError.

Lemma unreadable_ids keyring (rows : list EncryptedSecret) :
  (forall k row, keyring = Some k -> row ∈ rows -> decrypt k (es_ciphertext row) (context_of row) <> Err OtherError) ->
  exists bad, unreadable keyring rows = Ok bad /\
    forall id, id ∈ bad <-> exists row, row ∈ rows /\ es_id row = id /\ forall k p, keyring = Some k -> decrypt k (es_ciphertext row) (context_of row) <> Ok p.
Proof.
  induction rows as [|row rows IH]; intros Hb; [exists []; split; [done|set_solver]|].
  destruct IH as (bad & E & Hbad); [intros; apply Hb; [done|by right]|]. cbn [unreadable]. change (secret_context row) with (context_of row).
  assert (Hone : exists b : bool, match keyring with
     | None => Ok true
     | Some k => match decrypt k (es_ciphertext row) (context_of row) with Ok _ => Ok false | Err OtherError => Err (Raised "ValueError") | Err _ => Ok true end
     end = Ok (E := Failure) b /\ (b = true <-> forall k p, keyring = Some k -> decrypt k (es_ciphertext row) (context_of row) <> Ok p)).
  { destruct keyring as [k|]; [|by exists true]. specialize (Hb k row eq_refl ltac:(by left)).
    destruct (decrypt k (es_ciphertext row) (context_of row)) as [p|e] eqn:Ed.
    - exists false. split; [done|]. split; [done|]. intros H. by destruct (H k p eq_refl).
    - exists true. split; [by destruct e|]. split; [|done]. intros _ k' p [= <-]. by rewrite Ed. }
  destruct Hone as (b & Eb & Hiff). rewrite Eb, E. cbn [mbind result_bind]. eexists. split; [reflexivity|]. intros id. destruct b.
  - rewrite elem_of_cons, Hbad. setoid_rewrite elem_of_cons. split.
    + intros [->|(r & Hr & H)]; [exists row; split_and!; [by left|done|by apply Hiff]|exists r; split; [by right|done]].
    + intros (r & [->|Hr] & <- & H); [by left|right; eauto].
  - rewrite Hbad. setoid_rewrite elem_of_cons. split; [intros (r & Hr & H); exists r; split; [by right|done]|].
    intros (r & [->|Hr] & <- & H); [by apply Hiff in H|eauto].
Qed.

(** C26: the check after a restore asks the owner to reconnect exactly the accounts whose secret the
    device's key does not open: their Google connections become NEEDS_ATTENTION and their profiles
    ERROR, every other row is as it was, and the report names the providers concerned. *)
Theorem secrets_checked keyring (d : Database R) :
  never_breaks keyring d ->
  exists check d', check_secrets keyring d = Ok (check, d') /\
    sk_checked check = Z.of_nat (length (db_secrets d)) /\
    (forall i c, db_connections d !! i = Some c -> exists c', db_connections d' !! i = Some c' /\
       (forall id, cn_secret c = Some id -> sealed_off keyring d id -> c' = mkConn (cn_provider c) (cn_secret c) "NEEDS_ATTENTION" (Some RECONNECT_DETAIL)) /\
       ((forall id, cn_secret c = Some id -> ~ sealed_off keyring d id) -> c' = c)) /\
    (forall i p, db_profiles d !! i = Some p -> exists p', db_profiles d' !! i = Some p' /\
       (forall id, pf_secret p = Some id -> sealed_off keyring d id -> p' = mkProf (pf_provider p) (pf_secret p) "ERROR") /\
       ((forall id, pf_secret p = Some id -> ~ sealed_off keyring d id) -> p' = p)) /\
    (forall provider, provider ∈ sk_needs_attention check <->
       (exists c id, c ∈ db_connections d /\ cn_provider c = provider /\ cn_secret c = Some id /\ sealed_off keyring d id) \/
       (exists p id, p ∈ db_profiles d /\ pf_provider p = provider /\ pf_secret p = Some id /\ sealed_off keyring d id)) /\
    d' <| db_connections := db_connections d |> <| db_profiles := db_profiles d |> = d.
Proof.
  intros Hb. destruct (unreadable_ids keyring (db_secrets d) Hb) as (bad & E & Hbad).
  change (forall id, id ∈ bad <-> sealed_off keyring d id) in Hbad.
  assert (Hmark : forall s, names_one bad s = true <-> exists id, s = Some id /\ sealed_off keyring d id).
  { intros [id|]; cbn; [rewrite bool_decide_eq_true, Hbad; naive_solver|split; [done|by intros (? & ? & _)]]. }
  exists (mkCheck (Z.of_nat (length (db_secrets d))) (Z.of_nat (length bad)) (bool_decide (is_Some keyring))
    (sorted_names (map cn_provider (List.filter (fun c => names_one bad (cn_secret c)) (db_connections d)) ++
                 map pf_provider (List.filter (fun p => names_one bad (pf_secret p)) (db_profiles d))))),
   (d <| db_connections ::= map (mark_connection bad) |> <| db_profiles ::= map (mark_profile bad) |>).
  split_and!; [|done| | | |by destruct d].
  - unfold check_secrets. rewrite E. cbn [mbind result_bind]. destruct bad as [|x bad]; [|done].
    assert (Hno : forall s, names_one [] s = false) by (intros [id|]; cbn; [by rewrite bool_decide_false by set_solver|done]).
    assert (Hf : forall X (f : X -> option uuid) l, List.filter (fun c => names_one [] (f c)) l = []) by (intros X f l; induction l; [done|]; cbn; by rewrite Hno).
    rewrite !Hf. cbn. do 2 f_equal. destruct d. unfold update. cbn. f_equal; (rewrite <- map_id at 1; apply map_ext; intros c).
    + unfold mark_connection. by rewrite Hno.
    + unfold mark_profile. by rewrite Hno.
  - intros i c Hc. exists (mark_connection bad c). split; [cbn|].
    + change (map ?f ?l) with (f <$> l). by rewrite list_lookup_fmap, Hc.
    + unfold mark_connection. split; [intros id E1 H; by rewrite (proj2 (Hmark _)) by eauto|]. intros H.
      destruct (names_one bad (cn_secret c)) eqn:En; [|done]. apply Hmark in En as (id & E1 & H1). by destruct (H id).
  - intros i p Hp. exists (mark_profile bad p). split; [cbn|].
    + change (map ?f ?l) with (f <$> l). by rewrite list_lookup_fmap, Hp.
    + unfold mark_profile. split; [intros id E1 H; by rewrite (proj2 (Hmark _)) by eauto|]. intros H.
      destruct (names_one bad (pf_secret p)) eqn:En; [|done]. apply Hmark in En as (id & E1 & H1). by destruct (H id).
  - intros provider. cbn [sk_needs_attention]. unfold sorted_names. rewrite (merge_sort_Permutation path_le), elem_of_remove_dups, elem_of_app.
    rewrite !list_elem_of_fmap. setoid_rewrite list_elem_of_In. setoid_rewrite filter_In. setoid_rewrite Hmark. setoid_rewrite <- list_elem_of_In. naive_solver.
Qed.

End secrets.

Section props.
Context {B R : Type} {C : Codecs B R} {L : CodecLaws C} {A : Aead} (documents_dir : list string).
Abbreviation Documents := (gmap (list string) B).
Abbreviation Dir := (gmap string (DirEntry (B := B))).
Abbreviation Taken := (Taken (B := B) (R := R)).
Abbreviation World := (World (B := B) (R := R)).
Abbreviation taken_archive := (taken_archive documents_dir).
Abbreviation taken_sidecar := (taken_sidecar documents_dir).
Abbreviation taken_manifest := (taken_manifest documents_dir).
Abbreviation step := (step documents_dir).

(** ** The directory while backups are made *)

Definition phase_taken (p : CreationPhase (B := B) (R := R)) : option Taken :=
  match p with Working => None | Packed t | SidecarWritten t | SidecarInPlace t => Some t end.

(** A file is absent, or has this content. *)
Definition only (d : Dir) (f : string) (data : B) : Prop := forall e, d !! f = Some e -> exists m, e = File data m.

Record creation_ok (d : Dir) (c : BackupRun (B := B) (R := R)) : Prop := {
  co_name : is_name (cr_name c) = true;
  co_work : is_work (cr_work c) = true;
  co_taken : forall t, phase_taken (cr_phase c) = Some t -> tk_name t = cr_name c;
  co_archive : d !! archive_file (cr_name c) = None;
  co_tmp : forall t, cr_phase c = SidecarWritten t -> exists m, d !! sidecar_tmp (cr_name c) = Some (File (taken_sidecar t) m);
  co_sidecar : forall t, cr_phase c = SidecarInPlace t -> only d (sidecar_path (cr_name c)) (taken_sidecar t)
}.

Record archive_ok (d : Dir) (made : list Taken) (name : string) (data : B) : Prop := {
  ao_taken : exists t, t ∈ made /\ tk_name t = name /\ data = taken_archive t /\ only d (sidecar_path name) (taken_sidecar t)
}.

Record Inv (w : World) : Prop := {
  iv_creations : map_Forall (fun _ => creation_ok (wd_dir w)) (wd_creations w);
  iv_distinct : forall i j c c', wd_creations w !! i = Some c -> wd_creations w !! j = Some c' -> cr_name c = cr_name c' -> i = j;
  iv_archives : forall name data m, is_name name = true -> wd_dir w !! archive_file name = Some (File data m) -> archive_ok (wd_dir w) (wd_made w) name data
}.

(** Removing files, other than the temporary sidecars, and changing files that belong to no backup. *)
Definition tame (d d' : Dir) : Prop :=
  (forall n, is_name n = true -> d' !! archive_file n = d !! archive_file n \/ d' !! archive_file n = None) /\
  (forall n, is_name n = true -> d' !! sidecar_path n = d !! sidecar_path n \/ d' !! sidecar_path n = None) /\
  (forall n, is_name n = true -> d' !! sidecar_tmp n = d !! sidecar_tmp n).

Lemma only_tame d d' n data : tame d d' -> is_name n = true -> only d (sidecar_path n) data -> only d' (sidecar_path n) data.
Proof. intros (_ & Hs & _) Hn Ho e He. destruct (Hs n Hn) as [E|E]; rewrite E in He; [by apply Ho|done]. Qed.

Lemma creation_tame d d' c : tame d d' -> creation_ok d c -> creation_ok d' c.
Proof.
  intros Ht [Hn Hw Htk Ha Htmp Hsc]. split; try done.
  - destruct Ht as (H & _). destruct (H _ Hn) as [E|E]; by rewrite E.
  - intros t E. destruct Ht as (_ & _ & H). rewrite H by done. by apply Htmp.
  - intros t E. eapply only_tame; eauto.
Qed.

Lemma archive_tame d d' made made' n data :
  tame d d' -> made ⊆ made' -> is_name n = true -> archive_ok d made n data -> archive_ok d' made' n data.
Proof.
  intros Ht Hm Hn [(t & Ht' & E & Ed & Ho)]. constructor. exists t. split_and!; [by apply Hm|done|done|by eapply only_tame].
Qed.

Lemma inv_tame w d' creations' :
  Inv w -> tame (wd_dir w) d' -> creations' ⊆ wd_creations w -> Inv (w <| wd_dir := d' |> <| wd_creations := creations' |>).
Proof.
  intros [Hc Hd Ha] Ht Hsub. split; cbn.
  - intros i c Hi. eapply creation_tame; [done|]. eapply (Hc i). by eapply lookup_weaken.
  - intros i j c c' Hi Hj. apply Hd; by eapply lookup_weaken.
  - intros n data m Hn Hl. eapply archive_tame; [done|set_solver|done|]. destruct Ht as (H & _).
    destruct (H n Hn) as [E|E]; rewrite E in Hl; [by eapply Ha|done].
Qed.

Lemma tame_refl d : tame d d.
Proof. split_and!; auto. Qed.

Lemma tame_insert_work d work e : is_work work = true -> tame d (<[work := e]> d).
Proof.
  intros Hw. split_and!; intros n Hn; [left|left|rewrite sidecar_tmp_app]; by apply lookup_insert_ne, work_differs.
Qed.
Lemma tame_delete_work d work : is_work work = true -> tame d (delete work d).
Proof. intros Hw. split_and!; intros n Hn; [left|left|rewrite sidecar_tmp_app]; by apply lookup_delete_ne, work_differs. Qed.
Lemma tame_delete_archive d n : tame d (delete (archive_file n) d).
Proof.
  split_and!; intros n' _.
  - destruct (decide (archive_file n = archive_file n')) as [->|]; [right; by simplify_map_eq|left; by rewrite lookup_delete_ne].
  - left. apply lookup_delete_ne, archive_not_sidecar.
  - apply lookup_delete_ne, archive_not_tmp.
Qed.
Lemma tame_delete_sidecar d n : tame d (delete (sidecar_path n) d).
Proof.
  split_and!; intros n' _.
  - left. apply lookup_delete_ne, not_eq_sym, archive_not_sidecar.
  - destruct (decide (sidecar_path n = sidecar_path n')) as [->|]; [right; by simplify_map_eq|left; by rewrite lookup_delete_ne].
  - apply lookup_delete_ne, sidecar_not_tmp.
Qed.
Lemma tame_clean d now age : tame d (clean_stale_work now age d).
Proof.
  assert (H : forall n x, is_name n = true -> clean_stale_work now age d !! (n +:+ x)%string = d !! (n +:+ x)%string).
  { intros n x Hn. unfold clean_stale_work. destruct (d !! (n +:+ x)%string) as [e|] eqn:E.
    - apply map_lookup_filter_Some. split; [done|]. cbn [fst snd]. by apply name_starts in Hn as [s ->].
    - apply map_lookup_filter_None. by left. }
  split_and!; intros n Hn; [left|left|]; [by apply H|by apply H|]. rewrite sidecar_tmp_app. by apply H.
Qed.

(** The files of the backups other than [n] are as before. *)
Definition apart (n : string) (d d' : Dir) : Prop :=
  forall n', n' <> n -> d' !! archive_file n' = d !! archive_file n' /\ d' !! sidecar_path n' = d !! sidecar_path n' /\
    d' !! sidecar_tmp n' = d !! sidecar_tmp n'.

Lemma creation_apart n d d' c : apart n d d' -> cr_name c <> n -> creation_ok d c -> creation_ok d' c.
Proof.
  intros Hap Hne [Hn Hw Htk Ha Htmp Hsc]. destruct (Hap _ Hne) as (Ea & Es & Et). split; try done.
  - by rewrite Ea.
  - by rewrite Et.
  - intros t E e. rewrite Es. by apply Hsc.
Qed.

Lemma inv_advance w i c c' d' :
  Inv w -> wd_creations w !! i = Some c -> cr_name c' = cr_name c -> apart (cr_name c) (wd_dir w) d' -> creation_ok d' c' ->
  Inv (w <| wd_dir := d' |> <| wd_creations ::= <[i := c']> |>).
Proof.
  intros [Hc Hd Ha] Hi En Hap Hok. split; cbn.
  - intros j cj [[<- <-]|[Hne Hj]]%lookup_insert_Some; [done|]. eapply creation_apart; [done| |by eapply Hc].
    intros E. by apply Hne, (Hd i j c cj).
  - intros j k cj ck [[<- <-]|[Hj' Hj]]%lookup_insert_Some [[<- <-]|[Hk' Hk]]%lookup_insert_Some E; [done| | |by eapply Hd].
    + eapply Hd; [exact Hi|exact Hk|congruence].
    + eapply Hd; [exact Hj|exact Hi|congruence].
  - intros n data m Hn Hl. destruct (decide (n = cr_name c)) as [->|Hne].
    { rewrite <- En in Hl. by rewrite (co_archive _ _ Hok) in Hl. }
    destruct (Hap n Hne) as (E1 & E2 & _). rewrite E1 in Hl. destruct (Ha n data m Hn Hl) as [(t & Ht & Et & Ed & Ho)].
    constructor. exists t. split_and!; [done|done|done|]. intros e. rewrite E2. apply Ho.
Qed.

Lemma apart_refl n d : apart n d d.
Proof. done. Qed.
Lemma apart_tmp n d d' e : apart n d d' -> apart n d (<[sidecar_tmp n := e]> d').
Proof.
  intros H n' Hne. rewrite lookup_insert_ne by apply not_eq_sym, archive_not_tmp. rewrite lookup_insert_ne by apply not_eq_sym, sidecar_not_tmp.
  rewrite lookup_insert_ne; [by apply H|]. intros E. rewrite !sidecar_tmp_app in E. by apply append_inj_l in E.
Qed.
Lemma apart_delete_tmp n d d' : apart n d d' -> apart n d (delete (sidecar_tmp n) d').
Proof.
  intros H n' Hne. rewrite lookup_delete_ne by apply not_eq_sym, archive_not_tmp. rewrite lookup_delete_ne by apply not_eq_sym, sidecar_not_tmp.
  rewrite lookup_delete_ne; [by apply H|]. intros E. rewrite !sidecar_tmp_app in E. by apply append_inj_l in E.
Qed.
Lemma apart_sidecar n d d' e : apart n d d' -> apart n d (<[sidecar_path n := e]> d').
Proof.
  intros H n' Hne. rewrite lookup_insert_ne by apply not_eq_sym, archive_not_sidecar. rewrite (lookup_insert_ne _ _ (sidecar_tmp n')) by apply sidecar_not_tmp.
  rewrite lookup_insert_ne; [by apply H|]. intros E. by apply append_inj_l in E.
Qed.
Lemma apart_archive n d d' e : apart n d d' -> apart n d (<[archive_file n := e]> d').
Proof.
  intros H n' Hne. rewrite (lookup_insert_ne _ _ (sidecar_path n')) by apply archive_not_sidecar. rewrite (lookup_insert_ne _ _ (sidecar_tmp n')) by apply archive_not_tmp.
  rewrite lookup_insert_ne; [by apply H|]. intros E. by apply append_inj_l in E.
Qed.

Lemma begin_ok now label name (d : Dir) n : begin_backup now label name d = Ok n -> is_name n = true /\ d !! archive_file n = None.
Proof.
  unfold begin_backup. destruct (match name with Some _ => _ | None => _ end) as [n'|]; [|done].
  cbn [mbind result_bind]. unfold archive_path. destruct (is_name n') eqn:Hn; [|done]. cbn [mbind result_bind].
  case_bool_decide as E; [done|]. intros [= <-]. split; [done|]. by apply eq_None_not_Some.
Qed.

Lemma inv_finish w i c t now :
  Inv w -> wd_creations w !! i = Some c -> cr_phase c = SidecarInPlace t ->
  Inv (w <| wd_dir ::= fun d => delete (cr_work c) (replace_archive documents_dir t now d) |> <| wd_creations ::= delete i |> <| wd_made ::= cons t |>).
Proof.
  intros HI Hi Hp. pose proof (iv_creations _ HI i c Hi) as Hok. pose proof (co_name _ _ Hok) as Hn. pose proof (co_work _ _ Hok) as Hw.
  pose proof (co_taken _ _ Hok t ltac:(by rewrite Hp)) as Et. unfold replace_archive. rewrite Et.
  set (d1 := <[archive_file (cr_name c) := File (taken_archive t) now]> (wd_dir w)).
  assert (Hap : apart (cr_name c) (wd_dir w) d1) by apply apart_archive, apart_refl.
  assert (Hs : d1 !! sidecar_path (cr_name c) = wd_dir w !! sidecar_path (cr_name c)) by apply lookup_insert_ne, archive_not_sidecar.
  pose proof (tame_delete_work d1 (cr_work c) Hw) as Ht.
  split; cbn; fold d1.
  - intros j cj [Hne Hj]%lookup_delete_Some. eapply creation_tame; [exact Ht|]. eapply creation_apart; [exact Hap| |by eapply HI].
    intros E. by eapply Hne, (iv_distinct _ HI i j).
  - intros j k cj ck [_ Hj]%lookup_delete_Some [_ Hk]%lookup_delete_Some. by eapply HI.
  - intros n data m Hn' [_ Hl]%lookup_delete_Some. eapply (archive_tame d1 _ (t :: wd_made w)); [done|done|done|].
    destruct (decide (n = cr_name c)) as [->|Hne].
    + unfold d1 in Hl. rewrite lookup_insert_eq in Hl. injection Hl as <- <-. constructor. exists t. split_and!; [by left|done|done|].
      intros e. rewrite Hs. by apply (co_sidecar _ _ Hok).
    + destruct (Hap n Hne) as (E1 & E2 & _). rewrite E1 in Hl. destruct (iv_archives _ HI n data m Hn' Hl) as [(t' & Ht' & Et' & Ed & Ho)].
      constructor. exists t'. split_and!; [by right|done|done|]. intros e. rewrite E2. apply Ho.
Qed.

Lemma step_inv w w' : step true w w' -> Inv w -> Inv w'.
Proof.
  intros Hstep HI. destruct Hstep as [w i now label name n work at_ Hi Hb Hw Hfree Hex|w i c t Hi Hp Et|w i c t now Hi Hp|w i c t d Hi Hp Hr
    |w i c t now Hi Hp|w i c Hi|w i c Hi|w name Hn|w name Hn|w now age].
  - apply begin_ok in Hb as [Hn Ha]. specialize (Hex eq_refl).
    pose proof (inv_tame w _ (wd_creations w) HI (tame_insert_work (wd_dir w) work (Folder at_) Hw) ltac:(done)) as [Hc Hd Har]. cbn in *.
    split; cbn; [| |exact Har].
    + intros j cj [[<- <-]|[Hne Hj]]%lookup_insert_Some; [|by eapply Hc]. split; try done. cbn [cr_name].
      rewrite lookup_insert_ne by by apply work_differs. done.
    + intros j k cj ck [[<- <-]|[Hj' Hj]]%lookup_insert_Some [[<- <-]|[Hk' Hk]]%lookup_insert_Some E; [done| | |by eapply Hd].
      * exfalso. by apply (Hex k ck).
      * exfalso. by apply (Hex j cj).
  - pose proof (iv_creations _ HI i c Hi) as [Hn Hw Htk Ha _ _].
    apply (inv_advance w i c (in_phase c (Packed t)) (wd_dir w)); [done|done|done|apply apart_refl|]. split; try done. cbn. by intros ? [= <-].
  - pose proof (iv_creations _ HI i c Hi) as [Hn Hw Htk Ha _ _]. rewrite Hp in Htk. pose proof (Htk t eq_refl) as Et.
    apply (inv_advance w i c (in_phase c (SidecarWritten t)) _); [done|done|done| |]; unfold write_sidecar_tmp; rewrite Et; [apply apart_tmp, apart_refl|].
    split; try done; cbn; [by rewrite lookup_insert_ne by apply not_eq_sym, archive_not_tmp|].
    intros ? [= <-]. exists now. by rewrite lookup_insert_eq.
  - pose proof (iv_creations _ HI i c Hi) as [Hn Hw Htk Ha Htmp _]. rewrite Hp in Htk. pose proof (Htk t eq_refl) as Et.
    destruct (Htmp t Hp) as [m Hm]. unfold replace_sidecar in Hr. rewrite Et, Hm in Hr. injection Hr as <-.
    apply (inv_advance w i c (in_phase c (SidecarInPlace t)) _); [done|done|done|apply apart_sidecar, apart_delete_tmp, apart_refl|].
    split; try done; cbn.
    + by rewrite lookup_insert_ne, lookup_delete_ne by (apply not_eq_sym; (apply archive_not_tmp || apply archive_not_sidecar)).
    + intros ? [= <-] e. rewrite lookup_insert_eq. intros [= <-]. by exists m.
  - by apply inv_finish.
  - pose proof (iv_creations _ HI i c Hi) as Hok. apply (inv_tame w _ (delete i (wd_creations w)) HI (tame_delete_work _ _ (co_work _ _ Hok))), delete_subseteq.
  - apply (inv_tame w _ (delete i (wd_creations w)) HI (tame_refl _)), delete_subseteq.
  - by apply (inv_tame w _ (wd_creations w) HI (tame_delete_archive _ _)).
  - by apply (inv_tame w _ (wd_creations w) HI (tame_delete_sidecar _ _)).
  - by apply (inv_tame w _ (wd_creations w) HI (tame_clean _ _ _)).
Qed.

(** A directory without backups, and what comes of it. *)
Definition fresh_world (d : Dir) : World := mkWorld d ∅ [].

Lemma directory_inv d w : list_backups d = [] -> rtc (step true) (fresh_world d) w -> Inv w.
Proof.
  intros Hd Hw. assert (H0 : Inv (fresh_world d)); [|induction Hw as [|w0 w1 w2 Hs _ IH]; [done|apply IH; by eapply step_inv]].
  split; cbn.
  - apply map_Forall_empty.
  - intros i j c c' H. by rewrite lookup_empty in H.
  - intros n data m Hn Hl. exfalso. set (b := mkFile n (size data) m (read_sidecar d n)).
    assert (b ∈ list_backups d) by (apply listed_iff; by exists data, m). rewrite Hd in H. set_solver.
Qed.

(** ** Verification *)

(** The manifest as it is read back, in key order. *)
Definition read_back (t : Taken) : Manifest :=
  let m := taken_manifest t in
  let st := (taken_documents documents_dir t).2 in
  mkManifest (mf_created_at m) (mf_platform_version m) (mf_migration_head m) (mf_postgres_version m)
    (map (fun p => (p.1, [("bytes", JNum (size p.2)); ("sha256", JStr (sha256 p.2))]%string)) (taken_parts documents_dir t))
    [("bytes", dt_bytes st); ("count", dt_count st); ("missing", dt_missing st)]%string
    (mf_includes_master_key m) FORMAT_VERSION (mf_label m) [].

Lemma manifest_read_back t : from_json (sorted_keys (JObj (to_json (taken_manifest t)))) = Ok (read_back t).
Proof.
  unfold read_back, Backup.taken_manifest, Backup.taken_parts. generalize (Backup.taken_documents documents_dir t). intros [docs [n1 n2 n3]].
  generalize (snapshot_facts (tk_database t)). intros [h paths]. destruct (tk_key t), h, (tk_label t); reflexivity.
Qed.

(** The manifest is below the limit that verification sets. *)
Definition fits (t : Taken) : Prop := size (dumps (JObj (to_json (taken_manifest t)))) <= MANIFEST_LIMIT.

Lemma extract_manifest m ms stop work man j :
  mb_name m = MANIFEST -> mb_kind m = Regular -> size (mb_data m) <= MANIFEST_LIMIT -> loads (mb_data m) = Some j -> from_json j = Ok man ->
  extract (m :: ms) stop [] None work = extract ms stop [MANIFEST] (Some man) work.
Proof.
  intros En Ek Hs Hj Hm. cbn [extract]. rewrite En, Ek, Hj. rewrite (bool_decide_false (MANIFEST ∈ [])) by set_solver.
  rewrite (bool_decide_true (MANIFEST ∈ _)) by set_solver. rewrite (bool_decide_true (Regular = Regular)) by done.
  rewrite String.eqb_refl. destruct (Z.ltb_spec MANIFEST_LIMIT (size (mb_data m))); [lia|]. cbn [orb negb]. by rewrite Hm.
Qed.

Lemma extract_part name data ms stop seen man work :
  name ∉ seen -> name ∈ PARTS ->
  extract (mkMember name Regular data :: ms) stop seen man work = extract ms stop (name :: seen) man (<[name := data]> work).
Proof.
  intros Hs Hp. cbn [extract mb_name mb_kind mb_data]. rewrite (bool_decide_false (name ∈ seen)) by done.
  rewrite (bool_decide_true (name ∈ MANIFEST :: PARTS)) by (by right). rewrite (bool_decide_true (Regular = Regular)) by done. cbn [orb negb].
  destruct (String.eqb_spec name MANIFEST) as [->|]; [|done]. unfold PARTS in Hp. set_solver.
Qed.

Lemma check_part name data parts work :
  work !! name = Some data ->
  check_parts ((name, [("bytes", JNum (size data)); ("sha256", JStr (sha256 data))]%string) :: parts) work = check_parts parts work.
Proof.
  intros E. cbn [check_parts]. rewrite E. cbn [assoc]. change (String.eqb "bytes" "bytes") with true. cbn [py_int]. rewrite Z.eqb_refl.
  cbn [negb]. change (String.eqb "sha256" "bytes") with false. change (String.eqb "sha256" "sha256") with true. cbn [py_eq]. by rewrite String.eqb_refl.
Qed.

Lemma taken_regular t : Forall (fun m => mb_kind m = Regular) (taken_members documents_dir t).
Proof. unfold taken_members. apply Forall_cons_2; [done|]. apply Forall_map, Forall_true. done. Qed.

Lemma taken_verified t :
  fits t -> exists v, verify_archive (taken_archive t) = Ok v /\ vb_manifest v = read_back t /\
    vb_database v = Some (pg_dump (tk_database t)) /\ vb_documents v = Some (write_tar (taken_documents documents_dir t).1) /\ vb_master_key v = tk_key t.
Proof.
  intros Hf. unfold verify_archive, Backup.taken_archive. rewrite read_write_tgz by apply taken_regular.
  unfold taken_members. erewrite extract_manifest; [|done|done|exact Hf|apply loads_dumps|apply manifest_read_back].
  pose (dump := pg_dump (tk_database t)). pose (docs := write_tar (taken_documents documents_dir t).1).
  unfold read_back, taken_parts. fold dump docs. cbn [mf_includes_master_key Backup.taken_manifest].
  destruct (tk_key t) as [k|] eqn:Ek; cbn [app map fst snd];
    rewrite !extract_part by (apply (bool_decide_unpack _); vm_compute; done); cbn [extract mbind result_bind fst snd].
  all: cbn [mf_format_version mf_parts map fst]; change (negb (FORMAT_VERSION =? FORMAT_VERSION)) with false; cbn [app].
  all: match goal with |- context [negb (forallb ?p ?r && forallb ?q ?n)] => change (negb (forallb p r && forallb q n)) with false end.
  all: rewrite !check_part by by simplify_map_eq.
  all: eexists; split; [reflexivity|]; split_and!; [reflexivity|..]; unfold vb_database, vb_documents, vb_master_key; cbn; by simplify_map_eq.
Qed.


(** What the manifest and the sidecar of a backup say about the key. *)
Lemma flag_of_manifest t : otruthy (jget "includesMasterKey" (sorted_keys (JObj (to_json (taken_manifest t))))) = bool_decide (is_Some (tk_key t)).
Proof.
  unfold Backup.taken_manifest, Backup.taken_parts. generalize (Backup.taken_documents documents_dir t). intros [docs [n1 n2 n3]].
  generalize (snapshot_facts (tk_database t)). intros [h paths]. destruct (tk_key t), h, (tk_label t); reflexivity.
Qed.
Lemma sidecar_flag t : exists o, loads (taken_sidecar t) = Some (JObj o) /\ otruthy (assoc "includesMasterKey"%string o) = bool_decide (is_Some (tk_key t)).
Proof.
  unfold Backup.taken_sidecar. generalize (Backup.taken_archive documents_dir t). intros data. rewrite loads_dumps. eexists. split; [reflexivity|].
  unfold Backup.taken_manifest, Backup.taken_parts. generalize (Backup.taken_documents documents_dir t). intros [docs [n1 n2 n3]].
  generalize (snapshot_facts (tk_database t)). intros [h paths]. destruct (tk_key t), h, (tk_label t); reflexivity.
Qed.

Lemma manifest_member t : getmember MANIFEST (taken_members documents_dir t) = Some (mkMember MANIFEST Regular (dumps (JObj (to_json (taken_manifest t))))).
Proof. unfold taken_members, Backup.taken_parts. by destruct (tk_key t). Qed.

(** The manifest that [read_manifest] gives for a stored backup. *)
Lemma stored_manifest (d : Dir) t m j :
  is_name (tk_name t) = true -> d !! archive_file (tk_name t) = Some (File (taken_archive t) m) -> only d (sidecar_path (tk_name t)) (taken_sidecar t) ->
  read_manifest d (tk_name t) = Ok j -> otruthy (jget "includesMasterKey" j) = bool_decide (is_Some (tk_key t)).
Proof.
  intros Hn Ha Hs. unfold read_manifest. destruct (sidecar_flag t) as (o & Eo & Hflag). unfold read_sidecar.
  destruct (d !! sidecar_path (tk_name t)) as [e|] eqn:E.
  - destruct (Hs e E) as [m' ->]. rewrite Eo. by intros [= <-].
  - unfold archive_path. rewrite Hn. cbn [mbind result_bind]. rewrite Ha. unfold Backup.taken_archive. rewrite read_write_tgz by apply taken_regular.
    rewrite manifest_member. cbn [mb_kind mb_data]. destruct (_ || _); [done|]. rewrite loads_dumps. intros [= <-]. apply flag_of_manifest.
Qed.

(** C24: the owner API never hands out the device master key: a downloaded archive was taken without
    it and has no such member, whatever creations with and without the key, prunings and crashes
    came before. *)
Theorem downloads_keyless (d : Dir) (w : World) backup_id data :
  list_backups d = [] -> rtc (step true) (fresh_world d) w -> download_backup (wd_dir w) backup_id = Ok data ->
  exists t ms, t ∈ wd_made w /\ tk_name t = backup_id /\ tk_key t = None /\ data = taken_archive t /\
    read_tgz data = Members ms Complete /\ Forall (fun m => mb_name m <> PART_MASTER_KEY) ms.
Proof.
  intros Hd Hw. pose proof (directory_inv d w Hd Hw) as HI. unfold download_backup. destruct (is_name backup_id) eqn:Hn; [|done]. cbn [negb].
  destruct (wd_dir w !! archive_file backup_id) as [[x m|]|] eqn:Ha; [|done|done].
  destruct (iv_archives _ HI _ _ _ Hn Ha) as [(t & Ht & <- & -> & Ho)].
  destruct (read_manifest (wd_dir w) (tk_name t)) as [j|[]] eqn:Ej; [|done|done].
  pose proof (stored_manifest _ t m j Hn Ha Ho Ej) as Hflag. destruct j as [| | | | |o]; try done. cbn [jget] in Hflag. rewrite Hflag.
  case_bool_decide as Hk; [done|]. intros [= <-]. apply eq_None_not_Some in Hk. exists t, (taken_members documents_dir t).
  split_and!; [done|done|done|done|apply read_write_tgz, taken_regular|].
  unfold taken_members, Backup.taken_parts. rewrite Hk. cbn [app map fst snd]. by repeat (apply Forall_cons_2; [done|]).
Qed.

(** Pruning is a sequence of the steps that remove single files. *)
Lemma prune_steps exclusive keep (w : World) : rtc (step exclusive) w (w <| wd_dir := (prune keep (wd_dir w)).1 |>).
Proof.
  unfold prune. set (old := drop _ _). assert (Hold : Forall (fun b => is_name (bf_name b) = true) old).
  { apply Forall_drop, Forall_forall. by intros b (x & m & Hn & _)%listed_iff. }
  clearbody old. revert w. induction Hold as [|b old Hb _ IH]; intros w; [by destruct w|]. cbn [unlink_all].
  eapply rtc_l; [by apply (st_prune documents_dir exclusive w (bf_name b))|]. set (w1 := w <| wd_dir ::= delete (archive_file (bf_name b)) |>).
  change (delete (archive_file (bf_name b)) (wd_dir w)) with (wd_dir w1).
  assert (Hgo : rtc (step exclusive) w1 (w1 <| wd_dir := (unlink_all old (delete (sidecar_path (bf_name b)) (wd_dir w1))).1 |>)).
  { eapply rtc_l; [by apply (st_prune_sidecar documents_dir exclusive w1 (bf_name b))|]. exact (IH (w1 <| wd_dir ::= delete (sidecar_path (bf_name b)) |>)). }
  destruct (unlink_all old (delete (sidecar_path (bf_name b)) (wd_dir w1))) as [d2 r]. cbn [fst] in Hgo.
  destruct (wd_dir w1 !! sidecar_path (bf_name b)) as [[]|]; [exact Hgo|apply rtc_refl|exact Hgo].
Qed.

(** A creation that nothing disturbs is a sequence of steps; it adds its archive and sidecar. *)
Lemma create_steps exclusive (w : World) name t work at_ t' d' :
  create_backup documents_dir name t work at_ (wd_dir w) = Ok (t', d') -> is_work work = true -> wd_dir w !! work = None ->
  (exclusive = true -> map_Forall (fun _ c => cr_name c <> tk_name t') (wd_creations w)) ->
  t' = named (tk_name t') t /\ is_name (tk_name t') = true /\ rtc (step exclusive) w (w <| wd_dir := d' |> <| wd_made ::= cons t' |>) /\
  d' !! archive_file (tk_name t') = Some (File (taken_archive t') at_) /\ d' !! sidecar_path (tk_name t') = Some (File (taken_sidecar t') at_).
Proof.
  intros H Hw Hfree Hex. unfold create_backup in H. destruct (begin_backup (tk_now t) (tk_label t) name (wd_dir w)) as [n|] eqn:Eb; [|done].
  cbn [mbind result_bind] in H. destruct (begin_ok _ _ _ _ _ Eb) as [Hn _]. unfold replace_sidecar, write_sidecar_tmp in H. change (tk_name (named n t)) with n in H.
  rewrite lookup_insert_eq in H. cbn [mbind option_bind] in H. injection H as <- <-. change (tk_name (named n t)) with n in *.
  set (i := fresh (dom (wd_creations w))). assert (Hi : wd_creations w !! i = None) by apply not_elem_of_dom, is_fresh.
  split_and!; [done|done| | |].
  - eapply rtc_l; [by eapply (st_begin documents_dir exclusive w i _ _ _ _ work at_)|].
    eapply rtc_l; [eapply (st_pack documents_dir _ _ i _ (named n t)); [cbn; by rewrite lookup_insert_eq|done|done]|].
    eapply rtc_l; [eapply (st_sidecar documents_dir _ _ i _ (named n t) at_); [cbn; by rewrite lookup_insert_eq|done]|].
    eapply rtc_l; [eapply (st_replace documents_dir _ _ i _ (named n t)); [cbn; by rewrite lookup_insert_eq|done|]|].
    { unfold replace_sidecar, write_sidecar_tmp. cbn. by rewrite lookup_insert_eq. }
    eapply rtc_l; [eapply (st_finish documents_dir _ _ i _ (named n t) at_); [cbn; by rewrite lookup_insert_eq|done]|].
    destruct w as [d cs made]. unfold update. cbn in *. rewrite !insert_insert_eq, (delete_insert_id cs i _ Hi). apply rtc_refl.
  - rewrite lookup_delete_ne by (by apply work_differs). unfold replace_archive. by rewrite lookup_insert_eq.
  - rewrite lookup_delete_ne by (by apply work_differs). unfold replace_archive. rewrite lookup_insert_ne by apply archive_not_sidecar. by rewrite lookup_insert_eq.
Qed.

(** The job of the owner API is such a sequence, and never adds the master key. *)
Lemma job_steps exclusive (w : World) payload_name token retention t work at_ d' r :
  execute_job documents_dir payload_name token retention t work at_ (Some (wd_dir w)) = (d', r) -> is_work work = true -> wd_dir w !! work = None ->
  (exclusive = true -> forall n, map_Forall (fun _ c => cr_name c <> n) (wd_creations w)) ->
  exists d1 made, d' = Some d1 /\ rtc (step exclusive) w (w <| wd_dir := d1 |> <| wd_made ::= app made |>) /\ Forall (fun t => tk_key t = None) made.
Proof.
  intros H Hw Hfree Hex. unfold execute_job in H. destruct (job_name payload_name (tk_now t) token) as [name|e]; cbn [mbind result_bind] in H.
  2:{ injection H as <- _. eexists _, []. split; [done|]. split; [destruct w; apply rtc_refl|done]. }
  destruct (create_backup _ _ _ _ _ _) as [[t' d1]|e] eqn:Ec.
  - apply (create_steps exclusive w) in Ec as (-> & _ & Hrun & _); [|done|done|by eauto].
    pose proof (prune_steps exclusive retention (w <| wd_dir := d1 |> <| wd_made ::= cons (named (tk_name t') (keyless t)) |>)) as Hp.
    change (wd_dir (_ <| wd_made ::= _ |>)) with d1 in Hp.
    assert (E : d' = Some (prune retention d1).1) by (destruct (prune retention d1) as [d2 [x|e]]; by injection H as <- _). clear H.
    eexists _, [named (tk_name t') (keyless t)]. split; [exact E|]. split; [|by apply Forall_cons_2]. etrans; [exact Hrun|exact Hp].
  - injection H as <- _. eexists _, []. split; [done|]. split; [destruct w; apply rtc_refl|done].
Qed.

(** Without [exclusive], two creations of one name leave the archive of the one and the sidecar of the other. *)
Lemma same_name_race now label name n t1 t2 work1 work2 (d : Dir) :
  begin_backup now label name d = Ok n -> tk_name t1 = n -> tk_name t2 = n ->
  is_work work1 = true -> is_work work2 = true -> work1 <> work2 -> d !! work1 = None -> d !! work2 = None ->
  exists w, rtc (step false) (fresh_world d) w /\ wd_dir w !! archive_file n = Some (File (taken_archive t1) now) /\
    wd_dir w !! sidecar_path n = Some (File (taken_sidecar t2) now).
Proof.
  intros Hb E1 E2 Hw1 Hw2 Hne Hf1 Hf2. destruct (begin_ok _ _ _ _ _ Hb) as [Hn Ha].
  assert (Hb' : begin_backup now label name (<[work1 := Folder now]> d) = Ok n).
  { unfold begin_backup in *. destruct (match name with Some _ => _ | None => _ end) as [n'|]; [|done]. cbn [mbind result_bind] in *.
    unfold archive_path in *. destruct (is_name n') eqn:Hn'; [|done]. cbn [mbind result_bind] in *. rewrite lookup_insert_ne by (by apply work_differs). done. }
  eexists. split; [|split].
  - eapply rtc_l; [eapply (st_begin documents_dir false _ 1%N now label name n work1 now); [done|exact Hb|done|done|done]|].
    eapply rtc_l; [eapply (st_begin documents_dir false _ 2%N now label name n work2 now); [done|exact Hb'|done|cbn; by rewrite lookup_insert_ne|done]|].
    eapply rtc_l; [eapply (st_pack documents_dir false _ 1%N _ t1); [reflexivity|done|done]|].
    eapply rtc_l; [eapply (st_sidecar documents_dir false _ 1%N _ t1 now); [reflexivity|done]|].
    eapply rtc_l; [eapply (st_replace documents_dir false _ 1%N _ t1); [reflexivity|done|unfold replace_sidecar, write_sidecar_tmp; cbn; by rewrite lookup_insert_eq]|].
    eapply rtc_l; [eapply (st_pack documents_dir false _ 2%N _ t2); [reflexivity|done|done]|].
    eapply rtc_l; [eapply (st_sidecar documents_dir false _ 2%N _ t2 now); [reflexivity|done]|].
    eapply rtc_l; [eapply (st_replace documents_dir false _ 2%N _ t2); [reflexivity|done|unfold replace_sidecar, write_sidecar_tmp; cbn; by rewrite lookup_insert_eq]|].
    eapply rtc_l; [eapply (st_finish documents_dir false _ 2%N _ t2 now); [reflexivity|done]|].
    eapply rtc_l; [eapply (st_finish documents_dir false _ 1%N _ t1 now); [reflexivity|done]|]. apply rtc_refl.
  - cbn. rewrite lookup_delete_ne by (by apply work_differs). unfold replace_archive. by rewrite E1, lookup_insert_eq.
  - cbn. unfold replace_archive. rewrite E1, E2. rewrite lookup_delete_ne by (by apply work_differs). rewrite lookup_insert_ne by apply archive_not_sidecar.
    rewrite lookup_delete_ne by (by apply work_differs). rewrite lookup_insert_ne by apply archive_not_sidecar. by rewrite lookup_insert_eq.
Qed.

(** *** Archives of unknown origin *)

Lemma extract_sound ms stop seen man work man' work' :
  extract ms stop seen man work = Ok (man', work') ->
  stop = Complete /\ NoDup (map mb_name ms) /\ Forall (fun m => mb_kind m = Regular /\ mb_name m ∈ MANIFEST :: PARTS /\ mb_name m ∉ seen) ms /\
  forall n data, work' !! n = Some data -> work !! n = Some data \/ mkMember n Regular data ∈ ms.
Proof using Type.
  clear L.
  revert seen man work. induction ms as [|m ms IH]; intros seen man work; cbn [extract].
  { destruct stop; [|done|done]. intros [= <- <-]. split_and!; [done|constructor|done|by left]. }
  case_bool_decide as Hseen; [done|]. case_bool_decide as Hin; [|done]. cbn [orb negb]. case_bool_decide as Hk; [|done]. cbn [negb].
  assert (Hgo : forall man0 work0, (forall n data, work0 !! n = Some data -> work !! n = Some data \/ mkMember n Regular data = m) ->
    extract ms stop (mb_name m :: seen) man0 work0 = Ok (man', work') ->
    stop = Complete /\ NoDup (map mb_name (m :: ms)) /\
    Forall (fun m => mb_kind m = Regular /\ mb_name m ∈ MANIFEST :: PARTS /\ mb_name m ∉ seen) (m :: ms) /\
    forall n data, work' !! n = Some data -> work !! n = Some data \/ mkMember n Regular data ∈ m :: ms).
  { intros man0 work0 H0 H. apply IH in H as (-> & Hnd & Hall & Hw). rewrite Forall_forall in Hall. split_and!; [done| | |].
    - cbn [map]. apply NoDup_cons. split; [|done]. intros (m' & E & Hm')%list_elem_of_fmap. apply (Hall m' Hm'). rewrite <- E. by left.
    - apply Forall_cons_2; [done|]. apply Forall_forall. intros m' Hm'. specialize (Hall m' Hm'). set_solver.
    - intros n data Hn. destruct (Hw n data Hn) as [Hn'|Hn']; [|right; by right]. destruct (H0 n data Hn') as [|<-]; [by left|right; by left]. }
  destruct (String.eqb_spec (mb_name m) MANIFEST) as [E|E].
  - destruct (MANIFEST_LIMIT <? size (mb_data m)); [done|]. destruct (loads (mb_data m)) as [j|]; [|done].
    destruct (from_json j) as [x|]; [|done]. cbn [mbind result_bind]. apply Hgo. by left.
  - apply Hgo. intros n data [[<- <-]|[_ H]]%lookup_insert_Some; [right|by left]. destruct m as [mn mk md]. simpl in *. by subst mk.
Qed.

Lemma check_parts_sound parts work :
  check_parts parts work = Ok tt ->
  Forall (fun p => exists data h, work !! p.1 = Some data /\ (assoc "bytes"%string p.2 ≫= py_int) = Some (size data) /\
    assoc "sha256"%string p.2 = Some h /\ py_eq (JStr (sha256 data)) h = true) parts.
Proof using Type.
  clear L.
  induction parts as [|[name expected] parts IH]; [done|]. cbn [check_parts]. destruct (work !! name) as [data|] eqn:Ew; [|done].
  destruct (assoc "bytes" expected) as [v|] eqn:Eb; [|done]. destruct (py_int v) as [n|] eqn:En; [|done].
  destruct (Z.eqb_spec (size data) n) as [<-|]; [|done]. cbn [negb]. destruct (assoc "sha256" expected) as [h|] eqn:Eh; [|done].
  destruct (py_eq (JStr (sha256 data)) h) eqn:Ehh; [|done]. intros H. apply Forall_cons_2; [|by apply IH].
  cbn [fst snd]. exists data, h. rewrite Eb. cbn. auto.
Qed.

(** What a restore takes from a verified backup. *)
Definition reads (v : VerifiedBackup (B := B)) (name : string) (data : B) : Prop :=
  name = PART_DATABASE /\ vb_database v = Some data \/ name = PART_DOCUMENTS /\ vb_documents v = Some data \/
  name = PART_MASTER_KEY /\ vb_master_key v = Some data.

(** A complete tar file of regular files with distinct expected names, in which what a restore reads has
    the size and the digest that the manifest lists. *)
Record as_listed (archive : B) (v : VerifiedBackup (B := B)) (ms : list (Member B)) : Prop := {
  al_members : read_tgz archive = Members ms Complete;
  al_distinct : NoDup (map mb_name ms);
  al_expected : Forall (fun m => mb_kind m = Regular /\ mb_name m ∈ MANIFEST :: PARTS) ms;
  al_database : is_Some (vb_database v);
  al_documents : is_Some (vb_documents v);
  al_key : mf_includes_master_key (vb_manifest v) = true -> is_Some (vb_master_key v);
  al_listed : forall name data, reads v name data ->
      mkMember name Regular data ∈ ms /\
      exists expected h, (name, expected) ∈ mf_parts (vb_manifest v) /\ (assoc "bytes"%string expected ≫= py_int) = Some (size data) /\
        assoc "sha256"%string expected = Some h /\ py_eq (JStr (sha256 data)) h = true
}.

Lemma verified_as_listed archive v : verify_archive archive = Ok v -> exists ms, as_listed archive v ms.
Proof using Type.
  clear L.
  unfold verify_archive. destruct (read_tgz archive) as [|ms stop] eqn:Er; [done|].
  destruct (extract ms stop [] None ∅) as [[[man|] work]|] eqn:Ex; [|done|done]. cbn [mbind result_bind fst snd].
  apply extract_sound in Ex as (-> & Hnd & Hall & Hw).
  destruct (mf_format_version man =? FORMAT_VERSION); [|done]. cbn [negb]. destruct (forallb _ _) eqn:Hreq; [|done].
  destruct (forallb _ (map fst _)) eqn:Hnames; [|done]. cbn [andb negb]. destruct (check_parts (mf_parts man) work) as [[]|] eqn:Ec; [|done].
  intros [= <-]. apply check_parts_sound in Ec. rewrite Forall_forall in Ec. rewrite forallb_forall in Hreq.
  assert (Hpart : forall name, name ∈ [PART_DATABASE; PART_DOCUMENTS] ++ (if mf_includes_master_key man then [PART_MASTER_KEY] else []) ->
    exists data expected h, work !! name = Some data /\ (name, expected) ∈ mf_parts man /\ (assoc "bytes"%string expected ≫= py_int) = Some (size data) /\
      assoc "sha256"%string expected = Some h /\ py_eq (JStr (sha256 data)) h = true).
  { intros name Hin. apply list_elem_of_In, Hreq, bool_decide_eq_true in Hin. apply list_elem_of_fmap in Hin as ([n expected] & -> & Hin).
    destruct (Ec _ Hin) as (data & h & H0 & H). by exists data, expected, h. }
  destruct (Hpart PART_DATABASE ltac:(set_solver)) as (dump & e1 & h1 & E1 & H1). destruct (Hpart PART_DOCUMENTS ltac:(set_solver)) as (docs & e2 & h2 & E2 & H2).
  exists ms. split; unfold reads, vb_database, vb_documents, vb_master_key; cbn [vb_files vb_manifest]; rewrite ?E1, ?E2; [done|done| |by eexists|by eexists| |].
  - eapply Forall_impl; [exact Hall|]. naive_solver.
  - intros Hk. rewrite Hk in Hpart |- *. destruct (Hpart PART_MASTER_KEY ltac:(set_solver)) as (k & e3 & h3 & E3 & _). rewrite E3. by eexists.
  - assert (Hmem : forall name data, work !! name = Some data -> mkMember name Regular data ∈ ms).
    { intros name data H. destruct (Hw name data H) as [H'|H']; [by rewrite lookup_empty in H'|done]. }
    intros name data [[-> [= <-]]|[[-> [= <-]]|[-> Hk]]]; [split; [by apply Hmem|by exists e1, h1]|split; [by apply Hmem|by exists e2, h2]|].
    destruct (mf_includes_master_key man) eqn:Ei; [|done]. destruct (Hpart PART_MASTER_KEY ltac:(set_solver)) as (k & e3 & h3 & E3 & H3).
    rewrite Hk in E3. injection E3 as ->. split; [by apply Hmem|by exists e3, h3].
Qed.

(** ** Documents *)

(** Paths as the knowledge service writes them: a knowledge base and a file. *)
Definition plain_path (relative : string) : bool :=
  negb (is_absolute relative) &&
  match components relative with
  | [kb; f] => negb (String.eqb kb "..") && negb (String.eqb f "..") && negb (bool_decide (kb ∈ DOCUMENTS_SKIP))
  | _ => false
  end.

Lemma plain_components relative :
  plain_path relative = true -> is_absolute relative = false /\ exists kb f, components relative = [kb; f] /\ kb <> ".."%string /\ f <> ".."%string /\ kb ∉ DOCUMENTS_SKIP.
Proof.
  unfold plain_path. intros [Ha H]%andb_true_iff. split; [by apply negb_true_iff|]. destruct (components relative) as [|kb [|f [|]]]; try done.
  apply andb_true_iff in H as [[H1 H2]%andb_true_iff H3]. exists kb, f. split_and!; [done| | |]; apply negb_true_iff in H1, H2, H3.
  - by apply String.eqb_neq.
  - by apply String.eqb_neq.
  - by apply bool_decide_eq_false in H3.
Qed.

Lemma normal_id l : Forall (fun c => c <> ".."%string) l -> normal_path l = l.
Proof.
  intros H. unfold normal_path. assert (Hf : forall up, fold_left (fun up c => if String.eqb c ".." then tl up else c :: up) l up = rev l ++ up).
  { induction H as [|c l Hc _ IH]; intros up; [done|]. cbn [fold_left rev]. destruct (String.eqb_spec c ".."); [done|]. rewrite IH, <- app_assoc. done. }
  by rewrite Hf, app_nil_r, rev_involutive.
Qed.
Lemma below_app root p : below root (root ++ p) = Some p.
Proof. induction root as [|r root IH]; [done|]. cbn. by rewrite String.eqb_refl. Qed.
Lemma below_same p q : length p = length q -> is_Some (below p q) -> p = q.
Proof.
  revert q. induction p as [|x p IH]; intros [|y q]; cbn; try done. intros [= Hl]. destruct (String.eqb_spec x y) as [->|]; [|by intros []].
  intros H. f_equal. by apply IH.
Qed.

Context (Hdir : Forall (fun c => c <> ".."%string) documents_dir).

Lemma plain_below root relative p :
  Forall (fun c => c <> ".."%string) root -> plain_path relative = true -> components relative = p -> below root (normal_path (root ++ p)) = Some p.
Proof.
  intros Hr Hp <-. apply plain_components in Hp as (_ & kb & f & -> & H1 & H2 & _). rewrite normal_id; [apply below_app|].
  apply Forall_app_2; [done|]. by repeat (apply Forall_cons_2; [done|]).
Qed.

Lemma plain_inside relative : plain_path relative = true -> inside_root documents_dir relative = Some (components relative).
Proof. intros H. unfold inside_root. rewrite (proj1 (plain_components _ H)). by eapply plain_below. Qed.

(** The members of a documents archive. *)
Lemma tar_members found paths m :
  Forall (fun r => plain_path r = true) paths ->
  m ∈ (tar_documents documents_dir found paths).1 <->
  mb_name m ∈ paths /\ mb_kind m = Regular /\ found (components (mb_name m)) = Some (mb_data m).
Proof.
  induction 1 as [|r paths Hr _ IH]; cbn [tar_documents]; [set_solver|].
  destruct (tar_documents documents_dir found paths) as [ms st]. rewrite (plain_inside r Hr). cbn [fst] in *.
  destruct (found (components r)) as [data|] eqn:Ef; cbn [fst].
  - rewrite elem_of_cons, elem_of_cons, IH. split; [intros [->|]; naive_solver|]. intros ([E|Hin] & Hk & Hf); [left|by right].
    destruct m as [n k x]. simpl in *. subst. congruence.
  - rewrite elem_of_cons, IH. naive_solver congruence.
Qed.

Lemma tar_counts found paths :
  let '(ms, st) := tar_documents documents_dir found paths in
  dt_count st = Z.of_nat (length ms) /\ dt_count st + dt_missing st = Z.of_nat (length paths).
Proof.
  induction paths as [|r paths IH]; cbn [tar_documents]; [done|]. destruct (tar_documents documents_dir found paths) as [ms st].
  destruct (inside_root documents_dir r) as [p|]; [destruct (found p)|]; cbn [length dt_count dt_missing]; lia.
Qed.

(** Extraction puts every member where its path says. *)
Lemma extract_plain (ms : list (Member B)) (new : Documents) :
  Forall (fun m => plain_path (mb_name m) = true) ms -> map_Forall (fun p _ => length p = 2%nat) new ->
  extractall documents_dir ms new = (foldl (fun new m => <[components (mb_name m) := mb_data m]> new) new ms, Ok tt).
Proof.
  intros Hms. revert new. induction Hms as [|m ms Hm _ IH]; intros new Hnew; [done|]. cbn [extractall foldl].
  destruct (plain_components _ Hm) as (_ & kb & f & Ep & _).
  assert (E : extract_member documents_dir m new = Ok (<[components (mb_name m) := mb_data m]> new)).
  { unfold extract_member. rewrite (plain_below _ (mb_name m) _); [|apply Forall_app_2; [done|by apply Forall_cons_2]|done|done].
    rewrite Ep at 1. cbn [existsb]. destruct (existsb _ _) eqn:Ex; [|done]. exfalso.
    apply existsb_exists in Ex as (q & Hq & Hc). apply list_elem_of_In, list_elem_of_fmap in Hq as ([q' x] & -> & Hq). apply elem_of_map_to_list in Hq.
    apply Hnew in Hq. cbn [fst] in *. reflect_all. apply H. assert (Hl : length q' = length (components (mb_name m))) by (by rewrite Ep).
    destruct H0 as [H0|H0]; apply bool_decide_eq_true in H0; [by apply below_same|symmetry; by apply below_same]. }
  rewrite E. apply IH. apply map_Forall_insert_2; [by rewrite Ep|done].
Qed.

(** The files of the documents archive of a backup. *)
Definition documents_of (ms : list (Member B)) : Documents := foldl (fun new m => <[components (mb_name m) := mb_data m]> new) ∅ ms.

Lemma documents_lookup ms p x :
  (forall m m', m ∈ ms -> m' ∈ ms -> components (mb_name m) = components (mb_name m') -> mb_data m = mb_data m') ->
  documents_of ms !! p = Some x <-> exists m, m ∈ ms /\ components (mb_name m) = p /\ mb_data m = x.
Proof.
  unfold documents_of. induction ms as [|m ms IH] using rev_ind; intros Hsame; [set_solver|]. rewrite foldl_snoc, lookup_insert_Some.
  rewrite IH by (intros; apply Hsame; set_solver). split.
  - intros [[<- <-]|[_ (m' & Hm' & E & E')]]; [exists m; set_solver|exists m'; set_solver].
  - intros (m' & [Hm'|E]%elem_of_app & <- & <-); [|apply list_elem_of_singleton in E as ->; by left].
    destruct (decide (components (mb_name m) = components (mb_name m'))) as [E|]; [left|right; eauto]. split; [done|]. apply Hsame; set_solver.
Qed.

Lemma restored_store (ms : list (Member B)) (store : Documents) :
  Forall (fun m => plain_path (mb_name m) = true /\ mb_kind m = Regular) ms ->
  restore_documents documents_dir (write_tar ms) store = (under [".staging"%string] store ∪ documents_of ms, Ok (Z.of_nat (length ms))).
Proof.
  intros Hms. assert (Hp : Forall (fun m => plain_path (mb_name m) = true) ms) by (eapply Forall_impl; [exact Hms|by intros ? []]).
  unfold restore_documents. rewrite read_write_tar by (eapply Forall_impl; [exact Hms|by intros ? []]).
  assert (Ef : List.filter (fun m => bool_decide (mb_kind m = Regular)) ms = ms).
  { clear Hp. induction Hms as [|m ms [_ Hk] _ IH]; [done|]. cbn. rewrite bool_decide_true by done. by f_equal. }
  rewrite Ef, (extract_plain ms ∅ Hp) by apply map_Forall_empty. fold (documents_of ms).
  assert (Hs : under [".staging"%string] (outside_of [".restore-new"; ".restore-old"]%string store) = under [".staging"%string] store).
  { unfold under, outside_of. rewrite map_filter_filter. apply map_filter_ext. intros p x _. cbn [fst]. split; [by intros []|].
    intros H. split; [done|]. apply list_elem_of_singleton in H as ->. apply (bool_decide_unpack _). vm_compute. done. }
  rewrite Hs. rewrite bool_decide_true; [done|]. unfold under. apply map_empty_filter. intros p x Hl.
  assert (Htop : top p ∉ DOCUMENTS_SKIP).
  { revert Hl. unfold documents_of. clear Hms Ef. revert p x. induction ms as [|m ms IH] using rev_ind; intros p x; [cbn [foldl]; by rewrite lookup_empty|].
    apply Forall_app in Hp as [Hp [Hm _]%Forall_cons]. rewrite foldl_snoc, lookup_insert_Some. intros [[<- _]|[_ Hl]]; [|by eapply IH].
    by destruct (plain_components _ Hm) as (_ & kb & f & -> & _ & _ & Hkb). }
  unfold DOCUMENTS_SKIP in Htop. cbn [fst]. case_bool_decide; set_solver.
Qed.

(** ** Restoring *)

(** The key file after a restore. *)
Definition key_after (args : RestoreArgs) (t : Taken) (old : option (KeyFile (B := B))) : option (KeyFile (B := B)) :=
  match (if ra_restore_key args then tk_key t else None) with Some k => Some (write_key args k old) | None => old end.

Definition taken_paths (t : Taken) : list string := default [] (db_documents (tk_database t)).

Lemma paths_taken t : (snapshot_facts (tk_database t)).2 ≡ₚ taken_paths t.
Proof. unfold snapshot_facts, taken_paths. cbn [snd]. destruct (db_documents (tk_database t)); cbn; [apply merge_sort_Permutation|done]. Qed.

Lemma taken_counts t :
  Z.of_nat (length (taken_documents documents_dir t).1) + dt_missing (taken_documents documents_dir t).2 = Z.of_nat (length (taken_paths t)).
Proof.
  rewrite <- (Permutation_length (paths_taken t)). pose proof (tar_counts (tk_found t) (snapshot_facts (tk_database t)).2) as H.
  unfold taken_documents. destruct (tar_documents _ _ _) as [ms st]. cbn [fst snd]. lia.
Qed.

Lemma taken_documents_plain t :
  Forall (fun r => plain_path r = true) (taken_paths t) ->
  Forall (fun m => plain_path (mb_name m) = true /\ mb_kind m = Regular) (taken_documents documents_dir t).1 /\
  forall p x, documents_of (taken_documents documents_dir t).1 !! p = Some x <-> exists r, r ∈ taken_paths t /\ components r = p /\ tk_found t p = Some x.
Proof.
  intros Hp. assert (Hp' : Forall (fun r => plain_path r = true) (snapshot_facts (tk_database t)).2) by by rewrite paths_taken.
  assert (Hm : forall m, m ∈ (taken_documents documents_dir t).1 <->
    mb_name m ∈ taken_paths t /\ mb_kind m = Regular /\ tk_found t (components (mb_name m)) = Some (mb_data m)).
  { intros m. unfold taken_documents. rewrite (tar_members _ _ _ Hp'), (paths_taken t). done. }
  rewrite Forall_forall in Hp. split.
  - apply Forall_forall. intros m (Hn & Hk & _)%Hm. auto.
  - intros p x. rewrite documents_lookup.
    + setoid_rewrite Hm. split; [intros (m & (Hn & _ & Hf) & <- & <-); eauto|]. intros (r & Hr & <- & Hf). by exists (mkMember r Regular x).
    + intros m m' (_ & _ & H)%Hm (_ & _ & H')%Hm E. rewrite E in H. congruence.
Qed.

Lemma restored_lookup (t : Taken) (store : Documents) :
  Forall (fun r => plain_path r = true) (taken_paths t) ->
  forall p x, (under [".staging"%string] store ∪ documents_of (taken_documents documents_dir t).1) !! p = Some x <->
    top p = ".staging"%string /\ store !! p = Some x \/ exists r, r ∈ taken_paths t /\ components r = p /\ tk_found t p = Some x.
Proof.
  intros Hp p x. destruct (taken_documents_plain t Hp) as [_ Hlook]. unfold under. rewrite lookup_union_Some.
  - rewrite Hlook, map_lookup_filter_Some. cbn [fst]. rewrite list_elem_of_singleton. naive_solver.
  - apply map_disjoint_spec. intros q a b [_ Ht]%map_lookup_filter_Some Hb. apply Hlook in Hb as (r & Hr & <- & _).
    rewrite Forall_forall in Hp. destruct (plain_components r (Hp r Hr)) as (_ & kb & f & E & _ & _ & Hs).
    rewrite E in Ht. cbn in Ht. apply list_elem_of_singleton in Ht as ->. apply Hs. by left.
Qed.

Lemma accepted_taken args release t v (dev : Device (B := B) (R := R)) :
  verify_archive (taken_archive t) = Ok v -> vb_manifest v = read_back t -> vb_master_key v = tk_key t ->
  ra_force args = true \/ dv_sessions dev <= 0 ->
  (ra_restore_key args = true -> is_Some (tk_key t) /\ ra_key_file args = true) ->
  (forall h, (snapshot_facts (tk_database t)).1 = Some h -> h ∈ rl_known release) ->
  admission args release (taken_archive t) dev = Ok (v, rl_head release).
Proof.
  intros Hv Hm Hk Hs Hr Hh. unfold admission. replace (negb (ra_force args) && (0 <? dv_sessions dev)) with false.
  2:{ symmetry. destruct Hs as [->|Hs]; [done|]. apply andb_false_iff. right. by apply Z.ltb_ge. }
  rewrite Hv. cbn [mbind result_bind]. rewrite Hm. unfold check_compatible. cbn [read_back mf_migration_head Backup.taken_manifest].
  assert (Ec : match JStr <$> (snapshot_facts (tk_database t)).1 with
     | None => Ok (rl_head release)
     | Some (JStr h) => if bool_decide (h ∈ rl_known release) then Ok (rl_head release) else Err (BackupError "BACKUP_TOO_NEW")
     | Some (JList _) | Some (JObj _) => Err (Raised "TypeError")
     | Some _ => Err (BackupError "BACKUP_TOO_NEW")
     end = Ok (rl_head release)).
  { destruct (snapshot_facts (tk_database t)).1 as [h|]; [|done]. cbn. by rewrite bool_decide_true by auto. }
  rewrite Ec. cbn [mbind result_bind]. rewrite Hk. destruct (ra_restore_key args); [|done]. destruct (Hr eq_refl) as [[k ->] ->]. done.
Qed.

(** C22: restoring an archive that [create_backup] wrote gives back what it took, on any device and over
    any earlier contents: the migrated snapshot, with the accounts marked whose secrets the device's
    key does not open, exactly the documents its rows point at beside the uploads in flight, and the
    master key only when asked for. *)
Theorem backup_restores args release t (dev : Device (B := B) (R := R)) db keyring :
  fits t -> Forall (fun r => plain_path r = true) (taken_paths t) ->
  ra_force args = true \/ dv_sessions dev <= 0 ->
  (ra_restore_key args = true -> is_Some (tk_key t) /\ ra_key_file args = true) ->
  (forall h, (snapshot_facts (tk_database t)).1 = Some h -> h ∈ rl_known release) ->
  rl_upgrade release (tk_database t) = Some db ->
  load_keyring (if ra_key_file args then key_after args t (dv_key dev) else None) = Ok keyring -> never_breaks keyring db ->
  exists dev' report check db' row, restore documents_dir args release (taken_archive t) dev = (dev', Ok report) /\
    check_secrets keyring db = Ok (check, db') /\ dv_database dev' = db' <| db_restores ::= fun l => l ++ [row] |> /\
    rr_secrets report = check /\ rr_head report = rl_head release /\ dv_key dev' = key_after args t (dv_key dev) /\
    rr_documents report + dt_missing (taken_documents documents_dir t).2 = Z.of_nat (length (taken_paths t)) /\
    forall p x, dv_documents dev' !! p = Some x <->
      top p = ".staging"%string /\ dv_documents dev !! p = Some x \/ exists r, r ∈ taken_paths t /\ components r = p /\ tk_found t p = Some x.
Proof.
  intros Hf Hp Hs Hr Hh Hup Hk Hb. destruct (taken_verified t Hf) as (v & Hv & Hm & Hdb & Hdocs & Hkey).
  destruct (taken_documents_plain t Hp) as [Hreg Hlook].
  pose proof (restored_lookup t (dv_documents dev) Hp) as Hunion.
  destruct (unreadable_ids keyring (db_secrets db) Hb) as (bad & Ebad & _).
  assert (Hchk : exists check db', check_secrets keyring db = Ok (check, db')).
  { unfold check_secrets. rewrite Ebad. cbn [mbind result_bind]. destruct bad; eauto. }
  destruct Hchk as (check & db' & Hchk).
  unfold restore. rewrite (accepted_taken args release t v dev Hv Hm Hkey Hs Hr Hh), Hdb. cbn [mbind option_bind]. rewrite restore_dump, Hdocs.
  rewrite restored_store by done. cbn zeta. rewrite Hup, Hkey.
  assert (Hck : (keyring0 ← load_keyring (if ra_key_file args then key_after args t (dv_key dev) else None); check_secrets keyring0 db) = Ok (check, db')) by (rewrite Hk; exact Hchk).
  unfold key_after in *. destruct (if ra_restore_key args then tk_key t else None) as [k|] eqn:Ek; cbn in Hck |- *; rewrite Hck.
  all: eexists _, _, check, db', _; split_and!; [reflexivity|done|reflexivity|reflexivity|reflexivity|reflexivity|apply taken_counts|exact Hunion].
Qed.

End props.
