(* ===== verification/Untrusted.v ===== *)
(** * Evidence blocks in prompts of agents ([python_sdk/untrusted.py])

    The SDK delimits untrusted text with markers that carry a random boundary, and removes the
    boundary from the text first. *)

From S2P Require Import Prelude Redaction A1 Chunking Evidence JsonGuard.
From Stdlib Require Import Ascii.
#[local] Open Scope nat_scope.

(** [s.replace(old, new)] for a non-empty [old]: occurrences from the left, none overlapping,
    the result not searched again. *)
Fixpoint replace_fuel (fuel : nat) (old new s : text) : text :=
  match fuel with
  | O => s
  | S fuel' =>
      match s with
      | [] => []
      | c :: s' =>
          match expect old s with
          | Some rest => new ++ replace_fuel fuel' old new rest
          | None => c :: replace_fuel fuel' old new s'
          end
      end
  end.
Definition replace_all (old new s : text) : text := replace_fuel (length s) old new s.

(** [re.sub(r"[\s>]", "_", ref) or "_"] *)
Definition clean_ref (ref : text) : text :=
  match map (fun c => if is_space c || Ascii.eqb c ">" then "_"%char else c) ref with
  | [] => ["_"%char]
  | r => r
  end.

(** [re.sub(r"\s+", " ", s)]; [in_run] tells whether the last character was white space. *)
Fixpoint squeeze (in_run : bool) (s : text) : text :=
  match s with
  | [] => []
  | c :: s' => if is_space c then (if in_run then [] else [" "%char]) ++ squeeze true s' else c :: squeeze false s'
  end.

Definition clean_source (source : text) : text :=
  replace_all (chars "boundary=") [] (replace_all (chars ">>>") [] (squeeze false source)).

Definition end_marker (boundary : text) : text := chars "<<<END EVIDENCE boundary=" ++ boundary ++ chars ">>>".

(** The text that is put between the markers. *)
Definition evidence_body (t boundary : text) : text := replace_all boundary [] t.

Definition evidence (t ref source boundary : text) : text :=
  chars "<<<EVIDENCE ref=" ++ clean_ref ref ++ chars " source=" ++ clean_source source ++ chars " boundary=" ++ boundary ++
  chars ">>>" ++ [newline] ++ evidence_body t boundary ++ [newline] ++ end_marker boundary.

(** ** What cleaning guarantees *)

Lemma expect_spec p s rest : expect p s = Some rest <-> s = p ++ rest.
Proof.
  split; [|intros ->; apply expect_app]. revert s. induction p as [|a p IH]; intros s; simpl; [by intros [= ->]|].
  destruct s as [|c s]; [done|]. destruct (Ascii.eqb_spec a c) as [->|]; [|done]. intros H. by rewrite (IH _ H).
Qed.

Lemma contains_spec p s : contains_text p s = true <-> exists a b, s = a ++ p ++ b.
Proof.
  induction s as [|c s IH]; cbn [contains_text].
  - destruct (expect p []) eqn:E.
    + split; [intros _|done]. apply expect_spec in E. by exists [], l.
    + split; [done|]. intros (a & b & H). symmetry in H. apply app_eq_nil in H as [_ H]. by apply app_eq_nil in H as [-> _].
  - destruct (expect p (c :: s)) eqn:E.
    + split; [intros _|done]. apply expect_spec in E. by exists [], l.
    + rewrite IH. split.
      * intros (a & b & ->). by exists (c :: a), b.
      * intros ([|c' a] & b & H); [|injection H as _ ->; by exists a, b].
        simpl in H. exfalso. apply (proj2 (expect_spec p _ b)) in H. congruence.
Qed.

Lemma replace_absent fuel old new s : contains_text old s = false -> replace_fuel fuel old new s = s.
Proof.
  revert s. induction fuel as [|fuel IH]; intros s Hs; [done|]. cbn [replace_fuel]. destruct s as [|c s]; [done|].
  cbn [contains_text] in Hs. destruct (expect old (c :: s)); [done|]. by rewrite IH.
Qed.

(** Reading up to the first occurrence of a marker. *)
Fixpoint cut (marker s : text) : option (text * text) :=
  match expect marker s with
  | Some rest => Some ([], rest)
  | None => match s with
            | [] => None
            | c :: s' => match cut marker s' with Some (a, b) => Some (c :: a, b) | None => None end
            end
  end.

Lemma cut_first marker body rest :
  (forall i, i < length body -> expect marker (drop i body ++ marker ++ rest) = None) ->
  cut marker (body ++ marker ++ rest) = Some (body, rest).
Proof.
  induction body as [|c body IH]; intros H; cbn [app].
  - destruct (marker ++ rest) as [|x y] eqn:E; cbn [cut]; rewrite <- E, expect_app; done.
  - pose proof (H 0 ltac:(simpl; lia)) as H0. cbn [drop app] in H0. cbn [cut]. rewrite H0, IH; [done|]. intros i Hi. apply (H (S i)). simpl. lia.
Qed.

(** Untrusted text stays between its markers.  As long as the text, once the boundary has
    been removed from it, does not contain the boundary, a reader that stops at the first end
    marker of the block reads exactly that text, however it is made up and whatever follows
    the block. *)
Theorem evidence_delimited t boundary rest :
  ~ newline ∈ boundary -> contains_text boundary (evidence_body t boundary) = false ->
  cut ([newline] ++ end_marker boundary) (evidence_body t boundary ++ [newline] ++ end_marker boundary ++ rest)
  = Some (evidence_body t boundary, rest).
Proof.
  intros Hnl Hfree. set (body := evidence_body t boundary) in *. set (m := [newline] ++ end_marker boundary).
  replace (body ++ [newline] ++ end_marker boundary ++ rest) with (body ++ m ++ rest) by (unfold m; by rewrite <- app_assoc).
  apply cut_first. intros i Hi. destruct (expect m _) as [r|] eqn:E; [|done]. exfalso. apply expect_spec in E.
  assert (Hm : forall k, 0 < k -> m !! k <> Some newline).
  { intros k Hk Hx. unfold m, end_marker in Hx. destruct k as [|k]; [lia|]. cbn [app] in Hx.
    change ((chars "<<<END EVIDENCE boundary=" ++ boundary ++ chars ">>>") !! k = Some newline) in Hx.
    apply list_elem_of_lookup_2 in Hx. apply elem_of_app in Hx as [Hx|[Hx|Hx]%elem_of_app]; [|done|].
    - revert Hx. apply (bool_decide_eq_false_1 (newline ∈ _)). by vm_compute.
    - revert Hx. apply (bool_decide_eq_false_1 (newline ∈ _)). by vm_compute. }
  destruct (decide (i + length m <= length body)) as [Hle|Hgt].
  - apply not_true_iff_false in Hfree. apply Hfree, contains_spec.
    assert (Hd : exists q, drop i body = m ++ q).
    { exists (take (length (drop i body) - length m) r). apply (f_equal (take (length (drop i body)))) in E. rewrite take_app_length in E.
      rewrite take_app_ge in E by (rewrite length_drop; lia). done. }
    destruct Hd as [q Hd].
    exists (take i body ++ newline :: chars "<<<END EVIDENCE boundary="), (chars ">>>" ++ q).
    rewrite <- (take_drop i body) at 1. rewrite Hd. unfold m, end_marker. rewrite <- !app_assoc. done.
  - apply (Hm (length body - i)); [lia|].
    assert (Hx : (m ++ r) !! (length body - i) = Some newline).
    { rewrite <- E, lookup_app_r by (rewrite length_drop; lia). rewrite length_drop, Nat.sub_diag. done. }
    rewrite lookup_app_l in Hx by lia. done.
Qed.
