(* ===== verification/SchedulesApi.v ===== *)
(** * Schedules ([control_api/routers/schedules.py])

    Creating, changing, deleting and previewing schedules, as effects inside the idempotent
    routes of [Idempotency], and how they work together with the scheduler's tick.  Of the
    answer only the columns and the upcoming occurrences are modelled (the agent's name and
    the readiness checks are rendered by services). *)

From S2P Require Import Prelude TimeUtil Json Redaction JsonText SchemaGuard States Jobs RunModel RunService RunInv.
From S2P Require Import RunOps Platform Cron Chaining Scheduler Idempotency Pagination PyValue Manifest Catalog Readiness.
From S2P Require Import Installations.
#[local] Open Scope Z_scope.

Record ScheduleCreateIn := mkScheduleCreate {
  sc_installation_id : uuid;
  sc_cron : string;
  sc_timezone : string;
  sc_misfire_policy : MisfirePolicy;
  sc_enabled : bool
}.

Record SchedulePatchIn := mkSchedulePatch {
  sp_version : Z;
  sp_cron : option string;
  sp_timezone : option string;
  sp_misfire_policy : option MisfirePolicy;
  sp_enabled : option bool
}.

Definition policy_str (p : MisfirePolicy) : string :=
  match p with fire_once => "fire_once" | skip => "skip" end.

Section api.
Context {clk : Clock} {lib : CronLib}.

(** [views.schedule_out] *)
Definition schedule_out (s : Schedule) : Result PlatformError Json :=
  let columns upcoming := JObj [
    ("id", JStr (uuid_str (sch_id s))); ("installationId", JStr (uuid_str (sch_installation_id s)));
    ("cron", JStr (sch_cron s)); ("timezone", JStr (sch_timezone s));
    ("misfirePolicy", JStr (policy_str (sch_misfire_policy s))); ("enabled", JBool (sch_enabled s));
    ("nextRunAt", match sch_next_run_at s with Some t => JStr (isoformat t) | None => JNull end);
    ("nextOccurrences", JList (map (fun t => JStr (isoformat t)) upcoming));
    ("lastFiredAt", match sch_last_fired_at s with Some t => JStr (isoformat t) | None => JNull end);
    ("lastRunId", match sch_last_run_id s with Some u => JStr (uuid_str u) | None => JNull end);
    ("version", JNum (sch_version s))]%string in
  match sch_enabled s, sch_next_run_at s with
  | true, Some first =>
      match next_occurrences (sch_cron s) (sch_timezone s) first 2 with
      | Ok rest => Ok (columns (first :: rest))
      | Err e => Err e
      end
  | _, _ => Ok (columns [])
  end.

Definition user_audit (user : uuid) (action : string) (sid : uuid) (metadata : Json) : PM unit :=
  modify (fun d => d <| db_audit ::= fun l => l ++
    [mkAudit "user" (Some (uuid_str user)) action (Some "schedule"%string) (Some (uuid_str sid)) "success"
       (redact metadata)] |>).

(** [_installation]: an installation of the user that is not deleted. *)
Definition owned_installation (iid user : uuid) : PM AgentInstallation :=
  let! d := get in
  match db_installations d !! iid with
  | Some i => if (ins_user_id i =? user)%N && negb (bool_decide (is_Some (ins_deleted_at i))) then ret i
              else raise (not_found (uuid_str iid))
  | None => raise (not_found (uuid_str iid))
  end.

(** [_schedule]: a schedule of the user's installations that is not deleted. *)
Definition owned_schedule (sid user : uuid) : PM Schedule :=
  let! d := get in
  match db_schedules d !! sid with
  | Some s =>
      match db_installations d !! sch_installation_id s with
      | Some i => if (ins_user_id i =? user)%N && negb (bool_decide (is_Some (sch_deleted_at s))) then ret s
                  else raise (not_found (uuid_str sid))
      | None => raise (not_found (uuid_str sid))
      end
  | None => raise (not_found (uuid_str sid))
  end.

(** [next_occurrence(cron, timezone, utcnow()) if enabled else None] *)
Definition next_run (cron timezone : string) (enabled : bool) : PM (option instant) :=
  if enabled then
    let! now := db_utcnow in
    let! t := lift (next_occurrence cron timezone now) in
    ret (Some t)
  else ret None.

Definition put_schedule (s : Schedule) : PM unit := modify (fun d => d <| db_schedules ::= <[sch_id s := s]> |>).

Definition create_schedule (user : uuid) (body : ScheduleCreateIn) : PM (Z * option Json) :=
  let! installation := owned_installation (sc_installation_id body) user in
  let! version := gets (fun d => db_versions d !! ins_agent_version_id installation) in
  match version with
  | None => raise UNEXPECTED
  | Some v =>
      let! spec := item "spec" (ver_manifest v) in
      let! triggers := item "triggers" spec in
      guard (json_in "schedule" triggers) (conflict "TRIGGER_NOT_SUPPORTED" []) ;;
      let! cron := lift (validate_cron (sc_cron body)) in
      lift (validate_timezone (sc_timezone body)) ;;
      let! next := next_run cron (sc_timezone body) (sc_enabled body) in
      let! id := db_uuid7 in
      let s := mkSchedule id (ins_id installation) cron (sc_timezone body) next (sc_misfire_policy body)
                 (sc_enabled body) None None 1 None in
      put_schedule s ;;
      user_audit user "schedule.created" id
        (JObj [("cron", JStr cron); ("timezone", JStr (sc_timezone body));
               ("misfirePolicy", JStr (policy_str (sc_misfire_policy body)))]%string) ;;
      let! out := lift (schedule_out s) in
      ret (201, Some out)
  end.

(** The assignments of [update_schedule], with the changed fields for the audit log. *)
Definition patched_cron (b : SchedulePatchIn) (s : Schedule) : PM Schedule :=
  match sp_cron b with
  | Some c => let! cron := lift (validate_cron c) in ret (s <| sch_cron := cron |>)
  | None => ret s
  end.
Definition patched_timezone (b : SchedulePatchIn) (s : Schedule) : PM Schedule :=
  match sp_timezone b with
  | Some tz => lift (validate_timezone tz) ;; ret (s <| sch_timezone := tz |>)
  | None => ret s
  end.

Definition reschedules (b : SchedulePatchIn) : bool :=
  bool_decide (is_Some (sp_cron b)) || bool_decide (is_Some (sp_timezone b)) || bool_decide (is_Some (sp_enabled b)).

Definition changes (b : SchedulePatchIn) (s : Schedule) : Json :=
  JObj (match sp_cron b with Some _ => [("cron"%string, JStr (sch_cron s))] | None => [] end ++
        match sp_timezone b with Some tz => [("timezone"%string, JStr tz)] | None => [] end ++
        match sp_misfire_policy b with Some p => [("misfirePolicy"%string, JStr (policy_str p))] | None => [] end ++
        match sp_enabled b with Some e => [("enabled"%string, JBool e)] | None => [] end).

Definition update_schedule (sid user : uuid) (b : SchedulePatchIn) : PM (Z * option Json) :=
  let! s := owned_schedule sid user in
  guard (sch_version s =? sp_version b)
    (conflict "VERSION_CONFLICT" [("currentVersion"%string, JNum (sch_version s))]) ;;
  let! s := patched_cron b s in
  let! s := patched_timezone b s in
  let s := s <| sch_misfire_policy ::= fun p => default p (sp_misfire_policy b) |>
             <| sch_enabled ::= fun e => default e (sp_enabled b) |> in
  let! s := (if reschedules b then
               let! next := next_run (sch_cron s) (sch_timezone s) (sch_enabled s) in
               ret (s <| sch_next_run_at := next |>)
             else ret s) in
  let s := s <| sch_version ::= Z.succ |> in
  put_schedule s ;;
  user_audit user "schedule.updated" (sch_id s) (changes b s) ;;
  let! out := lift (schedule_out s) in
  ret (200, Some out).

(** The schedules of the user's installations, newest first. *)
Definition listed (user : uuid) (installation_id : option uuid) (d : DB) (s : Schedule) : bool :=
  match db_installations d !! sch_installation_id s with
  | Some i => (ins_user_id i =? user)%N
  | None => false
  end
  && negb (bool_decide (is_Some (sch_deleted_at s)))
  && match installation_id with Some i => (sch_installation_id s =? i)%N | None => true end.

Definition list_schedules (user : uuid) (installation_id : option uuid) (limit : Z) (cursor : option text)
    : PM (list Schedule * option text) :=
  let! d := get in
  let rows := List.filter (listed user installation_id d) (map snd (map_to_list (db_schedules d))) in
  lift (page_by_id rows sch_id limit cursor).

Definition delete_schedule (sid user : uuid) : PM (Z * option Json) :=
  let! s := owned_schedule sid user in
  let! now := db_utcnow in
  put_schedule (s <| sch_deleted_at := Some now |> <| sch_enabled := false |> <| sch_next_run_at := None |>) ;;
  user_audit user "schedule.deleted" (sch_id s) (JObj []) ;;
  ret (204, None).

Definition preview_schedule (cron timezone : string) (count : nat) : PM (string * list instant) :=
  let! cron := lift (validate_cron cron) in
  lift (validate_timezone timezone) ;;
  let! now := db_utcnow in
  let! times := lift (next_occurrences cron timezone now count) in
  ret (cron, times).
End api.

(** ** The table of schedules over time *)

Section invariant.
Context {clk : Clock} {lib : CronLib}.
Implicit Types (d : DB).

(** A schedule has a next run exactly while it is enabled, a deleted one is disabled (and keeps
    the time of its next run when its installation was uninstalled), and the zone was
    accepted. *)
Definition schedule_ok (s : Schedule) : Prop :=
  (sch_deleted_at s = None -> is_Some (sch_next_run_at s) <-> sch_enabled s = true) /\
  (is_Some (sch_deleted_at s) -> sch_enabled s = false) /\
  exists z, validate_timezone (sch_timezone s) = Ok z.

Definition schedules_ok (d : DB) : Prop :=
  forall sid s, db_schedules d !! sid = Some s -> sch_id s = sid /\ schedule_ok s.

(** Any interleaving of the API, uninstalling of agents, the scheduler and everything else. *)
Inductive sched_step : DB -> DB -> Prop :=
| ss_create d user body a d' : create_schedule user body d = Ok (a, d') -> sched_step d d'
| ss_update d sid user body a d' : update_schedule sid user body d = Ok (a, d') -> sched_step d d'
| ss_delete d sid user a d' : delete_schedule sid user d = Ok (a, d') -> sched_step d d'
| ss_uninstall d iid user a d' : delete_installation iid user d = Ok (a, d') -> sched_step d d'
| ss_tick d locked now grace rs d' : Scheduler.tick locked now grace d = Ok (rs, d') -> sched_step d d'
| ss_other d d' : db_schedules d' = db_schedules d -> sched_step d d'.

Lemma wp_next_run cron tz (enabled : bool) (Q : option instant -> DB -> Prop) d :
  (forall o t, (is_Some o <-> enabled = true) ->
     (forall u, o = Some u -> next_occurrence cron tz (wall (db_tick d)) = Ok u) -> Q o (d <| db_tick := t |>)) ->
  wp (next_run cron tz enabled) Q d.
Proof.
  intros HQ. unfold next_run. destruct enabled.
  - wp_step. apply wp_db_utcnow. wp_step. apply wp_lift. intros u Hu. apply wp_ret.
    apply (HQ (Some u) (S (db_tick d))); [split; [done|by eexists]|]. by intros ? [= <-].
  - apply wp_ret. specialize (HQ None (db_tick d)). destruct d. apply HQ; [|done]. split; [by intros []|done].
Qed.

Lemma wp_owned_schedule sid user (Q : Schedule -> DB -> Prop) d :
  (forall s, db_schedules d !! sid = Some s -> sch_deleted_at s = None -> Q s d) -> wp (owned_schedule sid user) Q d.
Proof.
  intros HQ. unfold owned_schedule. wp_step. apply wp_get. destruct (db_schedules d !! sid) as [s|] eqn:Hs; [|done].
  destruct (db_installations d !! _) as [i|]; [|done]. apply wp_if; intros Hc; [|done]. apply wp_ret. apply HQ; [done|].
  apply andb_true_iff in Hc as [_ Hn]. apply negb_true_iff, bool_decide_eq_false in Hn.
  by apply eq_None_not_Some.
Qed.

Lemma put_ok s d : schedules_ok d -> schedule_ok s -> schedules_ok (d <| db_schedules ::= <[sch_id s := s]> |>).
Proof.
  intros HD Hs sid x. simpl. intros [[<- <-]|[_ Hx]]%lookup_insert_Some; [done|by apply HD].
Qed.

Lemma ok_same d d' : db_schedules d' = db_schedules d -> schedules_ok d -> schedules_ok d'.
Proof. intros E HD sid s. rewrite E. apply HD. Qed.

Lemma create_ok user body d : schedules_ok d -> wp (create_schedule user body) (fun _ => schedules_ok) d.
Proof.
  intros HD. unfold create_schedule, owned_installation. do 2 wp_step. apply wp_get.
  destruct (db_installations d !! _) as [i|]; [|done]. apply wp_if; intros _; [|done]. apply wp_ret.
  wp_step. apply wp_gets. destruct (db_versions d !! _) as [v|]; [|done].
  do 2 (wp_step; apply wp_item; intros ?). wp_step. apply wp_guard; intros _.
  wp_step. apply wp_lift; intros cron _. wp_step. apply wp_lift; intros z Hz. wp_step.
  apply wp_next_run. intros o t Ho _. wp_step. apply wp_db_uuid7. unfold put_schedule, user_audit.
  wp_step. apply wp_modify. wp_step. apply wp_modify. wp_step. apply wp_lift; intros out _. apply wp_ret.
  set (s := mkSchedule _ _ _ _ _ _ _ _ _ _ _).
  eapply ok_same; [|apply (put_ok s d HD)]; [done|]. split_and!; [done|by intros []|by exists z].
Qed.

Lemma update_spec sid user b d :
  schedules_ok d ->
  wp (update_schedule sid user b) (fun _ d' => exists s s', db_schedules d !! sid = Some s /\
    sch_version s = sp_version b /\ sch_deleted_at s = None /\
    db_schedules d' = <[sid := s']> (db_schedules d) /\ schedule_ok s' /\ sch_id s' = sid /\
    sch_version s' = sch_version s + 1 /\ sch_deleted_at s' = None /\
    sch_enabled s' = default (sch_enabled s) (sp_enabled b) /\
    sch_misfire_policy s' = default (sch_misfire_policy s) (sp_misfire_policy b) /\
    sch_timezone s' = default (sch_timezone s) (sp_timezone b) /\
    match sp_cron b with Some c => validate_cron c = Ok (sch_cron s') | None => sch_cron s' = sch_cron s end /\
    (if reschedules b then
       forall u, sch_next_run_at s' = Some u ->
         next_occurrence (sch_cron s') (sch_timezone s') (wall (db_tick d)) = Ok u
     else sch_next_run_at s' = sch_next_run_at s)) d.
Proof.
  intros HD. unfold update_schedule. wp_step. apply wp_owned_schedule. intros s Hs Hdel.
  destruct (HD _ _ Hs) as (Hid & Hok1 & Hok2 & z & Hz). specialize (Hok1 Hdel).
  wp_step. apply wp_guard; intros Hv%Z.eqb_eq. wp_step.
  assert (H1 : wp (patched_cron b s) (fun s1 d1 => d1 = d /\ exists c, s1 = s <| sch_cron := c |> /\
    match sp_cron b with Some c0 => validate_cron c0 = Ok c | None => c = sch_cron s end) d).
  { unfold patched_cron. destruct (sp_cron b) as [c|].
    - wp_step. apply wp_lift; intros c' Hc. apply wp_ret. split; [done|]. by exists c'.
    - apply wp_ret. split; [done|]. exists (sch_cron s). by destruct s. }
  eapply wp_mono; [exact H1|]. intros s1 ? (-> & c & -> & Hc). clear H1. wp_step.
  assert (H2 : wp (patched_timezone b (s <| sch_cron := c |>)) (fun s2 d2 => d2 = d /\
    s2 = s <| sch_cron := c |> <| sch_timezone := default (sch_timezone s) (sp_timezone b) |> /\
    exists z, validate_timezone (sch_timezone s2) = Ok z) d).
  { unfold patched_timezone. destruct (sp_timezone b) as [tz|].
    - wp_step. apply wp_lift; intros z' Hz'. apply wp_ret. split_and!; try done. by exists z'.
    - apply wp_ret. split_and!; [done|by destruct s|by exists z]. }
  eapply wp_mono; [exact H2|]. intros s2 ? (-> & -> & Hz2). clear H2. cbv zeta.
  set (s3 := _ <| sch_misfire_policy ::= _ |> <| sch_enabled ::= _ |>).
  unfold put_schedule, user_audit. wp_step.
  assert (H3 : wp (if reschedules b then
      let! next := next_run (sch_cron s3) (sch_timezone s3) (sch_enabled s3) in ret (s3 <| sch_next_run_at := next |>)
      else ret s3) (fun s4 d4 => exists o t, d4 = d <| db_tick := t |> /\ s4 = s3 <| sch_next_run_at := o |> /\
        (is_Some o <-> sch_enabled s3 = true) /\
        if reschedules b then forall u, o = Some u -> next_occurrence (sch_cron s3) (sch_timezone s3) (wall (db_tick d)) = Ok u
        else o = sch_next_run_at s) d).
  { destruct (reschedules b) eqn:Hr.
    - wp_step. apply wp_next_run. intros o t Ho Hn. apply wp_ret. exists o, t. by split_and!.
    - apply wp_ret. exists (sch_next_run_at s), (db_tick d). unfold reschedules in Hr. reflect_all.
      split_and!; [by destruct d|by destruct s| |done].
      assert (sp_enabled b = None) as He by by apply eq_None_not_Some. subst s3. simpl. by rewrite He. }
  eapply wp_mono; [exact H3|]. intros s4 ? (o & t & -> & -> & Ho & Hn). clear H3. wp_step.
  apply wp_modify. wp_step. apply wp_modify. wp_step. apply wp_lift; intros out _. apply wp_ret.
  exists s, (s3 <| sch_next_run_at := o |> <| sch_version ::= Z.succ |>).
  split; [done|]. split; [done|]. split; [done|]. split.
  { simpl. by rewrite Hid. }
  split. { split_and!; [intros _; exact Ho|by simpl; rewrite Hdel; intros []|exact Hz2]. }
  split; [exact Hid|]. split; [done|]. split; [exact Hdel|]. do 3 (split; [done|]). split.
  - by destruct (sp_cron b).
  - destruct (reschedules b); [|done]. exact Hn.
Qed.

Lemma delete_ok sid user d : schedules_ok d -> wp (delete_schedule sid user) (fun _ => schedules_ok) d.
Proof.
  intros HD. unfold delete_schedule. wp_step. apply wp_owned_schedule. intros s Hs _.
  destruct (HD _ _ Hs) as (Hid & _ & _ & Hz). wp_step. apply wp_db_utcnow. unfold put_schedule, user_audit.
  wp_step. apply wp_modify. wp_step. apply wp_modify. apply wp_ret.
  set (s' := s <| sch_deleted_at := _ |> <| sch_enabled := _ |> <| sch_next_run_at := _ |>).
  eapply ok_same; [|apply (put_ok s' d HD)]; [done|]. split_and!; [done|done|done].
Qed.

Lemma unscheduled_ok iid now s : schedule_ok s -> schedule_ok (unscheduled iid now s).
Proof.
  intros (H1 & H2 & H3). unfold unscheduled. destruct (_ && _); [|done]. by split_and!.
Qed.

Lemma uninstall_ok iid user d : schedules_ok d -> wp (delete_installation iid user) (fun _ => schedules_ok) d.
Proof.
  intros HD. unfold delete_installation, load_installation. do 2 wp_step. apply wp_get.
  destruct (db_installations d !! iid) as [i|]; [|done]. apply wp_if; intros _; [|done]. apply wp_ret.
  wp_step. apply wp_gets. destruct (active_run iid d); [done|]. wp_step. apply wp_db_utcnow. unfold put_installation, owner_audit.
  wp_step. apply wp_modify. wp_step. apply wp_gets. wp_step. apply wp_modify. wp_step. apply wp_modify. apply wp_ret.
  intros sid s. simpl. rewrite lookup_fmap. intros (s0 & Hs0 & ->)%fmap_Some. destruct (HD _ _ Hs0) as [Hid Hok].
  split; [|by apply unscheduled_ok]. rewrite <- Hid. unfold unscheduled. by destruct (_ && _).
Qed.

(** Rows of enabled schedules stay enabled while a tick works through them. *)
Definition stays_enabled (d d' : DB) : Prop :=
  forall sid row, db_schedules d !! sid = Some row ->
    exists row', db_schedules d' !! sid = Some row' /\ sch_enabled row' = sch_enabled row.

Definition enabled_row (sid : uuid) (d : DB) : Prop :=
  exists row, db_schedules d !! sid = Some row /\ sch_enabled row = true.

Lemma set_schedule_ok sid f d :
  schedules_ok d -> enabled_row sid d ->
  (forall s, schedule_ok s -> sch_enabled s = true -> sch_id (f s) = sch_id s /\ schedule_ok (f s) /\ sch_enabled (f s) = true) ->
  schedules_ok (d <| db_schedules ::= alter f sid |>) /\ stays_enabled d (d <| db_schedules ::= alter f sid |>).
Proof.
  intros HD (row & Hrow & Hen) Hf. destruct (HD _ _ Hrow) as [Hid Hok]. destruct (Hf row Hok Hen) as (F1 & F2 & F3).
  split.
  - intros i x Hx. simpl in Hx.
    apply lookup_alter_Some in Hx as [(-> & x0 & Hx0 & ->)|[_ Hx]]; [|by apply HD].
    rewrite Hrow in Hx0. injection Hx0 as <-. by rewrite F1.
  - intros i x Hx. simpl. destruct (decide (i = sid)) as [->|Hne].
    + rewrite lookup_alter_eq, Hx. rewrite Hrow in Hx. injection Hx as <-. exists (f row). split; [done|congruence].
    + rewrite lookup_alter_ne by done. by exists x.
Qed.

Lemma stays_trans d d1 d2 : stays_enabled d d1 -> stays_enabled d1 d2 -> stays_enabled d d2.
Proof.
  intros H1 H2 sid row Hr. destruct (H1 _ _ Hr) as (r1 & Hr1 & E1). destruct (H2 _ _ Hr1) as (r2 & Hr2 & E2).
  exists r2. split; [done|congruence].
Qed.

Lemma stays_row sid d d' : stays_enabled d d' -> enabled_row sid d -> enabled_row sid d'.
Proof. intros HS (row & Hr & He). destruct (HS _ _ Hr) as (row' & Hr' & E). exists row'. split; congruence. Qed.

Lemma fire_ok s now grace d :
  schedules_ok d -> enabled_row (sch_id s) d ->
  wp (fire s now grace) (fun _ d' => schedules_ok d' /\ stays_enabled d d') d.
Proof.
  intros HD Hen. unfold fire, record_audit, set_schedule. destruct (sch_next_run_at s) as [due_at|]; [|done].
  wp_step. apply (wp_mono _ (fun _ d' => d' = d)).
  { destruct (is_late _ _ _); [by apply wp_lift|by apply wp_ret]. }
  intros t ? ->. wp_step. apply wp_lift; intros next _. wp_step. apply wp_modify.
  destruct (set_schedule_ok (sch_id s) (fun s => s <| sch_next_run_at := Some next |>) d HD Hen) as [HD1 HS1].
  { intros x (K1 & K2 & K3) He. split_and!; done. }
  set (d1 := d <| db_schedules ::= _ |>) in *. apply wp_if; intros _.
  { wp_step. apply wp_modify. by apply wp_ret. }
  wp_step. apply wp_gets. destruct (usable _) as [i|]; [|wp_step; apply wp_modify; by apply wp_ret].
  wp_step. apply wp_gets. destruct (db_versions d1 !! _) as [v|]; [|done]. wp_step.
  eapply wp_mono; [apply create_run_schedules|]. intros [id created] d2 E. wp_step. apply wp_modify.
  assert (H2 : schedules_ok d2 /\ stays_enabled d d2).
  { split; [by eapply ok_same|]. intros sid row Hr. rewrite E. by apply HS1. }
  destruct H2 as [HD2 HS2].
  destruct (set_schedule_ok (sch_id s) (fun s => s <| sch_last_fired_at := Some now |> <| sch_last_run_id := Some id |>)
    d2 HD2 (stays_row _ _ _ HS2 Hen)) as [HD3 HS3]; [done|].
  pose proof (stays_trans _ _ _ HS2 HS3) as HS. wp_step.
  apply wp_when; intros _; [apply wp_modify|]; by apply wp_ret.
Qed.

Lemma tick_ok locked now grace d : schedules_ok d -> wp (Scheduler.tick locked now grace) (fun _ => schedules_ok) d.
Proof.
  intros HD. unfold Scheduler.tick. wp_step. apply wp_gets.
  assert (Hen : forall s, s ∈ due locked now d -> enabled_row (sch_id s) d).
  { intros s Hs. destruct (due_elem locked now d s) as (Hrow & Hdue & _); [|done|].
    - intros sid x Hx. by apply HD.
    - exists s. split; [done|]. unfold is_due in Hdue. by reflect_all. }
  revert Hen. generalize (due locked now d) as ss. intros ss. revert d HD.
  induction ss as [|s ss IH]; intros d' HD' Hen'; cbn [fire_all]; [by apply wp_ret|].
  wp_step. eapply wp_mono; [apply fire_ok; [done|]|].
  { apply Hen'. by left. }
  intros r d1 [HD1 HS1]. wp_step. eapply wp_mono; [apply IH; [done|]|].
  { intros x Hx. eapply stays_row; [done|]. apply Hen'. by right. }
  intros rs d2 HD2. by apply wp_ret.
Qed.

Lemma sched_step_ok d d' : sched_step d d' -> schedules_ok d -> schedules_ok d'.
Proof.
  intros Hs HD. destruct Hs as [d user body a d' H|d sid user body a d' H|d sid user a d' H|d iid user a d' H|d locked now grace rs d' H|d d' E].
  - exact (wp_run _ _ _ _ _ (create_ok user body d HD) H).
  - destruct (wp_run _ _ _ _ _ (update_spec sid user body d HD) H) as (s & s' & Hs & _ & _ & E & Hok & Hid & _).
    intros i x. rewrite E. intros [[<- <-]|[_ Hx]]%lookup_insert_Some; [done|by apply HD].
  - exact (wp_run _ _ _ _ _ (delete_ok sid user d HD) H).
  - exact (wp_run _ _ _ _ _ (uninstall_ok iid user d HD) H).
  - exact (wp_run _ _ _ _ _ (tick_ok locked now grace d HD) H).
  - by eapply ok_same.
Qed.

Lemma sched_steps_ok d d' : rtc sched_step d d' -> schedules_ok d -> schedules_ok d'.
Proof. intros Hr. induction Hr; [done|]. intros HD. by eapply IHHr, sched_step_ok. Qed.

(** A schedule is armed exactly while it is enabled, over any interleaving of the API,
    uninstalls and the scheduler's ticks: an enabled schedule always has a next run (so it
    cannot be forgotten) and is not deleted, a schedule that was switched off has none, and its
    time zone is always a valid one. *)
Theorem schedules_armed d0 d sid s :
  db_schedules d0 = ∅ -> rtc sched_step d0 d -> db_schedules d !! sid = Some s ->
  (sch_deleted_at s = None -> is_Some (sch_next_run_at s) <-> sch_enabled s = true) /\
  (is_Some (sch_deleted_at s) -> sch_enabled s = false) /\
  exists z, validate_timezone (sch_timezone s) = Ok z.
Proof.
  intros H0 Hr Hs. apply sched_steps_ok in Hr; [by apply Hr in Hs as [_ Hs]|].
  intros i x. by rewrite H0, lookup_empty.
Qed.

(** Changing a schedule is guarded by its version and exact: a change that commits was
    based on the stored version and increments it by one, sets exactly the fields that were
    sent (the cron expression normalised), and moves the next run, to the first occurrence
    after the change, exactly when the expression, the zone or the enabled flag was sent. *)
Theorem update_schedule_correct d0 sid user b d a d' :
  db_schedules d0 = ∅ -> rtc sched_step d0 d -> update_schedule sid user b d = Ok (a, d') ->
  exists s s', db_schedules d !! sid = Some s /\ sch_version s = sp_version b /\ sch_deleted_at s = None /\
    db_schedules d' = <[sid := s']> (db_schedules d) /\ sch_version s' = sch_version s + 1 /\
    sch_enabled s' = default (sch_enabled s) (sp_enabled b) /\
    sch_misfire_policy s' = default (sch_misfire_policy s) (sp_misfire_policy b) /\
    sch_timezone s' = default (sch_timezone s) (sp_timezone b) /\
    match sp_cron b with Some c => validate_cron c = Ok (sch_cron s') | None => sch_cron s' = sch_cron s end /\
    (if reschedules b then
       (is_Some (sch_next_run_at s') <-> sch_enabled s' = true) /\
       forall u, sch_next_run_at s' = Some u ->
         next_occurrence (sch_cron s') (sch_timezone s') (wall (db_tick d)) = Ok u
     else sch_next_run_at s' = sch_next_run_at s).
Proof.
  intros H0 Hr Hu. apply sched_steps_ok in Hr; [|intros i x; by rewrite H0, lookup_empty].
  destruct (wp_run _ _ _ _ _ (update_spec sid user b d Hr) Hu)
    as (s & s' & H1 & H2 & H3 & H4 & H5 & _ & H6 & Hdel & H7 & H8 & H9 & H10 & H11).
  exists s, s'. do 9 (split; [done|]). destruct (reschedules b); [|done]. split; [by apply H5|done].
Qed.
End invariant.
