(* ===== verification/Concrete.v ===== *)
(** * A concrete appliance

    Instances of everything the development is parameterised by (clock, JSON Schema
    validator, JWT library, container runtime, cron and time-zone libraries, readiness) that
    satisfy the stated laws, and a short concrete history of the system: an agent is
    installed, a run is created, dispatched, asks a question and waits.  The witnesses of
    the theorems evaluate on it. *)

From S2P Require Import Prelude TimeUtil Json Redaction SchemaGuard States Jobs RunModel RunService RunInv.
From S2P Require Import RunOps Platform Capability Worker Reconciler RunProps World SystemProps Actions Cron.
From S2P Require Import Scheduler ModelManager ModelInv ModelProps Chaining A1.
#[local] Open Scope Z_scope.

(** ** Instances *)

(** The clock is read once per second. *)
#[export] Instance demo_clock : Clock := fun n => seconds (Z.of_nat n).

(** A validator that knows [{"type": "string"}]. *)
#[export] Instance demo_schema : JsonSchema := {|
  schema_valid := fun _ => true;
  iter_errors := fun schema v =>
    let wrong := mkValidationError [] "wrong type" in
    match jget "type" schema, v with
    | Some (JStr t), JStr _ => if String.eqb t "string" then [] else [wrong]
    | Some (JStr t), _ => if String.eqb t "string" then [wrong] else []
    | _, _ => []
    end
|}.

(** Tokens are the payload with the key it was signed with. *)
#[export] Instance demo_jwt : Jwt := {|
  Token := Json * string;
  token_text := fun t => t.2;
  jwt_encode := fun p key => (p, key);
  jwt_decode := fun t key aud iss now =>
    match jget "exp" t.1 with
    | Some (JNum e) => if String.eqb t.2 key && is_str aud (jget "aud" t.1) && is_str iss (jget "iss" t.1)
                          && (now <? seconds e) then Some t.1 else None
    | _ => None
    end
|}.

#[export] Instance demo_jwt_laws : JwtLaws demo_jwt.
Proof.
  split.
  - intros p key aud iss now iat exp jti sub Hiss Haud _ _ Hexp Hnow _ _. simpl. rewrite Hexp, Haud, Hiss. simpl.
    rewrite !String.eqb_refl. simpl. by rewrite (proj2 (Z.ltb_lt _ _) Hnow).
  - intros [p k] key aud iss now q. simpl. destruct (jget "exp" p) as [[]|] eqn:He; try done.
    destruct (_ && _) eqn:Hc; [|done]. intros [= <-]. exists z. split; [done|]. reflect_all. done.
Qed.

#[export] Instance demo_runtime : Runtime := fun _ _ => "container"%string.

#[export] Instance demo_ready : Readiness := fun _ _ => [].

(** Every minute, in a zone whose clocks go forward by an hour at local time [spring]. *)
Definition spring : Z := seconds (3600 * 2).
#[export] Instance demo_cron : CronLib := {|
  Zone := unit;
  available_timezones := fun n => String.eqb n "Europe/Paris";
  zone_info := fun _ => tt;
  to_local := fun _ u => if u <? spring then u else u + seconds 3600;
  to_utc := fun _ n => if n <? spring + seconds 3600 then n else n - seconds 3600;
  croniter_is_valid := fun _ => true;
  croniter_next := fun _ t => Some (next_minute_of t)
|}.

#[export] Instance demo_cron_laws : CronLaws.
Proof.
  split; simpl.
  - intros e t u [= <-]. apply minute_later.
  - intros e t u [= <-]. apply minute_next.
  - intros [] u. unfold seconds. repeat case_match; reflect_all; lia.
  - intros [] u. unfold seconds. repeat case_match; reflect_all; lia.
  - intros [] u. unfold seconds, day, seconds. repeat case_match; reflect_all; lia.
  - intros [] u. unfold seconds, day, seconds. repeat case_match; reflect_all; lia.
  - intros [] n m. unfold seconds. repeat case_match; reflect_all; lia.
Qed.

(** ** An installed agent *)

Definition demo_settings : Settings := mkSettings 60 120 "key" "http://broker".

Definition demo_manifest : Json := JObj [("spec", JObj [
  ("image", JStr "agent:1"); ("entrypoint", JList [JStr "run"]); ("architectures", JList [JStr "arm64"]);
  ("triggers", JList [JStr "manual"; JStr "agent"; JStr "schedule"]);
  ("resources", JObj [("cpu", JNum 1); ("memoryMb", JNum 512); ("activeTimeoutSeconds", JNum 600);
                      ("maxInputWaitSeconds", JNum 3600)])])]%string.

Definition demo_permissions : Json := JObj [("userInput", JBool true); ("models", JList [JStr "small"]);
  ("connectors", JObj []); ("startsAgents", JList [JStr "helper"])]%string.

Definition demo_version : AgentVersion := 
  mkVersion 7 "agent" "1.0" demo_manifest "agent:1" "" "v1alpha1" ["arm64"%string].
Definition helper_version : AgentVersion := 
  mkVersion 8 "helper" "1.0" demo_manifest "agent:1" "" "v1alpha1" ["arm64"%string].
Definition demo_installation : AgentInstallation :=
  mkInstallation 5 1 "agent" 7 (Some 7%N) (JObj []) demo_permissions (JObj []) false true 1 None.
Definition helper_installation : AgentInstallation :=
  mkInstallation 6 1 "helper" 8 (Some 8%N) (JObj []) demo_permissions (JObj []) false true 1 None.

(** A schedule that is due at second 60. *)
Definition demo_schedule : Schedule :=
  mkSchedule 3 5 "* * * * *" "Europe/Paris" (Some (seconds 60)) fire_once true None None 1 None.

Definition db0 : DB :=
  mkDB ∅ empty_queue (<[5%N := demo_installation]> (<[6%N := helper_installation]> ∅))
    (<[7%N := demo_version]> (<[8%N := helper_version]> ∅)) ∅ (<[3%N := demo_schedule]> ∅) [] 0 100 0.

Definition manual_args : NewRunArgs := mkNewRun "manual" (Some 1%N) None None None None None.

(** The state after a transaction that commits, and what it returns. *)
Definition after {S A} (m : Tx PlatformError S A) (d : S) : S := match m d with Ok (_, d') => d' | Err _ => d end.
Definition answer_of {S A} (m : Tx PlatformError S A) (d : S) : option A :=
  match m d with Ok (a, _) => Some a | Err _ => None end.

Lemma after_eq {S A} (m : Tx PlatformError S A) d a : answer_of m d = Some a -> m d = Ok (a, after m d).
Proof. unfold answer_of, after. destruct (m d) as [[x d']|]; [|done]. by intros [= ->]. Qed.

(** ** A short history *)

Definition w0 : World := mkWorld db0 ∅.
Definition db1 : DB := after (create_run demo_installation demo_version manual_args) db0.
Definition w1 : World := mkWorld db1 ∅.

(** A second later (the database clock moves on). *)
Definition db2 : DB := db1 <| db_now := seconds 5 |>.
Definition claimed_db : DB := after (worker_claim demo_settings "w" (fun _ => false)) db2.
Definition demo_job : Job :=
  match answer_of (worker_claim demo_settings "w" (fun _ => false)) db2 with
  | Some (Some j) => j
  | _ => mkJob 0 "" (mkPayload None None None None None) dead 0 0 0 None None None None 0 None
  end.
Definition act_start : Activity := mkActivity "w" demo_job Start.
Definition prepared : Phase * DB := run_phase demo_settings true act_start claimed_db.
Definition act_prepared : Activity := mkActivity "w" demo_job prepared.1.
Definition launched : Phase * DB := run_phase demo_settings true act_prepared prepared.2.
Definition act_launched : Activity := mkActivity "w" demo_job launched.1.
Definition recorded : Phase * DB := run_phase demo_settings true act_launched launched.2.
Definition act_recorded : Activity := mkActivity "w" demo_job recorded.1.
Definition db3 : DB := conclude (QArith_base.Qmake 0 1) act_recorded (Ok tt) recorded.2.
Definition w3 : World := mkWorld db3 ∅.

(** The agent reports in, asks a question, and waits. *)
Definition demo_rid : uuid := 100.
Definition demo_question : Json := JObj [("type", JStr "string")]%string.
Definition call (c : RunCall) : PM unit := with_run demo_rid (run_call c).
Definition db4 : DB := after (call (CallHandshake 1 30)) db3.
Definition w4 : World := mkWorld db4 ∅.
Definition ask_call : RunCall := CallAsk 1 "q" "Title" "Prompt" demo_question 60 None.
Definition db5 : DB := after (call ask_call) db4.
Definition w5 : World := mkWorld db5 ∅.

Definition run_at (d : DB) : RunRows :=
  default (mkRows (mkRun 0 0 0 "" None None None None None QUEUED 0 0 JNull JNull JNull 0 0 0 0 None None false
    None None None None None) ∅ [] [] ∅) (db_runs d !! demo_rid).
Definition session_at (d : DB) : Session := open_session d (run_at d).

Example history_states :
  map (fun d => run_state (rr_run (run_at d))) [db1; prepared.2; db3; db4; db5]
  = [QUEUED; PREPARING; PREPARING; RUNNING; WAITING_INPUT].
Proof. vm_compute. reflexivity. Qed.

(** ** The history is a path of the system *)

Lemma reachable_step w w' : reachable demo_settings w -> wstep demo_settings false w w' -> reachable demo_settings w'.
Proof. intros (w00 & H0 & Hr) Hs. exists w00. split; [done|]. by eapply rtc_r. Qed.

Lemma w0_initial : reachable demo_settings w0.
Proof. exists w0. split; [by split|done]. Qed.

Lemma w1_reachable : reachable demo_settings w1.
Proof.
  eapply reachable_step; [apply w0_initial|].
  eapply step_create, (after_eq _ _ (demo_rid, true)). by vm_compute.
Qed.

Lemma step_last d acts a r rnd :
  acts !! 0%nat = Some a -> ac_phase a = Finished r -> delete 0%nat acts = ∅ ->
  wstep demo_settings false (mkWorld d acts) (mkWorld (conclude rnd a r d) ∅).
Proof. intros Ha Hp <-. by apply step_conclude. Qed.

Lemma w3_reachable : reachable demo_settings w3.
Proof.
  eapply reachable_step; [eapply reachable_step; [eapply reachable_step; [eapply reachable_step;
    [eapply reachable_step; [eapply reachable_step; [apply w1_reachable|]|]|]|]|]|].
  - by apply (step_other _ _ db1 ∅ db2).
  - apply (step_claim _ _ db2 ∅ 0%nat "w" (fun _ => false) demo_job claimed_db); [done|].
    apply after_eq. by vm_compute.
  - apply (step_phase _ _ claimed_db _ 0%nat act_start true prepared.1 prepared.2); [done|apply surjective_pairing].
  - apply (step_phase _ _ prepared.2 _ 0%nat act_prepared true launched.1 launched.2); [done|apply surjective_pairing].
  - apply (step_phase _ _ launched.2 _ 0%nat act_launched true recorded.1 recorded.2); [done|apply surjective_pairing].
  - apply (step_last recorded.2 _ act_recorded (Ok tt)); [done|by vm_compute|by rewrite !insert_insert_eq, delete_insert_id].
Qed.

Lemma call_step c d : answer_of (call c) d = Some tt ->
  wstep demo_settings false (mkWorld d ∅) (mkWorld (after (call c) d) ∅).
Proof. intros Ha. eapply step_call, after_eq, Ha. Qed.

Lemma call_reachable c d : reachable demo_settings (mkWorld d ∅) -> answer_of (call c) d = Some tt ->
  reachable demo_settings (mkWorld (after (call c) d) ∅).
Proof. intros HR Ha. eapply reachable_step; [exact HR|]. by apply call_step. Qed.

Lemma w4_reachable : reachable demo_settings w4.
Proof. apply call_reachable; [apply w3_reachable|by vm_compute]. Qed.

Lemma w5_reachable : reachable demo_settings w5.
Proof. apply call_reachable; [apply w4_reachable|by vm_compute]. Qed.

Lemma w3_w5 : rtc (wstep demo_settings false) w3 w5.
Proof.
  apply (rtc_l _ w3 w4 w5); [|apply rtc_once].
  - apply (call_step (CallHandshake 1 30) db3). by vm_compute.
  - apply (call_step ask_call db4). by vm_compute.
Qed.

(** ** A gateway with one model *)

Definition demo_gateway_settings : GatewaySettings := mkGatewaySettings 4 64 2 true 600 (seconds 30) 900.
Definition small_entry : ModelCatalogEntry := mkEntry "small" (JObj []) 16 ["chat"%string].
Definition demo_gateway : Gateway :=
  mkGateway {["small"%string := small_entry]} {["small"%string := mkModelInstallation INSTALLED None None 0 None None None None (Some 0) None]}
    {["small"%string := mkInstance NOT_LOADED None None None 0 None None None None None 0]}
    [] empty_queue [] 0 1 0.

Definition acquire_small : GM uuid := acquire demo_gateway_settings "small" "run" "100" "Demo" 60 false 100.
Definition small_endpoint : Json := JObj [("name", JStr "m"); ("port", JNum 80); ("servedModelName", JStr "small")]%string.
Definition gw_loading : Gateway := after acquire_small demo_gateway.
Definition gw_ready : Gateway := after (load_done "small" small_endpoint) gw_loading.
Definition gw_idle : Gateway := after (ModelManager.release 1 "done") gw_ready.
Definition gw_draining : Gateway := after (unload "small" false) gw_idle.
Definition instance_at (g : Gateway) : ModelInstance :=
  default (mkInstance NOT_LOADED None None None 0 None None None None None 0) (gw_instances g !! "small"%string).

Example gateway_states :
  map (fun g => (in_state (instance_at g), leased "small" g)) [demo_gateway; gw_loading; gw_ready; gw_idle; gw_draining]
  = [(NOT_LOADED, false); (LOADING, true); (READY, true); (READY, false); (DRAINING, false)].
Proof. vm_compute. reflexivity. Qed.

Lemma demo_gateway_fresh : fresh_gateway demo_gateway.
Proof.
  split_and!; [|  |done].
  - intros id e He. simpl in He. apply lookup_singleton_Some in He as [<- <-]. split_and!; [done|by simpl; lia|by eexists|by eexists].
  - intros id i Hi. simpl in Hi. apply lookup_singleton_Some in Hi as [<- <-]. split_and!; [by eexists|done..].
Qed.

Lemma gw_reachable_step g g' :
  gw_reachable demo_gateway_settings g -> gstep demo_gateway_settings g g' -> gw_reachable demo_gateway_settings g'.
Proof. intros (g0 & H0 & Hr) Hs. exists g0. split; [done|]. by eapply rtc_r. Qed.

Lemma demo_gateway_reachable : gw_reachable demo_gateway_settings demo_gateway.
Proof. exists demo_gateway. split; [apply demo_gateway_fresh|done]. Qed.

Lemma gw_loading_reachable : gw_reachable demo_gateway_settings gw_loading.
Proof.
  eapply gw_reachable_step; [apply demo_gateway_reachable|].
  eapply gs_acquire, (after_eq acquire_small _ 1%N). by vm_compute.
Qed.

Lemma gw_ready_reachable : gw_reachable demo_gateway_settings gw_ready.
Proof.
  eapply gw_reachable_step; [apply gw_loading_reachable|].
  apply (gs_load_done _ _ "small" small_endpoint); [done|]. apply after_eq. by vm_compute.
Qed.

Lemma gw_idle_reachable : gw_reachable demo_gateway_settings gw_idle.
Proof.
  eapply gw_reachable_step; [apply gw_ready_reachable|]. eapply gs_release, after_eq. by vm_compute.
Qed.

Lemma gw_draining_reachable : gw_reachable demo_gateway_settings gw_draining.
Proof.
  eapply gw_reachable_step; [apply gw_idle_reachable|]. eapply gs_unload, (after_eq _ _ true). by vm_compute.
Qed.

(** ** A broker token and further requests *)

Definition demo_token : Token :=
  (mint "key" demo_rid 1 5 7 ["llm:small"; "runs:input"]%string None 900 (seconds 6) "00000000000000000000000000000065").1.

(** A scheduled run, and a keyed request for it. *)
Definition keyed_args : NewRunArgs := mkNewRun "schedule" None (Some 3%N) (Some (seconds 60)) None None None.
Definition create_keyed : PM (uuid * bool) := create_run demo_installation demo_version keyed_args.
Definition db_keyed : DB := after create_keyed db0.
Definition w_keyed : World := mkWorld db_keyed ∅.

Lemma w_keyed_reachable : reachable demo_settings w_keyed.
Proof.
  eapply reachable_step; [apply w0_initial|].
  eapply step_create, (after_eq create_keyed _ (demo_rid, true)). by vm_compute.
Qed.

(** A clock oracle for whoever looks at a container that is already healthy. *)
Definition healthy_poll : Poll :=
  mkPoll (JObj [("state", JStr "running"); ("endpoint", small_endpoint)]%string) (Some (200, ["small"%string])) false.

(** ** Sessions on the run *)

Definition running : Session := session_at db4.
Definition waiting : Session := session_at db5.

Definition demo_ask : RM uuid := ask 1 "q" "Title" "Prompt" demo_question 60 None.
Definition asked_session : Session := after demo_ask running.
Definition demo_events : list AgentEventInput :=
  [mkEventInput "e1" "run.log" (JObj []) None; mkEventInput "e2" "run.log" (JObj []) None]%string.

Lemma running_inv : run_inv running.
Proof.
  refine (proj1 (reachable_run demo_settings w4 demo_rid (run_at db4) w4_reachable _)). by vm_compute.
Qed.

(** A history of the job queue: two workers, a failure and a retry. *)
Definition demo_ops : list JobOp :=
  [OpEnqueue 0 0 "run.dispatch" (run_payload demo_rid 1) (Some (KRunAttempt demo_rid 1)) None 5;
   OpClaim (seconds 1) "a" 60 None (fun _ => false);
   OpFail (seconds 2) 1 "a" JNull true (QArith_base.Qmake 0 1);
   OpClaim (seconds 60) "b" 60 None (fun _ => false)]%string.
Definition demo_queue : JobQueue := run_ops demo_ops empty_queue.
Definition leased_job : Job :=
  match jq_rows demo_queue with
  | j :: _ => j
  | [] => demo_job
  end.

(** ** The zone and the schedule *)

(** A probe settles as soon as a later whole minute within its reach is shown. *)
Lemma resolve_from_finds fuel p k z :
  p mod minute = 0 -> (k < fuel)%nat -> is_valid_local (p + Z.of_nat k * minute) z = true ->
  exists u, resolve_from fuel p z = Ok u.
Proof.
  revert p k. induction fuel as [|fuel IH]; intros p k Hp Hk Hv; [lia|]. cbn [resolve_from].
  destruct (is_valid_local p z) eqn:Hv0; [by eexists|]. destruct k as [|k].
  - replace (p + Z.of_nat 0 * minute) with p in Hv by lia. by rewrite Hv in Hv0.
  - apply (IH _ k); [apply minute_next|lia|]. rewrite minute_step by done.
    replace (p + minute + Z.of_nat k * minute) with (p + Z.of_nat (S k) * minute) by lia. done.
Qed.

Definition demo_zone : @Zone demo_cron := tt.

Lemma demo_valid n : is_valid_local n demo_zone = negb ((spring <=? n) && (n <? spring + seconds 3600)).
Proof. unfold is_valid_local. simpl. unfold spring, seconds. repeat case_match; reflect_all; lia. Qed.

Lemma demo_resolves n : n mod minute = 0 -> exists u, resolve_local n demo_zone = Ok u.
Proof.
  intros Hn. destruct (is_valid_local n demo_zone) eqn:Hv.
  - apply (resolve_from_finds _ _ 0); [done|lia|]. by replace (n + Z.of_nat 0 * minute) with n by lia.
  - rewrite demo_valid in Hv. reflect_all.
    assert (Hk : exists k : nat, (k <= 60)%nat /\ n + Z.of_nat k * minute = spring + seconds 3600).
    { apply Z.mod_divide in Hn as [m ->]; [|done]. exists (Z.to_nat (180 - m)).
      unfold spring, minute, seconds in *. lia. }
    destruct Hk as (k & Hk & He). apply (resolve_from_finds _ _ k); [done|lia|]. rewrite He, demo_valid.
    unfold spring, seconds. by vm_compute.
Qed.

Definition demo_fire : PM FireResult := fire demo_schedule (seconds 61) 300.
Definition demo_tick : PM (list FireResult) := Scheduler.tick (fun _ => false) (seconds 61) 300.

Lemma db0_keyed : keyed_by_id db0.
Proof. intros sid s Hs. simpl in Hs. apply lookup_insert_Some in Hs as [[<- <-]|[_ Hs]]; [done|]. by rewrite lookup_empty in Hs. Qed.

(** ** Chains *)

Definition chain_settings : ChainSettings := mkChainSettings true 3 5.
Definition demo_start : PM (uuid * bool) := start_agent_run chain_settings demo_rid 1 "helper" "k" None.
Definition started_db : DB := after demo_start db4.

Lemma db4_runs : db_runs db4 = {[demo_rid := run_at db4]}.
Proof. by vm_compute. Qed.

Lemma db4_foreign : foreign_keys db4.
Proof.
  intros rid rr Hr. rewrite db4_runs in Hr. apply lookup_singleton_Some in Hr as [<- <-].
  split; [eexists; by vm_compute|]. intros p Hp. by vm_compute in Hp.
Qed.

Lemma db4_versions : versions_match db4.
Proof.
  intros k i v Hi Hv.
  assert (E : db_installations db4 = db_installations db0 /\ db_versions db4 = db_versions db0)
    by (split; vm_compute; reflexivity).
  destruct E as [E1 E2]. rewrite E1 in Hi. rewrite E2 in Hv. simpl in Hi, Hv.
  apply lookup_insert_Some in Hi as [[<- <-]|[_ Hi]].
  - vm_compute in Hv. injection Hv as <-. split; vm_compute; reflexivity.
  - apply lookup_insert_Some in Hi as [[<- <-]|[_ Hi]]; [|rewrite lookup_empty in Hi; discriminate Hi].
    vm_compute in Hv. injection Hv as <-. split; vm_compute; reflexivity.
Qed.

Lemma demo_started : exists id,
  start_agent_run chain_settings demo_rid 1 "helper" "k" None (w_db w4) = Ok ((id, true), started_db).
Proof.
  assert (Hi : exists id, answer_of demo_start db4 = Some (id, true)) by (eexists; vm_compute; reflexivity).
  destruct Hi as [id Hi]. exists id. apply after_eq in Hi. unfold demo_start in Hi at 1. exact Hi.
Qed.
