(* ===== verification/ConcreteServices.v ===== *)
(** * A concrete appliance: the other services

    A digest and an embedding model, a document that is uploaded, indexed and queried, two
    identical calls in the model gateway's store, a keyed request, a schedule made through the
    API, a listing and a run spec. *)

From S2P Require Import Prelude TimeUtil Json Redaction JsonText SchemaGuard States Jobs RunModel RunService RunInv.
From S2P Require Import RunOps Platform Cron Scheduler Idempotency LlmIdempotency Chaining A1 Chunking Evidence.
From S2P Require Import Knowledge KnowledgeProps JsonGuard Pagination SchedulesApi Regex Specs Untrusted Concrete.
From Stdlib Require Import QArith.
#[local] Open Scope Z_scope.

#[export] Instance demo_digest : Digest := fun s => s.

(** A text is represented by its length. *)
#[export] Instance demo_embedder : Embedder := {|
  Vec := Z;
  emb_profile := "lengths"%string;
  emb_dimension := 1;
  embed_documents := map (fun t => Z.of_nat (length t));
  embed_query := fun t => Z.of_nat (length t);
  cosine_distance := fun a b => inject_Z (Z.abs (a - b))
|}.

(** ** A document *)

Definition kserve (r : Request) (d : Knowledge) : Knowledge := after (serve 1000 r) d.
Definition demo_upload : Request := Upload 1%N (chars "notes.txt") [chars "hello world"].
Definition kn0 : Knowledge := empty_knowledge 0.
Definition kn1 : Knowledge := kserve (CreateKb 1%N "docs") kn0.
Definition kn2 : Knowledge := kserve demo_upload kn1.
Definition demo_claim : option (Job * Knowledge.Phase) * Knowledge := kn_claim "k" 60 true (fun _ => false) kn2.
Definition kn3 : Knowledge := demo_claim.2.
Definition ingest_job : Job := match demo_claim.1 with Some (j, _) => j | None => demo_job end.

Definition demo_segments : list Segment := [mkSegment (chars "hello world") {["line"%string := LInt 1]}].
Definition good_input : Input := mkInput (Extraction (Ok demo_segments)) NotYet Purged 0.
Definition kn_steps (n : nat) : Knowledge.Phase * Knowledge := run_job 800 120 "k" ingest_job (replicate n good_input) (Begin, kn3).
Definition kn_ready : Knowledge := (kn_steps 4).2.

Lemma k_after r d ws : answer_of (serve 1000 r) d = Some tt -> kstep 1000 800 120 (mkService d ws) (mkService (kserve r d) ws).
Proof. intros H%after_eq. by apply (k_serve _ _ _ d ws r). Qed.

Lemma kn3_reached : rtc (kstep 1000 800 120) (mkService kn0 ∅) (mkService kn3 {["k"%string := (ingest_job, Begin)]}).
Proof.
  eapply rtc_l; [apply (k_after (CreateKb 1%N "docs")); vm_compute; reflexivity|].
  eapply rtc_l; [apply (k_after demo_upload); vm_compute; reflexivity|].
  apply rtc_once. eapply (k_claim _ _ _ kn2 ∅ "k" 60 true (fun _ => false) (ingest_job, Begin)); [done|].
  vm_compute. reflexivity.
Qed.

Lemma kn3_inv : kinv kn3.
Proof.
  assert (H : service_ok (mkService kn3 {["k"%string := (ingest_job, Begin)]})); [|by apply H].
  remember (mkService kn3 _) as s eqn:E. pose proof kn3_reached as Hr. rewrite <- E in Hr. clear E.
  remember (mkService kn0 ∅) as s0 eqn:E0. assert (H0 : service_ok s0) by (subst; apply empty_ok). clear E0.
  induction Hr as [|x y z Hxy _ IH]; [done|]. apply IH. by eapply kstep_ok.
Qed.

Lemma kn3_held : held "k" ingest_job 2%N kn3.
Proof. split; [left|..]; vm_compute; reflexivity. Qed.

Abbreviation demo_query := (query 1%N (chars "hello") 3 100 None) (only parsing).

Example demo_document :
  ((kn_steps 4).1, doc_state <$> (kn_documents kn_ready !! 2%N), map dc_text (kn_chunks kn_ready))
  = (Finished, Some DOC_READY, [chars "hello world"]).
Proof. vm_compute. reflexivity. Qed.

(** ** Two identical calls to a model *)

Definition llm_key : string * string * string := ("run", "100", "k1")%string.
Definition llm_body : Json := JObj [("prompt", JStr "hi")]%string.
Definition llm0 : Process := mkProcess empty_store ∅.
Definition store1 : IdempotencyStore := (run_begin 10 llm_key llm_body 0 empty_store).2.
Definition llm1 : Process := mkProcess store1 {[1%nat := Owner llm_key llm_body 0]}.
Definition store2 : IdempotencyStore := (run_begin 10 llm_key llm_body 1 store1).2.
Definition llm2 : Process := mkProcess store2 (<[2%nat := Waiter llm_key llm_body 0]> (pr_tasks llm1)).
Definition store3 : IdempotencyStore := run_end 60 llm_key 0 (EndResult (JStr "hello")) 2 store2.
Definition llm3 : Process := mkProcess store3 (<[1%nat := OwnerDone llm_key llm_body 0 (EndResult (JStr "hello"))]> (pr_tasks llm2)).
Definition store4 : IdempotencyStore := match LlmIdempotency.join 0 store3 with Some (_, s) => s | None => store3 end.
Definition llm4 : Process := mkProcess store4 (<[2%nat := WaiterDone llm_key llm_body 0 (Ok (JStr "hello"))]> (pr_tasks llm3)).

Lemma llm2_reached : preach 60 10 llm2.
Proof.
  eapply rtc_l; [apply (ps_run _ _ empty_store ∅ 1%nat llm_key llm_body 0); [done|vm_compute; reflexivity]|].
  apply rtc_once. apply (ps_run _ _ store1 _ 2%nat llm_key llm_body 1 (Ok (Joined 0))); [done|vm_compute; reflexivity].
Qed.

Lemma llm4_reached : preach 60 10 llm4.
Proof.
  eapply rtc_r; [eapply rtc_r; [apply llm2_reached|]|].
  - apply (ps_end _ _ store2 (pr_tasks llm2) 1%nat llm_key llm_body 0 (EndResult (JStr "hello")) 2). vm_compute. reflexivity.
  - apply (ps_join _ _ store3 (pr_tasks llm3) 2%nat llm_key llm_body 0); vm_compute; reflexivity.
Qed.

(** ** A keyed request and a schedule *)

Definition schedule_body : ScheduleCreateIn := mkScheduleCreate 5 "* * * * *" "Europe/Paris" fire_once true.
Definition db_plain : DB := db0 <| db_schedules := ∅ |>.
Definition make_schedule : PM (Z * option Json) := create_schedule 1%N schedule_body.
Definition db_scheduled : DB := after make_schedule db_plain.
Definition made_schedule : Schedule := default demo_schedule (db_schedules db_scheduled !! 100%N).
Definition disable : SchedulePatchIn := mkSchedulePatch 1 None None None (Some false).
Definition db_disabled : DB := after (update_schedule 100%N 1%N disable) db_scheduled.

Lemma db_scheduled_reached : rtc sched_step db_plain db_scheduled.
Proof.
  apply rtc_once. destruct (answer_of make_schedule db_plain) as [a|] eqn:E; [|by vm_compute in E].
  apply after_eq in E. by apply (ss_create db_plain 1%N schedule_body a).
Qed.

Definition demo_request : WebRequest := mkRequest 1%N "POST" "/schedules" (Some "key-0001"%string) (JObj []).
Definition web0 : Web := mkWeb db_plain ∅.
Definition demo_mutate : WM Response := mutate demo_request make_schedule.

(** ** A listing and a run spec *)

Definition demo_rows : list uuid := [3; 1; 2]%N.

Definition demo_daemon : DaemonConfig := mkDaemonConfig "cq-agents" "65532:65532" 8 16384 4096.
Definition demo_image : string :=
  "agents/demo@sha256:0123456789abcdef0123456789abcdef0123456789abcdef0123456789abcdef".
Definition demo_body : SpecBody :=
  mkSpecBody (Some 100%N) (Some 1) true (Some demo_image) true (Some [JStr "run"]) (Some []) (Some (1 # 2)%Q) (Some 512)
    (Some 256) (Some [("PLATFORM_RUN_ID", "100")]%string) (Some []).
