(* ===== verification/Witnesses.v ===== *)
(** * Witnesses

    The theorems with hypotheses, applied on the concrete appliance of [Concrete]: each
    hypothesis is discharged there by evaluation. *)

From S2P Require Import Prelude TimeUtil Json Redaction SchemaGuard States Jobs RunModel RunService RunInv.
From S2P Require Import RunOps Platform Capability Worker Reconciler RunProps World SystemProps Actions Cron.
From S2P Require Import Scheduler ModelManager ModelInv ModelProps Chaining A1 Concrete.
#[local] Open Scope Z_scope.

(** ** The system *)


Lemma log_is_history_witness :
  replay None (rr_events (run_at db5)) = Some (Some WAITING_INPUT) /\ NoDup (stored_client_ids (rr_events (run_at db5))).
Proof.
  assert (Hr : db_runs (w_db w5) !! demo_rid = Some (run_at db5)) by (vm_compute; reflexivity).
  destruct (log_is_history demo_settings w5 demo_rid (run_at db5) w5_reachable Hr) as (_ & Hp & Hn & _).
  split; [|exact Hn]. rewrite Hp. vm_compute. reflexivity.
Defined.

Lemma waiting_iff_pending_witness :
  run_state (rr_run (run_at db5)) = WAITING_INPUT /\
  exists r, r ∈ rr_inputs (run_at db5) /\ inp_state r = inp_pending.
Proof.
  assert (Hs : run_state (rr_run (run_at db5)) = WAITING_INPUT) by (vm_compute; reflexivity).
  assert (Hr : db_runs (w_db w5) !! demo_rid = Some (run_at db5)) by (vm_compute; reflexivity).
  split; [exact Hs|].
  apply (proj1 (waiting_iff_pending demo_settings w5 demo_rid (run_at db5) w5_reachable Hr)). exact Hs.
Defined.

Lemma runs_forward_witness :
  exists rr, db_runs db5 !! demo_rid = Some rr /\ rr_events (run_at db3) `prefix_of` rr_events rr /\
    steps PREPARING (run_state (rr_run rr)).
Proof.
  assert (Hr : db_runs (w_db w3) !! demo_rid = Some (run_at db3)) by (vm_compute; reflexivity).
  destruct (runs_forward demo_settings w3 w5 demo_rid (run_at db3) w3_reachable w3_w5 Hr)
    as (rr & H1 & _ & H2 & _ & H3 & _).
  exists rr. split; [exact H1|]. split; [exact H2|].
  assert (Hs : run_state (rr_run (run_at db3)) = PREPARING) by (vm_compute; reflexivity). rewrite Hs in H3. exact H3.
Defined.

Lemma one_run_per_occurrence_witness :
  occurrence (rr_run (run_at db_keyed)) = Some (3%N, seconds 60) /\ demo_rid = demo_rid.
Proof.
  assert (Hr : db_runs (w_db w_keyed) !! demo_rid = Some (run_at db_keyed)) by (vm_compute; reflexivity).
  assert (Ho : occurrence (rr_run (run_at db_keyed)) = Some (3%N, seconds 60)) by (vm_compute; reflexivity).
  split; [exact Ho|].
  apply (one_run_per_occurrence demo_settings w_keyed demo_rid demo_rid _ _ w_keyed_reachable Hr Hr).
  left. split; [rewrite Ho; eexists; reflexivity|reflexivity].
Defined.

Lemma create_run_once_witness :
  keyed keyed_args /\ exists d'', create_keyed db_keyed = Ok ((demo_rid, false), d'') /\ db_runs d'' = db_runs db_keyed.
Proof.
  assert (Hk : keyed keyed_args) by (eexists; reflexivity).
  split; [exact Hk|].
  assert (Hc : create_keyed (w_db w0) = Ok ((demo_rid, true), db_keyed)).
  { apply (after_eq create_keyed). vm_compute. reflexivity. }
  destruct (create_run_once demo_settings demo_installation demo_version keyed_args w0 demo_rid true db_keyed
              w0_initial Hc) as [_ H].
  destruct (H Hk) as (d'' & H1 & H2 & _). exists d''. split; assumption.
Defined.

(** ** Actions *)

Definition claimed_session : Session :=
  match claim_action 1 "pay" (Some "t"%string) (session_at db4) with Ok (_, s) => s | Err _ => session_at db4 end.
Definition completed_session : Session :=
  match complete_action 1 "pay" JNull claimed_session with Ok (_, s) => s | Err _ => claimed_session end.

Lemma claimed_once_witness :
  all_consistent [mkTold 1 (Some "t"%string) act_claimed None; mkTold 1 None act_completed (Some JNull)].
Proof.
  refine (proj1 (claimed_once demo_settings "pay" (session_at db4) _ completed_session _ _)).
  - vm_compute. reflexivity.
  - apply (life_complete _ _ _ [mkTold 1 (Some "t"%string) act_claimed None] claimed_session 1 JNull
             (mkReply "pay" act_completed (Some JNull))); [|vm_compute; reflexivity].
    apply (life_claim _ _ _ [] (session_at db4) 1 (Some "t"%string) (mkReply "pay" act_claimed None));
      [apply life_start|vm_compute; reflexivity].
Defined.

(** ** Capabilities *)

Lemma authorize_sound_witness :
  exists g rid rr a, authorize demo_token "key" (seconds 10) (internal_run db4) false = Ok g /\
    authorized db4 (seconds 10) false g rid rr a.
Proof.
  destruct (authorize demo_token "key" (seconds 10) (internal_run db4) false) as [g|e] eqn:Hg;
    [|exfalso; vm_compute in Hg; discriminate Hg].
  destruct (authorize_sound db4 demo_token "key" (seconds 10) false g Hg) as (rid & rr & a & H).
  exists g, rid, rr, a. split; [reflexivity|exact H].
Defined.

Lemma token_roundtrip_witness :
  verify demo_token "key" (seconds 10)
  = Some (mint_claims demo_rid 1 5 7 ["llm:small"; "runs:input"]%string None 900 (seconds 6)
            "00000000000000000000000000000065").
Proof.
  assert (H := token_roundtrip "key" demo_rid 1 5 7 ["llm:small"; "runs:input"]%string None 900 (seconds 6)
    "00000000000000000000000000000065" (seconds 10)).
  etransitivity; [apply H|vm_compute; reflexivity].
  - vm_compute. split; discriminate.
  - lia.
  - vm_compute. reflexivity.
  - vm_compute. discriminate.
  - eexists. reflexivity.
Defined.

Lemma capabilities_exact_witness :
  exists caps, capabilities_from_permissions demo_permissions (JObj []) = Some caps /\
    (forall c, c ∈ caps <-> grants demo_permissions (JObj []) c).
Proof.
  destruct (capabilities_from_permissions demo_permissions (JObj [])) as [caps|] eqn:Hc;
    [|exfalso; vm_compute in Hc; discriminate Hc].
  exists caps. split; [reflexivity|]. intros c. exact (capabilities_exact demo_permissions (JObj []) caps c Hc).
Defined.

(** ** The model manager *)

Lemma memory_budget_witness :
  gw_reachable demo_gateway_settings gw_ready /\ memory_reserved gw_ready = 16 /\ memory_reserved gw_ready <= 62.
Proof.
  split; [apply gw_ready_reachable|]. split; [vm_compute; reflexivity|].
  exact (proj1 (memory_budget demo_gateway_settings gw_ready gw_ready_reachable)).
Defined.

Lemma lease_protects_witness :
  leased "small" gw_ready = true /\ exists e, in_endpoint (instance_at gw_ready) = Some e /\
    wait_ready false "small" [(instance_at gw_ready, true)] = Some (endpoint false "small" e).
Proof.
  split; [vm_compute; reflexivity|].
  assert (Hi : gw_instances gw_ready !! "small"%string = Some (instance_at gw_ready)) by (vm_compute; reflexivity).
  destruct (lease_protects demo_gateway_settings gw_ready "small" _ gw_ready_reachable Hi) as (_ & _ & H).
  destruct H as (e & He & Hw); [vm_compute; reflexivity|]. exists e. split; [exact He|apply Hw].
Defined.

Lemma acquire_correct_witness :
  exists i', gw_instances gw_loading !! "small"%string = Some i' /\ in_state i' = LOADING /\
    has_live (KModelLoad "small") (gw_jobs gw_loading).
Proof.
  assert (Ha : acquire_small demo_gateway = Ok (1%N, gw_loading)).
  { apply (after_eq acquire_small). vm_compute. reflexivity. }
  destruct (acquire_correct demo_gateway_settings "small" "run" "100" "Demo" 60 false 100 demo_gateway 1%N gw_loading
              demo_gateway_reachable Ha) as (_ & e & i & i' & _ & Hi & Hi' & _ & _ & _ & _ & H).
  destruct H as (H1 & H2 & _).
  - injection Hi as <-. reflexivity.
  - exists i'. split; [exact Hi'|]. split; assumption.
Defined.

Definition removed_report : Json := JObj [("containerRemoved", JBool true)]%string.

Lemma unload_never_strands_witness :
  exists g' i', handle_unload "small" removed_report gw_draining = Ok (tt, g') /\
    gw_instances g' !! "small"%string = Some i' /\ in_state i' = NOT_LOADED /\ in_reserved_bytes i' = 0.
Proof.
  assert (Hi : gw_instances gw_draining !! "small"%string = Some (instance_at gw_draining)) by (vm_compute; reflexivity).
  assert (Hl : leased "small" gw_draining = false) by (vm_compute; reflexivity).
  destruct (unload_never_strands demo_gateway_settings "small" removed_report _ gw_draining gw_draining_reachable Hi)
    as (g' & i' & H1 & H2 & _ & H3); [vm_compute; reflexivity|].
  rewrite Hl in H3. exists g', i'. split; [exact H1|]. split; [exact H2|exact H3].
Defined.


Lemma reap_only_idle_witness :
  exists g' i', reap_instance demo_gateway_settings (seconds 5000) "small" gw_idle = Ok (tt, g') /\
    gw_instances g' = <["small"%string := i']> (gw_instances gw_idle) /\
    in_state i' = DRAINING /\ has_live (KModelUnload "small") (gw_jobs g').
Proof.
  assert (Hi : gw_instances gw_idle !! "small"%string = Some (instance_at gw_idle)) by (vm_compute; reflexivity).
  destruct (reap_only_idle demo_gateway_settings (seconds 5000) "small" _ gw_idle Hi) as (g' & i' & H1 & H2 & _ & H3).
  assert (Hs : in_state (instance_at gw_idle) = READY) by (vm_compute; reflexivity).
  assert (Hl : leased "small" gw_idle = false) by (vm_compute; reflexivity).
  destruct (in_idle_since (instance_at gw_idle)) as [t|] eqn:Ht; [|exfalso; vm_compute in Ht; discriminate Ht].
  assert (Hd : (seconds (idle_unload_seconds demo_gateway_settings) <=? seconds 5000 - t) = true).
  { vm_compute in Ht. injection Ht as <-. vm_compute. reflexivity. }
  rewrite Hs, Hl, Hd in H3. destruct H3 as (H3 & _ & H4).
  exists g', i'. repeat split; assumption.
Defined.


(** ** The run operations *)

Lemma limits_enforced_witness :
  exists f s', reconcile_run (seconds 5000) waiting = Ok (f, s') /\ ended_with FAILED "INPUT_TIMEOUT" false s'.
Proof.
  assert (Hw : run_state (run_of waiting) ∈ WATCHED_STATES) by (vm_compute; repeat constructor).
  destruct (limits_enforced (seconds 5000) waiting Hw) as (f & s' & H1 & H2).
  assert (Ha : over_active (seconds 5000) (run_of waiting) = false) by (vm_compute; reflexivity).
  assert (Ho : over_wait (seconds 5000) (run_of waiting) = true) by (vm_compute; reflexivity).
  rewrite Ha, Ho in H2. exists f, s'. split; assumption.
Defined.

Lemma finish_correct_witness :
  exists s', finish 1 "succeeded" (Some JNull) None running = Ok (tt, s') /\
    finish_outcome (run_of running) "succeeded" (Some JNull) None (run_of s').
Proof.
  apply (finish_correct 1 "succeeded" (Some JNull) None running).
  - vm_compute. reflexivity.
  - vm_compute. reflexivity.
  - intros H. vm_compute in H. repeat (inversion H as [|? ? ? H']; subst; clear H; rename H' into H).
Defined.

Lemma stale_attempt_rejected_witness :
  finish 7 "succeeded" None None running = Err (stale 7 running).
Proof.
  assert (Hn : 7 <> run_current_attempt (run_of running)) by (vm_compute; discriminate).
  exact (proj1 (proj2 (proj2 (proj2 (proj2 (stale_attempt_rejected 7 running 30 false None [] None "succeeded" None None
    "q" "t" "p" JNull 60 None None JNull "run.log" JNull Hn)))))).
Defined.

Definition pending_request : InputRequest :=
  match inputs_of waiting with
  | r :: _ => r
  | [] => mkInput 0 "" 0 "" "" JNull None inp_expired None None None 0 0
  end.

Lemma answer_correct_witness :
  exists s', answer (inp_id pending_request) 1 (JStr "yes") 1 waiting = Ok (tt, s') /\ run_state (run_of s') = RUNNING.
Proof.
  assert (Hf : List.find (fun r => (inp_id r =? inp_id pending_request)%N) (inputs_of waiting) = Some pending_request)
    by (vm_compute; reflexivity).
  pose proof (answer_correct (inp_id pending_request) 1 (JStr "yes") 1 pending_request waiting Hf) as H.
  assert (Hr : answer_refusal pending_request 1 (JStr "yes") (wall (se_tick waiting)) = None) by (vm_compute; reflexivity).
  rewrite Hr in H. destruct H as (s' & now & H1 & H2 & H3). exists s'. split; [exact H1|].
  rewrite H3, H2. vm_compute. reflexivity.
Defined.

Lemma ask_idempotent_witness :
  exists id s2, demo_ask running = Ok (id, asked_session) /\
    ask 1 "q" "Other" "text" JNull 5 None asked_session = Ok (id, s2) /\ inputs_of s2 = inputs_of asked_session.
Proof.
  destruct (answer_of demo_ask running) as [id|] eqn:Hi; [|exfalso; vm_compute in Hi; discriminate Hi].
  apply after_eq in Hi.
  destruct (ask_idempotent 1 "q" "Title" "Prompt" demo_question 60 None "Other" "text" JNull 5 None running id
              asked_session Hi) as (s2 & H1 & H2).
  exists id, s2. split; [exact Hi|]. split; assumption.
Defined.

Lemma ask_within_budget_witness :
  exists id now r, demo_ask running = Ok (id, asked_session) /\ find_input "q" (inputs_of asked_session) = Some r /\
    inp_deadline r - now <= seconds 3600 - wait_seconds (run_of running) now.
Proof.
  destruct (answer_of demo_ask running) as [id|] eqn:Hi; [|exfalso; vm_compute in Hi; discriminate Hi].
  apply after_eq in Hi.
  destruct (ask_within_budget 1 "q" "Title" "Prompt" demo_question 60 None running id asked_session Hi)
    as (now & r & H1 & _ & H2); [vm_compute; reflexivity|].
  exists id, now, r. split; [exact Hi|]. split; [exact H1|exact H2].
Defined.

Lemma clocks_continuous_witness :
  exists e s', transition WAITING_INPUT None None None running = Ok (e, s') /\
    active_seconds (run_of s') (seconds 500)
    = active_seconds (run_of running) (wall (se_tick running)) + 0.
Proof.
  destruct (answer_of (transition WAITING_INPUT None None None) running) as [e|] eqn:He;
    [|exfalso; vm_compute in He; discriminate He].
  apply after_eq in He. eexists e, _. split; [exact He|].
  refine (proj1 (clocks_continuous WAITING_INPUT None None None running e _ (seconds 500) He _)).
  vm_compute. split; discriminate.
Defined.

Lemma event_batch_stored_witness :
  exists res s', record_agent_event_batch 1 demo_events None running = Ok (res, s') /\
    br_accepted res + br_duplicates res = 2 /\ NoDup (stored_client_ids (events_of s')).
Proof.
  destruct (answer_of (record_agent_event_batch 1 demo_events None) running) as [res|] eqn:He;
    [|exfalso; vm_compute in He; discriminate He].
  apply after_eq in He. eexists res, _. split; [exact He|].
  destruct (event_batch_stored 1 demo_events None running res _ running_inv He) as (H1 & _ & _ & _ & _ & H2).
  split; [exact H1|exact H2].
Defined.

Lemma event_batch_retry_witness :
  exists s' s2, record_agent_event_batch 1 demo_events None s'
    = Ok (mkBatchResult 0 2 (last_sequence (events_of s')), s2) /\ se_rows s2 = se_rows s'.
Proof.
  destruct (answer_of (record_agent_event_batch 1 demo_events None) running) as [res|] eqn:He;
    [|exfalso; vm_compute in He; discriminate He].
  apply after_eq in He. eexists _.
  apply (event_batch_retry 1 demo_events None running res _ He).
  intros e H. vm_compute in H.
  assert (Hs : ei_type e = "run.log"%string /\ ei_payload e = JObj []).
  { inversion H as [|? ? ? H']; subst; [split; reflexivity|].
    inversion H' as [|? ? ? H'']; subst; [split; reflexivity|]. inversion H''. }
  destruct Hs as [Ht Hp]. unfold acceptable. rewrite Ht, Hp. split; [repeat constructor|].
  split; [vm_compute; discriminate|exact I].
Defined.

(** ** The job queue *)

Lemma queue_invariant_witness : queue_ok demo_queue.
Proof. apply (queue_invariant demo_ops). repeat constructor. vm_compute. discriminate. Defined.

Lemma bounded_delivery_witness :
  times_claimed 1 demo_ops empty_queue = 2 /\ times_claimed 1 demo_ops empty_queue <= job_max_attempts leased_job.
Proof.
  split; [vm_compute; reflexivity|].
  refine (proj2 (bounded_delivery demo_ops leased_job _ _)).
  - repeat constructor. vm_compute. discriminate.
  - vm_compute. constructor.
Defined.

Lemma lease_exclusive_witness :
  leased_job ∈ jq_rows (apply_op (OpComplete (seconds 61) 1 "a") demo_queue).
Proof.
  refine (proj1 (lease_exclusive demo_queue (OpComplete (seconds 61) 1 "a") leased_job "b" (seconds 120) _ _ _ _ _)).
  - apply run_ops_ok; [repeat constructor; vm_compute; discriminate|apply empty_queue_ok].
  - vm_compute. constructor.
  - vm_compute. reflexivity.
  - vm_compute. reflexivity.
  - vm_compute. reflexivity.
Defined.

(** ** The scheduler *)


Lemma tick_fires_each_witness :
  exists rs, demo_tick db0 = Ok (rs, after demo_tick db0) /\ map fr_schedule_id rs = [3%N] /\
    exists s', db_schedules (after demo_tick db0) !! 3%N = Some s' /\ advanced demo_schedule s'.
Proof.
  destruct (answer_of demo_tick db0) as [rs|] eqn:Hr; [|exfalso; vm_compute in Hr; discriminate Hr].
  apply after_eq in Hr. exists rs. split; [exact Hr|].
  destruct (tick_fires_each demo_settings (fun _ => false) (seconds 61) 300 w0 rs (after demo_tick db0) w0_initial
              db0_keyed ltac:(lia) Hr) as (Hm & _ & H).
  assert (Hids : map fr_schedule_id rs = [3%N]) by (rewrite Hm; vm_compute; reflexivity).
  split; [exact Hids|]. destruct (H 3%N demo_schedule eq_refl) as (s' & H1 & H2).
  rewrite Hids in H2. exists s'. split; [exact H1|].
  rewrite bool_decide_eq_true_2 in H2 by constructor. exact (proj2 (proj2 H2)).
Defined.

Lemma tick_refines_witness :
  rtc (wstep demo_settings false) (mkWorld db0 ∅) (mkWorld (after demo_tick db0) ∅).
Proof.
  destruct (answer_of demo_tick db0) as [rs|] eqn:Hr; [|exfalso; vm_compute in Hr; discriminate Hr].
  apply after_eq in Hr.
  exact (tick_refines demo_settings false ∅ (fun _ => false) (seconds 61) 300 db0 rs (after demo_tick db0) Hr).
Defined.

Lemma next_occurrence_first_witness :
  next_occurrence "* * * * *" "Europe/Paris" spring = Ok (spring + seconds 60) /\ spring < spring + seconds 60.
Proof.
  assert (H : next_occurrence "* * * * *" "Europe/Paris" spring = Ok (spring + seconds 60)) by (vm_compute; reflexivity).
  split; [exact H|]. exact (proj1 (next_occurrence_first _ _ _ _ H)).
Defined.

Lemma next_occurrence_exists_witness : exists u, next_occurrence "* * * * *" "Europe/Paris" spring = Ok u.
Proof.
  apply (next_occurrence_exists "* * * * *" "Europe/Paris" demo_zone).
  - vm_compute. reflexivity.
  - intros t. eexists. reflexivity.
  - exact demo_resolves.
Defined.

Lemma local_time_resolved_witness :
  resolve_local (spring + minute) demo_zone = Ok spring /\
  (~ shown demo_zone (spring + minute) ->
   forall m, spring + minute <= m < spring + seconds 3600 -> m mod minute = 0 -> ~ shown demo_zone m).
Proof.
  assert (Hr : resolve_local (spring + minute) demo_zone = Ok spring) by (vm_compute; reflexivity).
  split; [exact Hr|]. intros Hs.
  refine (proj2 (proj2 (proj2 (local_time_resolved demo_zone (spring + minute) spring _ Hr) Hs))).
  vm_compute. reflexivity.
Defined.

(** ** Chains and ranges *)

Lemma start_agent_correct_witness :
  exists id parent, started chain_settings (rr_run parent) "helper" "k" db4 id started_db.
Proof.
  destruct demo_started as [id Hi].
  destruct (start_agent_correct demo_settings chain_settings w4 demo_rid 1 "helper" "k" None id true started_db
              w4_reachable db4_foreign db4_versions Hi) as (parent & _ & _ & _ & _ & H).
  exists id, parent. exact H.
Defined.

Lemma start_agent_replay_witness :
  exists id, start_agent_run chain_settings demo_rid 1 "helper" "k" None started_db = Ok ((id, false), started_db).
Proof.
  destruct demo_started as [id Hi]. exists id.
  exact (start_agent_replay demo_settings chain_settings w4 demo_rid 1 "helper" "k" None None id true started_db
           w4_reachable db4_foreign db4_versions Hi).
Defined.

Lemma range_containment_witness :
  exists a b, parse (chars "Sheet1!A:C") = Some a /\ parse (chars "sheet1!B2:C9") = Some b /\
    (forall c r, in_area b c r -> in_area a c r).
Proof.
  destruct (parse (chars "Sheet1!A:C")) as [a|] eqn:Ha; [|exfalso; vm_compute in Ha; discriminate Ha].
  destruct (parse (chars "sheet1!B2:C9")) as [b|] eqn:Hb; [|exfalso; vm_compute in Hb; discriminate Hb].
  exists a, b. split; [reflexivity|]. split; [reflexivity|].
  refine (proj2 (proj1 (range_containment _ _ a b Ha Hb) _)).
  vm_compute in Ha, Hb. injection Ha as <-. injection Hb as <-. vm_compute. reflexivity.
Defined.
