(* ===== verification/WitnessesServices.v ===== *)
(** * Witnesses: the other services

    The theorems on the idempotency stores, the schedules API, the knowledge service, the
    request guard, pagination, run specs and evidence, applied on the examples of
    [ConcreteServices]. *)

From S2P Require Import Prelude TimeUtil Json Redaction JsonText SchemaGuard States Jobs RunModel RunService RunInv.
From S2P Require Import RunOps Platform Cron Scheduler Idempotency LlmIdempotency Chaining A1 Chunking Evidence.
From S2P Require Import Knowledge KnowledgeProps JsonGuard Pagination SchedulesApi Regex Specs Untrusted Concrete.
From S2P Require Import ConcreteServices.
#[local] Open Scope Z_scope.

Lemma single_flight_witness :
  preach 60 10 llm2 /\ (run_begin 10 llm_key llm_body 3 (pr_store llm2)).1 = Ok (Joined 0).
Proof.
  split; [exact llm2_reached|].
  assert (Ht : pr_tasks llm2 !! 1%nat = Some (Owner llm_key llm_body 0)) by (vm_compute; reflexivity).
  assert (Hin : (llm_key, 0%nat) ∈ ids_order (evict 3 (pr_store llm2))) by (vm_compute; left).
  pose proof (proj2 (single_flight 60 10 llm2 1 llm_key llm_body 0 llm2_reached (or_introl Ht)) 3 llm_body Hin) as H.
  rewrite String.eqb_refl in H. exact H.
Defined.

Lemma duplicates_agree_witness :
  exists t' body' o, pr_tasks llm4 !! t' = Some (OwnerDone llm_key body' 0 o) /\ Ok (JStr "hello") =
    match o with EndResult x => Ok x | EndFinal e | EndError e => Err e | EndBroken => Err NOT_COMPLETED end.
Proof.
  assert (Ht : pr_tasks llm4 !! 2%nat = Some (WaiterDone llm_key llm_body 0 (Ok (JStr "hello")))) by (vm_compute; reflexivity).
  destruct (duplicates_agree 60 10 llm4 2 llm_key llm_body 0 _ llm4_reached Ht) as (t' & body' & o & H1 & _ & H2).
  exists t', body', o. split; [exact H1|exact H2].
Defined.

Lemma effect_once_witness :
  exists response w', demo_mutate web0 = Ok (response, w') /\
    demo_mutate w' = Ok (response <| rs_replayed := true |>, w').
Proof.
  destruct (answer_of demo_mutate web0) as [response|] eqn:E; [|vm_compute in E; discriminate].
  apply after_eq in E. exists response, (after demo_mutate web0). split; [exact E|].
  exact (proj1 (effect_once demo_request make_schedule "key-0001" web0 response _ _ make_schedule eq_refl E (rtc_refl _ _))).
Defined.

Lemma schedules_armed_witness :
  sch_enabled made_schedule = true /\ is_Some (sch_next_run_at made_schedule).
Proof.
  assert (Hs : db_schedules db_scheduled !! 100%N = Some made_schedule) by (vm_compute; reflexivity).
  assert (He : sch_enabled made_schedule = true) by (vm_compute; reflexivity).
  split; [exact He|].
  apply (proj1 (schedules_armed db_plain db_scheduled 100%N made_schedule eq_refl db_scheduled_reached Hs)); [vm_compute; reflexivity|exact He].
Defined.

Lemma update_schedule_correct_witness :
  exists s', db_schedules db_disabled = <[100%N := s']> (db_schedules db_scheduled) /\ sch_enabled s' = false.
Proof.
  destruct (answer_of (update_schedule 100%N 1%N disable) db_scheduled) as [a|] eqn:E; [|vm_compute in E; discriminate].
  apply after_eq in E.
  destruct (update_schedule_correct db_plain 100%N 1%N disable db_scheduled a _ eq_refl db_scheduled_reached E)
    as (s & s' & _ & _ & _ & H1 & _ & H2 & _).
  exists s'. split; [exact H1|exact H2].
Defined.

Lemma knowledge_invariant_witness :
  kinv kn3 /\ (doc_state <$> (kn_documents kn3 !! 2%N)) = Some DOC_PENDING.
Proof.
  split; [exact (knowledge_invariant 1000 800 120 0 _ kn3_reached)|vm_compute; reflexivity].
Defined.

Lemma ingest_settles_witness :
  (kn_steps 4).1 = Finished /\ settled true 2%N kn_ready.
Proof.
  destruct (ingest_settles 800 120 kn3 "k" ingest_job 2%N (replicate 4 good_input) kn3_inv kn3_held (le_n 4)) as (H1 & H2 & _).
  split; [exact H1|exact H2].
Defined.

Lemma sweep_exact_witness :
  exists n d', fail_abandoned 60 kn3 = Ok (n, d') /\ n = 0%nat.
Proof.
  destruct (answer_of (fail_abandoned 60) kn3) as [n|] eqn:E; [|vm_compute in E; discriminate].
  apply after_eq in E. exists n, (after (fail_abandoned 60) kn3). split; [exact E|].
  rewrite (proj2 (proj2 (sweep_exact 60 kn3 n _ E))). vm_compute. reflexivity.
Defined.

Lemma query_correct_witness :
  exists chosen, answer_of demo_query kn_ready = Some (mkQueryResult "lengths" (map passage_of chosen) (format_context (map passage_of chosen)))
    /\ tokens chosen <= 100.
Proof.
  destruct (answer_of demo_query kn_ready) as [r|] eqn:E; [|vm_compute in E; discriminate].
  assert (Hp : qr_profile <$> answer_of demo_query kn_ready = Some "lengths"%string) by (vm_compute; reflexivity).
  rewrite E in Hp. injection Hp as Hp. apply after_eq in E.
  destruct (query_correct 1%N (chars "hello") 3 100 None kn_ready r _ ltac:(lia) E) as (_ & chosen & rest & _ & H1 & H2 & _ & H3 & _).
  exists chosen. split; [|exact H3]. rewrite <- H1. rewrite <- H1 in H2. rewrite <- H2, <- Hp. by destruct r.
Defined.

Lemma chunk_complete_witness :
  exists chunks, chunk demo_segments 800 120 = Ok chunks /\ exists c, c ∈ chunks /\ ch_token_count c = 2%nat.
Proof.
  destruct (chunk_complete demo_segments 800 120 ltac:(lia)) as (chunks & H & _ & _).
  exists chunks. split; [exact H|]. vm_compute in H. injection H as <-. eexists. split; [left|reflexivity].
Defined.

Lemma cursor_roundtrip_witness :
  decode_cursor (Some (encode_cursor 100%N)) = Ok (Some 100%N) /\
  decode_text_cursor (Some (encode_text_cursor (chars "key"))) = Ok (Some (chars "key")).
Proof. apply (cursor_roundtrip 100%N (chars "key")); [reflexivity|discriminate|reflexivity]. Defined.

Lemma pages_complete_witness :
  follow 4 (page_in_memory [chars "b"; chars "a"; chars "c"] (fun t => t) 2) None = Some [chars "a"; chars "b"; chars "c"].
Proof.
  etransitivity; [apply (pages_complete [chars "b"; chars "a"; chars "c"] (fun t => t) 2)|vm_compute; reflexivity].
  - apply (bool_decide_unpack _). vm_compute. exact I.
  - repeat constructor; discriminate.
Defined.

Lemma keyset_complete_witness :
  follow 4 (page_by_id demo_rows (fun u => u) 2) None = Some [3; 2; 1]%N.
Proof.
  etransitivity; [apply (keyset_complete demo_rows (fun u => u) 2)|vm_compute; reflexivity].
  - apply (bool_decide_unpack _). vm_compute. exact I.
  - repeat constructor.
Defined.

Lemma container_contained_witness :
  exists s, parse_spec demo_body demo_daemon = Ok s /\
    host "Privileged" (agent_container_config s demo_daemon "/c") = Some (JBool false).
Proof.
  destruct (parse_spec demo_body demo_daemon) as [s|] eqn:E; [|vm_compute in E; discriminate].
  exists s. split; [reflexivity|]. exact (proj1 (proj2 (proj2 (container_contained demo_body demo_daemon "/c" s E)))).
Defined.

Lemma evidence_delimited_witness :
  cut ([newline] ++ end_marker (chars "ab")) (evidence_body (chars "x ab y") (chars "ab") ++ [newline] ++ end_marker (chars "ab") ++ [])
  = Some (chars "x  y", []).
Proof.
  rewrite (evidence_delimited (chars "x ab y") (chars "ab") []); [reflexivity| |vm_compute; reflexivity].
  apply (bool_decide_unpack _). vm_compute. exact I.
Defined.
