(* ===== verification/WitnessesInstall.v ===== *)
(** * Installing agents: findings and witnesses

    An appliance on which an agent is installed, what it approves that it should not, and the
    theorems on manifests, the catalog and installations, applied to its history. *)

From S2P Require Import Prelude TimeUtil Json Redaction PyValue JsonText SchemaGuard States Jobs RunModel RunService RunInv.
From S2P Require Import RunOps Platform Capability Worker Reconciler World SystemProps Cron Scheduler Idempotency Chaining Pagination.
From S2P Require Import Manifest Catalog Readiness Installations InstallProps Concrete.
#[local] Open Scope Z_scope.

(** ** A concrete appliance: installing an agent

    A validator that knows the shape of manifests, a machine, the status services, and a short
    history: an agent is imported in two versions, installed, moved to the second version
    (which requests more, so the installation waits for approval), approved again, run and
    uninstalled. *)

(** ** Instances *)

Definition shape_ok (p : Json) : bool :=
  forallb (fun k => bool_decide (is_Some (get_list k p))) ["llmProfiles"; "knowledge"; "cloudProviders"; "startsAgents"]%string &&
  match jget "connectors" p with
  | Some (JObj o) => forallb (fun k => bool_decide (is_Some (get_list k (JObj o)))) ["google"; "twilio"; "github"; "sip"]%string
  | _ => false
  end.

(** The schema [JStr "manifest"] checks permission blocks, every other schema accepts. *)
#[export] Instance install_schema : JsonSchema := {|
  schema_valid := fun _ => true;
  iter_errors := fun schema v =>
    match schema with
    | JStr _ => match jget "spec" v ≫= jget "permissions" with
                | Some p => if shape_ok p then [] else [mkValidationError [inl "spec"%string] "bad permissions"]
                | None => []
                end
    | _ => []
    end
|}.

#[export] Instance install_contract : ManifestContract.
Proof.
  refine {| manifest_schema := JStr "manifest" |}. intros m spec p He Hs Hp. simpl in He. rewrite Hs in He. simpl in He.
  rewrite Hp in He. destruct (shape_ok p) eqn:Hok; [|done]. apply andb_true_iff in Hok as [H1 H2].
  rewrite forallb_forall in H1. split.
  - intros key Hk%list_elem_of_In. by apply H1, bool_decide_eq_true in Hk.
  - destruct (jget "connectors" p) as [[| | | | |o]|]; try done. exists o. split; [done|]. rewrite forallb_forall in H2.
    intros key Hk%list_elem_of_In. by apply H2, bool_decide_eq_true in Hk.
Defined.

#[export] Instance install_machine : Machine := "aarch64"%string.

#[export] Instance install_clients : StatusClients := {|
  list_connections := [mkConnection "google" "CONNECTED" ["gmail.readonly"%string]];
  get_model := fun _ => Some (JObj [("downloadState", JStr "INSTALLED")]%string)
|}.

(** ** Manifests *)

Definition mail_permissions (connectors : list (string * Json)) : Json :=
  JObj [("llmProfiles", JList [JStr "local.general"]); ("knowledge", JList []); ("connectors", JObj connectors);
        ("cloudProviders", JList []); ("userInput", JBool true)]%string.

Definition mail_manifest (version : string) (connectors : list (string * Json)) : Json :=
  JObj [("metadata", JObj [("id", JStr "mail"); ("name", JStr "Mail"); ("version", JStr version)]);
        ("spec", JObj [("image", JStr "agents/mail@sha256:ab"); ("architectures", JList [JStr "linux/arm64"]);
                       ("triggers", JList [JStr "manual"]); ("permissions", mail_permissions connectors);
                       ("resources", JObj [("cpu", JNum 1); ("memoryMb", JNum 512); ("activeTimeoutSeconds", JNum 600)])])]%string.

Definition google : string * Json := ("google"%string, JList [JStr "gmail.readonly"%string]).
Definition mail1 : Json := mail_manifest "1.0.0" [].
Definition mail2 : Json := mail_manifest "2.0.0" [google].

(** What the owner sends. *)
Definition block (connectors : list (string * Json)) : list (string * Json) :=
  match mail_permissions connectors with JObj o => o | _ => [] end.
Definition mail_install : InstallationCreateIn :=
  mkInstallationCreate "mail" None [] (block []) [("local.general", "local.general.quality")]%string true.
Definition mail_upgrade : InstallationPatchIn := mkInstallationPatch 1 (Some "2.0.0"%string) None None None None.
Definition mail_approval : InstallationPatchIn := mkInstallationPatch 2 None None (Some (block [google])) None None.

(** ** A history *)

Definition owner : uuid := 1%N.
Definition shop0 : DB := mkDB ∅ empty_queue ∅ ∅ ∅ ∅ [] 0 100 0.
Definition shop1 : DB := after (import_agent owner mail1) shop0.
Definition shop2 : DB := after (create_installation owner mail_install) shop1.
Definition shop3 : DB := after (import_agent owner mail2) shop2.
Definition shop4 : DB := after (update_installation 101 owner mail_upgrade) shop3.
Definition shop5 : DB := after (update_installation 101 owner mail_approval) shop4.
Definition shop6 : DB := after (start_manual_run 101 owner) shop5.

Lemma run_after {A} (m : PM A) d : is_Some (answer_of m d) -> exists a, m d = Ok (a, after m d).
Proof. intros [a H%after_eq]. by exists a. Qed.

Ltac runs := vm_compute; eexists; reflexivity.

Lemma shop2_reached : rtc install_step shop0 shop2.
Proof.
  destruct (run_after (import_agent owner mail1) shop0) as [v Hv]; [runs|].
  destruct (run_after (create_installation owner mail_install) shop1) as [a Ha]; [runs|].
  eapply rtc_l; [by eapply is_import|]. by eapply rtc_once, is_create.
Qed.

Lemma shop4_reached : rtc install_step shop0 shop4.
Proof.
  destruct (run_after (import_agent owner mail2) shop2) as [v Hv]; [runs|].
  destruct (run_after (update_installation 101 owner mail_upgrade) shop3) as [a Ha]; [runs|].
  etrans; [exact shop2_reached|]. eapply rtc_l; [by eapply is_import|]. by eapply rtc_once, is_update.
Qed.

Lemma shop5_reached : rtc install_step shop0 shop5.
Proof.
  destruct (run_after (update_installation 101 owner mail_approval) shop4) as [a Ha]; [runs|].
  etrans; [exact shop4_reached|]. by eapply rtc_once, is_update.
Qed.

Definition installed (d : DB) : option (bool * bool) :=
  (fun i => (ins_enabled i, ins_needs_reapproval i)) <$> db_installations d !! 101%N.

Example mail_history :
  installed shop2 = Some (true, false) /\ installed shop4 = Some (true, true) /\ installed shop5 = Some (true, false) /\
  (ins_model_bindings <$> db_installations shop5 !! 101%N) = Some (JObj [("local.general", JStr "local.general.quality")]%string).
Proof. split_and!; vm_compute; reflexivity. Qed.

(** ** Where approving permissions departs from its documentation

    [InstallationCreateIn.approved_permissions] "must equal the version's requested permissions
    exactly", and the route is "Install an agent, approving its exact permissions"; but
    [_normalize_permissions] leaves out the [sip] connector, which the manifest schema allows
    and [capabilities_from_permissions] turns into capabilities. *)

Definition sip : string * Json := ("sip"%string, JList [JStr "call.conversational"%string]).

(** A third version of the agent that asks for phone calls. *)
Definition mail3 : Json := mail_manifest "3.0.0" [sip].
Definition phone_db : DB := after (import_agent owner mail3) shop0.
Definition phone_installed : DB := after (create_installation owner mail_install) phone_db.

(** The owner approves a block without any connector, and the installation is created with the
    right to make phone calls: an approval that does not equal the requested permissions is
    accepted, and what it did not contain is granted. *)
Theorem sip_granted_without_approval :
  rtc install_step shop0 phone_installed /\
  jget "connectors" (JObj (ic_approved_permissions mail_install)) = Some (JObj []) /\
  exists i, db_installations phone_installed !! 101%N = Some i /\ ins_needs_reapproval i = false /\
    run_capability (ins_approved_permissions i) (ins_model_bindings i) "sip.call.conversational".
Proof.
  split_and!.
  - destruct (run_after (import_agent owner mail3) shop0) as [v Hv]; [runs|].
    destruct (run_after (create_installation owner mail_install) phone_db) as [a Ha]; [runs|].
    eapply rtc_l; [by eapply is_import|]. by eapply rtc_once, is_create.
  - reflexivity.
  - destruct (db_installations phone_installed !! 101%N) as [i|] eqn:E; [|vm_compute in E; discriminate].
    exists i. vm_compute in E. injection E as <-. split_and!; [reflexivity|reflexivity|].
    eexists. split; [vm_compute; reflexivity|]. apply existsb_eqb. vm_compute. reflexivity.
Qed.


(** The catalog's steps of the history. *)
Definition cat0 : DB := shop0.
Definition cat1 : DB := after (upsert_manifest mail1 "imported") cat0.
Definition cat2 : DB := after (upsert_manifest mail2 "imported") cat1.

Lemma cat1_reached : rtc catalog_step cat0 cat1.
Proof.
  destruct (run_after (upsert_manifest mail1 "imported") cat0) as [v Hv]; [runs|]. by eapply rtc_once, cs_import.
Qed.

Lemma cat2_reached : rtc catalog_step cat1 cat2.
Proof.
  destruct (run_after (upsert_manifest mail2 "imported") cat1) as [v Hv]; [runs|]. by eapply rtc_once, cs_import.
Qed.

Lemma catalog_durable_witness :
  is_Some (db_versions cat1 !! 100%N) /\ db_versions cat2 !! 100%N = db_versions cat1 !! 100%N.
Proof.
  split; [vm_compute; eexists; reflexivity|].
  destruct (db_versions cat1 !! 100%N) as [v|] eqn:E; [|vm_compute in E; discriminate].
  exact (proj1 (proj2 (catalog_durable cat0 cat1 cat2 eq_refl eq_refl cat1_reached cat2_reached)) 100%N v E).
Defined.

Ltac proper :=
  repeat first
    [ apply pv_null | apply pv_bool | apply pv_num | apply pv_str | apply pv_list | apply pv_obj
    | apply Forall_nil_2 | apply Forall_cons_2 | (apply (bool_decide_unpack _); vm_compute; exact I) | progress simpl ].

Lemma mail1_proper : proper_value mail1.
Proof. unfold mail1, mail_manifest, mail_permissions. proper. Qed.

Lemma reimport_unchanged_witness :
  exists v, upsert_manifest mail1 "imported" cat0 = Ok (v, cat1) /\ upsert_manifest mail1 "imported" cat2 = Ok (v, cat2).
Proof.
  destruct (answer_of (upsert_manifest mail1 "imported") cat0) as [v|] eqn:E; [|vm_compute in E; discriminate].
  apply after_eq in E. exists v. split; [exact E|].
  exact (reimport_unchanged cat0 cat0 mail1 "imported" v cat1 cat2 eq_refl eq_refl (rtc_refl _ _) mail1_proper E cat2_reached).
Defined.

Lemma approval_covers_witness :
  exists i, db_installations shop5 !! 101%N = Some i /\ installation_ok shop5 i /\ ins_needs_reapproval i = false.
Proof.
  destruct (db_installations shop5 !! 101%N) as [i|] eqn:E; [|vm_compute in E; discriminate].
  exists i. split; [reflexivity|]. split; [|vm_compute in E; injection E as <-; reflexivity].
  exact (proj1 (approval_covers shop0 shop5 101%N i eq_refl eq_refl eq_refl shop5_reached E)).
Defined.

Lemma update_approves_explicitly_witness :
  exists i', db_installations shop5 = <[101%N := i']> (db_installations shop4).
Proof.
  destruct (answer_of (update_installation 101 owner mail_approval) shop4) as [a|] eqn:E; [|vm_compute in E; discriminate].
  apply after_eq in E.
  destruct (update_approves_explicitly shop0 shop4 101%N owner mail_approval a _ eq_refl eq_refl eq_refl shop4_reached E)
    as (i & v & i' & v' & p & _ & _ & _ & _ & H & _).
  exists i'. exact H.
Defined.

Lemma uninstall_complete_witness :
  exists answer d', delete_installation 101 owner shop5 = Ok (answer, d') /\
    exists i, db_installations d' !! 101%N = Some i /\ is_Some (ins_deleted_at i) /\ ins_enabled i = false.
Proof.
  pose proof (uninstall_complete shop0 shop5 101%N owner eq_refl eq_refl eq_refl shop5_reached) as H.
  destruct (delete_installation 101 owner shop5) as [[answer d']|e] eqn:E; [|vm_compute in E; discriminate].
  exists answer, d'. split; [reflexivity|]. exact (proj1 (proj2 H)).
Defined.

Lemma shop5_platform : platform_inv shop5.
Proof.
  assert (H : initial (mkWorld shop5 ∅)) by (split_and!; vm_compute; reflexivity).
  by apply initial_inv in H as [HP _].
Qed.

Lemma manual_run_authorized_witness :
  exists rid i v, start_manual_run 101 owner shop5 = Ok (rid, shop6) /\ can_run i v.
Proof.
  destruct (answer_of (start_manual_run 101 owner) shop5) as [rid|] eqn:E; [|vm_compute in E; discriminate].
  apply after_eq in E.
  destruct (manual_run_authorized shop0 shop5 101%N owner rid shop6 eq_refl eq_refl eq_refl shop5_reached shop5_platform E)
    as (i & v & p & n & rr & _ & _ & _ & _ & H & _).
  exists rid, i, v. split; [exact E|exact H].
Defined.
