(* ===== verification/WitnessesBroker.v ===== *)
(** * Witnesses: sign-in and the broker

    The history of an owner who signs in; and a run whose owner approved Sheets and telephone calls, a call whose first callback comes
    before Twilio's answer is recorded, and signed callbacks; the theorems on the agent API, the
    telephone service and the callback guard are applied to them. *)

From S2P Require Import Prelude TimeUtil Json Redaction JsonText SchemaGuard States Jobs RunModel RunService RunInv RunOps.
From S2P Require Import Platform Capability Worker Reconciler World SystemProps Cron Scheduler Chaining A1 Auth AuthProps.
From S2P Require Import Telephony TelephonyProps CallbackGuard BrokerApi Concrete.
From Stdlib Require Import Ascii.
From Stdlib Require Import Sorting.Sorted.
#[local] Open Scope Z_scope.

(** ** Witnesses: sign-in

    A setup code is issued, the owner account is created with it, the owner signs in on a second
    device and signs out; the theorems of [AuthProps] are applied to this history. *)

(** A transparent hash, digest and HMAC. *)
#[export] Instance plain_argon : Argon2 := {|
  argon_hash := fun p _ => "argon:" +:+ p;
  argon_verify := fun h p => String.eqb h ("argon:" +:+ p);
  check_needs_rehash := fun _ => false
|}.
#[export] Instance plain_argon_laws : Argon2Laws plain_argon.
Proof. intros p n. apply String.eqb_refl. Qed.
#[export] Instance plain_digest : Digest := fun s => "sha:" +:+ s.
#[export] Instance plain_mac : CsrfMac := fun key m => key +:+ m.

Definition site : text := chars "https://crew.local".
Definition auth_settings : AuthSettings := mkAuthSettings 3600 86400 3 "secret" [site] (chars "https://crew.local:8443/ui") true.
Definition from_site (method : string) (cookie : option string) (csrf : string) : HttpRequest :=
  mkHttpRequest method (Some site) [] cookie csrf (chars "browser") (Some "10.0.0.7"%string).
Definition setup_body : BootstrapIn := mkBootstrapIn "setup-code-0123456789" "Owner" "correct horse" None.

Definition db_after {X} (m : AM X) (d : AuthDB) : AuthDB := match m d with Ok (_, d') => d' | Err _ => d end.

Definition a1 : AuthState := mkAuthState (db_after (issue_setup_code "setup-code-0123456789" 24 0) auth0) ∅ 0.
Definition setup_request : HttpRequest := from_site "POST" None "".
Definition a2 : AuthState :=
  (limited auth_settings "bootstrap" setup_request 0 (bootstrap auth_settings setup_request setup_body 1 "first" (seconds 10)) a1).2.
Definition a3 : AuthState := mkAuthState (as_db a2) (as_hits a2) (seconds 10).

Lemma a3_reached : rtc (astep auth_settings) (initial_auth 0) a3.
Proof.
  eapply rtc_l; [apply (at_issue auth_settings (initial_auth 0) "setup-code-0123456789" 24 0 (as_db a1)); [done|reflexivity]|].
  apply rtc_once.
  destruct (limited auth_settings "bootstrap" setup_request 0 (bootstrap auth_settings setup_request setup_body 1 "first" (seconds 10)) a1)
    as [v s'] eqn:E.
  assert (Hs : a3 = mkAuthState (as_db s') (as_hits s') (seconds 10)) by (unfold a3, a2; by rewrite E). rewrite Hs.
  by apply (at_bootstrap auth_settings a1 setup_request setup_body 1 "first" 0 (seconds 10) v s').
Qed.


Definition login_request : HttpRequest := from_site "POST" None "".
Definition sign_in : AM (Result PlatformError SessionOut) :=
  login auth_settings login_request " OWNER " "correct horse" 2 "second" (seconds 20).
Definition change_request : HttpRequest := from_site "POST" (Some "second"%string) "secretcsrf:sha:second".

Example logins :
  map (fun p => match login auth_settings login_request "owner" p 2 "second" (seconds 20) (as_db a3) with
                | Ok (Ok _, _) => "ok"%string | Ok (Err e, _) | Err e => err_code e end) ["correct horse"; "wrong"]%string
  = ["ok"; "INVALID_CREDENTIALS"]%string.
Proof. vm_compute. reflexivity. Qed.

Lemma sign_in_works_witness :
  exists out d c d', sign_in (as_db a3) = Ok (Ok out, d) /\
    current_auth auth_settings change_request (seconds 30) d = Ok (c, d') /\ us_id (ac_user c) = so_user out.
Proof.
  destruct (sign_in (as_db a3)) as [[v d]|e] eqn:E; [|vm_compute in E; discriminate].
  pose proof (sign_in_works auth_settings 0 a3 login_request " OWNER " "correct horse" 2 "second" (seconds 20) v d a3_reached) as H.
  specialize (H ltac:(vm_compute; discriminate) E). destruct v as [out|err]; [|vm_compute in E; discriminate].
  assert (Ho : out = mkSessionOut 0 "secretcsrf:sha:second" (seconds 86420) (seconds 3620)
                       (set_cookies auth_settings "second" "secretcsrf:sha:second" (seconds 86420) (seconds 20)))
    by (vm_compute in E; injection E as <- _; vm_compute; reflexivity).
  subst out. destruct (proj2 H change_request (seconds 30)) as (c & d' & Hc & Hu);
    [reflexivity|discriminate|vm_compute; reflexivity|vm_compute; reflexivity|intros _; vm_compute; split; [reflexivity|split; [reflexivity|discriminate]]|].
  eexists _, d, c, d'. split; [reflexivity|]. split; [exact Hc|exact Hu].
Defined.

(** The owner signs out on the first device. *)
Definition first_request : HttpRequest := from_site "DELETE" (Some "first"%string) "secretcsrf:sha:first".
Definition a4 : AuthState := mkAuthState (db_after (logout auth_settings first_request (seconds 40)) (as_db a3)) (as_hits a3) (seconds 40).

Lemma sessions_guarded_witness :
  logout auth_settings first_request (seconds 40) (as_db a3) = Ok (tt, as_db a4) /\
  current_auth auth_settings (from_site "GET" (Some "first"%string) "") (seconds 50) (as_db a4) = Err SESSION_EXPIRED.
Proof.
  assert (E : logout auth_settings first_request (seconds 40) (as_db a3) = Ok (tt, as_db a4)) by (vm_compute; reflexivity).
  split; [exact E|].
  destruct (sessions_guarded auth_settings 0 a3 first_request (seconds 40) a3_reached) as [_ H]; [vm_compute; discriminate|].
  exact (H (as_db a4) a4 (from_site "GET" (Some "first"%string) "") (seconds 50) E (rtc_refl _ _) eq_refl).
Defined.

(** Three attempts a minute. *)
Definition three : RateLimiter := mkLimiter 3 (seconds 60).
Definition attempts : list Z := [seconds 50; seconds 40; seconds 30; seconds 20; 0].

Lemma limiter_exact_witness :
  admitted three attempts = [seconds 30; seconds 20; 0] /\ (allow three (seconds 61) (limited_run three attempts)).1 = true.
Proof.
  split; [vm_compute; reflexivity|].
  destruct (limiter_exact three (seconds 61) attempts) as [H _].
  - vm_compute. discriminate.
  - repeat constructor; discriminate.
  - rewrite H. vm_compute. reflexivity.
Defined.

(** ** The agent API *)

Definition broker_config : Json :=
  JObj [("spreadsheetId", JStr "sheet"); ("inputRange", JStr "People!A1:C100"); ("resultRange", JStr "Results!A:H");
        ("script", JStr "Hello {name}, how are you?"); ("maxCalls", JNum 2)]%string.
Definition broker_permissions : Json :=
  JObj [("llmProfiles", JList []); ("knowledge", JList []); ("cloudProviders", JList []); ("startsAgents", JList []);
        ("connectors", JObj [("google", JList [JStr "spreadsheets"]); ("twilio", JList [JStr "call.fixed_script"]);
                             ("github", JList []); ("sip", JList [])])]%string.
Definition broker_run : RunRows :=
  run_at db4 <| rr_run ::= fun r => r <| run_config_snapshot := broker_config |> <| run_permissions_snapshot := broker_permissions |> |>.
Definition broker_db : DB := db4 <| db_runs ::= <[demo_rid := broker_run]> |>.
Definition broker_token : Token :=
  (mint "key" demo_rid 1 5 7 ["google.spreadsheets"; "twilio.call.fixed_script"]%string None 900 (seconds 6)
     "00000000000000000000000000000065").1.

Definition read_people : AgentRequest := ASheetsGet "sheet" "People!A2:B10".

Example sheets_requests :
  map (fun r => match serve "key" (seconds 10) (internal_run broker_db) demo_rid broker_token r with
                | Ok _ => "ok"%string | Err e => err_code e end)
    [read_people; ASheetsGet "sheet" "People!A2:D10"; ASheetsGet "other" "People!A2:B10"; AGmailGet "m1"]%string
  = ["ok"; "PERMISSION_DENIED"; "PERMISSION_DENIED"; "CAPABILITY_DENIED"]%string.
Proof. vm_compute. reflexivity. Qed.

Lemma only_key {A} (m : gmap uuid A) k i v : (map_to_list m).*1 = [k] -> m !! i = Some v -> i = k.
Proof.
  intros E H. apply elem_of_map_to_list in H. assert (Hi : i ∈ (map_to_list m).*1) by (apply list_elem_of_fmap; by exists (i, v)).
  rewrite E in Hi. by apply list_elem_of_singleton in Hi.
Qed.


(** ** Telephone calls *)

#[export] Instance demo_phone_hash : PhoneHash := fun _ => "hash"%string.

Definition tel_settings : TelSettings := mkTelSettings false [] (chars "https://crew.example").
Definition demo_config_of : uuid -> Json := fun _ => broker_config.
Definition ann : CallIn := mkCallIn (chars "+15551234567") (chars "x") (chars "Hello Ann, how are you?") 10 "ann".
Definition ann_args : CallArgs :=
  mkCallArgs 0 "ann" (chars "+15551234567") DISCLOSURE (chars "Hello Ann, how are you?") 10 2.
Definition ann_sid : text := chars "CA0123456789abcdef0123456789abcdef".
Definition ann_grant : Grant :=
  mkGrant (mkClaims "t" (uuid_str 0) 1 "i" "v" ["twilio.call.fixed_script"]%string (JObj []) 0 0)
    (JObj [("config", broker_config)]%string) ["twilio.call.fixed_script"]%string broker_token.
Definition ann_params : Params := [("CallSid"%string, ann_sid); ("To"%string, chars "+15551234567")].

Definition state_of {A} (m : CM A) (d : Calls) : Calls := match m d with Ok (_, d') => d' | Err _ => d end.

Definition phone1 : Phone :=
  phone0 <| ph_calls := state_of (create_begin tel_settings ann_args true) (ph_calls phone0) |>
         <| ph_tasks ::= <[0%nat := Dialing 0 (ca_to ann_args)]> |>.
Definition phone2 : Phone := phone1 <| ph_tasks ::= <[0%nat := Dialed 0]> |> <| ph_dials ::= fun l => (0%N, ca_to ann_args) :: l |>.
Definition phone3 : Phone := phone2 <| ph_twilio ::= <[0%N := Placed ann_sid]> |>.
Definition phone4 : Phone := phone3 <| ph_tasks ::= <[1%nat := callback_read Voice 0 ann_params (ph_calls phone3)]> |>.
Definition phone5 : Phone := phone4 <| ph_tasks ::= <[0%nat := Answering 0 (Status 201 ann_sid "queued")]> |>.

Abbreviation demo_steps := (rtc (pstep tel_settings demo_config_of)).

Lemma phone4_reached : demo_steps phone0 phone4.
Proof.
  eapply (rtc_l _ _ phone1).
  { apply (ps_create tel_settings demo_config_of phone0 0 ann_grant 0 ann ann_args true (New 0) (ph_calls phone1)); vm_compute; reflexivity. }
  eapply (rtc_l _ _ phone2); [apply ps_dial; vm_compute; reflexivity|].
  eapply (rtc_l _ _ phone3).
  { apply ps_decide; [apply elem_of_cons; by left|done|]. intros sid [= <-]. split; [vm_compute; reflexivity|]. intros i H. done. }
  apply rtc_once, (ps_callback tel_settings demo_config_of phone3 1 Voice 0 ann_params);
    [vm_compute; reflexivity|vm_compute; reflexivity|right; apply elem_of_cons; by left].
Qed.

Lemma phone5_reached : demo_steps phone0 phone5.
Proof.
  eapply rtc_r; [exact phone4_reached|].
  apply (ps_answer tel_settings demo_config_of phone4 0 0 (Status 201 ann_sid "queued")); vm_compute; reflexivity.
Qed.

Definition ann_call : TelephonyCall := new_call ann_args 0.

Lemma ann_row : row phone4 0 = Some ann_call.
Proof. vm_compute. reflexivity. Qed.

Lemma calls_placed_once_witness :
  ph_dials phone4 = [(0%N, chars "+15551234567")] /\ create_begin tel_settings ann_args true (ph_calls phone4) = Ok (Existing (view ann_call), ph_calls phone4).
Proof.
  split; [vm_compute; reflexivity|].
  destruct (calls_placed_once tel_settings demo_config_of phone4 phone4_reached) as (_ & _ & _ & H).
  destruct (H phone4 0%N ann_call ann_args ann_row (rtc_refl _ _) eq_refl eq_refl) as (c' & Hr & _ & Hc); [vm_compute; reflexivity|].
  rewrite ann_row in Hr. injection Hr as <-. rewrite Hc. vm_compute. reflexivity.
Defined.

Lemma calls_forward_witness : exists c', row phone5 0 = Some c' /\ forward ann_call c'.
Proof.
  apply (calls_forward tel_settings demo_config_of phone4 phone5 phone4_reached); [|exact ann_row].
  apply rtc_once. apply (ps_answer tel_settings demo_config_of phone4 0 0 (Status 201 ann_sid "queued")); vm_compute; reflexivity.
Defined.

Lemma create_settles_witness :
  exists r d c, record_answer 0 (Status 201 ann_sid "queued") (ph_calls phone5) = Ok (r, d) /\ cs_calls d !! 0%N = Some c /\
    tc_provider_sid c = Some ann_sid.
Proof.
  destruct (create_settles tel_settings demo_config_of phone5 0 0 (Status 201 ann_sid "queued") phone5_reached) as (r & d & c & Hr & Hc & Hs & _).
  - vm_compute. reflexivity.
  - exists r, d, c. split; [exact Hr|]. split; [exact Hc|]. exact (proj2 Hs).
Defined.

Lemma callbacks_answered_witness :
  ph_tasks phone5 !! 1%nat = Some (Adopting Voice 0 ann_params) /\
  exists s', demo_steps phone5 s' /\ answered tel_settings demo_config_of s' 1 Voice 0.
Proof.
  assert (E : ph_tasks phone5 !! 1%nat = Some (Adopting Voice 0 ann_params)) by (vm_compute; reflexivity).
  split; [exact E|].
  exact (callbacks_answered tel_settings demo_config_of phone5 1 (Adopting Voice 0 ann_params) Voice 0 phone5_reached E eq_refl).
Defined.

(** ** Callbacks *)

(** A signature of the right shape that depends on the key only. *)
Definition demo_signature (key : text) : text := repeat (if bool_decide (key = chars "token") then "t"%char else "u"%char) 27 ++ ["="%char].
#[export] Instance demo_hmac : Hmac := fun key _ => demo_signature key.

#[export] Instance demo_hmac_laws : HmacLaws demo_hmac.
Proof. intros key payload. unfold hmac_sha1, demo_hmac, demo_signature. case_bool_decide; vm_compute; reflexivity. Qed.

Definition signed (now : Z) (sent : option text) : CallbackRequest :=
  mkRequest now (Some (chars "token")) (chars "/api/v1/callbacks/twilio/voice/1") ann_params sent.
Definition good_callback : CallbackRequest := signed (seconds 90) (Some (demo_signature (chars "token"))).
Definition forged_history : list GuardEvent :=
  [Request (signed (seconds 80) None); CredentialsChanged; Request (signed (seconds 30) None);
   Request (signed (seconds 20) (Some (demo_signature []))); Request (signed (seconds 10) None)].

Lemma callbacks_guarded_witness :
  (check_request tel_settings good_callback (CallbackGuard.after tel_settings forged_history)).1 = Ok tt /\
  rows_of "missing_signature" (CallbackGuard.after tel_settings forged_history)
  = [mkRow "missing_signature" (seconds 80) 2; mkRow "missing_signature" (seconds 10) 1].
Proof.
  split; [|vm_compute; reflexivity].
  assert (E : times (Request good_callback :: forged_history) = [seconds 90; seconds 80; seconds 30; seconds 20; seconds 10])
    by reflexivity.
  destruct (callbacks_guarded tel_settings forged_history good_callback) as (H & _).
  - rewrite E. repeat constructor; discriminate.
  - rewrite E. repeat constructor; discriminate.
  - apply (proj2 H). exists (chars "token"). vm_compute. split; reflexivity.
Defined.
