(* ===== verification/WitnessesSecrets.v ===== *)
(** * Witnesses: the secret store

    A toy cipher that appends a checksum of the associated data, and a history in which a secret is
    stored, the master key rotated, a second secret stored and the first one replaced. *)

From S2P Require Import Prelude Json Redaction JsonText SecretStore.
From Stdlib Require Import Ascii.
#[local] Open Scope Z_scope.

(** The sum of the bytes, as one repeated byte. *)
Definition checksum (aad : list ascii) : list ascii := repeat (byte (foldr Z.add 0 (map unbyte aad))) 16.

#[export] Instance plain_aead : Aead := {|
  aes_encrypt := fun _ _ p aad => p ++ checksum aad;
  aes_decrypt := fun _ _ c aad =>
    let n := (length c - 16)%nat in
    if bool_decide (drop n c = checksum aad) then Some (take n c) else None
|}.

Definition key (c : ascii) : list ascii := repeat c 32.
Definition draw (c : ascii) : Random := mkRandom (key c) (repeat c 12) (repeat c 12).
Definition keys1 : gmap Z (list ascii) := {[1 := key "a"%char]}.
Definition keys2 : gmap Z (list ascii) := <[2 := key "b"%char]> keys1.
Definition kr1 : Keyring := mkKeyring keys1 1.
Definition kr2 : Keyring := mkKeyring keys2 2.
Definition token : list ascii := chars "token".
Definition api_key : list ascii := chars "api key".

Definition secrets_after {X} (m : Tx SecretError Secrets X) (d : Secrets) : Secrets := match m d with Ok (_, d') => d' | Err _ => d end.

Definition d1 : Secrets := secrets_after (store kr1 (draw "x"%char) "google" "google_connection" 7%N token) (mkSecrets ∅ 0%N).
Definition d2 : Secrets := secrets_after (store kr2 (draw "y"%char) "openai" "provider_profile" 8%N api_key) d1.
Definition d3 : Secrets := secrets_after (replace kr2 (draw "z"%char) 0%N api_key) d2.

(** The rows of the history; the second is the other place where the first ciphertext is tried. *)
Definition row0 : EncryptedSecret := mkSecret 0%N "google" "google_connection" 7%N 2 [].
Definition row1 : EncryptedSecret := mkSecret 1%N "openai" "provider_profile" 8%N 2 [].
Definition used (aad : list ascii) : Prop := aad = row_aad 2 row0 \/ aad = row_aad 2 row1.

Lemma checksums_differ : checksum (row_aad 2 row0) <> checksum (row_aad 2 row1).
Proof. vm_compute. discriminate. Qed.

#[export] Instance plain_aead_laws : AeadLaws plain_aead used.
Proof.
  assert (Hlen : forall p aad, (length (p ++ checksum aad) - 16)%nat = length p) by (intros p aad; rewrite length_app; unfold checksum; rewrite repeat_length; lia).
  split.
  - intros k n p aad. unfold aes_decrypt, aes_encrypt, plain_aead. cbv zeta. rewrite Hlen, drop_app_length, take_app_length, bool_decide_eq_true_2; done.
  - intros k n p aad. unfold aes_encrypt, plain_aead. rewrite length_app. unfold checksum. by rewrite repeat_length.
  - intros k n p aad aad' Hu Hu' Hne. unfold aes_decrypt, aes_encrypt, plain_aead. cbv zeta. rewrite Hlen, drop_app_length, bool_decide_eq_false_2; [done|].
    pose proof checksums_differ as Hd. destruct Hu as [-> | ->], Hu' as [-> | ->]; congruence.
Qed.

Lemma draw_ok c : random_ok (draw c).
Proof. split_and!; apply repeat_length. Qed.

Definition row_at (id : uuid) (d : Secrets) : EncryptedSecret := default row0 (sd_rows d !! id).

Definition v1 : Vault := mkVault d1 keys1 (<[0%N := token]> ∅).
Definition v2 : Vault := mkVault d1 keys2 (<[0%N := token]> ∅).
Definition v3 : Vault := mkVault d2 keys2 (<[1%N := api_key]> (<[0%N := token]> ∅)).
Definition v4 : Vault := mkVault d3 keys2 (<[0%N := api_key]> (<[1%N := api_key]> (<[0%N := token]> ∅))).

Lemma vault_history : rtc vstep (vault0 keys1) v4.
Proof.
  apply (rtc_l _ _ v1); [|apply (rtc_l _ _ v2); [|apply (rtc_l _ _ v3); [|apply (rtc_l _ _ v4); [|apply rtc_refl]]]].
  - refine (vs_store _ kr1 (draw "x"%char) "google" "google_connection" 7%N token (row_at 0%N d1) d1 _ _ _); [vm_compute; reflexivity|apply draw_ok|vm_compute; reflexivity].
  - refine (vs_rotate _ 2 (key "b"%char) kr2 _ _); vm_compute; reflexivity.
  - refine (vs_store _ kr2 (draw "y"%char) "openai" "provider_profile" 8%N api_key (row_at 1%N d2) d2 _ _ _); [vm_compute; reflexivity|apply draw_ok|vm_compute; reflexivity].
  - refine (vs_replace _ kr2 (draw "z"%char) 0%N api_key d3 _ _ _); [vm_compute; reflexivity|apply draw_ok|vm_compute; reflexivity].
Qed.

(** The replaced secret opens with the rotated keyring, and not in the other row. *)
Lemma secrets_kept_witness :
  load kr2 0%N "google" d3 = Ok api_key /\ load kr2 0%N "openai" d3 = Err NotFound /\
  exists s, sd_rows d3 !! 0%N = Some s /\ decrypt kr2 (es_ciphertext s) (context_of row1) = Err Unauthentic.
Proof.
  destruct (sd_rows d3 !! 0%N) as [s|] eqn:Hs; [|exfalso; vm_compute in Hs; discriminate].
  assert (Hp : es_provider s = "google"%string /\ es_key_version s = 2 /\ context_of s = context_of row0).
  { vm_compute in Hs. injection Hs as <-. split_and!; vm_compute; reflexivity. }
  destruct Hp as (Hp & Hv & Hc).
  destruct (secrets_kept keys1 v4 kr2 0%N s
              vault_history ltac:(vm_compute; reflexivity) Hs) as (p & H1 & H2 & H3 & H4 & H5).
  unfold v4 in *. cbn [va_plain va_db va_keys] in *. rewrite lookup_insert_eq in H1. injection H1 as <-. rewrite Hp in H2. split; [exact H2|].
  split; [apply H3; rewrite Hp; discriminate|]. exists s. split; [done|]. apply H5.
  - rewrite Hc. vm_compute. discriminate.
  - left. rewrite Hv. unfold row_aad. by rewrite Hc.
  - right. by rewrite Hv.
Defined.
