(* ===== verification/WitnessesSdk.v ===== *)
(** * The agent's SDK: findings and witnesses

    A call whose connection breaks, a broker that stays away, a phone call under [once], and a
    short life of the event buffer. *)

From S2P Require Import Prelude TimeUtil Json Redaction SchemaGuard States Jobs RunModel RunService RunInv RunOps Platform.
From S2P Require Import Capability Worker Reconciler World Actions Transport Once Events Concrete.
#[local] Open Scope Z_scope.

(** ** A concrete history of [once]

    An agent of the appliance of [Concrete] makes a phone call under the key ["dial"]; a second call
    of [once] with the same key, by a later part of the agent, is served from the stored result. *)

Definition session_after {A} (m : RM A) (s : Session) : Session := match m s with Ok (_, s') => s' | Err _ => s end.

Definition dialled : Json := JObj [("to"%string, JStr "+14155550123")].
Definition dial_claimed : Session := session_after (claim_action 1 "dial" (Some "t0"%string)) running.
Definition dial_completed : Session := session_after (complete_action 1 "dial" dialled) dial_claimed.

Definition first_call (st : CallState) (v : option Json) (replies : list ActionReply) : OnceCall := mkOnceCall 1 "t0" false st v replies.
Definition second_call (st : CallState) (replies : list ActionReply) : OnceCall := mkOnceCall 1 "t1" false st None replies.
Definition reply0 : ActionReply := mkReply "dial" act_claimed None.
Definition reply1 : ActionReply := mkReply "dial" act_completed (Some (redact dialled)).

Definition ow1 : OnceWorld := mkOnceWorld running [first_call Claiming None []] [].
Definition ow2 : OnceWorld := mkOnceWorld dial_claimed [first_call Claiming None [reply0]] [].
Definition ow3 : OnceWorld := mkOnceWorld dial_claimed [first_call Running None [reply0]] [0%nat].
Definition ow4 : OnceWorld := mkOnceWorld dial_claimed [first_call (Completing dialled) (Some dialled) [reply0]] [0%nat].
Definition ow5 : OnceWorld := mkOnceWorld dial_completed [first_call (Completing dialled) (Some dialled) [reply0]] [0%nat].
Definition served_call : OnceCall := first_call (Returned (Some dialled)) (Some dialled) [reply0].
Definition ow6 : OnceWorld := mkOnceWorld dial_completed [served_call] [0%nat].
Definition ow7 : OnceWorld := mkOnceWorld dial_completed [served_call; second_call Claiming []] [0%nat].
Definition ow8 : OnceWorld := mkOnceWorld dial_completed [served_call; second_call Claiming [reply1]] [0%nat].
Definition ow9 : OnceWorld := mkOnceWorld dial_completed [served_call; second_call (Returned (Some (redact dialled))) [reply1]] [0%nat].

Lemma dial_history : rtc (once_step demo_settings "dial") (once0 running) ow9.
Proof.
  apply (rtc_l _ _ ow1). { apply (os_call _ _ (once0 running) 1 "t0"%string false). by intros c ?%elem_of_nil. }
  apply (rtc_l _ _ ow2). { refine (os_claim _ _ ow1 0 (first_call Claiming None []) reply0 dial_claimed _ _); [reflexivity|vm_compute; reflexivity]. }
  apply (rtc_l _ _ ow3). { refine (os_record _ _ ow2 0 (first_call Claiming None [reply0]) reply0 _ _ _); [reflexivity|reflexivity|by left]. }
  apply (rtc_l _ _ ow4). { refine (os_fn _ _ ow3 0 (first_call Running None [reply0]) dialled _ _); reflexivity. }
  apply (rtc_l _ _ ow5). { refine (os_complete _ _ ow4 0 (first_call (Completing dialled) (Some dialled) [reply0]) dialled reply1 dial_completed _ _ _); [reflexivity|reflexivity|vm_compute; reflexivity]. }
  apply (rtc_l _ _ ow6). { refine (os_return _ _ ow5 0 (first_call (Completing dialled) (Some dialled) [reply0]) dialled _ _); reflexivity. }
  apply (rtc_l _ _ ow7). { apply (os_call _ _ ow6 1 "t1"%string false). by intros c ->%list_elem_of_singleton. }
  apply (rtc_l _ _ ow8). { refine (os_claim _ _ ow7 1 (second_call Claiming []) reply1 dial_completed _ _); [reflexivity|vm_compute; reflexivity]. }
  apply (rtc_l _ _ ow9); [|apply rtc_refl]. refine (os_record _ _ ow8 1 (second_call Claiming [reply1]) reply1 _ _ _); [reflexivity|reflexivity|by left].
Qed.

(** ** Where the agent's SDK departs from its documentation

    The event buffer loses events without counting them when it overflows during a flush, and
    [once] does not return the stored value of an action as the action returned it. *)

Definition ids (n : nat) : list N := map N.of_nat (seq 0 n).

(** The default limits: batches of 50, a buffer of 1000.  The buffer is full (the broker was away
    for a while), a flush is delivering the first batch, and one more event is added. *)
Definition full : Ledger := foldl (fun l e => add_to 1000 e l) ledger0 (ids 1000).
Definition flushing : Ledger := mkLedger (next_batch 50 (lg_client full)) (lg_added full) (lg_sent full) (lg_rejected full) (lg_overflowed full).
Definition overrun : Ledger := add_to 1000 1000%N flushing.
Definition delivered : Ledger :=
  mkLedger (on_reply 50 Accepted (lg_client overrun)).1 (lg_added overrun) (lg_sent overrun ++ in_flight (lg_client overrun))
    (lg_rejected overrun ++ (on_reply 50 Accepted (lg_client overrun)).2) (lg_overflowed overrun).

Lemma add_all l es : rtc (ev_step 50 1000) l (foldl (fun l e => add_to 1000 e l) l es).
Proof. revert l. induction es as [|e es IH]; intros l; [apply rtc_refl|]. eapply rtc_l; [apply es_add|apply IH]. Qed.

(** Event 50 was added; it is no longer in the buffer, it was never sent, the broker did not reject
    it, and it is not one of the events the client counts as dropped; and the one event that is
    counted as dropped was delivered. *)
Theorem event_lost_uncounted :
  rtc (ev_step 50 1000) ledger0 delivered /\ 50%N ∈ lg_added delivered /\
  50%N ∉ ev_buffer (lg_client delivered) ++ lg_sent delivered ++ lg_rejected delivered ++ lg_overflowed delivered /\
  ev_dropped (lg_client delivered) = 1%nat /\ lg_overflowed delivered = [0%N] /\ 0%N ∈ lg_sent delivered.
Proof.
  split; [|split_and!].
  - apply (transitivity (R := rtc (ev_step 50 1000)) (y := full)); [exact (add_all ledger0 (ids 1000))|].
    assert (Hf : ev_flush (lg_client full) = None) by (vm_compute; reflexivity).
    refine (rtc_l _ full flushing delivered (es_flush 50 1000 full Hf) _).
    refine (rtc_l _ flushing overrun delivered (es_add 50 1000 flushing 1000%N) _).
    exact (rtc_once overrun delivered (es_reply 50 1000 overrun Accepted)).
  - apply (bool_decide_eq_true_1 (50%N ∈ lg_added delivered)). vm_compute. reflexivity.
  - apply (bool_decide_eq_false_1 (50%N ∈ ev_buffer (lg_client delivered) ++ lg_sent delivered ++ lg_rejected delivered ++ lg_overflowed delivered)). vm_compute. reflexivity.
  - vm_compute. reflexivity.
  - vm_compute. reflexivity.
  - apply (bool_decide_eq_true_1 (0%N ∈ lg_sent delivered)). vm_compute. reflexivity.
Qed.

(** Two calls of [once] with the same key and the same [fn] return different values: the second one
    gets the number masked. *)
Theorem replay_differs :
  rtc (once_step demo_settings "dial") (once0 running) ow9 /\
  exists c d, ow_calls ow9 = [c; d] /\ oc_state c = Returned (Some (JObj [("to"%string, JStr "+14155550123")])) /\
    oc_state d <> oc_state c.
Proof. split; [apply dial_history|]. eexists _, _. split; [reflexivity|]. split; [reflexivity|]. vm_compute. discriminate. Qed.

(** ** The transport *)

Definition sdk_client : BrokerClient := broker_client 2 (seconds 1).
Definition away (clock : Z) : Try := mkTry "r0" (NotSent "refused") clock clock 0.
Definition broken : Try := mkTry "r1" (ConnectionLost "reset") (seconds 1) (seconds 1) 0.


(** Four tries are enough for two attempts and a budget of a second. *)
Lemma request_bounded_witness :
  exists retried last a, request sdk_client "events" true [away 0; away 500000; away 1000000; away 1500000] = Some (retried, last, a) /\ settled a.
Proof.
  apply (request_bounded sdk_client "events" true 500000 [away 0; away 500000; away 1000000; away 1500000]).
  - lia.
  - vm_compute. reflexivity.
  - vm_compute. split; discriminate.
  - vm_compute. discriminate.
  - repeat apply Forall_cons_2; try apply Forall_nil_2; (split; [vm_compute; discriminate|split; [vm_compute; discriminate|exact I]]).
  - vm_compute. repeat split; discriminate.
  - vm_compute. discriminate.
Defined.

(** ** Actions that happen once *)


(** ** Events *)

Definition ev1 : Ledger := add_to 3 2%N (add_to 3 1%N ledger0).
Definition ev2 : Ledger := mkLedger (next_batch 2 (lg_client ev1)) (lg_added ev1) (lg_sent ev1) (lg_rejected ev1) (lg_overflowed ev1).
Definition ev3 : Ledger := add_to 3 3%N ev2.
Definition ev4 : Ledger :=
  mkLedger (on_reply 2 Accepted (lg_client ev3)).1 (lg_added ev3) (lg_sent ev3 ++ in_flight (lg_client ev3))
    (lg_rejected ev3 ++ (on_reply 2 Accepted (lg_client ev3)).2) (lg_overflowed ev3).

Lemma roomy_add e l : (length (ev_buffer (lg_client l)) < 3)%nat -> roomy 2 3 l (add_to 3 e l).
Proof. intros H. split; [constructor|]. intros ? _ _. exact H. Qed.

Lemma ev_history : rtc (roomy 2 3) ledger0 ev4.
Proof.
  apply (rtc_l _ _ (add_to 3 1%N ledger0)); [apply roomy_add; vm_compute; lia|].
  apply (rtc_l _ _ ev1); [apply roomy_add; vm_compute; lia|].
  apply (rtc_l _ _ ev2). { split; [by apply (es_flush _ _ ev1)|]. intros e _ H. vm_compute in H. by destruct H. }
  apply (rtc_l _ _ ev3); [apply roomy_add; vm_compute; lia|].
  apply (rtc_l _ _ ev4); [|apply rtc_refl]. split; [exact (es_reply 2 3 ev3 Accepted)|]. intros e E. discriminate (f_equal (fun l => length (lg_added l)) E).
Qed.

Lemma events_accounted_witness :
  1%N ∈ ev_buffer (lg_client ev4) ++ lg_sent ev4 ++ lg_rejected ev4 ++ lg_overflowed ev4 /\ lg_sent ev4 = [1%N; 2%N].
Proof.
  split; [|vm_compute; reflexivity].
  apply (proj1 (events_accounted 2 3 ev4 ev_history)). vm_compute. by left.
Defined.
