(* ===== verification/WitnessesInference.v ===== *)
(** * Inference in the model gateway: findings and witnesses

    The histories in which a budget is overrun and kept.  A streamed request within its budget, a cloud request routed with a token, and a key served from
    the cache. *)

From S2P Require Import Prelude TimeUtil Json Redaction PyValue JsonText SchemaGuard States Jobs RunModel RunService RunInv.
From S2P Require Import RunOps Platform Capability Worker Reconciler World SystemProps Pagination Manifest SecretStore Inference InferenceProps.
From S2P Require Import Concrete WitnessesSecrets.
From Stdlib Require Import Ascii.
#[local] Open Scope Z_scope.

(** ** Where the gateway's token budgets depart from their documentation

    [_check_budgets] promises "recorded usage plus every in-flight reservation"; [chat] drops its
    reservation before it records the usage of the answer, so between the two a check sees neither. *)

(** A limit of 1000 tokens per run, and two requests that reserve 601 each. *)
Definition small_budget : InferenceSettings := mkInferenceSettings 8192 1000 0 [] [] "claude-opus-5".
Definition spender : Caller := mkCaller "run" "r1" ["llm.profile:local.general.small"]%string [] (Some 1).
Definition chat_body : Json :=
  JObj [("profile", JStr "local.general"); ("messages", JList [JObj [("role", JStr "user"); ("content", JStr "hello")]]);
        ("maxOutputTokens", JNum 600)]%string.
Definition long_answer : ChatResult := mkChatResult "ok" "stop" "local" "small" 1 600 5 None None false None [].

Definition play (evs : list Event) (sv : Service) : option Service := fold_left (fun o ev => o ≫= step small_budget ev) evs (Some sv).
Definition passes (i : nat) : list Event := [Checks i; Checks i; Checks i; Checks i; Acquires i None].

(** Both requests are answered within their reservations, the second one starts after the first was
    answered, and the run has used 1202 tokens of 1000. *)
Theorem budget_overrun :
  exists sv, play ([Arrives false spender chat_body []] ++ passes 0 ++ [Replies 0 (Answered long_answer); Arrives false spender chat_body []]
                   ++ passes 1 ++ [Records 0; Replies 1 (Answered long_answer); Records 1]) (service0 0) = Some sv /\
    Inference.used (by_run "r1") (sv_ledger sv) = 1202 /\ is_per_run_token_limit small_budget = 1000.
Proof. eexists. split; [vm_compute; reflexivity|]. split; vm_compute; reflexivity. Qed.

(** When the first usage is recorded before the second check, the second request is refused. *)
Theorem budget_kept_in_order :
  exists sv, play ([Arrives false spender chat_body []] ++ passes 0 ++ [Replies 0 (Answered long_answer); Records 0; Arrives false spender chat_body [];
                   Checks 1; Checks 1]) (service0 0) = Some sv /\
    Inference.used (by_run "r1") (sv_ledger sv) = 601 /\
    rq_phase <$> sv_requests sv !! 1%nat = Some (Finished (Some (mkError "RUN_TOKEN_BUDGET_EXCEEDED" 429 []))).
Proof. eexists. split; [vm_compute; reflexivity|]. split; vm_compute; reflexivity. Qed.

(** ** Budgets *)

Definition at_event (evs : list Event) : Service := default (service0 0) (play evs (service0 0)).
Definition stream_events : list Event := [Arrives true spender chat_body []] ++ passes 0 ++ [Replies 0 (Answered long_answer); Records 0; Releases 0].

Definition eager (ev : Event) (sv : Service) : bool :=
  match ev with
  | Checks i => forallb (fun q => match rq_phase q with Recording _ _ => false | _ => true end) (sv_requests sv) &&
      match sv_requests sv !! i with
      | Some q => match rq_phase q with
                  | Checking n (Some u) => match check_at small_budget n (rq_prepared q) with Some ck => u =? ck_used ck (sv_ledger sv) | None => true end
                  | _ => true
                  end
      | None => true
      end
  | Replies _ _ => false
  | _ => true
  end.

Lemma eager_tame ev sv sv' : eager ev sv = true -> tame small_budget ev sv sv'.
Proof.
  destruct ev; try done. intros [Hall Hi]%andb_true_iff q n u ck Hq Hph Hck. rewrite Hq, Hph, Hck in Hi. split; [by apply Z.eqb_eq|].
  intros q' d Hin Hrec. rewrite forallb_forall in Hall. specialize (Hall q' (proj1 (list_elem_of_In _ _) Hin)). by rewrite Hrec in Hall.
Qed.

Definition answered_service : Service := at_event (take 7 stream_events).
Definition stream_done : Service := at_event stream_events.

Fixpoint play_eager (evs : list Event) (sv : Service) : option Service :=
  match evs with
  | [] => Some sv
  | ev :: evs' => if eager ev sv then step small_budget ev sv ≫= play_eager evs' else None
  end.

Lemma eager_history evs sv sv' : play_eager evs sv = Some sv' -> rtc (tame_step small_budget) sv sv'.
Proof.
  revert sv. induction evs as [|ev evs IH]; intros sv; cbn; [intros [= ->]; apply rtc_refl|].
  destruct (eager ev sv) eqn:E; [|done]. intros H. apply bind_Some in H as (sv1 & H1 & H2). eapply rtc_l; [exists ev; split; [exact H1|by apply eager_tame]|by apply IH].
Qed.

Lemma stream_history : rtc (tame_step small_budget) (service0 0) stream_done.
Proof.
  assert (H1 : rtc (tame_step small_budget) (service0 0) (at_event (take 6 stream_events))).
  { apply (eager_history (take 6 stream_events)). vm_compute. reflexivity. }
  assert (H3 : rtc (tame_step small_budget) answered_service stream_done).
  { apply (eager_history [Records 0; Releases 0]). vm_compute. reflexivity. }
  etransitivity; [exact H1|]. eapply rtc_l; [|exact H3]. exists (Replies 0 (Answered long_answer)). split; [vm_compute; reflexivity|].
  intros q d h Hq Hph.
  assert (E : (fun q => (rq_phase q, pr_reserved (rq_prepared q))) <$> sv_requests answered_service !! 0%nat = Some (Recording (finish_draft long_answer) true, 601))
    by (vm_compute; reflexivity).
  rewrite Hq in E. cbn [fmap option_fmap option_map] in E. rewrite Hph in E. injection E as -> _ ->. vm_compute. split; discriminate.
Qed.


(** ** Routing *)

Definition cloud_token : Token :=
  (mint "key" demo_rid 1 5 7 ["cloud.openai"; "llm.profile:openai.default"]%string None 900 (seconds 6) "token-1").1.
Definition run_view : Json :=
  JObj [("state", JStr "RUNNING"); ("currentAttempt", JNum 1); ("capabilityTokenId", JStr "token-1")]%string.
Definition openai_row : ProviderProfile :=
  mkProfileRow 8%N "openai" (Some 1%N) (JList [JStr "gpt-5"]) (JObj []) true "CONNECTED" 0.
Definition cloud_body : Json :=
  JObj [("profile", JStr "openai.default"); ("messages", JList [JObj [("role", JStr "user"); ("content", JStr "hello")]])]%string.
Definition ledger1 : Ledger := sv_ledger (service0 0).

Definition cloud_caller : Caller :=
  mkCaller "run" (uuid_str demo_rid) ["cloud.openai"; "llm.profile:openai.default"]%string [] (Some 1).

Lemma routed_as_authorized_witness :
  llm_caller (Some cloud_token) NoClient cloud_body "key" (seconds 10) (fun _ => Ok (Some run_view)) = Ok cloud_caller /\
  exists p l', prepare small_budget cloud_caller cloud_body [openai_row] ledger1 = Ok (p, l') /\ pr_target p = "gpt-5"%string /\
    pr_reserved p = estimate (pr_request p).
Proof.
  assert (Hc : llm_caller (Some cloud_token) NoClient cloud_body "key" (seconds 10) (fun _ => Ok (Some run_view)) = Ok cloud_caller) by (vm_compute; reflexivity).
  split; [exact Hc|].
  assert (E : match prepare small_budget cloud_caller cloud_body [openai_row] ledger1 with Ok (p, _) => pr_target p | Err _ => EmptyString end = "gpt-5"%string)
    by (vm_compute; reflexivity).
  destruct (prepare small_budget cloud_caller cloud_body [openai_row] ledger1) as [[p l']|e] eqn:Hp; [|discriminate E].
  exists p, l'. split; [reflexivity|]. split; [exact E|].
  exact (proj1 (routed_as_authorized small_budget (Some cloud_token) NoClient "key" (seconds 10) (fun _ => Ok (Some run_view))
                  cloud_caller cloud_body [openai_row] ledger1 p l' Hc Hp)).
Defined.

(** ** Keys *)

(** The key of the connection is loaded, and half a minute later served from the cache. *)
Definition key_call (cached : bool) (now : instant) (db : Secrets) : KeyCall := mkKeyCall "openai" None cached now [openai_row] db.
Definition warm : KeyCache := (ask_key kr2 (seconds 60) (key_call true 0 d2) ∅).2.

Lemma keys_expire_witness :
  (ask_key kr2 (seconds 60) (key_call true (seconds 30) (mkSecrets ∅ 2%N)) warm).1 = Some api_key /\
  exists o, kc_db o = d2 /\ seconds 30 < kc_now o + seconds 60.
Proof.
  assert (E : (ask_key kr2 (seconds 60) (key_call true (seconds 30) (mkSecrets ∅ 2%N)) warm).1 = Some api_key) by (vm_compute; reflexivity).
  split; [exact E|].
  assert (HK : key_calls kr2 (seconds 60) [key_call true 0 d2] warm) by (apply (kc_call kr2 (seconds 60) [] ∅), kc_start).
  destruct (keys_expire kr2 (seconds 60) _ warm (key_call true (seconds 30) (mkSecrets ∅ 2%N)) api_key HK E)
    as (p & sid & _ & _ & _ & _ & o & Ho & Hl & Hor).
  destruct Hor as [-> | [_ Hlt]]; [exfalso; vm_compute in Hl; discriminate|].
  apply elem_of_cons in Ho as [-> | Ho]; [exfalso; vm_compute in Hl; discriminate|].
  apply list_elem_of_singleton in Ho as ->. exists (key_call true 0 d2). split; [reflexivity|exact Hlt].
Defined.
