(* ===== verification/WitnessesGoogle.v ===== *)
(** * The Google connector: findings and witnesses

    The history in which a request is repeated without its scope, and histories on which the theorems of [GoogleProps] are applied. *)

From S2P Require Import Prelude Json Redaction JsonText Platform SecretStore Inference BrokerApi Google GoogleProps WitnessesSecrets.
From Stdlib Require Import Ascii.
#[local] Open Scope Z_scope.

(** ** Findings: the Google connector

    The history in which the owner connects again, without Gmail, while Google refuses the token of
    a Gmail request: the request is repeated on the new connection.  Also used by the witnesses. *)

(** SHA-256 and the PKCE challenge leave their argument as it is. *)
#[local] Instance plain_digest : Digest := fun s => s.
Definition gsettings : GoogleSettings := mkGoogleSettings false "client" "https://device/api/v1/connections/google/callback".
Definition play (evs : list Event) (w : World) : option World := foldl (fun w ev => w ≫= gstep gsettings id kr1 ev) (Some w) evs.

Definition gmail : string := "gmail.readonly".
Definition sheets : string := "spreadsheets".
Definition token_body (access refresh scope : string) : list (string * Json) :=
  [("access_token", JStr access); ("refresh_token", JStr refresh); ("expires_in", JNum 3600); ("scope", JStr scope)]%string.
Definition both_urls : string := join " " (map snd SCOPES).
Definition sheets_url : string := "https://www.googleapis.com/auth/spreadsheets".
Definition inbox : Downstream := GmailList "is:unread" None 10 [].

(** Connected with both scopes as connection 1; a request for the inbox is under way as task 1. *)
Definition connected : list Event :=
  [Starts 7%N [gmail; sheets] "state1" "verifier1" "binding1"; Returns "state1" (Some "code1"%string) None (Some "binding1"%string);
   TokenReplies 0 (Response 200 (token_body "access1" "refresh1" both_urls));
   ApiReplies 0 (Response 200 [("emailAddress", JStr "owner@example.com")]%string); Commits 0 1%N (draw "x"%char) 0; Asks inbox].
(** Connected again as connection 2, for Sheets only; then the request is refused. *)
Definition reconnected : list Event :=
  connected ++
  [Starts 7%N [sheets] "state2" "verifier2" "binding2"; Returns "state2" (Some "code2"%string) None (Some "binding2"%string);
   TokenReplies 2 (Response 200 (token_body "access2" "refresh2" sheets_url)); Commits 2 2%N (draw "y"%char) 0; ApiReplies 1 (Response 401 [])].

Definition w_connected : World := default (world0 0 (mkSecrets ∅ 0%N)) (play connected (world0 0 (mkSecrets ∅ 0%N))).
Definition w_reconnected : World := default (world0 0 (mkSecrets ∅ 0%N)) (play reconnected (world0 0 (mkSecrets ∅ 0%N))).

(** The repetition asks for the inbox with the token of a connection whose consent has no Gmail scope:
    [_call] drops the scopes that [_access_token] returns the second time. *)
Theorem retried_without_scope :
  play reconnected (world0 0 (mkSecrets ∅ 0%N)) = Some w_reconnected /\
  last (w_sent w_reconnected) = Some (SentApi 1 inbox true "access2" 2%N) /\
  gc_scopes <$> cn_connections (w_cn w_reconnected) !! 2%N = Some [sheets] /\
  hr_scope <$> google_request inbox = Some gmail.
Proof. vm_compute. done. Qed.

#[local] Existing Instance plain_digest.
Abbreviation glives := (lives gsettings id kr1).

Lemma play_lives evs w w' : Forall sound evs -> play evs w = Some w' -> rtc glives w w'.
Proof.
  unfold play. revert w. induction evs as [|ev evs IH]; intros w Hs H; [injection H as <-; apply rtc_refl|].
  apply Forall_cons in Hs as [Hev Hs]. cbn [foldl] in H. destruct (Some w ≫= gstep gsettings id kr1 ev) as [w1|] eqn:E.
  - eapply rtc_l; [exists ev; split; [exact Hev|exact E]|]. by apply IH.
  - exfalso. clear -H. induction evs as [|e evs IH]; [discriminate|]. apply IH, H.
Qed.

Lemma sound_reconnected : Forall sound reconnected.
Proof.
  unfold reconnected, connected. cbn [app]. repeat (apply Forall_cons; split).
  all: first [by apply Forall_nil|intros j c r utc E; try discriminate; injection E as _ _ <- _; apply draw_ok].
Qed.
Lemma kr1_ok : kr_ok kr1.
Proof. split; [cbn; lia|]. exists (key "a"%char). reflexivity. Qed.
Lemma no_google_secrets : google_secrets (mkSecrets ∅ 0%N) = ∅.
Proof. reflexivity. Qed.
Lemma reconnected_history : rtc glives (world0 0 (mkSecrets ∅ 0%N)) w_reconnected.
Proof. apply (play_lives reconnected); [apply sound_reconnected|vm_compute; reflexivity]. Qed.

(** Two consents were exchanged, and the first connection was replaced. *)
Lemma consents_bound_witness :
  map ex_key (w_exchanges w_reconnected) = ["state2"; "state1"]%string /\ NoDup (map ex_key (w_exchanges w_reconnected)).
Proof.
  split; [vm_compute; reflexivity|].
  exact (proj1 (consents_bound gsettings id kr1 kr1_ok 0 _ w_reconnected no_google_secrets reconnected_history)).
Defined.

(** The inbox was asked for twice. *)
Lemma google_asked_as_granted_witness :
  w_sent w_reconnected = [SentApi 1 inbox false "access1" 1%N; SentApi 1 inbox true "access2" 2%N] /\ NoDup (map sent_key (w_sent w_reconnected)).
Proof.
  split; [vm_compute; reflexivity|].
  exact (proj1 (proj2 (proj2 (google_asked_as_granted gsettings id kr1 kr1_ok 0 _ w_reconnected no_google_secrets reconnected_history)))).
Defined.


(** The repeated request has a step to take. *)
Lemma google_calls_settle_witness :
  w_tasks w_reconnected !! 1%nat = Some (Requesting inbox true "access2" 2%N) /\
  exists j f0 ev w', w_tasks w_reconnected !! j = Some f0 /\ ev <> Dies j /\ gstep gsettings id kr1 ev w_reconnected = Some w' /\ w_tasks w' !! j <> Some f0.
Proof.
  split; [vm_compute; reflexivity|].
  destruct (proj2 (proj2 (google_calls_settle gsettings id kr1 kr1_ok 0 _ w_reconnected inbox no_google_secrets reconnected_history))
              1%nat (Requesting inbox true "access2" 2%N) ltac:(vm_compute; reflexivity) eq_refl) as (j & f0 & ev & w' & H1 & _ & _ & H2 & H3 & H4).
  exists j, f0, ev, w'. exact (conj H1 (conj H2 (conj H3 H4))).
Defined.
