(* ===== verification/WitnessesProfiles.v ===== *)
(** * Provider accounts: findings and witnesses

    Histories of concurrent tests, on which also the theorems of [ProfilesProps] are applied. *)

From S2P Require Import Prelude Json Redaction JsonText Platform SecretStore Inference Telephony Profiles ProfilesProps WitnessesSecrets WitnessesGoogle.
From Stdlib Require Import Ascii.
#[local] Open Scope Z_scope.

(** ** Findings: provider accounts

    Two histories in which concurrent tests do what their documentation rules out.  Also used by the
    witnesses. *)

Definition anyone (to : text) : bool := true.
Definition play (evs : list Event) (w : World) : option World := foldl (fun w ev => w ≫= step kr1 (seconds 60) anyone ev) (Some w) evs.
Definition start : World := world0 (mkSecrets ∅ 0%N).

Definition openai_key : ProviderProfileIn := mkProfileIn 7%N "openai" "Work" "sk-0123456789" [] [] true.
Definition sid : string := "AC0123456789abcdef0123456789abcdef".

(** A connected key; two tests of it start; the second is told that the key is revoked and the first
    meets a provider that is down. *)
Definition revoked : list Event :=
  [Creates openai_key 1%N (draw "x"%char); TestsKey 1%N; Reads 0; Judges 0 Accepted; Ends 0;
   TestsKey 1%N; TestsKey 1%N; Reads 1; Reads 2; Judges 2 (Rejected (Some 401)); Ends 2].
Definition outage : list Event := revoked ++ [Judges 1 (Rejected (Some 503)); Ends 1].
Definition status_at (id : uuid) (w : World) : option string := (fun r => pf_status (pw_row r)) <$> find_row id (w_ac w).

Definition w_revoked : World := default start (play revoked start).
Definition w_outage : World := default start (play outage start).

(** The transient failure writes back the status it read before the key was rejected, so the rejected
    key is used for calls again. *)
Theorem transient_failure_promotes :
  play outage start = Some w_outage /\
  status_at 1%N w_revoked = Some "ERROR"%string /\ active_profile "openai" (map pw_row (ac_rows (w_ac w_revoked))) = None /\
  status_at 1%N w_outage = Some "CONNECTED"%string /\ bool_decide (is_Some (active_profile "openai" (map pw_row (ac_rows (w_ac w_outage))))) = true.
Proof. vm_compute. done. Qed.

(** Two test calls that arrive together: the interval is checked before the credentials are awaited
    and the time of the last call is set after. *)
Definition two_calls : list Event :=
  [Configures 7%N sid "0123456789abcdef" "+15550001111" 2%N (draw "x"%char);
   Calls 7%N (chars "+15550002222"); Calls 7%N (chars "+15550002222"); Reads 1; Reads 2].
Definition w_calls : World := default start (play two_calls start).

Theorem test_calls_together : play two_calls start = Some w_calls /\ w_dialed w_calls = [0; 0].
Proof. vm_compute. done. Qed.

Lemma accounts_play evs w w' : Forall ProfilesProps.sound evs -> play evs w = Some w' -> rtc (ProfilesProps.lives kr1 (seconds 60) anyone) w w'.
Proof.
  unfold play. revert w. induction evs as [|ev evs IH]; intros w Hs H; [injection H as <-; apply rtc_refl|].
  apply Forall_cons in Hs as [Hev Hs]. cbn [foldl] in H. destruct (Some w ≫= step kr1 (seconds 60) anyone ev) as [w1|] eqn:E.
  - eapply rtc_l; [exists ev; split; [exact Hev|exact E]|]. by apply IH.
  - exfalso. clear -H. induction evs as [|e evs IH]; [discriminate|]. apply IH, H.
Qed.

Lemma revoked_history : rtc (ProfilesProps.lives kr1 (seconds 60) anyone) start w_revoked.
Proof.
  apply (accounts_play revoked); [|vm_compute; reflexivity]. unfold revoked. repeat (apply Forall_cons; split).
  all: first [by apply Forall_nil|exact I|apply draw_ok].
Qed.
Lemma outage_history : rtc (ProfilesProps.lives kr1 (seconds 60) anyone) start w_outage.
Proof.
  apply (accounts_play outage); [|vm_compute; reflexivity]. unfold outage, revoked. cbn [app]. repeat (apply Forall_cons; split).
  all: first [by apply Forall_nil|exact I|apply draw_ok].
Qed.


(** The rejected key is reported, and not used. *)
Lemma reported_as_routed_witness :
  sx_status (provider_status "openai" (w_ac w_revoked)) = "NEEDS_ATTENTION"%string /\
  (sx_status (provider_status "openai" (w_ac w_revoked)) = "CONNECTED"%string <->
     is_Some (active_profile "openai" (map pw_row (ac_rows (w_ac w_revoked))))).
Proof.
  split; [vm_compute; reflexivity|].
  exact (proj1 (reported_as_routed kr1 kr1_ok (seconds 60) anyone (mkSecrets ∅ 0%N) w_revoked "openai" (map_filter_empty _) revoked_history ltac:(reflexivity))).
Defined.
