(* ===== verification/WitnessesEngine.v ===== *)
(** * The runtime daemon: findings and witnesses

    Model downloads; a run that is started twice, exits and is collected, on which the theorems of
    [EngineProps] are
    applied; and three histories that show what the engine does not mean. *)

From S2P Require Import Prelude Json Redaction Downloads Regex Specs Engine EngineProps ConcreteServices.
From Stdlib Require Import Ascii.
#[local] Open Scope Z_scope.

(** ** Model downloads: findings and witnesses

    A revision of two files and what is wrong with it after a torn deletion; its first download stops in the middle of the weights, the
    second one resumes and installs it. *)

(** ** Where the model store departs from its documentation

    "Verifies every file's size and, where the source publishes one, its SHA-256": a deletion that
    the daemon did not finish leaves a manifest without its files, and the next install attempt makes
    the store report it as installed; and a repository with an empty file can never be installed. *)

(** A revision of two files, published as they are named. *)
Definition rev0 : string := "0123456789012345678901234567890123456789".
Definition plain_sha (c : list ascii) : string := unchars c.
Definition weights : FileItem := mkFileItem "model.bin" 7 (Some "weights"%string) FromHub.
Definition config : FileItem := mkFileItem "config.json" 2 None FromHub.
Definition contents (path : string) : list ascii := chars (if String.eqb path "model.bin" then "weights" else "{}").
Definition serve (item : FileItem) : list WorkEvent := [Next (fun _ => Missing); Responds 200; Chunk (contents (fi_path item)); Chunk []; Goes].
Definition whole_install : list WorkEvent :=
  Planned (Ok [weights; config]) 1000 :: serve weights ++ serve config ++ [Next (fun _ => Missing); Goes; Goes; Goes].

Definition run_events (evs : list WorkEvent) (s : Store) : Store := default s (play plain_sha 0 evs s).
Definition installed_store : Store := run_events whole_install (start_install rev0 store0).

(** The daemon stops while it deletes the model, when the weights are gone. *)
Definition torn_store : Store :=
  match half_deleted rev0 (fun _ => delete "model.bin"%string) installed_store with Ok s => s | Err _ => installed_store end.

(** The owner installs the model again and the network is down: the store reports INSTALLED, at once
    and after the attempt has failed, and the weights of its manifest are missing. *)
Theorem torn_deletion_reported_installed :
  vw_state (state rev0 torn_store) = DELETING /\
  vw_state (state rev0 (start_install rev0 torn_store)) = INSTALLED /\
  let after := run_events [Breaks] (start_install rev0 torn_store) in
  vw_state (state rev0 after) = INSTALLED /\
  exists d, so_installed after !! rev0 = Some d /\ dr_manifest d = Some [weights; config] /\ dr_files d !! fi_path weights = None.
Proof.
  split; [vm_compute; reflexivity|]. split; [vm_compute; reflexivity|]. cbv zeta. split; [vm_compute; reflexivity|].
  eexists. split; [vm_compute; reflexivity|]. split; vm_compute; reflexivity.
Qed.

(** An empty file is never requested, so it is missing when it is to be verified. *)
Definition marker : FileItem := mkFileItem "empty.txt" 0 None FromHub.

Theorem empty_file_fails :
  let s := run_events [Planned (Ok [marker]) 1000; Next (fun _ => Missing)] (start_install rev0 store0) in
  (exists done, th_work <$> so_thread s = Some (Verifying [marker] [] marker done)) /\
  vw_state (state rev0 (run_events [Goes] s)) = DOWNLOAD_ERROR /\ vw_error (state rev0 (run_events [Goes] s)) = Some "DOWNLOAD_FAILED"%string.
Proof. cbv zeta. split; [eexists; vm_compute; reflexivity|]. split; vm_compute; reflexivity. Qed.

Definition started_download : Store := start_install rev0 store0.
Definition first_part : list WorkEvent := [Planned (Ok [weights; config]) 1000; Next (fun _ => Missing); Responds 200; Chunk (chars "weig")].
Definition interrupted_store : Store := run_events first_part started_download <| so_thread := None |>.

Lemma run_history evs s s' :
  play plain_sha 0 evs s = Some s' -> Forall (fun ev => forall files free, ev = Planned (Ok files) free -> NoDup (map fi_path files)) evs ->
  rtc (store_step plain_sha 0) s s'.
Proof.
  revert s. induction evs as [|ev evs IH]; intros s; [intros [= ->] _; apply rtc_refl|]. intros H [Hev Hall]%Forall_cons. unfold play in H. cbn [fold_left mbind option_bind] in H.
  destruct (work_step plain_sha 0 ev s) as [s1|] eqn:E.
  - eapply rtc_l; [by eapply ss_work|]. by apply IH.
  - exfalso. clear -H. assert (Hn : forall evs, fold_left (fun o ev => o ≫= work_step plain_sha 0 ev) evs None = None) by (induction evs0; done). by rewrite Hn in H.
Qed.

Lemma plan_distinct : NoDup (map fi_path [weights; config]).
Proof. apply (bool_decide_eq_true_1 (NoDup (map fi_path [weights; config]))). vm_compute. reflexivity. Qed.



Definition small_data : list (string * Json) :=
  [("id", JStr "local.small"); ("backend", JStr "mock"); ("source", JObj []);
   ("launch", JObj [("image", JStr demo_image); ("args", JList [JStr "serve"; JStr "--port={port}"; JStr "{model_path}"])])]%string.
Definition small_profile : ModelProfile := match load_profile "local.small" small_data with Ok p => p | Err _ => mkModelProfile "" [] [] [] end.
Definition demo_profiles : gmap string ModelProfile := {["local.small"%string := small_profile]}.
Definition run_engine (ev : Event) (w : World) : option World := step demo_daemon "/data/runs" "/data/models" "cq-models" "linux/arm64" demo_profiles ev w.
Definition play (evs : list Event) (w : World) : option World := foldl (fun o ev => o ≫= run_engine ev) (Some w) evs.
Definition after (evs : list Event) : World := default world0 (play evs world0).
Definition works (i n : nat) : list Event := repeat (Does i (Works 0)) n.

Definition demo_name : string := match parse_spec demo_body demo_daemon with Ok s => container_name s | Err _ => EmptyString end.
Definition demo_dir : string * string := match parse_spec demo_body demo_daemon with Ok s => dir_of s | Err _ => (EmptyString, EmptyString) end.
Definition status_of (n : string) (w : World) : option CStatus := ct_status <$> dk_containers (w_docker w) !! n.

(** A start that pulls its image, and a repetition of it. *)
Definition started : list Event := [Arrives (StartRun demo_body); Arrives (StartRun demo_body)] ++ works 0 10 ++ works 1 2.
(** It exits, and is collected after eleven minutes. *)
Definition collected : list Event := started ++ [Exits demo_name 0 false; Passes (seconds 660); Arrives (Collect 600)] ++ works 2 5.

Example start_answers :
  w_tasks (after started) = [Done (Ok (Started demo_name true)); Done (Ok (Started demo_name false))] /\ status_of demo_name (after started) = Some RUNNING.
Proof. vm_compute. done. Qed.

(** ** Findings *)

(** Docker refuses the container of a run that is not tried again: the housekeeping, which is said to
    deal with orphaned run directories, leaves the directory. *)
Definition orphaned : list Event :=
  [Arrives (StartRun demo_body)] ++ works 0 8 ++ [Does 0 (Fails false); Passes (seconds 86400); Arrives (Collect 600)] ++ works 1 1.
Theorem orphaned_dir_stays :
  play orphaned world0 = Some (after orphaned) /\ w_tasks (after orphaned) = [Done (Err "DOCKER_ERROR"%string); Done (Ok (Collected []))] /\
  status_of demo_name (after orphaned) = None /\ w_dirs (after orphaned) !! demo_dir = Some (Some (JObj [])).
Proof. vm_compute. done. Qed.

(** A cancelled run is started again by a late request between the removal of its container and of its
    directory: the new container runs without the config file that is mounted into it. *)
Definition cancelled : list Event :=
  started ++ [Arrives (CancelRun demo_name 10)] ++ works 2 4 ++ [Arrives (StartRun demo_body)] ++ works 3 5 ++ works 2 2 ++ works 3 2.
Theorem config_lost :
  play cancelled world0 = Some (after cancelled) /\ status_of demo_name (after cancelled) = Some RUNNING /\ w_dirs (after cancelled) !! demo_dir = None /\
  drop 2 (w_tasks (after cancelled)) = [Done (Ok (Cancelled demo_name "exited" (Some 0))); Done (Ok (Started demo_name true))].
Proof. vm_compute. done. Qed.

(** The files of a model are deleted while its server is being started: [delete_model] looks for the
    container before there is one, and [start_model] for the files while they are there. *)
Definition small_store : Store := mkStore ∅ {["bundled"%string := mkDir ∅ (Some [])]} None None.
Definition deleted : list Event :=
  [Downloads_ "local.small" small_store; Arrives (StartModel "local.small"); Arrives (DeleteModel "local.small")] ++ works 1 3 ++ works 0 9.
Theorem deleted_under_server :
  play deleted world0 = Some (after deleted) /\ status_of (model_name small_profile) (after deleted) = Some RUNNING /\
  vw_state (Downloads.state "bundled" (store_of small_profile (after deleted))) = NOT_INSTALLED /\
  w_tasks (after deleted) = [Done (Ok (Serving "local.small" (Some RUNNING))); Done (Ok FilesDeleted)].
Proof. vm_compute. done. Qed.

(** ** Witnesses *)

Abbreviation engine_lives := (EngineProps.lives demo_daemon "/data/runs" "/data/models" "cq-models" "linux/arm64" demo_profiles).

Lemma engine_play evs w w' : play evs w = Some w' -> rtc engine_lives w w'.
Proof.
  unfold play. revert w. induction evs as [|ev evs IH]; intros w H; [injection H as <-; apply rtc_refl|].
  cbn [foldl] in H. destruct (Some w ≫= run_engine ev) as [w1|] eqn:E; [eapply rtc_l; [exists ev; exact E|by apply IH]|].
  exfalso. clear -H. induction evs as [|e evs IH]; [discriminate|]. apply IH, H.
Qed.

Lemma started_history : rtc engine_lives world0 (after started).
Proof. apply (engine_play started). vm_compute. reflexivity. Qed.
Lemma collected_history : rtc engine_lives world0 (after collected).
Proof. apply (engine_play collected). vm_compute. reflexivity. Qed.

Lemma one_container_per_attempt_witness :
  w_tasks (after started) !! 0%nat = Some (Done (Ok (Started demo_name true))) /\
  exists c, dk_containers (w_docker (after started)) !! demo_name = Some c /\ ct_status c <> CREATED.
Proof.
  assert (H : w_tasks (after started) !! 0%nat = Some (Done (Ok (Started demo_name true)))) by (vm_compute; reflexivity). split; [exact H|].
  assert (Hr : ~ removed (after started) demo_name).
  { assert (E : w_removed (after started) = []) by (vm_compute; reflexivity). intros (r & Hr & _). rewrite E in Hr. by apply elem_of_nil in Hr. }
  exact (proj1 (one_container_per_attempt _ _ _ _ _ _ _ _ started_history Hr) 0%nat true H).
Defined.

Lemma gc_spares_live_witness :
  exists r, w_removed (after collected) = [r] /\ rm_cause r = ByGc 600 /\
    (((ct_status (rm_container r) = EXITED \/ ct_status (rm_container r) = DEAD) /\
      exists t, ct_finished (rm_container r) = Some t /\ seconds 600 < rm_at r - t) \/
     (exists r', r' ∈ w_removed (after collected) /\ rm_name r' = rm_name r /\ ct_id (rm_container r') <> ct_id (rm_container r))).
Proof.
  destruct (w_removed (after collected)) as [|r [|]] eqn:E; [exfalso; vm_compute in E; discriminate| |exfalso; vm_compute in E; discriminate].
  assert (Hc : rm_cause r = ByGc 600) by (vm_compute in E; injection E as <-; reflexivity).
  exists r. split; [reflexivity|]. split; [exact Hc|]. rewrite <- E.
  refine (gc_spares_live _ _ _ _ _ _ _ r 600 collected_history _ Hc). rewrite E. left.
Defined.

Lemma containers_contained_witness :
  exists c, dk_containers (w_docker (after started)) !! demo_name = Some c /\ host "Privileged" (ct_config c) = Some (JBool false).
Proof.
  destruct (dk_containers (w_docker (after started)) !! demo_name) as [c|] eqn:E; [|exfalso; vm_compute in E; discriminate].
  exists c. split; [reflexivity|].
  assert (Hp : forall id p, demo_profiles !! id = Some p -> exists stem data, load_profile stem data = Ok p).
  { unfold demo_profiles. intros id p [_ <-]%lookup_singleton_Some. exists "local.small"%string, small_data. vm_compute. reflexivity. }
  destruct (containers_contained _ _ _ _ _ _ _ _ _ Hp started_history E) as [(b & s & _ & _ & _ & _ & H & _)|(id & p & _ & _ & _ & _ & H & _)]; exact H.
Defined.

Lemma daemon_settles_witness :
  w_tasks (after [Arrives (StartRun demo_body)]) !! 0%nat <> None /\
  exists j g o w', w_tasks (after [Arrives (StartRun demo_body)]) !! j = Some g /\ run_engine (Does j o) (after [Arrives (StartRun demo_body)]) = Some w' /\ w_tasks w' !! j <> Some g.
Proof.
  assert (Hr : rtc engine_lives world0 (after [Arrives (StartRun demo_body)])) by (apply (engine_play [Arrives (StartRun demo_body)]); vm_compute; reflexivity).
  destruct (w_tasks (after [Arrives (StartRun demo_body)]) !! 0%nat) as [f|] eqn:E; [|exfalso; vm_compute in E; discriminate].
  split; [discriminate|]. assert (Hd : is_done f = false) by (vm_compute in E; injection E as <-; reflexivity).
  destruct (proj2 (proj2 (daemon_settles _ _ _ _ _ _ _ Hr)) 0%nat f E Hd) as (j & g & o & w' & H1 & _ & H2 & H3). exists j, g, o, w'. split; [exact H1|]. split; [exact H2|exact H3].
Defined.

Lemma demux_frames_witness : demux (concat (map log_frame [("stdout", chars "hello"); ("stderr", chars "")]%string)) = [("stdout", chars "hello"); ("stderr", chars "")]%string.
Proof.
  apply demux_frames. constructor; [|constructor; [|constructor]]; (split; [cbn; auto|split; [repeat constructor|reflexivity]]).
Defined.
