(* ===== verification/WitnessesBackup.v ===== *)
(** * Backups: findings and witnesses

    File contents that remember what they encode, a device with one document and two stored secrets,
    its backups with and without the master key, and the theorems of [BackupProps] applied to them. *)

From S2P Require Import Prelude TimeUtil Json Redaction PyValue JsonText SecretStore A1 Pagination Regex Backup BackupProps WitnessesSecrets.
From Stdlib Require Import Ascii.
#[local] Open Scope Z_scope.

Inductive Blob :=
| Txt (s : string)
| JsonOf (j : Json)
| TarOf (ms : list (Member Blob))
| TgzOf (ms : list (Member Blob))
| CutTgz (ms : list (Member Blob))
| DumpOf (d : Database unit).

#[export] Instance blob_codecs : Codecs Blob unit := {|
  size := fun b => match b with Txt s => Z.of_nat (String.length s) | _ => 512 end;
  sha256 := fun b => match b with Txt s => s | JsonOf _ => "json" | TarOf _ => "tar" | TgzOf _ => "tgz" | CutTgz _ => "cut" | DumpOf _ => "dump" end%string;
  dumps := fun j => JsonOf (sorted_keys j);
  loads := fun b => match b with JsonOf j => Some j | _ => None end;
  read_text := fun b => match b with Txt s => Some s | _ => None end;
  write_tar := TarOf;
  read_tar := fun b => match b with TarOf ms => Members ms Complete | _ => NotTar end;
  write_tgz := TgzOf;
  read_tgz := fun b => match b with TgzOf ms => Members ms Complete | CutTgz ms => Members ms EOFError | _ => NotTar end;
  pg_dump := DumpOf;
  pg_restore := fun b => match b with DumpOf d => Some d | _ => None end;
  empty_database := mkDatabase None None [] [] [] [] [] tt
|}.
#[export] Instance blob_laws : CodecLaws blob_codecs.
Proof. by split. Qed.

(** ** The device *)

Definition root_dir : list string := ["srv"; "documents"]%string.
Lemma root_dir_normal : Forall (fun c => c <> ".."%string) root_dir.
Proof. by repeat (apply Forall_cons_2; [done|]). Qed.

(** The Google token is sealed under the first version of the key, the Twilio token under the second. *)
Definition sealed_row (k : Keyring) (plaintext : list ascii) (s : EncryptedSecret) : EncryptedSecret :=
  match sealed k (draw "x"%char) plaintext s with Ok s => s | Err _ => s end.
Definition google_row : EncryptedSecret := sealed_row kr1 token (mkSecret 0%N "google" "oauth_connection" 7%N 1 []).
Definition twilio_row : EncryptedSecret := sealed_row kr2 token (mkSecret 1%N "twilio" "provider_profile" 8%N 2 []).
Definition device_db : Database unit :=
  mkDatabase (Some ["0005"]) (Some ["kb1/notes.txt"; "kb1/purged.txt"]) [google_row; twilio_row]
    [mkConn "google" (Some 0%N) "CONNECTED" None] [mkProf "twilio" (Some 1%N) "CONNECTED"] [("small", "INSTALLED"); ("large", "DOWNLOADING")] [] tt.
Definition notes : list string := ["kb1"; "notes.txt"]%string.
Definition device_files (p : list string) : option Blob := if bool_decide (p = notes) then Some (Txt "hello") else None.

(** The master key with its first version only, as the file of the device. *)
Definition key_text : string := "1:6161616161616161616161616161616161616161616161616161616161616161".
Definition first_key : Blob := Txt key_text.

Definition jan : instant := 1767225600000000.
Definition take_at (now : instant) (label : option string) (k : option Blob) : Taken :=
  mkTaken "" label now "1.2.0" "16.4" device_db device_files k.

Abbreviation Dir := (gmap string (DirEntry (B := Blob))).
Definition made (name : option string) (t : Taken) (d : Dir) : Taken * Dir :=
  match create_backup root_dir name t ".tmp-scratch" jan d with Ok r => r | Err _ => (t, d) end.

Lemma made_ok name t d :
  match create_backup root_dir name t ".tmp-scratch" jan d with Ok _ => true | Err _ => false end = true ->
  create_backup root_dir name t ".tmp-scratch" jan d = Ok ((made name t d).1, (made name t d).2).
Proof. unfold made. destruct (create_backup _ _ _ _ _ _) as [[t' d']|]; [done|discriminate]. Qed.

Definition first_backup := made None (take_at jan (Some "nightly"%string) None) ∅.
Definition with_key := made None (take_at (jan + seconds 60) None (Some first_key)) first_backup.2.

Example names_of_the_backups :
  map bf_name (list_backups with_key.2) = ["crewquarters-backup-20260101T000100Z"; "crewquarters-backup-20260101T000000Z-nightly"]%string.
Proof. vm_compute. reflexivity. Qed.

(** ** Witnesses *)

(** Only [vm_compute] unfolds the two histories. *)
#[local] Opaque first_backup with_key.

Definition history : World := mkWorld with_key.2 ∅ [with_key.1; first_backup.1].

Lemma first_reached : rtc (step root_dir true) (fresh_world ∅) (mkWorld first_backup.2 ∅ [first_backup.1]).
Proof.
  destruct (create_steps root_dir true (fresh_world ∅) None (take_at jan (Some "nightly"%string) None) ".tmp-scratch" jan first_backup.1 first_backup.2)
    as (_ & _ & H & _); [apply made_ok; vm_compute; reflexivity|reflexivity|reflexivity|intros _; apply map_Forall_empty|exact H].
Qed.
Lemma history_reached : rtc (step root_dir true) (fresh_world ∅) history.
Proof.
  etrans; [exact first_reached|].
  destruct (create_steps root_dir true (mkWorld first_backup.2 ∅ [first_backup.1]) None (take_at (jan + seconds 60) None (Some first_key)) ".tmp-scratch" jan with_key.1 with_key.2)
    as (_ & _ & H & _); [apply made_ok; vm_compute; reflexivity|reflexivity|vm_compute; reflexivity|intros _; apply map_Forall_empty|exact H].
Qed.
Lemma no_backups : list_backups (B := Blob) (C := blob_codecs) ∅ = [].
Proof. vm_compute. reflexivity. Qed.

Definition nightly : string := "crewquarters-backup-20260101T000000Z-nightly".
Definition keyed : string := "crewquarters-backup-20260101T000100Z".
Definition newest : BackupFile := default (mkFile "" 0 0 None) (head (list_backups with_key.2)).

Lemma newest_listed : newest ∈ list_backups (wd_dir history).
Proof. unfold newest. change (wd_dir history) with with_key.2. destruct (list_backups with_key.2) as [|b l] eqn:E; [by vm_compute in E|by left]. Qed.


Lemma downloads_keyless_witness :
  download_backup (wd_dir history) keyed = Err "BACKUP_CONTAINS_MASTER_KEY"%string /\
  exists data t ms, download_backup (wd_dir history) nightly = Ok data /\ t ∈ wd_made history /\ tk_key t = None /\ data = taken_archive root_dir t /\
    read_tgz data = Members ms Complete /\ Forall (fun m => mb_name m <> PART_MASTER_KEY) ms.
Proof.
  split; [vm_compute; reflexivity|]. assert (Hd : exists data, download_backup (wd_dir history) nightly = Ok data) by (eexists; vm_compute; reflexivity).
  destruct Hd as [data Hd]. destruct (downloads_keyless root_dir ∅ history nightly data no_backups history_reached Hd) as (t & ms & H1 & _ & H2 & H3 & H4 & H5).
  exists data, t, ms. split; [exact Hd|]. split; [exact H1|]. split; [exact H2|]. split; [exact H3|]. split; [exact H4|exact H5].
Defined.

Lemma no_folders b m : b ∈ list_backups with_key.2 -> with_key.2 !! sidecar_path (bf_name b) <> Some (Folder m).
Proof.
  assert (Hall : forallb (fun b => match with_key.2 !! sidecar_path (bf_name b) with Some (Folder _) => false | _ => true end) (list_backups with_key.2) = true)
    by (vm_compute; reflexivity).
  rewrite forallb_forall in Hall. intros Hb%list_elem_of_In%Hall E. cbv beta in Hb.
  pose proof (eq_trans (f_equal (fun o => match o with Some (Folder _) => false | _ => true end) (eq_sym E)) Hb) as X. discriminate X.
Qed.

Lemma prune_keeps_newest_witness :
  exists d', prune 1 with_key.2 = (d', Ok [nightly]) /\ map bf_name (list_backups d') = [keyed].
Proof.
  destruct (prune_keeps_newest 1 with_key.2 no_folders) as (d' & E1 & E2 & _). exists d'. split.
  - rewrite E1. do 2 f_equal. all: vm_compute; reflexivity.
  - rewrite E2. vm_compute. reflexivity.
Defined.

(** *** A restore on a device with other contents *)

Definition release : Release (R := unit) := mkRelease ["0001"; "0005"; "0006"]%string "0006" (fun d => Some (d <| db_alembic := Some ["0006"%string] |>)).
Definition upload_path : list string := [".staging"; "upload.part"]%string.
Definition blank_device : Device (B := Blob) (R := unit) :=
  mkDevice empty_database (<[["kb9"; "later.txt"]%string := Txt "later"]> (<[upload_path := Txt "in flight"]> ∅)) (Some (mkKeyFile first_key false)) 0.
Definition check_only : RestoreArgs := mkArgs true false false true.
Definition migrated : Database unit := device_db <| db_alembic := Some ["0006"%string] |>.

Lemma first_key_loaded : load_keyring (Some (mkKeyFile first_key false)) = Ok (Some kr1).
Proof. vm_compute. reflexivity. Qed.
Lemma first_key_never_breaks : never_breaks (Some kr1) migrated.
Proof.
  intros k row [= <-] Hin. assert (Hall : forallb (fun row => match decrypt kr1 (es_ciphertext row) (context_of row) with Err OtherError => false | _ => true end)
    (db_secrets migrated) = true) by (vm_compute; reflexivity).
  rewrite forallb_forall in Hall. intros E. apply list_elem_of_In, Hall in Hin. by rewrite E in Hin.
Qed.

Lemma plain_device_paths : Forall (fun r => plain_path r = true) (taken_paths (B := Blob) (R := unit) with_key.1).
Proof. vm_compute. repeat (apply Forall_cons_2; [reflexivity|]). apply Forall_nil_2. Qed.

Lemma backup_restores_witness :
  exists dev' report, restore root_dir check_only release (taken_archive root_dir with_key.1) blank_device = (dev', Ok report) /\
    rr_documents report = 1 /\ dv_key dev' = dv_key blank_device /\
    dv_documents dev' !! notes = Some (Txt "hello") /\ dv_documents dev' !! upload_path = Some (Txt "in flight").
Proof.
  destruct (backup_restores root_dir root_dir_normal check_only release with_key.1 blank_device migrated (Some kr1)) as
    (dev' & report & check & db' & row & E & _ & _ & _ & _ & Hk & Hn & Hd).
  - vm_compute. discriminate.
  - exact plain_device_paths.
  - right. vm_compute. discriminate.
  - discriminate.
  - intros h Hh. vm_compute in Hh. injection Hh as <-. apply (bool_decide_unpack _). vm_compute. done.
  - vm_compute. reflexivity.
  - exact first_key_loaded.
  - exact first_key_never_breaks.
  - exists dev', report. split; [exact E|]. split.
    { assert (Hm : dt_missing (taken_documents root_dir with_key.1).2 = 1) by (vm_compute; reflexivity).
      assert (Hl : Z.of_nat (length (taken_paths (B := Blob) (R := unit) with_key.1)) = 2) by (vm_compute; reflexivity). lia. }
    split; [exact Hk|]. split; apply Hd.
    + right. exists "kb1/notes.txt"%string. split; [apply (bool_decide_unpack _); vm_compute; done|]. split; vm_compute; reflexivity.
    + left. split; vm_compute; reflexivity.
Defined.

Lemma twilio_sealed_off : sealed_off (R := unit) (Some kr1) migrated 1%N.
Proof.
  exists twilio_row. split; [right; left|]. split; [vm_compute; reflexivity|]. intros k p [= <-].
  assert (E : decrypt kr1 (es_ciphertext twilio_row) (context_of twilio_row) = Err NotLoaded) by (vm_compute; reflexivity). by rewrite E.
Qed.

Lemma secrets_checked_witness :
  exists check d', check_secrets (Some kr1) migrated = Ok (check, d') /\
    db_profiles d' !! 0%nat = Some (mkProf "twilio" (Some 1%N) "ERROR") /\ "twilio"%string ∈ sk_needs_attention check.
Proof.
  destruct (secrets_checked (Some kr1) migrated first_key_never_breaks) as (check & d' & E & _ & _ & Hp & Hn & _). exists check, d'.
  split; [exact E|]. split.
  - destruct (Hp 0%nat _ eq_refl) as (p & E1 & E2 & _). rewrite E1. f_equal. exact (E2 1%N eq_refl twilio_sealed_off).
  - apply Hn. right. exists (mkProf "twilio" (Some 1%N) "CONNECTED"), 1%N. split; [by left|]. split; [done|]. split; [done|exact twilio_sealed_off].
Defined.

(** An archive without its last part is refused and leaves the device as it is. *)
Definition docs_lost : Blob := TgzOf (take 2 (taken_members root_dir first_backup.1)).

(** ** Where the code departs from its documentation

    "The API path never includes the master key" holds for distinct names only; a damaged archive is
    not always refused with a [BackupError]; and what the restore says about keys is not what it does. *)

(** Two creations without a label start in the same second, one of them with the key.  Both find no
    archive of their name; the sidecar of the one without the key stays, the archive of the other too. *)
Definition twin (k : option Blob) : Taken := named "crewquarters-backup-20260101T000000Z" (take_at jan None k).

(** The owner API then hands out the archive with the key. *)
Theorem same_second_hands_out_key :
  exists w data, rtc (step root_dir false) (fresh_world ∅) w /\ download_backup (wd_dir w) "crewquarters-backup-20260101T000000Z" = Ok data /\
    exists ms, read_tgz data = Members ms Complete /\ mkMember PART_MASTER_KEY Regular first_key ∈ ms.
Proof.
  destruct (same_name_race root_dir jan None None "crewquarters-backup-20260101T000000Z" (twin (Some first_key)) (twin None) ".tmp-a" ".tmp-b" ∅)
    as (w & Hw & Ha & Hs); [vm_compute; reflexivity|done..|].
  exists w, (taken_archive root_dir (twin (Some first_key))). split; [exact Hw|]. split.
  - unfold download_backup. assert (Hn : is_name "crewquarters-backup-20260101T000000Z" = true) by (vm_compute; reflexivity). rewrite Hn, Ha. cbn [negb].
    unfold read_manifest, read_sidecar. rewrite Hs. destruct (sidecar_flag root_dir (twin None)) as (o & Eo & Hflag). rewrite Eo, Hflag. done.
  - exists (taken_members root_dir (twin (Some first_key))). split; [reflexivity|]. do 3 right. left.
Qed.

(** "Only the expected regular files are accepted; anything else fails verification": a key that the
    manifest does not list is accepted without a check. *)
Definition stray_key : Blob := TgzOf (taken_members root_dir first_backup.1 ++ [mkMember PART_MASTER_KEY Regular (Txt "anything")]).
Theorem stray_key_accepted :
  exists v, verify_archive stray_key = Ok v /\ assoc PART_MASTER_KEY (mf_parts (vb_manifest v)) = None /\ vb_files v !! PART_MASTER_KEY = Some (Txt "anything").
Proof. eexists. split; [vm_compute; reflexivity|]. split; vm_compute; reflexivity. Qed.

(** A copy that was cut short, and a manifest that is no JSON, end in other exceptions. *)
Theorem damaged_archives_raise :
  verify_archive (CutTgz (take 2 (taken_members root_dir first_backup.1))) = Err (Raised "EOFError") /\
  verify_archive (TgzOf [mkMember MANIFEST Regular (Txt "{")]) = Err (Raised "JSONDecodeError").
Proof. split; vm_compute; reflexivity. Qed.

(** The key is restored on a device that has no key file yet: the new file is readable by other users,
    so it is refused at once, and both accounts are marked although the key that opens one is there. *)
Definition bare : Device (B := Blob) (R := unit) := mkDevice empty_database ∅ None 0.
Definition restored_with (umask_private : bool) := restore root_dir (mkArgs true true false umask_private) release (taken_archive root_dir with_key.1) bare.
Definition attention (r : Device (B := Blob) (R := unit) * Result Failure RestoreReport) : option (bool * list string) :=
  match r.2 with Ok report => Some (rr_key_restored report, sk_needs_attention (rr_secrets report)) | Err _ => None end.
Theorem restored_key_unused :
  attention (restored_with true) = Some (true, ["twilio"]%string) /\ attention (restored_with false) = Some (true, ["google"; "twilio"]%string).
Proof. split; vm_compute; reflexivity. Qed.

(** A key file that cannot be used: the restore says that "secrets are not checked" and marks every account. *)
Theorem unchecked_secrets_marked :
  load_keyring (Some (mkKeyFile (Txt "garbled") false)) = Ok None /\
  match check_secrets None device_db with
  | Ok (check, d) => sk_unreadable check = 2 /\ map cn_status (db_connections d) = ["NEEDS_ATTENTION"%string] /\ map pf_status (db_profiles d) = ["ERROR"%string]
  | Err _ => False
  end.
Proof. split; vm_compute; [reflexivity|]. auto. Qed.
